(* ===== verification/_CoqProject ===== *)
-Q . S2P
Prelude.v
MathExtras.v
Memory.v
GenList.v
TimeoutQ.v
Kernel.v
PrioQ.v
Sched.v
SchedInv.v
SchedOps.v
Dispatch.v
Threads.v
Preempt.v
WaitApi.v
Sem.v
Mutex.v
MsgQ.v
KStack.v
Condvar.v
KQueue.v
Events.v
MemSlab.v
Timer.v
RingBuffer.v
Crc.v
Hex.v
Base64.v
Utf8.v
BitArray.v
Heap.v
HeapInv.v
HeapSpec.v
HeapClient.v
HeapRun.v
KHeap.v
MemPool.v
Pipe.v
PipeCopy.v
PipeRing.v
PipePut.v
PipeGet.v
PipeRun.v
Work.v
WorkKern.v
WorkInv.v
WorkTrace.v
WorkOps.v
WorkEnv.v
WorkRun.v
WorkFlush.v
