(* ===== verification/Prelude.v ===== *)
(** * Verification of the Zephyr kernel and its core libraries

    ** The program

    Zephyr is a real-time operating system.  Its kernel (kernel/) schedules
    threads by priority on one CPU, keeps sleeping and waiting threads in a
    timeout queue and in per-object wait queues, and builds its
    synchronisation and data-passing objects on the scheduler's primitives:
    an object makes the caller wait with [z_pend_curr], wakes a waiter with
    [z_unpend_first_thread] and [z_ready_thread], and ends with
    [z_reschedule].

    The modelled configuration is: one CPU (no SMP), new-style context
    switching (USE_SWITCH), MULTITHREADING, 64-bit timeouts, EVENTS, list-based
    wait queues; without TIMESLICING, POLL, USERSPACE and OBJ_CORE.  The numbers
    of priorities, the inheritance ceiling, deadline scheduling and sloppy idle
    are parameters (the class [Kconfig]).

    ** How code becomes definitions

    A C function is a Rocq function of the same name that takes the state it
    touches and returns the new one with its result; [z_kernel] is the state of
    kernel/sched.c with all threads, wait queues and the timeout queue.  C
    integers are [Z] with the wrap-around of their type written out.  Memory is
    a function from addresses to words or bytes.  A call that may switch
    context is modelled up to the switch: it yields [Returns v], or [Blocks]
    with the state in which the caller waits, and what the caller returns once
    it runs again is a function of the state at that time ([swap_return] and
    the like).  Spinlocks are interrupt locks on one CPU, so a call is one step.
    Traces, assertions and statistics hooks are left out.

    ** The files

    - Prelude: integers, flags, error codes, tactics, hints, list lemmas.
    - MathExtras: include/zephyr/sys/math_extras_impl.h.  The checked
      arithmetic is exact.
    - Memory: byte memory and [memcpy].
    - GenList: include/zephyr/sys/list_gen.h, slist.h, sflist.h.  The node
      accessors are a class with two instances; linked lists refine sequences.
    - TimeoutQ: kernel/timeout.c.  The delta list refines a list of absolute
      expiry ticks; announcing fires what is due, at its tick, in order, also
      when the callbacks arm further timeouts.
    - Kernel, Sched: thread records, state bits and the operations of
      kernel/sched.c, kernel/include/{kthread,ksched,kswap,priority_q}.h.
    - PrioQ: the ready queues, as instances of one class of queues.
    - SchedInv, SchedOps: the invariant of the scheduler state and that every
      operation keeps it.  [sched_inv X] allows the threads of [X] to be
      unsettled, as they are in the middle of an operation.
    - Dispatch, Preempt: the ready queue stays in priority order, so the
      thread that runs is the best one; when a switch happens.  These theorems
      and priority inheritance are about builds without deadline scheduling,
      the dispatch theorems about builds without meta-IRQ priorities.
    - Threads: kernel/thread.c and kernel/init.c: creating threads, booting;
      the invariant holds in every reachable state.
    - WaitApi: what waiting and waking do, as the kernel objects use them.
    - Sem, Mutex, MsgQ, KStack, Condvar, KQueue, Events, MemSlab:
      kernel/sem.c, mutex.c, msg_q.c, stack.c, condvar.c, queue.c, events.c,
      mem_slab.c: the behaviour of every call on every branch, and invariants
      over runs of calls.
    - Timer: kernel/timer.c on the timeout queue and the clock interrupt; a
      periodic timer alone in the queue does not drift; two on one tick can.
    - RingBuffer: lib/utils/ring_buffer.c.  Byte mode refines a queue of
      bytes with claimed ends, item mode a queue of items.
    - Crc: lib/crc/.  The fast checksums equal the bitwise ones and tell apart
      messages that differ in a byte.
    - Hex, Base64, Utf8: lib/utils/hex.c, dec.c, base64.c, utf8.c.  Round trips
      and the exact results on every input.
    - BitArray: lib/utils/bitarray.c.  Every operation in terms of the bits it
      reads and writes; the first-fit search; a range check that wraps.

    - Heap, HeapInv, HeapSpec, HeapClient, HeapRun: lib/heap/heap.c and
      heap.h.  [rep] relates the bytes of the heap to the list of its chunks
      and to its free lists; each step of the code is proved on [rep], then
      each call, then any run of a client: blocks are disjoint, keep their
      contents and are joined again when freed.  Requests of a size class the
      heap does not have are outside these theorems; they overrun the buckets.

    - KHeap, MemPool: kernel/kheap.c and kernel/mempool.c.  Threads that wait
      for memory never miss a release by [k_heap_free], but do miss one by
      [k_heap_realloc]; clients of [k_malloc] and the like are isolated from
      each other.

    - Pipe, PipeCopy, PipeRing, PipePut, PipeGet, PipeRun: kernel/pipes.c.
      The copying loops fill addresses with bytes in order; a put serves the
      waiting readers and the ring, a get takes from the ring and the waiting
      writers; over any run, with threads that give up and writers that overtake
      others of lower priority, the pipe is a first-in first-out stream.

    - Work, WorkKern, WorkInv, WorkTrace, WorkOps, WorkEnv, WorkRun, WorkFlush:
      kernel/work.c and kernel/system_work_q.c.  Work holds the items, queues
      and sync objects and every call, with the loop of the queue thread cut at
      the call of the handler; WorkKern what the calls do to the scheduler.  The
      invariant has three parts: where each item is (WorkInv), what the events
      so far add up to (WorkTrace), and who sleeps and why (WorkOps); WorkOps and
      WorkEnv prove it for each part of a call, WorkRun for any run.  Accepted
      submissions are run once or withdrawn, no item runs on two threads; two
      races are lost.  WorkFlush follows one flush through any run: it returns at
      once only for an idle item and otherwise waits for what came before it.

    ** Bounds and fuel

    Tick counts are taken below 2^61, far from the 64-bit limits, where no
    device arrives.  Loops over a wait queue take one unit of fuel per waiting
    thread, which is what they need since each iteration removes one; list
    traversals and the announce loop return [None] when they run out, and the
    theorems give the fuel that is enough.

    ** Not modelled

    SMP, time slicing, polling, user mode and system-call verification, the
    red-black-tree ready queue; mailboxes; device drivers, architecture and SoC
    code, and the subsystems above the kernel.  The message queues, stacks,
    queues and pipes take their allocator as a parameter; the handlers of work
    items are the program's, and what they do appears as further steps of a
    run. *)

From Stdlib Require Import ZArith Lia Bool Btauto.
From stdpp Require Import base numbers list gmap sorting.

Open Scope Z_scope.

(** ** Machine integers

    A C integer of width [w] is a [Z]; [wrap_u w] and [wrap_s w] are the
    conversions to the unsigned and the two's-complement signed type. *)

Definition wrap_u (w x : Z) : Z := x mod 2 ^ w.

Definition wrap_s (w x : Z) : Z := (x + 2 ^ (w - 1)) mod 2 ^ w - 2 ^ (w - 1).

Abbreviation u8 := (wrap_u 8).
Abbreviation u16 := (wrap_u 16).
Abbreviation u32 := (wrap_u 32).
Abbreviation u64 := (wrap_u 64).
Abbreviation s8 := (wrap_s 8).
Abbreviation s32 := (wrap_s 32).
Abbreviation s64 := (wrap_s 64).

(** [~x] of a [uint32_t] *)
Definition lnot32 (x : Z) : Z := u32 (Z.lnot x).

Definition is_byte (b : Z) : Prop := 0 <= b < 2 ^ 8.

Definition INT_MAX : Z := 2147483647.
Definition UINT32_MAX : Z := 4294967295.
Definition UINT64_MAX : Z := 18446744073709551615.

(** ** Bit flags: the idioms [x |= f], [x &= ~f] and [(x & f) != 0] *)

Definition BIT (k : Z) : Z := Z.shiftl 1 k.

Definition flag_set (x f : Z) : Z := Z.lor x f.

Definition flag_clear (x f : Z) : Z := Z.land x (Z.lnot f).

Definition flag_any (x f : Z) : bool := negb (Z.land x f =? 0).

(** ** Error numbers (lib/libc/minimal/include/errno.h) *)

Definition EPERM : Z := 1.
Definition EAGAIN : Z := 11.
Definition ENOMEM : Z := 12.
Definition EBUSY : Z := 16.
Definition EINVAL : Z := 22.
Definition ENOSPC : Z := 28.
Definition ENOMSG : Z := 35.
Definition EDEADLK : Z := 45.
Definition EALREADY : Z := 120.
Definition ENOTSUP : Z := 134.

(** ** Timeouts (include/zephyr/sys_clock.h): a [k_timeout_t] is its tick count *)

Definition K_TICKS_FOREVER : Z := -1.
Definition K_FOREVER : Z := K_TICKS_FOREVER.
Definition K_NO_WAIT : Z := 0.
Definition K_TIMEOUT_EQ (a b : Z) : bool := a =? b.
Definition Z_TICK_ABS (t : Z) : Z := K_TICKS_FOREVER - 1 - t.

(** ** Automation *)

Create Rewrite HintDb bits.
Create HintDb zkernel.

(** Case analysis on every boolean test and match of the goal. *)
Ltac case_bools :=
  repeat match goal with
  | |- context [ if ?b then _ else _ ] => destruct b eqn:?
  end.

(** Closed, decidable facts about concrete states, by evaluation. *)
Ltac by_compute :=
  first [vm_compute; reflexivity
        | let H := fresh in intro H; vm_compute in H; discriminate H
        | apply (bool_decide_unpack _); vm_compute; exact I].

Ltac bool_hyps :=
  repeat match goal with
  | H : (_ && _) = true |- _ => apply andb_true_iff in H; destruct H
  | H : (_ || _) = false |- _ => apply orb_false_iff in H; destruct H
  | H : negb _ = true |- _ => apply negb_true_iff in H
  | H : negb _ = false |- _ => apply negb_false_iff in H
  | H : (_ =? _) = true |- _ => apply Z.eqb_eq in H
  | H : (_ =? _) = false |- _ => apply Z.eqb_neq in H
  | H : (_ <? _) = true |- _ => apply Z.ltb_lt in H
  | H : (_ <? _) = false |- _ => apply Z.ltb_ge in H
  | H : (_ <=? _) = true |- _ => apply Z.leb_le in H
  | H : (_ <=? _) = false |- _ => apply Z.leb_gt in H
  end.

(** ** Lemmas on machine integers *)

Lemma wrap_u_id w x : 0 <= x < 2 ^ w -> wrap_u w x = x.
Proof. apply Z.mod_small. Qed.

Lemma wrap_u_bound w x : 0 <= w -> 0 <= wrap_u w x < 2 ^ w.
Proof. intros. apply Z.mod_pos_bound. lia. Qed.

Lemma wrap_s_id w x : - 2 ^ (w - 1) <= x < 2 ^ (w - 1) -> 0 < w -> wrap_s w x = x.
Proof.
  intros Hx Hw. unfold wrap_s. rewrite Z.mod_small; [lia |].
  replace (2 ^ w) with (2 * 2 ^ (w - 1)); [lia |].
  rewrite <- Z.pow_succ_r by lia. f_equal. lia.
Qed.

Lemma wrap_s_bound w x : 0 < w -> - 2 ^ (w - 1) <= wrap_s w x < 2 ^ (w - 1).
Proof.
  intros Hw. unfold wrap_s.
  assert (2 ^ w = 2 * 2 ^ (w - 1)) as E.
  { rewrite <- Z.pow_succ_r by lia. f_equal. lia. }
  assert (0 < 2 ^ w) by lia.
  pose proof (Z.mod_pos_bound (x + 2 ^ (w - 1)) (2 ^ w)). lia.
Qed.

(** Facts about all bytes, by evaluation. *)
Lemma all_bytes (P : Z -> bool) b : forallb (λ n, P (Z.of_nat n)) (seq 0 256) = true -> is_byte b -> P b = true.
Proof.
  unfold is_byte. intros H Hb. rewrite forallb_forall in H. specialize (H (Z.to_nat b)).
  rewrite Z2Nat.id in H by lia. apply H, in_seq. lia.
Qed.

(** Conversions see their argument modulo [2 ^ w]. *)
Lemma wrap_s_shift w x : 0 < w -> exists k, wrap_s w x = x + k * 2 ^ w.
Proof.
  intros Hw. unfold wrap_s. exists (- ((x + 2 ^ (w - 1)) / 2 ^ w)).
  pose proof (Z.div_mod (x + 2 ^ (w - 1)) (2 ^ w)). lia.
Qed.

Lemma wrap_u_period w x k : 0 < w -> wrap_u w (x + k * 2 ^ w) = wrap_u w x.
Proof. intros Hw. apply Z_mod_plus_full. Qed.

Lemma wrap_s_period w x k : 0 < w -> wrap_s w (x + k * 2 ^ w) = wrap_s w x.
Proof.
  intros Hw. unfold wrap_s. replace (x + k * 2 ^ w + 2 ^ (w - 1)) with (x + 2 ^ (w - 1) + k * 2 ^ w) by lia.
  by rewrite Z_mod_plus_full.
Qed.

Lemma wrap_u_sub_s w a b : 0 < w -> wrap_u w (wrap_s w a - wrap_s w b) = wrap_u w (a - b).
Proof.
  intros Hw. destruct (wrap_s_shift w a Hw) as [i ->], (wrap_s_shift w b Hw) as [j ->].
  replace (a + i * 2 ^ w - (b + j * 2 ^ w)) with (a - b + (i - j) * 2 ^ w) by lia. by apply wrap_u_period.
Qed.

Lemma wrap_s_sub_s w a b : 0 < w -> wrap_s w (wrap_s w a - wrap_s w b) = wrap_s w (a - b).
Proof.
  intros Hw. destruct (wrap_s_shift w a Hw) as [i ->], (wrap_s_shift w b Hw) as [j ->].
  replace (a + i * 2 ^ w - (b + j * 2 ^ w)) with (a - b + (i - j) * 2 ^ w) by lia. by apply wrap_s_period.
Qed.

Lemma wrap_s_add_s w a b : 0 < w -> wrap_s w (wrap_s w a + b) = wrap_s w (a + b).
Proof.
  intros Hw. destruct (wrap_s_shift w a Hw) as [i ->].
  replace (a + i * 2 ^ w + b) with (a + b + i * 2 ^ w) by lia. by apply wrap_s_period.
Qed.

Lemma wrap_s_inj w a b : 0 < w -> wrap_s w a = wrap_s w b -> - 2 ^ w < a - b < 2 ^ w -> a = b.
Proof.
  intros Hw E Hd. destruct (wrap_s_shift w a Hw) as [i Hi], (wrap_s_shift w b Hw) as [j Hj].
  assert (0 < 2 ^ w) by lia. assert (i - j = 0) by nia. nia.
Qed.

(** ** Lemmas on flags *)

Lemma BIT_testbit k i : 0 <= k -> 0 <= i -> Z.testbit (BIT k) i = (k =? i).
Proof.
  intros. unfold BIT. rewrite Z.shiftl_spec by lia.
  destruct (Z.eqb_spec k i) as [-> | Hne].
  - rewrite Z.sub_diag. reflexivity.
  - destruct (Z.ltb_spec i k).
    + apply Z.testbit_neg_r. lia.
    + rewrite <- (Z.pow_0_r 2), Z.pow2_bits_false; [done | lia].
Qed.

Lemma flag_any_BIT x k : 0 <= k -> flag_any x (BIT k) = Z.testbit x k.
Proof.
  intros Hk. unfold flag_any.
  destruct (Z.testbit x k) eqn:E.
  - apply negb_true_iff, Z.eqb_neq. intros H.
    assert (Z.testbit (Z.land x (BIT k)) k = false) as F by (rewrite H; apply Z.testbit_0_l).
    rewrite Z.land_spec, E, BIT_testbit, Z.eqb_refl in F by lia. done.
  - apply negb_false_iff, Z.eqb_eq, Z.bits_inj'. intros i Hi.
    rewrite Z.land_spec, BIT_testbit, Z.testbit_0_l by lia.
    destruct (Z.eqb_spec k i); subst; rewrite ?E; btauto.
Qed.

Lemma flag_any_lor x f g : flag_any x (Z.lor f g) = flag_any x f || flag_any x g.
Proof.
  unfold flag_any. rewrite Z.land_lor_distr_r.
  rewrite <- negb_andb. f_equal.
  destruct (Z.eqb_spec (Z.land x f) 0) as [-> |],
    (Z.eqb_spec (Z.land x g) 0) as [-> |]; simpl; try done;
    try (apply Z.eqb_neq; rewrite ?Z.lor_0_l, ?Z.lor_0_r; done).
  apply Z.eqb_neq. rewrite Z.lor_eq_0_iff. tauto.
Qed.

Lemma flag_set_testbit x k i :
  0 <= k -> 0 <= i -> Z.testbit (flag_set x (BIT k)) i = Z.testbit x i || (k =? i).
Proof. intros. unfold flag_set. by rewrite Z.lor_spec, BIT_testbit. Qed.

Lemma flag_clear_testbit x k i :
  0 <= k -> 0 <= i -> Z.testbit (flag_clear x (BIT k)) i = Z.testbit x i && negb (k =? i).
Proof. intros. unfold flag_clear. by rewrite Z.land_spec, Z.lnot_spec, BIT_testbit. Qed.

#[export] Hint Rewrite flag_any_lor : bits.
#[export] Hint Rewrite flag_any_BIT BIT_testbit flag_set_testbit flag_clear_testbit using lia : bits.

Lemma lor_bound n x y : 0 <= n -> 0 <= x < 2 ^ n -> 0 <= y < 2 ^ n -> 0 <= Z.lor x y < 2 ^ n.
Proof.
  intros Hn Hx Hy.
  assert (Z.lor x y = Z.lor x y mod 2 ^ n) as ->; [| apply Z.mod_pos_bound; lia].
  rewrite <- Z.land_ones, Z.land_lor_distr_l, !Z.land_ones, !Z.mod_small by lia. done.
Qed.

Lemma lxor_bound n x y : 0 <= n -> 0 <= x < 2 ^ n -> 0 <= y < 2 ^ n -> 0 <= Z.lxor x y < 2 ^ n.
Proof.
  intros Hn Hx Hy. assert (Z.lxor x y = Z.lxor x y mod 2 ^ n) as ->; [| apply Z.mod_pos_bound; lia].
  rewrite <- Z.land_ones by lia. apply Z.bits_inj'. intros i Hi. rewrite Z.land_spec. destruct (Z.ltb_spec i n).
  - rewrite Z.ones_spec_low by lia. btauto.
  - rewrite Z.lxor_spec, Z.ones_spec_high by lia.
    rewrite <- (Z.mod_small x (2 ^ n)), <- (Z.mod_small y (2 ^ n)), !Z.mod_pow2_bits_high by lia. done.
Qed.

Lemma shiftr_bound n k x : 0 <= k -> 0 <= n -> 0 <= x < 2 ^ n -> 0 <= Z.shiftr x k < 2 ^ n.
Proof.
  intros Hk Hn Hx. rewrite Z.shiftr_div_pow2 by lia. assert (0 < 2 ^ k) by lia.
  split; [apply Z.div_pos; lia |]. apply Z.div_lt_upper_bound; nia.
Qed.

Lemma testbit_above n x i : 0 <= n <= i -> 0 <= x < 2 ^ n -> Z.testbit x i = false.
Proof. intros Hi Hx. rewrite <- (Z.mod_small x (2 ^ n)), Z.mod_pow2_bits_high by lia. done. Qed.

Lemma land_bound n x y : 0 <= n -> 0 <= x < 2 ^ n -> 0 <= Z.land x y < 2 ^ n.
Proof.
  intros Hn Hx.
  assert (Z.land x y = Z.land x y mod 2 ^ n) as ->; [| apply Z.mod_pos_bound; lia].
  rewrite <- Z.land_ones, <- Z.land_assoc, (Z.land_comm y), Z.land_assoc, Z.land_ones, Z.mod_small by lia.
  done.
Qed.

(** ** Generic list lemmas *)

Lemma filter_keep {A} (P : A -> Prop) `{!∀ x, Decision (P x)} (l : list A) :
  (∀ x, x ∈ l -> P x) -> filter P l = l.
Proof.
  induction l as [| x l IH]; intros Hl; [done |].
  rewrite filter_cons_True by (apply Hl; set_solver). f_equal. apply IH. set_solver.
Qed.

Lemma filter_ext_elem {A} (P Q : A -> Prop) `{!∀ x, Decision (P x)} `{!∀ x, Decision (Q x)} (l : list A) :
  (∀ x, x ∈ l -> P x <-> Q x) -> filter P l = filter Q l.
Proof.
  induction l as [| x l IH]; intros Hl; [done |]. rewrite !filter_cons, IH by set_solver.
  pose proof (Hl x ltac:(set_solver)). destruct (decide (P x)), (decide (Q x)); tauto.
Qed.

Lemma filter_fmap {A B} (f : A -> B) (P : B -> Prop) `{!∀ x, Decision (P x)} (l : list A) :
  filter P (f <$> l) = f <$> filter (λ x, P (f x)) l.
Proof.
  induction l as [| x l IH]; [done |]. rewrite fmap_cons, !filter_cons, IH. by destruct (decide (P (f x))).
Qed.

Lemma filter_none {A} (P : A -> Prop) `{!∀ x, Decision (P x)} (l : list A) :
  (∀ x, x ∈ l -> ¬ P x) -> filter P l = [].
Proof.
  induction l as [| x l IH]; intros Hl; [done |].
  rewrite filter_cons_False by (apply Hl; set_solver). apply IH. set_solver.
Qed.

(** ** Doubly linked lists as sequences

    A [sys_dlist_t] is the sequence of its nodes; unlinking a node deletes
    it from the sequence it is in. *)

Section Dlist.
Context {A : Type} `{EqDecision A}.

Definition dlist_remove (x : A) (l : list A) : list A := filter (λ y, y ≠ x) l.

Lemma dlist_remove_elem x y (l : list A) : y ∈ dlist_remove x l <-> y ≠ x /\ y ∈ l.
Proof. unfold dlist_remove. by rewrite list_elem_of_filter. Qed.

Lemma dlist_remove_nodup x (l : list A) : NoDup l -> NoDup (dlist_remove x l).
Proof. apply NoDup_filter. Qed.

Lemma dlist_remove_absent x (l : list A) : x ∉ l -> dlist_remove x l = l.
Proof.
  intros H. apply filter_keep. by intros y Hy ->.
Qed.

Lemma dlist_remove_head x (l : list A) : NoDup (x :: l) -> dlist_remove x (x :: l) = l.
Proof.
  rewrite NoDup_cons. intros [Hx _]. unfold dlist_remove.
  rewrite filter_cons_False by tauto. by apply dlist_remove_absent.
Qed.

Lemma dlist_remove_sorted (R : relation A) x (l : list A) :
  StronglySorted R l -> StronglySorted R (dlist_remove x l).
Proof.
  induction 1 as [| y l Hs IH Hf]; [constructor |].
  unfold dlist_remove. rewrite filter_cons. case_decide; [| done].
  constructor; [done |]. rewrite Forall_forall in *.
  intros z Hz%list_elem_of_filter. apply Hf. tauto.
Qed.

Lemma dlist_remove_length x (l : list A) :
  NoDup l -> x ∈ l -> length l = S (length (dlist_remove x l)).
Proof.
  intros Hnd Hx. induction l as [| y l IH]; [by apply elem_of_nil in Hx |].
  destruct (decide (y = x)) as [-> | Hne].
  - by rewrite dlist_remove_head.
  - unfold dlist_remove. rewrite filter_cons_True by done. simpl. f_equal.
    apply NoDup_cons in Hnd as [_ Hnd]. apply IH; [done |].
    by apply elem_of_cons in Hx as [-> |].
Qed.

End Dlist.
