(* ===== verification/MathExtras.v ===== *)
(** * Overflow-checked arithmetic and bit scans (include/zephyr/sys/math_extras_impl.h)

    The portable versions, the ones the header uses when the compiler has no
    builtin for them.  A function that returns its result through a pointer
    and a flag returns the pair [(result, flag)]. *)

From Stdlib Require Import ZArith Lia Bool.
From stdpp Require Import base numbers list.
From S2P Require Import Prelude.

Open Scope Z_scope.

(** [c = a + b; return c < a;] at width [w] *)
Definition add_overflow (w a b : Z) : Z * bool :=
  let c := wrap_u w (a + b) in (c, c <? a).

(** [c = a * b; return a != 0 && (c / a) != b;] at width [w] *)
Definition mul_overflow (w a b : Z) : Z * bool :=
  let c := wrap_u w (a * b) in (c, negb (a =? 0) && negb (c / a =? b)).

Definition u16_add_overflow (a b : Z) : Z * bool := add_overflow 16 a b.
Definition u32_add_overflow (a b : Z) : Z * bool := add_overflow 32 a b.
Definition u64_add_overflow (a b : Z) : Z * bool := add_overflow 64 a b.
(** [size_t] is 32 bits wide on the 32-bit targets. *)
Definition size_add_overflow (a b : Z) : Z * bool := add_overflow 32 a b.
Definition u16_mul_overflow (a b : Z) : Z * bool := mul_overflow 16 a b.
Definition u32_mul_overflow (a b : Z) : Z * bool := mul_overflow 32 a b.
Definition u64_mul_overflow (a b : Z) : Z * bool := mul_overflow 64 a b.
Definition size_mul_overflow (a b : Z) : Z * bool := mul_overflow 32 a b.

(** [for (b = 0; b < n && (x >> 31) == 0; b++) x <<= 1;] *)
Fixpoint clz_loop (n : nat) (x b : Z) : Z :=
  match n with
  | O => b
  | S n => if Z.shiftr x 31 =? 0 then clz_loop n (u32 (Z.shiftl x 1)) (b + 1) else b
  end.

Definition u32_count_leading_zeros (x : Z) : Z := clz_loop 32 x 0.

Definition u64_count_leading_zeros (x : Z) : Z :=
  if x =? u32 x then 32 + u32_count_leading_zeros (u32 x)
  else u32_count_leading_zeros (u32 (Z.shiftr x 32)).

(** [for (b = 0; b < n && (x & 1) == 0; b++) x >>= 1;] *)
Fixpoint ctz_loop (n : nat) (x b : Z) : Z :=
  match n with
  | O => b
  | S n => if Z.land x 1 =? 0 then ctz_loop n (Z.shiftr x 1) (b + 1) else b
  end.

Definition u32_count_trailing_zeros (x : Z) : Z := ctz_loop 32 x 0.

Definition u64_count_trailing_zeros (x : Z) : Z :=
  if negb (u32 x =? 0) then u32_count_trailing_zeros (u32 x)
  else 32 + u32_count_trailing_zeros (u32 (Z.shiftr x 32)).

(** ** Overflow detection is exact *)

Lemma add_overflow_exact w a b :
  0 <= w -> 0 <= a < 2 ^ w -> 0 <= b < 2 ^ w ->
  add_overflow w a b = ((a + b) mod 2 ^ w, 2 ^ w <=? a + b).
Proof.
  intros Hw Ha Hb. unfold add_overflow, wrap_u. f_equal.
  destruct (Z.leb_spec (2 ^ w) (a + b)).
  - replace ((a + b) mod 2 ^ w) with (a + b - 2 ^ w); [apply Z.ltb_lt; lia |].
    symmetry. rewrite <- (Z.mod_small (a + b - 2 ^ w) (2 ^ w)) by lia.
    replace (a + b - 2 ^ w) with (a + b + (-1) * 2 ^ w) by lia. by rewrite Z.mod_add by lia.
  - rewrite Z.mod_small by lia. apply Z.ltb_ge. lia.
Qed.

Lemma mul_overflow_exact w a b :
  0 <= w -> 0 <= a < 2 ^ w -> 0 <= b < 2 ^ w ->
  mul_overflow w a b = ((a * b) mod 2 ^ w, 2 ^ w <=? a * b).
Proof.
  intros Hw Ha Hb. unfold mul_overflow, wrap_u. f_equal.
  destruct (Z.eqb_spec a 0) as [-> | Ha0]; simpl; [symmetry; apply Z.leb_gt; lia |].
  destruct (Z.leb_spec (2 ^ w) (a * b)) as [Hov | Hno].
  - apply negb_true_iff, Z.eqb_neq. intros Hq.
    pose proof (Z.mod_pos_bound (a * b) (2 ^ w)).
    pose proof (Z.mul_div_le ((a * b) mod 2 ^ w) a). nia.
  - rewrite Z.mod_small by nia. apply negb_false_iff, Z.eqb_eq.
    rewrite Z.mul_comm. by apply Z.div_mul.
Qed.

(** ** Trailing zeros: the index of the lowest set bit *)

Lemma land_1_testbit x : (Z.land x 1 =? 0) = negb (Z.testbit x 0).
Proof.
  change 1 with (Z.ones 1) at 1. rewrite Z.land_ones by lia. rewrite Z.bit0_odd.
  change (2 ^ 1) with 2. rewrite Zmod_odd. by destruct (Z.odd x).
Qed.

Lemma ctz_loop_spec n x b :
  b <= ctz_loop n x b <= b + Z.of_nat n /\
  (∀ i, 0 <= i < ctz_loop n x b - b -> Z.testbit x i = false) /\
  (ctz_loop n x b < b + Z.of_nat n -> Z.testbit x (ctz_loop n x b - b) = true).
Proof.
  revert x b. induction n as [| n IH]; intros x b; cbn [ctz_loop].
  - repeat split; intros; lia.
  - rewrite land_1_testbit. destruct (Z.testbit x 0) eqn:E0; cbn [negb].
    + rewrite Z.sub_diag. repeat split; intros; (lia || done).
    + destruct (IH (Z.shiftr x 1) (b + 1)) as (Hb & Hl & Hs). repeat split; [lia.. | |].
      * intros i Hi. destruct (Z.eqb_spec i 0) as [-> |]; [done |].
        specialize (Hl (i - 1)). rewrite Z.shiftr_spec in Hl by lia.
        replace (i - 1 + 1) with i in Hl by lia. apply Hl. lia.
      * intros Hlt. rewrite Z.shiftr_spec in Hs by lia.
        rewrite <- Hs by lia. f_equal. lia.
Qed.

Lemma u32_ctz_lowest x :
  0 < x < 2 ^ 32 ->
  let b := u32_count_trailing_zeros x in
  0 <= b < 32 /\ Z.testbit x b = true /\ ∀ i, 0 <= i < b -> Z.testbit x i = false.
Proof.
  intros Hx b. pose proof (ctz_loop_spec 32 x 0) as (Hb & Hl & Hs).
  change (ctz_loop 32 x 0) with b in Hb, Hl, Hs. rewrite !Z.sub_0_r in *.
  assert (b < 32).
  { destruct (Z.ltb_spec b 32); [done |]. exfalso.
    assert (x = 0); [| lia]. apply Z.bits_inj'. intros i Hi. rewrite Z.testbit_0_l.
    destruct (Z.ltb_spec i 32); [apply Hl; lia |].
    rewrite <- (Z.mod_small x (2 ^ 32)) by lia. by apply Z.mod_pow2_bits_high. }
  repeat split; try lia; [apply Hs; lia |]. intros i Hi. apply Hl. lia.
Qed.

Lemma testbit_mod x n i : 0 <= n -> 0 <= i < n -> Z.testbit (x mod 2 ^ n) i = Z.testbit x i.
Proof. intros. apply Z.mod_pow2_bits_low. lia. Qed.

Lemma u64_ctz_lowest x :
  0 < x < 2 ^ 64 ->
  let b := u64_count_trailing_zeros x in
  0 <= b < 64 /\ Z.testbit x b = true /\ ∀ i, 0 <= i < b -> Z.testbit x i = false.
Proof.
  intros Hx b. unfold b, u64_count_trailing_zeros.
  destruct (Z.eqb_spec (u32 x) 0) as [Hz | Hnz]; cbn [negb].
  - assert (u32 (Z.shiftr x 32) = Z.shiftr x 32) as E.
    { apply wrap_u_id. rewrite Z.shiftr_div_pow2 by lia.
      split; [apply Z.div_pos; lia | apply Z.div_lt_upper_bound; lia]. }
    destruct (u32_ctz_lowest (u32 (Z.shiftr x 32))) as (Hb & Ht & Hl).
    { rewrite E. rewrite Z.shiftr_div_pow2 in * by lia. unfold wrap_u in Hz.
      pose proof (Z.div_mod x (2 ^ 32)). split; [lia | apply Z.div_lt_upper_bound; lia]. }
    rewrite E in *. set (c := u32_count_trailing_zeros _) in *.
    rewrite Z.shiftr_spec in Ht by lia.
    split; [lia |]. split; [rewrite <- Ht; f_equal; lia |]. intros i Hi.
    destruct (Z.ltb_spec i 32).
    + rewrite <- (testbit_mod x 32) by lia. unfold wrap_u in Hz. by rewrite Hz, Z.testbit_0_l.
    + specialize (Hl (i - 32)). rewrite Z.shiftr_spec in Hl by lia.
      replace (i - 32 + 32) with i in Hl by lia. apply Hl. lia.
  - pose proof (wrap_u_bound 32 x).
    destruct (u32_ctz_lowest (u32 x)) as (Hb & Ht & Hl); [lia |].
    set (c := u32_count_trailing_zeros _) in *. unfold wrap_u in *.
    rewrite testbit_mod in Ht by lia. split; [lia |]. split; [done |].
    intros i Hi. rewrite <- (testbit_mod x 32) by lia. apply Hl. lia.
Qed.

(** ** Leading zeros: the distance of the highest set bit from bit 31 *)

Lemma clz_loop_spec n x b :
  0 < x < 2 ^ 32 -> 31 - Z.log2 x <= Z.of_nat n -> clz_loop n x b = b + 31 - Z.log2 x.
Proof.
  revert x b. induction n as [| n IH]; intros x b Hx Hn.
  - assert (Z.log2 x < 32) by (apply Z.log2_lt_pow2; lia). simpl. lia.
  - cbn [clz_loop]. rewrite Z.shiftr_div_pow2 by lia.
    destruct (Z.eqb_spec (x / 2 ^ 31) 0) as [Hz | Hnz].
    + apply Z.div_small_iff in Hz; [| lia].
      rewrite Z.shiftl_mul_pow2, wrap_u_id by lia. change (2 ^ 1) with 2.
      assert (Z.log2 (x * 2) = Z.log2 x + 1).
      { rewrite Z.mul_comm. rewrite Z.log2_double by lia. lia. }
      rewrite IH by lia. lia.
    + assert (2 ^ 31 <= x).
      { destruct (Z.leb_spec (2 ^ 31) x); [done |]. exfalso. apply Hnz. apply Z.div_small. lia. }
      assert (Z.log2 x = 31) by (apply Z.log2_unique; lia). lia.
Qed.

Lemma u32_clz_log2 x : 0 < x < 2 ^ 32 -> u32_count_leading_zeros x = 31 - Z.log2 x.
Proof.
  intros Hx. unfold u32_count_leading_zeros. rewrite clz_loop_spec; [lia | done |].
  pose proof (Z.log2_nonneg x). lia.
Qed.

(** ** Claims *)

(** The overflow-checked additions and multiplications return the result
    modulo 2^w, and report an overflow exactly when the mathematical result
    does not fit in w bits. *)
Theorem overflow_checks_exact a b :
  (0 <= a < 2 ^ 32 -> 0 <= b < 2 ^ 32 ->
   u32_add_overflow a b = ((a + b) mod 2 ^ 32, 2 ^ 32 <=? a + b) /\
   size_add_overflow a b = ((a + b) mod 2 ^ 32, 2 ^ 32 <=? a + b) /\
   u32_mul_overflow a b = ((a * b) mod 2 ^ 32, 2 ^ 32 <=? a * b) /\
   size_mul_overflow a b = ((a * b) mod 2 ^ 32, 2 ^ 32 <=? a * b)) /\
  (0 <= a < 2 ^ 64 -> 0 <= b < 2 ^ 64 ->
   u64_add_overflow a b = ((a + b) mod 2 ^ 64, 2 ^ 64 <=? a + b) /\
   u64_mul_overflow a b = ((a * b) mod 2 ^ 64, 2 ^ 64 <=? a * b)).
Proof.
  unfold u32_add_overflow, size_add_overflow, u32_mul_overflow, size_mul_overflow, u64_add_overflow, u64_mul_overflow.
  split; intros Ha Hb; rewrite ?add_overflow_exact, ?mul_overflow_exact by lia; done.
Qed.

Lemma overflow_checks_exact_witness :
  u32_mul_overflow 65536 65536 = (0, true) /\ u64_add_overflow (2 ^ 64 - 1) 1 = (0, true).
Proof.
  split; [exact (proj1 (proj2 (proj2 (proj1 (overflow_checks_exact 65536 65536) ltac:(lia) ltac:(lia)))))
         | exact (proj1 (proj2 (overflow_checks_exact (2 ^ 64 - 1) 1) ltac:(lia) ltac:(lia)))].
Defined.
