(* ===== verification/Memory.v ===== *)
(** * Byte memory

    Addresses and bytes are integers; [memcpy] reads its source before it
    writes, as for the non-overlapping buffers the standard asks for. *)

From Stdlib Require Import ZArith Lia Bool.
From stdpp Require Import base numbers list.
From S2P Require Import Prelude.

Open Scope Z_scope.

Definition mem := Z -> Z.

Definition read_bytes (m : mem) (a : Z) (n : nat) : list Z := (λ i, m (a + Z.of_nat i)) <$> seq 0 n.

Definition write_bytes (m : mem) (a : Z) (l : list Z) : mem :=
  λ x, if (a <=? x) && (x <? a + Z.of_nat (length l)) then l !!! Z.to_nat (x - a) else m x.

Definition memcpy (dst src : Z) (n : nat) (m : mem) : mem := write_bytes m dst (read_bytes m src n).

(** Two ranges with no byte in common. *)
Definition disjoint_ranges (a na b nb : Z) : Prop := a + na <= b \/ b + nb <= a.

Lemma read_bytes_length m a n : length (read_bytes m a n) = n.
Proof. unfold read_bytes. by rewrite length_fmap, length_seq. Qed.

Lemma read_bytes_lookup m a n i :
  (i < n)%nat -> read_bytes m a n !! i = Some (m (a + Z.of_nat i)).
Proof. intros Hi. unfold read_bytes. rewrite list_lookup_fmap, lookup_seq_lt by done. done. Qed.

Lemma read_bytes_ext m m' a n :
  (∀ x, a <= x < a + Z.of_nat n -> m x = m' x) -> read_bytes m a n = read_bytes m' a n.
Proof.
  intros H. unfold read_bytes. apply list_fmap_ext. intros i k Hi%lookup_seq. apply H. lia.
Qed.

Lemma read_write_same m a l : read_bytes (write_bytes m a l) a (length l) = l.
Proof.
  apply list_eq. intros i. destruct (decide (i < length l)%nat) as [Hi | Hi].
  - rewrite read_bytes_lookup by done. unfold write_bytes.
    destruct (Z.leb_spec a (a + Z.of_nat i)), (Z.ltb_spec (a + Z.of_nat i) (a + Z.of_nat (length l))); simpl; try lia.
    replace (Z.to_nat (a + Z.of_nat i - a)) with i by lia.
    symmetry. by apply list_lookup_lookup_total_lt.
  - rewrite !lookup_ge_None_2; [done | lia | rewrite read_bytes_length; lia].
Qed.

Lemma read_write_other m a l b n :
  disjoint_ranges a (Z.of_nat (length l)) b (Z.of_nat n) -> read_bytes (write_bytes m a l) b n = read_bytes m b n.
Proof.
  intros Hd. apply read_bytes_ext. intros x Hx. unfold write_bytes, disjoint_ranges in *.
  destruct (Z.leb_spec a x), (Z.ltb_spec x (a + Z.of_nat (length l))); simpl; (done || lia).
Qed.

Lemma read_memcpy_same dst src n m : read_bytes (memcpy dst src n m) dst n = read_bytes m src n.
Proof.
  unfold memcpy. rewrite <- (read_bytes_length m src n) at 2. apply read_write_same.
Qed.

Lemma read_memcpy_other dst src n m b k :
  disjoint_ranges dst (Z.of_nat n) b (Z.of_nat k) -> read_bytes (memcpy dst src n m) b k = read_bytes m b k.
Proof. intros. apply read_write_other. by rewrite read_bytes_length. Qed.

Lemma read_bytes_app m a n k :
  read_bytes m a (n + k) = read_bytes m a n ++ read_bytes m (a + Z.of_nat n) k.
Proof.
  unfold read_bytes. rewrite seq_app, fmap_app. f_equal.
  replace (seq (0 + n) k) with (Nat.add n <$> seq 0 k) by (rewrite fmap_add_seq; f_equal; lia).
  rewrite <- list_fmap_compose. apply list_fmap_ext. intros i x _. simpl. f_equal. lia.
Qed.

Lemma write_bytes_app m a l k x :
  write_bytes (write_bytes m a l) (a + Z.of_nat (length l)) k x = write_bytes m a (l ++ k) x.
Proof.
  unfold write_bytes. rewrite length_app, Nat2Z.inj_add.
  destruct (Z.leb_spec a x), (Z.leb_spec (a + Z.of_nat (length l)) x),
    (Z.ltb_spec x (a + Z.of_nat (length l))), (Z.ltb_spec x (a + Z.of_nat (length l) + Z.of_nat (length k))),
    (Z.ltb_spec x (a + (Z.of_nat (length l) + Z.of_nat (length k)))); simpl; try lia; try done.
  - rewrite lookup_total_app_r by lia. f_equal. lia.
  - by rewrite lookup_total_app_l by lia.
Qed.

Lemma write_bytes_out m a l x : x < a \/ a + Z.of_nat (length l) <= x -> write_bytes m a l x = m x.
Proof.
  intros H. unfold write_bytes. destruct (Z.leb_spec a x), (Z.ltb_spec x (a + Z.of_nat (length l))); simpl; (done || lia).
Qed.

Lemma write_bytes_nil m a x : write_bytes m a [] x = m x.
Proof. apply write_bytes_out. simpl. lia. Qed.

Lemma read_write_splice m a (o : nat) d n :
  (o + length d <= n)%nat ->
  read_bytes (write_bytes m (a + Z.of_nat o) d) a n =
  take o (read_bytes m a n) ++ d ++ drop (o + length d) (read_bytes m a n).
Proof.
  intros Hn. replace n with (o + (length d + (n - o - length d)))%nat by lia. rewrite !read_bytes_app.
  rewrite take_app_length' by (by rewrite read_bytes_length). rewrite (drop_app_ge (read_bytes m a o)), drop_app_length' by (rewrite ?read_bytes_length; lia).
  rewrite read_write_same. f_equal; [| f_equal]; apply read_write_other; unfold disjoint_ranges; lia.
Qed.

Lemma memcpy_at m dst src n i : 0 <= i < Z.of_nat n -> memcpy dst src n m (dst + i) = m (src + i).
Proof.
  intros Hi. unfold memcpy, write_bytes. rewrite read_bytes_length.
  destruct (Z.leb_spec dst (dst + i)), (Z.ltb_spec (dst + i) (dst + Z.of_nat n)); simpl; try lia.
  rewrite (list_lookup_total_correct _ _ (m (src + i))); [done |]. rewrite read_bytes_lookup by lia. do 2 f_equal. lia.
Qed.

(** ** Little-endian words *)

Fixpoint le_bytes (w : nat) (v : Z) : list Z :=
  match w with
  | O => []
  | S w => v mod 256 :: le_bytes w (v / 256)
  end.

Fixpoint le_value (l : list Z) : Z :=
  match l with
  | [] => 0
  | b :: l => b + 256 * le_value l
  end.

(** A word of [w] bytes at address [a]. *)
Definition load (w : nat) (m : mem) (a : Z) : Z := le_value (read_bytes m a w).

Definition store (w : nat) (a v : Z) (m : mem) : mem := write_bytes m a (le_bytes w v).

Lemma le_bytes_length w v : length (le_bytes w v) = w.
Proof. revert v. induction w as [| w IH]; intros v; simpl; [done |]. by rewrite IH. Qed.

Lemma le_value_bytes w v : le_value (le_bytes w v) = v mod 256 ^ Z.of_nat w.
Proof.
  revert v. induction w as [| w IH]; intros v; [by rewrite Z.mod_1_r |]. cbn [le_bytes le_value]. rewrite IH.
  rewrite Nat2Z.inj_succ, Z.pow_succ_r by lia. symmetry. apply Z.rem_mul_r; lia.
Qed.

Lemma load_store_same w a v m : 0 <= v < 256 ^ Z.of_nat w -> load w (store w a v m) a = v.
Proof.
  intros Hv. unfold load, store. pose proof (read_write_same m a (le_bytes w v)) as E. rewrite le_bytes_length in E.
  rewrite E, le_value_bytes. by apply Z.mod_small.
Qed.

Lemma load_store_other w a v m w' b :
  disjoint_ranges a (Z.of_nat w) b (Z.of_nat w') -> load w' (store w a v m) b = load w' m b.
Proof. intros Hd. unfold load, store. by rewrite read_write_other by (by rewrite le_bytes_length). Qed.

Lemma store_out w a v m x : x < a \/ a + Z.of_nat w <= x -> store w a v m x = m x.
Proof. intros H. unfold store. apply write_bytes_out. by rewrite le_bytes_length. Qed.

Lemma load_ext w m m' a : (∀ x, a <= x < a + Z.of_nat w -> m x = m' x) -> load w m a = load w m' a.
Proof. intros H. unfold load. f_equal. by apply read_bytes_ext. Qed.
