(* ===== verification/GenList.v ===== *)
(** * Singly-linked lists (include/zephyr/sys/list_gen.h, slist.h, sflist.h)

    list_gen.h generates the list operations from two node accessors,
    [next_peek] and [next_set].  Here the accessors are a type class over a
    memory of node words; slist.h (a plain pointer) and sflist.h (a pointer
    with flag bits in its low bits) are its two instances.  The operations are
    proved, against the class, to implement those of mathematical lists. *)

From Stdlib Require Import ZArith Lia Bool.
From stdpp Require Import base numbers list sets.
From S2P Require Import Prelude Memory.

Open Scope Z_scope.

(** ** The interface of a node *)

Class GenNode := {
  next_peek : mem -> Z -> Z;
  next_set : Z -> Z -> mem -> mem;
  (** the pointers a node can hold *)
  node_ptr : Z -> Prop;
  node_ptr_null : node_ptr 0;
  next_peek_set : ∀ m p c, node_ptr c -> next_peek (next_set p c m) p = c;
  next_set_frame : ∀ m p c q, q ≠ p -> next_set p c m q = m q;
  next_peek_ext : ∀ m m' p, m p = m' p -> next_peek m p = next_peek m' p
}.

(** [sys_snode_t] *)
Definition z_snode_next_peek (m : mem) (node : Z) : Z := m node.
Definition z_snode_next_set (parent child : Z) (m : mem) : mem := λ a, if a =? parent then child else m a.

#[refine, export] Instance snode : GenNode := {|
  next_peek := z_snode_next_peek;
  next_set := z_snode_next_set;
  node_ptr := λ _, True
|}.
Proof.
  - done.
  - intros m p c _. unfold z_snode_next_peek, z_snode_next_set. by rewrite Z.eqb_refl.
  - intros m p c q Hq. unfold z_snode_next_set. destruct (Z.eqb_spec q p); done.
  - by unfold z_snode_next_peek.
Defined.

(** [sys_sfnode_t]: two flag bits below a 4-byte-aligned pointer *)
Definition SYS_SFLIST_FLAGS_MASK : Z := 3.

Definition z_sfnode_next_peek (m : mem) (node : Z) : Z := Z.land (m node) (Z.lnot SYS_SFLIST_FLAGS_MASK).

Definition sys_sfnode_flags_get (m : mem) (node : Z) : Z := Z.land (m node) SYS_SFLIST_FLAGS_MASK.

Definition z_sfnode_next_set (parent child : Z) (m : mem) : mem :=
  let cur_flags := sys_sfnode_flags_get m parent in
  λ a, if a =? parent then Z.lor cur_flags child else m a.

Definition sys_sfnode_init (node flags : Z) (m : mem) : mem := λ a, if a =? node then flags else m a.

Definition sys_sfnode_flags_set (node flags : Z) (m : mem) : mem :=
  λ a, if a =? node then Z.lor (z_sfnode_next_peek m node) flags else m a.

Definition aligned (p : Z) : Prop := Z.land p SYS_SFLIST_FLAGS_MASK = 0.

Lemma mask_clears f c :
  aligned c -> Z.land f (Z.lnot SYS_SFLIST_FLAGS_MASK) = 0 -> Z.land (Z.lor f c) (Z.lnot SYS_SFLIST_FLAGS_MASK) = c.
Proof.
  intros Hc Hf. rewrite Z.land_lor_distr_l, Hf, Z.lor_0_l.
  apply Z.bits_inj'. intros i Hi. rewrite Z.land_spec, Z.lnot_spec by lia.
  assert (Z.testbit (Z.land c SYS_SFLIST_FLAGS_MASK) i = false) as Hb by (rewrite Hc; apply Z.bits_0).
  rewrite Z.land_spec in Hb. destruct (Z.testbit c i), (Z.testbit SYS_SFLIST_FLAGS_MASK i); done.
Qed.

Lemma mask_flags x : Z.land (Z.land x SYS_SFLIST_FLAGS_MASK) (Z.lnot SYS_SFLIST_FLAGS_MASK) = 0.
Proof. by rewrite <- Z.land_assoc, Z.land_lnot_diag, Z.land_0_r. Qed.

#[refine, export] Instance sfnode : GenNode := {|
  next_peek := z_sfnode_next_peek;
  next_set := z_sfnode_next_set;
  node_ptr := aligned
|}.
Proof.
  - done.
  - intros m p c Hc. unfold z_sfnode_next_peek, z_sfnode_next_set. rewrite Z.eqb_refl.
    apply mask_clears; [done | apply mask_flags].
  - intros m p c q Hq. unfold z_sfnode_next_set. destruct (Z.eqb_spec q p); done.
  - unfold z_sfnode_next_peek. by intros m m' p ->.
Defined.

(** Linking does not disturb the flags of a node. *)
Lemma flags_next_set m p c q :
  aligned c -> sys_sfnode_flags_get (z_sfnode_next_set p c m) q = sys_sfnode_flags_get m q.
Proof.
  intros Hc. unfold sys_sfnode_flags_get, z_sfnode_next_set. destruct (Z.eqb_spec q p) as [-> |]; [| done].
  rewrite Z.land_lor_distr_l, Hc, Z.lor_0_r. unfold sys_sfnode_flags_get. by rewrite <- Z.land_assoc, Z.land_diag.
Qed.

(** ** The operations of list_gen.h *)

(** [sys_slist_t], [sys_sflist_t] *)
Record genlist := mk_list { list_head : Z; list_tail : Z }.

Definition set_head (v : Z) (L : genlist) : genlist := mk_list v (list_tail L).
Definition set_tail (v : Z) (L : genlist) : genlist := mk_list (list_head L) v.

Definition NULL : Z := 0.

Section GenList.
Context {gn : GenNode}.
Implicit Types (L : genlist) (m : mem) (node prev : Z).

Definition genlist_init L : genlist := mk_list NULL NULL.

Definition peek_head L : Z := list_head L.
Definition peek_tail L : Z := list_tail L.

Definition is_empty L : bool := peek_head L =? NULL.

Definition peek_next_no_check m node : Z := next_peek m node.

Definition peek_next m node : Z := if negb (node =? NULL) then peek_next_no_check m node else NULL.

Definition prepend L node m : genlist * mem :=
  let m := next_set node (peek_head L) m in
  let L := set_head node L in
  if peek_tail L =? NULL then (set_tail (peek_head L) L, m) else (L, m).

Definition append L node m : genlist * mem :=
  let m := next_set node NULL m in
  if peek_tail L =? NULL then (set_head node (set_tail node L), m)
  else (set_tail node L, next_set (peek_tail L) node m).

Definition append_list L (head tail : Z) m : genlist * mem :=
  if negb (head =? NULL) && negb (tail =? NULL) then
    let '(L, m) := if peek_tail L =? NULL then (set_head head L, m) else (L, next_set (peek_tail L) head m) in
    (set_tail tail L, m)
  else (L, m).

(** The result is the list and the emptied [list_to_append]. *)
Definition merge_list L list_to_append m : genlist * genlist * mem :=
  let '(L, m) := append_list L (peek_head list_to_append) (peek_tail list_to_append) m in
  (L, genlist_init list_to_append, m).

Definition insert L prev node m : genlist * mem :=
  if prev =? NULL then prepend L node m
  else if next_peek m prev =? NULL then append L node m
  else (L, next_set prev node (next_set node (next_peek m prev) m)).

Definition get_not_empty L m : Z * genlist :=
  let node := peek_head L in
  let L := set_head (next_peek m node) L in
  (node, if peek_tail L =? node then set_tail (peek_head L) L else L).

Definition get L m : Z * genlist := if is_empty L then (NULL, L) else get_not_empty L m.

Definition remove L prev_node node m : genlist * mem :=
  let '(L, m) :=
    if prev_node =? NULL then
      let L := set_head (next_peek m node) L in
      (if peek_tail L =? node then set_tail (peek_head L) L else L, m)
    else
      let m := next_set prev_node (next_peek m node) m in
      (if peek_tail L =? node then set_tail prev_node L else L, m) in
  (L, next_set node NULL m).

(** The traversals take one unit of fuel per node. *)
Fixpoint find_and_remove_loop (fuel : nat) L prev test node m : option (bool * genlist * mem) :=
  match fuel with
  | O => None
  | S fuel =>
      if test =? NULL then Some (false, L, m)
      else if test =? node then let '(L, m) := remove L prev node m in Some (true, L, m)
      else find_and_remove_loop fuel L test (peek_next m test) node m
  end.

Definition find_and_remove (fuel : nat) L node m : option (bool * genlist * mem) :=
  find_and_remove_loop fuel L NULL (peek_head L) node m.

Fixpoint find_loop (fuel : nat) previous current node m : option (bool * Z) :=
  match fuel with
  | O => None
  | S fuel =>
      if current =? NULL then Some (false, previous)
      else if current =? node then Some (true, previous)
      else find_loop fuel current (peek_next m current) node m
  end.

Definition find (fuel : nat) L node m : option (bool * Z) := find_loop fuel NULL (peek_head L) node m.

Fixpoint len_loop (fuel : nat) node (len : Z) m : option Z :=
  match fuel with
  | O => None
  | S fuel => if node =? NULL then Some len else len_loop fuel (peek_next m node) (len + 1) m
  end.

Definition len (fuel : nat) L m : option Z := len_loop fuel (peek_head L) 0 m.

(** ** Representation *)

(** From [h], following the nodes of [l] leads to [e]. *)
Fixpoint seg m (h : Z) (l : list Z) (e : Z) : Prop :=
  match l with
  | [] => h = e
  | x :: l => h = x ∧ seg m (next_peek m x) l e
  end.

Definition valid_node (p : Z) : Prop := p ≠ NULL ∧ node_ptr p.

Record list_rep m L (l : list Z) : Prop := {
  rep_seg : seg m (list_head L) l NULL;
  rep_tail : list_tail L = default NULL (last l);
  rep_nodup : NoDup l;
  rep_valid : Forall valid_node l
}.

Lemma seg_ext m m' h l e :
  (∀ x, x ∈ l -> next_peek m x = next_peek m' x) -> seg m h l e -> seg m' h l e.
Proof.
  revert h. induction l as [| x l IH]; intros h Heq; [done |]. intros [-> Hl]. split; [done |].
  rewrite <- (Heq x) by set_solver. apply IH; [set_solver | done].
Qed.

Lemma next_peek_frame m p c q : q ≠ p -> next_peek (next_set p c m) q = next_peek m q.
Proof. intros Hq. apply next_peek_ext. by apply next_set_frame. Qed.

Lemma seg_frame m p c h l e : p ∉ l -> seg m h l e -> seg (next_set p c m) h l e.
Proof. intros Hp. apply seg_ext. intros x Hx. symmetry. apply next_peek_frame. set_solver. Qed.

Lemma seg_app m h l1 l2 e : seg m h (l1 ++ l2) e <-> ∃ k, seg m h l1 k ∧ seg m k l2 e.
Proof.
  revert h. induction l1 as [| x l1 IH]; intros h; simpl.
  - split; [eauto | by intros (k & -> & ?)].
  - rewrite IH. naive_solver.
Qed.

Lemma seg_snoc m h l z e : seg m h (l ++ [z]) e <-> seg m h l z ∧ next_peek m z = e.
Proof. rewrite seg_app. simpl. naive_solver. Qed.

(** Redirecting the last node of a segment. *)
Lemma seg_link m h l z e c :
  node_ptr c -> z ∉ l -> seg m h (l ++ [z]) e -> seg (next_set z c m) h (l ++ [z]) c.
Proof.
  intros Hc Hz. rewrite !seg_snoc. intros [Hs _]. split; [by apply seg_frame | by apply next_peek_set].
Qed.

Lemma last_valid l : Forall valid_node l -> default NULL (last l) = NULL <-> l = [].
Proof.
  intros Hv. split; [| by intros ->]. destruct (last l) as [z |] eqn:Hl; [| by rewrite last_None in Hl].
  simpl. intros ->. apply last_Some in Hl as [l' ->]. rewrite Forall_app, Forall_singleton in Hv. by destruct Hv as [_ []].
Qed.

Lemma head_valid m L l : list_rep m L l -> list_head L = NULL <-> l = [].
Proof.
  intros [Hs _ _ Hv]. destruct l as [| x l]; [done |]. destruct Hs as [-> _]. inversion_clear Hv as [| ?? [? _]]. done.
Qed.

Lemma rep_init m L : list_rep m (genlist_init L) [].
Proof. split; [done.. | constructor | constructor]. Qed.

Lemma rep_prepend m L l node L' m' :
  list_rep m L l -> valid_node node -> node ∉ l -> prepend L node m = (L', m') ->
  list_rep m' L' (node :: l).
Proof.
  intros Hr Hn Hni Hp. assert (Hh := head_valid _ _ _ Hr). destruct Hr as [Hs Ht Hd Hv].
  assert (node_ptr (list_head L)) as Hhp.
  { destruct l as [| x l]; [rewrite (proj2 Hh eq_refl); apply node_ptr_null |].
    destruct Hs as [-> _]. inversion_clear Hv as [| ?? [_ ?]]. done. }
  unfold prepend, peek_tail, peek_head, set_head, set_tail in Hp. cbn in Hp.
  assert (seg (next_set node (list_head L) m) node (node :: l) NULL) as Hs'.
  { split; [done |]. rewrite next_peek_set by done. by apply seg_frame. }
  destruct (Z.eqb_spec (list_tail L) NULL) as [Hnil | Hnil]; simplify_eq; rewrite Ht in Hnil.
  - apply last_valid in Hnil as ->; [| done]. split; cbn; [done | done | apply NoDup_singleton | by apply Forall_singleton].
  - assert (l ≠ []) as Hl by (by intros ->). split; cbn; [done | | by constructor | by constructor].
    rewrite last_cons, Ht. destruct (last l) eqn:E; [done |]. by apply last_None in E.
Qed.

Lemma rep_append_list m L l head l2 tail L' m' :
  list_rep m L l -> seg m head (l2 ++ [tail]) NULL -> Forall valid_node (l2 ++ [tail]) ->
  NoDup (l ++ l2 ++ [tail]) -> append_list L head tail m = (L', m') ->
  list_rep m' L' (l ++ l2 ++ [tail]).
Proof.
  intros [Hs Ht Hd Hv] Hs2 Hv2 Hnd Ha.
  assert (head ≠ NULL ∧ node_ptr head) as [Hh0 Hhp].
  { destruct l2 as [| x l2]; simpl in *; destruct Hs2 as [-> _]; by inversion_clear Hv2. }
  assert (tail ≠ NULL) as Ht0 by (rewrite Forall_app, Forall_singleton in Hv2; apply Hv2).
  unfold append_list in Ha. rewrite !(proj2 (Z.eqb_neq _ _)) in Ha by done. cbn in Ha. unfold peek_tail, set_head, set_tail in Ha.
  assert (last (l ++ l2 ++ [tail]) = Some tail) as Hl by (rewrite app_assoc; apply last_snoc).
  destruct (Z.eqb_spec (list_tail L) NULL) as [Hnil | Hnil]; rewrite Ht in Hnil; simplify_eq.
  - apply last_valid in Hnil as ->; [| done]. split; cbn; [done | | done | done]. by rewrite last_snoc.
  - destruct (last l) as [z |] eqn:Hz; [| done]. simpl in Hnil. rewrite Ht.
    apply last_Some in Hz as [l1 ->]. split; cbn; [| by rewrite Hl | done | by apply Forall_app].
    apply seg_app. exists head. apply NoDup_app in Hd as (_ & Hz & _).
    split; [eapply seg_link; [done | set_solver | done] |].
    apply seg_frame; [| done]. apply NoDup_app in Hnd as (_ & Hnd & _). set_solver.
Qed.

Lemma append_as_list L node m :
  node ≠ NULL -> append L node m = append_list L node node (next_set node NULL m).
Proof.
  intros Hn. unfold append, append_list. rewrite (proj2 (Z.eqb_neq node NULL)) by done. simpl. by destruct (_ =? _).
Qed.

Lemma rep_frame m L l p c : list_rep m L l -> p ∉ l -> list_rep (next_set p c m) L l.
Proof. intros [Hs Ht Hd Hv] Hp. split; [by apply seg_frame | done..]. Qed.

Lemma rep_append m L l node L' m' :
  list_rep m L l -> valid_node node -> node ∉ l -> append L node m = (L', m') ->
  list_rep m' L' (l ++ [node]).
Proof.
  intros Hr [Hn Hp] Hni. rewrite append_as_list by done. intros Ha.
  apply (rep_append_list (next_set node NULL m) L l node [] node); [by apply rep_frame | | by repeat constructor | | done].
  - split; [done |]. apply next_peek_set, node_ptr_null.
  - apply NoDup_app. split_and!; [apply Hr | set_solver | apply NoDup_singleton].
Qed.

Lemma seg_head_ptr m h l e : Forall valid_node l -> node_ptr e -> seg m h l e -> node_ptr h.
Proof. intros Hv He. destruct l as [| x l]; simpl; [by intros -> |]. intros [-> _]. inversion_clear Hv as [| ?? [_ ?]]. done. Qed.

Lemma seg_head_null m h l : Forall valid_node l -> seg m h l NULL -> h = NULL <-> l = [].
Proof. intros Hv. destruct l as [| x l]; simpl; [done |]. intros [-> _]. inversion_clear Hv as [| ?? [? _]]. done. Qed.

(** [insert] after the last node of [l1]. *)
Lemma rep_insert m L l1 l2 node L' m' :
  list_rep m L (l1 ++ l2) -> valid_node node -> node ∉ l1 ++ l2 ->
  insert L (default NULL (last l1)) node m = (L', m') ->
  list_rep m' L' (l1 ++ node :: l2).
Proof.
  intros Hr Hn Hni. unfold insert. destruct (last l1) as [prev |] eqn:Hl; simpl.
  2:{ apply last_None in Hl as ->. simpl in *. by apply rep_prepend. }
  apply last_Some in Hl as [l ->]. assert (Hr' := Hr). destruct Hr as [Hs Ht Hd Hv].
  assert (Hv' := Hv). apply Forall_app in Hv' as [Hv1 Hv2]. apply seg_app in Hs as (k & Hs1 & Hs2).
  assert (prev ≠ NULL) as Hp0 by (apply Forall_app in Hv1 as [_ Hp]; by inversion_clear Hp as [| ?? [? _]]).
  rewrite (proj2 (Z.eqb_neq prev NULL)) by done.
  assert (next_peek m prev = k) as Hk by (by apply seg_snoc in Hs1 as [_ ?]). rewrite Hk.
  assert (Hk0 := seg_head_null _ _ _ Hv2 Hs2).
  destruct (Z.eqb_spec k NULL) as [Hk' | Hk'].
  - apply Hk0 in Hk' as ->. rewrite app_nil_r in *. by apply rep_append.
  - intros [= <- <-]. assert (l2 ≠ []) as Hl2 by naive_solver.
    assert (node ≠ prev) as Hne by set_solver. destruct (proj1 (NoDup_app _ _) Hd) as (Hd1 & Hd2 & _).
    split.
    + apply seg_app. exists node. split.
      * apply (seg_link _ _ _ _ k); [apply Hn | apply NoDup_app in Hd1; set_solver |]. apply seg_frame; [set_solver | done].
      * split; [done |]. rewrite next_peek_frame by done. rewrite next_peek_set by (eapply seg_head_ptr; [done | apply node_ptr_null | done]).
        apply seg_frame; [set_solver |]. apply seg_frame; [set_solver | done].
    + rewrite Ht. rewrite !last_app. destruct l2; [done |]. by rewrite last_cons_cons.
    + apply NoDup_app in Hd as (? & ? & ?). apply NoDup_app. split_and!; [done | set_solver | constructor; set_solver].
    + apply Forall_app. split; [done | by constructor].
Qed.

Lemma rep_get m L l : list_rep m L l ->
  (get L m).1 = default NULL (head l) ∧ list_rep m (get L m).2 (tail l).
Proof.
  intros Hr. unfold get, is_empty, peek_head. assert (Hh := head_valid _ _ _ Hr).
  destruct (Z.eqb_spec (list_head L) NULL) as [H0 | H0].
  - apply Hh in H0 as ->. done.
  - destruct l as [| x l]; [by rewrite (proj2 Hh eq_refl) in H0 |]. destruct Hr as [[Hx Hs] Ht Hd Hv]. apply NoDup_cons in Hd as [Hxl Hd].
    inversion_clear Hv as [| ?? Hvx Hvl]. unfold get_not_empty, peek_head, peek_tail, set_head, set_tail. cbn. rewrite Hx. split; [done |].
    destruct l as [| y l].
    + rewrite Ht. cbn. rewrite Z.eqb_refl. by split.
    + rewrite last_cons_cons in Ht. destruct (Z.eqb_spec (list_tail L) x) as [He | He]; [| by split; cbn].
      exfalso. rewrite He in Ht. destruct (last (y :: l)) as [z |] eqn:Hz; [| by apply last_None in Hz].
      simpl in Ht. subst z. apply last_Some in Hz as [l' Hl']. rewrite Hl' in Hxl. set_solver.
Qed.

Lemma rep_remove m L l1 l2 node L' m' :
  list_rep m L (l1 ++ node :: l2) -> remove L (default NULL (last l1)) node m = (L', m') ->
  list_rep m' L' (l1 ++ l2).
Proof.
  intros [Hs Ht Hd Hv] Hrm. apply seg_app in Hs as (k & Hs1 & [-> Hs2]).
  apply NoDup_app in Hd as (Hd1 & Hdis & Hd2). apply NoDup_cons in Hd2 as [Hn2 Hd2].
  apply Forall_app in Hv as [Hv1 Hv2]. inversion_clear Hv2 as [| ?? [Hn0 Hnp] Hv2'].
  assert (NoDup (l1 ++ l2)) as Hnd by (apply NoDup_app; split_and!; [done | set_solver | done]).
  assert (node ∉ l1) as Hn1 by set_solver.
  assert (list_tail L = node <-> l2 = []) as Htl.
  { rewrite Ht, last_app, last_cons. destruct (last l2) as [z |] eqn:Hz; simpl.
    - apply last_Some in Hz as [l' ->]. split; [set_solver | intros ?; by destruct l'].
    - by apply last_None in Hz. }
  assert (l2 ≠ [] -> list_tail L = default NULL (last (l1 ++ l2))) as Htl'.
  { intros Hl2. rewrite Ht, !last_app, last_cons. destruct (last l2) eqn:Hz; [done | by apply last_None in Hz]. }
  assert (node_ptr (next_peek m node)) as Hkp by (eapply seg_head_ptr; [exact Hv2' | apply node_ptr_null | exact Hs2]).
  unfold remove, set_head, set_tail, peek_tail, peek_head in Hrm. cbn in Hrm.
  destruct (last l1) as [prev |] eqn:Hl; simpl in Hrm.
  - apply last_Some in Hl as [l ->]. assert (prev ≠ NULL) as Hp0.
    { apply Forall_app in Hv1 as [_ Hp]. by inversion_clear Hp as [| ?? [? _]]. }
    rewrite (proj2 (Z.eqb_neq prev NULL)) in Hrm by done. simplify_eq. apply NoDup_app in Hd1 as (? & Hd1 & _).
    assert (prev ∉ l2) as Hpl2 by set_solver.
    assert (seg (next_set node NULL (next_set prev (next_peek m node) m)) (list_head L) ((l ++ [prev]) ++ l2) NULL) as Hseg.
    { apply seg_app. exists (next_peek m node). split; apply seg_frame; try done.
      - apply (seg_link _ _ _ _ node); [done | set_solver | done].
      - by apply seg_frame. }
    destruct (Z.eqb_spec (list_tail L) node) as [He | He]; split; cbn; try done; try by apply Forall_app.
    + apply Htl in He as ->. by rewrite app_nil_r, last_snoc.
    + apply Htl'. naive_solver.
  - apply last_None in Hl as ->. simpl in *. simplify_eq.
    destruct (Z.eqb_spec (list_tail L) (list_head L)) as [He | He]; split; cbn; try done; try by apply seg_frame.
    + apply Htl in He as ->. done.
    + apply Htl'. naive_solver.
Qed.

Lemma rep_split m L l1 l2 : list_rep m L (l1 ++ l2) ->
  ∃ k, seg m (list_head L) l1 k ∧ seg m k l2 NULL ∧ (k = NULL <-> l2 = []).
Proof.
  intros [Hs _ _ Hv]. apply seg_app in Hs as (k & Hs1 & Hs2). exists k. split_and!; [done.. |].
  apply (seg_head_null m); [by apply Forall_app in Hv as [_ ?] | done].
Qed.

Lemma peek_next_valid m x : x ≠ NULL -> peek_next m x = next_peek m x.
Proof. intros Hx. unfold peek_next. by rewrite (proj2 (Z.eqb_neq x NULL)). Qed.

(** The nodes before [node], when it is in the list. *)
Fixpoint before (node : Z) (l : list Z) : option (list Z * list Z) :=
  match l with
  | [] => None
  | x :: l => if x =? node then Some ([], l) else '(a, b) ← before node l; Some (x :: a, b)
  end.

Lemma before_some node l a b : before node l = Some (a, b) -> l = a ++ node :: b ∧ node ∉ a.
Proof.
  revert a. induction l as [| x l IH]; intros a; simpl; [done |].
  destruct (Z.eqb_spec x node) as [-> | Hx]; [intros [= <- <-]; set_solver |].
  destruct (before node l) as [[a' b'] |]; simpl; [| done]. intros [= <- <-].
  destruct (IH a' eq_refl) as [-> ?]. split; [done | set_solver].
Qed.

Lemma before_none node l : before node l = None <-> node ∉ l.
Proof.
  induction l as [| x l IH]; simpl; [set_solver |]. destruct (Z.eqb_spec x node) as [-> | Hx]; [set_solver |].
  destruct (before node l) as [[a b] |]; simpl; set_solver.
Qed.

Lemma filter_without (node : Z) (l : list Z) : node ∉ l -> filter (λ x, x ≠ node) l = l.
Proof. intros Hn. apply filter_keep. intros x Hx ->. done. Qed.

Lemma find_and_remove_loop_ok fuel m L l1 l2 test node :
  list_rep m L (l1 ++ l2) -> seg m test l2 NULL -> (length l2 < fuel)%nat ->
  find_and_remove_loop fuel L (default NULL (last l1)) test node m =
    match before node l2 with
    | None => Some (false, L, m)
    | Some (a, _) => let '(L', m') := remove L (default NULL (last (l1 ++ a))) node m in Some (true, L', m')
    end.
Proof.
  revert l1 l2 test. induction fuel as [| fuel IH]; intros l1 l2 test Hr Hs Hf; [lia |]. simpl.
  assert (Forall valid_node l2) as Hv by (apply rep_valid in Hr; by apply Forall_app in Hr as [_ ?]).
  destruct l2 as [| x l2]; simpl in Hs; [by rewrite Hs |]. destruct Hs as [-> Hs]. inversion_clear Hv as [| ?? [Hx _] _].
  rewrite (proj2 (Z.eqb_neq x NULL)) by done. simpl. destruct (Z.eqb_spec x node) as [-> | Hxn]; [by rewrite app_nil_r |].
  rewrite peek_next_valid by done. assert (l1 ++ x :: l2 = (l1 ++ [x]) ++ l2) as Ha by (by rewrite <- app_assoc).
  rewrite Ha in Hr. assert (default NULL (last (l1 ++ [x])) = x) as Hd by (by rewrite last_snoc).
  simpl in Hf. pose proof (IH (l1 ++ [x]) l2 _ Hr Hs ltac:(lia)) as Hloop. rewrite Hd in Hloop. rewrite Hloop.
  destruct (before node l2) as [[a b] |]; simpl; [| done]. by rewrite <- app_assoc.
Qed.

Lemma rep_find_and_remove fuel m L l node :
  list_rep m L l -> (length l < fuel)%nat ->
  ∃ L' m', find_and_remove fuel L node m = Some (bool_decide (node ∈ l), L', m') ∧
           list_rep m' L' (filter (λ x, x ≠ node) l).
Proof.
  intros Hr Hf. unfold find_and_remove, peek_head.
  rewrite (find_and_remove_loop_ok fuel m L [] l (list_head L) node Hr (rep_seg _ _ _ Hr) Hf : find_and_remove_loop _ _ NULL _ _ _ = _).
  destruct (before node l) as [[a b] |] eqn:Hb.
  - apply before_some in Hb as [-> Ha]. rewrite app_nil_l.
    destruct (remove L (default NULL (last a)) node m) as [L' m'] eqn:Hrm.
    exists L', m'. rewrite bool_decide_true by set_solver. split; [done |].
    assert (NoDup (a ++ node :: b)) as Hd by apply Hr. apply NoDup_app in Hd as (_ & _ & Hd). apply NoDup_cons in Hd as [Hnb _].
    rewrite filter_app, filter_cons_False by naive_solver.
    rewrite !filter_without by done. by eapply rep_remove.
  - apply before_none in Hb. exists L, m. rewrite bool_decide_false by done. split; [done |].
    by rewrite filter_without.
Qed.

Lemma find_loop_ok fuel m L l1 l2 current node :
  list_rep m L (l1 ++ l2) -> seg m current l2 NULL -> (length l2 < fuel)%nat ->
  find_loop fuel (default NULL (last l1)) current node m =
    Some match before node l2 with
         | None => (false, default NULL (last (l1 ++ l2)))
         | Some (a, _) => (true, default NULL (last (l1 ++ a)))
         end.
Proof.
  revert l1 l2 current. induction fuel as [| fuel IH]; intros l1 l2 current Hr Hs Hf; [lia |]. simpl.
  assert (Forall valid_node l2) as Hv by (apply rep_valid in Hr; by apply Forall_app in Hr as [_ ?]).
  destruct l2 as [| x l2]; simpl in Hs; [by rewrite Hs, app_nil_r |]. destruct Hs as [-> Hs]. inversion_clear Hv as [| ?? [Hx _] _].
  rewrite (proj2 (Z.eqb_neq x NULL)) by done. simpl. destruct (Z.eqb_spec x node) as [-> | Hxn]; [by rewrite app_nil_r |].
  rewrite peek_next_valid by done. assert (l1 ++ x :: l2 = (l1 ++ [x]) ++ l2) as Ha by (by rewrite <- app_assoc).
  rewrite Ha in Hr |- *. assert (default NULL (last (l1 ++ [x])) = x) as Hd by (by rewrite last_snoc).
  simpl in Hf. pose proof (IH (l1 ++ [x]) l2 _ Hr Hs ltac:(lia)) as Hloop. rewrite Hd in Hloop. rewrite Hloop.
  destruct (before node l2) as [[a b] |]; simpl; [| done]. by rewrite <- app_assoc.
Qed.

Lemma len_loop_ok fuel m h l n :
  Forall valid_node l -> seg m h l NULL -> (length l < fuel)%nat ->
  len_loop fuel h n m = Some (n + Z.of_nat (length l)).
Proof.
  revert h l n. induction fuel as [| fuel IH]; intros h l n Hv Hs Hf; [lia |]. simpl.
  destruct l as [| x l]; simpl in Hs; [rewrite Hs; simpl; f_equal; lia |]. destruct Hs as [-> Hs].
  inversion_clear Hv as [| ?? [Hx _] Hv']. rewrite (proj2 (Z.eqb_neq x NULL)), peek_next_valid by done.
  simpl in Hf. rewrite (IH _ l) by (done || lia). f_equal. simpl. lia.
Qed.

(** ** Refinement *)

Inductive list_op :=
  | OPrepend (node : Z) | OAppend (node : Z) | OInsert (prev node : Z) | OAppendList (nodes : list Z)
  | OGet | ORemove (prev node : Z) | OFindAndRemove (node : Z) | OFind (node : Z) | OLen
  | OPeekHead | OPeekTail | OIsEmpty.

(** What a call gives back: nothing, a node pointer, an answer, the answer and
    [*prev] of [find], or a length. *)
Inductive list_result :=
  | RNone | RNode (node : Z) | RBool (b : bool) | RFound (found : bool) (prev : Z) | RLen (n : Z).

(** What a caller owes: a node it adds is a valid pointer and on no list; a
    chain it appends is linked and ends in NULL; a node it removes is in the list
    and [prev] is the one before it. *)
Definition op_pre (op : list_op) m (l : list Z) : Prop :=
  match op with
  | OPrepend node | OAppend node => valid_node node ∧ node ∉ l
  | OInsert prev node => (prev = NULL ∨ prev ∈ l) ∧ valid_node node ∧ node ∉ l
  | OAppendList nodes => seg m (default NULL (head nodes)) nodes NULL ∧ Forall valid_node nodes ∧ NoDup (l ++ nodes)
  | ORemove prev node =>
      match before node l with Some (a, _) => prev = default NULL (last a) | None => False end
  | OGet | OFindAndRemove _ | OFind _ | OLen | OPeekHead | OPeekTail | OIsEmpty => True
  end.

(** The operation on a mathematical list, with its result. *)
Definition insert_after (prev node : Z) (l : list Z) : list Z :=
  match before prev l with
  | Some (a, b) => a ++ prev :: node :: b
  | None => node :: l
  end.

Definition op_abs (op : list_op) (l : list Z) : list_result * list Z :=
  match op with
  | OPrepend node => (RNone, node :: l)
  | OAppend node => (RNone, l ++ [node])
  | OInsert prev node => (RNone, insert_after prev node l)
  | OAppendList nodes => (RNone, l ++ nodes)
  | OGet => (RNode (default NULL (head l)), tail l)
  | ORemove _ node => (RNone, filter (λ x, x ≠ node) l)
  | OFindAndRemove node => (RBool (bool_decide (node ∈ l)), filter (λ x, x ≠ node) l)
  | OFind node =>
      (RFound (bool_decide (node ∈ l)) (default NULL (last match before node l with Some (a, _) => a | None => l end)), l)
  | OLen => (RLen (Z.of_nat (length l)), l)
  | OPeekHead => (RNode (default NULL (head l)), l)
  | OPeekTail => (RNode (default NULL (last l)), l)
  | OIsEmpty => (RBool (bool_decide (l = [])), l)
  end.

(** The operation of the code. *)
Definition op_run (fuel : nat) (op : list_op) L m : option (list_result * genlist * mem) :=
  match op with
  | OPrepend node => let '(L, m) := prepend L node m in Some (RNone, L, m)
  | OAppend node => let '(L, m) := append L node m in Some (RNone, L, m)
  | OInsert prev node => let '(L, m) := insert L prev node m in Some (RNone, L, m)
  | OAppendList nodes =>
      let '(L, m) := append_list L (default NULL (head nodes)) (default NULL (last nodes)) m in Some (RNone, L, m)
  | OGet => let '(node, L) := get L m in Some (RNode node, L, m)
  | ORemove prev node => let '(L, m) := remove L prev node m in Some (RNone, L, m)
  | OFindAndRemove node => '(found, L, m) ← find_and_remove fuel L node m; Some (RBool found, L, m)
  | OFind node => '(found, prev) ← find fuel L node m; Some (RFound found prev, L, m)
  | OLen => n ← len fuel L m; Some (RLen n, L, m)
  | OPeekHead => Some (RNode (peek_head L), L, m)
  | OPeekTail => Some (RNode (peek_tail L), L, m)
  | OIsEmpty => Some (RBool (is_empty L), L, m)
  end.

Lemma op_refines fuel op m L l :
  list_rep m L l -> op_pre op m l -> (length l < fuel)%nat ->
  ∃ L' m', op_run fuel op L m = Some ((op_abs op l).1, L', m') ∧ list_rep m' L' (op_abs op l).2.
Proof.
  intros Hr Hpre Hf. destruct op as [node | node | prev node | nodes | | prev node | node | node | | | |]; simpl in *.
  - destruct Hpre. destruct (prepend L node m) as [L' m'] eqn:E. exists L', m'. split; [done |]. by eapply rep_prepend.
  - destruct Hpre. destruct (append L node m) as [L' m'] eqn:E. exists L', m'. split; [done |]. by eapply rep_append.
  - destruct Hpre as (Hprev & Hn & Hni). destruct (insert L prev node m) as [L' m'] eqn:E. exists L', m'. split; [done |].
    unfold insert_after. destruct (before prev l) as [[a b] |] eqn:Hb.
    + apply before_some in Hb as [-> _]. replace (a ++ prev :: b) with ((a ++ [prev]) ++ b) in * by (by rewrite <- app_assoc).
      replace (a ++ prev :: node :: b) with ((a ++ [prev]) ++ node :: b) by (by rewrite <- app_assoc).
      eapply rep_insert; [done.. |]. by rewrite last_snoc.
    + apply before_none in Hb. destruct Hprev as [-> | ?]; [| done]. by apply (rep_insert m L [] l).
  - destruct Hpre as (Hs & Hv & Hd). destruct (append_list L _ _ m) as [L' m'] eqn:E. exists L', m'. split; [done |].
    destruct (last nodes) as [z |] eqn:Hz; simpl in E.
    + apply last_Some in Hz as [l2 ->]. by eapply rep_append_list.
    + apply last_None in Hz as ->. simpl in E. unfold append_list in E. simpl in E. simplify_eq. by rewrite app_nil_r.
  - destruct (rep_get m L l Hr) as [Hg1 Hg2]. destruct (get L m) as [x L'] eqn:E. simpl in *. exists L', m. by rewrite Hg1.
  - destruct (remove L prev node m) as [L' m'] eqn:E. exists L', m'. split; [done |].
    destruct (before node l) as [[a b] |] eqn:Hb; [| done]. apply before_some in Hb as [-> Ha]. subst prev.
    rewrite filter_app, filter_cons_False, !filter_without; [by eapply rep_remove | | done | naive_solver].
    pose proof (rep_nodup _ _ _ Hr) as (_ & _ & [Hn _]%NoDup_cons)%NoDup_app. done.
  - destruct (rep_find_and_remove fuel m L l node Hr Hf) as (L' & m' & -> & Hr'). exists L', m'. done.
  - unfold find, peek_head. exists L, m. split; [| done].
    rewrite (find_loop_ok fuel m L [] l (list_head L) node Hr (rep_seg _ _ _ Hr) Hf : find_loop _ NULL _ _ _ = _). simpl.
    destruct (before node l) as [[a b] |] eqn:Hb.
    + apply before_some in Hb as [-> _]. by rewrite bool_decide_true by set_solver.
    + apply before_none in Hb. by rewrite bool_decide_false.
  - unfold len, peek_head. exists L, m. rewrite (len_loop_ok fuel m _ l) by (done || apply Hr). done.
  - exists L, m. split; [| done]. unfold peek_head. destruct Hr as [Hs _ _ _]. destruct l as [| x l]; simpl in Hs; [by rewrite Hs | by destruct Hs as [-> _]].
  - exists L, m. split; [| done]. unfold peek_tail. by rewrite (rep_tail _ _ _ Hr).
  - exists L, m. split; [| done]. unfold is_empty, peek_head. pose proof (head_valid _ _ _ Hr) as Hh.
    do 4 f_equal. destruct (Z.eqb_spec (list_head L) NULL); [rewrite bool_decide_true by tauto | rewrite bool_decide_false by tauto]; done.
Qed.

Fixpoint ops_run (fuel : nat) (ops : list list_op) L m : option (list list_result * genlist * mem) :=
  match ops with
  | [] => Some ([], L, m)
  | op :: ops =>
      '(r, L, m) ← op_run fuel op L m;
      '(rs, L, m) ← ops_run fuel ops L m;
      Some (r :: rs, L, m)
  end.

Fixpoint ops_abs (ops : list list_op) (l : list Z) : list list_result * list Z :=
  match ops with
  | [] => ([], l)
  | op :: ops => let '(r, l) := op_abs op l in let '(rs, l) := ops_abs ops l in (r :: rs, l)
  end.

(** Every operation is called as [op_pre] demands and the lists stay shorter
    than the fuel. *)
Fixpoint ops_pre (fuel : nat) (ops : list list_op) L m (l : list Z) : Prop :=
  match ops with
  | [] => True
  | op :: ops =>
      op_pre op m l ∧ (length l < fuel)%nat ∧
      match op_run fuel op L m with
      | Some (_, L', m') => ops_pre fuel ops L' m' (op_abs op l).2
      | None => True
      end
  end.

End GenList.

(** C12: Every sequence of list operations, run on the linked representation
    from an empty list, returns the results the operations have on
    mathematical lists (for a search both the answer and the node before) and
    ends in a representation of the list they compute, with fuel for one more
    node than the list ever has; for both node kinds, plain pointers and pointers
    with flag bits. *)
Theorem genlist_refines `{gn : GenNode} fuel ops L m :
  ops_pre fuel ops (genlist_init L) m [] ->
  ∃ L' m', ops_run fuel ops (genlist_init L) m = Some ((ops_abs ops []).1, L', m') ∧
           list_rep m' L' (ops_abs ops []).2.
Proof.
  assert (∀ L l, list_rep m L l -> ops_pre fuel ops L m l ->
    ∃ L' m', ops_run fuel ops L m = Some ((ops_abs ops l).1, L', m') ∧ list_rep m' L' (ops_abs ops l).2) as Hgen;
    [| apply Hgen, rep_init].
  revert m. induction ops as [| op ops IH]; intros m L0 l Hr Hpre; [by exists L0, m |].
  destruct Hpre as (Hp & Hf & Hrest). destruct (op_refines fuel op m L0 l Hr Hp Hf) as (L1 & m1 & Hrun & Hr1).
  simpl. rewrite Hrun in Hrest |- *. simpl. destruct (op_abs op l) as [r l1]. simpl in *.
  destruct (IH m1 L1 l1 Hr1 Hrest) as (L2 & m2 & -> & Hr2). simpl. exists L2, m2. by destruct (ops_abs ops l1).
Qed.

(** Non-vacuity: on flagged nodes, a queue of three with an insertion in the
    middle, a removal of the tail and two gets. *)
Lemma genlist_refines_witness :
  let ops := [OAppend 16; OAppend 32; OInsert 16 48; OFind 32; OFind 64; OFindAndRemove 32; OLen; ORemove 16 48; OPeekTail; OGet; OGet; OIsEmpty] in
  ∃ L' m', ops_run (gn := sfnode) 5 ops (genlist_init (mk_list 7 7)) (λ _, 1) =
             Some ([RNone; RNone; RNone; RFound true 48; RFound false 32; RBool true; RLen 2; RNone; RNode 16; RNode 16; RNode 0; RBool true], L', m') ∧ list_rep (gn := sfnode) m' L' [].
Proof.
  apply (genlist_refines (gn := sfnode) 5
    [OAppend 16; OAppend 32; OInsert 16 48; OFind 32; OFind 64; OFindAndRemove 32; OLen; ORemove 16 48; OPeekTail; OGet; OGet; OIsEmpty] (mk_list 7 7) (λ _, 1)).
  repeat split; try lia; try discriminate; by_compute.
Defined.
