(* ===== verification/TimeoutQ.v ===== *)
(** * The timeout queue (kernel/timeout.c)

    [timeout_list] is a delta list: each entry holds the ticks between its
    predecessor's expiry and its own.  The section is generic in the type [K]
    of timeout objects (the addresses of [struct _timeout]) and models
    kernel/timeout.c in the configuration CONFIG_TIMEOUT_64BIT=y, CONFIG_SMP=n.
    [sys_clock_elapsed] and [sys_clock_set_timeout] belong to the timer driver:
    the first is a field of the state that the environment sets, the argument
    of the last call of the second is recorded in [clock_timeout].

    The abstract view of the queue is the list of absolute expiry ticks
    [expiries]; the theorems show that adding, aborting and announcing act on
    that view as the API promises. *)

From Stdlib Require Import ZArith Lia Bool.
From stdpp Require Import base numbers list sorting sets.
From S2P Require Import Prelude.

Open Scope Z_scope.

Section TimeoutQ.
Context {K : Type} `{EqDecision K}.
(** CONFIG_SYSTEM_CLOCK_SLOPPY_IDLE *)
Context (SLOPPY_IDLE : bool).

Record timeout_state := mk_timeout_state {
  timeout_list : list (K * Z);
  curr_tick : Z;
  announce_remaining : Z;
  sys_clock_elapsed : Z;
  clock_timeout : Z
}.

Definition set_timeout_list (l : list (K * Z)) (q : timeout_state) : timeout_state :=
  mk_timeout_state l (curr_tick q) (announce_remaining q) (sys_clock_elapsed q) (clock_timeout q).

Definition set_curr_tick (n : Z) (q : timeout_state) : timeout_state :=
  mk_timeout_state (timeout_list q) n (announce_remaining q) (sys_clock_elapsed q) (clock_timeout q).

Definition set_announce_remaining (n : Z) (q : timeout_state) : timeout_state :=
  mk_timeout_state (timeout_list q) (curr_tick q) n (sys_clock_elapsed q) (clock_timeout q).

Definition sys_clock_set_timeout (n : Z) (q : timeout_state) : timeout_state :=
  mk_timeout_state (timeout_list q) (curr_tick q) (announce_remaining q) (sys_clock_elapsed q) n.

Definition MAX_WAIT : Z := if SLOPPY_IDLE then K_TICKS_FOREVER else INT_MAX.

Definition first (q : timeout_state) : option (K * Z) := head (timeout_list q).

(** [sys_dnode_is_linked] of a timeout's node *)
Definition is_linked (to : K) (q : timeout_state) : bool :=
  bool_decide (to ∈ (timeout_list q).*1).

Definition z_is_inactive_timeout (to : K) (q : timeout_state) : bool := negb (is_linked to q).

(** [remove_timeout(t)]: the successor inherits [t]'s delta, [t] is unlinked. *)
Fixpoint remove_timeout (t : K) (l : list (K * Z)) : list (K * Z) :=
  match l with
  | [] => []
  | (k, d) :: l' =>
      if decide (k = t) then
        match l' with
        | [] => []
        | (k2, d2) :: l2 => (k2, s64 (d2 + d)) :: l2
        end
      else (k, d) :: remove_timeout t l'
  end.

Definition elapsed (q : timeout_state) : Z :=
  if announce_remaining q =? 0 then sys_clock_elapsed q else 0.

Definition next_timeout (q : timeout_state) : Z :=
  let ticks_elapsed := elapsed q in
  match first q with
  | None => MAX_WAIT
  | Some (_, dticks) =>
      if s64 (dticks - ticks_elapsed) >? INT_MAX then MAX_WAIT
      else s32 (Z.max 0 (s64 (dticks - ticks_elapsed)))
  end.

(** The insertion loop of [z_add_timeout]. *)
Fixpoint insert_timeout (to : K) (dticks : Z) (l : list (K * Z)) : list (K * Z) :=
  match l with
  | [] => [(to, dticks)]
  | (t, d) :: l' =>
      if d >? dticks then (to, dticks) :: (t, s64 (d - dticks)) :: l'
      else (t, d) :: insert_timeout to (s64 (dticks - d)) l'
  end.

Definition timeout_dticks (timeout : Z) (q : timeout_state) : Z :=
  if Z_TICK_ABS timeout >=? 0 then Z.max 1 (s64 (Z_TICK_ABS timeout - curr_tick q))
  else s64 (timeout + 1 + elapsed q).

Definition z_add_timeout (to : K) (timeout : Z) (q : timeout_state) : timeout_state :=
  if K_TIMEOUT_EQ timeout K_FOREVER then q
  else
    let q := set_timeout_list (insert_timeout to (timeout_dticks timeout q) (timeout_list q)) q in
    if bool_decide (fst <$> first q = Some to) && (announce_remaining q =? 0)
    then sys_clock_set_timeout (next_timeout q) q
    else q.

Definition z_abort_timeout (to : K) (q : timeout_state) : Z * timeout_state :=
  if is_linked to q
  then (0, set_timeout_list (remove_timeout to (timeout_list q)) q)
  else (- EINVAL, q).

Fixpoint timeout_rem_loop (timeout : K) (ticks : Z) (l : list (K * Z)) : Z :=
  match l with
  | [] => ticks
  | (k, d) :: l' =>
      let ticks := s64 (ticks + d) in
      if decide (timeout = k) then ticks else timeout_rem_loop timeout ticks l'
  end.

Definition timeout_rem (timeout : K) (q : timeout_state) : Z :=
  timeout_rem_loop timeout 0 (timeout_list q).

Definition z_timeout_remaining (timeout : K) (q : timeout_state) : Z :=
  if z_is_inactive_timeout timeout q then 0
  else s64 (timeout_rem timeout q - elapsed q).

Definition z_timeout_expires (timeout : K) (q : timeout_state) : Z :=
  if z_is_inactive_timeout timeout q then s64 (curr_tick q)
  else s64 (s64 (curr_tick q) + timeout_rem timeout q).

Definition z_get_next_timeout_expiry (q : timeout_state) : Z := next_timeout q.

Definition sys_clock_tick_get (q : timeout_state) : Z := u64 (curr_tick q + elapsed q).

Definition sys_clock_tick_get_32 (q : timeout_state) : Z := u32 (sys_clock_tick_get q).

Definition sys_timepoint_calc (timeout : Z) (q : timeout_state) : Z :=
  if K_TIMEOUT_EQ timeout K_FOREVER then UINT64_MAX
  else if K_TIMEOUT_EQ timeout K_NO_WAIT then 0
  else if Z_TICK_ABS timeout >=? 0 then u64 (Z_TICK_ABS timeout)
  else u64 (s64 (sys_clock_tick_get q) + Z.max 1 timeout).

Definition sys_timepoint_timeout (timepoint : Z) (q : timeout_state) : Z :=
  if timepoint =? UINT64_MAX then K_FOREVER
  else if timepoint =? 0 then K_NO_WAIT
  else
    let now := sys_clock_tick_get q in
    if timepoint >? now then s64 (timepoint - now) else 0.

End TimeoutQ.

Arguments timeout_state K : clear implicits.

(** ** [sys_clock_announce]

    The loop runs callbacks that may change the whole system state [S], of
    which the queue is a part ([queue], [with_queue]).  The loop consumes
    fuel, one unit per expired timeout; it also returns the trace of the
    timeouts it fired, each with the value of [curr_tick] its callback saw. *)

Section Announce.
Context {K : Type} `{EqDecision K} (SLOPPY_IDLE : bool).
Context {S : Type} (queue : S -> timeout_state K) (with_queue : timeout_state K -> S -> S).
(** [t->fn(t)] *)
Context (fn : K -> S -> S).

Definition announce_pop (t : K) (dt : Z) (q : timeout_state K) : timeout_state K :=
  set_timeout_list (remove_timeout t ((t, 0) :: tail (timeout_list q)))
    (set_curr_tick (u64 (curr_tick q + dt)) q).

Fixpoint announce_loop (fuel : nat) (s : S) : option (S * list (K * Z)) :=
  match fuel with
  | O => None
  | Datatypes.S fuel =>
      let q := queue s in
      match first q with
      | Some (t, dticks) =>
          if dticks <=? announce_remaining q then
            let dt := s32 dticks in
            let q := announce_pop t dt q in
            let s := fn t (with_queue q s) in
            let q' := queue s in
            let s := with_queue (set_announce_remaining (s32 (announce_remaining q' - dt)) q') s in
            '(s', fired) ← announce_loop fuel s;
            Some (s', (t, curr_tick q) :: fired)
          else Some (s, [])
      | None => Some (s, [])
      end
  end.

Definition announce_finish (q : timeout_state K) : timeout_state K :=
  let q := match timeout_list q with
           | [] => q
           | (t, d) :: l => set_timeout_list ((t, s64 (d - announce_remaining q)) :: l) q
           end in
  let q := set_curr_tick (u64 (curr_tick q + announce_remaining q)) q in
  let q := set_announce_remaining 0 q in
  sys_clock_set_timeout (next_timeout SLOPPY_IDLE q) q.

Definition sys_clock_announce (fuel : nat) (ticks : Z) (s : S) : option (S * list (K * Z)) :=
  let s := with_queue (set_announce_remaining ticks (queue s)) s in
  '(s', fired) ← announce_loop fuel s;
  Some (with_queue (announce_finish (queue s')) s', fired).

End Announce.

(** ** Absolute view of the queue *)

Section Expiries.
Context {K : Type}.

(** Each timeout with its absolute expiry tick, [base] being the tick the
    first delta counts from. *)
Fixpoint abs_list (base : Z) (l : list (K * Z)) : list (K * Z) :=
  match l with
  | [] => []
  | (k, d) :: l' => (k, base + d) :: abs_list (base + d) l'
  end.

Definition expiries (q : timeout_state K) : list (K * Z) := abs_list (curr_tick q) (timeout_list q).

(** Insertion after every timeout that expires no later. *)
Fixpoint abs_insert (to : K) (e : Z) (l : list (K * Z)) : list (K * Z) :=
  match l with
  | [] => [(to, e)]
  | (k, x) :: l' => if x >? e then (to, e) :: (k, x) :: l' else (k, x) :: abs_insert to e l'
  end.

Definition total (l : list (K * Z)) : Z := foldr (λ kd n, snd kd + n) 0 l.

(** Deltas are non-negative, keys are unique, and the tick arithmetic stays
    far from the 64-bit limits. *)
Record tq_wf (q : timeout_state K) : Prop := {
  wf_nodup : NoDup (timeout_list q).*1;
  wf_pos : Forall (λ kd, 0 <= snd kd) (timeout_list q);
  wf_total : total (timeout_list q) < 2 ^ 61;
  wf_tick : 0 <= curr_tick q < 2 ^ 61;
  wf_elapsed : 0 <= sys_clock_elapsed q < 2 ^ 31;
  wf_announce : 0 <= announce_remaining q < 2 ^ 31
}.

Lemma total_nonneg l : Forall (λ kd : K * Z, 0 <= snd kd) l -> 0 <= total l.
Proof. induction 1; simpl; lia. Qed.

Lemma abs_list_keys b l : (abs_list b l).*1 = l.*1.
Proof. revert b. induction l as [| [k d] l IH]; intros b; simpl; [done | by rewrite IH]. Qed.

Lemma abs_list_lower b l k e :
  Forall (λ kd : K * Z, 0 <= snd kd) l -> (k, e) ∈ abs_list b l -> b <= e.
Proof.
  intros Hl. revert b. induction Hl as [| [k' d] l Hd Hl IH]; intros b; simpl in *.
  - by intros ?%elem_of_nil.
  - intros [[= -> ->] | H]%elem_of_cons; [lia |]. apply IH in H. lia.
Qed.

Lemma abs_list_sorted b l :
  Forall (λ kd : K * Z, 0 <= snd kd) l ->
  StronglySorted (λ x y, snd x <= snd y) (abs_list b l).
Proof.
  intros Hl. revert b. induction Hl as [| [k d] l Hd Hl IH]; intros b; simpl; constructor; [done |].
  apply Forall_forall. intros [k' e] He. by eapply abs_list_lower in He.
Qed.

End Expiries.

Section QueueProofs.
Context {K : Type} `{EqDecision K}.
Implicit Types (l : list (K * Z)) (q : timeout_state K).

(** In range, 64-bit signed arithmetic is exact. *)
Lemma s64_small x : - 2 ^ 62 <= x < 2 ^ 62 -> s64 x = x.
Proof. intros. apply wrap_s_id; lia. Qed.

Lemma u64_small x : 0 <= x < 2 ^ 63 -> u64 x = x.
Proof. intros. apply wrap_u_id. lia. Qed.

Lemma s32_small x : 0 <= x < 2 ^ 31 -> s32 x = x.
Proof. intros. apply wrap_s_id; lia. Qed.

Lemma insert_timeout_keys to d l : (insert_timeout to d l).*1 ≡ₚ to :: l.*1.
Proof.
  revert d. induction l as [| [k x] l IH]; intros d; simpl; [done |].
  destruct (x >? d); simpl; [done |]. rewrite IH. apply perm_swap.
Qed.

Lemma insert_timeout_inv to d l :
  Forall (λ kd, 0 <= snd kd) l -> total l < 2 ^ 61 -> 0 <= d < 2 ^ 61 ->
  Forall (λ kd, 0 <= snd kd) (insert_timeout to d l) /\
  total (insert_timeout to d l) = Z.max (total l) d.
Proof.
  intros Hl. revert d. induction Hl as [| [k x] l Hx Hl IH]; intros d Ht Hd; simpl in *.
  - rewrite Forall_singleton. simpl. lia.
  - pose proof (total_nonneg _ Hl) as Hp.
    destruct (Z.gtb_spec x d); simpl; rewrite s64_small by lia.
    + rewrite !Forall_cons. simpl. repeat split; (lia || done).
    + destruct (IH (d - x)) as [IH1 IH2]; [lia | lia |].
      split; [by constructor; simpl |]. rewrite IH2. lia.
Qed.

Lemma insert_timeout_abs b to d l :
  Forall (λ kd, 0 <= snd kd) l -> total l < 2 ^ 61 -> 0 <= d < 2 ^ 61 ->
  abs_list b (insert_timeout to d l) = abs_insert to (b + d) (abs_list b l).
Proof.
  intros Hl. revert b d. induction Hl as [| [k x] l Hx Hl IH]; intros b d Ht Hd; simpl in *; [done |].
  pose proof (total_nonneg _ Hl) as Hp.
  destruct (Z.gtb_spec x d), (Z.gtb_spec (b + x) (b + d)); try lia; simpl;
    rewrite s64_small by lia.
  - f_equal. f_equal; [f_equal; lia | by replace (b + d + (x - d)) with (b + x) by lia].
  - rewrite IH by lia. f_equal. f_equal. lia.
Qed.

Lemma remove_timeout_keys t l : NoDup l.*1 -> (remove_timeout t l).*1 = dlist_remove t l.*1.
Proof.
  induction l as [| [k d] l IH]; intros Hnd; csimpl in *; [done |].
  case_decide as Hk.
  - subst k. rewrite dlist_remove_head by done. by destruct l as [| [k2 d2] l].
  - apply NoDup_cons in Hnd. unfold dlist_remove. rewrite filter_cons_True by done.
    csimpl. f_equal. apply IH. tauto.
Qed.

Lemma remove_timeout_inv t l :
  Forall (λ kd, 0 <= snd kd) l -> total l < 2 ^ 61 ->
  Forall (λ kd, 0 <= snd kd) (remove_timeout t l) /\ total (remove_timeout t l) <= total l.
Proof.
  intros Hl. induction Hl as [| [k d] l Hd Hl IH]; intros Ht; csimpl in *; [done |].
  pose proof (total_nonneg _ Hl) as Hp.
  case_decide.
  - destruct l as [| [k2 d2] l]; csimpl in *; [by split; [constructor | lia] |].
    apply Forall_cons in Hl as [? Hl]. pose proof (total_nonneg _ Hl). csimpl in *.
    rewrite s64_small by lia. split; [constructor; simpl; [lia | done] | lia].
  - destruct IH as [? ?]; [lia |]. split; [by constructor; simpl | simpl; lia].
Qed.

Lemma remove_timeout_abs b t l :
  NoDup l.*1 -> Forall (λ kd, 0 <= snd kd) l -> total l < 2 ^ 61 ->
  abs_list b (remove_timeout t l) = filter (λ ke, ke.1 ≠ t) (abs_list b l).
Proof.
  intros Hnd Hl. revert b Hnd. induction Hl as [| [k d] l Hd Hl IH]; intros b Hnd Ht; csimpl in *; [done |].
  pose proof (total_nonneg _ Hl) as Hp. apply NoDup_cons in Hnd as [Hk Hnd].
  rewrite filter_cons. simpl. case_decide as Ek.
  - subst k. rewrite decide_False by tauto.
    transitivity (abs_list (b + d) l).
    + destruct l as [| [k2 d2] l]; csimpl in *; [done |].
      apply Forall_cons in Hl as [? Hl]. pose proof (total_nonneg _ Hl). csimpl in *.
      rewrite s64_small by lia. by replace (b + (d2 + d)) with (b + d + d2) by lia.
    + symmetry. apply filter_keep. intros [k e] Hi. simpl. intros ->.
      apply (list_elem_of_fmap_2 fst) in Hi. rewrite abs_list_keys in Hi. done.
  - rewrite decide_True by done. simpl. rewrite IH by (done || lia). done.
Qed.


Lemma timeout_rem_loop_abs t n l e :
  NoDup l.*1 -> Forall (λ kd, 0 <= snd kd) l -> 0 <= n -> n + total l < 2 ^ 62 ->
  (t, e) ∈ abs_list n l -> timeout_rem_loop t n l = e.
Proof.
  intros Hnd Hl. revert n Hnd. induction Hl as [| [k d] l Hd Hl IH]; intros n Hnd Hn Ht; csimpl in *.
  - by intros ?%elem_of_nil.
  - pose proof (total_nonneg _ Hl) as Hp. apply NoDup_cons in Hnd as [Hk Hnd].
    rewrite s64_small by lia. intros [[= -> ->] | He]%elem_of_cons.
    + by rewrite decide_True.
    + case_decide as Ek.
      * subst k. exfalso. apply Hk. rewrite <- (abs_list_keys (n + d)).
        apply (list_elem_of_fmap_2 fst) in He. done.
      * apply IH; (done || lia).
Qed.

Lemma abs_list_shift b c l k e : (k, e) ∈ abs_list b l <-> (k, e - b + c) ∈ abs_list c l.
Proof.
  revert b c. induction l as [| [k' d] l IH]; intros b c; simpl.
  - by rewrite !elem_of_nil.
  - rewrite !elem_of_cons, (IH (b + d) (c + d)).
    replace (e - (b + d) + (c + d)) with (e - b + c) by lia.
    assert ((k, e) = (k', b + d) <-> (k, e - b + c) = (k', c + d)) as ->; [| done].
    split; intros [= -> H]; f_equal; lia.
Qed.

Lemma is_linked_expiry to q : is_linked to q = true <-> exists e, (to, e) ∈ expiries q.
Proof.
  unfold is_linked, expiries. rewrite bool_decide_eq_true, <- (abs_list_keys (curr_tick q)).
  rewrite list_elem_of_fmap. split.
  - intros ([k e] & -> & H). by exists e.
  - intros [e H]. by exists (to, e).
Qed.

Lemma elapsed_bound q : tq_wf q -> 0 <= elapsed q < 2 ^ 31.
Proof. intros []. unfold elapsed. case_bools; lia. Qed.

Lemma wf_set_list q l :
  tq_wf q -> NoDup l.*1 -> Forall (λ kd, 0 <= snd kd) l -> total l < 2 ^ 61 ->
  tq_wf (set_timeout_list l q).
Proof. intros [] ? ? ?. by constructor. Qed.

Lemma timeout_list_reprogram SLOPPY to q :
  let q' := if bool_decide (fst <$> first q = Some to) && (announce_remaining q =? 0)
            then sys_clock_set_timeout (next_timeout SLOPPY q) q else q in
  expiries q' = expiries q /\ (tq_wf q -> tq_wf q').
Proof. cbv zeta. case_bools; split; try done. intros []. by constructor. Qed.

(** The expiry tick a timeout argument asks for (the API contract of [k_timeout_t]). *)
Definition requested_expiry (timeout : Z) (q : timeout_state K) : Z :=
  if Z_TICK_ABS timeout >=? 0 then Z.max (curr_tick q + 1) (Z_TICK_ABS timeout)
  else curr_tick q + elapsed q + timeout + 1.

Lemma timeout_dticks_spec timeout q :
  tq_wf q -> - 2 ^ 60 <= timeout < 2 ^ 60 -> timeout ≠ K_FOREVER ->
  curr_tick q + timeout_dticks timeout q = requested_expiry timeout q /\
  0 <= timeout_dticks timeout q < 2 ^ 61.
Proof.
  intros Hwf Ht Hf. pose proof (elapsed_bound q Hwf). destruct Hwf.
  unfold timeout_dticks, requested_expiry, Z_TICK_ABS, K_FOREVER, K_TICKS_FOREVER in *.
  destruct (Z.geb_spec (-1 - 1 - timeout) 0); rewrite s64_small by lia; lia.
Qed.

Lemma z_add_timeout_ok SLOPPY to timeout q :
  tq_wf q -> is_linked to q = false -> - 2 ^ 60 <= timeout < 2 ^ 60 -> timeout ≠ K_FOREVER ->
  tq_wf (z_add_timeout SLOPPY to timeout q) /\
  expiries (z_add_timeout SLOPPY to timeout q) =
    abs_insert to (requested_expiry timeout q) (expiries q).
Proof.
  intros Hwf Hl Ht Hf. unfold z_add_timeout, K_TIMEOUT_EQ.
  destruct (Z.eqb_spec timeout K_FOREVER); [done |].
  destruct (timeout_dticks_spec timeout q) as [Hd Hb]; [done.. |].
  set (q1 := set_timeout_list _ q).
  destruct (timeout_list_reprogram SLOPPY to q1) as [-> Hwf']. split.
  - apply Hwf'. destruct Hwf.
    destruct (insert_timeout_inv to (timeout_dticks timeout q) (timeout_list q)) as [Hf1 Hf2]; [done.. |].
    apply wf_set_list; [by constructor | | done | lia].
    rewrite insert_timeout_keys. apply NoDup_cons. split; [| done].
    unfold is_linked in Hl. by apply bool_decide_eq_false in Hl.
  - destruct Hwf. unfold expiries, q1. simpl. rewrite insert_timeout_abs by done. by rewrite Hd.
Qed.

Lemma z_abort_timeout_ok to q :
  tq_wf q ->
  tq_wf (z_abort_timeout to q).2 /\
  (z_abort_timeout to q).1 = (if is_linked to q then 0 else - EINVAL) /\
  expiries (z_abort_timeout to q).2 = filter (λ ke, ke.1 ≠ to) (expiries q).
Proof.
  intros Hwf. unfold z_abort_timeout. destruct (is_linked to q) eqn:El; simpl.
  - destruct (remove_timeout_inv to (timeout_list q)) as [H1 H2]; [apply Hwf.. |]. split; [| split; [done |]].
    + apply wf_set_list; [done | | done | destruct Hwf; lia].
      rewrite remove_timeout_keys by apply Hwf. apply dlist_remove_nodup, Hwf.
    + unfold expiries. simpl. rewrite remove_timeout_abs by apply Hwf. done.
  - split; [done |]. split; [done |]. symmetry. apply filter_keep. intros [k e] He. simpl. intros ->.
    assert (is_linked to q = true) by (apply is_linked_expiry; eauto). congruence.
Qed.

Lemma is_linked_add SLOPPY to timeout q k :
  timeout ≠ K_FOREVER ->
  is_linked k (z_add_timeout SLOPPY to timeout q) = bool_decide (k = to) || is_linked k q.
Proof.
  intros Hf. unfold z_add_timeout, K_TIMEOUT_EQ. destruct (Z.eqb_spec timeout K_FOREVER); [done |].
  cbv zeta. set (q1 := set_timeout_list _ q).
  transitivity (is_linked k q1); [case_match; done |]. unfold is_linked, q1. simpl.
  apply Bool.eq_true_iff_eq. rewrite orb_true_iff, !bool_decide_eq_true.
  by rewrite insert_timeout_keys, elem_of_cons.
Qed.

Lemma is_linked_abort to q k :
  NoDup (timeout_list q).*1 ->
  is_linked k (z_abort_timeout to q).2 = is_linked k q && bool_decide (k ≠ to).
Proof.
  intros Hnd. unfold z_abort_timeout. destruct (is_linked to q) eqn:El; simpl.
  - unfold is_linked. simpl. rewrite remove_timeout_keys by done.
    apply Bool.eq_true_iff_eq. rewrite andb_true_iff, !bool_decide_eq_true, dlist_remove_elem. tauto.
  - destruct (is_linked k q) eqn:Ek; simpl; [| done]. symmetry. apply bool_decide_eq_true. congruence.
Qed.

End QueueProofs.

Section AnnounceProofs.
Context {K : Type} `{EqDecision K} (SLOPPY_IDLE : bool).
Context {S : Type} (queue : S -> timeout_state K) (with_queue : timeout_state K -> S -> S).
Context (fn : K -> S -> S).
Hypothesis queue_with_queue : ∀ q s, queue (with_queue q s) = q.
(** The timeout objects of the system, the ticks that pass while the ticks are
    announced, and the timeouts the callback of [k] arms when it runs at a tick,
    with their expiries. *)
Context (D : list K) (el : Z) (arms : K -> Z -> list (K * Z)).
Implicit Types (q : timeout_state K) (s : S).

Definition abs_arm (new l : list (K * Z)) : list (K * Z) := foldr (λ ke l, abs_insert ke.1 ke.2 l) l new.

(** What a callback does to the queue: it may arm timeouts, itself included,
    that expire later than the current tick (as [z_add_timeout] has it), and
    nothing else. *)
Definition callbacks_arm : Prop :=
  ∀ k s, let q := queue s in let q' := queue (fn k s) in
    tq_wf q -> sys_clock_elapsed q = el -> k ∈ D -> (timeout_list q).*1 ⊆ D -> k ∉ (timeout_list q).*1 ->
    tq_wf q' /\ sys_clock_elapsed q' = el /\ (timeout_list q').*1 ⊆ D /\
    curr_tick q' = curr_tick q /\ announce_remaining q' = announce_remaining q /\
    expiries q' = abs_arm (arms k (curr_tick q)) (expiries q) /\
    Forall (λ ke, curr_tick q < ke.2) (arms k (curr_tick q)).
Hypothesis fn_arms : callbacks_arm.

Lemma announce_pop_list t d l q :
  tq_wf q -> timeout_list q = (t, d) :: l -> timeout_list (announce_pop t (s32 d) q) = l.
Proof.
  intros Hwf Hq. unfold announce_pop. simpl. rewrite decide_True by done. rewrite Hq. simpl.
  destruct Hwf as [_ Hp Ht _ _ _]. rewrite Hq in Hp, Ht. simpl in Ht.
  apply Forall_cons in Hp as [Hd Hp]. simpl in Hd.
  destruct l as [| [k2 d2] l]; [done |]. simpl in *. apply Forall_cons in Hp as [Hd2 Hp].
  pose proof (total_nonneg _ Hp). simpl in *. rewrite s64_small by lia. f_equal. f_equal. lia.
Qed.

(** The head expires: [curr_tick] moves to its expiry. *)
Lemma announce_pop_step t d l q :
  tq_wf q -> timeout_list q = (t, d) :: l -> d <= announce_remaining q ->
  curr_tick q + announce_remaining q < 2 ^ 61 ->
  let q' := announce_pop t (s32 d) q in
  tq_wf q' /\ timeout_list q' = l /\ curr_tick q' = curr_tick q + d /\ t ∉ l.*1 /\ s32 d = d /\ 0 <= d /\
  expiries q = (t, curr_tick q + d) :: expiries q'.
Proof.
  intros Hwf Hq Hd Hb. cbv zeta. pose proof (announce_pop_list _ _ _ _ Hwf Hq) as Hl.
  destruct Hwf as [Hnd Hp Ht Hc He Ha]. unfold expiries. rewrite Hl, Hq in *. csimpl in Hnd. simpl in Ht.
  apply NoDup_cons in Hnd as [Hn Hnd]. apply Forall_cons in Hp as [Hd0 Hp]. simpl in Hd0.
  assert (curr_tick (announce_pop t (s32 d) q) = curr_tick q + d) as Hc'.
  { simpl. by rewrite (s32_small d), u64_small by lia. }
  rewrite Hc'. pose proof (total_nonneg _ Hp).
  repeat split; rewrite ?Hl, ?Hc'; first [done | apply He | apply s32_small; lia | lia | idtac].
  all: cbn [announce_pop set_timeout_list set_curr_tick announce_remaining]; lia.
Qed.

Lemma abs_insert_perm (k : K) e (l : list (K * Z)) : abs_insert k e l ≡ₚ (k, e) :: l.
Proof.
  induction l as [| [k' x] l IH]; simpl; [done |]. destruct (x >? e); [done |]. rewrite IH. apply perm_swap.
Qed.

Lemma abs_arm_perm new (l : list (K * Z)) : abs_arm new l ≡ₚ new ++ l.
Proof. induction new as [| [k e] new IH]; simpl; [done |]. by rewrite abs_insert_perm, IH. Qed.

Lemma abs_insert_sublist (k : K) e (l : list (K * Z)) : l `sublist_of` abs_insert k e l.
Proof.
  induction l as [| [k' x] l IH]; simpl; [apply sublist_nil_l |].
  destruct (x >? e); [by apply sublist_cons | by apply sublist_skip].
Qed.

Lemma abs_arm_sublist new (l : list (K * Z)) : l `sublist_of` abs_arm new l.
Proof. induction new as [| [k e] new IH]; simpl; [done |]. etrans; [apply IH | apply abs_insert_sublist]. Qed.

Lemma filter_sublist_mono {A} (P : A -> Prop) `{∀ x, Decision (P x)} (l1 l2 : list A) :
  l1 `sublist_of` l2 -> filter P l1 `sublist_of` filter P l2.
Proof.
  induction 1 as [| x l1 l2 H1 IH | x l1 l2 H1 IH]; [done | |]; rewrite !filter_cons; case_decide;
    [by apply sublist_skip | done | by apply sublist_cons | done].
Qed.

(** The timeouts that are due at the current tick already. *)
Definition due_now q : nat := length (filter (λ ke, ke.2 <= curr_tick q) (expiries q)).

Lemma due_now_arm q q' new :
  curr_tick q' = curr_tick q -> expiries q' = abs_arm new (expiries q) ->
  Forall (λ ke, curr_tick q < ke.2) new -> due_now q' = due_now q.
Proof.
  intros Hc He Hn. unfold due_now. rewrite Hc, He, (abs_arm_perm new (expiries q)), filter_app.
  rewrite (filter_none _ new); [done |]. intros ke Hk. rewrite Forall_forall in Hn. specialize (Hn ke Hk). lia.
Qed.

Lemma length_known q : tq_wf q -> (timeout_list q).*1 ⊆ D -> (length (timeout_list q) <= length D)%nat.
Proof.
  intros Hwf Hsub. rewrite <- (length_fmap fst). apply submseteq_length, NoDup_submseteq; [apply Hwf | done].
Qed.

Lemma due_now_le q : (due_now q <= length (timeout_list q))%nat.
Proof.
  unfold due_now. etrans; [apply length_filter |]. unfold expiries.
  by rewrite <- (length_fmap fst), abs_list_keys, length_fmap.
Qed.

(** The state at the head of the loop after one timeout. *)
Lemma announce_iter t d l s :
  let q := queue s in
  tq_wf q -> sys_clock_elapsed q = el -> (timeout_list q).*1 ⊆ D -> timeout_list q = (t, d) :: l ->
  d <= announce_remaining q -> curr_tick q + announce_remaining q < 2 ^ 61 ->
  let s2 := fn t (with_queue (announce_pop t (s32 d) q) s) in
  let q' := set_announce_remaining (s32 (announce_remaining (queue s2) - s32 d)) (queue s2) in
  tq_wf q' /\ sys_clock_elapsed q' = el /\ (timeout_list q').*1 ⊆ D /\
  curr_tick q' = curr_tick q + d /\ announce_remaining q' = announce_remaining q - d /\ 0 <= d /\
  curr_tick (announce_pop t (s32 d) q) = curr_tick q + d /\
  (exists rest, expiries q = (t, curr_tick q + d) :: rest /\ expiries q' = abs_arm (arms t (curr_tick q + d)) rest) /\
  (length D * Z.to_nat (announce_remaining q') + due_now q' <
   length D * Z.to_nat (announce_remaining q) + due_now q)%nat.
Proof.
  cbv zeta. intros Hwf Hel Hsub Hq Hd Hb.
  destruct (announce_pop_step t d l (queue s) Hwf Hq Hd Hb) as (Hwf1 & Hl1 & Hc1 & Hn & Es & Hd0 & Hx).
  set (q1 := announce_pop t (s32 d) (queue s)) in *. rewrite Hq in Hsub. csimpl in Hsub.
  assert (t ∈ D) as HtD by (apply Hsub; left).
  destruct (fn_arms t (with_queue q1 s)) as (Hwf2 & Hel2 & Hsub2 & Hc2 & Ha2 & He2 & Hf2);
    rewrite ?queue_with_queue; rewrite ?Hl1; [done | done | done | set_solver | done |].
  rewrite queue_with_queue in Hc2, Ha2, He2, Hf2. set (q2 := queue (fn t (with_queue q1 s))) in *.
  change (announce_remaining q1) with (announce_remaining (queue s)) in Ha2. pose proof (wf_announce _ Hwf).
  rewrite Ha2, Es, s32_small by lia. pose proof (due_now_arm q1 q2 _ Hc2 He2 Hf2) as Hdue.
  change (due_now (set_announce_remaining (announce_remaining (queue s) - d) q2)) with (due_now q2).
  change (expiries (set_announce_remaining (announce_remaining (queue s) - d) q2)) with (expiries q2).
  cbn [set_announce_remaining timeout_list curr_tick announce_remaining sys_clock_elapsed].
  split; [destruct Hwf2; constructor; cbn [set_announce_remaining timeout_list curr_tick announce_remaining sys_clock_elapsed]; (done || lia) |].
  do 2 (split; [done |]). split; [by rewrite Hc2 |]. do 3 (split; [done |]).
  split; [exists (expiries q1); split; [done | by rewrite He2, Hc1] |]. rewrite Hdue.
  pose proof (due_now_le q1) as Hle. rewrite Hl1 in Hle.
  assert (length (timeout_list (queue s)) <= length D)%nat as HlD by (apply length_known; [done |]; by rewrite Hq).
  rewrite Hq in HlD. simpl in HlD.
  destruct (Z.eq_dec d 0) as [-> | Hne]; [| assert (Z.to_nat (announce_remaining (queue s) - d) < Z.to_nat (announce_remaining (queue s)))%nat by lia; nia].
  rewrite Z.sub_0_r. unfold due_now. rewrite Hx, Hc1, filter_cons_True by (simpl; lia). rewrite !Z.add_0_r. simpl. lia.
Qed.

(** What announcing up to tick [now] does: [fired] are the timeouts run, [l]
    and [l'] the queue before and after. *)
Definition announced (now : Z) (l fired l' : list (K * Z)) : Prop :=
  StronglySorted (λ a b, a.2 <= b.2) fired /\
  Forall (λ ke, ke.2 <= now) fired /\ Forall (λ ke, now < ke.2) l' /\
  fired ++ l' ≡ₚ l ++ (fired ≫= λ ke, arms ke.1 ke.2) /\
  filter (λ ke, ke.2 <= now) l `sublist_of` fired /\
  filter (λ ke, now < ke.2) l `sublist_of` l'.

Lemma announced_stop now l : Forall (λ ke, now < ke.2) l -> announced now l [] l.
Proof.
  intros Hl. split; [constructor |]. split; [done |]. split; [done |]. simpl. rewrite app_nil_r. split; [done |].
  rewrite Forall_forall in Hl.
  rewrite filter_none, filter_keep by (intros ke Hk; specialize (Hl ke Hk); lia). done.
Qed.

Lemma announced_step now t e rest fired l' :
  e <= now -> Forall (λ ke, e <= ke.2) fired ->
  announced now (abs_arm (arms t e) rest) fired l' -> announced now ((t, e) :: rest) ((t, e) :: fired) l'.
Proof.
  intros He Hf (Hs & Hd & Hl & Hp & Hsub & Hsub').
  split; [by constructor |]. split; [by constructor |]. split; [done |]. split.
  - simpl. rewrite Hp, abs_arm_perm. apply perm_skip. solve_Permutation.
  - rewrite filter_cons_True, filter_cons_False by (simpl; lia). split.
    + apply sublist_skip. etrans; [apply filter_sublist_mono, abs_arm_sublist | done].
    + etrans; [apply filter_sublist_mono, abs_arm_sublist | done].
Qed.

Lemma announced_stop_head now q :
  tq_wf q -> curr_tick q + announce_remaining q = now ->
  (∀ kd, head (timeout_list q) = Some kd -> announce_remaining q < kd.2) -> announced now (expiries q) [] (expiries q).
Proof.
  intros Hwf Hn Hh. apply announced_stop. unfold expiries. pose proof (wf_pos _ Hwf) as Hp.
  destruct (timeout_list q) as [| [t d] l]; simpl; [done |]. specialize (Hh _ eq_refl). simpl in Hh.
  apply Forall_cons in Hp as [_ Hp]. constructor; [simpl; lia |]. apply Forall_forall. intros [k e] He.
  apply abs_list_lower in He; [simpl; lia | done].
Qed.

Lemma announce_loop_spec fuel s :
  let q := queue s in
  let now := curr_tick q + announce_remaining q in
  tq_wf q -> sys_clock_elapsed q = el -> (timeout_list q).*1 ⊆ D -> now < 2 ^ 61 ->
  (length D * Z.to_nat (announce_remaining q) + due_now q < fuel)%nat ->
  exists s' fired, announce_loop queue with_queue fn fuel s = Some (s', fired) /\
    tq_wf (queue s') /\ curr_tick (queue s') + announce_remaining (queue s') = now /\
    announced now (expiries q) fired (expiries (queue s')) /\ Forall (λ ke, curr_tick q <= ke.2) fired /\
    (∀ kd, head (timeout_list (queue s')) = Some kd -> announce_remaining (queue s') < kd.2).
Proof.
  revert s. induction fuel as [| fuel IH]; intros s q now Hwf Hel Hsub Hnow Hfuel; [lia |].
  assert ((∀ kd, head (timeout_list q) = Some kd -> announce_remaining q < kd.2) ->
    exists s' fired, Some (s, []) = Some (s', fired) /\ tq_wf (queue s') /\
    curr_tick (queue s') + announce_remaining (queue s') = now /\
    announced now (expiries q) fired (expiries (queue s')) /\ Forall (λ ke, curr_tick q <= ke.2) fired /\
    (∀ kd, head (timeout_list (queue s')) = Some kd -> announce_remaining (queue s') < kd.2)) as Hstop.
  { intros Hh. exists s, []. split; [done |]. split; [done |]. split; [done |].
    split; [by apply announced_stop_head | by split; [constructor |]]. }
  simpl. fold q. unfold first. destruct (timeout_list q) as [| [t d] l] eqn:Hq; simpl in *; [by apply Hstop |].
  destruct (Z.leb_spec d (announce_remaining q)) as [Hd | Hd]; [| apply Hstop; by intros ? [= <-]].
  destruct (announce_iter t d l s Hwf Hel ltac:(fold q; by rewrite Hq) Hq Hd Hnow)
    as (Hwf1 & Hel1 & Hsub1 & Hc1 & Ha1 & Hd0 & Hc & (rest & Hx & Hx1) & Hm). fold q in Hwf1, Hel1, Hsub1, Hc1, Ha1, Hc, Hx, Hx1, Hm.
  set (s2 := fn t _) in *. set (q1 := set_announce_remaining _ (queue s2)) in *.
  destruct (IH (with_queue q1 s2)) as (s' & fired & E & Hwf' & Hc' & Han & Hlo & Hh); rewrite ?queue_with_queue; [done | done | done | lia | lia |].
  rewrite queue_with_queue in Hc', Han, Hlo. change (set_announce_remaining _ (queue s2)) with q1. rewrite E. simpl.
  change (u64 (curr_tick q + s32 d)) with (curr_tick (announce_pop t (s32 d) q)). rewrite Hc.
  replace (curr_tick q1 + announce_remaining q1) with now in * by lia. rewrite Hc1 in Hlo.
  exists s', ((t, curr_tick q + d) :: fired). do 3 (split; [done |]). rewrite Hx. split; [| split; [| done]].
  - apply announced_step; [lia | done | by rewrite <- Hx1].
  - constructor; [simpl; lia |]. eapply Forall_impl; [exact Hlo |]. simpl. lia.
Qed.

Lemma announce_finish_ok q :
  tq_wf q -> curr_tick q + announce_remaining q < 2 ^ 61 ->
  (∀ kd, head (timeout_list q) = Some kd -> announce_remaining q < kd.2) ->
  let q' := announce_finish SLOPPY_IDLE q in
  tq_wf q' /\ expiries q' = expiries q /\ announce_remaining q' = 0 /\
  curr_tick q' = curr_tick q + announce_remaining q.
Proof.
  intros [Hnd Hp Ht Hc He Ha] HT Hh. cbv zeta. unfold announce_finish, expiries.
  destruct (timeout_list q) as [| [t d] l] eqn:Hq; simpl; rewrite u64_small by lia.
  - rewrite Hq. repeat split; simpl; rewrite ?Hq; (done || lia).
  - specialize (Hh _ eq_refl). csimpl in *. apply Forall_cons in Hp as [? Hp].
    pose proof (total_nonneg _ Hp). simpl in *. rewrite s64_small by lia.
    repeat split; simpl; try (done || lia).
    + constructor; simpl; [lia | done].
    + f_equal; [f_equal; lia | f_equal; lia].
Qed.

Lemma sys_clock_announce_ok fuel ticks s :
  let q := queue s in
  let now := curr_tick q + ticks in
  tq_wf q -> sys_clock_elapsed q = el -> (timeout_list q).*1 ⊆ D -> announce_remaining q = 0 ->
  0 <= ticks < 2 ^ 31 -> now < 2 ^ 61 -> (length D * (Z.to_nat ticks + 1) < fuel)%nat ->
  exists s' fired, sys_clock_announce SLOPPY_IDLE queue with_queue fn fuel ticks s = Some (s', fired) /\
    tq_wf (queue s') /\ announce_remaining (queue s') = 0 /\ curr_tick (queue s') = now /\
    announced now (expiries q) fired (expiries (queue s')).
Proof.
  intros q now Hwf Hel Hsub H0 Ht Hnow Hfuel. unfold sys_clock_announce. fold q.
  set (q0 := set_announce_remaining ticks q).
  assert (tq_wf q0) as Hwf0 by (destruct Hwf; by constructor).
  assert (due_now q0 <= length D)%nat by (etrans; [apply due_now_le | by apply length_known]).
  destruct (announce_loop_spec fuel (with_queue q0 s)) as (s' & fired & Hloop & Hwf' & Hc & Ha & _ & Hh);
    rewrite ?queue_with_queue; [done | done | done | done | simpl; lia |].
  rewrite queue_with_queue in Hc, Ha. rewrite Hloop. simpl. exists (with_queue (announce_finish SLOPPY_IDLE (queue s')) s'), fired.
  split; [done |]. rewrite !queue_with_queue.
  change (curr_tick q0 + announce_remaining q0) with now in *.
  destruct (announce_finish_ok (queue s')) as (? & Hexp & ? & ?); [done | lia | done |].
  rewrite Hexp. split; [done |]. split; [done |]. split; [lia | done].
Qed.

End AnnounceProofs.

(** ** Claims *)

Section Claims.
Context {K : Type} `{EqDecision K}.
Implicit Types (to : K) (q : timeout_state K).

Lemma abs_list_upper b (l : list (K * Z)) k e :
  Forall (λ kd : K * Z, 0 <= snd kd) l -> (k, e) ∈ abs_list b l -> e <= b + total l.
Proof.
  intros Hl. revert b. induction Hl as [| [k' d] l Hd Hl IH]; intros b; simpl in *; [by intros ?%elem_of_nil |].
  pose proof (total_nonneg _ Hl). intros [[= -> ->] | H']%elem_of_cons; [lia |]. apply IH in H'. lia.
Qed.

Lemma expires_ok to q e : tq_wf q -> (to, e) ∈ expiries q -> z_timeout_expires to q = e.
Proof.
  intros Hwf He. unfold z_timeout_expires, z_is_inactive_timeout.
  assert (is_linked to q = true) as -> by (apply is_linked_expiry; eauto). simpl.
  unfold expiries in He. destruct Hwf as [Hnd Hp Ht Hc _ _].
  pose proof (abs_list_lower _ _ _ _ Hp He). pose proof (abs_list_upper _ _ _ _ Hp He).
  apply (abs_list_shift _ 0) in He. unfold timeout_rem.
  rewrite (timeout_rem_loop_abs to 0 _ _ Hnd Hp ltac:(lia) ltac:(lia) He).
  rewrite (s64_small (curr_tick q)), s64_small by lia. lia.
Qed.

Lemma abs_insert_elem to e (l : list (K * Z)) : (to, e) ∈ abs_insert to e l.
Proof. induction l as [| [k x] l IH]; simpl; [set_solver |]. case_match; set_solver. Qed.

Lemma abs_insert_without to e (l : list (K * Z)) :
  to ∉ l.*1 -> filter (λ ke, ke.1 ≠ to) (abs_insert to e l) = l.
Proof.
  induction l as [| [k x] l IH]; csimpl; intros Hn.
  - by rewrite filter_cons_False by naive_solver.
  - assert (filter (λ ke : K * Z, ke.1 ≠ to) l = l) as Hf.
    { apply filter_keep. intros [k' x'] Hin. simpl. intros ->. apply Hn. right. by apply (list_elem_of_fmap_2 fst) in Hin. }
    case_match.
    + rewrite filter_cons_False by naive_solver. rewrite filter_cons_True by (simpl; set_solver). by rewrite Hf.
    + rewrite filter_cons_True by (simpl; set_solver). f_equal. apply IH. set_solver.
Qed.

(** Adding a timeout puts it in the queue at the tick its argument asks
    for: [timeout + 1] ticks from now for a relative one, the given tick (but
    never the present one) for an absolute one; behind the timeouts that
    expire no later, and without moving any of them. *)
Theorem timeout_add_spec SLOPPY to timeout q :
  tq_wf q -> is_linked to q = false -> - 2 ^ 60 <= timeout < 2 ^ 60 -> timeout ≠ K_FOREVER ->
  let q' := z_add_timeout SLOPPY to timeout q in
  tq_wf q' /\ expiries q' = abs_insert to (requested_expiry timeout q) (expiries q) /\
  z_timeout_expires to q' = requested_expiry timeout q.
Proof.
  intros Hwf Hl Ht Hf q'. destruct (z_add_timeout_ok SLOPPY to timeout q Hwf Hl Ht Hf) as [Hwf' He].
  split; [done |]. split; [done |]. apply expires_ok; [done |]. unfold q'. rewrite He. apply abs_insert_elem.
Qed.

(** Aborting a timeout that was just added restores the queue: every
    other timeout expires when it did before.  Aborting an inactive timeout
    returns -EINVAL and changes nothing. *)
Theorem timeout_abort_undoes_add SLOPPY to timeout q :
  tq_wf q -> is_linked to q = false -> - 2 ^ 60 <= timeout < 2 ^ 60 -> timeout ≠ K_FOREVER ->
  z_abort_timeout to q = (- EINVAL, q) /\
  let '(ret, q') := z_abort_timeout to (z_add_timeout SLOPPY to timeout q) in
  ret = 0 /\ tq_wf q' /\ expiries q' = expiries q.
Proof.
  intros Hwf Hl Ht Hf. split; [unfold z_abort_timeout; by rewrite Hl |].
  destruct (z_add_timeout_ok SLOPPY to timeout q Hwf Hl Ht Hf) as [Hwf' He].
  destruct (z_abort_timeout_ok to _ Hwf') as (Hwf2 & Hr & He2).
  rewrite is_linked_add, bool_decide_true in Hr by done. simpl in Hr.
  destruct (z_abort_timeout to (z_add_timeout SLOPPY to timeout q)) as [ret q']. simpl in *.
  split; [done |]. split; [done |]. rewrite He2, He. apply abs_insert_without.
  unfold expiries. rewrite abs_list_keys. unfold is_linked in Hl. by apply bool_decide_eq_false in Hl.
Qed.

(** A timeout converted to a timepoint and read back later gives the time
    that is left: the original timeout minus the ticks passed, never below
    zero; FOREVER and NO_WAIT are preserved. *)
Theorem timepoint_roundtrip timeout q q' :
  tq_wf q -> tq_wf q' -> sys_clock_tick_get q <= sys_clock_tick_get q' ->
  timeout = K_FOREVER \/ timeout = K_NO_WAIT \/ 1 <= timeout < 2 ^ 60 ->
  sys_timepoint_timeout (sys_timepoint_calc timeout q) q' =
    if decide (timeout = K_FOREVER) then K_FOREVER
    else Z.max 0 (timeout - (sys_clock_tick_get q' - sys_clock_tick_get q)).
Proof.
  intros Hwf Hwf' Hle Ht. pose proof (elapsed_bound q Hwf). pose proof (elapsed_bound q' Hwf').
  destruct Hwf, Hwf'. unfold sys_clock_tick_get in *. rewrite !u64_small in * by lia.
  unfold sys_timepoint_calc, sys_timepoint_timeout, K_TIMEOUT_EQ, Z_TICK_ABS, sys_clock_tick_get.
  unfold K_FOREVER, K_TICKS_FOREVER, K_NO_WAIT in *. rewrite (u64_small (curr_tick q + _)), (u64_small (curr_tick q' + _)) by lia.
  destruct Ht as [-> | [-> | Ht]]; [done | rewrite decide_False by done; simpl; lia |].
  rewrite decide_False by lia.
  destruct (Z.eqb_spec timeout (-1)); [lia |]. destruct (Z.eqb_spec timeout 0); [lia |].
  destruct (Z.geb_spec (-1 - 1 - timeout) 0); [lia |].
  rewrite s64_small, u64_small by lia. unfold UINT64_MAX.
  destruct (Z.eqb_spec (curr_tick q + elapsed q + Z.max 1 timeout) 18446744073709551615); [lia |].
  destruct (Z.eqb_spec (curr_tick q + elapsed q + Z.max 1 timeout) 0); [lia |].
  destruct (Z.gtb_spec (curr_tick q + elapsed q + Z.max 1 timeout) (curr_tick q' + elapsed q')); [rewrite s64_small by lia |]; lia.
Qed.

End Claims.


(** ** Concrete runs *)

(** Timeouts 1, 2 and 3 expiring at ticks 110, 110 and 125; tick 100, of
    which 4 more have passed. *)
Definition tq0 : timeout_state nat := mk_timeout_state [(1%nat, 10); (2%nat, 0); (3%nat, 15)] 100 0 4 0.

Lemma tq0_wf : tq_wf tq0.
Proof.
  constructor; simpl; [apply (bool_decide_unpack _); by vm_compute | | lia..].
  repeat constructor; simpl; lia.
Qed.

Lemma timeout_add_spec_witness :
  expiries (z_add_timeout false 4%nat 7 tq0) = [(1%nat, 110); (2%nat, 110); (4%nat, 112); (3%nat, 125)] /\
  z_timeout_expires 4%nat (z_add_timeout false 4%nat 7 tq0) = 112.
Proof. apply (timeout_add_spec false 4%nat 7 tq0); [apply tq0_wf | reflexivity | lia | discriminate]. Defined.

Lemma timeout_abort_undoes_add_witness :
  let '(ret, q') := z_abort_timeout 4%nat (z_add_timeout false 4%nat 7 tq0) in
  ret = 0 /\ tq_wf q' /\ expiries q' = [(1%nat, 110); (2%nat, 110); (3%nat, 125)].
Proof. apply (timeout_abort_undoes_add false 4%nat 7 tq0); [apply tq0_wf | reflexivity | lia | discriminate]. Defined.

Lemma timepoint_roundtrip_witness :
  sys_timepoint_timeout (sys_timepoint_calc 50 tq0) (set_curr_tick 120 tq0) = 30.
Proof.
  apply (timepoint_roundtrip 50 tq0 (set_curr_tick 120 tq0)); [apply tq0_wf | destruct tq0_wf; by constructor | by vm_compute | lia].
Defined.

(** Timeouts 1 and 2 due at tick 110 and 3 at 125; the callback of 1 arms it
    again, 8 ticks on. *)
Definition tq1 : timeout_state nat := mk_timeout_state [(1%nat, 10); (2%nat, 0); (3%nat, 15)] 100 0 0 0.
Definition rearm_fn (k : nat) (q : timeout_state nat) : timeout_state nat := if decide (k = 1%nat) then z_add_timeout false k 7 q else q.
Definition rearm_arms (k : nat) (t : Z) : list (nat * Z) := if decide (k = 1%nat) then [(k, t + 8)] else [].

Lemma rearm_ok : callbacks_arm id rearm_fn [1%nat; 2%nat; 3%nat] 0 rearm_arms.
Proof.
  intros k q q1 q2 Hwf Hel Hk Hsub Hn. unfold q1, q2, rearm_fn, rearm_arms, id in *. case_decide as E; [| by rewrite Forall_nil].
  assert (is_linked k q = false) as Hl by (by apply bool_decide_eq_false).
  destruct (z_add_timeout_ok false k 7 q Hwf Hl ltac:(lia) ltac:(done)) as [Hw He].
  assert (requested_expiry 7 q = curr_tick q + 8) as Hr.
  { unfold requested_expiry, Z_TICK_ABS, elapsed. simpl. rewrite Hel. case_match; lia. }
  rewrite He, Hr. split; [done |]. rewrite Forall_singleton. simpl.
  assert (∀ q, sys_clock_elapsed (z_add_timeout false k 7 q) = sys_clock_elapsed q /\
    curr_tick (z_add_timeout false k 7 q) = curr_tick q /\
    announce_remaining (z_add_timeout false k 7 q) = announce_remaining q /\
    timeout_list (z_add_timeout false k 7 q) = insert_timeout k (timeout_dticks 7 q) (timeout_list q)) as Hfr.
  { intros q0. unfold z_add_timeout. simpl. by case_match. }
  destruct (Hfr q) as (-> & -> & -> & ->). split; [done |]. split; [| repeat split; lia].
  intros x. rewrite insert_timeout_keys, elem_of_cons. intros [-> | Hx]; auto.
Qed.

