(* ===== verification/Kernel.v ===== *)
(** * Kernel data structures and thread predicates

    The thread and kernel records (include/zephyr/kernel/thread.h,
    include/zephyr/kernel_structs.h), the build-time configuration the code
    depends on, and the inline predicates of kernel/include/kthread.h and
    ksched.h.

    Threads, wait queues and timeouts are named by identifiers that stand for
    the addresses of their C objects.  A thread is stored in the finite map
    [threads]; an address that holds no initialised thread reads as a
    [_THREAD_DUMMY] thread.  The modelled build is the uniprocessor one:
    CONFIG_SMP=n, CONFIG_USE_SWITCH=y, CONFIG_SYS_CLOCK_EXISTS=y,
    CONFIG_MULTITHREADING=y, CONFIG_EVENTS=y, CONFIG_WAITQ_DUMB=y,
    CONFIG_SCHED_DUMB=y, CONFIG_TIMESLICING=n, CONFIG_POLL=n,
    CONFIG_USERSPACE=n. *)

From Stdlib Require Import ZArith Lia Bool.
From stdpp Require Import base numbers list gmap.
From S2P Require Import Prelude TimeoutQ.

Open Scope Z_scope.

(** ** Identifiers *)

Abbreviation tid := nat.

(** A wait queue is the join queue of a thread or belongs to a kernel object. *)
Abbreviation wqid := (nat + nat)%type.

(** A [struct _timeout] is embedded in a thread or belongs to another object. *)
Abbreviation tkey := (nat + nat)%type.

Definition join_queue (t : tid) : wqid := inl t.
Definition thread_timeout (t : tid) : tkey := inl t.

(** ** Configuration *)

Class Kconfig := {
  NUM_COOP_PRIORITIES : Z;
  NUM_PREEMPT_PRIORITIES : Z;
  NUM_METAIRQ_PRIORITIES : Z;
  PRIORITY_CEILING : Z;
  SCHED_DEADLINE : bool;
  SWAP_NONATOMIC : bool;
  SYSTEM_CLOCK_SLOPPY_IDLE : bool
}.

(** The defaults of kernel/Kconfig, for concrete runs. *)
Definition default_kconfig : Kconfig :=
  {| NUM_COOP_PRIORITIES := 16; NUM_PREEMPT_PRIORITIES := 15; NUM_METAIRQ_PRIORITIES := 0;
     PRIORITY_CEILING := -127; SCHED_DEADLINE := false; SWAP_NONATOMIC := false;
     SYSTEM_CLOCK_SLOPPY_IDLE := false |}.

(** ** Thread states (include/zephyr/kernel_structs.h) *)

Definition _THREAD_DUMMY : Z := BIT 0.
Definition _THREAD_PENDING : Z := BIT 1.
Definition _THREAD_PRESTART : Z := BIT 2.
Definition _THREAD_DEAD : Z := BIT 3.
Definition _THREAD_SUSPENDED : Z := BIT 4.
Definition _THREAD_ABORTING : Z := BIT 5.
Definition _THREAD_SUSPENDING : Z := BIT 6.
Definition _THREAD_QUEUED : Z := BIT 7.

Definition _NON_PREEMPT_THRESHOLD : Z := 128.
Definition _PREEMPT_THRESHOLD : Z := _NON_PREEMPT_THRESHOLD - 1.

Definition K_ESSENTIAL : Z := BIT 0.

(** ** Threads: [struct _thread_base] and the fields of [struct k_thread] in use *)

Record k_thread := mk_thread {
  pended_on : option wqid;
  user_options : Z;
  thread_state : Z;
  prio : Z;
  sched_locked : Z;
  prio_deadline : Z;
  swap_data : Z;
  swap_retval : Z;
  next_event_link : option tid;
  events : Z;
  event_options : Z;
  no_wake_on_timeout : bool
}.

Definition _thread_dummy : k_thread :=
  mk_thread None K_ESSENTIAL _THREAD_DUMMY 0 0 0 0 0 None 0 0 false.

#[export] Instance k_thread_inhabited : Inhabited k_thread := populate _thread_dummy.

Definition set_pended_on (v : option wqid) (t : k_thread) : k_thread :=
  mk_thread v (user_options t) (thread_state t) (prio t) (sched_locked t) (prio_deadline t)
    (swap_data t) (swap_retval t) (next_event_link t) (events t) (event_options t) (no_wake_on_timeout t).
Definition set_user_options (v : Z) (t : k_thread) : k_thread :=
  mk_thread (pended_on t) v (thread_state t) (prio t) (sched_locked t) (prio_deadline t)
    (swap_data t) (swap_retval t) (next_event_link t) (events t) (event_options t) (no_wake_on_timeout t).
Definition set_thread_state (v : Z) (t : k_thread) : k_thread :=
  mk_thread (pended_on t) (user_options t) v (prio t) (sched_locked t) (prio_deadline t)
    (swap_data t) (swap_retval t) (next_event_link t) (events t) (event_options t) (no_wake_on_timeout t).
Definition set_prio (v : Z) (t : k_thread) : k_thread :=
  mk_thread (pended_on t) (user_options t) (thread_state t) v (sched_locked t) (prio_deadline t)
    (swap_data t) (swap_retval t) (next_event_link t) (events t) (event_options t) (no_wake_on_timeout t).
Definition set_sched_locked (v : Z) (t : k_thread) : k_thread :=
  mk_thread (pended_on t) (user_options t) (thread_state t) (prio t) v (prio_deadline t)
    (swap_data t) (swap_retval t) (next_event_link t) (events t) (event_options t) (no_wake_on_timeout t).
Definition set_prio_deadline (v : Z) (t : k_thread) : k_thread :=
  mk_thread (pended_on t) (user_options t) (thread_state t) (prio t) (sched_locked t) v
    (swap_data t) (swap_retval t) (next_event_link t) (events t) (event_options t) (no_wake_on_timeout t).
Definition set_swap_data (v : Z) (t : k_thread) : k_thread :=
  mk_thread (pended_on t) (user_options t) (thread_state t) (prio t) (sched_locked t) (prio_deadline t)
    v (swap_retval t) (next_event_link t) (events t) (event_options t) (no_wake_on_timeout t).
Definition set_swap_retval (v : Z) (t : k_thread) : k_thread :=
  mk_thread (pended_on t) (user_options t) (thread_state t) (prio t) (sched_locked t) (prio_deadline t)
    (swap_data t) v (next_event_link t) (events t) (event_options t) (no_wake_on_timeout t).
Definition set_next_event_link (v : option tid) (t : k_thread) : k_thread :=
  mk_thread (pended_on t) (user_options t) (thread_state t) (prio t) (sched_locked t) (prio_deadline t)
    (swap_data t) (swap_retval t) v (events t) (event_options t) (no_wake_on_timeout t).
Definition set_events (v : Z) (t : k_thread) : k_thread :=
  mk_thread (pended_on t) (user_options t) (thread_state t) (prio t) (sched_locked t) (prio_deadline t)
    (swap_data t) (swap_retval t) (next_event_link t) v (event_options t) (no_wake_on_timeout t).
Definition set_event_options (v : Z) (t : k_thread) : k_thread :=
  mk_thread (pended_on t) (user_options t) (thread_state t) (prio t) (sched_locked t) (prio_deadline t)
    (swap_data t) (swap_retval t) (next_event_link t) (events t) v (no_wake_on_timeout t).
Definition set_no_wake_on_timeout (v : bool) (t : k_thread) : k_thread :=
  mk_thread (pended_on t) (user_options t) (thread_state t) (prio t) (sched_locked t) (prio_deadline t)
    (swap_data t) (swap_retval t) (next_event_link t) (events t) (event_options t) v.

(** [base.preempt]: [sched_locked] is the high byte, [prio] the low one. *)
Definition preempt (t : k_thread) : Z := u8 (sched_locked t) * 256 + u8 (prio t).

(** ** The kernel: [struct z_kernel], its single CPU and the wait queues *)

Record z_kernel := mk_kernel {
  threads : gmap tid k_thread;
  current : tid;
  idle_thread : tid;
  metairq_preempted : option tid;
  nested : Z;
  irq_unlocked : bool;
  cache : tid;
  runq : list tid;
  waitqs : gmap wqid (list tid);
  timeouts : timeout_state tkey
}.

Definition set_threads (v : gmap tid k_thread) (s : z_kernel) : z_kernel :=
  mk_kernel v (current s) (idle_thread s) (metairq_preempted s) (nested s) (irq_unlocked s)
    (cache s) (runq s) (waitqs s) (timeouts s).
Definition set_current (v : tid) (s : z_kernel) : z_kernel :=
  mk_kernel (threads s) v (idle_thread s) (metairq_preempted s) (nested s) (irq_unlocked s)
    (cache s) (runq s) (waitqs s) (timeouts s).
Definition set_idle_thread (v : tid) (s : z_kernel) : z_kernel :=
  mk_kernel (threads s) (current s) v (metairq_preempted s) (nested s) (irq_unlocked s)
    (cache s) (runq s) (waitqs s) (timeouts s).
Definition set_metairq_preempted (v : option tid) (s : z_kernel) : z_kernel :=
  mk_kernel (threads s) (current s) (idle_thread s) v (nested s) (irq_unlocked s)
    (cache s) (runq s) (waitqs s) (timeouts s).
Definition set_irq_unlocked (v : bool) (s : z_kernel) : z_kernel :=
  mk_kernel (threads s) (current s) (idle_thread s) (metairq_preempted s) (nested s) v
    (cache s) (runq s) (waitqs s) (timeouts s).
Definition set_cache (v : tid) (s : z_kernel) : z_kernel :=
  mk_kernel (threads s) (current s) (idle_thread s) (metairq_preempted s) (nested s) (irq_unlocked s)
    v (runq s) (waitqs s) (timeouts s).
Definition set_runq (v : list tid) (s : z_kernel) : z_kernel :=
  mk_kernel (threads s) (current s) (idle_thread s) (metairq_preempted s) (nested s) (irq_unlocked s)
    (cache s) v (waitqs s) (timeouts s).
Definition set_waitqs (v : gmap wqid (list tid)) (s : z_kernel) : z_kernel :=
  mk_kernel (threads s) (current s) (idle_thread s) (metairq_preempted s) (nested s) (irq_unlocked s)
    (cache s) (runq s) v (timeouts s).
Definition set_timeouts (v : timeout_state tkey) (s : z_kernel) : z_kernel :=
  mk_kernel (threads s) (current s) (idle_thread s) (metairq_preempted s) (nested s) (irq_unlocked s)
    (cache s) (runq s) (waitqs s) v.

(** Reading a thread through its pointer, and updating it in place. *)
Definition thr (s : z_kernel) (t : tid) : k_thread := threads s !!! t.

Definition upd_thread (t : tid) (f : k_thread -> k_thread) (s : z_kernel) : z_kernel :=
  set_threads (<[t := f (thr s t)]> (threads s)) s.

Definition waitq (s : z_kernel) (w : wqid) : list tid := waitqs s !!! w.

Definition upd_waitq (w : wqid) (f : list tid -> list tid) (s : z_kernel) : z_kernel :=
  set_waitqs (<[w := f (waitq s w)]> (waitqs s)) s.

Definition arch_is_in_isr (s : z_kernel) : bool := negb (nested s =? 0).

Section Predicates.
Context {cfg : Kconfig}.

Definition K_HIGHEST_THREAD_PRIO : Z := - NUM_COOP_PRIORITIES.
Definition K_LOWEST_THREAD_PRIO : Z := NUM_PREEMPT_PRIORITIES.
Definition K_IDLE_PRIO : Z := K_LOWEST_THREAD_PRIO.
Definition K_HIGHEST_APPLICATION_THREAD_PRIO : Z := K_HIGHEST_THREAD_PRIO.
Definition K_LOWEST_APPLICATION_THREAD_PRIO : Z := K_LOWEST_THREAD_PRIO - 1.

(** *** kernel/include/kthread.h *)

Definition thread_is_preemptible (t : k_thread) : bool := preempt t <=? _PREEMPT_THRESHOLD.

Definition thread_is_metairq (t : k_thread) : bool :=
  if NUM_METAIRQ_PRIORITIES >? 0
  then prio t - K_HIGHEST_THREAD_PRIO <? NUM_METAIRQ_PRIORITIES
  else false.

Definition z_is_thread_suspended (t : k_thread) : bool := flag_any (thread_state t) _THREAD_SUSPENDED.

Definition z_is_thread_pending (t : k_thread) : bool := flag_any (thread_state t) _THREAD_PENDING.

Definition z_is_thread_prevented_from_running (t : k_thread) : bool :=
  flag_any (thread_state t)
    (Z.lor (Z.lor (Z.lor (Z.lor _THREAD_PENDING _THREAD_PRESTART) _THREAD_DEAD) _THREAD_DUMMY)
       _THREAD_SUSPENDED).

Definition z_is_thread_timeout_active (s : z_kernel) (t : tid) : bool :=
  negb (z_is_inactive_timeout (thread_timeout t) (timeouts s)).

Definition z_is_thread_ready (s : z_kernel) (t : tid) : bool :=
  negb (z_is_thread_prevented_from_running (thr s t) || z_is_thread_timeout_active s t).

Definition z_has_thread_started (t : k_thread) : bool := negb (flag_any (thread_state t) _THREAD_PRESTART).

Definition z_is_thread_state_set (t : k_thread) (state : Z) : bool := flag_any (thread_state t) state.

Definition z_is_thread_queued (t : k_thread) : bool := z_is_thread_state_set t _THREAD_QUEUED.

Definition mark_state (f : Z) (t : k_thread) : k_thread :=
  set_thread_state (flag_set (thread_state t) f) t.

Definition unmark_state (f : Z) (t : k_thread) : k_thread :=
  set_thread_state (flag_clear (thread_state t) f) t.

Definition z_mark_thread_as_suspended : k_thread -> k_thread := mark_state _THREAD_SUSPENDED.
Definition z_mark_thread_as_not_suspended : k_thread -> k_thread := unmark_state _THREAD_SUSPENDED.
Definition z_mark_thread_as_started : k_thread -> k_thread := unmark_state _THREAD_PRESTART.
Definition z_mark_thread_as_pending : k_thread -> k_thread := mark_state _THREAD_PENDING.
Definition z_mark_thread_as_not_pending : k_thread -> k_thread := unmark_state _THREAD_PENDING.

Definition z_is_thread_essential (t : k_thread) : bool :=
  Z.land (user_options t) K_ESSENTIAL =? K_ESSENTIAL.

Definition should_preempt (s : z_kernel) (thread : tid) (preempt_ok : bool) : bool :=
  if preempt_ok then true
  else if z_is_thread_prevented_from_running (thr s (current s)) then true
  else if SWAP_NONATOMIC && z_is_thread_timeout_active s thread then true
  else thread_is_preemptible (thr s (current s)) || thread_is_metairq (thr s thread).

(** *** kernel/include/ksched.h *)

Definition z_is_prio_higher (prio test_prio : Z) : bool := prio <? test_prio.

Definition z_is_prio_higher_or_equal (prio1 prio2 : Z) : bool := prio1 <=? prio2.

Definition z_is_prio_lower_or_equal (prio1 prio2 : Z) : bool := prio1 >=? prio2.

Definition z_is_under_prio_ceiling (prio : Z) : bool := prio >=? PRIORITY_CEILING.

Definition z_get_new_prio_with_ceiling (prio : Z) : Z :=
  if z_is_under_prio_ceiling prio then prio else PRIORITY_CEILING.

(** [is_idle_entry] stands for [z_is_idle_thread_entry(entry_point)]. *)
Definition _is_valid_prio (prio : Z) (is_idle_entry : bool) : bool :=
  if (prio =? K_IDLE_PRIO) && is_idle_entry then true
  else if negb (z_is_prio_higher_or_equal prio K_LOWEST_APPLICATION_THREAD_PRIO) then false
  else if negb (z_is_prio_lower_or_equal prio K_HIGHEST_APPLICATION_THREAD_PRIO) then false
  else true.

End Predicates.

(** ** Lookup lemmas *)

(** A property of every thread, from the finitely many that exist. *)
Lemma thr_forall (P : k_thread -> Prop) s :
  map_Forall (λ _ x, P x) (threads s) -> P _thread_dummy -> ∀ t, P (thr s t).
Proof.
  intros Hm Hd t. unfold thr. rewrite lookup_total_alt.
  destruct (threads s !! t) as [x |] eqn:E; [by apply (Hm t) | done].
Qed.

Lemma thr_field_eq {A} (f : k_thread -> A) s s' :
  f <$> threads s' = f <$> threads s -> ∀ t, f (thr s' t) = f (thr s t).
Proof.
  intros H t. unfold thr. rewrite !lookup_total_alt.
  assert ((f <$> threads s') !! t = (f <$> threads s) !! t) as E by (by rewrite H).
  rewrite !lookup_fmap in E.
  destruct (threads s' !! t), (threads s !! t); simplify_eq/=; done.
Qed.

Lemma thr_upd s t f u : thr (upd_thread t f s) u = if decide (t = u) then f (thr s t) else thr s u.
Proof.
  unfold thr, upd_thread. simpl. case_decide as H.
  - subst. by rewrite lookup_total_insert_eq.
  - by rewrite lookup_total_insert_ne.
Qed.

Lemma thr_upd_eq s t f : thr (upd_thread t f s) t = f (thr s t).
Proof. by rewrite thr_upd, decide_True. Qed.

Lemma thr_upd_ne s t u f : t ≠ u -> thr (upd_thread t f s) u = thr s u.
Proof. intros. by rewrite thr_upd, decide_False. Qed.

Lemma waitq_upd s w f v : waitq (upd_waitq w f s) v = if decide (w = v) then f (waitq s w) else waitq s v.
Proof.
  unfold waitq, upd_waitq. simpl. case_decide as H.
  - subst. by rewrite lookup_total_insert_eq.
  - by rewrite lookup_total_insert_ne.
Qed.

(** The state bits as booleans. *)
Lemma prevented_bits t :
  z_is_thread_prevented_from_running t =
  Z.testbit (thread_state t) 1 || Z.testbit (thread_state t) 2 || Z.testbit (thread_state t) 3 ||
  Z.testbit (thread_state t) 0 || Z.testbit (thread_state t) 4.
Proof.
  unfold z_is_thread_prevented_from_running, _THREAD_PENDING, _THREAD_PRESTART, _THREAD_DEAD,
    _THREAD_DUMMY, _THREAD_SUSPENDED.
  by autorewrite with bits.
Qed.

Lemma queued_bit t : z_is_thread_queued t = Z.testbit (thread_state t) 7.
Proof. unfold z_is_thread_queued, z_is_thread_state_set, _THREAD_QUEUED. by autorewrite with bits. Qed.
