(* ===== verification/PrioQ.v ===== *)
(** * Thread priority queues (kernel/include/priority_q.h, kernel/sched.c)

    [z_sched_prio_cmp], the sorted list queue used for wait queues and for the
    ready queue under CONFIG_SCHED_DUMB, and the multi-queue used under
    CONFIG_SCHED_MULTIQ.  The class [PrioQueue] states what the scheduler
    needs from a ready queue; both implementations are instances of it, with
    the same abstract queue, so they dispatch threads in the same order. *)

From Stdlib Require Import ZArith Lia Bool Btauto.
From stdpp Require Import base numbers list sorting sets.
From S2P Require Import Prelude MathExtras TimeoutQ Kernel.

Open Scope Z_scope.

Section PrioQ.
Context {cfg : Kconfig}.
(** The thread objects the queue nodes are embedded in. *)
Implicit Types (th : tid -> k_thread) (pq : list tid).

Definition z_sched_prio_cmp (thread_1 thread_2 : k_thread) : Z :=
  let b1 := prio thread_1 in
  let b2 := prio thread_2 in
  if negb (b1 =? b2) then b2 - b1
  else if SCHED_DEADLINE then
    let d1 := u32 (prio_deadline thread_1) in
    let d2 := u32 (prio_deadline thread_2) in
    if negb (d1 =? d2) then s32 (u32 (d2 - d1)) else 0
  else 0.

(** ** The sorted list *)

Fixpoint z_priq_dumb_add th pq (thread : tid) : list tid :=
  match pq with
  | [] => [thread]
  | t :: pq' =>
      if z_sched_prio_cmp (th thread) (th t) >? 0 then thread :: t :: pq'
      else t :: z_priq_dumb_add th pq' thread
  end.

Definition z_priq_dumb_remove pq (thread : tid) : list tid := dlist_remove thread pq.

Definition z_priq_dumb_best pq : option tid := head pq.

(** ** The multi-queue *)

(** Width of [unsigned long]: 32, or 64 under CONFIG_64BIT. *)
Context (CONFIG_64BIT : bool).

Definition NBITS : Z := if CONFIG_64BIT then 64 else 32.

Definition K_NUM_THREAD_PRIO : Z := NUM_PREEMPT_PRIORITIES + NUM_COOP_PRIORITIES + 1.

Definition PRIQ_BITMAP_SIZE : Z := (K_NUM_THREAD_PRIO + NBITS - 1) / NBITS.

Record _priq_mq := mk_priq_mq {
  queues : list (list tid);
  bitmask : list Z
}.

Record prio_info := mk_prio_info {
  offset_prio : Z;
  idx : Z;
  bit : Z
}.

Definition get_prio_info (old_prio : Z) : prio_info :=
  let offset := u8 (old_prio - K_HIGHEST_THREAD_PRIO) in
  mk_prio_info offset (offset / NBITS) (offset mod NBITS).

Definition count_trailing_zeros (x : Z) : Z :=
  if CONFIG_64BIT then u64_count_trailing_zeros x else u32_count_trailing_zeros x.

Definition mq_init : _priq_mq :=
  mk_priq_mq (replicate (Z.to_nat K_NUM_THREAD_PRIO) []) (replicate (Z.to_nat PRIQ_BITMAP_SIZE) 0).

Definition z_priq_mq_add th (pq : _priq_mq) (thread : tid) : _priq_mq :=
  let pos := get_prio_info (prio (th thread)) in
  mk_priq_mq
    (alter (λ q, q ++ [thread]) (Z.to_nat (offset_prio pos)) (queues pq))
    (alter (λ m, flag_set m (BIT (bit pos))) (Z.to_nat (idx pos)) (bitmask pq)).

Definition z_priq_mq_remove th (pq : _priq_mq) (thread : tid) : _priq_mq :=
  let pos := get_prio_info (prio (th thread)) in
  let qs := dlist_remove thread <$> queues pq in
  mk_priq_mq qs
    (if bool_decide (qs !! Z.to_nat (offset_prio pos) = Some [])
     then alter (λ m, flag_clear m (BIT (bit pos))) (Z.to_nat (idx pos)) (bitmask pq)
     else bitmask pq).

(** The loop over the bitmap words from index [i]. *)
Fixpoint mq_best_loop (qs : list (list tid)) (words : list Z) (i : Z) : option tid :=
  match words with
  | [] => None
  | m :: words' =>
      if m =? 0 then mq_best_loop qs words' (i + 1)
      else
        match qs !! Z.to_nat (i * NBITS + count_trailing_zeros m) with
        | Some (t :: _) => Some t
        | _ => mq_best_loop qs words' (i + 1)
        end
  end.

Definition z_priq_mq_best (pq : _priq_mq) : option tid := mq_best_loop (queues pq) (bitmask pq) 0.

(** ** What a ready queue promises *)

Class PrioQueue (Q : Type) := {
  pq_init : Q;
  pq_add : (tid -> k_thread) -> Q -> tid -> Q;
  pq_remove : (tid -> k_thread) -> Q -> tid -> Q;
  pq_best : Q -> option tid;
  (** The queue in dispatch order, and well-formedness. *)
  pq_abs : Q -> list tid;
  pq_ok : (tid -> k_thread) -> Q -> Prop;
  pq_init_ok th : pq_ok th pq_init /\ pq_abs pq_init = [];
  pq_add_ok th q t : pq_ok th q -> _is_valid_prio (prio (th t)) true = true -> t ∉ pq_abs q ->
    pq_ok th (pq_add th q t) /\ pq_abs (pq_add th q t) = z_priq_dumb_add th (pq_abs q) t;
  pq_remove_ok th q t : pq_ok th q -> t ∈ pq_abs q ->
    pq_ok th (pq_remove th q t) /\ pq_abs (pq_remove th q t) = dlist_remove t (pq_abs q);
  pq_best_ok th q : pq_ok th q -> pq_best q = head (pq_abs q);
  pq_ok_ext th th' q : (∀ t, t ∈ pq_abs q -> prio (th t) = prio (th' t)) -> pq_ok th q -> pq_ok th' q
}.

End PrioQ.

(** ** The comparison *)

Section Cmp.
Context {cfg : Kconfig}.

(** All deadlines lie in the half of the 32-bit circle that starts at [base]
    (the documented rule for [k_thread_deadline_set]). *)
Definition deadline_window (base : Z) (t : k_thread) : Prop :=
  SCHED_DEADLINE = true -> u32 (prio_deadline t - base) < 2 ^ 31.

Definition rel_deadline (base : Z) (t : k_thread) : Z :=
  if SCHED_DEADLINE then u32 (prio_deadline t - base) else 0.

(** [t1] is dispatched strictly before [t2]: higher priority (a smaller
    number), or the same priority and an earlier deadline. *)
Definition outranks (base : Z) (t1 t2 : k_thread) : Prop :=
  prio t1 < prio t2 \/ (prio t1 = prio t2 /\ rel_deadline base t1 < rel_deadline base t2).

Lemma deadline_diff base d1 d2 :
  u32 (d1 - base) < 2 ^ 31 -> u32 (d2 - base) < 2 ^ 31 ->
  s32 (u32 (u32 d2 - u32 d1)) = u32 (d2 - base) - u32 (d1 - base).
Proof.
  intros H1 H2. pose proof (wrap_u_bound 32 (d1 - base)). pose proof (wrap_u_bound 32 (d2 - base)).
  set (k1 := u32 (d1 - base)) in *. set (k2 := u32 (d2 - base)) in *.
  assert (u32 (u32 d2 - u32 d1) = u32 (k2 - k1)) as ->.
  { unfold k1, k2, wrap_u. rewrite <- !Zminus_mod. f_equal. lia. }
  rewrite <- (wrap_s_id 32 (k2 - k1)) at 2 by lia. unfold wrap_s, wrap_u.
  f_equal. by rewrite Z.add_mod_idemp_l by lia.
Qed.

Lemma u32_diff_zero base d1 d2 : u32 d1 = u32 d2 -> u32 (d1 - base) = u32 (d2 - base).
Proof. unfold wrap_u. intros H. by rewrite (Zminus_mod d1), (Zminus_mod d2), H. Qed.

Lemma prio_cmp_spec base t1 t2 :
  deadline_window base t1 -> deadline_window base t2 ->
  z_sched_prio_cmp t1 t2 =
    if prio t1 =? prio t2 then rel_deadline base t2 - rel_deadline base t1
    else prio t2 - prio t1.
Proof.
  unfold deadline_window, rel_deadline, z_sched_prio_cmp. intros H1 H2.
  destruct (prio t1 =? prio t2); simpl; [| done].
  destruct SCHED_DEADLINE; [| done].
  destruct (Z.eqb_spec (u32 (prio_deadline t1)) (u32 (prio_deadline t2))) as [E | E]; simpl.
  - rewrite (u32_diff_zero base _ _ E). lia.
  - apply deadline_diff; auto.
Qed.

Lemma prio_cmp_pos base t1 t2 :
  deadline_window base t1 -> deadline_window base t2 ->
  z_sched_prio_cmp t1 t2 > 0 <-> outranks base t1 t2.
Proof.
  intros H1 H2. rewrite (prio_cmp_spec base) by done. unfold outranks.
  destruct (Z.eqb_spec (prio t1) (prio t2)); lia.
Qed.

Lemma outranks_trans base t1 t2 t3 : outranks base t1 t2 -> outranks base t2 t3 -> outranks base t1 t3.
Proof. unfold outranks. lia. Qed.

Lemma outranks_irrefl base t : ¬ outranks base t t.
Proof. unfold outranks. lia. Qed.

Lemma not_outranks_trans base t1 t2 t3 :
  ¬ outranks base t2 t1 -> ¬ outranks base t3 t2 -> ¬ outranks base t3 t1.
Proof. unfold outranks. lia. Qed.

Lemma outranks_asym base t1 t2 : outranks base t1 t2 -> ¬ outranks base t2 t1.
Proof. unfold outranks. lia. Qed.

End Cmp.

(** ** The sorted list: order, stability, best *)

Section Dumb.
Context {cfg : Kconfig}.
Implicit Types (th : tid -> k_thread) (pq : list tid).

(** No thread of the queue outranks one in front of it. *)
Definition priq_sorted (base : Z) th pq : Prop :=
  StronglySorted (λ a b, ¬ outranks base (th b) (th a)) pq.

Lemma dumb_add_split th pq t :
  exists l1 l2, pq = l1 ++ l2 /\ z_priq_dumb_add th pq t = l1 ++ t :: l2 /\
    Forall (λ u, ¬ z_sched_prio_cmp (th t) (th u) > 0) l1 /\
    (∀ u, head l2 = Some u -> z_sched_prio_cmp (th t) (th u) > 0).
Proof.
  induction pq as [| u pq IH]; simpl.
  - exists [], []. repeat split; [constructor | done].
  - destruct (Z.gtb_spec (z_sched_prio_cmp (th t) (th u)) 0).
    + exists [], (u :: pq). repeat split; [constructor |]. intros ? [= <-]. lia.
    + destruct IH as (l1 & l2 & -> & -> & Hl1 & Hl2). exists (u :: l1), l2.
      repeat split; [constructor; [lia | done] | done].
Qed.

Lemma dumb_add_perm th pq t : z_priq_dumb_add th pq t ≡ₚ t :: pq.
Proof.
  destruct (dumb_add_split th pq t) as (l1 & l2 & -> & -> & _). by rewrite Permutation_middle.
Qed.

Lemma dumb_add_elem th pq t u : u ∈ z_priq_dumb_add th pq t <-> u = t \/ u ∈ pq.
Proof. rewrite dumb_add_perm. apply elem_of_cons. Qed.

Lemma dumb_add_nodup th pq t : t ∉ pq -> NoDup pq -> NoDup (z_priq_dumb_add th pq t).
Proof. intros. rewrite dumb_add_perm. by constructor. Qed.

Lemma dumb_add_app th l1 l2 t :
  Forall (λ u, ¬ z_sched_prio_cmp (th t) (th u) > 0) l1 ->
  z_priq_dumb_add th (l1 ++ l2) t = l1 ++ z_priq_dumb_add th l2 t.
Proof.
  induction 1 as [| u l1 Hu Hl IH]; simpl; [done |].
  destruct (Z.gtb_spec (z_sched_prio_cmp (th t) (th u)) 0); [lia |]. by rewrite IH.
Qed.

Lemma dumb_add_front th l t :
  Forall (λ u, z_sched_prio_cmp (th t) (th u) > 0) l -> z_priq_dumb_add th l t = t :: l.
Proof.
  destruct 1 as [| u l Hu Hl]; simpl; [done |].
  destruct (Z.gtb_spec (z_sched_prio_cmp (th t) (th u)) 0); [done | lia].
Qed.

(** The queue only reads the threads it holds and the one it adds. *)
Lemma dumb_add_ext th th' pq t :
  (∀ u, u ∈ t :: pq -> th u = th' u) -> z_priq_dumb_add th pq t = z_priq_dumb_add th' pq t.
Proof.
  intros Hth. induction pq as [| u pq IH]; simpl; [done |].
  rewrite (Hth t), (Hth u), IH by set_solver. done.
Qed.

Lemma priq_sorted_ext base th th' pq :
  (∀ u, u ∈ pq -> th u = th' u) -> priq_sorted base th pq -> priq_sorted base th' pq.
Proof.
  intros H Hs. unfold priq_sorted in *. induction Hs as [| a pq Hs IH Hf]; constructor.
  - apply IH. set_solver.
  - rewrite Forall_forall in *. intros b Hb. rewrite <- !H by set_solver. by apply Hf.
Qed.

Lemma dumb_add_sorted base th pq t :
  (∀ u, u ∈ t :: pq -> deadline_window base (th u)) ->
  priq_sorted base th pq -> priq_sorted base th (z_priq_dumb_add th pq t).
Proof.
  intros Hw Hs. unfold priq_sorted in *.
  induction Hs as [| u pq Hs IH Hf]; simpl; [by repeat constructor |].
  destruct (Z.gtb_spec (z_sched_prio_cmp (th t) (th u)) 0) as [Hc | Hc].
  - assert (outranks base (th t) (th u)) by (apply prio_cmp_pos; [apply Hw; set_solver.. | lia]).
    constructor; [by constructor |]. constructor; [by apply outranks_asym |].
    rewrite Forall_forall in *. intros v Hv.
    eapply not_outranks_trans; [by apply outranks_asym | by apply Hf].
  - constructor; [apply IH; set_solver |].
    rewrite Forall_forall in *. intros v Hv%dumb_add_elem. destruct Hv as [-> | Hv]; [| by apply Hf].
    rewrite <- prio_cmp_pos by (apply Hw; set_solver). lia.
Qed.

(** The head is a thread that no other outranks. *)
Lemma dumb_best_max base th pq t u :
  priq_sorted base th pq -> z_priq_dumb_best pq = Some t -> u ∈ pq -> ¬ outranks base (th u) (th t).
Proof.
  intros Hs Hb Hu. destruct Hs as [| a pq Hs Hf]; [done |]. injection Hb as ->.
  apply elem_of_cons in Hu as [-> | Hu]; [apply outranks_irrefl |].
  rewrite Forall_forall in Hf. by apply Hf.
Qed.

#[export] Instance dumb_prio_queue : PrioQueue (list tid).
Proof.
  refine {|
    pq_init := []; pq_add := z_priq_dumb_add; pq_remove := λ _, z_priq_dumb_remove;
    pq_best := z_priq_dumb_best; pq_abs := λ q, q; pq_ok := λ _ _, True |}; done.
Defined.

End Dumb.

(** ** The multi-queue implements the sorted list *)

(** The priority ranges of the Kconfig entries (kernel/Kconfig). *)
Class KconfigOK (cfg : Kconfig) : Prop := {
  coop_range : 0 <= NUM_COOP_PRIORITIES <= 128;
  preempt_range : 0 <= NUM_PREEMPT_PRIORITIES <= 127;
  metairq_range : 0 <= NUM_METAIRQ_PRIORITIES <= NUM_COOP_PRIORITIES
}.

Section MultiQ.
Context {cfg : Kconfig} {cfg_ok : KconfigOK cfg}.
Hypothesis no_deadline : SCHED_DEADLINE = false.
Variable CONFIG_64BIT : bool.
Local Abbreviation NBITS := (NBITS CONFIG_64BIT).
Implicit Types (th : tid -> k_thread) (pq : _priq_mq).

Definition offset_of (t : k_thread) : Z := prio t - K_HIGHEST_THREAD_PRIO.

(** Bit [i] of the bitmap, and whether queue [i] holds a thread. *)
Definition bit_at (ws : list Z) (i : Z) : bool :=
  Z.testbit (default 0 (ws !! Z.to_nat (i / NBITS))) (i mod NBITS).

Definition nonempty_at (qs : list (list tid)) (i : Z) : bool :=
  match qs !! Z.to_nat i with Some (_ :: _) => true | _ => false end.

(** Queue [i] holds exactly threads of priority offset [i]; bit [i] of the
    bitmap tells whether queue [i] is non-empty. *)
Record mq_ok th pq : Prop := {
  mq_len : length (queues pq) = Z.to_nat K_NUM_THREAD_PRIO;
  mq_words : length (bitmask pq) = Z.to_nat (PRIQ_BITMAP_SIZE CONFIG_64BIT);
  mq_range : Forall (λ m, 0 <= m < 2 ^ NBITS) (bitmask pq);
  mq_prio : ∀ i q t, queues pq !! i = Some q -> t ∈ q -> offset_of (th t) = Z.of_nat i;
  mq_bits : ∀ i, 0 <= i -> bit_at (bitmask pq) i = nonempty_at (queues pq) i
}.

Lemma NBITS_cases : NBITS = 32 \/ NBITS = 64.
Proof. unfold PrioQ.NBITS. destruct CONFIG_64BIT; auto. Qed.

Lemma ctz_lowest m :
  0 < m < 2 ^ NBITS ->
  let b := count_trailing_zeros CONFIG_64BIT m in
  0 <= b < NBITS /\ Z.testbit m b = true /\ ∀ i, 0 <= i < b -> Z.testbit m i = false.
Proof.
  unfold PrioQ.NBITS, count_trailing_zeros.
  destruct CONFIG_64BIT; [apply u64_ctz_lowest | apply u32_ctz_lowest].
Qed.

Lemma valid_prio_offset t :
  _is_valid_prio (prio t) true = true <-> 0 <= offset_of t < K_NUM_THREAD_PRIO.
Proof.
  unfold _is_valid_prio, z_is_prio_higher_or_equal, z_is_prio_lower_or_equal, offset_of,
    K_NUM_THREAD_PRIO, K_HIGHEST_APPLICATION_THREAD_PRIO, K_IDLE_PRIO,
    K_LOWEST_APPLICATION_THREAD_PRIO, K_LOWEST_THREAD_PRIO, K_HIGHEST_THREAD_PRIO.
  destruct cfg_ok.
  repeat case_match; bool_hyps; rewrite ?Z.geb_leb in *; bool_hyps; split; intros; (lia || done).
Qed.

Lemma prio_info_spec t :
  _is_valid_prio (prio t) true = true ->
  get_prio_info CONFIG_64BIT (prio t) =
    mk_prio_info (offset_of t) (offset_of t / NBITS) (offset_of t mod NBITS) /\
  0 <= offset_of t < K_NUM_THREAD_PRIO /\ offset_of t / NBITS < PRIQ_BITMAP_SIZE CONFIG_64BIT.
Proof.
  intros Hv. destruct cfg_ok as [Hc Hp _].
  assert (0 <= offset_of t < K_NUM_THREAD_PRIO) as Ho by by apply valid_prio_offset.
  split; [| split; [done |]].
  - unfold get_prio_info. fold (offset_of t). rewrite wrap_u_id; [done |].
    unfold K_NUM_THREAD_PRIO in Ho. lia.
  - unfold PRIQ_BITMAP_SIZE. destruct NBITS_cases as [-> | ->];
      Z.div_mod_to_equations; lia.
Qed.

Lemma bit_at_index i j : 0 <= i -> 0 <= j ->
  (i / NBITS = j / NBITS /\ i mod NBITS = j mod NBITS) <-> i = j.
Proof.
  intros. split; [| by intros ->]. intros [E1 E2].
  destruct NBITS_cases as [Hn | Hn]; rewrite Hn in *; Z.div_mod_to_equations; lia.
Qed.

Lemma bit_at_alter ws o i (f : Z -> Z -> Z) (g : bool -> bool) :
  0 <= o -> 0 <= i -> o / NBITS < Z.of_nat (length ws) ->
  (∀ m k, 0 <= k -> Z.testbit (f m (o mod NBITS)) k =
     if o mod NBITS =? k then g (Z.testbit m k) else Z.testbit m k) ->
  bit_at (alter (λ m, f m (o mod NBITS)) (Z.to_nat (o / NBITS)) ws) i =
  if o =? i then g (bit_at ws i) else bit_at ws i.
Proof.
  intros Ho Hi Hlen Hf. unfold bit_at.
  pose proof NBITS_cases as Hnb.
  pose proof (Z.mod_pos_bound i NBITS) as Him.
  assert (0 <= o / NBITS) by (apply Z.div_pos; lia).
  assert (0 <= i / NBITS) by (apply Z.div_pos; lia).
  pose proof (bit_at_index o i Ho Hi) as Hidx.
  destruct (decide (Z.to_nat (o / NBITS) = Z.to_nat (i / NBITS))) as [E | E].
  - rewrite <- E, list_lookup_alter_eq.
    destruct (lookup_lt_is_Some_2 ws (Z.to_nat (o / NBITS))) as [m ->]; [lia |]. simpl.
    rewrite Hf by lia.
    destruct (Z.eqb_spec (o mod NBITS) (i mod NBITS)), (Z.eqb_spec o i); try done; exfalso.
    + apply n, Hidx. split; [lia | done].
    + subst. done.
  - rewrite list_lookup_alter_ne by done.
    destruct (Z.eqb_spec o i); [subst; done | done].
Qed.

Lemma nonempty_at_alter qs o i t :
  0 <= o < Z.of_nat (length qs) -> 0 <= i ->
  nonempty_at (alter (λ q, q ++ [t]) (Z.to_nat o) qs) i = if o =? i then true else nonempty_at qs i.
Proof.
  intros Ho Hi. unfold nonempty_at. destruct (Z.eqb_spec o i) as [-> | Hne].
  - rewrite list_lookup_alter_eq.
    destruct (lookup_lt_is_Some_2 qs (Z.to_nat i)) as [q ->]; [lia |]. by destruct q.
  - rewrite list_lookup_alter_ne by lia. done.
Qed.

Lemma alter_bound ws (f : Z -> Z) k :
  Forall (λ m, 0 <= m < 2 ^ NBITS) ws -> (∀ m, 0 <= m < 2 ^ NBITS -> 0 <= f m < 2 ^ NBITS) ->
  Forall (λ m, 0 <= m < 2 ^ NBITS) (alter f k ws).
Proof.
  intros Hw Hf. apply Forall_lookup. intros i m Hm.
  rewrite Forall_lookup in Hw. destruct (decide (k = i)) as [-> | Hne].
  - rewrite list_lookup_alter_eq in Hm. apply fmap_Some in Hm as (x & Hx & ->). eauto.
  - rewrite list_lookup_alter_ne in Hm by done. eauto.
Qed.

Lemma BIT_range k : 0 <= k < NBITS -> 0 <= BIT k < 2 ^ NBITS.
Proof.
  intros. unfold BIT. rewrite Z.shiftl_1_l. split; [lia |]. apply Z.pow_lt_mono_r; lia.
Qed.

Lemma flag_clear_range m f : 0 <= m < 2 ^ NBITS -> 0 <= flag_clear m f < 2 ^ NBITS.
Proof. pose proof NBITS_cases. apply land_bound. lia. Qed.

Lemma cmp_no_deadline t1 t2 : z_sched_prio_cmp t1 t2 = prio t2 - prio t1.
Proof.
  unfold z_sched_prio_cmp. rewrite no_deadline.
  destruct (Z.eqb_spec (prio t1) (prio t2)); simpl; lia.
Qed.

Lemma concat_offsets th qs n :
  (∀ i q t, qs !! i = Some q -> t ∈ q -> offset_of (th t) = Z.of_nat i + n) ->
  ∀ t, t ∈ concat qs -> n <= offset_of (th t) < n + Z.of_nat (length qs).
Proof.
  intros H t Ht. rewrite list_elem_of_In, in_concat in Ht. destruct Ht as (q & Hq & Htq).
  rewrite <- list_elem_of_In in Hq. rewrite <- list_elem_of_In in Htq.
  apply list_elem_of_lookup in Hq as [i Hi]. pose proof (lookup_lt_Some _ _ _ Hi).
  rewrite (H i q t) by done. lia.
Qed.

(** Appending to the queue of a priority is a sorted insertion in the whole. *)
Lemma mq_add_abs th qs t o :
  (∀ i q u, qs !! i = Some q -> u ∈ q -> offset_of (th u) = Z.of_nat i) ->
  offset_of (th t) = Z.of_nat o -> (o < length qs)%nat ->
  concat (alter (λ q, q ++ [t]) o qs) = z_priq_dumb_add th (concat qs) t.
Proof.
  intros Hp Ho Hlen. destruct (lookup_lt_is_Some_2 qs o) as [q Hq]; [done |].
  rewrite <- (take_drop_middle qs o q Hq) at 1 2.
  assert (length (take o qs) = o) as Htl by (rewrite length_take; lia).
  rewrite alter_app_r_alt by lia. rewrite Htl, Nat.sub_diag. simpl.
  rewrite !concat_app. simpl. rewrite <- !(assoc_L (++)). simpl.
  rewrite dumb_add_app.
  2: { apply Forall_forall. intros u Hu. rewrite cmp_no_deadline.
       apply (concat_offsets th _ 0) in Hu; [unfold offset_of in *; lia |].
       intros i q' v Hi Hv. apply lookup_take_Some in Hi as [Hi _]. rewrite (Hp i q' v) by done. lia. }
  rewrite dumb_add_app.
  2: { apply Forall_forall. intros u Hu. rewrite cmp_no_deadline.
       specialize (Hp o q u Hq Hu). unfold offset_of in *. lia. }
  rewrite dumb_add_front; [done |].
  apply Forall_forall. intros u Hu. rewrite cmp_no_deadline.
  apply (concat_offsets th _ (Z.of_nat (S o))) in Hu; [unfold offset_of in *; lia |].
  intros i q' v Hi Hv. rewrite lookup_drop in Hi. rewrite (Hp _ q' v Hi Hv). lia.
Qed.

Lemma concat_dlist_remove t (qs : list (list tid)) :
  concat (dlist_remove t <$> qs) = dlist_remove t (concat qs).
Proof. unfold dlist_remove. induction qs as [| q qs IH]; csimpl; [done |]. by rewrite filter_app, IH. Qed.

Lemma concat_drop_empty (qs : list (list tid)) a n :
  (∀ j, (a <= j < a + n)%nat -> nonempty_at qs (Z.of_nat j) = false) ->
  concat (drop a qs) = concat (drop (a + n) qs).
Proof.
  revert a. induction n as [| n IH]; intros a H; [by rewrite Nat.add_0_r |].
  replace (a + S n)%nat with (S a + n)%nat by lia. rewrite <- (IH (S a)) by (intros; apply H; lia).
  specialize (H a ltac:(lia)). unfold nonempty_at in H. rewrite Nat2Z.id in H.
  destruct (qs !! a) as [q |] eqn:Ha.
  - rewrite (drop_S _ _ _ Ha). by destruct q.
  - apply lookup_ge_None in Ha. by rewrite !drop_ge by lia.
Qed.

Lemma mq_add_ok th pq t :
  mq_ok th pq -> _is_valid_prio (prio (th t)) true = true ->
  mq_ok th (z_priq_mq_add CONFIG_64BIT th pq t) /\
  concat (queues (z_priq_mq_add CONFIG_64BIT th pq t)) = z_priq_dumb_add th (concat (queues pq)) t.
Proof.
  intros [Hlen Hw Hr Hp Hb] Hv. unfold z_priq_mq_add.
  destruct (prio_info_spec (th t) Hv) as (-> & Ho & Hidx). simpl. pose proof NBITS_cases as Hnb.
  set (o := offset_of (th t)) in *. split.
  - constructor; simpl; rewrite ?length_alter; try done.
    + apply alter_bound; [done |]. intros m Hm. apply lor_bound; [lia | done |].
      apply BIT_range, Z.mod_pos_bound. lia.
    + intros i q u Hi Hu. destruct (decide (Z.to_nat o = i)) as [<- | Hne].
      * rewrite list_lookup_alter_eq in Hi. apply fmap_Some in Hi as (q0 & Hq0 & ->).
        apply elem_of_app in Hu as [Hu | ->%list_elem_of_singleton]; [eauto | unfold o in *; lia].
      * rewrite list_lookup_alter_ne in Hi by done. eauto.
    + intros i Hi. rewrite nonempty_at_alter by lia.
      rewrite (bit_at_alter _ _ _ (λ m k, flag_set m (BIT k)) (λ _, true)); [by rewrite Hb | lia.. |].
      intros m k Hk. pose proof (Z.mod_pos_bound o NBITS).
      rewrite flag_set_testbit by lia. destruct (_ =? k); btauto.
  - apply mq_add_abs; [done | |]; unfold o in *; lia.
Qed.

Lemma nonempty_at_remove th (qs : list (list tid)) t i :
  (∀ j q u, qs !! j = Some q -> u ∈ q -> offset_of (th u) = Z.of_nat j) -> 0 <= i ->
  offset_of (th t) ≠ i -> nonempty_at (dlist_remove t <$> qs) i = nonempty_at qs i.
Proof.
  intros Hp Hi Ho. unfold nonempty_at. rewrite list_lookup_fmap.
  destruct (qs !! Z.to_nat i) as [q |] eqn:Hq; simpl; [| done].
  rewrite dlist_remove_absent; [done |]. intros Ht. specialize (Hp _ _ _ Hq Ht). lia.
Qed.

Lemma mq_remove_ok th pq t :
  mq_ok th pq -> t ∈ concat (queues pq) ->
  mq_ok th (z_priq_mq_remove CONFIG_64BIT th pq t) /\
  concat (queues (z_priq_mq_remove CONFIG_64BIT th pq t)) = dlist_remove t (concat (queues pq)).
Proof.
  intros [Hlen Hw Hr Hp Hb] Hin. split; [| apply concat_dlist_remove].
  assert (0 <= offset_of (th t) < K_NUM_THREAD_PRIO) as Ho.
  { apply (concat_offsets th _ 0) in Hin; [rewrite Hlen in Hin; lia |].
    intros. rewrite (Hp i q t0) by done. lia. }
  assert (_is_valid_prio (prio (th t)) true = true) as Hv by by apply valid_prio_offset.
  unfold z_priq_mq_remove. destruct (prio_info_spec (th t) Hv) as (-> & _ & Hidx). simpl.
  pose proof NBITS_cases as Hnb. set (o := offset_of (th t)) in *. pose proof (Z.mod_pos_bound o NBITS).
  constructor; simpl; rewrite ?length_fmap; try done.
  - case_bool_decide; [rewrite length_alter |]; done.
  - case_bool_decide; [| done]. apply alter_bound; [done |]. intros m Hm. by apply flag_clear_range.
  - intros i q u Hi Hu. rewrite list_lookup_fmap in Hi. apply fmap_Some in Hi as (q0 & Hq0 & ->).
    apply dlist_remove_elem in Hu. eapply Hp; [done | tauto].
  - intros i Hi. destruct (Z.eqb_spec o i) as [<- | Hne].
    + unfold nonempty_at at 1. case_bool_decide as Hq.
      * rewrite (bit_at_alter _ _ _ (λ m k, flag_clear m (BIT k)) (λ _, false)); [| lia.. |].
        -- by rewrite Z.eqb_refl, Hq.
        -- intros m k Hk. rewrite flag_clear_testbit by lia. destruct (_ =? k); btauto.
      * rewrite Hb by lia. unfold nonempty_at. rewrite list_lookup_fmap in Hq |- *.
        destruct (lookup_lt_is_Some_2 (queues pq) (Z.to_nat o)) as [q Hqo]; [lia |].
        rewrite Hqo in Hq |- *. simpl in *. destruct q; [done |]. by destruct (dlist_remove _ _).
    + rewrite (nonempty_at_remove th) by done. case_bool_decide; [| by apply Hb].
      rewrite (bit_at_alter _ _ _ (λ m k, flag_clear m (BIT k)) (λ _, false)); [| lia.. |].
      * destruct (Z.eqb_spec o i); [done | by apply Hb].
      * intros m k Hk. rewrite flag_clear_testbit by lia. destruct (_ =? k); btauto.
Qed.

Lemma word_bits ws i k :
  0 <= i -> 0 <= k < NBITS ->
  bit_at ws (i * NBITS + k) = Z.testbit (default 0 (ws !! Z.to_nat i)) k.
Proof.
  intros Hi Hk. unfold bit_at. pose proof NBITS_cases.
  assert ((i * NBITS + k) / NBITS = i) as -> by (symmetry; apply Z.div_unique with k; lia).
  assert ((i * NBITS + k) mod NBITS = k) as -> by (symmetry; apply Z.mod_unique with i; lia).
  done.
Qed.

Lemma mq_best_loop_spec th pq words i :
  mq_ok th pq -> 0 <= i -> words = drop (Z.to_nat i) (bitmask pq) ->
  mq_best_loop CONFIG_64BIT (queues pq) words i = head (concat (drop (Z.to_nat (i * NBITS)) (queues pq))).
Proof.
  intros [Hlen Hw Hr Hp Hb]. pose proof NBITS_cases as Hnb.
  revert i. induction words as [| m words IH]; intros i Hi Hd; simpl.
  - rewrite drop_ge; [done |]. symmetry in Hd. apply (f_equal length) in Hd.
    rewrite length_drop, Hw in Hd. simpl in Hd. rewrite Hlen.
    unfold PRIQ_BITMAP_SIZE, K_NUM_THREAD_PRIO in *. destruct cfg_ok.
    destruct Hnb as [Hn | Hn]; rewrite Hn in *; Z.div_mod_to_equations; lia.
  - assert (bitmask pq !! Z.to_nat i = Some m) as Hm.
    { rewrite <- (Nat.add_0_r (Z.to_nat i)), <- lookup_drop, <- Hd. done. }
    assert (words = drop (Z.to_nat (i + 1)) (bitmask pq)) as Hd'.
    { rewrite (drop_S _ _ _ Hm) in Hd. injection Hd as ->. f_equal. lia. }
    assert (∀ n, 0 <= n <= NBITS -> (∀ k, 0 <= k < n -> Z.testbit m k = false) ->
      concat (drop (Z.to_nat (i * NBITS)) (queues pq)) =
      concat (drop (Z.to_nat (i * NBITS + n)) (queues pq))) as Hskip.
    { intros n Hn Hz. rewrite (concat_drop_empty _ _ (Z.to_nat n)).
      - f_equal. f_equal. nia.
      - intros j Hj. rewrite <- Hb by lia.
        replace (Z.of_nat j) with (i * NBITS + (Z.of_nat j - i * NBITS)) by lia.
        rewrite word_bits, Hm by nia. apply Hz. nia. }
    destruct (Z.eqb_spec m 0) as [-> | Hm0].
    + rewrite IH by (done || lia). rewrite (Hskip NBITS); [f_equal; f_equal; f_equal; lia | lia |].
      intros. apply Z.testbit_0_l.
    + rewrite Forall_lookup in Hr. specialize (Hr _ _ Hm).
      destruct (ctz_lowest m) as (Hc & Ht & Hl); [lia |].
      set (c := count_trailing_zeros CONFIG_64BIT m) in *.
      assert (nonempty_at (queues pq) (i * NBITS + c) = true) as Hne.
      { rewrite <- Hb, word_bits, Hm by nia. done. }
      unfold nonempty_at in Hne.
      destruct (queues pq !! Z.to_nat (i * NBITS + c)) as [[| t q] |] eqn:Hq; try done.
      rewrite (Hskip c) by (done || lia). by rewrite (drop_S _ _ _ Hq).
Qed.

Lemma mq_init_ok th : mq_ok th (mq_init CONFIG_64BIT) /\ concat (queues (mq_init CONFIG_64BIT)) = [].
Proof.
  pose proof NBITS_cases. split.
  - constructor; simpl; rewrite ?length_replicate; try done.
    + apply Forall_replicate. lia.
    + intros i q t [-> _]%lookup_replicate Ht. by apply elem_of_nil in Ht.
    + intros i Hi. unfold bit_at, nonempty_at.
      transitivity false.
      * destruct (replicate _ 0 !! _) as [m |] eqn:Hm; simpl; [| apply Z.testbit_0_l].
        apply lookup_replicate in Hm as [-> _]. apply Z.testbit_0_l.
      * destruct (replicate _ [] !! _) as [q |] eqn:Hq; [| done].
        by apply lookup_replicate in Hq as [-> _].
  - simpl. induction (Z.to_nat K_NUM_THREAD_PRIO); done.
Qed.

Definition mq_prio_queue : PrioQueue _priq_mq.
Proof.
  refine {|
    pq_init := mq_init CONFIG_64BIT; pq_add := z_priq_mq_add CONFIG_64BIT;
    pq_remove := z_priq_mq_remove CONFIG_64BIT; pq_best := z_priq_mq_best CONFIG_64BIT;
    pq_abs := λ q, concat (queues q); pq_ok := mq_ok |}.
  - apply mq_init_ok.
  - intros. by apply mq_add_ok.
  - intros. by apply mq_remove_ok.
  - intros th q Hq. unfold z_priq_mq_best. by rewrite (mq_best_loop_spec th).
  - intros th th' q Hth [Hlen Hw Hr Hp Hb]. constructor; try done.
    intros i l t Hl Ht. rewrite <- (Hp i l t) by done. unfold offset_of. rewrite Hth; [done |].
    rewrite list_elem_of_In, in_concat. exists l. rewrite <- !list_elem_of_In.
    split; [by eapply list_elem_of_lookup_2 | done].
Defined.

End MultiQ.

(** ** Any two ready queues dispatch in the same order *)

Section Equivalence.
Context {cfg : Kconfig}.

Inductive pq_op := PqAdd (t : tid) | PqRemove (t : tid).

Definition pq_step {Q} `{!PrioQueue Q} (th : tid -> k_thread) (q : Q) (op : pq_op) : Q :=
  match op with
  | PqAdd t => pq_add th q t
  | PqRemove t => pq_remove th q t
  end.

(** Add a thread of a valid priority that is not queued, remove a queued one. *)
Definition pq_op_valid (th : tid -> k_thread) (l : list tid) (op : pq_op) : Prop :=
  match op with
  | PqAdd t => (t ∉ l) /\ _is_valid_prio (prio (th t)) true = true
  | PqRemove t => t ∈ l
  end.

Fixpoint pq_valid (th : tid -> k_thread) (l : list tid) (ops : list pq_op) : Prop :=
  match ops with
  | [] => True
  | op :: ops => pq_op_valid th l op /\ pq_valid th (pq_step (Q := list tid) th l op) ops
  end.

Definition pq_run {Q} `{!PrioQueue Q} (th : tid -> k_thread) (q : Q) (ops : list pq_op) : Q :=
  foldl (pq_step th) q ops.

Lemma pq_run_abs {Q} `{!PrioQueue Q} th (q : Q) ops :
  pq_ok th q -> pq_valid th (pq_abs q) ops ->
  pq_ok th (pq_run th q ops) /\
  pq_abs (pq_run th q ops) = pq_run (Q := list tid) th (pq_abs q) ops.
Proof.
  unfold pq_run. revert q. induction ops as [| op ops IH]; intros q Hok Hv; simpl; [done |].
  destruct Hv as [Hop Hv].
  assert (pq_ok th (pq_step th q op) /\ pq_abs (pq_step th q op) = pq_step th (pq_abs q) op) as [Hok' Habs].
  { destruct op as [t | t]; simpl in *; [apply pq_add_ok | apply pq_remove_ok]; tauto. }
  rewrite <- Habs in Hv |- *. by apply IH.
Qed.

(** C17: The multi-queue ready queue (a list per priority and a bitmap)
    dispatches the same thread as the sorted list, after any sequence of
    additions and removals, on 32- and 64-bit words. *)
Theorem priq_dispatch_same (cfg_ok : KconfigOK cfg) (CONFIG_64BIT : bool) (no_deadline : SCHED_DEADLINE = false) th ops :
  pq_valid th [] ops ->
  let step_mq pq op :=
    match op with
    | PqAdd t => z_priq_mq_add CONFIG_64BIT th pq t
    | PqRemove t => z_priq_mq_remove CONFIG_64BIT th pq t
    end in
  let step_dumb pq op :=
    match op with
    | PqAdd t => z_priq_dumb_add th pq t
    | PqRemove t => z_priq_dumb_remove pq t
    end in
  z_priq_mq_best CONFIG_64BIT (foldl step_mq (mq_init CONFIG_64BIT) ops) =
  z_priq_dumb_best (foldl step_dumb [] ops).
Proof.
  intros Hv step_mq step_dumb.
  destruct (@pq_init_ok _ _ (mq_prio_queue no_deadline CONFIG_64BIT) th) as [Hok Habs].
  destruct (@pq_run_abs _ (mq_prio_queue no_deadline CONFIG_64BIT) th pq_init ops Hok) as [Hok' Habs']; [by rewrite Habs |].
  rewrite Habs in Habs'.
  pose proof (@pq_best_ok _ _ (mq_prio_queue no_deadline CONFIG_64BIT) th _ Hok') as Hb. rewrite Habs' in Hb.
  exact Hb.
Qed.

End Equivalence.

(** ** Concrete run *)

Lemma default_kconfig_ok : KconfigOK default_kconfig.
Proof. constructor; by vm_compute. Qed.

(** Threads 1 to 4 of priorities 5, -3, 5 and 14. *)
Definition sample_threads (t : tid) : k_thread :=
  set_prio (nth t [0; 5; -3; 5; 14] 0) _thread_dummy.

Definition sample_ops : list pq_op := [PqAdd 1%nat; PqAdd 4%nat; PqAdd 2%nat; PqAdd 3%nat; PqRemove 2%nat].

Lemma priq_dispatch_same_witness :
  z_priq_mq_best false
    (foldl (λ pq op, match op with
                     | PqAdd t => z_priq_mq_add (cfg := default_kconfig) false sample_threads pq t
                     | PqRemove t => z_priq_mq_remove (cfg := default_kconfig) false sample_threads pq t
                     end) (mq_init (cfg := default_kconfig) false) sample_ops) = Some 1%nat.
Proof.
  rewrite (priq_dispatch_same (cfg := default_kconfig) default_kconfig_ok false eq_refl sample_threads sample_ops);
    [by_compute |]. do 4 (split; [split; by_compute |]). split; [| exact I]. simpl. by_compute.
Defined.
