(* ===== verification/Sched.v ===== *)
(** * The scheduler (kernel/sched.c, kernel/include/kswap.h)

    Every operation is a function on [z_kernel].  The kernel's spinlocks make
    each of them atomic, so locking has no counterpart here.  A context switch
    changes [current]; what the switched-out thread does when it runs again is
    the continuation of its own call, and its return value is the
    [swap_retval] field that whoever wakes it has set. *)

From Stdlib Require Import ZArith Lia Bool.
From stdpp Require Import base numbers list gmap.
From S2P Require Import Prelude TimeoutQ Kernel PrioQ.

Open Scope Z_scope.

Section Sched.
Context {cfg : Kconfig}.
Implicit Types (s : z_kernel) (thread : tid) (wait_q : wqid).

(** ** Ready queue *)

Definition runq_add thread s : z_kernel := set_runq (z_priq_dumb_add (thr s) (runq s) thread) s.

Definition runq_remove thread s : z_kernel := set_runq (z_priq_dumb_remove (runq s) thread) s.

Definition runq_best s : option tid := z_priq_dumb_best (runq s).

Definition queue_thread thread s : z_kernel :=
  runq_add thread (upd_thread thread (mark_state _THREAD_QUEUED) s).

Definition dequeue_thread thread s : z_kernel :=
  runq_remove thread (upd_thread thread (unmark_state _THREAD_QUEUED) s).

Definition is_aborting (t : k_thread) : bool := flag_any (thread_state t) _THREAD_ABORTING.

Definition is_halting (t : k_thread) : bool :=
  flag_any (thread_state t) (Z.lor _THREAD_ABORTING _THREAD_SUSPENDING).

Definition clear_halting (t : k_thread) : k_thread :=
  unmark_state (Z.lor _THREAD_ABORTING _THREAD_SUSPENDING) t.

(** The build has meta-IRQ priorities and other cooperative ones below them. *)
Definition metairq_tracking : bool :=
  (NUM_METAIRQ_PRIORITIES >? 0) && (NUM_COOP_PRIORITIES >? NUM_METAIRQ_PRIORITIES).

Definition next_up s : tid * z_kernel :=
  let thread := runq_best s in
  let '(thread, s) :=
    if metairq_tracking then
      match metairq_preempted s with
      | Some mirqp =>
          if match thread with Some t => negb (thread_is_metairq (thr s t)) | None => true end then
            if negb (z_is_thread_prevented_from_running (thr s mirqp)) then (Some mirqp, s)
            else (thread, set_metairq_preempted None s)
          else (thread, s)
      | None => (thread, s)
      end
    else (thread, s) in
  (default (idle_thread s) thread, s).

Definition update_metairq_preempt thread s : z_kernel :=
  if metairq_tracking then
    if thread_is_metairq (thr s thread) && negb (thread_is_metairq (thr s (current s))) &&
       negb (thread_is_preemptible (thr s (current s)))
    then set_metairq_preempted (Some (current s)) s
    else if negb (thread_is_metairq (thr s thread)) && negb (bool_decide (thread = idle_thread s))
    then set_metairq_preempted None s
    else s
  else s.

Definition update_cache (preempt_ok : bool) s : z_kernel :=
  let '(thread, s) := next_up s in
  if should_preempt s thread preempt_ok
  then set_cache thread (update_metairq_preempt thread s)
  else set_cache (current s) s.

Definition move_thread_to_end_of_prio_q thread s : z_kernel :=
  let s := if z_is_thread_queued (thr s thread) then dequeue_thread thread s else s in
  let s := queue_thread thread s in
  update_cache (bool_decide (thread = current s)) s.

Definition ready_thread thread s : z_kernel :=
  if negb (z_is_thread_queued (thr s thread)) && z_is_thread_ready s thread
  then update_cache false (queue_thread thread s)
  else s.

(** Uniprocessor: a thread is never active on another CPU. *)
Definition z_ready_thread thread s : z_kernel := ready_thread thread s.

(** ** Context switch *)

Definition z_swap_next_thread s : tid := cache s.

(** [do_swap] up to the switch; the old thread resumes with [swap_retval]. *)
Definition do_swap s : z_kernel :=
  let old_thread := current s in
  let s := upd_thread old_thread (set_swap_retval (- EAGAIN)) s in
  let new_thread := z_swap_next_thread s in
  if bool_decide (new_thread = old_thread) then s else set_current new_thread s.

Definition z_swap s : z_kernel := do_swap s.

(** The value [z_swap] returns to a thread once it runs again. *)
Definition swap_return s thread : Z := swap_retval (thr s thread).

Definition resched s : bool := irq_unlocked s && negb (arch_is_in_isr s).

Definition need_swap s : bool := negb (bool_decide (cache s = current s)).

Definition z_reschedule s : z_kernel := if resched s && need_swap s then z_swap s else s.

(** [arch_irq_lock] returns the key of the current interrupt state. *)
Definition z_reschedule_unlocked s : z_kernel := z_reschedule s.

(** ** Thread timeouts *)

Definition z_add_thread_timeout thread (timeout : Z) s : z_kernel :=
  set_timeouts (z_add_timeout SYSTEM_CLOCK_SLOPPY_IDLE (thread_timeout thread) timeout (timeouts s)) s.

Definition z_abort_thread_timeout thread s : Z * z_kernel :=
  let '(ret, q) := z_abort_timeout (thread_timeout thread) (timeouts s) in (ret, set_timeouts q s).

Definition add_thread_timeout thread (timeout : Z) s : z_kernel :=
  if negb (K_TIMEOUT_EQ timeout K_FOREVER) then z_add_thread_timeout thread timeout s else s.

(** ** Wait queues *)

Definition z_waitq_head s wait_q : option tid := head (waitq s wait_q).

Definition z_waitq_init wait_q s : z_kernel := upd_waitq wait_q (λ _, []) s.

Definition unready_thread thread s : z_kernel :=
  let s := if z_is_thread_queued (thr s thread) then dequeue_thread thread s else s in
  update_cache (bool_decide (thread = current s)) s.

Definition add_to_waitq_locked thread (wait_q : option wqid) s : z_kernel :=
  let s := unready_thread thread s in
  let s := upd_thread thread z_mark_thread_as_pending s in
  match wait_q with
  | Some w =>
      let s := upd_thread thread (set_pended_on (Some w)) s in
      upd_waitq w (λ q, z_priq_dumb_add (thr s) q thread) s
  | None => s
  end.

Definition pend_locked thread (wait_q : option wqid) (timeout : Z) s : z_kernel :=
  add_thread_timeout thread timeout (add_to_waitq_locked thread wait_q s).

Definition z_pend_thread thread (wait_q : option wqid) (timeout : Z) s : z_kernel :=
  pend_locked thread wait_q timeout s.

(** [__ASSERT_NO_MSG(thread->base.pended_on)]: called on pended threads only. *)
Definition unpend_thread_no_timeout thread s : z_kernel :=
  let s := match pended_on (thr s thread) with
           | Some w => upd_waitq w (λ q, z_priq_dumb_remove q thread) s
           | None => s
           end in
  upd_thread thread (λ t, set_pended_on None (z_mark_thread_as_not_pending t)) s.

Definition z_unpend_thread_no_timeout thread s : z_kernel :=
  match pended_on (thr s thread) with
  | Some _ => unpend_thread_no_timeout thread s
  | None => s
  end.

Definition z_sched_wake_thread thread (is_timeout : bool) s : z_kernel :=
  let killed := flag_any (thread_state (thr s thread)) (Z.lor _THREAD_DEAD _THREAD_ABORTING) in
  let do_nothing := no_wake_on_timeout (thr s thread) && is_timeout in
  let s := upd_thread thread (set_no_wake_on_timeout false) s in
  if do_nothing then s
  else if negb killed then
    let s := match pended_on (thr s thread) with
             | Some _ => unpend_thread_no_timeout thread s
             | None => s
             end in
    let s := upd_thread thread z_mark_thread_as_started s in
    let s := if is_timeout then upd_thread thread z_mark_thread_as_not_suspended s else s in
    ready_thread thread s
  else s.

Definition z_thread_timeout thread s : z_kernel := z_sched_wake_thread thread true s.

(** [z_pend_curr] up to the switch; the call returns [swap_return]. *)
Definition z_pend_curr (wait_q : wqid) (timeout : Z) s : z_kernel :=
  z_swap (pend_locked (current s) (Some wait_q) timeout s).

Definition z_unpend1_no_timeout wait_q s : option tid * z_kernel :=
  match z_waitq_head s wait_q with
  | Some thread => (Some thread, unpend_thread_no_timeout thread s)
  | None => (None, s)
  end.

Definition z_unpend_first_thread wait_q s : option tid * z_kernel :=
  match z_waitq_head s wait_q with
  | Some thread =>
      let s := unpend_thread_no_timeout thread s in
      (Some thread, (z_abort_thread_timeout thread s).2)
  | None => (None, s)
  end.

Definition z_unpend_thread thread s : z_kernel :=
  (z_abort_thread_timeout thread (z_unpend_thread_no_timeout thread s)).2.

(** [arch_thread_return_value_set] and its variant with data *)
Definition arch_thread_return_value_set thread (value : Z) s : z_kernel :=
  upd_thread thread (set_swap_retval value) s.

Definition z_thread_return_value_set_with_data thread (value data : Z) s : z_kernel :=
  upd_thread thread (set_swap_data data) (arch_thread_return_value_set thread value s).

(** ** Priorities *)

Definition z_thread_prio_set thread (p : Z) s : bool * z_kernel :=
  let need_sched := z_is_thread_ready s thread in
  if need_sched then
    let s := dequeue_thread thread s in
    let s := upd_thread thread (set_prio (s8 p)) s in
    let s := queue_thread thread s in
    (need_sched, update_cache true s)
  else (need_sched, upd_thread thread (set_prio (s8 p)) s).

Definition z_impl_k_thread_priority_set thread (p : Z) s : z_kernel :=
  let '(need_sched, s) := z_thread_prio_set thread p s in
  if need_sched && (sched_locked (thr s (current s)) =? 0) then z_reschedule_unlocked s else s.

(** [cycle] is [k_cycle_get_32()]. *)
Definition z_impl_k_thread_deadline_set thread (deadline cycle : Z) s : z_kernel :=
  let deadline := Z.max 0 (Z.min deadline INT_MAX) in
  let newdl := s32 (u32 (cycle + deadline)) in
  if z_is_thread_queued (thr s thread) then
    let s := dequeue_thread thread s in
    let s := upd_thread thread (set_prio_deadline newdl) s in
    queue_thread thread s
  else upd_thread thread (set_prio_deadline newdl) s.

(** ** Scheduler lock, yield, sleep *)

Definition z_sched_lock s : z_kernel :=
  upd_thread (current s) (λ t, set_sched_locked (u8 (sched_locked t - 1)) t) s.

Definition k_sched_lock s : z_kernel := z_sched_lock s.

Definition k_sched_unlock s : z_kernel :=
  let s := upd_thread (current s) (λ t, set_sched_locked (u8 (sched_locked t + 1)) t) s in
  z_reschedule_unlocked (update_cache false s).

Definition z_impl_k_yield s : z_kernel :=
  let s := dequeue_thread (current s) s in
  let s := queue_thread (current s) s in
  z_swap (update_cache true s).

(** [z_tick_sleep] up to the switch, with the expected wakeup tick. *)
Definition z_tick_sleep (ticks : Z) s : option Z * z_kernel :=
  if ticks =? 0 then (None, z_impl_k_yield s)
  else
    let expected_wakeup_ticks :=
      if Z_TICK_ABS ticks <=? 0 then u32 (ticks + sys_clock_tick_get_32 (timeouts s))
      else u32 (Z_TICK_ABS ticks) in
    let s := unready_thread (current s) s in
    let s := z_add_thread_timeout (current s) ticks s in
    let s := upd_thread (current s) z_mark_thread_as_suspended s in
    (Some expected_wakeup_ticks, z_swap s).

(** What [z_tick_sleep] returns once the thread runs again. *)
Definition z_tick_sleep_return (expected_wakeup_ticks : Z) s : Z :=
  let ticks := expected_wakeup_ticks - sys_clock_tick_get_32 (timeouts s) in
  if ticks >? 0 then s32 ticks else 0.

(** ** Suspend, resume, wake up *)

Definition unpend_and_ready thread s : z_kernel :=
  let s := unpend_thread_no_timeout thread s in
  let s := (z_abort_thread_timeout thread s).2 in
  let s := arch_thread_return_value_set thread 0 s in
  ready_thread thread s.

(** [for (thread = z_waitq_head(q); thread != NULL; thread = z_waitq_head(q)) body]
    with one unit of fuel for each waiting thread. *)
Fixpoint waitq_drain (fuel : nat) (body : tid -> z_kernel -> z_kernel) wait_q s : z_kernel :=
  match fuel with
  | O => s
  | S fuel =>
      match z_waitq_head s wait_q with
      | Some thread => waitq_drain fuel body wait_q (body thread s)
      | None => s
      end
  end.

Definition unpend_all wait_q s : z_kernel :=
  waitq_drain (length (waitq s wait_q)) unpend_and_ready wait_q s.

Definition z_unpend_all wait_q s : Z * z_kernel :=
  ((if z_waitq_head s wait_q is Some _ then 1 else 0),
   waitq_drain (length (waitq s wait_q)) (λ t s, z_ready_thread t (z_unpend_thread t s)) wait_q s).

(** The address of the static [_thread_dummy]. *)
Definition dummy_tid : tid := 0%nat.

Definition z_dummy_thread_init s : z_kernel :=
  let s := upd_thread dummy_tid (λ t, set_user_options K_ESSENTIAL (set_thread_state _THREAD_DUMMY t)) s in
  set_current dummy_tid s.

Definition halt_thread thread (new_state : Z) s : z_kernel :=
  if Z.land (thread_state (thr s thread)) new_state =? 0 then
    let s := upd_thread thread (mark_state new_state) s in
    let s := if z_is_thread_queued (thr s thread) then dequeue_thread thread s else s in
    let dead := new_state =? _THREAD_DEAD in
    let s := if dead then
        let s := match pended_on (thr s thread) with
                 | Some _ => unpend_thread_no_timeout thread s
                 | None => s
                 end in
        let s := (z_abort_thread_timeout thread s).2 in
        unpend_all (join_queue thread) s
      else s in
    let dummify := dead && bool_decide (thread = current s) && arch_is_in_isr s in
    let s := update_cache true s in
    if new_state =? _THREAD_SUSPENDED then upd_thread thread clear_halting s
    else
      let s := if dummify then z_dummy_thread_init s else s in
      upd_thread thread clear_halting s
  else s.

(** Uniprocessor: the target never runs on another CPU. *)
Definition z_thread_halt thread (terminate : bool) s : z_kernel :=
  let s := halt_thread thread (if terminate then _THREAD_DEAD else _THREAD_SUSPENDED) s in
  if bool_decide (thread = current s) && negb (arch_is_in_isr s) then z_swap s else s.

Definition z_impl_k_thread_suspend thread s : z_kernel :=
  let s := (z_abort_thread_timeout thread s).2 in
  if z_is_thread_suspended (thr s thread) then s else z_thread_halt thread false s.

Definition z_impl_k_thread_resume thread s : z_kernel :=
  if negb (z_is_thread_suspended (thr s thread)) then s
  else
    let s := upd_thread thread z_mark_thread_as_not_suspended s in
    z_reschedule (ready_thread thread s).

Definition z_sched_start thread s : z_kernel :=
  if z_has_thread_started (thr s thread) then s
  else z_reschedule (ready_thread thread (upd_thread thread z_mark_thread_as_started s)).

Definition z_impl_k_wakeup thread s : z_kernel :=
  if z_is_thread_pending (thr s thread) then s
  else
    let '(ret, s) := z_abort_thread_timeout thread s in
    if (ret <? 0) && negb (thread_state (thr s thread) =? _THREAD_SUSPENDED) then s
    else
      let s := upd_thread thread z_mark_thread_as_not_suspended s in
      let s := ready_thread thread s in
      if arch_is_in_isr s then s else z_reschedule s.

(** Aborting an essential thread panics. *)
Definition z_thread_abort thread s : option z_kernel :=
  if z_is_thread_essential (thr s thread) then None
  else if flag_any (thread_state (thr s thread)) _THREAD_DEAD then Some s
  else Some (z_thread_halt thread true s).

(** A call either returns a value or blocks until the thread is woken. *)
Inductive outcome := Returns (value : Z) | Blocks.

Definition z_impl_k_thread_join thread (timeout : Z) s : outcome * z_kernel :=
  if flag_any (thread_state (thr s thread)) _THREAD_DEAD then (Returns 0, s)
  else if K_TIMEOUT_EQ timeout K_NO_WAIT then (Returns (- EBUSY), s)
  else if bool_decide (thread = current s) ||
          bool_decide (pended_on (thr s thread) = Some (join_queue (current s)))
  then (Returns (- EDEADLK), s)
  else
    let s := add_to_waitq_locked (current s) (Some (join_queue thread)) s in
    let s := add_thread_timeout (current s) timeout s in
    (Blocks, z_swap s).

(** ** Wait and wake API (ksched.h) *)

Definition z_sched_wake wait_q (swap_retval swap_data : Z) s : bool * z_kernel :=
  match z_waitq_head s wait_q with
  | Some thread =>
      let s := z_thread_return_value_set_with_data thread swap_retval swap_data s in
      let s := unpend_thread_no_timeout thread s in
      let s := (z_abort_thread_timeout thread s).2 in
      (true, ready_thread thread s)
  | None => (false, s)
  end.

Definition z_sched_wake_all wait_q (swap_retval swap_data : Z) s : bool * z_kernel :=
  (bool_decide (is_Some (z_waitq_head s wait_q)),
   waitq_drain (length (waitq s wait_q)) (λ _ s, (z_sched_wake wait_q swap_retval swap_data s).2) wait_q s).

Definition z_sched_wait wait_q (timeout : Z) s : z_kernel := z_pend_curr wait_q timeout s.

(** The return value and [*data] of [z_sched_wait] for the resumed thread. *)
Definition z_sched_wait_return s thread : Z * Z := (swap_return s thread, swap_data (thr s thread)).

(** [data] is what the callback's argument points to. *)
Fixpoint waitq_walk {D} (func : tid -> D -> z_kernel -> Z * D * z_kernel) (l : list tid) (data : D) s : Z * D * z_kernel :=
  match l with
  | [] => (0, data, s)
  | thread :: l =>
      let '(status, data, s) := func thread data s in
      if negb (status =? 0) then (status, data, s) else waitq_walk func l data s
  end.

Definition z_sched_waitq_walk {D} wait_q (func : tid -> D -> z_kernel -> Z * D * z_kernel) (data : D) s :
  Z * D * z_kernel :=
  waitq_walk func (waitq s wait_q) data s.

End Sched.
