(* ===== verification/SchedInv.v ===== *)
(** * Scheduler invariants

    [sched_inv X s] says that the ready queue, the wait queues, the timeout
    queue and the state bits of the threads agree; the threads of [X] are the
    ones an operation in progress has not settled yet, and [X = ∅] between
    operations.  The file proves that every operation of Sched.v keeps it. *)

From Stdlib Require Import ZArith Lia Bool Btauto.
From stdpp Require Import base numbers list gmap sets.
From S2P Require Import Prelude TimeoutQ Kernel PrioQ Sched.

Open Scope Z_scope.

(** The timeout of a thread is in the queue. *)
Definition active (s : z_kernel) (t : tid) : bool := is_linked (thread_timeout t) (timeouts s).

Record sched_inv (X : gset tid) (s : z_kernel) : Prop := {
  inv_runq_nodup : NoDup (runq s);
  inv_queued : ∀ t, z_is_thread_queued (thr s t) = true <-> t ∈ runq s;
  inv_queued_ready : ∀ t, t ∈ runq s -> z_is_thread_ready s t = true;
  inv_ready_queued : ∀ t, t ∉ X -> t ≠ idle_thread s -> z_is_thread_ready s t = true -> t ∈ runq s;
  inv_waitq : ∀ t w, pended_on (thr s t) = Some w <-> t ∈ waitq s w;
  inv_waitq_nodup : ∀ w, NoDup (waitq s w);
  inv_pended : ∀ t w, pended_on (thr s t) = Some w -> z_is_thread_pending (thr s t) = true;
  inv_timeouts : tq_wf (timeouts s);
  inv_idle_queue : idle_thread s ∉ runq s;
  inv_idle_ready : z_is_thread_ready s (idle_thread s) = true
}.

(** The parts of the state [sched_inv] reads. *)
Record same_sched (s s' : z_kernel) : Prop := {
  same_runq : runq s' = runq s;
  same_waitq : ∀ w, waitq s' w = waitq s w;
  same_timeouts : timeouts s' = timeouts s;
  same_idle : idle_thread s' = idle_thread s;
  same_state : ∀ t, thread_state (thr s' t) = thread_state (thr s t);
  same_pended : ∀ t, pended_on (thr s' t) = pended_on (thr s t)
}.

Lemma ready_eq s t :
  z_is_thread_ready s t = negb (z_is_thread_prevented_from_running (thr s t) || active s t).
Proof.
  unfold z_is_thread_ready, z_is_thread_timeout_active, z_is_inactive_timeout, active.
  by rewrite negb_involutive.
Qed.

Lemma prevented_state x y :
  thread_state x = thread_state y ->
  z_is_thread_prevented_from_running x = z_is_thread_prevented_from_running y.
Proof. unfold z_is_thread_prevented_from_running. by intros ->. Qed.

Lemma queued_state x y :
  thread_state x = thread_state y -> z_is_thread_queued x = z_is_thread_queued y.
Proof. unfold z_is_thread_queued, z_is_thread_state_set. by intros ->. Qed.

Lemma pending_state x y :
  thread_state x = thread_state y -> z_is_thread_pending x = z_is_thread_pending y.
Proof. unfold z_is_thread_pending. by intros ->. Qed.

Lemma pending_bit t : z_is_thread_pending t = Z.testbit (thread_state t) 1.
Proof. unfold z_is_thread_pending, _THREAD_PENDING. by autorewrite with bits. Qed.

Lemma pending_prevented t :
  z_is_thread_pending t = true -> z_is_thread_prevented_from_running t = true.
Proof. rewrite pending_bit, prevented_bits. intros ->. done. Qed.

Lemma mark_state_bit k x i :
  0 <= k -> 0 <= i ->
  Z.testbit (thread_state (mark_state (BIT k) x)) i = Z.testbit (thread_state x) i || (k =? i).
Proof. apply flag_set_testbit. Qed.

Lemma unmark_state_bit k x i :
  0 <= k -> 0 <= i ->
  Z.testbit (thread_state (unmark_state (BIT k) x)) i = Z.testbit (thread_state x) i && negb (k =? i).
Proof. apply flag_clear_testbit. Qed.

#[export] Hint Rewrite prevented_bits queued_bit pending_bit : bits.
#[export] Hint Rewrite mark_state_bit unmark_state_bit using lia : bits.

(** Decide what an update of the state bits does to a predicate on them. *)
Ltac state_bits :=
  unfold z_mark_thread_as_suspended, z_mark_thread_as_not_suspended, z_mark_thread_as_started,
    z_mark_thread_as_pending, z_mark_thread_as_not_pending, _THREAD_DUMMY, _THREAD_PENDING,
    _THREAD_PRESTART, _THREAD_DEAD, _THREAD_SUSPENDED, _THREAD_ABORTING, _THREAD_SUSPENDING,
    _THREAD_QUEUED in *;
  autorewrite with bits in *; cbn [Z.eqb Pos.eqb] in *; try btauto.

Lemma same_sched_refl s : same_sched s s.
Proof. by constructor. Qed.

Lemma same_sched_trans s1 s2 s3 : same_sched s1 s2 -> same_sched s2 s3 -> same_sched s1 s3.
Proof. intros [] []. constructor; intros; congruence. Qed.

Lemma same_ready s s' t : same_sched s s' -> z_is_thread_ready s' t = z_is_thread_ready s t.
Proof.
  intros Hs. rewrite !ready_eq. unfold active. rewrite (same_timeouts _ _ Hs).
  by rewrite (prevented_state _ _ (same_state _ _ Hs t)).
Qed.

Lemma same_active s s' t : same_sched s s' -> active s' t = active s t.
Proof. intros Hs. unfold active. by rewrite (same_timeouts _ _ Hs). Qed.

Lemma sched_inv_same X s s' : same_sched s s' -> sched_inv X s -> sched_inv X s'.
Proof.
  intros Hs [H1 H2 H3 H4 H5 H6 H7 H8 H9 H10].
  pose proof (same_ready s s') as Hr.
  destruct Hs as [E1 E2 E3 E4 E5 E6].
  constructor; rewrite ?E1, ?E3, ?E4; try done.
  - intros t. rewrite (queued_state _ (thr s t)) by done. apply H2.
  - intros t. rewrite Hr by done. apply H3.
  - intros t. rewrite Hr by done. apply H4.
  - intros t w. rewrite E6, E2. apply H5.
  - intros w. rewrite E2. apply H6.
  - intros t w. rewrite E6, (pending_state _ (thr s t)) by done. apply H7.
  - rewrite Hr by done. done.
Qed.

#[export] Instance same_sched_equivalence : Equivalence same_sched.
Proof.
  split; [exact same_sched_refl | | exact same_sched_trans].
  intros s s' []. by constructor.
Qed.

#[export] Instance sched_inv_proper X : Proper (same_sched ==> iff) (sched_inv X).
Proof. intros s s' H. split; apply sched_inv_same; [done | by symmetry]. Qed.

(** ** Updates that the invariant does not see *)

Lemma same_upd s t f :
  (∀ x, thread_state (f x) = thread_state x) -> (∀ x, pended_on (f x) = pended_on x) ->
  same_sched s (upd_thread t f s).
Proof. intros H1 H2. constructor; try done; intros u; rewrite thr_upd; case_decide; by subst. Qed.

Lemma same_set_cache s t : same_sched s (set_cache t s).
Proof. by constructor. Qed.

Lemma same_set_current s t : same_sched s (set_current t s).
Proof. by constructor. Qed.

Lemma same_set_metairq s m : same_sched s (set_metairq_preempted m s).
Proof. by constructor. Qed.

Section Inv.
Context {cfg : Kconfig}.
Implicit Types (s : z_kernel) (t u : tid) (w : wqid) (X : gset tid).

Lemma next_up_state s : (next_up s).2 = s \/ (next_up s).2 = set_metairq_preempted None s.
Proof. unfold next_up. repeat case_match; simplify_eq; auto. Qed.

Lemma same_update_cache s b : same_sched s (update_cache b s).
Proof.
  unfold update_cache. destruct (next_up s) as [t s1] eqn:E.
  assert (same_sched s s1) as H1.
  { destruct (next_up_state s) as [H | H]; rewrite E in H; simpl in H; subst;
      [apply same_sched_refl | apply same_set_metairq]. }
  case_match.
  - eapply same_sched_trans; [done |]. eapply same_sched_trans; [| apply same_set_cache].
    unfold update_metairq_preempt.
    repeat case_match; first [apply same_sched_refl | apply same_set_metairq].
  - eapply same_sched_trans; [done | apply same_set_cache].
Qed.

Lemma same_do_swap s : same_sched s (do_swap s).
Proof.
  unfold do_swap. cbv zeta. case_match; [| eapply same_sched_trans; [| apply same_set_current]];
    by apply same_upd.
Qed.

Lemma same_reschedule s : same_sched s (z_reschedule s).
Proof. unfold z_reschedule. case_match; [apply same_do_swap | apply same_sched_refl]. Qed.

(** ** The thread in progress *)

Lemma inv_weaken X Y s : X ⊆ Y -> sched_inv X s -> sched_inv Y s.
Proof. intros Hsub []. constructor; auto. Qed.

Lemma inv_twice X t s : sched_inv ({[t]} ∪ ({[t]} ∪ X)) s -> sched_inv ({[t]} ∪ X) s.
Proof. apply inv_weaken. set_solver. Qed.

(** A thread is settled when it is queued if it is ready. *)
Lemma inv_settle X t s :
  sched_inv ({[t]} ∪ X) s ->
  (z_is_thread_ready s t = true -> t ∈ runq s) ->
  sched_inv X s.
Proof.
  intros [] Hr. constructor; try done.
  - intros u Hu Hi Hu'. destruct (decide (u = t)) as [-> | Hne]; [by apply Hr |].
    apply inv_ready_queued0; set_solver.
Qed.

Lemma inv_not_queued X s t : sched_inv X s -> t ∉ runq s -> z_is_thread_queued (thr s t) = false.
Proof. intros H Ht. apply not_true_is_false. by rewrite (inv_queued _ _ H). Qed.

Lemma inv_pended_not_queued X s t w :
  sched_inv X s -> pended_on (thr s t) = Some w -> t ∉ runq s.
Proof.
  intros H Hp Ht. pose proof (inv_queued_ready _ _ H _ Ht) as Hr.
  rewrite ready_eq, (pending_prevented _ (inv_pended _ _ H _ _ Hp)) in Hr. done.
Qed.

Lemma inv_idle_not_pended X s t w :
  sched_inv X s -> pended_on (thr s t) = Some w -> t ≠ idle_thread s.
Proof.
  intros H Hp ->. pose proof (inv_idle_ready _ _ H) as Hr.
  rewrite ready_eq, (pending_prevented _ (inv_pended _ _ H _ _ Hp)) in Hr. done.
Qed.

(** Changing the state bits of a thread that is in no ready queue. *)
Lemma inv_upd_state X t f s :
  sched_inv X s -> t ∉ runq s -> t ≠ idle_thread s ->
  z_is_thread_queued (f (thr s t)) = z_is_thread_queued (thr s t) ->
  pended_on (f (thr s t)) = pended_on (thr s t) ->
  (∀ w, pended_on (thr s t) = Some w -> z_is_thread_pending (f (thr s t)) = true) ->
  sched_inv ({[t]} ∪ X) (upd_thread t f s).
Proof.
  intros [] Ht Hi Hq Hp Hpend.
  assert (∀ u, u ≠ t -> z_is_thread_ready (upd_thread t f s) u = z_is_thread_ready s u) as Hr.
  { intros u Hu. rewrite !ready_eq. by rewrite thr_upd_ne by done. }
  constructor; try done.
  - intros u. rewrite thr_upd. case_decide; [subst; rewrite Hq |]; apply inv_queued0.
  - intros u Hu. rewrite Hr; [by apply inv_queued_ready0 |]. intros ->. done.
  - intros u Hu Hid. rewrite Hr by set_solver. apply inv_ready_queued0; set_solver.
  - intros u w. rewrite thr_upd. case_decide; [subst; rewrite Hp |]; apply inv_waitq0.
  - intros u w. rewrite thr_upd. case_decide; [subst; rewrite Hp; apply Hpend | apply inv_pended0].
  - rewrite Hr by done. done.
Qed.

Lemma ready_upd_same s t f u :
  thread_state (f (thr s t)) = thread_state (thr s t) ->
  z_is_thread_ready (upd_thread t f s) u = z_is_thread_ready s u.
Proof.
  intros Hf. rewrite !ready_eq. unfold active. rewrite thr_upd. case_decide; [subst |]; [| done].
  simpl. by rewrite (prevented_state _ _ Hf).
Qed.

(** ** Queueing *)

Lemma prevented_mark_queued x :
  z_is_thread_prevented_from_running (mark_state _THREAD_QUEUED x) = z_is_thread_prevented_from_running x.
Proof. state_bits. Qed.

Lemma prevented_unmark_queued x :
  z_is_thread_prevented_from_running (unmark_state _THREAD_QUEUED x) = z_is_thread_prevented_from_running x.
Proof. state_bits. Qed.

Lemma pending_mark_queued x : z_is_thread_pending (mark_state _THREAD_QUEUED x) = z_is_thread_pending x.
Proof. state_bits. Qed.

Lemma pending_unmark_queued x : z_is_thread_pending (unmark_state _THREAD_QUEUED x) = z_is_thread_pending x.
Proof. state_bits. Qed.

Lemma queued_mark x : z_is_thread_queued (mark_state _THREAD_QUEUED x) = true.
Proof. state_bits. Qed.

Lemma queued_unmark x : z_is_thread_queued (unmark_state _THREAD_QUEUED x) = false.
Proof. state_bits. Qed.

Lemma ready_queue_thread s t u : z_is_thread_ready (queue_thread t s) u = z_is_thread_ready s u.
Proof.
  rewrite !ready_eq. unfold queue_thread, runq_add, active. simpl.
  change (thr (set_runq _ ?x) u) with (thr x u). rewrite thr_upd.
  case_decide; [subst; by rewrite prevented_mark_queued | done].
Qed.

Lemma ready_dequeue_thread s t u : z_is_thread_ready (dequeue_thread t s) u = z_is_thread_ready s u.
Proof.
  rewrite !ready_eq. unfold dequeue_thread, runq_remove, active. simpl.
  change (thr (set_runq _ ?x) u) with (thr x u). rewrite thr_upd.
  case_decide; [subst; by rewrite prevented_unmark_queued | done].
Qed.

Lemma thr_queue_thread s t u :
  thr (queue_thread t s) u = if decide (t = u) then mark_state _THREAD_QUEUED (thr s t) else thr s u.
Proof. unfold queue_thread, runq_add. change (thr (set_runq _ ?x) u) with (thr x u). apply thr_upd. Qed.

Lemma thr_dequeue_thread s t u :
  thr (dequeue_thread t s) u = if decide (t = u) then unmark_state _THREAD_QUEUED (thr s t) else thr s u.
Proof. unfold dequeue_thread, runq_remove. change (thr (set_runq _ ?x) u) with (thr x u). apply thr_upd. Qed.

Lemma elem_queue_thread s t u : u ∈ runq (queue_thread t s) <-> u = t \/ u ∈ runq s.
Proof. apply dumb_add_elem. Qed.

Lemma elem_dequeue_thread s t u : u ∈ runq (dequeue_thread t s) <-> u ≠ t /\ u ∈ runq s.
Proof. apply dlist_remove_elem. Qed.

Lemma inv_queue X t s :
  sched_inv ({[t]} ∪ X) s -> t ∉ runq s -> t ≠ idle_thread s -> z_is_thread_ready s t = true ->
  sched_inv X (queue_thread t s).
Proof.
  intros [] Ht Hi Hr. apply (inv_settle _ t).
  2: { intros _. rewrite elem_queue_thread. auto. }
  constructor; try done.
  - by apply dumb_add_nodup.
  - intros u. rewrite thr_queue_thread, elem_queue_thread. case_decide.
    + subst. rewrite queued_mark. tauto.
    + rewrite inv_queued0. naive_solver.
  - intros u. rewrite elem_queue_thread, ready_queue_thread. intros [-> | Hu]; [done |].
    by apply inv_queued_ready0.
  - intros u Hu Hid. rewrite elem_queue_thread, ready_queue_thread. intros. right. by apply inv_ready_queued0.
  - intros u w. rewrite thr_queue_thread. case_decide; [subst |]; apply inv_waitq0.
  - intros u w. rewrite thr_queue_thread. case_decide; [subst |]; [| apply inv_pended0].
    rewrite pending_mark_queued. apply inv_pended0.
  - rewrite elem_queue_thread. intros [|]; by auto.
  - by rewrite ready_queue_thread.
Qed.

Lemma inv_dequeue X t s :
  sched_inv X s -> t ∈ runq s -> sched_inv ({[t]} ∪ X) (dequeue_thread t s) /\ t ∉ runq (dequeue_thread t s).
Proof.
  intros [] Ht. split; [| rewrite elem_dequeue_thread; tauto]. constructor; try done.
  - by apply dlist_remove_nodup.
  - intros u. rewrite thr_dequeue_thread, elem_dequeue_thread. case_decide.
    + subst. rewrite queued_unmark. naive_solver.
    + rewrite inv_queued0. naive_solver.
  - intros u. rewrite elem_dequeue_thread, ready_dequeue_thread. intros [_ Hu]. by apply inv_queued_ready0.
  - intros u Hu Hid. rewrite elem_dequeue_thread, ready_dequeue_thread. intros.
    split; [set_solver | apply inv_ready_queued0; set_solver].
  - intros u w. rewrite thr_dequeue_thread. case_decide; [subst |]; apply inv_waitq0.
  - intros u w. rewrite thr_dequeue_thread. case_decide; [subst |]; [| apply inv_pended0].
    rewrite pending_unmark_queued. apply inv_pended0.
  - rewrite elem_dequeue_thread. tauto.
  - by rewrite ready_dequeue_thread.
Qed.

(** [ready_thread] settles a thread. *)
Lemma inv_ready_thread X t s :
  sched_inv ({[t]} ∪ X) s -> t ≠ idle_thread s -> sched_inv X (ready_thread t s).
Proof.
  intros Hs Hi. unfold ready_thread.
  destruct (z_is_thread_queued (thr s t)) eqn:Hq; simpl.
  - apply (inv_settle _ t); [done | intros _; by apply (inv_queued _ _ Hs)].
  - destruct (z_is_thread_ready s t) eqn:Hr.
    + rewrite <- same_update_cache. apply inv_queue; try done.
      rewrite <- (inv_queued _ _ Hs). congruence.
    + apply (inv_settle _ t); [done | congruence].
Qed.

(** ** Wait queues *)

Lemma inv_waitq_add X t w s :
  sched_inv X s -> pended_on (thr s t) = None -> z_is_thread_pending (thr s t) = true ->
  sched_inv X (let s := upd_thread t (set_pended_on (Some w)) s in
               upd_waitq w (λ q, z_priq_dumb_add (thr s) q t) s).
Proof.
  intros Hs Hp Hb. cbv zeta. set (s1 := upd_thread _ _ s).
  assert (∀ u, thread_state (thr s1 u) = thread_state (thr s u)) as Hst.
  { intros u. unfold s1. rewrite thr_upd. case_decide; by subst. }
  assert (∀ u, z_is_thread_ready (upd_waitq w (λ q, z_priq_dumb_add (thr s1) q t) s1) u =
               z_is_thread_ready s u) as Hr.
  { intros u. rewrite !ready_eq. change (thr (upd_waitq _ _ s1) u) with (thr s1 u).
    by rewrite (prevented_state _ _ (Hst u)). }
  destruct Hs. constructor; try done.
  - intros u. change (thr (upd_waitq _ _ s1) u) with (thr s1 u).
    rewrite (queued_state _ _ (Hst u)). apply inv_queued0.
  - intros u Hu. rewrite Hr. by apply inv_queued_ready0.
  - intros u Hu Hid. rewrite Hr. by apply inv_ready_queued0.
  - intros u w'. rewrite waitq_upd. change (thr (upd_waitq _ _ s1) u) with (thr s1 u).
    unfold s1 at 1. rewrite thr_upd. case_decide as Eu; case_decide as Ew; subst; simpl.
    + rewrite dumb_add_elem. naive_solver.
    + change (waitq s1 w') with (waitq s w'). rewrite <- inv_waitq0. naive_solver.
    + rewrite dumb_add_elem. change (waitq s1 w') with (waitq s w').
      rewrite inv_waitq0. naive_solver.
    + apply inv_waitq0.
  - intros w'. rewrite waitq_upd. case_decide; [subst |]; [| apply inv_waitq_nodup0].
    apply dumb_add_nodup; [| apply inv_waitq_nodup0].
    change (waitq s1 w') with (waitq s w'). rewrite <- inv_waitq0. congruence.
  - intros u w'. change (thr (upd_waitq _ _ s1) u) with (thr s1 u).
    rewrite (pending_state _ _ (Hst u)).
    unfold s1. rewrite thr_upd. case_decide; [by subst | apply inv_pended0].
  - by rewrite Hr.
Qed.

Lemma inv_unpend X t w s :
  sched_inv X s -> pended_on (thr s t) = Some w ->
  sched_inv ({[t]} ∪ X) (unpend_thread_no_timeout t s).
Proof.
  intros Hs Hp. pose proof (inv_pended_not_queued _ _ _ _ Hs Hp) as Hnq.
  pose proof (inv_idle_not_pended _ _ _ _ Hs Hp) as Hni.
  unfold unpend_thread_no_timeout. rewrite Hp. set (s1 := upd_waitq w _ s).
  set (f := λ x, set_pended_on None (z_mark_thread_as_not_pending x)).
  assert (∀ u, u ≠ t -> z_is_thread_ready (upd_thread t f s1) u = z_is_thread_ready s u) as Hr.
  { intros u Hu. rewrite !ready_eq. by rewrite thr_upd_ne by done. }
  destruct Hs. constructor; try done.
  - intros u. rewrite thr_upd. change (thr s1) with (thr s). case_decide; [subst u | apply inv_queued0].
    change (runq (upd_thread t f s1)) with (runq s). rewrite <- inv_queued0.
    assert (z_is_thread_queued (f (thr s t)) = z_is_thread_queued (thr s t)) as ->; [| done].
    unfold f. rewrite !queued_bit.
    change (thread_state (set_pended_on None ?x)) with (thread_state x). state_bits.
  - intros u Hu. rewrite Hr; [by apply inv_queued_ready0 |]. intros ->. done.
  - intros u Hu Hid. rewrite Hr by set_solver. apply inv_ready_queued0; set_solver.
  - intros u w'. rewrite thr_upd. change (waitq (upd_thread t f s1) w') with (waitq s1 w').
    unfold s1. rewrite waitq_upd. change (thr (upd_waitq _ _ s) u) with (thr s u).
    case_decide as Eu; case_decide as Ew; subst; simpl; unfold z_priq_dumb_remove;
      rewrite ?dlist_remove_elem.
    + split; [done | tauto].
    + split; [done |]. rewrite <- inv_waitq0. congruence.
    + rewrite inv_waitq0. split; [intros; split; [congruence | done] | tauto].
    + apply inv_waitq0.
  - intros w'. change (waitq (upd_thread t f s1) w') with (waitq s1 w'). unfold s1. rewrite waitq_upd.
    case_decide; [apply dlist_remove_nodup |]; apply inv_waitq_nodup0.
  - intros u w'. rewrite thr_upd. case_decide; [done |]. apply inv_pended0.
  - rewrite Hr by done. done.
Qed.

(** ** Thread timeouts *)

(** Tick counts an API caller may pass. *)
Definition valid_timeout (timeout : Z) : Prop := - 2 ^ 60 <= timeout < 2 ^ 60.

Lemma inv_set_timeouts X t q s :
  sched_inv X s -> tq_wf q -> t ≠ idle_thread s ->
  (∀ u, u ≠ t -> is_linked (thread_timeout u) q = active s u) ->
  (t ∈ runq s -> is_linked (thread_timeout t) q = false) ->
  sched_inv ({[t]} ∪ X) (set_timeouts q s).
Proof.
  intros [] Hq Hi Hu Ht.
  assert (∀ u, u ≠ t -> z_is_thread_ready (set_timeouts q s) u = z_is_thread_ready s u) as Hr.
  { intros u Hne. rewrite !ready_eq. unfold active at 1. simpl. by rewrite Hu. }
  constructor; try done.
  - intros u Hq'. destruct (decide (u = t)) as [-> | Hne]; [| by rewrite Hr; auto].
    specialize (inv_queued_ready0 _ Hq'). rewrite ready_eq in *. unfold active in *. simpl.
    change (runq (set_timeouts q s)) with (runq s) in Hq'. rewrite Ht by done.
    change (thr (set_timeouts q s) t) with (thr s t).
    by destruct (z_is_thread_prevented_from_running _).
  - intros u HX Hid. rewrite Hr by set_solver. apply inv_ready_queued0; set_solver.
  - rewrite Hr by done. done.
Qed.

Lemma inv_add_timeout X t timeout s :
  sched_inv X s -> t ∉ runq s -> t ≠ idle_thread s -> active s t = false ->
  valid_timeout timeout -> timeout ≠ K_FOREVER ->
  sched_inv ({[t]} ∪ X) (z_add_thread_timeout t timeout s).
Proof.
  intros Hs Ht Hi Ha Hv Hf. unfold z_add_thread_timeout. apply inv_set_timeouts; try done.
  - by apply z_add_timeout_ok; [apply Hs | | |].
  - intros u Hne. rewrite is_linked_add by done.
    rewrite bool_decide_eq_false_2; [done |]. unfold thread_timeout. naive_solver.
Qed.

Lemma z_abort_thread_timeout_snd t s :
  (z_abort_thread_timeout t s).2 =
  set_timeouts (z_abort_timeout (thread_timeout t) (timeouts s)).2 s.
Proof. unfold z_abort_thread_timeout. by destruct (z_abort_timeout _ _). Qed.

Lemma inv_abort_timeout X t s :
  sched_inv X s -> t ≠ idle_thread s ->
  sched_inv ({[t]} ∪ X) (z_abort_thread_timeout t s).2 /\
  active (z_abort_thread_timeout t s).2 t = false.
Proof.
  intros Hs Hi. rewrite z_abort_thread_timeout_snd.
  pose proof (wf_nodup _ (inv_timeouts _ _ Hs)) as Hnd.
  assert (is_linked (thread_timeout t) (z_abort_timeout (thread_timeout t) (timeouts s)).2 = false) as Hl.
  { rewrite is_linked_abort by done. rewrite bool_decide_eq_false_2 by auto. btauto. }
  split; [| done]. apply inv_set_timeouts; try done.
  - apply z_abort_timeout_ok, Hs.
  - intros u Hne. rewrite is_linked_abort by done. rewrite bool_decide_eq_true_2; [unfold active; btauto |].
    unfold thread_timeout. congruence.
Qed.

(** ** Pending and waking *)

Lemma inv_unready X t s :
  sched_inv X s ->
  let s' := unready_thread t s in
  sched_inv ({[t]} ∪ X) s' /\ (t ∉ runq s') /\
  pended_on (thr s' t) = pended_on (thr s t) /\ active s' t = active s t /\
  idle_thread s' = idle_thread s.
Proof.
  intros Hs. cbv zeta. unfold unready_thread.
  set (s1 := if z_is_thread_queued (thr s t) then _ else _).
  assert (sched_inv ({[t]} ∪ X) s1 /\ (t ∉ runq s1) /\ pended_on (thr s1 t) = pended_on (thr s t) /\
    timeouts s1 = timeouts s /\ idle_thread s1 = idle_thread s) as (H1 & H2 & H3 & H4 & H5).
  { unfold s1. destruct (z_is_thread_queued (thr s t)) eqn:Hq.
    - apply (inv_queued _ _ Hs) in Hq. destruct (inv_dequeue X t s Hs Hq) as [? ?].
      split; [done |]. split; [done |]. rewrite thr_dequeue_thread, decide_True by done. done.
    - split; [apply (inv_weaken X); [set_solver | done] |]. rewrite <- (inv_queued _ _ Hs). by rewrite Hq. }
  pose proof (same_update_cache s1 (bool_decide (t = current s1))) as Hc.
  unfold active. split; [by rewrite <- Hc |].
  rewrite (same_runq _ _ Hc), (same_pended _ _ Hc), (same_timeouts _ _ Hc), (same_idle _ _ Hc), H3, H4, H5.
  done.
Qed.

Lemma inv_add_to_waitq X t w s :
  sched_inv X s -> t ≠ idle_thread s -> pended_on (thr s t) = None -> active s t = false ->
  let s' := add_to_waitq_locked t (Some w) s in
  sched_inv X s' /\ (t ∉ runq s') /\ z_is_thread_pending (thr s' t) = true /\ active s' t = false /\
  idle_thread s' = idle_thread s.
Proof.
  intros Hs Hi Hp Ha. unfold add_to_waitq_locked. cbv zeta.
  destruct (inv_unready X t s Hs) as (H1 & Hq & Hp' & Ha' & Hid).
  set (s1 := unready_thread t s) in *. set (s2 := upd_thread t z_mark_thread_as_pending s1).
  assert (z_is_thread_pending (thr s2 t) = true) as Hpend.
  { unfold s2. rewrite thr_upd_eq. state_bits. }
  assert (sched_inv X s2) as H2.
  { apply (inv_settle _ t).
    - apply inv_twice. apply inv_upd_state; try done; [congruence | state_bits | congruence].
    - rewrite ready_eq, pending_prevented by done. done. }
  set (s3 := upd_waitq w _ _).
  assert (sched_inv X s3) as H3.
  { apply (inv_waitq_add X t w s2); [done | | done]. unfold s2. rewrite thr_upd_eq. simpl. congruence. }
  split; [done |]. split; [done |]. split.
  - unfold s3. change (thr (upd_waitq _ _ ?x) t) with (thr x t). rewrite thr_upd_eq. done.
  - unfold active in *. split; [| done]. unfold s3. simpl. congruence.
Qed.

Lemma inv_pend_locked X t w timeout s :
  sched_inv X s -> t ≠ idle_thread s -> pended_on (thr s t) = None -> active s t = false ->
  valid_timeout timeout ->
  sched_inv X (pend_locked t (Some w) timeout s).
Proof.
  intros Hs Hi Hp Ha Hv. unfold pend_locked, add_thread_timeout.
  destruct (inv_add_to_waitq X t w s Hs Hi Hp Ha) as (H1 & Hq & Hb & Ha' & Hid).
  set (s1 := add_to_waitq_locked _ _ s) in *. unfold K_TIMEOUT_EQ.
  destruct (Z.eqb_spec timeout K_FOREVER) as [-> | Hf]; simpl; [done |].
  assert (z_is_thread_prevented_from_running (thr (z_add_thread_timeout t timeout s1) t) = true) as Hpr.
  { by apply pending_prevented. }
  apply (inv_settle _ t).
  - apply inv_add_timeout; (done || congruence).
  - rewrite ready_eq, Hpr. done.
Qed.

(** Waking: the thread leaves its wait queue and its timeout is stopped. *)
Lemma inv_unpend_abort X t w s :
  sched_inv X s -> pended_on (thr s t) = Some w ->
  let s' := (z_abort_thread_timeout t (unpend_thread_no_timeout t s)).2 in
  sched_inv ({[t]} ∪ X) s' /\ t ≠ idle_thread s'.
Proof.
  intros Hs Hp. pose proof (inv_idle_not_pended _ _ _ _ Hs Hp) as Hi.
  pose proof (inv_unpend X t w s Hs Hp) as H1.
  assert (idle_thread (unpend_thread_no_timeout t s) = idle_thread s) as Hid.
  { unfold unpend_thread_no_timeout. by rewrite Hp. }
  cbv zeta. destruct (inv_abort_timeout _ t _ H1) as [H2 _]; [congruence |].
  split; [by apply inv_twice |].
  rewrite z_abort_thread_timeout_snd. cbn [set_timeouts idle_thread]. by rewrite Hid.
Qed.

Lemma inv_head_pended X s w t :
  sched_inv X s -> z_waitq_head s w = Some t -> pended_on (thr s t) = Some w.
Proof.
  intros Hs Hh. apply (inv_waitq _ _ Hs). unfold z_waitq_head in Hh.
  destruct (waitq s w); simplify_eq/=. apply elem_of_cons. by left.
Qed.

Lemma inv_unpend_first X w s :
  sched_inv X s ->
  match z_unpend_first_thread w s with
  | (Some t, s') => sched_inv ({[t]} ∪ X) s' /\ t ≠ idle_thread s'
  | (None, s') => sched_inv X s'
  end.
Proof.
  intros Hs. unfold z_unpend_first_thread. destruct (z_waitq_head s w) as [t |] eqn:Hh; [| done].
  apply (inv_unpend_abort X t w); [done |]. by eapply inv_head_pended.
Qed.

Lemma inv_unpend_thread X t s :
  sched_inv X s -> t ≠ idle_thread s -> sched_inv ({[t]} ∪ X) (z_unpend_thread t s) /\
  idle_thread (z_unpend_thread t s) = idle_thread s.
Proof.
  intros Hs Hi. unfold z_unpend_thread, z_unpend_thread_no_timeout.
  destruct (pended_on (thr s t)) as [w |] eqn:Hp.
  - split; [by apply (inv_unpend_abort X t w) |].
    rewrite z_abort_thread_timeout_snd. unfold unpend_thread_no_timeout. by rewrite Hp.
  - split; [by apply inv_abort_timeout |]. by rewrite z_abort_thread_timeout_snd.
Qed.

(** Setting the return value of a woken thread does not touch the scheduler. *)
Lemma same_return_value s t v : same_sched s (arch_thread_return_value_set t v s).
Proof. by apply same_upd. Qed.

Lemma same_return_value_with_data s t v d :
  same_sched s (z_thread_return_value_set_with_data t v d s).
Proof. etransitivity; by apply same_upd. Qed.

(** What a [waitq_drain] body does to the head of the queue it drains. *)
Definition wakes_head (X : gset tid) (w : wqid) (body : tid -> z_kernel -> z_kernel) : Prop :=
  ∀ t s, sched_inv X s -> z_waitq_head s w = Some t ->
    sched_inv X (body t s) /\ waitq (body t s) w = tail (waitq s w).

Lemma drain_ok X w body fuel s :
  wakes_head X w body -> sched_inv X s -> (length (waitq s w) <= fuel)%nat ->
  sched_inv X (waitq_drain fuel body w s) /\ waitq (waitq_drain fuel body w s) w = [].
Proof.
  intros Hb. revert s. induction fuel as [| fuel IH]; intros s Hs Hl; simpl.
  - split; [done |]. destruct (waitq s w); simpl in *; [done | lia].
  - destruct (z_waitq_head s w) as [t |] eqn:Hh.
    + destruct (Hb t s Hs Hh) as [H1 H2]. apply IH; [done |]. rewrite H2. destruct (waitq s w); simpl in *; lia.
    + split; [done |]. unfold z_waitq_head in Hh. by destruct (waitq s w).
Qed.

End Inv.





#[export] Hint Resolve same_sched_refl same_set_cache same_set_current same_set_metairq
  same_update_cache same_do_swap same_reschedule : zkernel.
