(* ===== verification/SchedOps.v ===== *)
(** * Every scheduler operation keeps the scheduler invariant

    The public operations of kernel/sched.c, composed from the primitives of
    SchedInv.v: pending, waking, draining a wait queue, priorities, yield,
    sleep, suspend and resume, start, wake up, abort and join. *)

From Stdlib Require Import ZArith Lia Bool Btauto.
From stdpp Require Import base numbers list gmap sets.
From S2P Require Import Prelude TimeoutQ Kernel PrioQ Sched SchedInv.

Open Scope Z_scope.

Section Ops.
Context {cfg : Kconfig}.
Implicit Types (s : z_kernel) (t u : tid) (w : wqid) (X : gset tid).

(** ** What the primitives leave alone *)

Lemma waitq_update_cache b s w : waitq (update_cache b s) w = waitq s w.
Proof. apply same_waitq, same_update_cache. Qed.

Lemma idle_update_cache b s : idle_thread (update_cache b s) = idle_thread s.
Proof. apply same_idle, same_update_cache. Qed.

Lemma runq_update_cache b s : runq (update_cache b s) = runq s.
Proof. apply same_runq, same_update_cache. Qed.

Lemma threads_next_up s : threads (next_up s).2 = threads s.
Proof. destruct (next_up_state s) as [-> | ->]; done. Qed.

Lemma current_next_up s : current (next_up s).2 = current s.
Proof. destruct (next_up_state s) as [-> | ->]; done. Qed.

Lemma current_metairq t s : current (update_metairq_preempt t s) = current s.
Proof. unfold update_metairq_preempt. by repeat case_match. Qed.

Lemma threads_metairq t s : threads (update_metairq_preempt t s) = threads s.
Proof. unfold update_metairq_preempt. by repeat case_match. Qed.

Lemma thr_update_cache b s t : thr (update_cache b s) t = thr s t.
Proof.
  unfold thr, update_cache. pose proof (threads_next_up s) as H. destruct (next_up s) as [t' s1].
  simpl in H. case_match; simpl; rewrite ?threads_metairq; by rewrite H.
Qed.

Lemma current_update_cache b s : current (update_cache b s) = current s.
Proof.
  unfold update_cache. pose proof (current_next_up s) as H. destruct (next_up s) as [t' s1].
  simpl in H. case_match; simpl; rewrite ?current_metairq; by rewrite H.
Qed.

Lemma waitq_ready_thread t s w : waitq (ready_thread t s) w = waitq s w.
Proof. unfold ready_thread. case_match; [rewrite waitq_update_cache |]; done. Qed.

Lemma idle_ready_thread t s : idle_thread (ready_thread t s) = idle_thread s.
Proof. unfold ready_thread. case_match; [rewrite idle_update_cache |]; done. Qed.

Lemma current_ready_thread t s : current (ready_thread t s) = current s.
Proof. unfold ready_thread. case_match; [rewrite current_update_cache |]; done. Qed.

Lemma waitq_abort_timeout t s w : waitq (z_abort_thread_timeout t s).2 w = waitq s w.
Proof. by rewrite z_abort_thread_timeout_snd. Qed.

Lemma idle_abort_timeout t s : idle_thread (z_abort_thread_timeout t s).2 = idle_thread s.
Proof. by rewrite z_abort_thread_timeout_snd. Qed.

Lemma current_abort_timeout t s : current (z_abort_thread_timeout t s).2 = current s.
Proof. by rewrite z_abort_thread_timeout_snd. Qed.

Lemma thr_abort_timeout t s u : thr (z_abort_thread_timeout t s).2 u = thr s u.
Proof. by rewrite z_abort_thread_timeout_snd. Qed.

Lemma waitq_unpend t s w :
  waitq (unpend_thread_no_timeout t s) w =
  if decide (pended_on (thr s t) = Some w) then z_priq_dumb_remove (waitq s w) t else waitq s w.
Proof.
  unfold unpend_thread_no_timeout. change (waitq (upd_thread ?a ?b ?x) w) with (waitq x w).
  destruct (pended_on (thr s t)) as [v |]; [| by rewrite decide_False].
  rewrite waitq_upd. case_decide; case_decide; congruence.
Qed.

Lemma idle_unpend t s : idle_thread (unpend_thread_no_timeout t s) = idle_thread s.
Proof. unfold unpend_thread_no_timeout. by case_match. Qed.

Lemma current_unpend t s : current (unpend_thread_no_timeout t s) = current s.
Proof. unfold unpend_thread_no_timeout. by case_match. Qed.

Lemma current_unready t s : current (unready_thread t s) = current s.
Proof. unfold unready_thread. rewrite current_update_cache. by case_match. Qed.

Lemma current_add_to_waitq t (w : option wqid) s : current (add_to_waitq_locked t w s) = current s.
Proof.
  transitivity (current (unready_thread t s)); [| apply current_unready].
  unfold add_to_waitq_locked. by case_match.
Qed.

Lemma current_pend_locked t (w : option wqid) timeout s : current (pend_locked t w timeout s) = current s.
Proof.
  transitivity (current (add_to_waitq_locked t w s)); [| apply current_add_to_waitq].
  unfold pend_locked, add_thread_timeout. by case_match.
Qed.

(** The execution context: who runs, the idle thread, the interrupt state. *)
Definition ctx (s : z_kernel) : tid * tid * Z * bool :=
  (current s, idle_thread s, nested s, irq_unlocked s).

(** ** Waking the head of a wait queue *)

Lemma unpend_head X t w s :
  sched_inv X s -> z_waitq_head s w = Some t ->
  waitq (unpend_thread_no_timeout t s) w = tail (waitq s w).
Proof.
  intros Hs Hh. rewrite waitq_unpend, decide_True by (by eapply inv_head_pended).
  pose proof (inv_waitq_nodup _ _ Hs w) as Hnd. unfold z_waitq_head in Hh.
  destruct (waitq s w); simplify_eq/=. by apply dlist_remove_head.
Qed.

Lemma unpend_and_ready_head X w : wakes_head X w unpend_and_ready.
Proof.
  intros t s Hs Hh. unfold unpend_and_ready. cbv zeta.
  destruct (inv_unpend_abort X t w s Hs (inv_head_pended _ _ _ _ Hs Hh)) as [H1 H2].
  rewrite waitq_ready_thread, (same_waitq _ _ (same_return_value _ _ _)), waitq_abort_timeout.
  split; [| by eapply unpend_head]. apply inv_ready_thread.
  - by rewrite <- same_return_value.
  - by rewrite (same_idle _ _ (same_return_value _ _ _)).
Qed.

Lemma unpend_ready_head X w : wakes_head X w (λ t s, z_ready_thread t (z_unpend_thread t s)).
Proof.
  intros t s Hs Hh. unfold z_ready_thread. rewrite waitq_ready_thread.
  unfold z_unpend_thread, z_unpend_thread_no_timeout. rewrite (inv_head_pended _ _ _ _ Hs Hh).
  rewrite waitq_abort_timeout. split; [| by eapply unpend_head].
  apply inv_ready_thread; apply (inv_unpend_abort X t w s Hs (inv_head_pended _ _ _ _ Hs Hh)).
Qed.

Lemma sched_wake_head X w v d : wakes_head X w (λ _ s, (z_sched_wake w v d s).2).
Proof.
  intros t s Hs Hh. unfold z_sched_wake. rewrite Hh. cbn [snd]. cbv zeta.
  pose proof (same_return_value_with_data s t v d) as Hsame.
  set (s1 := z_thread_return_value_set_with_data t v d s) in *.
  assert (z_waitq_head s1 w = Some t) as Hh1 by (unfold z_waitq_head; by rewrite (same_waitq _ _ Hsame)).
  rewrite (sched_inv_proper X _ _ Hsame) in Hs.
  rewrite waitq_ready_thread, waitq_abort_timeout.
  split; [| rewrite <- (same_waitq _ _ Hsame); by eapply unpend_head].
  apply inv_ready_thread; apply (inv_unpend_abort X t w s1 Hs (inv_head_pended _ _ _ _ Hs Hh1)).
Qed.

Lemma inv_unpend_all X w s :
  sched_inv X s -> sched_inv X (unpend_all w s) /\ waitq (unpend_all w s) w = [].
Proof. intros Hs. apply drain_ok; [apply unpend_and_ready_head | done | done]. Qed.

(** ** Threads in the ready queue *)

Lemma runq_free X s t :
  sched_inv X s -> t ∈ runq s ->
  pended_on (thr s t) = None /\ active s t = false /\ t ≠ idle_thread s /\
  z_is_thread_prevented_from_running (thr s t) = false.
Proof.
  intros Hs Ht. pose proof (inv_queued_ready _ _ Hs t Ht) as Hr.
  rewrite ready_eq in Hr. apply negb_true_iff, orb_false_iff in Hr as [Hp Ha].
  split; [| split; [done | split; [| done]]].
  - destruct (pended_on (thr s t)) as [w |] eqn:E; [| done]. by apply (inv_pended_not_queued _ _ _ _ Hs) in E.
  - intros ->. by apply (inv_idle_queue _ _ Hs).
Qed.

(** Taking a thread out of the ready queue, changing what decides its place
    there, and putting it back. *)
Lemma inv_requeue X t s s1 :
  sched_inv X s -> t ∈ runq s -> same_sched (dequeue_thread t s) s1 -> sched_inv X (queue_thread t s1).
Proof.
  intros Hs Ht H1. destruct (inv_dequeue X t s Hs Ht) as [H2 H3].
  destruct (runq_free X s t Hs Ht) as (_ & _ & Hi & _). apply inv_queue.
  - by rewrite <- H1.
  - by rewrite (same_runq _ _ H1).
  - by rewrite (same_idle _ _ H1).
  - rewrite (same_ready _ _ _ H1), ready_dequeue_thread. by apply (inv_queued_ready _ _ Hs).
Qed.

Lemma inv_prio_set t p s :
  sched_inv ∅ s -> t ≠ idle_thread s -> sched_inv ∅ (z_thread_prio_set t p s).2.
Proof.
  intros Hs Hi. unfold z_thread_prio_set. destruct (z_is_thread_ready s t) eqn:Hr; simpl.
  - rewrite <- same_update_cache. apply (inv_requeue _ _ s); [done | | by apply same_upd].
    by apply (inv_ready_queued _ _ Hs).
  - rewrite <- same_upd; done.
Qed.

Lemma inv_priority_set t p s :
  sched_inv ∅ s -> t ≠ idle_thread s -> sched_inv ∅ (z_impl_k_thread_priority_set t p s).
Proof.
  intros Hs Hi. unfold z_impl_k_thread_priority_set.
  pose proof (inv_prio_set t p s Hs Hi) as H. destruct (z_thread_prio_set t p s) as [b s1]. simpl in H.
  case_match; [| done]. unfold z_reschedule_unlocked. by rewrite <- same_reschedule.
Qed.

Lemma inv_deadline_set t d c s : sched_inv ∅ s -> sched_inv ∅ (z_impl_k_thread_deadline_set t d c s).
Proof.
  intros Hs. unfold z_impl_k_thread_deadline_set. destruct (z_is_thread_queued (thr s t)) eqn:Hq.
  - apply (inv_requeue _ _ s); [done | by apply (inv_queued _ _ Hs) | by apply same_upd].
  - rewrite <- same_upd; done.
Qed.

Lemma inv_yield s : sched_inv ∅ s -> current s ∈ runq s -> sched_inv ∅ (z_impl_k_yield s).
Proof.
  intros Hs Hc. unfold z_impl_k_yield, z_swap. rewrite <- same_do_swap, <- same_update_cache.
  by apply (inv_requeue _ _ s).
Qed.

Lemma inv_sched_lock s : sched_inv ∅ s -> sched_inv ∅ (k_sched_lock s).
Proof. intros Hs. unfold k_sched_lock, z_sched_lock. rewrite <- same_upd; done. Qed.

Lemma inv_sched_unlock s : sched_inv ∅ s -> sched_inv ∅ (k_sched_unlock s).
Proof.
  intros Hs. unfold k_sched_unlock, z_reschedule_unlocked.
  rewrite <- same_reschedule, <- same_update_cache, <- same_upd; done.
Qed.

(** ** Blocking *)

Lemma inv_pend_curr w timeout s :
  sched_inv ∅ s -> current s ∈ runq s -> valid_timeout timeout -> sched_inv ∅ (z_pend_curr w timeout s).
Proof.
  intros Hs Hc Hv. destruct (runq_free _ _ _ Hs Hc) as (Hp & Ha & Hi & _).
  unfold z_pend_curr, z_swap. rewrite <- same_do_swap. by apply inv_pend_locked.
Qed.

Lemma inv_join t timeout s :
  sched_inv ∅ s -> current s ∈ runq s -> valid_timeout timeout ->
  sched_inv ∅ (z_impl_k_thread_join t timeout s).2.
Proof.
  intros Hs Hc Hv. destruct (runq_free _ _ _ Hs Hc) as (Hp & Ha & Hi & _).
  unfold z_impl_k_thread_join. repeat case_match; try done. cbn [snd]. unfold z_swap. rewrite <- same_do_swap.
  rewrite current_add_to_waitq.
  by apply inv_pend_locked.
Qed.

Lemma inv_tick_sleep ticks s :
  sched_inv ∅ s -> current s ∈ runq s -> valid_timeout ticks -> ticks ≠ K_FOREVER ->
  sched_inv ∅ (z_tick_sleep ticks s).2.
Proof.
  intros Hs Hc Hv Hf. unfold z_tick_sleep. case_match; [by apply inv_yield |]. cbv zeta. cbn [snd].
  unfold z_swap. rewrite <- same_do_swap.
  destruct (runq_free _ _ _ Hs Hc) as (Hp & Ha & Hi & _).
  destruct (inv_unready ∅ (current s) s Hs) as (H1 & H2 & H3 & H4 & H5).
  set (s1 := unready_thread (current s) s) in *.
  assert (current s1 = current s) as Hcur by apply current_unready.
  change (current (z_add_thread_timeout ?a ?b s1)) with (current s1). rewrite Hcur.
  apply (inv_settle _ (current s)).
  - apply inv_twice, inv_upd_state; try done; [| by rewrite <- H5 in Hi | state_bits | ].
    + apply inv_twice, inv_add_timeout; try done; congruence.
    + intros w. change (thr (z_add_thread_timeout ?a ?b s1) ?c) with (thr s1 c). congruence.
  - rewrite ready_eq, thr_upd_eq. state_bits. rewrite !orb_true_r. done.
Qed.

(** ** Threads an operation does not touch *)

Lemma thr_ready_thread_ne t u s : t ≠ u -> thr (ready_thread t s) u = thr s u.
Proof.
  intros Hne. unfold ready_thread. case_match; [| done].
  by rewrite thr_update_cache, thr_queue_thread, decide_False.
Qed.

Lemma elem_ready_thread_ne t u s : t ≠ u -> u ∈ runq (ready_thread t s) <-> u ∈ runq s.
Proof.
  intros Hne. unfold ready_thread. case_match; [| done].
  rewrite runq_update_cache, elem_queue_thread. naive_solver.
Qed.

Lemma runq_unpend t s : runq (unpend_thread_no_timeout t s) = runq s.
Proof. unfold unpend_thread_no_timeout. by case_match. Qed.

Lemma runq_abort_timeout t s : runq (z_abort_thread_timeout t s).2 = runq s.
Proof. by rewrite z_abort_thread_timeout_snd. Qed.

Lemma thr_unpend t s u :
  thr (unpend_thread_no_timeout t s) u =
  if decide (t = u) then set_pended_on None (z_mark_thread_as_not_pending (thr s t)) else thr s u.
Proof.
  unfold unpend_thread_no_timeout. rewrite thr_upd.
  destruct (pended_on (thr s t)); change (thr (upd_waitq ?a ?b s)) with (thr s); done.
Qed.

Lemma drain_frame fuel w u s :
  sched_inv ∅ s -> pended_on (thr s u) = None ->
  thr (waitq_drain fuel unpend_and_ready w s) u = thr s u /\
  (u ∈ runq (waitq_drain fuel unpend_and_ready w s) <-> u ∈ runq s).
Proof.
  revert s. induction fuel as [| fuel IH]; intros s Hs Hp; simpl; [done |].
  destruct (z_waitq_head s w) as [t |] eqn:Hh; [| done].
  assert (t ≠ u) as Hne.
  { intros ->. rewrite (inv_head_pended _ _ _ _ Hs Hh) in Hp. done. }
  destruct (unpend_and_ready_head ∅ w t s Hs Hh) as [H1 _].
  assert (thr (unpend_and_ready t s) u = thr s u) as Ht.
  { unfold unpend_and_ready, arch_thread_return_value_set. cbv zeta.
    rewrite thr_ready_thread_ne, thr_upd_ne, thr_abort_timeout, thr_unpend by done.
    by rewrite decide_False. }
  destruct (IH _ H1) as [E1 E2]; [by rewrite Ht |]. rewrite E1, E2, Ht. split; [done |].
  unfold unpend_and_ready. cbv zeta. rewrite elem_ready_thread_ne by done.
  rewrite (same_runq _ _ (same_return_value _ _ _)), runq_abort_timeout, runq_unpend. done.
Qed.

(** ** Wake up, resume, start *)

Lemma inv_update_ready t f s :
  sched_inv {[t]} s -> t ∉ runq s -> t ≠ idle_thread s ->
  z_is_thread_queued (f (thr s t)) = z_is_thread_queued (thr s t) ->
  pended_on (f (thr s t)) = pended_on (thr s t) ->
  z_is_thread_pending (f (thr s t)) = z_is_thread_pending (thr s t) ->
  sched_inv ∅ (ready_thread t (upd_thread t f s)).
Proof.
  intros Hs Ht Hi Hq Hp Hpend. apply inv_ready_thread; [| done].
  replace ({[t]} ∪ ∅) with ({[t]} ∪ {[t]} : gset tid) by set_solver.
  apply inv_upd_state; try done. intros w Hw. rewrite Hpend. by apply (inv_pended _ _ Hs _ w).
Qed.

Lemma inv_single t s : sched_inv ∅ s -> sched_inv {[t]} s.
Proof. apply inv_weaken. set_solver. Qed.

Lemma inv_dup t s : sched_inv ({[t]} ∪ {[t]}) s -> sched_inv {[t]} s.
Proof. apply inv_weaken. set_solver. Qed.

Lemma inv_resume t s :
  sched_inv ∅ s -> t ≠ idle_thread s -> sched_inv ∅ (z_impl_k_thread_resume t s).
Proof.
  intros Hs Hi. unfold z_impl_k_thread_resume. destruct (z_is_thread_suspended _) eqn:E; [| done]. simpl.
  rewrite <- same_reschedule. apply inv_update_ready; try done; [by apply inv_single | | state_bits | state_bits].
  intros Hr. destruct (runq_free _ _ _ Hs Hr) as (_ & _ & _ & Hp). rewrite prevented_bits in Hp.
  unfold z_is_thread_suspended in E. state_bits. rewrite E in Hp. by rewrite !orb_true_r in Hp.
Qed.

Lemma inv_start t s :
  sched_inv ∅ s -> t ≠ idle_thread s -> sched_inv ∅ (z_sched_start t s).
Proof.
  intros Hs Hi. unfold z_sched_start. destruct (z_has_thread_started _) eqn:E; [done |].
  rewrite <- same_reschedule. apply inv_update_ready; try done; [by apply inv_single | | state_bits | state_bits].
  intros Hr. destruct (runq_free _ _ _ Hs Hr) as (_ & _ & _ & Hp). rewrite prevented_bits in Hp.
  unfold z_has_thread_started in E. apply negb_false_iff in E. state_bits. rewrite E in Hp.
  by rewrite !orb_true_r in Hp.
Qed.

(** A thread whose timeout is armed, or that a state bit keeps from running,
    is in no ready queue. *)
Lemma active_not_queued X s t : sched_inv X s -> active s t = true -> t ∉ runq s.
Proof. intros Hs Ha Ht. destruct (runq_free _ _ _ Hs Ht) as (_ & Ha' & _). congruence. Qed.

Lemma prevented_not_queued X s t :
  sched_inv X s -> z_is_thread_prevented_from_running (thr s t) = true -> t ∉ runq s.
Proof. intros Hs Ha Ht. destruct (runq_free _ _ _ Hs Ht) as (_ & _ & _ & Hp). congruence. Qed.

Lemma suspended_prevented (x : k_thread) :
  z_is_thread_suspended x = true -> z_is_thread_prevented_from_running x = true.
Proof. unfold z_is_thread_suspended. intros E. state_bits. rewrite E. by rewrite !orb_true_r. Qed.

Lemma abort_timeout_ret t s :
  (z_abort_thread_timeout t s).1 = if active s t then 0 else - EINVAL.
Proof. unfold z_abort_thread_timeout, z_abort_timeout, active. by destruct (is_linked _ _). Qed.

Lemma abort_timeout_inactive t s : active s t = false -> (z_abort_thread_timeout t s).2 = s.
Proof.
  unfold z_abort_thread_timeout, z_abort_timeout, active. intros ->. simpl. by destruct s.
Qed.

Lemma inv_wakeup t s :
  sched_inv ∅ s -> t ≠ idle_thread s -> sched_inv ∅ (z_impl_k_wakeup t s).
Proof.
  intros Hs Hi. unfold z_impl_k_wakeup. destruct (z_is_thread_pending _) eqn:Hpend; [done |].
  pose proof (abort_timeout_ret t s) as Hret. pose proof (abort_timeout_inactive t s) as Hin.
  pose proof (proj1 (inv_abort_timeout ∅ t s Hs Hi)) as H1.
  pose proof (thr_abort_timeout t s) as Hthr. pose proof (idle_abort_timeout t s) as Hid.
  pose proof (runq_abort_timeout t s) as Hrq.
  destruct (z_abort_thread_timeout t s) as [ret s1]. cbn [fst snd] in *.
  destruct ((ret <? 0) && _) eqn:Hc.
  { destruct (active s t); [subst ret; done |]. by rewrite Hin. }
  assert (t ∉ runq s1) as Hq.
  { rewrite Hrq. destruct (active s t) eqn:Ha; [by apply (active_not_queued ∅) |].
    apply (prevented_not_queued ∅); [done |]. apply suspended_prevented. subst ret.
    rewrite Hthr in Hc. cbn in Hc. apply negb_false_iff, Z.eqb_eq in Hc.
    unfold z_is_thread_suspended. by rewrite Hc. }
  assert (sched_inv ∅ (ready_thread t (upd_thread t z_mark_thread_as_not_suspended s1))).
  { apply inv_update_ready; try done; [| congruence | state_bits | state_bits].
    by replace ({[t]} : gset tid) with ({[t]} ∪ ∅ : gset tid) by set_solver. }
  destruct (arch_is_in_isr _); [done |]. by rewrite <- same_reschedule.
Qed.

(** Timeout expiry and explicit wake.  The thread is in no ready queue; a wake
    that does nothing must not have made it runnable. *)
Lemma inv_wake_thread t is_timeout s :
  sched_inv {[t]} s -> t ∉ runq s -> t ≠ idle_thread s ->
  (is_timeout = true -> no_wake_on_timeout (thr s t) = true ->
   z_is_thread_prevented_from_running (thr s t) = true) ->
  (is_aborting (thr s t) = true -> z_is_thread_prevented_from_running (thr s t) = true) ->
  sched_inv ∅ (z_sched_wake_thread t is_timeout s).
Proof.
  intros Hs Ht Hi Hno Hab. unfold z_sched_wake_thread.
  set (killed := flag_any _ _). set (s1 := upd_thread t (set_no_wake_on_timeout false) s).
  assert (same_sched s s1) as H1 by (by apply same_upd).
  assert (thr s1 t = set_no_wake_on_timeout false (thr s t)) as Hthr by apply thr_upd_eq.
  rewrite (sched_inv_proper _ _ _ H1) in Hs. cbv zeta.
  assert (z_is_thread_prevented_from_running (thr s t) = true -> sched_inv ∅ s1) as Hsettle.
  { intros Hp. apply (inv_settle _ t); [apply (inv_weaken {[t]}); [set_solver | done] |].
    rewrite ready_eq, Hthr, (prevented_state _ (thr s t)) by done. by rewrite Hp. }
  destruct (no_wake_on_timeout _ && is_timeout) eqn:Hn.
  { apply andb_true_iff in Hn as [Hn1 Hn2]. auto. }
  destruct killed eqn:Hk; simpl.
  { apply Hsettle. unfold killed in Hk. rewrite flag_any_lor in Hk by done. apply orb_true_iff in Hk as [Hk | Hk].
    - unfold _THREAD_DEAD in Hk. state_bits. rewrite Hk. by rewrite !orb_true_r.
    - auto. }
  set (s2 := match pended_on (thr s1 t) with Some _ => _ | None => _ end).
  assert (sched_inv {[t]} s2 /\ (t ∉ runq s2) /\ t ≠ idle_thread s2) as (H2 & Hq2 & Hi2).
  { unfold s2. destruct (pended_on (thr s1 t)) as [w |] eqn:Hp; [| done].
    rewrite runq_unpend, idle_unpend. split; [| done].
    by apply inv_dup, (inv_unpend _ t w). }
  destruct is_timeout; [| apply inv_update_ready; try done; state_bits].
  apply inv_update_ready; try done; [| rewrite thr_upd_eq; state_bits | rewrite thr_upd_eq; state_bits].
  apply inv_dup,  inv_upd_state; try done; [state_bits |].
  intros w Hw. pose proof (inv_pended _ _ H2 t w Hw). state_bits. by rewrite andb_true_r.
Qed.

(** ** Suspend and abort *)

Lemma upd_upd t f g s : upd_thread t f (upd_thread t g s) = upd_thread t (λ x, f (g x)) s.
Proof.
  unfold upd_thread, set_threads. cbn. unfold thr. cbn. by rewrite lookup_total_insert_eq, insert_insert_eq.
Qed.

Lemma mark_unmark_comm j k x :
  0 <= j -> 0 <= k -> j ≠ k ->
  unmark_state (BIT j) (mark_state (BIT k) x) = mark_state (BIT k) (unmark_state (BIT j) x).
Proof.
  intros Hj Hk Hne. unfold unmark_state, mark_state. cbn [thread_state set_thread_state].
  assert (flag_clear (flag_set (thread_state x) (BIT k)) (BIT j) =
          flag_set (flag_clear (thread_state x) (BIT j)) (BIT k)) as E; [| by rewrite E].
  apply Z.bits_inj'. intros i Hi. autorewrite with bits; try lia.
  destruct (Z.eqb_spec j i), (Z.eqb_spec k i); subst; try lia; btauto.
Qed.

Lemma dequeue_mark t k s :
  0 <= k -> k ≠ 7 ->
  dequeue_thread t (upd_thread t (mark_state (BIT k)) s) =
  upd_thread t (mark_state (BIT k)) (dequeue_thread t s).
Proof.
  intros Hk Hne. unfold dequeue_thread, runq_remove. rewrite upd_upd.
  change (upd_thread t ?f (set_runq ?q ?x)) with (set_runq q (upd_thread t f x)). rewrite upd_upd.
  f_equal. unfold upd_thread. f_equal. f_equal. by apply mark_unmark_comm.
Qed.

(** Marking a thread dead or suspended and taking it off the ready queue. *)
Lemma inv_mark_halted k t s :
  k = 3 \/ k = 4 -> sched_inv {[t]} s -> t ≠ idle_thread s ->
  let s1 := upd_thread t (mark_state (BIT k)) s in
  let s2 := if z_is_thread_queued (thr s1 t) then dequeue_thread t s1 else s1 in
  sched_inv {[t]} s2 /\ (t ∉ runq s2) /\ Z.testbit (thread_state (thr s2 t)) k = true /\
  ctx s2 = ctx s /\ (∀ u, u ≠ t -> thr s2 u = thr s u /\ (u ∈ runq s2 <-> u ∈ runq s)).
Proof.
  intros Hk Hs Hi. cbv zeta.
  assert (∀ s', sched_inv {[t]} s' -> t ∉ runq s' -> t ≠ idle_thread s' ->
    sched_inv {[t]} (upd_thread t (mark_state (BIT k)) s')) as Hupd.
  { intros s' Hs' Ht' Hi'. apply inv_dup.
    destruct Hk; subst; (apply inv_upd_state; try done; [state_bits |]);
      intros w Hw; pose proof (inv_pended _ _ Hs' t w Hw); state_bits; by rewrite orb_false_r. }
  assert (∀ s', Z.testbit (thread_state (thr (upd_thread t (mark_state (BIT k)) s') t)) k = true) as Hbit.
  { intros s'. rewrite thr_upd_eq, mark_state_bit by (destruct Hk; lia). rewrite Z.eqb_refl. btauto. }
  assert (z_is_thread_queued (thr (upd_thread t (mark_state (BIT k)) s) t) = z_is_thread_queued (thr s t)) as ->.
  { rewrite thr_upd_eq. destruct Hk; subst; state_bits. }
  destruct (z_is_thread_queued (thr s t)) eqn:Hq.
  - apply (inv_queued _ _ Hs) in Hq. rewrite dequeue_mark by (destruct Hk; lia).
    destruct (inv_dequeue _ t s Hs Hq) as [H1 H2].
    split; [apply Hupd; [by apply inv_dup | done | done] |]. do 3 (split; [done |]). intros u Hu.
    rewrite thr_upd_ne, thr_dequeue_thread, decide_False by done. split; [done |].
    change (runq (upd_thread ?a ?b ?x)) with (runq x). rewrite elem_dequeue_thread. tauto.
  - assert (t ∉ runq s) by (rewrite <- (inv_queued _ _ Hs); congruence). split; [by apply Hupd |].
    do 3 (split; [done |]). intros u Hu. by rewrite thr_upd_ne.
Qed.

Lemma bit_prevented k x :
  k = 3 \/ k = 4 -> Z.testbit (thread_state x) k = true -> z_is_thread_prevented_from_running x = true.
Proof. rewrite prevented_bits. intros [-> | ->] ->; by rewrite ?orb_true_r. Qed.

Lemma inv_settle_single t s :
  sched_inv {[t]} s -> z_is_thread_prevented_from_running (thr s t) = true -> sched_inv ∅ s.
Proof.
  intros Hs Hp. apply (inv_settle _ t); [apply (inv_weaken {[t]}); [set_solver | done] |].
  rewrite ready_eq, Hp. done.
Qed.

(** What the death of a thread does to the rest of the system: it leaves its
    wait queue, its timeout stops and the threads joining it are woken. *)
Definition bury (t : tid) (s : z_kernel) : z_kernel :=
  let s := match pended_on (thr s t) with
           | Some _ => unpend_thread_no_timeout t s
           | None => s
           end in
  unpend_all (join_queue t) (z_abort_thread_timeout t s).2.

Lemma inv_bury t s :
  sched_inv {[t]} s -> t ∉ runq s -> t ≠ idle_thread s -> Z.testbit (thread_state (thr s t)) 3 = true ->
  sched_inv ∅ (bury t s) /\ (t ∉ runq (bury t s)) /\
  Z.testbit (thread_state (thr (bury t s) t)) 3 = true /\
  (∀ u, u ≠ t -> pended_on (thr s u) = None -> thr (bury t s) u = thr s u /\ (u ∈ runq (bury t s) <-> u ∈ runq s)).
Proof.
  intros Hs Ht Hi Hd. unfold bury. cbv zeta.
  set (s1 := match pended_on (thr s t) with Some _ => _ | None => _ end).
  assert (sched_inv {[t]} s1 /\ runq s1 = runq s /\ idle_thread s1 = idle_thread s /\
    pended_on (thr s1 t) = None /\ Z.testbit (thread_state (thr s1 t)) 3 = true /\
    (∀ u, u ≠ t -> thr s1 u = thr s u)) as (H1 & Hr1 & Hi1 & Hp1 & Hd1 & Hu1).
  { unfold s1. destruct (pended_on (thr s t)) as [w |] eqn:Hp; [| done].
    split; [by apply inv_dup, (inv_unpend _ t w) |].
    rewrite runq_unpend, idle_unpend, thr_unpend, decide_True by done. do 3 (split; [done |]). split.
    - cbn [thread_state set_pended_on]. state_bits. by rewrite Hd.
    - intros u Hu. rewrite thr_unpend, decide_False by done. done. }
  destruct (inv_abort_timeout _ t s1 H1) as [H2 _]; [congruence |].
  set (s2 := (z_abort_thread_timeout t s1).2) in *.
  assert (sched_inv ∅ s2) as H3.
  { apply (inv_settle_single t); [by apply inv_dup |].
    unfold s2. rewrite thr_abort_timeout. apply (bit_prevented 3); auto. }
  assert (∀ u, thr s2 u = thr s1 u) as Ht2 by apply thr_abort_timeout.
  assert (runq s2 = runq s) as Hr2 by (unfold s2; rewrite runq_abort_timeout; done).
  split; [by apply inv_unpend_all |]. unfold unpend_all.
  destruct (drain_frame (length (waitq s2 (join_queue t))) (join_queue t) t s2 H3) as [E1 E2];
    [by rewrite Ht2 |].
  rewrite E1, E2, Hr2, Ht2. split; [done |]. split; [done |]. intros u Hu Hpu. rewrite <- Hr2, <- Hu1, <- Ht2 by done.
  apply drain_frame; [done |]. rewrite Ht2, Hu1; done.
Qed.

(** The dummy thread that takes over when an interrupt handler aborts the
    current thread is scheduled by nobody. *)
Definition dummy_free (s : z_kernel) : Prop :=
  dummy_tid ≠ idle_thread s /\ (dummy_tid ∉ runq s) /\ pended_on (thr s dummy_tid) = None.

Lemma inv_dummy_init s : sched_inv ∅ s -> dummy_free s -> sched_inv ∅ (z_dummy_thread_init s).
Proof.
  intros Hs (Hi & Hq & Hp). unfold z_dummy_thread_init. rewrite <- same_set_current.
  set (f := λ x, set_user_options K_ESSENTIAL (set_thread_state _THREAD_DUMMY x)).
  apply (inv_settle_single dummy_tid).
  - apply inv_dup, inv_upd_state; try done; [by apply inv_single | | congruence].
    by rewrite (inv_not_queued _ _ _ Hs Hq).
  - by rewrite thr_upd_eq.
Qed.

Lemma clear_halting_bit i x :
  0 <= i -> i ≠ 5 -> i ≠ 6 -> Z.testbit (thread_state (clear_halting x)) i = Z.testbit (thread_state x) i.
Proof.
  intros. unfold clear_halting, unmark_state, flag_clear, _THREAD_ABORTING, _THREAD_SUSPENDING.
  cbn [thread_state set_thread_state]. rewrite Z.land_spec, Z.lnot_spec, Z.lor_spec, !BIT_testbit by lia.
  destruct (Z.eqb_spec 5 i), (Z.eqb_spec 6 i); try lia. btauto.
Qed.

Lemma inv_clear_halting t s :
  sched_inv ∅ s -> t ∉ runq s -> t ≠ idle_thread s ->
  z_is_thread_prevented_from_running (thr s t) = true ->
  sched_inv ∅ (upd_thread t clear_halting s).
Proof.
  intros Hs Hq Hi Hp. apply (inv_settle_single t).
  - apply inv_dup, inv_upd_state; try done; [by apply inv_single | |].
    + rewrite !queued_bit. by apply clear_halting_bit.
    + intros w Hw. rewrite pending_bit, clear_halting_bit, <- pending_bit by done. by apply (inv_pended _ _ Hs _ w).
  - rewrite thr_upd_eq, prevented_bits, !clear_halting_bit, <- prevented_bits by done. done.
Qed.

Lemma ctx_update_cache b s : ctx (update_cache b s) = ctx s.
Proof.
  unfold update_cache. destruct (next_up_state s) as [E | E];
    destruct (next_up s) as [t' s1]; simpl in E; subst; unfold update_metairq_preempt; by repeat case_match.
Qed.

Lemma ctx_ready_thread t s : ctx (ready_thread t s) = ctx s.
Proof. unfold ready_thread. case_match; [by rewrite ctx_update_cache | done]. Qed.

Lemma ctx_abort_timeout t s : ctx (z_abort_thread_timeout t s).2 = ctx s.
Proof. by rewrite z_abort_thread_timeout_snd. Qed.

Lemma ctx_unpend t s : ctx (unpend_thread_no_timeout t s) = ctx s.
Proof. unfold unpend_thread_no_timeout. by case_match. Qed.

Lemma ctx_drain fuel w s : ctx (waitq_drain fuel unpend_and_ready w s) = ctx s.
Proof.
  revert s. induction fuel as [| fuel IH]; intros s; simpl; [done |]. case_match; [| done].
  rewrite IH. unfold unpend_and_ready. cbv zeta. rewrite ctx_ready_thread.
  etransitivity; [| apply ctx_unpend]. etransitivity; [| apply ctx_abort_timeout]. done.
Qed.

Lemma ctx_bury t s : ctx (bury t s) = ctx s.
Proof.
  unfold bury, unpend_all. cbv zeta. rewrite ctx_drain, ctx_abort_timeout. case_match; [| done].
  apply ctx_unpend.
Qed.

Lemma ctx_eq s s' :
  ctx s = ctx s' ->
  current s = current s' /\ idle_thread s = idle_thread s' /\ arch_is_in_isr s = arch_is_in_isr s'.
Proof. unfold ctx, arch_is_in_isr. intros [= -> -> -> _]. done. Qed.

Lemma inv_halt_suspend t s :
  sched_inv {[t]} s -> t ≠ idle_thread s -> sched_inv ∅ (halt_thread t _THREAD_SUSPENDED s).
Proof.
  intros Hs Hi. unfold halt_thread. destruct (Z.land _ _ =? 0) eqn:E.
  - destruct (inv_mark_halted 4 t s (or_intror eq_refl) Hs Hi) as (H1 & Hq & Hb & Hid & _).
    change (_THREAD_SUSPENDED =? _THREAD_DEAD) with false. rewrite Z.eqb_refl. cbv zeta.
    change (mark_state _THREAD_SUSPENDED) with (mark_state (BIT 4)).
    set (s2 := if z_is_thread_queued _ then _ else _) in *.
    assert (z_is_thread_prevented_from_running (thr s2 t) = true) by (apply (bit_prevented 4); auto).
    apply ctx_eq in Hid as (_ & Hid & _).
    apply inv_clear_halting; rewrite ?runq_update_cache, ?idle_update_cache, ?thr_update_cache; try done;
      [| congruence].
    rewrite <- same_update_cache. by apply (inv_settle_single t).
  - apply (inv_settle_single t); [done |]. apply suspended_prevented. unfold z_is_thread_suspended, flag_any.
    by rewrite E.
Qed.

Lemma inv_halt_dead t s :
  sched_inv {[t]} s -> t ≠ idle_thread s ->
  (t = current s -> arch_is_in_isr s = true -> dummy_free s /\ t ≠ dummy_tid) ->
  sched_inv ∅ (halt_thread t _THREAD_DEAD s).
Proof.
  intros Hs Hi Hdum. unfold halt_thread. destruct (Z.land _ _ =? 0) eqn:E.
  2: { apply (inv_settle_single t); [done |]. apply (bit_prevented 3); [auto |].
       assert (flag_any (thread_state (thr s t)) (BIT 3) = true) as Ef by (unfold flag_any; change (BIT 3) with _THREAD_DEAD; by rewrite E).
       by rewrite flag_any_BIT in Ef. }
  destruct (inv_mark_halted 3 t s (or_introl eq_refl) Hs Hi) as (H1 & Hq & Hb & Hid & Hne).
  cbv zeta. rewrite Z.eqb_refl. change (_THREAD_DEAD =? _THREAD_SUSPENDED) with false.
  change (mark_state _THREAD_DEAD) with (mark_state (BIT 3)).
  set (s2 := if z_is_thread_queued _ then _ else _) in *.
  change (unpend_all (join_queue t) _) with (bury t s2).
  destruct (inv_bury t s2 H1 Hq) as (H3 & Hq3 & Hb3 & Hu3); [by apply ctx_eq in Hid as (_ & -> & _) | done |].
  set (s3 := bury t s2) in *. set (s4 := update_cache true s3).
  assert (ctx s3 = ctx s) as (Hc3 & Hi3 & Hn3)%ctx_eq by (unfold s3; rewrite ctx_bury; exact Hid).
  assert (sched_inv ∅ s4) as H4 by (unfold s4; by rewrite <- same_update_cache).
  assert (t ∉ runq s4) as Hq4 by (unfold s4; by rewrite runq_update_cache).
  assert (∀ u, thr s4 u = thr s3 u) as Ht4 by apply thr_update_cache.
  assert (idle_thread s4 = idle_thread s) as Hi4 by (unfold s4; rewrite idle_update_cache; done).
  destruct (true && _ && _) eqn:Hd.
  - apply andb_true_iff in Hd as [Hd1 Hd2]. apply bool_decide_eq_true in Hd1.
    destruct Hdum as [(D1 & D2 & D3) D4]; [congruence | congruence |].
    destruct (Hne dummy_tid) as [N1 N2]; [done |].
    destruct (Hu3 dummy_tid) as [D5 D6]; [done | by rewrite N1 |].
    apply inv_clear_halting; try done.
    + apply inv_dummy_init; [done |]. split; [congruence |]. rewrite Ht4, D5, N1.
      split; [| done]. unfold s4. by rewrite runq_update_cache, D6, N2.
    + simpl. congruence.
    + unfold z_dummy_thread_init. change (thr (set_current ?a ?b) t) with (thr b t).
      rewrite thr_upd_ne, Ht4 by done. apply (bit_prevented 3); auto.
  - apply inv_clear_halting; try done; [congruence |]. rewrite Ht4. apply (bit_prevented 3); auto.
Qed.

Lemma inv_suspend t s :
  sched_inv ∅ s -> t ≠ idle_thread s -> sched_inv ∅ (z_impl_k_thread_suspend t s).
Proof.
  intros Hs Hi. unfold z_impl_k_thread_suspend, z_thread_halt. cbv zeta.
  destruct (inv_abort_timeout ∅ t s Hs Hi) as [H1 _].
  set (s1 := (z_abort_thread_timeout t s).2) in *.
  assert (sched_inv {[t]} s1) as H2 by (apply (inv_weaken ({[t]} ∪ ∅)); [set_solver | done]).
  destruct (z_is_thread_suspended (thr s1 t)) eqn:E.
  - apply (inv_settle_single t); [done |]. by apply suspended_prevented.
  - assert (sched_inv ∅ (halt_thread t _THREAD_SUSPENDED s1)) as H3.
    { apply inv_halt_suspend; [done |]. unfold s1. by rewrite idle_abort_timeout. }
    destruct (_ && _); [unfold z_swap; by rewrite <- same_do_swap | done].
Qed.

Lemma inv_abort t s s' :
  sched_inv ∅ s -> t ≠ idle_thread s ->
  (t = current s -> arch_is_in_isr s = true -> dummy_free s /\ t ≠ dummy_tid) ->
  z_thread_abort t s = Some s' -> sched_inv ∅ s'.
Proof.
  intros Hs Hi Hd. unfold z_thread_abort, z_thread_halt. cbv zeta.
  destruct (z_is_thread_essential _); [done |]. destruct (flag_any _ _); intros [= <-]; [done |].
  assert (sched_inv ∅ (halt_thread t _THREAD_DEAD s)) as H3 by (apply inv_halt_dead; auto using inv_single).
  destruct (_ && _); [unfold z_swap; by rewrite <- same_do_swap | done].
Qed.

(** ** Waking from a wait queue *)

Lemma inv_sched_wake w v d s : sched_inv ∅ s -> sched_inv ∅ (z_sched_wake w v d s).2.
Proof.
  intros Hs. destruct (z_waitq_head s w) as [t |] eqn:Hh.
  - by apply (sched_wake_head ∅ w v d t s Hs Hh).
  - unfold z_sched_wake. by rewrite Hh.
Qed.

Lemma inv_sched_wake_all w v d s :
  sched_inv ∅ s ->
  sched_inv ∅ (z_sched_wake_all w v d s).2 /\ waitq (z_sched_wake_all w v d s).2 w = [].
Proof. intros Hs. apply drain_ok; [apply sched_wake_head | done | done]. Qed.

Lemma inv_z_unpend_all w s :
  sched_inv ∅ s -> sched_inv ∅ (z_unpend_all w s).2 /\ waitq (z_unpend_all w s).2 w = [].
Proof. intros Hs. apply drain_ok; [apply unpend_ready_head | done | done]. Qed.

End Ops.
