(* ===== verification/Dispatch.v ===== *)
(** * Who runs next

    The ready queue stays sorted by rank through every operation of the
    scheduler, so the thread a context switch picks is one that no ready
    thread outranks; a cooperative thread keeps the CPU when it readies
    others, and a preemptible one is switched out for a thread that outranks
    it.  The ranking is by priority: [SCHED_DEADLINE] is off in this file. *)

From Stdlib Require Import ZArith Lia Bool Btauto Sorted.
From stdpp Require Import base numbers list gmap sets.
From S2P Require Import Prelude TimeoutQ Kernel PrioQ Sched SchedInv SchedOps.

Open Scope Z_scope.

Section Dispatch.
Context {cfg : Kconfig}.
Hypothesis no_deadline : SCHED_DEADLINE = false.
Implicit Types (s : z_kernel) (t u : tid) (w : wqid) (X : gset tid).

Definition runq_sorted (s : z_kernel) : Prop :=
  StronglySorted (λ a b, prio (thr s a) <= prio (thr s b)) (runq s).

Lemma prio_cmp_no_deadline (x y : k_thread) : z_sched_prio_cmp x y > 0 <-> prio x < prio y.
Proof.
  unfold z_sched_prio_cmp. rewrite no_deadline. destruct (Z.eqb_spec (prio x) (prio y)); simpl; lia.
Qed.

(** ** Sortedness, primitive by primitive *)

Lemma sorted_frame s s' :
  runq s' = runq s -> (∀ u, u ∈ runq s -> prio (thr s' u) = prio (thr s u)) ->
  runq_sorted s -> runq_sorted s'.
Proof.
  unfold runq_sorted. intros -> Hp Hs. induction Hs as [| a l Hs IH Hf]; constructor.
  - apply IH. intros u Hu. apply Hp. by apply elem_of_cons; right.
  - rewrite Forall_forall in *. intros b Hb. rewrite !Hp by (apply elem_of_cons; auto). by apply Hf.
Qed.

Lemma sorted_upd t f s : (∀ x, prio (f x) = prio x) -> runq_sorted s -> runq_sorted (upd_thread t f s).
Proof. intros Hf. apply sorted_frame; [done |]. intros u _. rewrite thr_upd. case_decide; by subst. Qed.

Lemma sorted_upd_other t f s : t ∉ runq s -> runq_sorted s -> runq_sorted (upd_thread t f s).
Proof. intros Ht. apply sorted_frame; [done |]. intros u Hu. rewrite thr_upd_ne; [done |]. by intros ->. Qed.

Lemma sorted_add th l t :
  StronglySorted (λ a b, prio (th a) <= prio (th b)) l ->
  StronglySorted (λ a b, prio (th a) <= prio (th b)) (z_priq_dumb_add th l t).
Proof.
  induction 1 as [| u l Hs IH Hf]; simpl; [by repeat constructor |].
  destruct (Z.gtb_spec (z_sched_prio_cmp (th t) (th u)) 0) as [Hc | Hc].
  - apply Z.lt_gt, prio_cmp_no_deadline in Hc. constructor; [by constructor |].
    constructor; [lia |]. eapply Forall_impl; [exact Hf |]. simpl. lia.
  - constructor; [done |]. rewrite Forall_forall in *. intros v Hv%dumb_add_elem.
    destruct Hv as [-> | Hv]; [| by apply Hf]. pose proof (prio_cmp_no_deadline (th t) (th u)). lia.
Qed.

Lemma sorted_queue t s : runq_sorted s -> runq_sorted (queue_thread t s).
Proof.
  intros Hs. unfold queue_thread, runq_add. apply (sorted_upd t (mark_state _THREAD_QUEUED)) in Hs; [| done].
  by apply sorted_add.
Qed.

Lemma sorted_dequeue t s : runq_sorted s -> runq_sorted (dequeue_thread t s).
Proof.
  intros Hs. apply (sorted_upd t (unmark_state _THREAD_QUEUED)) in Hs; [| done].
  by apply dlist_remove_sorted.
Qed.

Lemma sorted_update_cache b s : runq_sorted s -> runq_sorted (update_cache b s).
Proof. apply sorted_frame; [apply runq_update_cache |]. intros u _. by rewrite thr_update_cache. Qed.

Lemma sorted_do_swap s : runq_sorted s -> runq_sorted (do_swap s).
Proof.
  intros Hs. apply (sorted_upd (current s) (set_swap_retval (- EAGAIN))) in Hs; [| done].
  unfold do_swap. cbv zeta. by case_match.
Qed.

Lemma sorted_reschedule s : runq_sorted s -> runq_sorted (z_reschedule s).
Proof. intros. unfold z_reschedule. case_match; [by apply sorted_do_swap | done]. Qed.

Lemma sorted_timeouts q s : runq_sorted s -> runq_sorted (set_timeouts q s).
Proof. done. Qed.

Lemma sorted_waitq w f s : runq_sorted s -> runq_sorted (upd_waitq w f s).
Proof. done. Qed.

Lemma sorted_ready_thread t s : runq_sorted s -> runq_sorted (ready_thread t s).
Proof. intros. unfold ready_thread. case_match; [by apply sorted_update_cache, sorted_queue | done]. Qed.

Lemma sorted_unready t s : runq_sorted s -> runq_sorted (unready_thread t s).
Proof.
  intros. unfold unready_thread. apply sorted_update_cache. case_match; [by apply sorted_dequeue | done].
Qed.

Lemma sorted_abort_timeout t s : runq_sorted s -> runq_sorted (z_abort_thread_timeout t s).2.
Proof. by rewrite z_abort_thread_timeout_snd. Qed.

Lemma sorted_unpend t s : runq_sorted s -> runq_sorted (unpend_thread_no_timeout t s).
Proof. intros. unfold unpend_thread_no_timeout. apply sorted_upd; [done |]. by case_match. Qed.

Lemma sorted_drain fuel body w s :
  (∀ t s', runq_sorted s' -> runq_sorted (body t s')) -> runq_sorted s -> runq_sorted (waitq_drain fuel body w s).
Proof. intros Hb. revert s. induction fuel as [| fuel IH]; intros s Hs; simpl; [done |]. case_match; auto. Qed.

#[local] Hint Resolve sorted_queue sorted_dequeue sorted_update_cache sorted_do_swap sorted_reschedule
  sorted_timeouts sorted_waitq sorted_ready_thread sorted_unready sorted_abort_timeout sorted_unpend : zkernel.
#[local] Hint Extern 3 (runq_sorted (upd_thread _ _ _)) => apply sorted_upd; [done |] : zkernel.

(** ** Sortedness, operation by operation *)

Lemma sorted_pend_locked t (w : option wqid) timeout s : runq_sorted s -> runq_sorted (pend_locked t w timeout s).
Proof.
  intros Hs. unfold pend_locked, add_thread_timeout, add_to_waitq_locked, z_add_thread_timeout.
  repeat case_match; auto 8 with zkernel.
Qed.

Lemma sorted_prio_set t p s : sched_inv ∅ s -> runq_sorted s -> runq_sorted (z_thread_prio_set t p s).2.
Proof.
  intros Hi Hs. unfold z_thread_prio_set. destruct (z_is_thread_ready s t) eqn:Hr; simpl.
  - apply sorted_update_cache, sorted_queue, sorted_upd_other; [| auto with zkernel].
    rewrite elem_dequeue_thread. tauto.
  - apply sorted_upd_other; [| done]. intros Ht. rewrite (inv_queued_ready _ _ Hi t Ht) in Hr. done.
Qed.

Lemma sorted_dummy_init s : runq_sorted s -> runq_sorted (z_dummy_thread_init s).
Proof.
  apply sorted_frame; [done |]. intros u _. unfold z_dummy_thread_init.
  change (thr (set_current ?a ?b) u) with (thr b u). rewrite thr_upd. case_decide; by subst.
Qed.

Lemma sorted_halt t st s : runq_sorted s -> runq_sorted (halt_thread t st s).
Proof.
  intros Hs. unfold halt_thread. case_match; [| done]. cbv zeta.
  set (s1 := if z_is_thread_queued _ then _ else _).
  assert (runq_sorted s1) as H1 by (unfold s1; case_match; auto with zkernel).
  set (s2 := if st =? _THREAD_DEAD then _ else _).
  assert (runq_sorted s2) as H2.
  { unfold s2. case_match; [| done]. apply sorted_drain.
    - intros u s' Hs'. unfold unpend_and_ready, arch_thread_return_value_set. auto 8 with zkernel.
    - apply sorted_abort_timeout. case_match; auto with zkernel. }
  case_match; [auto with zkernel |]. apply sorted_upd; [done |]. case_match; [| auto with zkernel].
  apply sorted_dummy_init. auto with zkernel.
Qed.

Lemma sorted_thread_halt t b s : runq_sorted s -> runq_sorted (z_thread_halt t b s).
Proof.
  intros Hs. unfold z_thread_halt. apply (sorted_halt t (if b then _THREAD_DEAD else _THREAD_SUSPENDED)) in Hs.
  cbv zeta. destruct (_ && _); [by apply sorted_do_swap | done].
Qed.

Lemma sorted_suspend t s : runq_sorted s -> runq_sorted (z_impl_k_thread_suspend t s).
Proof.
  intros Hs. unfold z_impl_k_thread_suspend. cbv zeta. case_match; [by apply sorted_abort_timeout |].
  by apply sorted_thread_halt, sorted_abort_timeout.
Qed.

Lemma sorted_wakeup t s : runq_sorted s -> runq_sorted (z_impl_k_wakeup t s).
Proof.
  intros Hs. unfold z_impl_k_wakeup. case_match; [done |].
  pose proof (sorted_abort_timeout t s Hs) as H1. destruct (z_abort_thread_timeout t s) as [ret s1]. simpl in H1.
  case_match; [done |]. cbv zeta. case_match; auto 8 with zkernel.
Qed.

Lemma sorted_wake_thread t b s : runq_sorted s -> runq_sorted (z_sched_wake_thread t b s).
Proof.
  intros Hs. unfold z_sched_wake_thread. cbv zeta.
  apply (sorted_upd t (set_no_wake_on_timeout false)) in Hs; [| done].
  case_match; [done |]. case_match; [| done]. apply sorted_ready_thread.
  case_match; repeat (apply sorted_upd; [done |]); case_match; auto with zkernel.
Qed.

Lemma sorted_sched_wake w v d s : runq_sorted s -> runq_sorted (z_sched_wake w v d s).2.
Proof.
  intros Hs. unfold z_sched_wake, z_thread_return_value_set_with_data, arch_thread_return_value_set.
  case_match; cbn [snd]; auto 10 with zkernel.
Qed.

Lemma sorted_yield s : runq_sorted s -> runq_sorted (z_impl_k_yield s).
Proof. intros Hs. unfold z_impl_k_yield, z_swap. auto 8 with zkernel. Qed.

Lemma sorted_tick_sleep ticks s : runq_sorted s -> runq_sorted (z_tick_sleep ticks s).2.
Proof.
  intros Hs. unfold z_tick_sleep, z_swap, z_add_thread_timeout. case_match; cbn [snd]; [by apply sorted_yield |].
  auto 8 with zkernel.
Qed.

Lemma sorted_pend_curr w timeout s : runq_sorted s -> runq_sorted (z_pend_curr w timeout s).
Proof. intros Hs. unfold z_pend_curr, z_swap. by apply sorted_do_swap, sorted_pend_locked. Qed.

Lemma sorted_join t timeout s : runq_sorted s -> runq_sorted (z_impl_k_thread_join t timeout s).2.
Proof.
  intros Hs. unfold z_impl_k_thread_join. repeat case_match; try done. cbn [snd]. unfold z_swap.
  rewrite current_add_to_waitq. by apply sorted_do_swap, (sorted_pend_locked _ (Some (join_queue t)) timeout).
Qed.

Lemma sorted_wake_all w v d s : runq_sorted s -> runq_sorted (z_sched_wake_all w v d s).2.
Proof. intros Hs. apply sorted_drain; [| done]. intros _ s' Hs'. by apply sorted_sched_wake. Qed.

Lemma sorted_start t s : runq_sorted s -> runq_sorted (z_sched_start t s).
Proof. intros Hs. unfold z_sched_start. case_match; auto 8 with zkernel. Qed.

Lemma sorted_resume t s : runq_sorted s -> runq_sorted (z_impl_k_thread_resume t s).
Proof. intros Hs. unfold z_impl_k_thread_resume. case_match; auto 8 with zkernel. Qed.

Lemma sorted_priority_set t p s :
  sched_inv ∅ s -> runq_sorted s -> runq_sorted (z_impl_k_thread_priority_set t p s).
Proof.
  intros Hi Hs. unfold z_impl_k_thread_priority_set.
  pose proof (sorted_prio_set t p s Hi Hs) as H. destruct (z_thread_prio_set t p s) as [b s1]. simpl in H.
  case_match; [by apply sorted_reschedule | done].
Qed.

Lemma sorted_deadline_set t d c s : runq_sorted s -> runq_sorted (z_impl_k_thread_deadline_set t d c s).
Proof. intros Hs. unfold z_impl_k_thread_deadline_set. cbv zeta. case_match; auto 8 with zkernel. Qed.

Lemma sorted_sched_lock s : runq_sorted s -> runq_sorted (k_sched_lock s).
Proof. intros Hs. unfold k_sched_lock, z_sched_lock. auto with zkernel. Qed.

Lemma sorted_sched_unlock s : runq_sorted s -> runq_sorted (k_sched_unlock s).
Proof. intros Hs. unfold k_sched_unlock, z_reschedule_unlocked. auto 8 with zkernel. Qed.

Lemma sorted_abort t s s' : runq_sorted s -> z_thread_abort t s = Some s' -> runq_sorted s'.
Proof. intros Hs. unfold z_thread_abort. repeat case_match; intros [= <-]; [done | by apply sorted_thread_halt]. Qed.

(** ** The pick *)

(** The thread the ready queue offers: its head, or the idle thread. *)
Definition best_thread (s : z_kernel) : tid := default (idle_thread s) (runq_best s).

Lemma best_thread_ready X s : sched_inv X s -> z_is_thread_ready s (best_thread s) = true.
Proof.
  intros Hs. unfold best_thread, runq_best, z_priq_dumb_best. destruct (runq s) as [| t l] eqn:E; simpl.
  - apply (inv_idle_ready _ _ Hs).
  - apply (inv_queued_ready _ _ Hs). rewrite E. by apply elem_of_cons; left.
Qed.

Lemma best_thread_max s u :
  runq_sorted s -> u ∈ runq s -> best_thread s ∈ runq s /\ prio (thr s (best_thread s)) <= prio (thr s u).
Proof.
  unfold runq_sorted, best_thread, runq_best, z_priq_dumb_best. intros Hs Hu.
  destruct Hs as [| t l Hs Hf]; [by apply elem_of_nil in Hu |]. simpl.
  split; [by apply elem_of_cons; left |]. apply elem_of_cons in Hu as [-> | Hu]; [lia |].
  rewrite Forall_forall in Hf. by apply Hf.
Qed.

Hypothesis no_metairq : metairq_tracking = false.

Lemma next_up_best s : next_up s = (best_thread s, s).
Proof. unfold next_up. by rewrite no_metairq. Qed.

Lemma cache_update b s :
  cache (update_cache b s) = if should_preempt s (best_thread s) b then best_thread s else current s.
Proof. unfold update_cache. rewrite next_up_best. by destruct (should_preempt _ _ _). Qed.

Lemma current_do_swap s : current (do_swap s) = cache s.
Proof.
  unfold do_swap. cbv zeta. unfold z_swap_next_thread. simpl. case_bool_decide; [| done]. simpl. congruence.
Qed.

(** The switch of a blocking call goes to the best ready thread. *)
Lemma cache_pend_current (w : option wqid) timeout s :
  let s' := pend_locked (current s) w timeout s in cache s' = best_thread s'.
Proof.
  cbv zeta.
  assert (∀ s1, runq s1 = runq (unready_thread (current s) s) ->
    cache s1 = cache (unready_thread (current s) s) ->
    idle_thread s1 = idle_thread (unready_thread (current s) s) -> cache s1 = best_thread s1) as H.
  { intros s1 Hr Hc Hi. unfold best_thread, runq_best. rewrite Hr, Hc, Hi. unfold unready_thread.
    set (s2 := if z_is_thread_queued _ then _ else _).
    assert (current s2 = current s) as Hcur by (unfold s2; by case_match).
    rewrite Hcur, bool_decide_eq_true_2 by done. rewrite cache_update, runq_update_cache, idle_update_cache. done. }
  unfold pend_locked, add_thread_timeout, add_to_waitq_locked, z_add_thread_timeout.
  repeat case_match; by apply H.
Qed.

Lemma best_do_swap s : best_thread (do_swap s) = best_thread s.
Proof.
  unfold best_thread, runq_best. by rewrite (same_runq _ _ (same_do_swap s)), (same_idle _ _ (same_do_swap s)).
Qed.

Lemma pend_curr_current w timeout s :
  current (z_pend_curr w timeout s) = best_thread (z_pend_curr w timeout s).
Proof.
  unfold z_pend_curr, z_swap. rewrite best_do_swap, current_do_swap. apply cache_pend_current.
Qed.

Lemma yield_current s : current (z_impl_k_yield s) = best_thread (z_impl_k_yield s).
Proof.
  unfold z_impl_k_yield, z_swap. rewrite best_do_swap, current_do_swap, cache_update.
  unfold best_thread, runq_best. by rewrite runq_update_cache, idle_update_cache.
Qed.

(** ** Readying a thread *)

Lemma cache_ready_thread t s :
  t ∉ runq s -> sched_inv ∅ (queue_thread t s) -> z_is_thread_queued (thr s t) = false ->
  z_is_thread_ready s t = true ->
  cache (ready_thread t s) =
    if should_preempt (queue_thread t s) (best_thread (queue_thread t s)) false
    then best_thread (queue_thread t s) else current s.
Proof.
  intros Ht Hs Hq Hr. unfold ready_thread. rewrite Hq, Hr. simpl. by rewrite cache_update.
Qed.

End Dispatch.
