(* ===== verification/Threads.v ===== *)
(** * Thread creation and boot (kernel/thread.c, kernel/init.c)

    [z_setup_new_thread], [k_thread_create] and the boot sequence up to the
    switch to the main thread, and the system they start: a step relation
    with one rule per scheduler call, whose reachable states all satisfy the
    scheduler invariant. *)

From Stdlib Require Import ZArith Lia Bool Btauto Sorted.
From stdpp Require Import base numbers list gmap sets relations.
From S2P Require Import Prelude TimeoutQ Kernel PrioQ Sched SchedInv SchedOps Dispatch.

Open Scope Z_scope.

Section Threads.
Context {cfg : Kconfig}.
Implicit Types (s : z_kernel) (t u thread : tid) (w : wqid).

(** The timeout of a new thread is not linked, so [z_init_thread_timeout] has
    nothing to clear. *)
Definition z_init_thread_base (priority initial_state options : Z) (base : k_thread) : k_thread :=
  set_sched_locked 0 (set_prio (s8 priority)
    (set_thread_state (u8 initial_state) (set_user_options (u8 options) (set_pended_on None base)))).

Definition z_setup_new_thread new_thread (prio options : Z) s : z_kernel :=
  let s := z_waitq_init (join_queue new_thread) s in
  let s := upd_thread new_thread (z_init_thread_base prio _THREAD_PRESTART options) s in
  let s := upd_thread new_thread (set_no_wake_on_timeout false) s in
  if SCHED_DEADLINE then upd_thread new_thread (set_prio_deadline 0) s else s.

Definition z_impl_k_thread_start thread s : z_kernel := z_sched_start thread s.

Definition thread_schedule_new thread (delay : Z) s : z_kernel :=
  if K_TIMEOUT_EQ delay K_NO_WAIT then z_impl_k_thread_start thread s
  else z_add_thread_timeout thread delay s.

Definition z_impl_k_thread_create new_thread (prio options delay : Z) s : z_kernel :=
  let s := z_setup_new_thread new_thread prio options s in
  if negb (K_TIMEOUT_EQ delay K_FOREVER) then thread_schedule_new new_thread delay s else s.

(** ** Boot *)

(** Zeroed memory; [irq_lock] state and interrupt nesting as at reset. *)
Definition bss : z_kernel :=
  mk_kernel ∅ dummy_tid dummy_tid None 0 true dummy_tid [] ∅ (mk_timeout_state [] 0 0 0 0).

Definition init_ready_q s : z_kernel := set_runq [] s.

Definition z_sched_init s : z_kernel := init_ready_q s.

Definition init_idle_thread (idle : tid) s : z_kernel :=
  upd_thread idle z_mark_thread_as_started (z_setup_new_thread idle K_IDLE_PRIO K_ESSENTIAL s).

Definition z_init_cpu (idle : tid) s : z_kernel := set_idle_thread idle (init_idle_thread idle s).

Definition prepare_multithreading (main idle : tid) (MAIN_THREAD_PRIORITY : Z) s : z_kernel :=
  let s := z_sched_init s in
  let s := set_cache main s in
  let s := z_setup_new_thread main MAIN_THREAD_PRIORITY K_ESSENTIAL s in
  let s := upd_thread main z_mark_thread_as_started s in
  let s := z_ready_thread main s in
  z_init_cpu idle s.

(** [z_cstart] up to and including the switch to the main thread. *)
Definition z_cstart (main idle : tid) (MAIN_THREAD_PRIORITY : Z) s : z_kernel :=
  z_swap (prepare_multithreading main idle MAIN_THREAD_PRIORITY (z_dummy_thread_init s)).

(** ** Creation keeps the invariant *)

(** The memory a new thread is created in: in no queue, its timeout idle. *)
Definition unused (s : z_kernel) (t : tid) : Prop :=
  (t ∉ runq s) /\ pended_on (thr s t) = None /\ active s t = false /\ t ≠ idle_thread s /\
  waitq s (join_queue t) = [].

Lemma setup_new_thread_eq t p o s :
  waitq s (join_queue t) = [] ->
  exists f, same_sched (upd_thread t f s) (z_setup_new_thread t p o s) /\
    thread_state (f (thr s t)) = _THREAD_PRESTART /\ pended_on (f (thr s t)) = None.
Proof.
  intros Hw. exists (z_init_thread_base p _THREAD_PRESTART o). split; [| done].
  assert (same_sched s (z_waitq_init (join_queue t) s)) as H1.
  { constructor; try done. intros w. unfold z_waitq_init. rewrite waitq_upd. case_decide; by subst. }
  assert (same_sched (upd_thread t (z_init_thread_base p _THREAD_PRESTART o) s)
    (upd_thread t (z_init_thread_base p _THREAD_PRESTART o) (z_waitq_init (join_queue t) s))) as H2.
  { constructor; try done. apply H1. }
  etransitivity; [exact H2 |]. unfold z_setup_new_thread. cbv zeta.
  case_match; [etransitivity; [| by apply same_upd] |]; by apply same_upd.
Qed.

Lemma inv_setup_new_thread t p o s :
  sched_inv ∅ s -> unused s t -> sched_inv ∅ (z_setup_new_thread t p o s).
Proof.
  intros Hs (Hq & Hp & Ha & Hi & Hw). destruct (setup_new_thread_eq t p o s Hw) as (f & Hsame & Hst & Hpf).
  rewrite <- Hsame. apply (inv_settle_single t).
  - apply inv_dup, inv_upd_state; try done; [by apply inv_single | | congruence | congruence].
    rewrite (inv_not_queued _ _ _ Hs Hq). by rewrite queued_bit, Hst.
  - by rewrite thr_upd_eq, prevented_bits, Hst.
Qed.

Lemma inv_thread_create t p o delay s :
  sched_inv ∅ s -> unused s t -> valid_timeout delay ->
  sched_inv ∅ (z_impl_k_thread_create t p o delay s).
Proof.
  intros Hs Hu Hv. pose proof (inv_setup_new_thread t p o s Hs Hu) as H1.
  destruct Hu as (Hq & Hp & Ha & Hi & Hw). destruct (setup_new_thread_eq t p o s Hw) as (f & Hsame & Hst & Hpf).
  unfold z_impl_k_thread_create, K_TIMEOUT_EQ. cbv zeta.
  destruct (Z.eqb_spec delay K_FOREVER) as [| Hf]; [done |]. simpl.
  set (s1 := z_setup_new_thread t p o s) in *.
  assert (idle_thread s1 = idle_thread s) as Hid by (by rewrite (same_idle _ _ Hsame)).
  unfold thread_schedule_new. case_match.
  { apply inv_start; [done | congruence]. }
  apply (inv_settle _ t).
  - apply inv_add_timeout; try done; [| congruence | rewrite (same_active _ _ _ Hsame); done].
    by rewrite (same_runq _ _ Hsame).
  - rewrite ready_eq. change (thr (z_add_thread_timeout t delay s1) t) with (thr s1 t).
    rewrite (prevented_state _ (f (thr s t))) by (rewrite (same_state _ _ Hsame), thr_upd_eq; done).
    by rewrite prevented_bits, Hst.
Qed.

(** ** The state after boot *)

Lemma state_setup t p o s u :
  thread_state (thr (z_setup_new_thread t p o s) u) =
    (if decide (t = u) then _THREAD_PRESTART else thread_state (thr s u)) /\
  pended_on (thr (z_setup_new_thread t p o s) u) = (if decide (t = u) then None else pended_on (thr s u)).
Proof.
  unfold z_setup_new_thread. cbv zeta.
  case_match; rewrite !thr_upd; destruct (decide (t = u)); subst; rewrite ?decide_True by done; done.
Qed.

Lemma waitq_setup t p o s w :
  waitq s w = [] -> waitq (z_setup_new_thread t p o s) w = [].
Proof.
  intros Hw. transitivity (waitq (z_waitq_init (join_queue t) s) w).
  - unfold z_setup_new_thread. by case_match.
  - unfold z_waitq_init. rewrite waitq_upd. by case_decide.
Qed.

Lemma frame_setup t p o s :
  runq (z_setup_new_thread t p o s) = runq s /\ timeouts (z_setup_new_thread t p o s) = timeouts s.
Proof. unfold z_setup_new_thread. by case_match. Qed.

(** Boot up to the moment the main thread is ready. *)
Lemma boot_main main p :
  main ≠ dummy_tid ->
  let s := upd_thread main z_mark_thread_as_started
             (z_setup_new_thread main p K_ESSENTIAL (set_cache main (z_sched_init (z_dummy_thread_init bss)))) in
  runq (z_ready_thread main s) = [main] /\
  timeouts (z_ready_thread main s) = timeouts bss /\ (∀ w, waitq (z_ready_thread main s) w = []) /\
  (∀ u, pended_on (thr (z_ready_thread main s) u) = None /\
        thread_state (thr (z_ready_thread main s) u) = if decide (main = u) then _THREAD_QUEUED else _THREAD_DUMMY).
Proof.
  intros Hm. cbv zeta. set (s0 := set_cache main _). set (s1 := upd_thread main _ _).
  destruct (frame_setup main p K_ESSENTIAL s0) as [F1 F2].
  assert (∀ u, pended_on (thr s1 u) = None /\
    thread_state (thr s1 u) = if decide (main = u) then 0 else _THREAD_DUMMY) as Hst.
  { intros u. unfold s1. rewrite thr_upd.
    destruct (state_setup main p K_ESSENTIAL s0 u) as [E1 E2]. case_decide; subst.
    - cbn [pended_on set_thread_state z_mark_thread_as_started unmark_state thread_state].
      rewrite E2, E1. done.
    - rewrite E2, E1. unfold s0. change (thr (set_cache ?a ?b) u) with (thr b u).
      unfold z_dummy_thread_init, z_sched_init, init_ready_q.
      change (thr (set_runq ?a ?b) u) with (thr b u). change (thr (set_current ?a ?b) u) with (thr b u).
      rewrite thr_upd. case_decide; subst; [done |].
      change (thr bss u) with ((∅ : gmap tid k_thread) !!! u). by rewrite lookup_total_empty. }
  assert (z_is_thread_queued (thr s1 main) = false) as Hq.
  { rewrite queued_bit, (proj2 (Hst main)). by rewrite decide_True. }
  assert (z_is_thread_ready s1 main = true) as Hr.
  { rewrite ready_eq, prevented_bits, (proj2 (Hst main)), decide_True by done.
    unfold active. change (timeouts s1) with (timeouts (z_setup_new_thread main p K_ESSENTIAL s0)). by rewrite F2. }
  unfold z_ready_thread, ready_thread. rewrite Hq, Hr. simpl.
  rewrite runq_update_cache, (same_timeouts _ _ (same_update_cache _ _)).
  assert (runq s1 = []) as Hrun by exact F1.
  split; [| split; [exact F2 | split]].
  - change (z_priq_dumb_add (thr (upd_thread main (mark_state _THREAD_QUEUED) s1)) (runq s1) main = [main]).
    by rewrite Hrun.
  - intros w. rewrite waitq_update_cache. by apply (waitq_setup main p K_ESSENTIAL s0).
  - intros u. rewrite thr_update_cache, thr_queue_thread. destruct (Hst u) as [E1 E2].
    case_decide as Eu; [| done]. rewrite <- Eu in E1, E2. split; [done |].
    cbn [thread_state set_thread_state mark_state]. by rewrite E2.
Qed.

Lemma boot_inv main idle p :
  main ≠ dummy_tid -> idle ≠ dummy_tid -> main ≠ idle ->
  sched_inv ∅ (z_cstart main idle p bss) /\ runq (z_cstart main idle p bss) = [main].
Proof.
  intros Hm Hi Hmi. unfold z_cstart, z_swap, prepare_multithreading, z_init_cpu, init_idle_thread. cbv zeta.
  destruct (boot_main main p Hm) as (Hrun & Ht & Hw & Hst). cbv zeta in *.
  set (s1 := z_ready_thread main _) in *.
  destruct (frame_setup idle K_IDLE_PRIO K_ESSENTIAL s1) as [F1 F2].
  set (s3 := set_idle_thread idle _).
  assert (runq s3 = [main]) as Hrun3 by (rewrite <- Hrun; exact F1).
  assert (timeouts s3 = timeouts bss) as Ht3 by (rewrite <- Ht; exact F2).
  assert (∀ w, waitq s3 w = []) as Hw3 by (intros w; by apply (waitq_setup idle)).
  assert (∀ u, pended_on (thr s3 u) = None /\ thread_state (thr s3 u) =
    if decide (idle = u) then 0 else if decide (main = u) then _THREAD_QUEUED else _THREAD_DUMMY) as Hst3.
  { intros u. unfold s3. change (thr (set_idle_thread ?a ?b) u) with (thr b u). rewrite thr_upd.
    destruct (state_setup idle K_IDLE_PRIO K_ESSENTIAL s1 u) as [E1 E2]. case_decide as Eu; subst.
    - cbn [pended_on set_thread_state z_mark_thread_as_started unmark_state thread_state]. by rewrite E2, E1.
    - rewrite E2, E1. apply Hst. }
  assert (∀ u, z_is_thread_ready s3 u = bool_decide (u = main \/ u = idle)) as Hr3.
  { intros u. rewrite ready_eq, prevented_bits, (proj2 (Hst3 u)). unfold active. rewrite Ht3.
    destruct (decide (idle = u)), (decide (main = u)); subst; simpl; symmetry;
      first [apply bool_decide_eq_true | apply bool_decide_eq_false]; intuition. }
  split; [| by rewrite (same_runq _ _ (same_do_swap s3))].
  rewrite <- same_do_swap. constructor; rewrite ?Hrun3.
  - apply NoDup_singleton.
  - intros u. rewrite queued_bit, (proj2 (Hst3 u)), list_elem_of_singleton.
    destruct (decide (idle = u)), (decide (main = u)); subst; split; intros; simplify_eq; done.
  - intros u ->%list_elem_of_singleton. rewrite Hr3. apply bool_decide_eq_true. auto.
  - intros u _ Hne. rewrite Hr3, bool_decide_eq_true, list_elem_of_singleton. intuition.
  - intros u w. rewrite (proj1 (Hst3 u)), Hw3. split; [done | by intros ?%elem_of_nil].
  - intros w. rewrite Hw3. constructor.
  - intros u w. by rewrite (proj1 (Hst3 u)).
  - rewrite Ht3. constructor; simpl; (done || constructor).
  - rewrite list_elem_of_singleton. intros E. by apply Hmi.
  - rewrite Hr3. apply bool_decide_eq_true. by right.
Qed.

(** ** The running system *)

(** One call into the scheduler.  A blocking call is made by a thread that
    is running, never by the idle thread; the timeouts are in range. *)
Inductive kstep : z_kernel -> z_kernel -> Prop :=
  | step_create s t p o delay : unused s t -> valid_timeout delay -> kstep s (z_impl_k_thread_create t p o delay s)
  | step_start s t : t ≠ idle_thread s -> kstep s (z_impl_k_thread_start t s)
  | step_yield s : current s ∈ runq s -> kstep s (z_impl_k_yield s)
  | step_sleep s ticks :
      current s ∈ runq s -> valid_timeout ticks -> ticks ≠ K_FOREVER -> kstep s (z_tick_sleep ticks s).2
  | step_pend s w timeout : current s ∈ runq s -> valid_timeout timeout -> kstep s (z_pend_curr w timeout s)
  | step_wake s w v d : kstep s (z_sched_wake w v d s).2
  | step_wake_all s w v d : kstep s (z_sched_wake_all w v d s).2
  | step_reschedule s : kstep s (z_reschedule s)
  | step_wakeup s t : t ≠ idle_thread s -> kstep s (z_impl_k_wakeup t s)
  | step_suspend s t : t ≠ idle_thread s -> kstep s (z_impl_k_thread_suspend t s)
  | step_resume s t : t ≠ idle_thread s -> kstep s (z_impl_k_thread_resume t s)
  | step_priority s t p : t ≠ idle_thread s -> kstep s (z_impl_k_thread_priority_set t p s)
  | step_deadline s t d c : kstep s (z_impl_k_thread_deadline_set t d c s)
  | step_lock s : kstep s (k_sched_lock s)
  | step_unlock s : kstep s (k_sched_unlock s)
  | step_join s t timeout : current s ∈ runq s -> valid_timeout timeout -> kstep s (z_impl_k_thread_join t timeout s).2
  | step_abort s t s' :
      t ≠ idle_thread s -> (t = current s -> arch_is_in_isr s = true -> dummy_free s /\ t ≠ dummy_tid) ->
      z_thread_abort t s = Some s' -> kstep s s'.

Lemma kstep_inv s s' : kstep s s' -> sched_inv ∅ s -> sched_inv ∅ s'.
Proof.
  destruct 1; intros Hs.
  - by apply inv_thread_create.
  - by apply inv_start.
  - by apply inv_yield.
  - by apply inv_tick_sleep.
  - by apply inv_pend_curr.
  - by apply inv_sched_wake.
  - by apply inv_sched_wake_all.
  - by rewrite <- same_reschedule.
  - by apply inv_wakeup.
  - by apply inv_suspend.
  - by apply inv_resume.
  - by apply inv_priority_set.
  - by apply inv_deadline_set.
  - by apply inv_sched_lock.
  - by apply inv_sched_unlock.
  - by apply inv_join.
  - by eapply inv_abort.
Qed.

Section Sorted.
Hypothesis no_deadline : SCHED_DEADLINE = false.

Lemma sorted_setup t p o s : t ∉ runq s -> runq_sorted s -> runq_sorted (z_setup_new_thread t p o s).
Proof.
  intros Hq. destruct (frame_setup t p o s) as [F1 _]. apply sorted_frame; [done |].
  intros u Hu. unfold z_setup_new_thread. cbv zeta.
  rewrite no_deadline. rewrite !thr_upd_ne; [done | by intros -> ..].
Qed.

Lemma sorted_create t p o delay s :
  t ∉ runq s -> runq_sorted s -> runq_sorted (z_impl_k_thread_create t p o delay s).
Proof.
  intros Hq Hs. apply (sorted_setup t p o) in Hs; [| done].
  unfold z_impl_k_thread_create, thread_schedule_new. cbv zeta. repeat case_match; [| done | done].
  by apply sorted_start.
Qed.

Lemma kstep_sorted s s' : kstep s s' -> sched_inv ∅ s -> runq_sorted s -> runq_sorted s'.
Proof.
  destruct 1 as [s t p o delay Hu | | | | | | | | | | | | | | | | s t s' Hi' Hc Ha]; intros Hi Hs.
  - by apply sorted_create; [destruct Hu |].
  - by apply sorted_start.
  - by apply sorted_yield.
  - by apply sorted_tick_sleep.
  - by apply sorted_pend_curr.
  - by apply sorted_sched_wake.
  - by apply sorted_wake_all.
  - by apply sorted_reschedule.
  - by apply sorted_wakeup.
  - by apply sorted_suspend.
  - by apply sorted_resume.
  - by apply sorted_priority_set.
  - by apply sorted_deadline_set.
  - by apply sorted_sched_lock.
  - by apply sorted_sched_unlock.
  - by apply sorted_join.
  - by apply (sorted_abort no_deadline t s).
Qed.

End Sorted.

(** C1: In every state the system reaches from boot by scheduler calls, the
    ready queue, the wait queues, the timeout queue and the thread state bits
    agree: a thread is in the ready queue exactly when its QUEUED bit is set,
    every ready thread other than idle is there, a thread is on a wait queue
    exactly when its [pended_on] names it and then its PENDING bit is set, no
    queue holds a thread twice, and the timeout deltas are well formed. *)
Theorem kernel_invariant main idle p s :
  main ≠ dummy_tid -> idle ≠ dummy_tid -> main ≠ idle ->
  rtc kstep (z_cstart main idle p bss) s -> sched_inv ∅ s.
Proof.
  intros Hm Hi Hne Hr. pose proof (proj1 (boot_inv main idle p Hm Hi Hne)) as Hb.
  induction Hr as [| s1 s2 s3 Hstep Hr IH]; [done |]. apply IH. by eapply kstep_inv.
Qed.

Lemma boot_sorted main idle p :
  main ≠ dummy_tid -> idle ≠ dummy_tid -> main ≠ idle -> runq_sorted (z_cstart main idle p bss).
Proof.
  intros Hm Hi Hne. destruct (boot_inv main idle p Hm Hi Hne) as [_ Hr]. unfold runq_sorted. rewrite Hr.
  repeat constructor.
Qed.

(** C3: In a build without deadline scheduling and without meta-IRQ priorities
    (with them [next_up] goes back to the cooperative thread a meta-IRQ
    interrupted, whatever its priority): when the running thread of a state
    reached from boot by scheduler calls waits on a queue, the CPU goes to a
    thread that is ready, and no other ready thread has a higher priority; the
    idle thread runs only if nothing else is ready. *)
Theorem block_dispatches_best main idle p s w timeout :
  SCHED_DEADLINE = false -> metairq_tracking = false ->
  main ≠ dummy_tid -> idle ≠ dummy_tid -> main ≠ idle ->
  rtc kstep (z_cstart main idle p bss) s -> current s ∈ runq s -> valid_timeout timeout ->
  let s' := z_pend_curr w timeout s in
  z_is_thread_ready s' (current s') = true /\
  ∀ u, u ≠ idle_thread s' -> z_is_thread_ready s' u = true ->
    current s' ∈ runq s' /\ prio (thr s' (current s')) <= prio (thr s' u).
Proof.
  intros Hdl Hmeta Hm Hi Hne Hr Hc Hv. cbv zeta.
  assert (sched_inv ∅ s /\ runq_sorted s) as [Hs Hsort].
  { pose proof (proj1 (boot_inv main idle p Hm Hi Hne)) as Hb.
    pose proof (boot_sorted main idle p Hm Hi Hne) as Hbs. clear Hc.
    induction Hr as [| s1 s2 s3 Hstep Hr IH]; [done |].
    apply IH; [by eapply kstep_inv | by eapply kstep_sorted]. }
  rewrite pend_curr_current by done. pose proof (inv_pend_curr w timeout s Hs Hc Hv) as H'.
  split; [by apply (best_thread_ready ∅) |]. intros u Hu Hru. apply best_thread_max.
  - by apply sorted_pend_curr.
  - by apply (inv_ready_queued _ _ H').
Qed.

End Threads.

#[local] Existing Instance default_kconfig | 100.

(** Boot, a second thread at priority 3 created and started, then the main
    thread waits. *)
Definition booted : z_kernel := z_cstart 2 1 0 bss.
Definition two_threads : z_kernel := z_impl_k_thread_create 3 3 0 K_NO_WAIT booted.

Lemma two_threads_reachable : rtc kstep (z_cstart 2 1 0 bss) two_threads.
Proof.
  apply rtc_once, (step_create (z_cstart 2 1 0 bss) 3 3 0 K_NO_WAIT); [| unfold valid_timeout, K_NO_WAIT; lia].
  repeat split; apply (bool_decide_unpack _); vm_compute; exact I.
Qed.

Lemma two_threads_inv : sched_inv ∅ two_threads.
Proof.
  apply (kstep_inv (z_cstart 2 1 0 bss)); [| by apply boot_inv].
  apply (step_create (z_cstart 2 1 0 bss) 3 3 0 K_NO_WAIT); [| by split].
  repeat split; apply (bool_decide_unpack _); vm_compute; exact I.
Qed.

(** The main thread waits on an object's queue for at most 50 ticks; thread 3
    runs. *)
Definition one_waiting : z_kernel := z_pend_curr (inr 5%nat) 50 two_threads.

Lemma one_waiting_eq : one_waiting = z_pend_curr (inr 5%nat) 50 two_threads.
Proof. reflexivity. Qed.

Lemma one_waiting_inv : sched_inv ∅ one_waiting.
Proof. apply inv_pend_curr; [apply two_threads_inv | by_compute | by split]. Qed.

(** A third thread, at priority 4, runs while the main thread and thread 3
    wait on the queue. *)
Definition two_waiting : z_kernel :=
  z_pend_curr (inr 5%nat) 50 (z_pend_curr (inr 5%nat) 50 (z_impl_k_thread_create 4 4 0 K_NO_WAIT two_threads)).

Lemma two_waiting_inv : sched_inv ∅ two_waiting.
Proof.
  apply inv_pend_curr; [apply inv_pend_curr; [| by_compute | by split] | by_compute | by split].
  apply inv_thread_create; [apply two_threads_inv | | by split]. repeat split; apply (bool_decide_unpack _); vm_compute; exact I.
Qed.

Lemma kernel_invariant_witness : sched_inv ∅ two_threads.
Proof. refine (kernel_invariant 2 1 0 _ _ _ _ two_threads_reachable); discriminate. Defined.

Lemma block_dispatches_best_witness :
  z_is_thread_ready (z_pend_curr (inr 7%nat) 50 two_threads) (current (z_pend_curr (inr 7%nat) 50 two_threads)) = true /\
  current (z_pend_curr (inr 7%nat) 50 two_threads) = 3%nat.
Proof.
  split; [| vm_compute; reflexivity].
  refine (proj1 (block_dispatches_best 2 1 0 two_threads (inr 7%nat) 50 eq_refl eq_refl _ _ _ two_threads_reachable _ _));
    [discriminate | discriminate | discriminate | | by split].
  apply (bool_decide_unpack _). vm_compute. exact I.
Defined.

#[global] Opaque two_threads one_waiting two_waiting.
