(* ===== verification/Preempt.v ===== *)
(** * Preemption

    What readying a thread and changing a priority do to the thread that is
    running: a preemptible thread gives way to a thread of higher priority, a
    cooperative one does not, and [k_thread_priority_set] does not ask. *)

From Stdlib Require Import ZArith Lia Bool Btauto Sorted.
From stdpp Require Import base numbers list gmap sets relations.
From S2P Require Import Prelude TimeoutQ Kernel PrioQ Sched SchedInv SchedOps Dispatch Threads.

Open Scope Z_scope.

Section Preempt.
Context {cfg : Kconfig}.
Hypothesis no_deadline : SCHED_DEADLINE = false.
Hypothesis no_metairq : NUM_METAIRQ_PRIORITIES = 0.
Implicit Types (s : z_kernel) (t u : tid).

Lemma no_metairq_tracking : metairq_tracking = false.
Proof. unfold metairq_tracking. by rewrite no_metairq. Qed.

Lemma not_metairq (x : k_thread) : thread_is_metairq x = false.
Proof. unfold thread_is_metairq. by rewrite no_metairq. Qed.

Lemma best_queue t s :
  best_thread (queue_thread t s) =
  match runq s with
  | [] => t
  | u :: _ => if prio (thr s t) <? prio (thr s u) then t else u
  end.
Proof.
  unfold best_thread, runq_best, z_priq_dumb_best, queue_thread, runq_add. cbn [set_runq runq idle_thread].
  change (runq (upd_thread t (mark_state _THREAD_QUEUED) s)) with (runq s).
  destruct (runq s) as [| u l]; simpl; [done |].
  assert (∀ v, prio (thr (upd_thread t (mark_state _THREAD_QUEUED) s) v) = prio (thr s v)) as Hp.
  { intros v. rewrite thr_upd. case_decide; by subst. }
  match goal with |- context [if z_sched_prio_cmp ?x ?y >? 0 then _ else _] =>
    pose proof (prio_cmp_no_deadline no_deadline x y) as Hc end.
  rewrite !Hp in Hc. destruct (Z.gtb_spec (z_sched_prio_cmp
    (thr (upd_thread t (mark_state _THREAD_QUEUED) s) t) (thr (upd_thread t (mark_state _THREAD_QUEUED) s) u)) 0);
    destruct (Z.ltb_spec (prio (thr s t)) (prio (thr s u))); simpl; (done || lia).
Qed.

Lemma should_preempt_thread s t :
  z_is_thread_prevented_from_running (thr s (current s)) = false -> active s t = false ->
  should_preempt s t false = thread_is_preemptible (thr s (current s)).
Proof.
  intros Hp Ha. unfold should_preempt. rewrite Hp, not_metairq.
  unfold z_is_thread_timeout_active, z_is_inactive_timeout. unfold active in Ha. rewrite Ha. simpl.
  by rewrite andb_false_r, orb_false_r.
Qed.

Lemma preemptible_queue t u s :
  thread_is_preemptible (thr (queue_thread t s) u) = thread_is_preemptible (thr s u) /\
  z_is_thread_prevented_from_running (thr (queue_thread t s) u) = z_is_thread_prevented_from_running (thr s u).
Proof.
  rewrite thr_queue_thread. case_decide; [subst | done]. by rewrite prevented_mark_queued.
Qed.

(** C14: In a build without deadline scheduling and without meta-IRQ priorities:
    while the thread at the head of the ready queue runs, outside interrupts and
    with interrupts unlocked, readying another thread and rescheduling switches
    to it exactly when the running thread is preemptible and the new one has a
    higher priority (a numerically lower [prio]); a cooperative thread, or one
    that has locked the scheduler, keeps the CPU. *)
Theorem ready_preempts s t :
  sched_inv {[t]} s -> t ∉ runq s -> t ≠ idle_thread s -> z_is_thread_ready s t = true ->
  current s ∈ runq s -> best_thread s = current s -> cache s = current s -> resched s = true ->
  current (z_reschedule (ready_thread t s)) =
    if thread_is_preemptible (thr s (current s)) && (prio (thr s t) <? prio (thr s (current s)))
    then t else current s.
Proof.
  intros Hs Ht Hi Hr Hc Hb Hca Hres.
  assert (sched_inv ∅ (queue_thread t s)) as H1.
  { apply inv_queue; try done. by replace ({[t]} ∪ ∅) with ({[t]} : gset tid) by set_solver. }
  assert (cache (ready_thread t s) =
    if thread_is_preemptible (thr s (current s)) && (prio (thr s t) <? prio (thr s (current s)))
    then t else current s) as Hcache.
  { rewrite (cache_ready_thread no_metairq_tracking) by (done || apply (inv_not_queued _ _ _ Hs Ht)).
    destruct (runq_free _ _ (current s) Hs Hc) as (_ & _ & _ & Hp).
    rewrite should_preempt_thread.
    - rewrite (proj1 (preemptible_queue t _ s)). change (current (queue_thread t s)) with (current s).
      rewrite best_queue. unfold best_thread, runq_best, z_priq_dumb_best in Hb.
      destruct (runq s) as [| u l]; simpl in Hb; [by apply elem_of_nil in Hc |]. subst u.
      destruct (thread_is_preemptible _), (prio (thr s t) <? _); done.
    - rewrite (proj2 (preemptible_queue t _ s)). done.
    - pose proof (best_thread_ready ∅ _ H1) as Hbr. rewrite ready_eq in Hbr.
      apply negb_true_iff, orb_false_iff in Hbr. tauto. }
  unfold z_reschedule. assert (resched (ready_thread t s) = resched s) as ->.
  { pose proof (ctx_ready_thread t s) as [= _ _ Hn Hu]. unfold resched, arch_is_in_isr. by rewrite Hn, Hu. }
  unfold need_swap. rewrite Hres, Hcache, current_ready_thread. simpl. unfold z_swap.
  case_bool_decide as E; simpl; [by rewrite current_ready_thread |]. rewrite current_do_swap. by rewrite Hcache.
Qed.

(** [k_thread_priority_set] that puts a ready thread in front of all the
    others switches to it at once, whether the caller is preemptible or not. *)
Theorem priority_set_switches s t p :
  sched_inv ∅ s -> t ∈ runq s -> (∀ u, u ∈ runq s -> u ≠ t -> s8 p < prio (thr s u)) ->
  sched_locked (thr s (current s)) = 0 -> resched s = true -> current s ≠ t ->
  current (z_impl_k_thread_priority_set t p s) = t.
Proof.
  intros Hs Ht Hp Hl Hres Hne. unfold z_impl_k_thread_priority_set, z_thread_prio_set.
  rewrite (inv_queued_ready _ _ Hs t Ht). cbv zeta. set (s1 := upd_thread t _ _).
  assert (best_thread (queue_thread t s1) = t) as Hb.
  { rewrite best_queue. destruct (runq s1) as [| u l] eqn:Er; [done |].
    assert (u ∈ runq (dequeue_thread t s)) as Hu by (change (u ∈ runq s1); rewrite Er; by apply elem_of_cons; left).
    apply elem_dequeue_thread in Hu as [Hut Hu]. unfold s1. rewrite thr_upd_eq, thr_upd_ne by done.
    rewrite !thr_dequeue_thread, decide_True, decide_False by done. cbn [prio set_prio].
    destruct (Z.ltb_spec (s8 p) (prio (thr s u))); [done |]. specialize (Hp u Hu Hut). lia. }
  set (s2 := update_cache true (queue_thread t s1)).
  assert (ctx s2 = ctx s) as Hctx by (unfold s2; by rewrite ctx_update_cache).
  assert (cache s2 = t) as Hca by (unfold s2; rewrite (cache_update no_metairq_tracking); exact Hb).
  assert (sched_locked (thr s2 (current s2)) = 0) as ->.
  { unfold ctx in Hctx. injection Hctx as -> _ _ _. unfold s2, s1.
    rewrite thr_update_cache, thr_queue_thread, decide_False, thr_upd_ne, thr_dequeue_thread, decide_False by done.
    done. }
  simpl. unfold z_reschedule_unlocked, z_reschedule.
  assert (resched s2 = true) as ->.
  { rewrite <- Hres. unfold ctx in Hctx. injection Hctx as _ _ Hn Hu. unfold resched, arch_is_in_isr.
    by rewrite Hn, Hu. }
  unfold need_swap, z_swap. injection Hctx as Hcur _ _ _. rewrite Hca, Hcur, bool_decide_eq_false_2 by done.
  simpl. by rewrite current_do_swap.
Qed.

End Preempt.

(** ** Concrete runs *)

#[local] Existing Instance default_kconfig | 100.

(** The main thread at priority 0 is running; thread 4, at priority -1, is
    about to be made ready. *)
Definition before_ready : z_kernel :=
  upd_thread 4 z_mark_thread_as_started (z_setup_new_thread 4 (-1) 0 two_threads).

Lemma before_ready_inv : sched_inv {[4%nat]} before_ready.
Proof.
  unfold before_ready. apply inv_dup, inv_upd_state.
  - apply inv_single, inv_setup_new_thread; [apply two_threads_inv |].
    repeat split; apply (bool_decide_unpack _); vm_compute; exact I.
  - apply (bool_decide_unpack _). vm_compute. exact I.
  - apply (bool_decide_unpack _). vm_compute. exact I.
  - vm_compute. reflexivity.
  - vm_compute. reflexivity.
  - intros w Hw. vm_compute in Hw. discriminate Hw.
Qed.

Lemma ready_preempts_witness :
  current before_ready = 2%nat /\ current (z_reschedule (ready_thread 4 before_ready)) = 4%nat.
Proof.
  split; [vm_compute; reflexivity |].
  rewrite (ready_preempts (cfg := default_kconfig) eq_refl eq_refl before_ready 4 before_ready_inv);
    first [vm_compute; reflexivity | apply (bool_decide_unpack _); vm_compute; exact I].
Defined.

(** The main thread is cooperative, at priority -1, as is thread 3. *)
Definition two_coop_threads : z_kernel :=
  z_impl_k_thread_create 3 (-1) 0 K_NO_WAIT (z_cstart 2 1 (-1) bss).

Lemma two_coop_threads_inv : sched_inv ∅ two_coop_threads.
Proof.
  apply (kstep_inv (z_cstart 2 1 (-1) bss)); [| by apply boot_inv].
  apply (step_create (z_cstart 2 1 (-1) bss) 3 (-1) 0 K_NO_WAIT); [| by split].
  repeat split; apply (bool_decide_unpack _); vm_compute; exact I.
Qed.

Lemma priority_set_switches_witness :
  current two_coop_threads = 2%nat /\ thread_is_preemptible (thr two_coop_threads 2) = false /\
  current (z_impl_k_thread_priority_set 3 (-2) two_coop_threads) = 3%nat.
Proof.
  split; [vm_compute; reflexivity |]. split; [vm_compute; reflexivity |].
  apply (priority_set_switches (cfg := default_kconfig) eq_refl eq_refl two_coop_threads 3 (-2) two_coop_threads_inv).
  - apply (bool_decide_unpack _). vm_compute. exact I.
  - intros u Hu Hne. change (runq two_coop_threads) with [2%nat; 3%nat] in Hu.
    assert (u = 2%nat) as ->.
    { assert (u ∈ [2%nat; 3%nat]) as Hu' by exact Hu.
      apply elem_of_cons in Hu' as [-> | Hu']; [reflexivity |].
      apply elem_of_cons in Hu' as [-> | Hu']; [done | by apply elem_of_nil in Hu']. }
    vm_compute. reflexivity.
  - vm_compute. reflexivity.
  - vm_compute. reflexivity.
  - vm_compute. discriminate.
Defined.
