(* ===== verification/WaitApi.v ===== *)
(** * What the wait and wake primitives do

    The facts the kernel objects rely on: waking the first waiter of a queue
    and making the current thread wait, with everything they leave alone. *)

From Stdlib Require Import ZArith Lia Bool Btauto.
From stdpp Require Import base numbers list gmap sets.
From S2P Require Import Prelude TimeoutQ Kernel PrioQ Sched SchedInv SchedOps.

Open Scope Z_scope.

Section WaitApi.
Context {cfg : Kconfig}.
Implicit Types (s : z_kernel) (t u : tid) (w v : wqid).

(** ** Initialising *)

Lemma same_waitq_init w s : waitq s w = [] -> same_sched s (z_waitq_init w s).
Proof.
  intros Hw. constructor; try done. intros v. unfold z_waitq_init. rewrite waitq_upd.
  destruct (decide (w = v)) as [<- |]; [by rewrite Hw | done].
Qed.

(** ** Waking *)

(** [s1] is [s] after its thread [t] left the head of queue [w]; [t] has not
    been made ready yet. *)
Record unpended (w : wqid) (t : tid) (l : list tid) (s s1 : z_kernel) : Prop := {
  up_inv : sched_inv {[t]} s1;
  up_idle : t ≠ idle_thread s1;
  up_active : active s1 t = false;
  up_waitq : ∀ v, waitq s1 v = if decide (w = v) then l else waitq s v;
  up_thr : thr s1 t = set_pended_on None (z_mark_thread_as_not_pending (thr s t));
  up_others : ∀ u, u ≠ t -> thr s1 u = thr s u;
  up_ctx : ctx s1 = ctx s;
  up_runq : runq s1 = runq s;
  up_cache : cache s1 = cache s
}.

Lemma unpend_first_none w s : waitq s w = [] -> z_unpend_first_thread w s = (None, s).
Proof. unfold z_unpend_first_thread, z_waitq_head. by intros ->. Qed.

Lemma unpend_first_some w s t l :
  sched_inv ∅ s -> waitq s w = t :: l ->
  exists s1, z_unpend_first_thread w s = (Some t, s1) /\ unpended w t l s s1.
Proof.
  intros Hs Hw. assert (z_waitq_head s w = Some t) as Hh by (unfold z_waitq_head; by rewrite Hw).
  pose proof (inv_head_pended _ _ _ _ Hs Hh) as Hp. unfold z_unpend_first_thread. rewrite Hh.
  eexists. split; [done |]. destruct (inv_unpend_abort ∅ t w s Hs Hp) as [H1 H2].
  assert (t ≠ idle_thread (unpend_thread_no_timeout t s)) as Hi.
  { rewrite idle_unpend. by apply (inv_idle_not_pended _ _ _ _ Hs Hp). }
  constructor.
  - by replace ({[t]} : gset tid) with ({[t]} ∪ ∅ : gset tid) by set_solver.
  - done.
  - by eapply inv_abort_timeout; [by apply (inv_unpend ∅ t w) |].
  - intros v. rewrite waitq_abort_timeout, waitq_unpend, Hp.
    destruct (decide (w = v)) as [-> |]; [rewrite decide_True by done | by rewrite decide_False by congruence].
    rewrite Hw. apply dlist_remove_head. rewrite <- Hw. apply (inv_waitq_nodup _ _ Hs).
  - by rewrite thr_abort_timeout, thr_unpend, decide_True.
  - intros u Hu. by rewrite thr_abort_timeout, thr_unpend, decide_False.
  - by rewrite ctx_abort_timeout, ctx_unpend.
  - by rewrite runq_abort_timeout, runq_unpend.
  - rewrite z_abort_thread_timeout_snd. simpl. unfold unpend_thread_no_timeout. by rewrite Hp.
Qed.

(** The thread is given its return value and made ready. *)
Record woken (w : wqid) (t : tid) (l : list tid) (s s2 : z_kernel) : Prop := {
  wk_inv : sched_inv ∅ s2;
  wk_waitq : ∀ v, waitq s2 v = if decide (w = v) then l else waitq s v;
  wk_others : ∀ u, u ≠ t -> thr s2 u = thr s u;
  wk_ctx : ctx s2 = ctx s;
  wk_pended : pended_on (thr s2 t) = None;
  wk_prio : prio (thr s2 t) = prio (thr s t)
}.

Lemma ready_thread_fields t s u :
  swap_retval (thr (ready_thread t s) u) = swap_retval (thr s u) /\
  swap_data (thr (ready_thread t s) u) = swap_data (thr s u) /\
  prio (thr (ready_thread t s) u) = prio (thr s u) /\
  pended_on (thr (ready_thread t s) u) = pended_on (thr s u).
Proof.
  unfold ready_thread. case_match; [| done]. rewrite thr_update_cache, thr_queue_thread.
  case_decide; [by subst | done].
Qed.

Lemma unpended_woken w t l s s1 f :
  unpended w t l s s1 -> (∀ x, thread_state (f x) = thread_state x) -> (∀ x, pended_on (f x) = pended_on x) ->
  (∀ x, prio (f x) = prio x) ->
  woken w t l s (z_ready_thread t (upd_thread t f s1)).
Proof.
  intros [] H1 H2 H3. unfold z_ready_thread.
  destruct (ready_thread_fields t (upd_thread t f s1) t) as (_ & _ & Ep & Ew). constructor.
  - apply inv_ready_thread; [| done]. rewrite <- same_upd by done.
    by replace ({[t]} ∪ ∅ : gset tid) with ({[t]} : gset tid) by set_solver.
  - intros v. rewrite waitq_ready_thread. apply up_waitq0.
  - intros u Hu. by rewrite thr_ready_thread_ne, thr_upd_ne, up_others0 by done.
  - rewrite ctx_ready_thread. exact up_ctx0.
  - rewrite Ew, thr_upd_eq, H2, up_thr0. done.
  - rewrite Ep, thr_upd_eq, H3, up_thr0. done.
Qed.

(** The idiom [z_unpend_first_thread], [arch_thread_return_value_set],
    [z_ready_thread] on a queue with waiters. *)
Lemma wake_first w s t l r :
  sched_inv ∅ s -> waitq s w = t :: l ->
  exists s1, z_unpend_first_thread w s = (Some t, s1) /\
    let s2 := z_ready_thread t (arch_thread_return_value_set t r s1) in
    woken w t l s s2 /\ swap_return s2 t = r /\ swap_data (thr s2 t) = swap_data (thr s t) /\
    prio (thr s1 t) = prio (thr s t).
Proof.
  intros Hs Hw. destruct (unpend_first_some w s t l Hs Hw) as (s1 & E & Hu). exists s1. split; [done |].
  cbv zeta. unfold arch_thread_return_value_set. split; [by apply unpended_woken |].
  unfold swap_return, z_ready_thread. destruct (ready_thread_fields t (upd_thread t (set_swap_retval r) s1) t) as (-> & -> & _).
  rewrite thr_upd_eq. split; [done |]. simpl. by rewrite (up_thr _ _ _ _ _ Hu).
Qed.

Lemma wake_first_with_data w s t l r d :
  sched_inv ∅ s -> waitq s w = t :: l ->
  exists s1, z_unpend_first_thread w s = (Some t, s1) /\
    let s2 := z_ready_thread t (z_thread_return_value_set_with_data t r d s1) in
    woken w t l s s2 /\ swap_return s2 t = r /\ swap_data (thr s2 t) = d.
Proof.
  intros Hs Hw. destruct (unpend_first_some w s t l Hs Hw) as (s1 & E & Hu). exists s1. split; [done |].
  cbv zeta. unfold z_thread_return_value_set_with_data, arch_thread_return_value_set. rewrite upd_upd.
  split; [by apply unpended_woken |].
  unfold swap_return, z_ready_thread. rewrite !(proj1 (ready_thread_fields _ _ _)).
  destruct (ready_thread_fields t (upd_thread t (λ x, set_swap_data d (set_swap_retval r x)) s1) t) as (_ & -> & _).
  by rewrite thr_upd_eq.
Qed.

(** A switch at the end of a call changes who runs, not what anybody waits
    for; only the thread switched out has its return value preset. *)
Lemma reschedule_frame s :
  same_sched s (z_reschedule s) /\
  (∀ u, u ≠ current s -> thr (z_reschedule s) u = thr s u) /\
  idle_thread (z_reschedule s) = idle_thread s.
Proof.
  split; [apply same_reschedule |]. split; [| apply same_idle, same_reschedule].
  intros u Hu. unfold z_reschedule, z_swap, do_swap. cbv zeta. case_match; [| done].
  case_match; [by rewrite thr_upd_ne |].
  change (thr (set_current ?a ?b) u) with (thr b u). by rewrite thr_upd_ne.
Qed.

Lemma reschedule_fields s u :
  prio (thr (z_reschedule s) u) = prio (thr s u) /\ pended_on (thr (z_reschedule s) u) = pended_on (thr s u) /\
  swap_data (thr (z_reschedule s) u) = swap_data (thr s u).
Proof.
  unfold z_reschedule, z_swap, do_swap. cbv zeta. case_match; [| done].
  case_match; change (thr (set_current ?a ?b)) with (thr b); rewrite thr_upd; destruct (decide (current s = u)); by subst.
Qed.

(** A waiter is not the running thread. *)
Lemma waiter_not_current s w t : sched_inv ∅ s -> t ∈ waitq s w -> current s ∈ runq s -> t ≠ current s.
Proof.
  intros Hs Ht Hc ->. apply (inv_waitq _ _ Hs) in Ht. by apply (inv_pended_not_queued _ _ _ _ Hs) in Ht.
Qed.

(** Waking the first waiter and rescheduling, as most calls end. *)
Record resumed (w : wqid) (t : tid) (l : list tid) (s s' : z_kernel) : Prop := {
  rs_inv : sched_inv ∅ s';
  rs_waitq : ∀ v, waitq s' v = if decide (w = v) then l else waitq s v;
  rs_pended : pended_on (thr s' t) = None;
  rs_prio : ∀ u, prio (thr s' u) = prio (thr s u);
  rs_idle : idle_thread s' = idle_thread s
}.

Lemma woken_resumed w t l s s2 : woken w t l s s2 -> resumed w t l s (z_reschedule s2).
Proof.
  intros Hwk. destruct (reschedule_frame s2) as (Hsame & _ & Hid). constructor.
  - rewrite <- Hsame. apply Hwk.
  - intros v. rewrite (same_waitq _ _ Hsame). apply Hwk.
  - destruct (reschedule_fields s2 t) as (_ & -> & _). apply Hwk.
  - intros u. destruct (reschedule_fields s2 u) as (-> & _ & _).
    destruct (decide (u = t)) as [-> |]; [apply Hwk | by rewrite (wk_others _ _ _ _ _ Hwk)].
  - rewrite Hid. by destruct (ctx_eq _ _ (wk_ctx _ _ _ _ _ Hwk)) as (_ & -> & _).
Qed.

Lemma wake_resched w s t l r :
  sched_inv ∅ s -> waitq s w = t :: l -> current s ∈ runq s ->
  exists s1, z_unpend_first_thread w s = (Some t, s1) /\ swap_data (thr s1 t) = swap_data (thr s t) /\
    let s' := z_reschedule (z_ready_thread t (arch_thread_return_value_set t r s1)) in
    resumed w t l s s' /\ swap_return s' t = r.
Proof.
  intros Hs Hw Hc. destruct (wake_first w s t l r Hs Hw) as (s1 & E & Hwk & Hret & _).
  destruct (unpend_first_some w s t l Hs Hw) as (s1' & E' & Hup). rewrite E in E'. injection E' as <-.
  exists s1. split; [done |]. split; [by rewrite (up_thr _ _ _ _ _ Hup) |]. cbv zeta in *.
  set (s2 := z_ready_thread t _) in *. split; [by apply woken_resumed |].
  unfold swap_return in *. destruct (reschedule_frame s2) as (_ & Ho & _). rewrite Ho; [done |].
  destruct (ctx_eq _ _ (wk_ctx _ _ _ _ _ Hwk)) as (-> & _ & _).
  apply (waiter_not_current s w); [done | | done]. rewrite Hw. by apply elem_of_cons; left.
Qed.

Lemma wake_resched_with_data w s t l r d :
  sched_inv ∅ s -> waitq s w = t :: l -> current s ∈ runq s ->
  exists s1, z_unpend_first_thread w s = (Some t, s1) /\
    let s' := z_reschedule (z_ready_thread t (z_thread_return_value_set_with_data t r d s1)) in
    resumed w t l s s' /\ swap_return s' t = r /\ swap_data (thr s' t) = d.
Proof.
  intros Hs Hw Hc. destruct (wake_first_with_data w s t l r d Hs Hw) as (s1 & E & Hwk & Hret & Hdat).
  exists s1. split; [done |]. cbv zeta in *. set (s2 := z_ready_thread t _) in *. split; [by apply woken_resumed |].
  unfold swap_return in *. destruct (reschedule_frame s2) as (_ & Ho & _). rewrite Ho; [done |].
  destruct (ctx_eq _ _ (wk_ctx _ _ _ _ _ Hwk)) as (-> & _ & _).
  apply (waiter_not_current s w); [done | | done]. rewrite Hw. by apply elem_of_cons; left.
Qed.

(** Waking every waiter with the same return value. *)
Definition wake_with (w : wqid) (r : Z) (_ : tid) (s : z_kernel) : z_kernel :=
  match z_unpend_first_thread w s with
  | (Some thread, s) => z_ready_thread thread (arch_thread_return_value_set thread r s)
  | (None, s) => s
  end.

Lemma wake_with_head w r : wakes_head ∅ w (wake_with w r).
Proof.
  intros t s Hs Hh. unfold wake_with, z_waitq_head in *.
  destruct (waitq s w) as [| t' l] eqn:Hw; simplify_eq/=.
  destruct (wake_first _ s t l r Hs Hw) as (s1 & -> & H1 & _).
  split; [apply H1 |]. rewrite (wk_waitq _ _ _ _ _ H1). by rewrite decide_True.
Qed.

Lemma wake_all_with w r fuel s :
  sched_inv ∅ s -> (length (waitq s w) <= fuel)%nat ->
  let s' := waitq_drain fuel (wake_with w r) w s in
  (∀ u, u ∈ waitq s w -> swap_return s' u = r /\ pended_on (thr s' u) = None) /\
  (∀ u, u ∉ waitq s w -> thr s' u = thr s u) /\ ctx s' = ctx s /\
  (∀ v, v ≠ w -> waitq s' v = waitq s v).
Proof.
  revert s. induction fuel as [| fuel IH]; intros s Hs Hl; cbn [waitq_drain].
  - destruct (waitq s w) eqn:E; [| simpl in Hl; lia]. split; [by intros u ?%elem_of_nil | done].
  - unfold z_waitq_head. destruct (waitq s w) as [| t l] eqn:Hw; simpl.
    { split; [by intros u ?%elem_of_nil | done]. }
    destruct (wake_first _ s t l r Hs Hw) as (s1 & E & Hwk & Hret & _). cbv zeta in Hwk, Hret.
    assert (wake_with w r t s = z_ready_thread t (arch_thread_return_value_set t r s1)) as ->
      by (unfold wake_with; by rewrite E).
    set (s2 := z_ready_thread t _) in *.
    assert (waitq s2 w = l) as Hl2 by (rewrite (wk_waitq _ _ _ _ _ Hwk); by rewrite decide_True).
    destruct (IH s2 (wk_inv _ _ _ _ _ Hwk)) as (I1 & I2 & I3 & I4); [rewrite Hl2; simpl in Hl; lia |].
    rewrite Hl2 in I1, I2. assert (NoDup (t :: l)) as Hnd by (rewrite <- Hw; apply (inv_waitq_nodup _ _ Hs)).
    apply NoDup_cons in Hnd as [Hnd _]. split; [| split; [| split]].
    + intros u [-> | Hu]%elem_of_cons; [| by apply I1]. unfold swap_return in *. rewrite I2 by done.
      split; [done | apply Hwk].
    + intros u Hu. rewrite I2 by set_solver. apply Hwk. set_solver.
    + rewrite I3. apply Hwk.
    + intros v Hv. rewrite I4 by done. rewrite (wk_waitq _ _ _ _ _ Hwk). by rewrite decide_False.
Qed.

(** ** Waiting *)

Lemma dumb_add_ext_rank (th th' : tid -> k_thread) l t :
  (∀ u, prio (th u) = prio (th' u) /\ prio_deadline (th u) = prio_deadline (th' u)) ->
  z_priq_dumb_add th l t = z_priq_dumb_add th' l t.
Proof.
  intros H. induction l as [| u l IH]; simpl; [done |].
  assert (z_sched_prio_cmp (th t) (th u) = z_sched_prio_cmp (th' t) (th' u)) as ->; [| by rewrite IH].
  unfold z_sched_prio_cmp. destruct (H t) as [-> ->], (H u) as [-> ->]. done.
Qed.

(** [s'] is [s] after its current thread [t] went to wait on [w]. *)
Record pended (w : wqid) (s s' : z_kernel) : Prop := {
  pd_inv : sched_inv ∅ s';
  pd_waitq : ∀ v, waitq s' v =
    if decide (w = v) then z_priq_dumb_add (thr s) (waitq s w) (current s) else waitq s v;
  pd_on : pended_on (thr s' (current s)) = Some w;
  pd_others : ∀ u, u ≠ current s -> thr s' u = thr s u;
  pd_return : swap_return s' (current s) = - EAGAIN;
  pd_data : swap_data (thr s' (current s)) = swap_data (thr s (current s));
  pd_prio : prio (thr s' (current s)) = prio (thr s (current s));
  pd_idle : idle_thread s' = idle_thread s
}.

Lemma thr_unready t s u :
  thr (unready_thread t s) u =
  if decide (t = u) then if z_is_thread_queued (thr s t) then unmark_state _THREAD_QUEUED (thr s t) else thr s t
  else thr s u.
Proof.
  unfold unready_thread. rewrite thr_update_cache. case_match; [| case_decide; by subst].
  apply thr_dequeue_thread.
Qed.

Lemma add_to_waitq_facts t w s :
  let s' := add_to_waitq_locked t (Some w) s in
  (∀ v, waitq s' v = if decide (w = v) then z_priq_dumb_add (thr s) (waitq s w) t else waitq s v) /\
  (∀ u, u ≠ t -> thr s' u = thr s u) /\
  pended_on (thr s' t) = Some w /\ swap_data (thr s' t) = swap_data (thr s t) /\
  prio (thr s' t) = prio (thr s t) /\ idle_thread s' = idle_thread s.
Proof.
  cbv zeta. unfold add_to_waitq_locked. cbv zeta. set (s1 := unready_thread t s). rewrite upd_upd.
  set (f := λ x, set_pended_on (Some w) (z_mark_thread_as_pending x)). set (s2 := upd_thread t f s1).
  assert (∀ v, waitq s1 v = waitq s v) as Hw.
  { intros v. unfold s1, unready_thread. rewrite waitq_update_cache. by case_match. }
  change (thr (upd_waitq w ?g s2)) with (thr s2).
  assert (∀ u, u ≠ t -> thr s2 u = thr s u) as Ho.
  { intros u Hu. unfold s2, s1. by rewrite thr_upd_ne, thr_unready, decide_False. }
  assert (thr s2 t = f (thr s1 t)) as Ht by apply thr_upd_eq.
  assert (thr s1 t = thr s t \/ thr s1 t = unmark_state _THREAD_QUEUED (thr s t)) as Ht1.
  { unfold s1. rewrite thr_unready, decide_True by done. case_match; auto. }
  split; [| split; [done |]].
  - intros v. rewrite waitq_upd. change (waitq s2) with (waitq s1). rewrite !Hw. case_decide; [| done].
    apply dumb_add_ext_rank. intros u. destruct (decide (u = t)) as [-> |]; [| by rewrite Ho].
    rewrite Ht. destruct Ht1 as [-> | ->]; done.
  - rewrite Ht. destruct Ht1 as [-> | ->];
      (repeat split; try done; unfold s2, s1, unready_thread; simpl; rewrite idle_update_cache; by case_match).
Qed.

Lemma pend_curr w timeout s :
  sched_inv ∅ s -> current s ∈ runq s -> valid_timeout timeout -> pended w s (z_pend_curr w timeout s).
Proof.
  intros Hs Hc Hv. pose proof (inv_pend_curr w timeout s Hs Hc Hv) as Hinv.
  destruct (add_to_waitq_facts (current s) w s) as (Hw & Ho & Hp & Hd & Hpr & Hid).
  set (s1 := add_to_waitq_locked (current s) (Some w) s) in *.
  set (s2 := pend_locked (current s) (Some w) timeout s).
  assert (∀ u, thr s2 u = thr s1 u) as Hthr.
  { intros u. unfold s2, pend_locked, add_thread_timeout. by case_match. }
  assert (∀ v, waitq s2 v = waitq s1 v) as Hwq.
  { intros v. unfold s2, pend_locked, add_thread_timeout. by case_match. }
  assert (current s2 = current s) as Hcur by apply current_pend_locked.
  assert (∀ u, thr (do_swap s2) u =
    if decide (current s = u) then set_swap_retval (- EAGAIN) (thr s1 u) else thr s1 u) as Hswap.
  { intros u. unfold do_swap. cbv zeta. rewrite Hcur, <- !Hthr. destruct (decide (current s = u)) as [<- | Hne].
    - case_match; [apply thr_upd_eq |]. change (thr (set_current ?a ?b)) with (thr b). apply thr_upd_eq.
    - case_match; [by apply thr_upd_ne |]. change (thr (set_current ?a ?b)) with (thr b). by apply thr_upd_ne. }
  change (z_pend_curr w timeout s) with (do_swap s2) in *.
  constructor; unfold swap_return; rewrite ?Hswap, ?decide_True by done; try done.
  - intros v. rewrite (same_waitq _ _ (same_do_swap s2)), Hwq. apply Hw.
  - intros u Hu. rewrite Hswap, decide_False by done. by apply Ho.
  - rewrite (same_idle _ _ (same_do_swap s2)), <- Hid. unfold s2, pend_locked, add_thread_timeout. by case_match.
Qed.

(** The waiting thread's record, up to its QUEUED bit. *)
Lemma pend_curr_thr w timeout s :
  exists x, (x = thr s (current s) \/ x = unmark_state _THREAD_QUEUED (thr s (current s))) /\
    thr (z_pend_curr w timeout s) (current s) =
    set_swap_retval (- EAGAIN) (set_pended_on (Some w) (z_mark_thread_as_pending x)).
Proof.
  set (c := current s). exists (thr (unready_thread c s) c). split.
  { rewrite thr_unready, decide_True by done. case_match; auto. }
  set (s1 := add_to_waitq_locked c (Some w) s). set (s2 := add_thread_timeout c timeout s1).
  assert (thr s2 c = thr s1 c) as H2 by (unfold s2, add_thread_timeout; by case_match).
  assert (current s2 = c) as Hcur by apply (current_pend_locked c (Some w) timeout s).
  change (z_pend_curr w timeout s) with (do_swap s2). unfold do_swap. cbv zeta. rewrite Hcur.
  assert (thr s1 c = set_pended_on (Some w) (z_mark_thread_as_pending (thr (unready_thread c s) c))) as H1.
  { unfold s1, add_to_waitq_locked. cbv zeta. rewrite upd_upd. change (thr (upd_waitq ?a ?g ?b)) with (thr b). apply thr_upd_eq. }
  case_match; [| change (thr (set_current ?a ?b)) with (thr b)]; by rewrite thr_upd_eq, H2, H1.
Qed.

End WaitApi.
