(* ===== verification/Sem.v ===== *)
(** * Counting semaphores (kernel/sem.c)

    The four operations on [struct k_sem], the invariant that no thread waits
    while the count is positive, what each operation does on every branch, and
    the conservation of tokens over arbitrary runs. *)

From Stdlib Require Import ZArith Lia Bool.
From stdpp Require Import base numbers list gmap sets.
From S2P Require Import Prelude TimeoutQ Kernel PrioQ Sched SchedInv SchedOps Threads WaitApi.

Open Scope Z_scope.

(** ** [struct k_sem] and its operations *)

Record k_sem := mk_sem {
  sem_wait_q : wqid;
  sem_count : Z;
  sem_limit : Z
}.

Definition set_sem_count (n : Z) (sem : k_sem) : k_sem := mk_sem (sem_wait_q sem) n (sem_limit sem).

Section Ops.
Context {cfg : Kconfig}.
Implicit Types (sem : k_sem) (s : z_kernel).

Definition z_impl_k_sem_init sem (initial_count limit : Z) s : Z * k_sem * z_kernel :=
  if (limit =? 0) || (initial_count >? limit) then (- EINVAL, sem, s)
  else (0, mk_sem (sem_wait_q sem) initial_count limit, z_waitq_init (sem_wait_q sem) s).

(** CONFIG_POLL is off. *)
Definition handle_poll_events sem : bool := false.

Definition z_impl_k_sem_give sem s : k_sem * z_kernel :=
  match z_unpend_first_thread (sem_wait_q sem) s with
  | (Some thread, s) =>
      let s := arch_thread_return_value_set thread 0 s in
      let s := z_ready_thread thread s in
      (sem, z_reschedule s)
  | (None, s) =>
      let sem := set_sem_count (u32 (sem_count sem + (if negb (sem_count sem =? sem_limit sem) then 1 else 0))) sem in
      if handle_poll_events sem then (sem, z_reschedule s) else (sem, s)
  end.

Definition z_impl_k_sem_take sem (timeout : Z) s : outcome * k_sem * z_kernel :=
  if sem_count sem >? 0 then (Returns 0, set_sem_count (u32 (sem_count sem - 1)) sem, s)
  else if K_TIMEOUT_EQ timeout K_NO_WAIT then (Returns (- EBUSY), sem, s)
  else (Blocks, sem, z_pend_curr (sem_wait_q sem) timeout s).

(** One turn of the loop of [k_sem_reset]. *)
Definition sem_reset_body sem (_ : tid) s : z_kernel :=
  match z_unpend_first_thread (sem_wait_q sem) s with
  | (Some thread, s) => z_ready_thread thread (arch_thread_return_value_set thread (- EAGAIN) s)
  | (None, s) => s
  end.

Definition z_impl_k_sem_reset sem s : k_sem * z_kernel :=
  let s := waitq_drain (length (waitq s (sem_wait_q sem))) (sem_reset_body sem) (sem_wait_q sem) s in
  (set_sem_count 0 sem, z_reschedule s).

Definition z_impl_k_sem_count_get sem : Z := sem_count sem.

(** ** Invariant *)

(** The count is within the limit, and no thread waits for a token that is
    there. *)
Record sem_ok sem s : Prop := {
  sem_range : 0 <= sem_count sem <= sem_limit sem;
  sem_limit_range : 0 < sem_limit sem <= UINT32_MAX;
  sem_waiters : waitq s (sem_wait_q sem) ≠ [] -> sem_count sem = 0
}.

Lemma sem_give_waiter sem s t l :
  sched_inv ∅ s -> waitq s (sem_wait_q sem) = t :: l ->
  exists s2, z_impl_k_sem_give sem s = (sem, z_reschedule s2) /\
    woken (sem_wait_q sem) t l s s2 /\ swap_return s2 t = 0.
Proof.
  intros Hs Hw. unfold z_impl_k_sem_give.
  destruct (wake_first (sem_wait_q sem) s t l 0 Hs Hw) as (s1 & -> & H1 & H2 & _). eauto.
Qed.

Lemma sem_give_free sem s :
  sem_ok sem s -> waitq s (sem_wait_q sem) = [] ->
  z_impl_k_sem_give sem s = (set_sem_count (Z.min (sem_count sem + 1) (sem_limit sem)) sem, s).
Proof.
  intros [Hr Hl _] Hw. unfold z_impl_k_sem_give. rewrite unpend_first_none by done. simpl.
  f_equal. f_equal. unfold UINT32_MAX in *.
  destruct (Z.eqb_spec (sem_count sem) (sem_limit sem)); simpl; rewrite wrap_u_id by lia; lia.
Qed.

Lemma woken_reschedule w t l s s2 :
  woken w t l s s2 -> sched_inv ∅ (z_reschedule s2) /\
  (∀ v, waitq (z_reschedule s2) v = if decide (w = v) then l else waitq s v).
Proof.
  intros Hw. destruct (reschedule_frame s2) as (Hsame & _ & _). split.
  - rewrite <- Hsame. apply Hw.
  - intros v. rewrite (same_waitq _ _ Hsame). apply Hw.
Qed.

Lemma sem_give_ok sem s :
  sched_inv ∅ s -> sem_ok sem s ->
  let '(sem', s') := z_impl_k_sem_give sem s in
  sched_inv ∅ s' /\ sem_ok sem' s' /\ sem_wait_q sem' = sem_wait_q sem /\ sem_limit sem' = sem_limit sem.
Proof.
  intros Hs Hok. destruct (waitq s (sem_wait_q sem)) as [| t l] eqn:Hw.
  - rewrite sem_give_free by done. destruct Hok. split; [done |]. split; [| done].
    constructor; simpl; [lia | lia | congruence].
  - destruct (sem_give_waiter sem s t l Hs Hw) as (s2 & -> & Hwk & _).
    destruct (woken_reschedule _ _ _ _ _ Hwk) as [H1 H2]. destruct Hok as [H3 H4 H5].
    split; [done |]. split; [| done]. constructor; [done | done |]. intros _. apply H5. by rewrite Hw.
Qed.

Lemma sem_take_ok sem timeout s :
  sched_inv ∅ s -> sem_ok sem s -> current s ∈ runq s -> valid_timeout timeout ->
  let '(_, sem', s') := z_impl_k_sem_take sem timeout s in
  sched_inv ∅ s' /\ sem_ok sem' s' /\ sem_wait_q sem' = sem_wait_q sem /\ sem_limit sem' = sem_limit sem.
Proof.
  intros Hs [Hr Hl Hw] Hc Hv. unfold z_impl_k_sem_take. unfold UINT32_MAX in *.
  destruct (Z.gtb_spec (sem_count sem) 0) as [Hpos | Hz].
  - split; [done |]. split; [| done]. constructor; simpl; rewrite ?wrap_u_id by lia; try (unfold UINT32_MAX; lia).
    intros H. specialize (Hw H). lia.
  - destruct (K_TIMEOUT_EQ timeout K_NO_WAIT); [split; [done | split; [by constructor | done]] |].
    destruct (pend_curr (sem_wait_q sem) timeout s Hs Hc Hv).
    split; [done |]. split; [| done]. constructor; try done. intros _. lia.
Qed.

(** ** Reset *)

Lemma sem_reset_ok sem s :
  sched_inv ∅ s -> sem_ok sem s ->
  let '(sem', s') := z_impl_k_sem_reset sem s in
  sched_inv ∅ s' /\ sem_ok sem' s' /\ sem_count sem' = 0 /\ waitq s' (sem_wait_q sem) = [].
Proof.
  intros Hs [Hr Hl Hw]. unfold z_impl_k_sem_reset.
  destruct (drain_ok ∅ (sem_wait_q sem) (sem_reset_body sem) (length (waitq s (sem_wait_q sem))) s (wake_with_head (sem_wait_q sem) (- EAGAIN)) Hs) as [H1 H2]; [lia |].
  change (wake_with (sem_wait_q sem) (- EAGAIN)) with (sem_reset_body sem) in *.
  set (s1 := waitq_drain _ _ _ _) in *. destruct (reschedule_frame s1) as (Hsame & _ & _).
  assert (waitq (z_reschedule s1) (sem_wait_q sem) = []) as Hw' by (rewrite (same_waitq _ _ Hsame); done).
  split; [by rewrite <- Hsame |]. split; [| done]. constructor; simpl; try (done || lia).
Qed.

(** ** Claims *)

(** A give wakes exactly the first waiter, with return value 0, and leaves
    the count alone; the other waiters keep their places.  Without waiters the
    count goes up by one, and stays at the limit once there. *)
Theorem sem_give_spec sem s :
  sched_inv ∅ s -> sem_ok sem s -> current s ∈ runq s ->
  let '(sem', s') := z_impl_k_sem_give sem s in
  match waitq s (sem_wait_q sem) with
  | [] => s' = s /\ sem_count sem' = Z.min (sem_count sem + 1) (sem_limit sem)
  | t :: l =>
      sem' = sem /\ waitq s' (sem_wait_q sem) = l /\ swap_return s' t = 0 /\
      pended_on (thr s' t) = None /\
      (∀ v, v ≠ sem_wait_q sem -> waitq s' v = waitq s v)
  end.
Proof.
  intros Hs Hok Hc. destruct (waitq s (sem_wait_q sem)) as [| t l] eqn:Hw.
  - by rewrite sem_give_free.
  - destruct (sem_give_waiter sem s t l Hs Hw) as (s2 & -> & Hwk & Hret).
    destruct (woken_reschedule _ _ _ _ _ Hwk) as [_ H2]. destruct (reschedule_frame s2) as (_ & Hf & _).
    assert (t ≠ current s2) as Hne.
    { pose proof (wk_ctx _ _ _ _ _ Hwk) as (-> & _)%ctx_eq. intros ->.
      assert (pended_on (thr s (current s)) = Some (sem_wait_q sem)) as Hp.
      { apply (inv_waitq _ _ Hs). rewrite Hw. by apply elem_of_cons; left. }
      by apply (inv_pended_not_queued _ _ _ _ Hs) in Hp. }
    split; [done |]. unfold swap_return in *. rewrite Hf by done. rewrite H2, decide_True by done.
    repeat split; [done | apply Hwk |]. intros v Hv. by rewrite H2, decide_False.
Qed.

(** A take succeeds at once exactly when the count is positive and then
    consumes one token; otherwise it fails with EBUSY if it may not wait, and
    puts the caller on the wait queue behind the waiters it does not outrank
    if it may, to return -EAGAIN unless someone wakes it. *)
Theorem sem_take_spec sem timeout s :
  sched_inv ∅ s -> sem_ok sem s -> current s ∈ runq s -> valid_timeout timeout ->
  let '(o, sem', s') := z_impl_k_sem_take sem timeout s in
  match o with
  | Returns r =>
      s' = s /\
      ((r = 0 /\ sem_count sem > 0 /\ sem_count sem' = sem_count sem - 1) \/
       (r = - EBUSY /\ sem_count sem = 0 /\ timeout = K_NO_WAIT /\ sem' = sem))
  | Blocks =>
      sem' = sem /\ sem_count sem = 0 /\ timeout ≠ K_NO_WAIT /\
      waitq s' (sem_wait_q sem) = z_priq_dumb_add (thr s) (waitq s (sem_wait_q sem)) (current s) /\
      swap_return s' (current s) = - EAGAIN
  end.
Proof.
  intros Hs [Hr Hl Hw] Hc Hv. unfold z_impl_k_sem_take, UINT32_MAX, K_TIMEOUT_EQ in *.
  destruct (Z.gtb_spec (sem_count sem) 0) as [Hpos | Hz].
  - split; [done |]. left. simpl. rewrite wrap_u_id by lia. lia.
  - destruct (Z.eqb_spec timeout K_NO_WAIT); [split; [done | right; repeat split; (done || lia)] |].
    pose proof (pend_curr (sem_wait_q sem) timeout s Hs Hc Hv) as Hp.
    split; [done |]. split; [lia |]. split; [done |]. split; [| apply Hp].
    by rewrite (pd_waitq _ _ _ Hp), decide_True.
Qed.

(** ** Conservation *)

(** A semaphore and the threads inside a call of [k_sem_take]: those that wait,
    and those that have been woken and have not returned yet. *)
Record sem_sys := mk_sem_sys { ss_sem : k_sem; ss_kernel : z_kernel; ss_taking : list tid }.

(** A step of a system around one semaphore, with the tokens it puts in (a reset
    takes out what is there) and the values returned by calls of [k_sem_take].
    [sem_step_other] is anything else the kernel does: it may take waiters off
    the queue (timeouts, aborts) but adds none, and leaves the return values of
    the threads inside a take alone.  A thread inside a take makes no other call. *)
Inductive sem_step : sem_sys -> Z -> list Z -> sem_sys -> Prop :=
  | sem_step_give sem s l sem' s' :
      (resched s = true -> current s ∉ l) -> z_impl_k_sem_give sem s = (sem', s') ->
      sem_step (mk_sem_sys sem s l)
        (if bool_decide (waitq s (sem_wait_q sem) = []) && (sem_count sem =? sem_limit sem) then 0 else 1) []
        (mk_sem_sys sem' s' l)
  | sem_step_take sem s l timeout o sem' s' :
      current s ∈ runq s -> current s ∉ l -> valid_timeout timeout -> z_impl_k_sem_take sem timeout s = (o, sem', s') ->
      sem_step (mk_sem_sys sem s l) 0 (match o with Returns r => [r] | Blocks => [] end)
        (mk_sem_sys sem' s' (match o with Returns _ => l | Blocks => current s :: l end))
  | sem_step_return sem s l1 t l2 :
      t ∉ waitq s (sem_wait_q sem) ->
      sem_step (mk_sem_sys sem s (l1 ++ t :: l2)) 0 [swap_return s t] (mk_sem_sys sem s (l1 ++ l2))
  | sem_step_reset sem s l sem' s' :
      (resched s = true -> current s ∉ l) -> z_impl_k_sem_reset sem s = (sem', s') ->
      sem_step (mk_sem_sys sem s l) (- sem_count sem) [] (mk_sem_sys sem' s' l)
  | sem_step_other sem s s' l :
      sched_inv ∅ s' -> waitq s' (sem_wait_q sem) ⊆ waitq s (sem_wait_q sem) ->
      (∀ t, t ∈ l -> swap_return s' t = swap_return s t) -> sem_step (mk_sem_sys sem s l) 0 [] (mk_sem_sys sem s' l).

Inductive sem_steps : sem_sys -> Z -> list Z -> sem_sys -> Prop :=
  | sem_steps_refl x : sem_steps x 0 [] x
  | sem_steps_step x y z i r i' r' : sem_step x i r y -> sem_steps y i' r' z -> sem_steps x (i + i') (r ++ r') z.

(** The threads inside a take that have been given a token. *)
Definition has_token (w : wqid) (s : z_kernel) (t : tid) : bool :=
  bool_decide (t ∉ waitq s w) && (swap_return s t =? 0).

Definition given (x : sem_sys) : Z :=
  Z.of_nat (length (filter (λ t, has_token (sem_wait_q (ss_sem x)) (ss_kernel x) t = true) (ss_taking x))).

(** The calls that returned 0. *)
Definition taken (r : list Z) : Z := Z.of_nat (length (filter (λ v, v = 0) r)).

Record sem_inv (x : sem_sys) : Prop := {
  si_sched : sched_inv ∅ (ss_kernel x);
  si_ok : sem_ok (ss_sem x) (ss_kernel x);
  si_nodup : NoDup (ss_taking x);
  si_waiting : waitq (ss_kernel x) (sem_wait_q (ss_sem x)) ⊆ ss_taking x;
  si_preset : ∀ t, t ∈ waitq (ss_kernel x) (sem_wait_q (ss_sem x)) -> swap_return (ss_kernel x) t = - EAGAIN;
  si_results : ∀ t, t ∈ ss_taking x -> swap_return (ss_kernel x) t = 0 \/ swap_return (ss_kernel x) t = - EAGAIN
}.

Lemma given_same w w' s s' l :
  (∀ t, t ∈ l -> has_token w' s' t = has_token w s t) ->
  length (filter (λ t, has_token w' s' t = true) l) = length (filter (λ t, has_token w s t = true) l).
Proof. intros H. f_equal. apply filter_ext_elem. intros t Ht. by rewrite H. Qed.

(** One more thread of the list has a token. *)
Lemma given_more w s s' l t :
  NoDup l -> t ∈ l -> has_token w s t = false -> has_token w s' t = true ->
  (∀ u, u ∈ l -> u ≠ t -> has_token w s' u = has_token w s u) ->
  length (filter (λ t, has_token w s' t = true) l) = S (length (filter (λ t, has_token w s t = true) l)).
Proof.
  intros Hnd Ht H0 H1 Ho. apply list_elem_of_split in Ht as (l1 & l2 & ->).
  apply NoDup_app in Hnd as (_ & N1 & [N2 _]%NoDup_cons). rewrite !filter_app, !length_app.
  rewrite filter_cons_True, filter_cons_False by (done || congruence). simpl.
  rewrite (given_same w w s s' l1), (given_same w w s s' l2); [lia | |];
    intros u Hu; apply Ho; [set_solver | set_solver | set_solver |].
  intros ->. by apply (N1 t Hu); left.
Qed.

Lemma reschedule_return s u :
  (resched s = true -> u ≠ current s) -> swap_return (z_reschedule s) u = swap_return s u.
Proof.
  intros H. unfold swap_return. destruct (resched s) eqn:E.
  - destruct (reschedule_frame s) as (_ & Ho & _). by rewrite Ho by auto.
  - unfold z_reschedule. by rewrite E.
Qed.

Lemma resched_ctx s s' : ctx s' = ctx s -> resched s' = resched s.
Proof. intros [= _ _ E1 E2]. unfold resched, arch_is_in_isr. by rewrite E1, E2. Qed.

(** A give to the first waiter. *)
Lemma give_inv sem s l t q :
  sem_inv (mk_sem_sys sem s l) -> (resched s = true -> current s ∉ l) -> waitq s (sem_wait_q sem) = t :: q ->
  let '(sem', s') := z_impl_k_sem_give sem s in
  sem_inv (mk_sem_sys sem' s' l) /\ sem' = sem /\ given (mk_sem_sys sem' s' l) = given (mk_sem_sys sem s l) + 1.
Proof.
  intros [Hs Hok Hnd Hwt Hpre Hres] Hc Hw. cbn [ss_sem ss_kernel ss_taking] in *.
  pose proof (sem_give_ok sem s Hs Hok) as Hg. destruct (sem_give_waiter sem s t q Hs Hw) as (s2 & E & Hwk & Hret).
  rewrite E in *. destruct Hg as (G1 & G2 & _). destruct (woken_reschedule _ _ _ _ _ Hwk) as [_ Hq].
  specialize (Hq (sem_wait_q sem)). rewrite decide_True in Hq by done.
  destruct (ctx_eq _ _ (wk_ctx _ _ _ _ _ Hwk)) as (Hcur & _).
  assert (∀ u, u ∈ l -> swap_return (z_reschedule s2) u = swap_return s2 u) as Hr.
  { intros u Hu. apply reschedule_return. rewrite (resched_ctx s) by apply Hwk. intros Hre ->. rewrite Hcur in Hu. by apply Hc in Hre. }
  assert (∀ u, u ≠ t -> swap_return s2 u = swap_return s u) as Ho.
  { intros u Hu. unfold swap_return. by rewrite (wk_others _ _ _ _ _ Hwk). }
  assert (NoDup (t :: q)) as [Htq _]%NoDup_cons by (rewrite <- Hw; apply (inv_waitq_nodup _ _ Hs)).
  assert (t ∈ l) as Htl by (apply Hwt; rewrite Hw; left).
  split; [| split; [done |]].
  - constructor; cbn [ss_sem ss_kernel ss_taking]; rewrite ?Hq; try done.
    + intros u Hu. apply Hwt. rewrite Hw. by right.
    + intros u Hu. rewrite Hr by (apply Hwt; rewrite Hw; by right). rewrite Ho by (intros ->; done). apply Hpre. rewrite Hw. by right.
    + intros u Hu. rewrite Hr by done. destruct (decide (u = t)) as [-> |]; [by left |]. rewrite Ho by done. auto.
  - unfold given. cbn [ss_sem ss_kernel ss_taking]. rewrite (given_more _ s _ l t Hnd Htl); [lia | | |].
    + unfold has_token. rewrite Hw, bool_decide_false by (intros H; apply H; left). done.
    + unfold has_token. rewrite Hq, Hr, Hret, bool_decide_true by done. done.
    + intros u Hu Hut. unfold has_token. rewrite Hq, Hr, Ho, Hw by done. f_equal. apply bool_decide_ext. set_solver.
Qed.

Lemma taken_app r r' : taken (r ++ r') = taken r + taken r'.
Proof. unfold taken. rewrite filter_app, length_app. lia. Qed.

Lemma take_inv sem s l timeout :
  sem_inv (mk_sem_sys sem s l) -> current s ∈ runq s -> current s ∉ l -> valid_timeout timeout ->
  let '(o, sem', s') := z_impl_k_sem_take sem timeout s in
  let y := mk_sem_sys sem' s' (match o with Returns _ => l | Blocks => current s :: l end) in
  let r := match o with Returns r => [r] | Blocks => [] end in
  sem_inv y /\ sem_count sem' + taken r + given y = sem_count sem + given (mk_sem_sys sem s l) /\
  Forall (λ v, v = 0 \/ v = - EBUSY \/ v = - EAGAIN) r.
Proof.
  intros [Hs Hok Hnd Hwt Hpre Hres] Hc Hl Hv. cbn [ss_sem ss_kernel ss_taking] in *.
  pose proof (sem_take_ok sem timeout s Hs Hok Hc Hv) as Ht. revert Ht. unfold z_impl_k_sem_take.
  destruct Hok as [Hr Hlim Hw0]. unfold UINT32_MAX in *. destruct (Z.gtb_spec (sem_count sem) 0) as [Hp | Hz].
  - intros (T1 & T2 & _). split; [by constructor |]. split; [| apply Forall_singleton; by left]. unfold given, taken. simpl.
    rewrite wrap_u_id by lia. lia.
  - destruct (K_TIMEOUT_EQ timeout K_NO_WAIT); intros (T1 & T2 & _).
    + split; [by constructor |]. split; [unfold given, taken; simpl; lia | apply Forall_singleton; auto].
    + pose proof (pend_curr (sem_wait_q sem) timeout s Hs Hc Hv) as Hpd. set (s' := z_pend_curr _ _ _) in *.
      assert (∀ u, u ∈ waitq s' (sem_wait_q sem) <-> u = current s \/ u ∈ waitq s (sem_wait_q sem)) as Hq.
      { intros u. rewrite (pd_waitq _ _ _ Hpd), decide_True by done. apply dumb_add_elem. }
      assert (∀ u, u ∈ l -> swap_return s' u = swap_return s u) as Ho.
      { intros u Hu. unfold swap_return. rewrite (pd_others _ _ _ Hpd); [done |]. by intros ->. }
      split; [| split; [| constructor]].
      * constructor; cbn [ss_sem ss_kernel ss_taking]; [done | done | by constructor | | |].
        -- intros u [-> | Hu]%Hq; [left | right; auto].
        -- intros u [-> | Hu]%Hq; [apply Hpd |]. rewrite Ho by auto. auto.
        -- intros u [-> | Hu]%elem_of_cons; [right; apply Hpd | rewrite Ho by done; auto].
      * unfold given, taken. cbn [ss_sem ss_kernel ss_taking]. rewrite filter_cons_False.
        2: { unfold has_token. rewrite (pd_return _ _ _ Hpd). by rewrite andb_false_r. }
        rewrite (given_same (sem_wait_q sem) _ s); [simpl; lia |]. intros u Hu. unfold has_token. rewrite Ho by done. f_equal.
        apply bool_decide_ext. rewrite Hq. split; [tauto |]. intros ? [-> |]; done.
Qed.

Lemma reset_inv sem s l :
  sem_inv (mk_sem_sys sem s l) -> (resched s = true -> current s ∉ l) ->
  let '(sem', s') := z_impl_k_sem_reset sem s in
  sem_inv (mk_sem_sys sem' s' l) /\ sem_count sem' = 0 /\ given (mk_sem_sys sem' s' l) = given (mk_sem_sys sem s l).
Proof.
  intros [Hs Hok Hnd Hwt Hpre Hres] Hc. cbn [ss_sem ss_kernel ss_taking] in *.
  pose proof (sem_reset_ok sem s Hs Hok) as Hr. revert Hr. unfold z_impl_k_sem_reset.
  destruct (wake_all_with (sem_wait_q sem) (- EAGAIN) (length (waitq s (sem_wait_q sem))) s Hs ltac:(lia)) as (W1 & W2 & W3 & _).
  change (wake_with (sem_wait_q sem) (- EAGAIN)) with (sem_reset_body sem) in *.
  set (s1 := waitq_drain _ _ _ _) in *. intros (R1 & R2 & R3 & R4). destruct (ctx_eq _ _ W3) as (Hcur & _).
  assert (∀ u, u ∈ l -> swap_return (z_reschedule s1) u = swap_return s u) as Hsw.
  { intros u Hu. rewrite reschedule_return.
    - destruct (decide (u ∈ waitq s (sem_wait_q sem))) as [Hin | Hin]; [by rewrite (proj1 (W1 u Hin)), Hpre |].
      unfold swap_return. by rewrite W2.
    - rewrite (resched_ctx s) by done. intros Hre ->. rewrite Hcur in Hu. by apply Hc in Hre. }
  split; [| split; [done |]].
  - constructor; cbn [ss_sem ss_kernel ss_taking set_sem_count sem_wait_q]; rewrite ?R4; try done; [set_solver | set_solver |].
    intros u Hu. rewrite Hsw by done. auto.
  - unfold given. cbn [ss_sem ss_kernel ss_taking set_sem_count sem_wait_q]. f_equal. apply given_same. intros u Hu. unfold has_token.
    rewrite Hsw, R4 by done. rewrite bool_decide_true by (by intros ?%elem_of_nil).
    destruct (decide (u ∈ waitq s (sem_wait_q sem))) as [Hin | Hin]; [| by rewrite bool_decide_true].
    rewrite Hpre by done. change (- EAGAIN =? 0) with false. by rewrite !andb_false_r.
Qed.

Lemma sem_step_ok x i r y :
  sem_step x i r y -> sem_inv x ->
  sem_inv y /\ sem_count (ss_sem y) + taken r + given y = sem_count (ss_sem x) + given x + i /\
  Forall (λ v, v = 0 \/ v = - EBUSY \/ v = - EAGAIN) r.
Proof.
  destruct 1 as [sem s l sem' s' Hc E | sem s l timeout o sem' s' Hc Hl Hv E | sem s l1 t l2 Ht | sem s l sem' s' Hc E |
    sem s s' l Hs' Hsub Hkeep]; intros Hx.
  - destruct (waitq s (sem_wait_q sem)) as [| t q] eqn:Hw.
    + destruct Hx as [Hs Hok Hnd Hwt Hpre Hres]. cbn [ss_sem ss_kernel ss_taking] in *. pose proof (sem_give_ok sem s Hs Hok) as Hg.
      rewrite sem_give_free in * by done. injection E as <- <-. destruct Hg as (G1 & G2 & _). rewrite bool_decide_true by done.
      split; [by constructor |]. split; [| constructor]. unfold given, taken. simpl. destruct Hok.
      destruct (Z.eqb_spec (sem_count sem) (sem_limit sem)); simpl; lia.
    + pose proof (give_inv sem s l t q Hx Hc Hw) as Hg. rewrite E in Hg. destruct Hg as (G1 & -> & G3).
      split; [done |]. rewrite G3, bool_decide_false by done. split; [unfold taken; simpl; lia | constructor].
  - pose proof (take_inv sem s l timeout Hx Hc Hl Hv) as H. rewrite E in H.
    cbn [ss_sem]. destruct H as (H1 & H2 & H3). split; [done |]. split; [lia | done].
  - destruct Hx as [Hs Hok Hnd Hwt Hpre Hres]. cbn [ss_sem ss_kernel ss_taking] in *. split; [| split].
    + constructor; cbn [ss_sem ss_kernel ss_taking]; try done.
      * apply NoDup_app in Hnd as (N1 & N2 & [N3 N4]%NoDup_cons). apply NoDup_app. split_and!; [done | set_solver | done].
      * intros u Hu. specialize (Hwt u Hu). assert (u ≠ t) by (by intros ->). set_solver.
      * intros u Hu. apply Hres. set_solver.
    + unfold given, taken. cbn [ss_sem ss_kernel ss_taking]. rewrite !filter_app, !length_app.
      assert (has_token (sem_wait_q sem) s t = (swap_return s t =? 0)) as E by (unfold has_token; by rewrite bool_decide_true).
      destruct (Z.eqb_spec (swap_return s t) 0) as [E0 | E0].
      * rewrite !filter_cons_True by done. simpl. lia.
      * rewrite !filter_cons_False by congruence. simpl. lia.
    + apply Forall_singleton. destruct (Hres t) as [-> | ->]; [set_solver | auto..].
  - pose proof (reset_inv sem s l Hx Hc) as H. rewrite E in H.
    destruct H as (H1 & H2 & H3). split; [done |]. cbn [ss_sem]. rewrite H2, H3. split; [unfold taken; simpl; lia | constructor].
  - destruct Hx as [Hs Hok Hnd Hwt Hpre Hres]. cbn [ss_sem ss_kernel ss_taking] in *. split; [| split; [| constructor]].
    + constructor; cbn [ss_sem ss_kernel ss_taking]; try done.
      * destruct Hok as [H1 H2 H3]. constructor; [done | done |].
        intros Hne. apply H3. intros Hnil. rewrite Hnil in Hsub. apply Hne. by apply list_nil_subseteq.
      * set_solver.
      * intros t Ht. rewrite Hkeep by auto. auto.
      * intros t Ht. rewrite Hkeep by auto. auto.
    + unfold given, taken. cbn [ss_sem ss_kernel ss_taking]. rewrite (given_same (sem_wait_q sem) _ s); [simpl; lia |].
      intros t Ht. unfold has_token. rewrite Hkeep by done.
      destruct (decide (t ∈ waitq s (sem_wait_q sem))) as [Hin | Hin]; [rewrite Hpre by done; change (- EAGAIN =? 0) with false; by rewrite !andb_false_r |].
      rewrite !bool_decide_true by set_solver. done.
Qed.

Lemma sem_run_ok x i r y :
  sem_steps x i r y -> sem_inv x ->
  sem_inv y /\ sem_count (ss_sem y) + taken r + given y = sem_count (ss_sem x) + given x + i /\
  Forall (λ v, v = 0 \/ v = - EBUSY \/ v = - EAGAIN) r.
Proof.
  induction 1 as [x | x y z i r i' r' Hstep Hrun IH]; intros Hx; [split; [done |]; split; [unfold taken; simpl; lia | constructor] |].
  destruct (sem_step_ok x i r y Hstep Hx) as (H1 & H2 & H3). destruct (IH H1) as (H4 & H5 & H6).
  split; [done |]. rewrite taken_app. split; [lia | by apply Forall_app].
Qed.

(** C13: Over any run of gives, takes, resets and other kernel activity by any
    threads, no token is lost or made up, counted by what the callers of
    [k_sem_take] get back: the initial count and the tokens put in by gives (none
    by a give on a full semaphore; a reset takes out what is there) are the calls
    that returned 0, the calls that have been given a token and have not returned
    yet, and the final count.  Every other call returns -EBUSY or -EAGAIN.  The
    count stays within the limit, nobody waits while a token is available, and the
    waiting threads are inside a take. *)
Theorem sem_conservation x i r y :
  sem_steps x i r y -> sched_inv ∅ (ss_kernel x) -> sem_ok (ss_sem x) (ss_kernel x) ->
  ss_taking x = [] -> waitq (ss_kernel x) (sem_wait_q (ss_sem x)) = [] ->
  sem_count (ss_sem x) + i = taken r + given y + sem_count (ss_sem y) /\
  Forall (λ v, v = 0 \/ v = - EBUSY \/ v = - EAGAIN) r /\
  sem_ok (ss_sem y) (ss_kernel y) /\ sched_inv ∅ (ss_kernel y) /\
  (∀ t, t ∈ waitq (ss_kernel y) (sem_wait_q (ss_sem y)) -> t ∈ ss_taking y).
Proof.
  intros Hrun Hs Hok Ht Hw. assert (given x = 0) as Hg by (unfold given; by rewrite Ht).
  assert (sem_inv x) as Hx by (constructor; rewrite ?Ht, ?Hw; try done; [constructor | set_solver | set_solver]).
  destruct (sem_run_ok x i r y Hrun Hx) as ([] & H1 & H2). split; [lia |]. auto.
Qed.

(** A reset zeroes the count and empties the wait queue; every thread that
    was waiting returns -EAGAIN. *)
Theorem sem_reset_spec sem s :
  sched_inv ∅ s -> sem_ok sem s -> current s ∈ runq s ->
  let '(sem', s') := z_impl_k_sem_reset sem s in
  sched_inv ∅ s' /\ sem_count sem' = 0 /\ sem_limit sem' = sem_limit sem /\ waitq s' (sem_wait_q sem) = [] /\
  ∀ t, t ∈ waitq s (sem_wait_q sem) -> swap_return s' t = - EAGAIN /\ pended_on (thr s' t) = None.
Proof.
  intros Hs Hok Hc. pose proof (sem_reset_ok sem s Hs Hok) as H.
  destruct (wake_all_with (sem_wait_q sem) (- EAGAIN) (length (waitq s (sem_wait_q sem))) s Hs ltac:(lia)) as (W1 & _ & W3 & _).
  unfold z_impl_k_sem_reset in *. change (wake_with (sem_wait_q sem) (- EAGAIN)) with (sem_reset_body sem) in *.
  set (s1 := waitq_drain _ _ _ _) in *. destruct H as (H1 & H2 & H3 & H4).
  do 4 (split; [done |]). intros t Ht. destruct (reschedule_frame s1) as (_ & Ho & _).
  unfold swap_return in *. rewrite Ho; [by apply W1 |].
  destruct (ctx_eq _ _ W3) as (-> & _ & _). by apply (waiter_not_current s (sem_wait_q sem)).
Qed.

End Ops.

(** ** Concrete runs *)

#[local] Existing Instance default_kconfig | 100.

Definition sem0 : k_sem := mk_sem (inr 5%nat) 0 2.

Lemma sem0_ok s : sem_ok sem0 s.
Proof. constructor; simpl; (done || unfold UINT32_MAX; lia). Qed.

Lemma sem_give_spec_witness :
  let '(sem', s') := z_impl_k_sem_give sem0 one_waiting in
  sem' = sem0 /\ waitq s' (inr 5%nat) = [] /\ swap_return s' 2 = 0.
Proof.
  pose proof (sem_give_spec sem0 one_waiting one_waiting_inv (sem0_ok _) ltac:(by_compute)) as H.
  vm_compute in H |- *. tauto.
Defined.

Lemma sem_take_spec_witness :
  let '(o, sem', s') := z_impl_k_sem_take sem0 50 two_threads in
  o = Blocks /\ waitq s' (inr 5%nat) = [2%nat] /\ swap_return s' 2 = - EAGAIN.
Proof.
  pose proof (sem_take_spec sem0 50 two_threads two_threads_inv (sem0_ok _) ltac:(by_compute) ltac:(by split)) as H.
  vm_compute in H |- *. tauto.
Defined.

Lemma sem_reset_spec_witness :
  waitq (z_impl_k_sem_reset sem0 one_waiting).2 (inr 5%nat) = [] /\
  swap_return (z_impl_k_sem_reset sem0 one_waiting).2 2 = - EAGAIN.
Proof.
  pose proof (sem_reset_spec sem0 one_waiting one_waiting_inv (sem0_ok _) ltac:(by_compute)) as H.
  destruct (z_impl_k_sem_reset sem0 one_waiting) as [sem' s']. destruct H as (_ & _ & _ & H1 & H2).
  split; [exact H1 | apply H2]. by_compute.
Defined.

(** A take that waits, the give that wakes the thread, and its return. *)
Definition sem_waits : z_kernel := (z_impl_k_sem_take sem0 50 two_threads).2.
Definition sem_woken : z_kernel := (z_impl_k_sem_give sem0 sem_waits).2.

Lemma sem_waits_eq : z_impl_k_sem_take sem0 50 two_threads = (Blocks, sem0, sem_waits).
Proof. assert ((z_impl_k_sem_take sem0 50 two_threads).1 = (Blocks, sem0)) as E by by_compute. rewrite <- E. apply surjective_pairing. Qed.

Lemma sem_woken_eq : z_impl_k_sem_give sem0 sem_waits = (sem0, sem_woken).
Proof. assert ((z_impl_k_sem_give sem0 sem_waits).1 = sem0) as E by by_compute. rewrite <- E at 2. apply surjective_pairing. Qed.

Definition sem_before : sem_sys := mk_sem_sys sem0 two_threads [].
Definition sem_after : sem_sys := mk_sem_sys sem0 sem_woken [].

Lemma sem_run : sem_steps sem_before (0 + (1 + (0 + 0))) ([] ++ [] ++ [0] ++ []) sem_after.
Proof.
  eapply sem_steps_step; [| eapply sem_steps_step; [| eapply sem_steps_step; [| apply sem_steps_refl]]].
  - apply (sem_step_take sem0 two_threads [] 50 Blocks sem0 sem_waits); [by_compute | apply not_elem_of_nil | by split | exact sem_waits_eq].
  - assert (current two_threads = 2%nat) as Ec by by_compute. rewrite Ec.
    assert ((if bool_decide (waitq sem_waits (sem_wait_q sem0) = []) && (sem_count sem0 =? sem_limit sem0) then 0 else 1) = 1) as E by by_compute.
    pose proof (sem_step_give sem0 sem_waits [2%nat] sem0 sem_woken ltac:(intros _; by_compute) sem_woken_eq) as H. rewrite E in H. exact H.
  - assert (swap_return sem_woken 2 = 0) as E by by_compute.
    pose proof (sem_step_return sem0 sem_woken [] 2%nat [] ltac:(by_compute)) as H. rewrite E in H. exact H.
Qed.

Lemma sem_conservation_witness :
  sem_count (ss_sem sem_before) + (0 + (1 + (0 + 0))) =
    taken ([] ++ [] ++ [0] ++ []) + given sem_after + sem_count (ss_sem sem_after) /\ sched_inv ∅ (ss_kernel sem_after).
Proof.
  destruct (sem_conservation _ _ _ _ sem_run two_threads_inv (sem0_ok _) eq_refl ltac:(by_compute)) as (H1 & _ & _ & H2 & _).
  exact (conj H1 H2).
Defined.
