(* ===== verification/Mutex.v ===== *)
(** * Mutexes with priority inheritance (kernel/mutex.c)

    [k_mutex_lock] is split at its context switch: the part up to the switch,
    and [mutex_lock_resume], which runs when the waiter is scheduled again.
    Following a NULL owner yields [None].  The file proves that it never
    happens, that ownership is exclusive, and that the owner inherits the
    priority of the threads it holds up. *)

From Stdlib Require Import ZArith Lia Bool Sorted.
From stdpp Require Import base numbers list gmap sets.
From S2P Require Import Prelude TimeoutQ Kernel PrioQ Sched SchedInv SchedOps Dispatch Threads WaitApi.

Open Scope Z_scope.

(** ** [struct k_mutex] and its operations *)

Record k_mutex := mk_mutex {
  mutex_wait_q : wqid;
  owner : option tid;
  lock_count : Z;
  owner_orig_prio : Z
}.

Definition set_owner (v : option tid) (m : k_mutex) : k_mutex :=
  mk_mutex (mutex_wait_q m) v (lock_count m) (owner_orig_prio m).
Definition set_lock_count (v : Z) (m : k_mutex) : k_mutex :=
  mk_mutex (mutex_wait_q m) (owner m) v (owner_orig_prio m).
Definition set_owner_orig_prio (v : Z) (m : k_mutex) : k_mutex :=
  mk_mutex (mutex_wait_q m) (owner m) (lock_count m) v.

(** [k_mutex_lock] returns, or waits; in that case it remembers whether
    raising the owner's priority asked for a reschedule. *)
Inductive lock_outcome := LockReturns (ret : Z) | LockWaits (resched : bool).

Section Ops.
Context {cfg : Kconfig}.
Implicit Types (m mutex : k_mutex) (s : z_kernel).

Definition z_impl_k_mutex_init mutex s : Z * k_mutex * z_kernel :=
  (0, set_lock_count 0 (set_owner None mutex), z_waitq_init (mutex_wait_q mutex) s).

Definition new_prio_for_inheritance (target limit : Z) : Z :=
  let new_prio := if z_is_prio_higher target limit then target else limit in
  z_get_new_prio_with_ceiling new_prio.

Definition adjust_owner_prio mutex (new_prio : Z) s : option (bool * z_kernel) :=
  match owner mutex with
  | Some o => if negb (prio (thr s o) =? new_prio) then Some (z_thread_prio_set o new_prio s) else Some (false, s)
  | None => None
  end.

Definition z_impl_k_mutex_lock mutex (timeout : Z) s : option (lock_outcome * k_mutex * z_kernel) :=
  if (lock_count mutex =? 0) || bool_decide (owner mutex = Some (current s)) then
    let mutex := set_owner_orig_prio
      (if lock_count mutex =? 0 then prio (thr s (current s)) else owner_orig_prio mutex) mutex in
    let mutex := set_lock_count (u32 (lock_count mutex + 1)) mutex in
    let mutex := set_owner (Some (current s)) mutex in
    Some (LockReturns 0, mutex, s)
  else if K_TIMEOUT_EQ timeout K_NO_WAIT then Some (LockReturns (- EBUSY), mutex, s)
  else
    o ← owner mutex;
    let new_prio := new_prio_for_inheritance (prio (thr s (current s))) (prio (thr s o)) in
    '(resched, s) ← (if z_is_prio_higher new_prio (prio (thr s o)) then adjust_owner_prio mutex new_prio s
                     else Some (false, s));
    Some (LockWaits resched, mutex, z_pend_curr (mutex_wait_q mutex) timeout s).

(** The rest of [k_mutex_lock], once the waiter runs again. *)
Definition mutex_lock_resume mutex (resched : bool) s : option (Z * z_kernel) :=
  let got_mutex := swap_return s (current s) in
  if got_mutex =? 0 then Some (0, s)
  else
    let adjusted : option (bool * z_kernel) :=
      if bool_decide (is_Some (owner mutex)) then
        let new_prio := match z_waitq_head s (mutex_wait_q mutex) with
                        | Some waiter => new_prio_for_inheritance (prio (thr s waiter)) (owner_orig_prio mutex)
                        | None => owner_orig_prio mutex
                        end in
        '(r, s) ← adjust_owner_prio mutex new_prio s; Some (r || resched, s)
      else Some (resched, s) in
    match adjusted with
    | Some (resched, s) => Some (- EAGAIN, if resched then z_reschedule s else s)
    | None => None
    end.

Definition z_impl_k_mutex_unlock mutex s : option (Z * k_mutex * z_kernel) :=
  if bool_decide (owner mutex = None) then Some (- EINVAL, mutex, s)
  else if negb (bool_decide (owner mutex = Some (current s))) then Some (- EPERM, mutex, s)
  else if lock_count mutex >? 1 then Some (0, set_lock_count (u32 (lock_count mutex - 1)) mutex, s)
  else
    '(_, s) ← adjust_owner_prio mutex (owner_orig_prio mutex) s;
    let '(new_owner, s) := z_unpend_first_thread (mutex_wait_q mutex) s in
    let mutex := set_owner new_owner mutex in
    match new_owner with
    | Some t =>
        let mutex := set_owner_orig_prio (prio (thr s t)) mutex in
        let s := arch_thread_return_value_set t 0 s in
        let s := z_ready_thread t s in
        Some (0, mutex, z_reschedule s)
    | None => Some (0, set_lock_count 0 mutex, s)
    end.

(** ** What changing a priority leaves alone *)

Lemma prio_set_frame t p s :
  let s' := (z_thread_prio_set t p s).2 in
  (∀ w, waitq s' w = waitq s w) /\ ctx s' = ctx s /\
  (∀ u, u ≠ t -> thr s' u = thr s u) /\ prio (thr s' t) = s8 p /\
  pended_on (thr s' t) = pended_on (thr s t) /\ swap_retval (thr s' t) = swap_retval (thr s t).
Proof.
  cbv zeta. unfold z_thread_prio_set. case_match; cbn [snd].
  - set (s1 := upd_thread t _ _). split; [| split; [by rewrite ctx_update_cache |]].
    + intros w. by rewrite waitq_update_cache.
    + assert (∀ u, thr s1 u = if decide (t = u) then set_prio (s8 p) (unmark_state _THREAD_QUEUED (thr s t)) else thr s u) as H1.
      { intros u. unfold s1. rewrite thr_upd. destruct (decide (t = u)) as [<- | Hne].
        - by rewrite thr_dequeue_thread, decide_True.
        - by rewrite thr_dequeue_thread, decide_False. }
      rewrite !thr_update_cache, !thr_queue_thread, H1, !decide_True by done. split; [| done].
      intros u Hu. by rewrite thr_update_cache, thr_queue_thread, decide_False, H1, decide_False.
  - split; [done |]. split; [done |]. rewrite thr_upd_eq. split; [| done]. intros u Hu. by apply thr_upd_ne.
Qed.

Lemma prio_set_runq t p s u :
  sched_inv ∅ s -> t ≠ idle_thread s -> u ∈ runq (z_thread_prio_set t p s).2 <-> u ∈ runq s.
Proof.
  intros Hs Hi. unfold z_thread_prio_set. destruct (z_is_thread_ready s t) eqn:Hr; [cbn [snd] | done].
  rewrite runq_update_cache, elem_queue_thread. change (runq (upd_thread ?a ?b ?x)) with (runq x).
  rewrite elem_dequeue_thread. pose proof (inv_ready_queued _ _ Hs t ltac:(set_solver) Hi Hr).
  destruct (decide (u = t)); naive_solver.
Qed.

(** ** Invariant *)

Hypothesis no_deadline : SCHED_DEADLINE = false.
Hypothesis ceiling_range : -128 <= PRIORITY_CEILING < 128.

(** A locked mutex has an owner, who is not waiting for it; a free one has no
    waiters; the waiters are in priority order, and the owner runs at least at
    the priority of each of them, up to the ceiling of inheritance. *)
Record mutex_inv m s : Prop := {
  mi_sched : sched_inv ∅ s;
  mi_count : 0 <= lock_count m <= UINT32_MAX;
  mi_owner : lock_count m = 0 <-> owner m = None;
  mi_free : owner m = None -> waitq s (mutex_wait_q m) = [];
  mi_excl : ∀ o, owner m = Some o -> (o ∉ waitq s (mutex_wait_q m)) /\ o ≠ idle_thread s;
  mi_sorted : StronglySorted (λ a b, prio (thr s a) <= prio (thr s b)) (waitq s (mutex_wait_q m));
  mi_pi : ∀ o u, owner m = Some o -> u ∈ waitq s (mutex_wait_q m) ->
    prio (thr s o) <= Z.max (prio (thr s u)) PRIORITY_CEILING;
  mi_range : ∀ u, -128 <= prio (thr s u) < 128;
  mi_orig : -128 <= owner_orig_prio m < 128
}.

Lemma s8_range x : -128 <= x < 128 -> s8 x = x.
Proof. intros. apply wrap_s_id; lia. Qed.

Lemma ceiling_eq p : z_get_new_prio_with_ceiling p = Z.max p PRIORITY_CEILING.
Proof.
  unfold z_get_new_prio_with_ceiling, z_is_under_prio_ceiling.
  destruct (Z.geb_spec p PRIORITY_CEILING); lia.
Qed.

Lemma inheritance_eq a b : new_prio_for_inheritance a b = Z.max (Z.min a b) PRIORITY_CEILING.
Proof.
  unfold new_prio_for_inheritance, z_is_prio_higher. rewrite ceiling_eq. destruct (Z.ltb_spec a b); lia.
Qed.

Lemma sorted_prio_ext (th th' : tid -> k_thread) l :
  (∀ u, u ∈ l -> prio (th' u) = prio (th u)) ->
  StronglySorted (λ a b, prio (th a) <= prio (th b)) l -> StronglySorted (λ a b, prio (th' a) <= prio (th' b)) l.
Proof.
  intros Hp Hs. induction Hs as [| a l Hs IH Hf]; constructor.
  - apply IH. intros u Hu. apply Hp. by apply elem_of_cons; right.
  - rewrite Forall_forall in *. intros b Hb. rewrite !Hp by (apply elem_of_cons; auto). by apply Hf.
Qed.

(** [adjust_owner_prio] to a representable priority. *)
Lemma adjust_ok m s o p :
  mutex_inv m s -> owner m = Some o -> -128 <= p < 128 ->
  exists b s', adjust_owner_prio m p s = Some (b, s') /\
    sched_inv ∅ s' /\ (∀ w, waitq s' w = waitq s w) /\ ctx s' = ctx s /\
    (∀ u, u ≠ o -> thr s' u = thr s u) /\ prio (thr s' o) = p /\
    (∀ u, u ∈ runq s' <-> u ∈ runq s).
Proof.
  intros Hm Ho Hp. unfold adjust_owner_prio. rewrite Ho.
  pose proof (mi_excl _ _ Hm o Ho) as [_ Hi]. pose proof (mi_sched _ _ Hm) as Hs.
  destruct (Z.eqb_spec (prio (thr s o)) p) as [E | E]; simpl.
  - exists false, s. subst p. done.
  - pose proof (prio_set_frame o p s) as (H1 & H2 & H3 & H4 & _). pose proof (inv_prio_set o p s Hs Hi) as H5.
    pose proof (λ u, prio_set_runq o p s u Hs Hi) as H6.
    destruct (z_thread_prio_set o p s) as [b s']. simpl in *. exists b, s'. rewrite s8_range in H4 by done. done.
Qed.

(** The invariant survives a change of the owner's priority that keeps it
    above the waiters. *)
Lemma adjust_inv m s s' o p :
  mutex_inv m s -> owner m = Some o -> -128 <= p < 128 ->
  sched_inv ∅ s' -> (∀ w, waitq s' w = waitq s w) -> ctx s' = ctx s ->
  (∀ u, u ≠ o -> thr s' u = thr s u) -> prio (thr s' o) = p ->
  (∀ u, u ∈ waitq s (mutex_wait_q m) -> p <= Z.max (prio (thr s u)) PRIORITY_CEILING) ->
  mutex_inv m s'.
Proof.
  intros Hm Ho Hp Hs' Hw Hc Hu Hpo Hpi. destruct Hm. apply ctx_eq in Hc as (_ & Hidle & _).
  pose proof (mi_excl0 o Ho) as [Hx _].
  assert (∀ u, u ∈ waitq s (mutex_wait_q m) -> prio (thr s' u) = prio (thr s u)) as Hsame.
  { intros u Hin. rewrite Hu; [done |]. by intros ->. }
  constructor; rewrite ?Hw, ?Hidle; try done.
  - by apply (sorted_prio_ext (thr s)).
  - intros o' u E Hin. assert (o' = o) as -> by congruence. rewrite Hpo, Hsame by done. by apply Hpi.
  - intros u. destruct (decide (u = o)) as [-> | Hne]; [lia | by rewrite Hu].
Qed.

(** ** Lock *)

Lemma lock_free_ok m timeout s :
  mutex_inv m s -> lock_count m < UINT32_MAX -> current s ≠ idle_thread s ->
  lock_count m = 0 \/ owner m = Some (current s) ->
  exists m', z_impl_k_mutex_lock m timeout s = Some (LockReturns 0, m', s) /\
    mutex_inv m' s /\ owner m' = Some (current s) /\ lock_count m' = lock_count m + 1 /\
    mutex_wait_q m' = mutex_wait_q m /\
    owner_orig_prio m' = (if lock_count m =? 0 then prio (thr s (current s)) else owner_orig_prio m).
Proof.
  intros Hm Hmax Hid Hfree. unfold z_impl_k_mutex_lock. destruct Hm. unfold UINT32_MAX in *.
  assert ((lock_count m =? 0) || bool_decide (owner m = Some (current s)) = true) as ->.
  { destruct Hfree as [-> | ->]; [done |]. by rewrite bool_decide_eq_true_2, orb_true_r. }
  eexists. split; [done |]. cbn [owner lock_count mutex_wait_q owner_orig_prio set_owner set_lock_count set_owner_orig_prio].
  rewrite wrap_u_id by lia. split; [| done].
  assert (owner m = None \/ owner m = Some (current s)) as Hcase by (destruct Hfree; [left; tauto | tauto]).
  assert (current s ∉ waitq s (mutex_wait_q m)) as Hx.
  { destruct Hcase as [E | E]; [rewrite mi_free0 by done; apply not_elem_of_nil | by apply mi_excl0]. }
  constructor; cbn [owner lock_count mutex_wait_q owner_orig_prio set_owner set_lock_count set_owner_orig_prio]; try done.
  - unfold UINT32_MAX. lia.
  - split; [lia | done].
  - by intros o [= <-].
  - intros o u [= <-] Hu. destruct Hcase as [E | E]; [| by apply mi_pi0].
    rewrite mi_free0 in Hu by done. by apply elem_of_nil in Hu.
  - case_match; [apply mi_range0 | done].
Qed.

Lemma pended_prio w s s' u : pended w s s' -> prio (thr s' u) = prio (thr s u).
Proof.
  intros H. destruct (decide (u = current s)) as [-> | Hne]; [apply (pd_prio _ _ _ H) |].
  by rewrite (pd_others _ _ _ H).
Qed.

(** The caller joins the waiters. *)
Lemma pend_mutex_inv m s o s' :
  mutex_inv m s -> owner m = Some o -> o ≠ current s -> pended (mutex_wait_q m) s s' ->
  prio (thr s o) <= Z.max (prio (thr s (current s))) PRIORITY_CEILING ->
  mutex_inv m s'.
Proof.
  intros Hm Ho Hne Hp Hpi. pose proof (λ u, pended_prio _ _ _ u Hp) as Hprio. destruct Hm.
  assert (waitq s' (mutex_wait_q m) = z_priq_dumb_add (thr s) (waitq s (mutex_wait_q m)) (current s)) as Hw.
  { by rewrite (pd_waitq _ _ _ Hp), decide_True. }
  constructor; rewrite ?Hw; try done.
  - apply Hp.
  - congruence.
  - intros o' E. assert (o' = o) as -> by congruence. rewrite (pd_idle _ _ _ Hp), dumb_add_elem.
    destruct (mi_excl0 o Ho). split; [intros [|]; congruence || done | done].
  - apply (sorted_prio_ext (thr s)); [done |]. by apply sorted_add.
  - intros o' u E. assert (o' = o) as -> by congruence. rewrite dumb_add_elem, !Hprio.
    intros [-> | Hu]; [done | by apply mi_pi0].
  - intros u. rewrite Hprio. apply mi_range0.
Qed.

Lemma lock_wait_ok m timeout s o :
  mutex_inv m s -> current s ∈ runq s -> valid_timeout timeout ->
  owner m = Some o -> o ≠ current s -> timeout ≠ K_NO_WAIT ->
  exists b s', z_impl_k_mutex_lock m timeout s = Some (LockWaits b, m, s') /\ mutex_inv m s' /\
    current s ∈ waitq s' (mutex_wait_q m) /\ swap_return s' (current s) = - EAGAIN.
Proof.
  intros Hm Hc Hv Ho Hne Ht. unfold z_impl_k_mutex_lock.
  destruct (Z.eqb_spec (lock_count m) 0) as [E0 | E0].
  { apply (mi_owner _ _ Hm) in E0. congruence. }
  rewrite bool_decide_eq_false_2 by congruence. simpl. unfold K_TIMEOUT_EQ.
  destruct (Z.eqb_spec timeout K_NO_WAIT); [done |]. rewrite Ho. simpl.
  set (p := new_prio_for_inheritance _ _).
  assert (p = Z.max (Z.min (prio (thr s (current s))) (prio (thr s o))) PRIORITY_CEILING) as Hp by apply inheritance_eq.
  pose proof (mi_range _ _ Hm o) as Hr1. pose proof (mi_range _ _ Hm (current s)) as Hr2.
  assert (∀ s1, mutex_inv m s1 -> (∀ u, u ∈ runq s1 <-> u ∈ runq s) -> ctx s1 = ctx s ->
    prio (thr s1 o) <= Z.max (prio (thr s1 (current s))) PRIORITY_CEILING ->
    mutex_inv m (z_pend_curr (mutex_wait_q m) timeout s1) /\
    current s ∈ waitq (z_pend_curr (mutex_wait_q m) timeout s1) (mutex_wait_q m) /\
    swap_return (z_pend_curr (mutex_wait_q m) timeout s1) (current s) = - EAGAIN) as Hpend.
  { intros s1 Hm1 Hrun Hctx Hpi. apply ctx_eq in Hctx as (Hcur & _ & _). rewrite <- Hcur in *.
    assert (pended (mutex_wait_q m) s1 (z_pend_curr (mutex_wait_q m) timeout s1)) as Hpd.
    { apply pend_curr; [apply Hm1 | by apply Hrun | done]. }
    split; [by apply (pend_mutex_inv m s1 o) |]. split; [| apply Hpd].
    rewrite (pd_waitq _ _ _ Hpd), decide_True by done. apply dumb_add_elem. by left. }
  unfold z_is_prio_higher. destruct (Z.ltb_spec p (prio (thr s o))) as [Hlt | Hge].
  - destruct (adjust_ok m s o p Hm Ho) as (b & s1 & -> & A1 & A2 & A3 & A4 & A5 & A6); [lia |].
    simpl. eexists b, _. split; [done |]. apply Hpend; [| done | done |].
    + apply (adjust_inv m s s1 o p); try done; [lia |]. intros u Hu. pose proof (mi_pi _ _ Hm o u Ho Hu). lia.
    + rewrite A5, A4 by done. lia.
  - simpl. eexists false, _. split; [done |]. apply Hpend; try done. lia.
Qed.

(** ** Unlock *)

Lemma handover_inv m s t l s2 :
  sched_inv ∅ s -> StronglySorted (λ a b, prio (thr s a) <= prio (thr s b)) (t :: l) ->
  (∀ u, -128 <= prio (thr s u) < 128) -> lock_count m = 1 -> waitq s (mutex_wait_q m) = t :: l ->
  woken (mutex_wait_q m) t l s s2 ->
  mutex_inv (set_owner_orig_prio (prio (thr s t)) (set_owner (Some t) m)) (z_reschedule s2).
Proof.
  intros mi_sched0 mi_sorted0 mi_range0 H1 Hw Hwk. destruct (reschedule_frame s2) as (Hsame & _ & Hidle).
  pose proof (λ u, proj1 (reschedule_fields s2 u)) as Hprio.
  assert (∀ u, prio (thr (z_reschedule s2) u) = prio (thr s u)) as Hp.
  { intros u. rewrite Hprio. destruct (decide (u = t)) as [-> |]; [apply (wk_prio _ _ _ _ _ Hwk) |].
    by rewrite (wk_others _ _ _ _ _ Hwk). }
  assert (waitq (z_reschedule s2) (mutex_wait_q m) = l) as Hl.
  { rewrite (same_waitq _ _ Hsame), (wk_waitq _ _ _ _ _ Hwk). by rewrite decide_True. }
  assert (NoDup (t :: l)) as Hnd by (rewrite <- Hw; apply (inv_waitq_nodup _ _ mi_sched0)).
  apply StronglySorted_inv in mi_sorted0 as [Hsl Hfl]. rewrite Forall_forall in Hfl.
  constructor; cbn [owner lock_count mutex_wait_q owner_orig_prio set_owner set_lock_count set_owner_orig_prio];
    rewrite ?Hl; try done.
  - rewrite <- Hsame. apply Hwk.
  - unfold UINT32_MAX. lia.
  - split; [lia | done].
  - intros o [= <-]. apply NoDup_cons in Hnd as [Hnd _]. split; [done |].
    rewrite Hidle. destruct (ctx_eq _ _ (wk_ctx _ _ _ _ _ Hwk)) as (_ & -> & _).
    apply (inv_idle_not_pended _ _ _ (mutex_wait_q m) mi_sched0). apply (inv_waitq _ _ mi_sched0).
    rewrite Hw. by apply elem_of_cons; left.
  - by apply (sorted_prio_ext (thr s)).
  - intros o u [= <-] Hu. rewrite !Hp. specialize (Hfl u Hu). lia.
  - intros u. rewrite Hp. apply mi_range0.
Qed.

Lemma unlock_last_ok m s :
  mutex_inv m s -> owner m = Some (current s) -> lock_count m = 1 -> current s ∈ runq s ->
  exists m' s', z_impl_k_mutex_unlock m s = Some (0, m', s') /\ mutex_inv m' s' /\
    mutex_wait_q m' = mutex_wait_q m /\ prio (thr s' (current s)) = owner_orig_prio m /\
    match waitq s (mutex_wait_q m) with
    | [] => owner m' = None /\ lock_count m' = 0
    | t :: l => owner m' = Some t /\ lock_count m' = 1 /\ owner_orig_prio m' = prio (thr s t) /\
        swap_return s' t = 0 /\ waitq s' (mutex_wait_q m) = l
    end.
Proof.
  intros Hm Ho H1 Hc. unfold z_impl_k_mutex_unlock. rewrite Ho, H1.
  rewrite bool_decide_eq_false_2 by done. rewrite bool_decide_eq_true_2 by done. simpl.
  destruct (adjust_ok m s (current s) (owner_orig_prio m) Hm Ho (mi_orig _ _ Hm)) as (b & s1 & -> & A1 & A2 & A3 & A4 & A5 & A6).
  simpl. pose proof (ctx_eq _ _ A3) as (Hcur & Hidle & _). rewrite <- (A2 (mutex_wait_q m)).
  destruct (waitq s1 (mutex_wait_q m)) as [| t l] eqn:Hw.
  - rewrite unpend_first_none by done. eexists _, _. split; [done |].
    split; [| done]. destruct Hm. rewrite A2 in Hw.
    constructor; cbn [owner lock_count mutex_wait_q owner_orig_prio set_owner set_lock_count]; rewrite ?A2, ?Hw; try done.
    + constructor.
    + intros u. destruct (decide (u = current s)) as [-> | Hne]; [lia | by rewrite A4].
  - destruct (wake_first (mutex_wait_q m) s1 t l 0 A1 Hw) as (s2 & -> & Hwk & Hret & _ & Hpt). cbv zeta in *.
    assert (t ∈ waitq s (mutex_wait_q m)) as Ht by (rewrite <- A2, Hw; by apply elem_of_cons; left).
    assert (t ≠ current s) as Hne by (by apply (waiter_not_current s (mutex_wait_q m)); [apply Hm | |]).
    set (s3 := z_ready_thread t _) in *. destruct (reschedule_frame s3) as (Hsame & Hoth & _).
    pose proof (ctx_eq _ _ (wk_ctx _ _ _ _ _ Hwk)) as (Hcur3 & _ & _).
    eexists _, _. split; [done |]. rewrite Hpt.
    assert (∀ u, u ≠ current s -> prio (thr s1 u) = prio (thr s u)) as Hp1 by (intros u Hu; by rewrite A4).
    split; [| split; [done | split]].
    + apply (handover_inv m s1 t l); try done.
      * rewrite <- Hw, A2. apply (sorted_prio_ext (thr s)); [| apply Hm]. intros u Hu. apply Hp1.
        by apply (waiter_not_current s (mutex_wait_q m)); [apply Hm | |].
      * intros u. destruct (decide (u = current s)) as [-> | Hu]; [rewrite A5; apply Hm | rewrite Hp1 by done; apply Hm].
    + rewrite (proj1 (reschedule_fields s3 _)), (wk_others _ _ _ _ _ Hwk) by done. done.
    + cbn [owner lock_count owner_orig_prio set_owner set_owner_orig_prio]. rewrite Hp1 by done.
      unfold swap_return in *. rewrite Hoth by congruence.
      rewrite (same_waitq _ _ Hsame), (wk_waitq _ _ _ _ _ Hwk), decide_True by done. done.
Qed.

(** ** Giving up *)

Lemma resume_ok m b s :
  mutex_inv m s ->
  exists r s', mutex_lock_resume m b s = Some (r, s') /\ mutex_inv m s' /\
    r = (if swap_return s (current s) =? 0 then 0 else - EAGAIN) /\
    (∀ o, owner m = Some o -> swap_return s (current s) ≠ 0 ->
     prio (thr s' o) = match z_waitq_head s (mutex_wait_q m) with
                       | Some h => Z.max (Z.min (prio (thr s h)) (owner_orig_prio m)) PRIORITY_CEILING
                       | None => owner_orig_prio m
                       end).
Proof.
  intros Hm. unfold mutex_lock_resume. cbv zeta. destruct (Z.eqb_spec (swap_return s (current s)) 0) as [E | E].
  { by exists 0, s. }
  assert (∀ (b' : bool) s1, mutex_inv m s1 ->
    mutex_inv m (if b' then z_reschedule s1 else s1) /\
    ∀ u, prio (thr (if b' then z_reschedule s1 else s1) u) = prio (thr s1 u)) as Hres.
  { intros [] s1 Hm1; [| done]. destruct (reschedule_frame s1) as (Hsame & _ & Hid).
    pose proof (λ u, proj1 (reschedule_fields s1 u)) as Hp. split; [| done]. destruct Hm1.
    constructor; rewrite ?(same_waitq _ _ Hsame), ?Hid; try done; [by rewrite <- Hsame | by apply (sorted_prio_ext (thr s1)) | |].
    - intros o u. rewrite !Hp. apply mi_pi0.
    - intros u. rewrite Hp. apply mi_range0. }
  destruct (owner m) as [o |] eqn:Ho.
  - rewrite bool_decide_eq_true_2 by (by eexists).
    set (p := match z_waitq_head s (mutex_wait_q m) with Some _ => _ | None => _ end).
    assert (p = match z_waitq_head s (mutex_wait_q m) with
      | Some h => Z.max (Z.min (prio (thr s h)) (owner_orig_prio m)) PRIORITY_CEILING
      | None => owner_orig_prio m end) as Hp by (unfold p; case_match; [apply inheritance_eq | done]).
    pose proof (mi_orig _ _ Hm) as Hr.
    assert (-128 <= p < 128) as Hpr.
    { rewrite Hp. destruct (z_waitq_head s (mutex_wait_q m)) as [h |]; [| done].
      pose proof (mi_range _ _ Hm h). lia. }
    destruct (adjust_ok m s o p Hm Ho Hpr) as (c & s1 & -> & A1 & A2 & A3 & A4 & A5 & A6). simpl.
    assert (mutex_inv m s1) as Hm1.
    { apply (adjust_inv m s s1 o p); try done. intros u Hu. rewrite Hp. unfold z_waitq_head.
      pose proof (mi_sorted _ _ Hm) as Hs. destruct (waitq s (mutex_wait_q m)) as [| h l]; [by apply elem_of_nil in Hu |].
      simpl. apply StronglySorted_inv in Hs as [_ Hf]. rewrite Forall_forall in Hf.
      apply elem_of_cons in Hu as [-> | Hu]; [lia |]. specialize (Hf u Hu). lia. }
    eexists _, _. split; [done |]. destruct (Hres (c || b) s1 Hm1) as [R1 R2].
    split; [done |]. split; [done |]. intros o' [= <-] _. by rewrite R2, A5.
  - rewrite bool_decide_eq_false_2 by (by intros []). eexists _, _. split; [done |].
    destruct (Hres b s Hm) as [R1 R2]. done.
Qed.

(** ** Claims *)

Lemma lock_cases m timeout s :
  mutex_inv m s -> current s ∈ runq s -> valid_timeout timeout -> lock_count m < UINT32_MAX ->
  exists o m' s', z_impl_k_mutex_lock m timeout s = Some (o, m', s') /\ mutex_inv m' s' /\
    match o with
    | LockReturns r =>
        s' = s /\
        ((r = 0 /\ (owner m = None \/ owner m = Some (current s)) /\
          owner m' = Some (current s) /\ lock_count m' = lock_count m + 1) \/
         (r = - EBUSY /\ m' = m /\ timeout = K_NO_WAIT /\ owner m ≠ None /\ owner m ≠ Some (current s)))
    | LockWaits _ =>
        m' = m /\ current s ∈ waitq s' (mutex_wait_q m) /\
        exists ow, owner m = Some ow /\ ow ≠ current s /\
          prio (thr s' ow) <= Z.max (prio (thr s' (current s))) PRIORITY_CEILING
    end.
Proof.
  intros Hm Hc Hv Hmax. destruct (runq_free _ _ _ (mi_sched _ _ Hm) Hc) as (_ & _ & Hid & _).
  destruct (decide (lock_count m = 0 \/ owner m = Some (current s))) as [Hfree | Hbusy].
  { destruct (lock_free_ok m timeout s Hm Hmax Hid Hfree) as (m' & E & H1 & H2 & H3 & _ & _).
    exists (LockReturns 0), m', s. split; [done |]. split; [done |]. split; [done |]. left.
    destruct Hfree as [Hf | Hf]; [apply (mi_owner _ _ Hm) in Hf |]; auto. }
  destruct (owner m) as [o |] eqn:Ho.
  2: { exfalso. apply Hbusy. left. by apply (mi_owner _ _ Hm). }
  assert (o ≠ current s) as Hne by (intros ->; auto).
  destruct (decide (timeout = K_NO_WAIT)) as [-> | Ht].
  - exists (LockReturns (- EBUSY)), m, s. split.
    + unfold z_impl_k_mutex_lock. destruct (Z.eqb_spec (lock_count m) 0); [tauto |].
      rewrite Ho, bool_decide_eq_false_2 by congruence. done.
    + split; [done |]. split; [done |]. right. repeat split; congruence.
  - destruct (lock_wait_ok m timeout s o Hm Hc Hv Ho Hne Ht) as (b & s' & E & H1 & H2 & _).
    exists (LockWaits b), m, s'. split; [done |]. split; [done |]. split; [done |]. split; [done |].
    exists o. repeat split; try done. by apply (mi_pi _ _ H1).
Qed.

Lemma unlock_cases m s :
  mutex_inv m s -> current s ∈ runq s ->
  exists r m' s', z_impl_k_mutex_unlock m s = Some (r, m', s') /\ mutex_inv m' s' /\
    match owner m with
    | None => r = - EINVAL /\ m' = m /\ s' = s
    | Some o =>
        if decide (o = current s) then
          r = 0 /\
          if decide (lock_count m = 1) then
            prio (thr s' (current s)) = owner_orig_prio m /\
            match waitq s (mutex_wait_q m) with
            | [] => owner m' = None /\ lock_count m' = 0
            | t :: l => owner m' = Some t /\ lock_count m' = 1 /\ owner_orig_prio m' = prio (thr s t) /\
                swap_return s' t = 0 /\ waitq s' (mutex_wait_q m) = l
            end
          else s' = s /\ owner m' = owner m /\ lock_count m' = lock_count m - 1
        else r = - EPERM /\ m' = m /\ s' = s
    end.
Proof.
  intros Hm Hc. destruct (owner m) as [o |] eqn:Ho.
  2: { exists (- EINVAL), m, s. unfold z_impl_k_mutex_unlock. by rewrite bool_decide_eq_true_2. }
  destruct (decide (o = current s)) as [-> | Hne].
  2: { exists (- EPERM), m, s. unfold z_impl_k_mutex_unlock. rewrite Ho.
       rewrite bool_decide_eq_false_2 by done. rewrite bool_decide_eq_false_2 by congruence. done. }
  destruct (decide (lock_count m = 1)) as [H1 | H1].
  { destruct (unlock_last_ok m s Hm Ho H1 Hc) as (m' & s' & E & ? & _ & ? & ?). exists 0, m', s'. done. }
  assert (lock_count m ≠ 0) as H0 by (rewrite (mi_owner _ _ Hm); congruence).
  pose proof (mi_count _ _ Hm) as Hcount. unfold UINT32_MAX in Hcount.
  eexists 0, _, s. split.
  { unfold z_impl_k_mutex_unlock. rewrite Ho. rewrite bool_decide_eq_false_2 by done.
    rewrite bool_decide_eq_true_2 by done. simpl. destruct (Z.gtb_spec (lock_count m) 1); [done | lia]. }
  rewrite wrap_u_id by lia. split; [| done]. destruct Hm.
  constructor; cbn [owner lock_count mutex_wait_q owner_orig_prio set_lock_count]; try done; [unfold UINT32_MAX; lia |].
  split; [lia | congruence].
Qed.

(** A step of a system around one mutex.  [mutex_step_other] is anything else
    the kernel does: it may take waiters off the queue and change the priorities of
    threads that neither own the mutex nor wait for it; it may raise the owner
    (another mutex does), but not lower it. *)
Inductive mutex_step : k_mutex * z_kernel -> k_mutex * z_kernel -> Prop :=
  | mutex_step_lock m s timeout o m' s' :
      current s ∈ runq s -> valid_timeout timeout -> lock_count m < UINT32_MAX ->
      z_impl_k_mutex_lock m timeout s = Some (o, m', s') -> mutex_step (m, s) (m', s')
  | mutex_step_resume m s b r s' : mutex_lock_resume m b s = Some (r, s') -> mutex_step (m, s) (m, s')
  | mutex_step_unlock m s r m' s' :
      current s ∈ runq s -> z_impl_k_mutex_unlock m s = Some (r, m', s') -> mutex_step (m, s) (m', s')
  | mutex_step_other m s s' :
      sched_inv ∅ s' -> waitq s' (mutex_wait_q m) `sublist_of` waitq s (mutex_wait_q m) ->
      (∀ u, u ∈ waitq s' (mutex_wait_q m) -> prio (thr s' u) = prio (thr s u)) ->
      (∀ o, owner m = Some o -> prio (thr s' o) <= prio (thr s o)) ->
      (∀ u, -128 <= prio (thr s' u) < 128) -> idle_thread s' = idle_thread s -> mutex_step (m, s) (m, s').

Lemma step_other_same m s s' :
  sched_inv ∅ s' -> waitq s' (mutex_wait_q m) `sublist_of` waitq s (mutex_wait_q m) ->
  (∀ u, -128 <= prio (thr s u) < 128) -> (∀ u, prio (thr s' u) = prio (thr s u)) ->
  idle_thread s' = idle_thread s -> mutex_step (m, s) (m, s').
Proof.
  intros Hs' Hsub Hrange Hp Hid. apply mutex_step_other; [done | done | auto | | | done].
  - intros o _. by rewrite Hp.
  - intros u. rewrite Hp. apply Hrange.
Qed.

Lemma sorted_sublist (th : tid -> k_thread) l1 l2 :
  l1 `sublist_of` l2 -> StronglySorted (λ a b, prio (th a) <= prio (th b)) l2 ->
  StronglySorted (λ a b, prio (th a) <= prio (th b)) l1.
Proof.
  induction 1 as [| x l1 l2 Hsub IH | x l1 l2 Hsub IH]; intros Hs; [done | |];
    apply StronglySorted_inv in Hs as [Hs Hf]; [| by apply IH].
  constructor; [by apply IH |]. rewrite Forall_forall in *. intros y Hy. apply Hf. by eapply elem_of_sublist.
Qed.

Lemma other_inv m s s' :
  mutex_inv m s -> sched_inv ∅ s' -> waitq s' (mutex_wait_q m) `sublist_of` waitq s (mutex_wait_q m) ->
  (∀ u, u ∈ waitq s' (mutex_wait_q m) -> prio (thr s' u) = prio (thr s u)) ->
  (∀ o, owner m = Some o -> prio (thr s' o) <= prio (thr s o)) ->
  (∀ u, -128 <= prio (thr s' u) < 128) -> idle_thread s' = idle_thread s -> mutex_inv m s'.
Proof.
  intros Hm Hs' Hsub Hp Hraise Hrange Hid. destruct Hm. constructor; try done.
  - intros E. apply sublist_nil_r. rewrite <- (mi_free0 E). done.
  - intros o Ho. destruct (mi_excl0 o Ho) as [Hx Hi]. rewrite Hid. split; [| done].
    intros Hin. apply Hx. by eapply elem_of_sublist.
  - apply (sorted_prio_ext (thr s)); [done |]. by apply (sorted_sublist _ _ (waitq s (mutex_wait_q m))).
  - intros o u Ho Hu. rewrite (Hp u Hu). etrans; [by apply Hraise |]. apply mi_pi0; [done |]. by eapply elem_of_sublist.
Qed.

Lemma mutex_step_inv x y : mutex_step x y -> mutex_inv x.1 x.2 -> mutex_inv y.1 y.2.
Proof.
  destruct 1 as [m s timeout o m' s' Hc Hv Hmax E | m s b r s' E | m s r m' s' Hc E | m s s' H1 H2 H3 H4 H5 H6];
    cbn [fst snd]; intros Hm.
  - destruct (lock_cases m timeout s Hm Hc Hv Hmax) as (o1 & m1 & s1 & E1 & H1 & _). congruence.
  - destruct (resume_ok m b s Hm) as (r1 & s1 & E1 & H1 & _). congruence.
  - destruct (unlock_cases m s Hm Hc) as (r1 & m1 & s1 & E1 & H1 & _). congruence.
  - by apply (other_inv m s).
Qed.

(** [k_mutex_lock] never follows a NULL owner.  It returns 0 exactly when
    the mutex is free or already the caller's, and the caller then owns it one
    level deeper; it returns -EBUSY if it may not wait; otherwise the caller
    waits and the owner has been raised to the caller's priority, up to the
    ceiling. *)
Theorem mutex_lock_spec m timeout s :
  mutex_inv m s -> current s ∈ runq s -> valid_timeout timeout -> lock_count m < UINT32_MAX ->
  exists o m' s', z_impl_k_mutex_lock m timeout s = Some (o, m', s') /\ mutex_inv m' s' /\
    match o with
    | LockReturns r =>
        s' = s /\
        ((r = 0 /\ (owner m = None \/ owner m = Some (current s)) /\
          owner m' = Some (current s) /\ lock_count m' = lock_count m + 1) \/
         (r = - EBUSY /\ m' = m /\ timeout = K_NO_WAIT /\ owner m ≠ None /\ owner m ≠ Some (current s)))
    | LockWaits _ =>
        m' = m /\ current s ∈ waitq s' (mutex_wait_q m) /\
        exists ow, owner m = Some ow /\ ow ≠ current s /\
          prio (thr s' ow) <= Z.max (prio (thr s' (current s))) PRIORITY_CEILING
    end.
Proof. apply lock_cases. Qed.

(** [k_mutex_unlock] refuses a mutex that is not locked (-EINVAL) or not
    the caller's (-EPERM), leaves the outer levels locked, and at the last
    level gives the caller its original priority back and the mutex to the
    first waiter, or frees it when nobody waits. *)
Theorem mutex_unlock_spec m s :
  mutex_inv m s -> current s ∈ runq s ->
  exists r m' s', z_impl_k_mutex_unlock m s = Some (r, m', s') /\ mutex_inv m' s' /\
    match owner m with
    | None => r = - EINVAL /\ m' = m /\ s' = s
    | Some o =>
        if decide (o = current s) then
          r = 0 /\
          if decide (lock_count m = 1) then
            prio (thr s' (current s)) = owner_orig_prio m /\
            match waitq s (mutex_wait_q m) with
            | [] => owner m' = None /\ lock_count m' = 0
            | t :: l => owner m' = Some t /\ lock_count m' = 1 /\ owner_orig_prio m' = prio (thr s t) /\
                swap_return s' t = 0 /\ waitq s' (mutex_wait_q m) = l
            end
          else s' = s /\ owner m' = owner m /\ lock_count m' = lock_count m - 1
        else r = - EPERM /\ m' = m /\ s' = s
    end.
Proof. apply unlock_cases. Qed.

Lemma mutex_run_inv x y : rtc mutex_step x y -> mutex_inv x.1 x.2 -> mutex_inv y.1 y.2.
Proof. induction 1 as [| x y z Hstep Hrun IH]; intros Hm; [done |]. apply IH. by eapply mutex_step_inv. Qed.

(** C2: Priority inheritance, without deadline scheduling.  Over any sequence of
    locks, unlocks, timed-out locks and other kernel activity that neither lowers
    the owner nor changes the priority of a thread that waits for the mutex, the
    owner runs at least at the priority of every waiter, up to the configured
    ceiling; the waiters stay in priority order; only a locked mutex has waiters,
    and its owner is not one of them.  The thread that takes a free mutex has its
    priority recorded, and the last unlock gives the caller the recorded priority
    back and the mutex to the first waiter. *)
Theorem mutex_inheritance x y :
  rtc mutex_step x y -> mutex_inv x.1 x.2 ->
  let '(m, s) := y in
  (∀ o u, owner m = Some o -> u ∈ waitq s (mutex_wait_q m) -> prio (thr s o) <= Z.max (prio (thr s u)) PRIORITY_CEILING) /\
  StronglySorted (λ a b, prio (thr s a) <= prio (thr s b)) (waitq s (mutex_wait_q m)) /\
  (waitq s (mutex_wait_q m) ≠ [] -> exists o, owner m = Some o /\ o ∉ waitq s (mutex_wait_q m)) /\
  (current s ∈ runq s -> owner m = None -> forall timeout, exists m',
    z_impl_k_mutex_lock m timeout s = Some (LockReturns 0, m', s) /\
    owner m' = Some (current s) /\ owner_orig_prio m' = prio (thr s (current s))) /\
  (current s ∈ runq s -> owner m = Some (current s) -> lock_count m = 1 -> exists m' s',
    z_impl_k_mutex_unlock m s = Some (0, m', s') /\
    prio (thr s' (current s)) = owner_orig_prio m /\ owner m' = head (waitq s (mutex_wait_q m))).
Proof.
  intros Hrun Hx. pose proof (mutex_run_inv x y Hrun Hx) as Hm. destruct y as [m s]. cbn [fst snd] in Hm.
  split; [apply Hm |]. split; [apply Hm |]. split; [| split].
  - intros Hw. destruct (owner m) as [o |] eqn:Ho; [| by apply (mi_free _ _ Hm) in Ho]. exists o. split; [done |]. by apply (mi_excl _ _ Hm).
  - intros Hc Ho timeout. destruct (runq_free _ _ _ (mi_sched _ _ Hm) Hc) as (_ & _ & Hid & _).
    pose proof (proj2 (mi_owner _ _ Hm) Ho) as H0.
    destruct (lock_free_ok m timeout s Hm ltac:(unfold UINT32_MAX; lia) Hid ltac:(auto)) as (m' & E & _ & H2 & _ & _ & H5).
    exists m'. split; [done |]. split; [done |]. rewrite H5, H0. done.
  - intros Hc Ho H1. destruct (unlock_cases m s Hm Hc) as (r & m' & s' & E & _ & H). rewrite Ho, !decide_True in H by done.
    destruct H as (-> & Hp & Hown). exists m', s'. split; [done |]. split; [done |]. destruct (waitq s (mutex_wait_q m)); apply Hown.
Qed.

(** ** Recursive locking *)

Fixpoint lock_times (n : nat) (m : k_mutex) (s : z_kernel) : option (k_mutex * z_kernel) :=
  match n with
  | O => Some (m, s)
  | S n => match z_impl_k_mutex_lock m K_FOREVER s with
           | Some (LockReturns 0, m, s) => lock_times n m s
           | _ => None
           end
  end.

Fixpoint unlock_times (n : nat) (m : k_mutex) (s : z_kernel) : option (k_mutex * z_kernel) :=
  match n with
  | O => Some (m, s)
  | S n => match z_impl_k_mutex_unlock m s with
           | Some (0, m, s) => unlock_times n m s
           | _ => None
           end
  end.

Lemma lock_times_ok n m s :
  mutex_inv m s -> current s ≠ idle_thread s -> lock_count m + Z.of_nat n <= UINT32_MAX ->
  owner m = Some (current s) ->
  lock_times n m s = Some (set_lock_count (lock_count m + Z.of_nat n) m, s).
Proof.
  revert m. induction n as [| n IH]; intros m Hm Hid Hmax Ho; simpl.
  - rewrite Z.add_0_r. by destruct m.
  - destruct (lock_free_ok m K_FOREVER s Hm ltac:(lia) Hid ltac:(auto)) as (m' & -> & H1 & H2 & H3 & H4 & H5).
    assert (m' = set_lock_count (lock_count m + 1) m) as ->.
    { destruct m as [w o c p], m' as [w' o' c' p']; simpl in *. subst.
      destruct (Z.eqb_spec c 0) as [-> |]; [| done].
      pose proof (proj1 (mi_owner _ _ Hm) eq_refl). simpl in *. congruence. }
    rewrite IH; [| done | done | simpl; lia | done]. simpl. do 2 f_equal. unfold set_lock_count. simpl. f_equal. lia.
Qed.

Lemma unlock_times_ok n m s :
  owner m = Some (current s) -> lock_count m = Z.of_nat (S n) -> lock_count m <= UINT32_MAX ->
  prio (thr s (current s)) = owner_orig_prio m -> waitq s (mutex_wait_q m) = [] ->
  unlock_times (S n) m s = Some (set_lock_count 0 (set_owner None m), s).
Proof.
  revert m. induction n as [| n IH]; intros m Ho Hn Hmax Hp Hw; unfold UINT32_MAX in *.
  - cbn [unlock_times]. unfold z_impl_k_mutex_unlock. rewrite Ho. rewrite bool_decide_eq_false_2 by done.
    rewrite bool_decide_eq_true_2 by done. simpl. destruct (Z.gtb_spec (lock_count m) 1); [lia |].
    unfold adjust_owner_prio. rewrite Ho, Hp, Z.eqb_refl. simpl. by rewrite unpend_first_none.
  - assert (z_impl_k_mutex_unlock m s = Some (0, set_lock_count (lock_count m - 1) m, s)) as E.
    { unfold z_impl_k_mutex_unlock. rewrite Ho. rewrite bool_decide_eq_false_2 by done.
      rewrite bool_decide_eq_true_2 by done. simpl. destruct (Z.gtb_spec (lock_count m) 1); [| lia].
      by rewrite wrap_u_id by lia. }
    change (unlock_times (S (S n)) m s) with
      (match z_impl_k_mutex_unlock m s with Some (0, m, s) => unlock_times (S n) m s | _ => None end).
    rewrite E. rewrite IH; simpl; (done || lia).
Qed.

(** Recursive locking is undone level by level: a thread that locks a free
    mutex [n + 1] times and unlocks it [n + 1] times gets 0 from every call
    and leaves the mutex free and the rest of the kernel as it was. *)
Theorem mutex_recursive_roundtrip n m s :
  mutex_inv m s -> owner m = None -> current s ∈ runq s -> Z.of_nat (S n) <= UINT32_MAX ->
  exists m1 m2, lock_times (S n) m s = Some (m1, s) /\ lock_count m1 = Z.of_nat (S n) /\
    unlock_times (S n) m1 s = Some (m2, s) /\ owner m2 = None /\ lock_count m2 = 0.
Proof.
  intros Hm Ho Hc Hn. destruct (runq_free _ _ _ (mi_sched _ _ Hm) Hc) as (_ & _ & Hid & _).
  pose proof (proj2 (mi_owner _ _ Hm) Ho) as H0. unfold UINT32_MAX in Hn.
  destruct (lock_free_ok m K_FOREVER s Hm ltac:(unfold UINT32_MAX; lia) Hid ltac:(auto)) as (m' & E & H1 & H2 & H3 & H4 & H5).
  cbn [lock_times]. rewrite E, lock_times_ok by (done || unfold UINT32_MAX; lia).
  eexists _, _. split; [done |]. split; [simpl; lia |]. rewrite unlock_times_ok; [by repeat split | done | | | |];
    cbn [lock_count owner_orig_prio mutex_wait_q set_lock_count]; unfold UINT32_MAX; try lia.
  - rewrite H5, H0. done.
  - rewrite H4. by apply (mi_free _ _ Hm).
Qed.

(** C40: When a waiter times out while another one is still waiting, and the
    owner's own priority is above the inheritance ceiling, the owner is left
    at the ceiling, below its own priority, although it still holds the
    mutex. *)
Theorem mutex_timeout_lowers_owner m b s o h l :
  mutex_inv m s -> owner m = Some o -> waitq s (mutex_wait_q m) = h :: l ->
  owner_orig_prio m < PRIORITY_CEILING -> swap_return s (current s) ≠ 0 ->
  exists s', mutex_lock_resume m b s = Some (- EAGAIN, s') /\ owner_orig_prio m < prio (thr s' o).
Proof.
  intros Hm Ho Hw Hc Hr. destruct (resume_ok m b s Hm) as (r & s' & E & _ & H1 & H2).
  rewrite (proj2 (Z.eqb_neq _ _) Hr) in H1. subst r. exists s'. split; [done |].
  rewrite (H2 o Ho Hr). unfold z_waitq_head. rewrite Hw. simpl. lia.
Qed.

End Ops.

(** ** Concrete runs *)

#[local] Existing Instance default_kconfig | 100.

Definition mutex0 : k_mutex := mk_mutex (inr 5%nat) None 0 0.

Lemma mutex0_inv : mutex_inv mutex0 two_threads.
Proof.
  assert (waitq two_threads (inr 5%nat) = []) as Hw by by_compute.
  constructor; cbn [owner lock_count mutex_wait_q owner_orig_prio mutex0]; rewrite ?Hw.
  - apply two_threads_inv.
  - by split.
  - done.
  - done.
  - intros o H. discriminate H.
  - constructor.
  - intros o u H. discriminate H.
  - apply (thr_forall (λ x, -128 <= prio x < 128)); [| by split].
    apply (bool_decide_unpack _). vm_compute. exact I.
  - by split.
Qed.

Lemma mutex_lock_spec_witness :
  exists m', z_impl_k_mutex_lock mutex0 K_FOREVER two_threads = Some (LockReturns 0, m', two_threads) /\
    owner m' = Some 2%nat.
Proof.
  destruct (mutex_lock_spec (cfg := default_kconfig) eq_refl ltac:(by split) mutex0 K_FOREVER two_threads mutex0_inv
    ltac:(by_compute) ltac:(by split) ltac:(done)) as (o & m' & s' & E & _ & H).
  vm_compute in E. injection E as <- <- <-. eexists. split; [vm_compute; reflexivity | vm_compute; reflexivity].
Defined.

Definition mutex1 : k_mutex := mk_mutex (inr 5%nat) (Some 2%nat) 1 0.

Lemma mutex1_step : mutex_step (mutex0, two_threads) (mutex1, two_threads).
Proof.
  eapply (mutex_step_lock mutex0 two_threads K_FOREVER (LockReturns 0));
    [by_compute | by split | done | vm_compute; reflexivity].
Qed.

Lemma mutex1_inv : mutex_inv mutex1 two_threads.
Proof. exact (mutex_step_inv (cfg := default_kconfig) eq_refl ltac:(by split) _ _ mutex1_step mutex0_inv). Qed.

Lemma mutex_unlock_spec_witness :
  exists m' s', z_impl_k_mutex_unlock mutex1 two_threads = Some (0, m', s') /\ owner m' = None.
Proof.
  destruct (mutex_unlock_spec (cfg := default_kconfig) mutex1 two_threads mutex1_inv
    ltac:(by_compute)) as (r & m' & s' & E & _ & H).
  exists m', s'. vm_compute in H. destruct H as (-> & _ & H & _). split; [exact E | exact H].
Defined.

(** Thread 2 takes the mutex and sleeps; thread 3 waits for it. *)
Definition owner_sleeps : z_kernel := (z_tick_sleep 5 two_threads).2.
Definition contended : z_kernel := z_pend_curr (inr 5%nat) K_FOREVER owner_sleeps.

Lemma contended_run : rtc mutex_step (mutex0, two_threads) (mutex1, contended).
Proof.
  eapply rtc_l; [exact mutex1_step |]. eapply rtc_l.
  - apply (step_other_same mutex1 two_threads owner_sleeps).
    + apply inv_tick_sleep; [apply two_threads_inv | by_compute | by split | done].
    + vm_compute. constructor.
    + apply (thr_forall (λ x, -128 <= prio x < 128)); [| by split]. apply (bool_decide_unpack _). vm_compute. exact I.
    + apply thr_field_eq. vm_compute. reflexivity.
    + vm_compute. reflexivity.
  - apply rtc_once. eapply (mutex_step_lock mutex1 owner_sleeps K_FOREVER);
      [by_compute | by split | done | vm_compute; reflexivity].
Qed.

#[local] Opaque contended.

Lemma mutex_inheritance_witness :
  prio (thr contended 2) <= Z.max (prio (thr contended 3)) PRIORITY_CEILING /\ waitq contended (inr 5%nat) = [3%nat].
Proof.
  assert (waitq contended (inr 5%nat) = [3%nat]) as Hw by by_compute. split; [| exact Hw].
  destruct (mutex_inheritance (cfg := default_kconfig) eq_refl ltac:(by split)
    (mutex0, two_threads) (mutex1, contended) contended_run mutex0_inv) as [H _].
  apply (H 2%nat 3%nat eq_refl). cbn [mutex_wait_q mutex1]. rewrite Hw. left.
Defined.

Lemma mutex_recursive_roundtrip_witness :
  exists m1 m2, lock_times 3 mutex0 two_threads = Some (m1, two_threads) /\
    unlock_times 3 m1 two_threads = Some (m2, two_threads) /\ owner m2 = None.
Proof.
  destruct (mutex_recursive_roundtrip (cfg := default_kconfig) ltac:(by split) 2 mutex0 two_threads mutex0_inv
    eq_refl ltac:(by_compute) ltac:(done)) as (m1 & m2 & H1 & _ & H2 & H3 & _).
  exists m1, m2. split; [exact H1 |]. split; [exact H2 | exact H3].
Defined.

(** A build with an inheritance ceiling of -1, and a main thread above it. *)
Definition ceiling_kconfig : Kconfig :=
  {| NUM_COOP_PRIORITIES := 16; NUM_PREEMPT_PRIORITIES := 15; NUM_METAIRQ_PRIORITIES := 0;
     PRIORITY_CEILING := -1; SCHED_DEADLINE := false; SWAP_NONATOMIC := false;
     SYSTEM_CLOCK_SLOPPY_IDLE := false |}.

#[local] Existing Instance ceiling_kconfig | 50.

(** Thread 2, at priority -2, takes the mutex and sleeps; threads 3 and 4 wait
    for it, and the wait of thread 4 times out. *)
Definition three_threads : z_kernel :=
  z_impl_k_thread_create 4 4 0 K_NO_WAIT (z_impl_k_thread_create 3 3 0 K_NO_WAIT (z_cstart 2 1 (-2) bss)).
Definition held : k_mutex := mk_mutex (inr 5%nat) (Some 2%nat) 1 (-2).
Definition asleep : z_kernel := (z_tick_sleep 100 three_threads).2.
Definition both_wait : z_kernel := z_pend_curr (inr 5%nat) 10 (z_pend_curr (inr 5%nat) K_FOREVER asleep).
Definition gave_up : z_kernel := z_reschedule (z_thread_timeout 4 (z_abort_thread_timeout 4 both_wait).2).

Lemma three_threads_inv : sched_inv ∅ three_threads.
Proof.
  unfold three_threads. apply inv_thread_create; [apply inv_thread_create; [by apply boot_inv | | by split] | | by split];
    repeat split; apply (bool_decide_unpack _); vm_compute; exact I.
Qed.

Lemma asleep_inv : sched_inv ∅ asleep.
Proof. apply (inv_tick_sleep 100 three_threads); [apply three_threads_inv | by_compute | by split | done]. Qed.

Lemma both_wait_inv : sched_inv ∅ both_wait.
Proof.
  apply inv_pend_curr; [apply inv_pend_curr; [apply asleep_inv | by_compute | by split] | by_compute | by split].
Qed.

Lemma gave_up_inv : sched_inv ∅ gave_up.
Proof.
  unfold gave_up. rewrite <- same_reschedule. apply inv_wake_thread.
  - replace ({[4%nat]} : gset tid) with ({[4%nat]} ∪ ∅ : gset tid) by set_solver.
    apply (inv_abort_timeout ∅ 4 both_wait both_wait_inv). by_compute.
  - by_compute.
  - by_compute.
  - intros _. by_compute.
  - by_compute.
Qed.

#[local] Opaque three_threads asleep both_wait gave_up.

Lemma held_inv : mutex_inv (mk_mutex (inr 5%nat) None 0 (-2)) three_threads.
Proof.
  assert (waitq three_threads (inr 5%nat) = []) as Hw by by_compute.
  constructor; cbn [owner lock_count mutex_wait_q owner_orig_prio]; rewrite ?Hw; clear Hw.
  - apply three_threads_inv.
  - by split.
  - done.
  - done.
  - intros o H. discriminate H.
  - constructor.
  - intros o u H. discriminate H.
  - apply (thr_forall (λ x, -128 <= prio x < 128)); [| by split].
    apply (bool_decide_unpack _). vm_compute. exact I.
  - by split.
Qed.

Lemma gave_up_run : rtc mutex_step (mk_mutex (inr 5%nat) None 0 (-2), three_threads) (held, gave_up).
Proof.
  eapply rtc_l.
  { eapply (mutex_step_lock _ three_threads K_FOREVER (LockReturns 0)); [by_compute | by split | done | vm_compute; reflexivity]. }
  eapply rtc_l.
  { apply (step_other_same held three_threads asleep); [apply asleep_inv | vm_compute; constructor | apply held_inv | | vm_compute; reflexivity].
    apply thr_field_eq. vm_compute. reflexivity. }
  eapply rtc_l.
  { eapply (mutex_step_lock held asleep K_FOREVER); [by_compute | by split | done | vm_compute; reflexivity]. }
  eapply rtc_l.
  { eapply (mutex_step_lock held _ 10); [by_compute | by split | done | vm_compute; reflexivity]. }
  apply rtc_once. apply (step_other_same held both_wait gave_up);
    [apply gave_up_inv | vm_compute; apply sublist_skip, sublist_nil_l | |
     apply thr_field_eq; vm_compute; reflexivity |
     vm_compute; reflexivity].
  apply (thr_forall (λ x, -128 <= prio x < 128)); [| by split]. apply (bool_decide_unpack _). vm_compute. exact I.
Qed.

Lemma mutex_timeout_lowers_owner_witness :
  exists s', mutex_lock_resume held false gave_up = Some (- EAGAIN, s') /\ -2 < prio (thr s' 2).
Proof.
  assert (mutex_inv held gave_up) as Hm.
  { pose proof gave_up_run as Hr. pose proof held_inv as Hi.
    change (mutex_inv (held, gave_up).1 (held, gave_up).2).
    change (mutex_inv (mk_mutex (inr 5%nat) None 0 (-2), three_threads).1 (mk_mutex (inr 5%nat) None 0 (-2), three_threads).2) in Hi.
    exact (mutex_run_inv (cfg := ceiling_kconfig) eq_refl ltac:(by split) _ _ Hr Hi). }
  exact (mutex_timeout_lowers_owner (cfg := ceiling_kconfig) ltac:(by split) held false gave_up 2 3 [] Hm
    eq_refl ltac:(by_compute) ltac:(done) ltac:(by_compute)).
Defined.
