(* ===== verification/MsgQ.v ===== *)
(** * Message queues (kernel/msg_q.c)

    A ring buffer of fixed-size messages in byte memory, with one wait queue
    that holds readers while the queue is empty and writers while it is full.
    The ring refines a bounded FIFO queue of messages. *)

From Stdlib Require Import ZArith Lia Bool.
From stdpp Require Import base numbers list gmap sets.
From S2P Require Import Prelude MathExtras Memory TimeoutQ Kernel PrioQ Sched SchedInv SchedOps Threads WaitApi.

Open Scope Z_scope.

(** ** [struct k_msgq] and its operations *)

Definition K_MSGQ_FLAG_ALLOC : Z := BIT 0.

Record k_msgq := mk_msgq {
  msgq_wait_q : wqid;
  msg_size : nat;
  max_msgs : Z;
  buffer_start : Z;
  buffer_end : Z;
  read_ptr : Z;
  write_ptr : Z;
  used_msgs : Z;
  msgq_flags : Z
}.

Definition set_read_ptr (v : Z) (q : k_msgq) : k_msgq :=
  mk_msgq (msgq_wait_q q) (msg_size q) (max_msgs q) (buffer_start q) (buffer_end q) v (write_ptr q)
    (used_msgs q) (msgq_flags q).
Definition set_write_ptr (v : Z) (q : k_msgq) : k_msgq :=
  mk_msgq (msgq_wait_q q) (msg_size q) (max_msgs q) (buffer_start q) (buffer_end q) (read_ptr q) v
    (used_msgs q) (msgq_flags q).
Definition set_used_msgs (v : Z) (q : k_msgq) : k_msgq :=
  mk_msgq (msgq_wait_q q) (msg_size q) (max_msgs q) (buffer_start q) (buffer_end q) (read_ptr q) (write_ptr q)
    v (msgq_flags q).
Definition set_msgq_flags (v : Z) (q : k_msgq) : k_msgq :=
  mk_msgq (msgq_wait_q q) (msg_size q) (max_msgs q) (buffer_start q) (buffer_end q) (read_ptr q) (write_ptr q)
    (used_msgs q) v.

Record k_msgq_attrs := mk_attrs { attr_msg_size : nat; attr_max_msgs : Z; attr_used_msgs : Z }.

Section Ops.
Context {cfg : Kconfig}.
Implicit Types (msgq : k_msgq) (m : mem) (s : z_kernel).

Definition k_msgq_init msgq (buffer : Z) (msg_size : nat) (max_msgs : Z) s : k_msgq * z_kernel :=
  (mk_msgq (msgq_wait_q msgq) msg_size max_msgs buffer (buffer + max_msgs * Z.of_nat msg_size) buffer buffer 0 0,
   z_waitq_init (msgq_wait_q msgq) s).

(** [z_thread_malloc] allocates from the thread's resource pool. *)
Definition z_impl_k_msgq_alloc_init (z_thread_malloc : Z -> option Z) msgq (msg_size : nat) (max_msgs : Z) s :
  Z * k_msgq * z_kernel :=
  let '(total_size, overflow) := size_mul_overflow (Z.of_nat msg_size) max_msgs in
  if overflow then (- EINVAL, msgq, s)
  else match z_thread_malloc total_size with
       | Some buffer =>
           let '(msgq, s) := k_msgq_init msgq buffer msg_size max_msgs s in
           (0, set_msgq_flags K_MSGQ_FLAG_ALLOC msgq, s)
       | None => (- ENOMEM, msgq, s)
       end.

(** The second component is the block handed to [k_free]. *)
Definition k_msgq_cleanup msgq s : Z * option Z * k_msgq :=
  if z_waitq_head s (msgq_wait_q msgq) is Some _ then (- EBUSY, None, msgq)
  else if flag_any (msgq_flags msgq) K_MSGQ_FLAG_ALLOC
  then (0, Some (buffer_start msgq), set_msgq_flags (flag_clear (msgq_flags msgq) K_MSGQ_FLAG_ALLOC) msgq)
  else (0, None, msgq).

(** Store a message at [write_ptr] and advance it. *)
Definition msgq_store msgq (data : Z) m : k_msgq * mem :=
  let m := memcpy (write_ptr msgq) data (msg_size msgq) m in
  let msgq := set_write_ptr (write_ptr msgq + Z.of_nat (msg_size msgq)) msgq in
  let msgq := if write_ptr msgq =? buffer_end msgq then set_write_ptr (buffer_start msgq) msgq else msgq in
  (set_used_msgs (u32 (used_msgs msgq + 1)) msgq, m).

Definition z_impl_k_msgq_put msgq (data timeout : Z) m s : outcome * k_msgq * mem * z_kernel :=
  if used_msgs msgq <? max_msgs msgq then
    match z_unpend_first_thread (msgq_wait_q msgq) s with
    | (Some pending_thread, s) =>
        let m := memcpy (swap_data (thr s pending_thread)) data (msg_size msgq) m in
        let s := arch_thread_return_value_set pending_thread 0 s in
        let s := z_ready_thread pending_thread s in
        (Returns 0, msgq, m, z_reschedule s)
    | (None, s) => let '(msgq, m) := msgq_store msgq data m in (Returns 0, msgq, m, s)
    end
  else if K_TIMEOUT_EQ timeout K_NO_WAIT then (Returns (- ENOMSG), msgq, m, s)
  else
    let s := upd_thread (current s) (set_swap_data data) s in
    (Blocks, msgq, m, z_pend_curr (msgq_wait_q msgq) timeout s).

Definition z_impl_k_msgq_get_attrs msgq : k_msgq_attrs :=
  mk_attrs (msg_size msgq) (max_msgs msgq) (used_msgs msgq).

Definition z_impl_k_msgq_get msgq (data timeout : Z) m s : outcome * k_msgq * mem * z_kernel :=
  if used_msgs msgq >? 0 then
    let m := memcpy data (read_ptr msgq) (msg_size msgq) m in
    let msgq := set_read_ptr (read_ptr msgq + Z.of_nat (msg_size msgq)) msgq in
    let msgq := if read_ptr msgq =? buffer_end msgq then set_read_ptr (buffer_start msgq) msgq else msgq in
    let msgq := set_used_msgs (u32 (used_msgs msgq - 1)) msgq in
    match z_unpend_first_thread (msgq_wait_q msgq) s with
    | (Some pending_thread, s) =>
        let '(msgq, m) := msgq_store msgq (swap_data (thr s pending_thread)) m in
        let s := arch_thread_return_value_set pending_thread 0 s in
        let s := z_ready_thread pending_thread s in
        (Returns 0, msgq, m, z_reschedule s)
    | (None, s) => (Returns 0, msgq, m, s)
    end
  else if K_TIMEOUT_EQ timeout K_NO_WAIT then (Returns (- ENOMSG), msgq, m, s)
  else
    let s := upd_thread (current s) (set_swap_data data) s in
    (Blocks, msgq, m, z_pend_curr (msgq_wait_q msgq) timeout s).

Definition z_impl_k_msgq_peek msgq (data : Z) m : Z * mem :=
  if used_msgs msgq >? 0 then (0, memcpy data (read_ptr msgq) (msg_size msgq) m) else (- ENOMSG, m).

Definition z_impl_k_msgq_peek_at msgq (data idx : Z) m : Z * mem :=
  if used_msgs msgq >? idx then
    let bytes_to_end := u32 (buffer_end msgq - read_ptr msgq) in
    let byte_offset := u32 (idx * Z.of_nat (msg_size msgq)) in
    let start_addr := read_ptr msgq in
    let '(byte_offset, start_addr) :=
      if bytes_to_end <=? byte_offset then (u32 (byte_offset - bytes_to_end), buffer_start msgq)
      else (byte_offset, start_addr) in
    (0, memcpy data (start_addr + byte_offset) (msg_size msgq) m)
  else (- ENOMSG, m).

(** One turn of the loop of [k_msgq_purge]. *)
Definition msgq_purge_body msgq (_ : tid) s : z_kernel :=
  match z_unpend_first_thread (msgq_wait_q msgq) s with
  | (Some pending_thread, s) => z_ready_thread pending_thread (arch_thread_return_value_set pending_thread (- ENOMSG) s)
  | (None, s) => s
  end.

Definition z_impl_k_msgq_purge msgq s : k_msgq * z_kernel :=
  let s := waitq_drain (length (waitq s (msgq_wait_q msgq))) (msgq_purge_body msgq) (msgq_wait_q msgq) s in
  let msgq := set_used_msgs 0 msgq in
  (set_read_ptr (write_ptr msgq) msgq, z_reschedule s).

Definition z_impl_k_msgq_num_free_get msgq : Z := u32 (max_msgs msgq - used_msgs msgq).
Definition z_impl_k_msgq_num_used_get msgq : Z := used_msgs msgq.

(** ** The ring *)

Definition slot msgq (i : Z) : Z := buffer_start msgq + i * Z.of_nat (msg_size msgq).

(** The slot [read_ptr] is in. *)
Definition read_idx msgq : Z := (read_ptr msgq - buffer_start msgq) / Z.of_nat (msg_size msgq).

(** The messages in the ring, oldest first. *)
Definition contents msgq m : list (list Z) :=
  (λ k, read_bytes m (slot msgq ((read_idx msgq + Z.of_nat k) mod max_msgs msgq)) (msg_size msgq))
    <$> seq 0 (Z.to_nat (used_msgs msgq)).

Record msgq_ok msgq : Prop := {
  mq_size : (0 < msg_size msgq)%nat;
  mq_max : 0 < max_msgs msgq;
  mq_bytes : max_msgs msgq * Z.of_nat (msg_size msgq) <= UINT32_MAX;
  mq_used : 0 <= used_msgs msgq <= max_msgs msgq;
  mq_end : buffer_end msgq = slot msgq (max_msgs msgq);
  mq_read : read_ptr msgq = slot msgq (read_idx msgq) /\ 0 <= read_idx msgq < max_msgs msgq;
  mq_write : write_ptr msgq = slot msgq ((read_idx msgq + used_msgs msgq) mod max_msgs msgq)
}.

Lemma mod_distinct r a b n : 0 <= a < b -> b < n -> (r + a) mod n ≠ (r + b) mod n.
Proof.
  intros Ha Hb E. assert ((b - a) mod n = 0) as H0.
  { replace (b - a) with ((r + b) - (r + a)) by lia. rewrite Zminus_mod, E, Z.sub_diag. apply Z.mod_0_l. lia. }
  rewrite Z.mod_small in H0 by lia. lia.
Qed.

Lemma advance_eq i n : 0 <= i < n -> (i + 1) mod n = if i + 1 =? n then 0 else i + 1.
Proof.
  intros Hi. destruct (Z.eqb_spec (i + 1) n) as [-> | Hne]; [apply Z.mod_same; lia | apply Z.mod_small; lia].
Qed.

(** [ptr += msg_size; if (ptr == buffer_end) ptr = buffer_start;] *)
Lemma advance_ptr msgq i :
  msgq_ok msgq -> 0 <= i < max_msgs msgq ->
  (if slot msgq i + Z.of_nat (msg_size msgq) =? buffer_end msgq then buffer_start msgq
   else slot msgq i + Z.of_nat (msg_size msgq)) = slot msgq ((i + 1) mod max_msgs msgq).
Proof.
  intros Hok Hi. destruct Hok. rewrite advance_eq, mq_end0 by done. unfold slot.
  destruct (Z.eqb_spec (i + 1) (max_msgs msgq)) as [E | E];
    destruct (Z.eqb_spec (buffer_start msgq + i * Z.of_nat (msg_size msgq) + Z.of_nat (msg_size msgq))
      (buffer_start msgq + max_msgs msgq * Z.of_nat (msg_size msgq))); nia.
Qed.

Lemma slot_disjoint msgq i j :
  msgq_ok msgq -> i ≠ j ->
  disjoint_ranges (slot msgq i) (Z.of_nat (msg_size msgq)) (slot msgq j) (Z.of_nat (msg_size msgq)).
Proof. intros Hok Hne. destruct Hok. unfold disjoint_ranges, slot. destruct (Z.lt_ge_cases i j); nia. Qed.

Lemma read_idx_slot msgq i : msgq_ok msgq -> (slot msgq i - buffer_start msgq) / Z.of_nat (msg_size msgq) = i.
Proof.
  intros Hok. destruct Hok. unfold slot.
  replace (buffer_start msgq + i * Z.of_nat (msg_size msgq) - buffer_start msgq) with (i * Z.of_nat (msg_size msgq)) by lia.
  apply Z.div_mul. lia.
Qed.

Lemma contents_length msgq m : msgq_ok msgq -> Z.of_nat (length (contents msgq m)) = used_msgs msgq.
Proof. intros Hok. destruct Hok. unfold contents. rewrite length_fmap, length_seq. lia. Qed.

Lemma contents_lookup msgq m k :
  (k < Z.to_nat (used_msgs msgq))%nat ->
  contents msgq m !! k =
  Some (read_bytes m (slot msgq ((read_idx msgq + Z.of_nat k) mod max_msgs msgq)) (msg_size msgq)).
Proof. intros Hk. unfold contents. by rewrite list_lookup_fmap, lookup_seq_lt. Qed.

(** ** Storing and taking a message *)

Lemma store_ok msgq data m :
  msgq_ok msgq -> used_msgs msgq < max_msgs msgq ->
  let '(msgq', m') := msgq_store msgq data m in
  msgq_ok msgq' /\ contents msgq' m' = contents msgq m ++ [read_bytes m data (msg_size msgq)] /\
  used_msgs msgq' = used_msgs msgq + 1 /\ max_msgs msgq' = max_msgs msgq /\ msgq_wait_q msgq' = msgq_wait_q msgq /\
  msg_size msgq' = msg_size msgq /\ buffer_start msgq' = buffer_start msgq /\ buffer_end msgq' = buffer_end msgq.
Proof.
  intros Hok Hfull. unfold msgq_store. pose proof Hok as [H1 H2 H3 H4 H5 [H6 H7] H8].
  cbn [write_ptr buffer_end set_write_ptr buffer_start msg_size].
  set (w := (read_idx msgq + used_msgs msgq) mod max_msgs msgq) in *.
  assert (0 <= w < max_msgs msgq) as Hw by (apply Z.mod_pos_bound; lia).
  pose proof (advance_ptr msgq w Hok Hw) as Hadv. rewrite <- H8 in Hadv.
  match goal with |- context [set_used_msgs (u32 (used_msgs ?x + 1)) _] => set (q1 := x) end.
  assert (q1 = set_write_ptr (slot msgq ((w + 1) mod max_msgs msgq)) msgq) as ->.
  { unfold q1. rewrite <- Hadv. by case_match. }
  cbn [used_msgs set_write_ptr]. rewrite wrap_u_id by (unfold UINT32_MAX in *; nia).
  split; [| split; [| done]].
  - constructor; try done; cbn [used_msgs max_msgs set_used_msgs set_write_ptr write_ptr]; [lia |].
    change (slot (set_used_msgs _ _)) with (slot msgq). change (read_idx (set_used_msgs _ _)) with (read_idx msgq).
    f_equal. unfold w. rewrite Zplus_mod_idemp_l. f_equal. lia.
  - unfold contents. cbn [used_msgs max_msgs set_used_msgs set_write_ptr msg_size].
    change (slot (set_used_msgs _ _)) with (slot msgq). change (read_idx (set_used_msgs _ _)) with (read_idx msgq).
    replace (Z.to_nat (used_msgs msgq + 1)) with (S (Z.to_nat (used_msgs msgq))) by lia.
    rewrite seq_S, fmap_app. f_equal.
    + apply list_fmap_ext. intros i k Hk%lookup_seq. apply read_memcpy_other. rewrite H8.
      apply slot_disjoint; [done |]. intros E. symmetry in E. revert E. apply mod_distinct; lia.
    + simpl. rewrite Z2Nat.id by lia. fold w. rewrite <- H8. by rewrite read_memcpy_same.
Qed.

(** A caller's buffer that does not overlap the ring. *)
Definition outside msgq (data : Z) : Prop :=
  disjoint_ranges data (Z.of_nat (msg_size msgq)) (buffer_start msgq) (max_msgs msgq * Z.of_nat (msg_size msgq)).

Lemma outside_slot msgq data i :
  outside msgq data -> 0 <= i < max_msgs msgq ->
  disjoint_ranges data (Z.of_nat (msg_size msgq)) (slot msgq i) (Z.of_nat (msg_size msgq)).
Proof. unfold outside, disjoint_ranges, slot. intros H Hi. nia. Qed.

Lemma contents_outside msgq m data src :
  msgq_ok msgq -> outside msgq data -> contents msgq (memcpy data src (msg_size msgq) m) = contents msgq m.
Proof.
  intros Hok Ho. unfold contents. apply list_fmap_ext. intros i k Hk%lookup_seq. apply read_memcpy_other.
  apply outside_slot; [done |]. apply Z.mod_pos_bound. apply Hok.
Qed.

(** The queue after [k_msgq_get] has advanced [read_ptr]. *)
Definition msgq_advance msgq : k_msgq :=
  let msgq := set_read_ptr (read_ptr msgq + Z.of_nat (msg_size msgq)) msgq in
  let msgq := if read_ptr msgq =? buffer_end msgq then set_read_ptr (buffer_start msgq) msgq else msgq in
  set_used_msgs (u32 (used_msgs msgq - 1)) msgq.

Lemma advance_ok msgq m :
  msgq_ok msgq -> 0 < used_msgs msgq ->
  msgq_ok (msgq_advance msgq) /\
  contents msgq m = read_bytes m (read_ptr msgq) (msg_size msgq) :: contents (msgq_advance msgq) m /\
  used_msgs (msgq_advance msgq) = used_msgs msgq - 1 /\ max_msgs (msgq_advance msgq) = max_msgs msgq /\
  msgq_wait_q (msgq_advance msgq) = msgq_wait_q msgq /\ msg_size (msgq_advance msgq) = msg_size msgq /\
  buffer_start (msgq_advance msgq) = buffer_start msgq.
Proof.
  intros Hok Hu. pose proof Hok as [H1 H2 H3 H4 H5 [H6 H7] H8]. set (r := read_idx msgq) in *.
  set (r' := (r + 1) mod max_msgs msgq).
  assert (msgq_advance msgq = set_used_msgs (used_msgs msgq - 1) (set_read_ptr (slot msgq r') msgq)) as ->.
  { unfold msgq_advance. cbn [read_ptr buffer_end set_read_ptr buffer_start msg_size].
    pose proof (advance_ptr msgq r Hok H7) as Hadv. rewrite <- H6 in Hadv. unfold r'. rewrite <- Hadv.
    case_match; simpl; rewrite wrap_u_id by (unfold UINT32_MAX in *; nia); done. }
  assert (0 <= r' < max_msgs msgq) as Hr' by (apply Z.mod_pos_bound; lia).
  assert (read_idx (set_used_msgs (used_msgs msgq - 1) (set_read_ptr (slot msgq r') msgq)) = r') as Hidx.
  { exact (read_idx_slot msgq r' Hok). }
  assert (∀ k, (r' + k) mod max_msgs msgq = (r + (k + 1)) mod max_msgs msgq) as Hmod.
  { intros k. unfold r'. rewrite Zplus_mod_idemp_l. f_equal. lia. }
  split; [| split; [| done]].
  - constructor; rewrite ?Hidx; try done;
      cbn [used_msgs max_msgs set_used_msgs set_read_ptr write_ptr]; [lia |].
    change (slot (set_used_msgs _ _)) with (slot msgq). rewrite Hmod, H8. do 2 f_equal. lia.
  - unfold contents. rewrite Hidx. cbn [used_msgs max_msgs set_used_msgs set_read_ptr msg_size].
    change (slot (set_used_msgs _ _)) with (slot msgq). fold r.
    replace (Z.to_nat (used_msgs msgq)) with (S (Z.to_nat (used_msgs msgq - 1))) by lia.
    cbn [seq]. rewrite fmap_cons. f_equal.
    + rewrite Z.add_0_r, Z.mod_small by lia. by rewrite <- H6.
    + rewrite <- fmap_S_seq, <- list_fmap_compose. apply list_fmap_ext. intros i k _. simpl. rewrite Hmod.
      do 3 f_equal. lia.
Qed.

Lemma store_other msgq src m data :
  msgq_ok msgq -> outside msgq data ->
  read_bytes (msgq_store msgq src m).2 data (msg_size msgq) = read_bytes m data (msg_size msgq).
Proof.
  intros Hok Ho. unfold msgq_store. cbn [snd]. apply read_memcpy_other. rewrite (mq_write _ Hok).
  destruct (outside_slot msgq data ((read_idx msgq + used_msgs msgq) mod max_msgs msgq) Ho) as [H | H];
    [apply Z.mod_pos_bound, Hok | right; done | left; done].
Qed.

Lemma get_unfold msgq data timeout m s :
  used_msgs msgq > 0 ->
  z_impl_k_msgq_get msgq data timeout m s =
  let m := memcpy data (read_ptr msgq) (msg_size msgq) m in
  match z_unpend_first_thread (msgq_wait_q (msgq_advance msgq)) s with
  | (Some pending_thread, s) =>
      let '(msgq, m) := msgq_store (msgq_advance msgq) (swap_data (thr s pending_thread)) m in
      (Returns 0, msgq, m, z_reschedule (z_ready_thread pending_thread (arch_thread_return_value_set pending_thread 0 s)))
  | (None, s) => (Returns 0, msgq_advance msgq, m, s)
  end.
Proof. intros Hu. unfold z_impl_k_msgq_get. destruct (Z.gtb_spec (used_msgs msgq) 0); [done | lia]. Qed.

(** ** Waiting *)

(** Threads wait only on an empty or a full queue. *)
Definition msgq_inv msgq s : Prop :=
  msgq_ok msgq /\ sched_inv ∅ s /\
  (waitq s (msgq_wait_q msgq) ≠ [] -> used_msgs msgq = 0 \/ used_msgs msgq = max_msgs msgq).

Lemma current_upd_thread t f s : current (upd_thread t f s) = current s.
Proof. done. Qed.

(** The blocking branch of put and get. *)
Lemma msgq_block_ok w data timeout s :
  sched_inv ∅ s -> current s ∈ runq s -> valid_timeout timeout ->
  let s' := z_pend_curr w timeout (upd_thread (current s) (set_swap_data data) s) in
  sched_inv ∅ s' /\ current s ∈ waitq s' w /\ swap_data (thr s' (current s)) = data /\
  swap_return s' (current s) = - EAGAIN.
Proof.
  intros Hs Hc Hv. cbv zeta. set (s1 := upd_thread _ _ s).
  assert (sched_inv ∅ s1) as H1 by (unfold s1; by rewrite <- same_upd).
  pose proof (pend_curr w timeout s1 H1 Hc Hv) as Hp. change (current s1) with (current s) in *.
  split; [apply Hp |]. split; [| split].
  - rewrite (pd_waitq _ _ _ Hp), decide_True by done. apply dumb_add_elem. by left.
  - etransitivity; [exact (pd_data _ _ _ Hp) |]. change (current s1) with (current s). unfold s1. by rewrite thr_upd_eq.
  - apply (pd_return _ _ _ Hp).
Qed.

(** ** Claims *)

(** [k_msgq_put] on a queue that is not full either hands the message to
    the first waiting reader, whose buffer then holds it, or appends it to the
    queue; on a full queue it fails with -ENOMSG or makes the caller wait with
    its message.  The invariant (threads wait only on an empty or a full queue,
    the ring indices are consistent) is kept. *)
Theorem msgq_put_spec msgq data timeout m s :
  msgq_inv msgq s -> current s ∈ runq s -> valid_timeout timeout ->
  let '(o, msgq', m', s') := z_impl_k_msgq_put msgq data timeout m s in
  let msg := read_bytes m data (msg_size msgq) in
  msgq_inv msgq' s' /\
  match o with
  | Returns r =>
      match waitq s (msgq_wait_q msgq) with
      | t :: l =>
          if used_msgs msgq <? max_msgs msgq
          then r = 0 /\ contents msgq' m' = contents msgq m /\ waitq s' (msgq_wait_q msgq) = l /\
               swap_return s' t = 0 /\ read_bytes m' (swap_data (thr s t)) (msg_size msgq) = msg
          else r = - ENOMSG /\ msgq' = msgq /\ m' = m /\ s' = s
      | [] =>
          if used_msgs msgq <? max_msgs msgq
          then r = 0 /\ contents msgq' m' = contents msgq m ++ [msg] /\ s' = s
          else r = - ENOMSG /\ msgq' = msgq /\ m' = m /\ s' = s
      end
  | Blocks =>
      used_msgs msgq = max_msgs msgq /\ msgq' = msgq /\ m' = m /\ timeout ≠ K_NO_WAIT /\
      current s ∈ waitq s' (msgq_wait_q msgq) /\ swap_data (thr s' (current s)) = data
  end.
Proof.
  intros (Hok & Hs & Hwait) Hc Hv. unfold z_impl_k_msgq_put. pose proof (mq_used _ Hok) as Hu.
  destruct (Z.ltb_spec (used_msgs msgq) (max_msgs msgq)) as [Hlt | Hge].
  - destruct (waitq s (msgq_wait_q msgq)) as [| t l] eqn:Hw.
    + rewrite unpend_first_none by done. pose proof (store_ok msgq data m Hok Hlt) as Hst.
      destruct (msgq_store msgq data m) as [msgq' m']. destruct Hst as (H1 & H2 & H3 & H4 & H5 & _).
      split; [| done]. split; [done |]. split; [done |]. rewrite H5, Hw. done.
    + destruct (wake_resched _ s t l 0 Hs Hw Hc) as (s1 & -> & -> & Hr & Hret). cbv zeta in *.
      assert (used_msgs msgq = 0) as H0 by (destruct (Hwait ltac:(done)); lia).
      split; [split; [done |]; split; [apply Hr | auto] |].
      split; [done |]. split; [unfold contents; by rewrite H0 |].
      rewrite (rs_waitq _ _ _ _ _ Hr), decide_True by done. split; [done |]. split; [done |]. apply read_memcpy_same.
  - unfold K_TIMEOUT_EQ. destruct (Z.eqb_spec timeout K_NO_WAIT) as [-> | Hne].
    + split; [done |]. by destruct (waitq s (msgq_wait_q msgq)).
    + destruct (msgq_block_ok (msgq_wait_q msgq) data timeout s Hs Hc Hv) as (B1 & B2 & B3 & _).
      split; [split; [done | split; [done | intros _; right; lia]] |]. split; [lia |]. done.
Qed.

(** [k_msgq_get] on a queue with messages delivers the oldest one to the
    caller's buffer, and if a writer is waiting appends the message of the
    first one and wakes it; on an empty queue it fails with -ENOMSG or makes
    the caller wait. *)
Theorem msgq_get_spec msgq data timeout m s :
  msgq_inv msgq s -> current s ∈ runq s -> valid_timeout timeout -> outside msgq data ->
  let '(o, msgq', m', s') := z_impl_k_msgq_get msgq data timeout m s in
  msgq_inv msgq' s' /\
  match o, contents msgq m with
  | Returns r, msg :: rest =>
      r = 0 /\
      match waitq s (msgq_wait_q msgq) with
      | [] => contents msgq' m' = rest /\ s' = s /\ read_bytes m' data (msg_size msgq) = msg
      | t :: l =>
          contents msgq' m' = rest ++ [read_bytes (memcpy data (read_ptr msgq) (msg_size msgq) m) (swap_data (thr s t)) (msg_size msgq)] /\
          waitq s' (msgq_wait_q msgq) = l /\ swap_return s' t = 0 /\
          read_bytes m' data (msg_size msgq) = msg
      end
  | Returns r, [] => r = - ENOMSG /\ msgq' = msgq /\ m' = m /\ s' = s
  | Blocks, msgs =>
      msgs = [] /\ msgq' = msgq /\ m' = m /\ timeout ≠ K_NO_WAIT /\
      current s ∈ waitq s' (msgq_wait_q msgq) /\ swap_data (thr s' (current s)) = data
  end.
Proof.
  intros (Hok & Hs & Hwait) Hc Hv Hout. pose proof (mq_used _ Hok) as Hu.
  destruct (Z.gtb_spec (used_msgs msgq) 0) as [Hpos | Hz].
  - rewrite get_unfold by lia. cbv zeta. set (m1 := memcpy data _ _ m).
    destruct (advance_ok msgq m Hok ltac:(lia)) as (A1 & A2 & A3 & A4 & A5 & A6 & A7).
    assert (contents (msgq_advance msgq) m1 = contents (msgq_advance msgq) m) as Hc1.
    { unfold m1. rewrite <- A6. apply contents_outside; [done |]. unfold outside. by rewrite A4, A6, A7. }
    assert (read_bytes m1 data (msg_size msgq) = read_bytes m (read_ptr msgq) (msg_size msgq)) as Hd
      by apply read_memcpy_same.
    rewrite A5, A2. destruct (waitq s (msgq_wait_q msgq)) as [| t l] eqn:Hw.
    + rewrite unpend_first_none by done. split; [| done]. split; [done |]. split; [done |]. rewrite A5, Hw. done.
    + destruct (wake_resched _ s t l 0 Hs Hw Hc) as (s1 & -> & -> & Hr & Hret). cbv zeta in *.
      assert (used_msgs msgq = max_msgs msgq) as Hfull by (destruct (Hwait ltac:(done)); lia).
      pose proof (store_ok (msgq_advance msgq) (swap_data (thr s t)) m1 A1 ltac:(lia)) as Hst.
      pose proof (store_other (msgq_advance msgq) (swap_data (thr s t)) m1 data A1) as Hso.
      destruct (msgq_store (msgq_advance msgq) (swap_data (thr s t)) m1) as [msgq' m'].
      destruct Hst as (S1 & S2 & S3 & S4 & S5 & S6 & _).
      split; [split; [done |]; split; [apply Hr | intros _; right; lia] |]. split; [done |].
      rewrite S2, Hc1, A6. split; [done |].
      rewrite (rs_waitq _ _ _ _ _ Hr), decide_True by done. split; [done |]. split; [done |].
      rewrite <- A6 in Hd |- *. rewrite <- Hd. apply Hso. unfold outside. by rewrite A4, A6, A7.
  - assert (contents msgq m = []) as -> by (unfold contents; replace (used_msgs msgq) with 0 by lia; done).
    unfold z_impl_k_msgq_get, K_TIMEOUT_EQ. destruct (Z.gtb_spec (used_msgs msgq) 0); [lia |].
    destruct (Z.eqb_spec timeout K_NO_WAIT) as [-> | Hne]; [done |].
    destruct (msgq_block_ok (msgq_wait_q msgq) data timeout s Hs Hc Hv) as (B1 & B2 & B3 & _).
    split; [split; [done | split; [done | intros _; left; lia]] |]. done.
Qed.

(** [k_msgq_peek_at] copies the message [idx] places behind the oldest one
    into the caller's buffer, across the wrap-around, without changing the
    queue, and fails with -ENOMSG when there is no such message. *)
Theorem msgq_peek_at_spec msgq data idx m :
  msgq_ok msgq -> 0 <= idx ->
  let '(r, m') := z_impl_k_msgq_peek_at msgq data idx m in
  match contents msgq m !! Z.to_nat idx with
  | Some msg => r = 0 /\ read_bytes m' data (msg_size msgq) = msg
  | None => r = - ENOMSG /\ m' = m
  end.
Proof.
  intros Hok Hidx. pose proof Hok as [H1 H2 H3 H4 H5 [H6 H7] H8]. unfold z_impl_k_msgq_peek_at.
  destruct (Z.gtb_spec (used_msgs msgq) idx) as [Hlt | Hge].
  - rewrite contents_lookup by lia. rewrite Z2Nat.id by lia.
    set (r := read_idx msgq) in *. set (sz := Z.of_nat (msg_size msgq)) in *.
    assert (buffer_end msgq - read_ptr msgq = (max_msgs msgq - r) * sz) as Hbe
      by (rewrite H5, H6; unfold slot; fold sz; lia).
    unfold UINT32_MAX in H3. rewrite Hbe. rewrite !wrap_u_id by nia.
    assert ((r + idx) mod max_msgs msgq = if (max_msgs msgq - r) <=? idx then r + idx - max_msgs msgq else r + idx) as Hmod.
    { destruct (Z.leb_spec (max_msgs msgq - r) idx); [| by rewrite Z.mod_small by lia].
      rewrite <- (Z.mod_small (r + idx - max_msgs msgq) (max_msgs msgq)) by lia.
      replace (r + idx) with ((r + idx - max_msgs msgq) + 1 * max_msgs msgq) at 1 by lia. apply Z.mod_add. lia. }
    rewrite Hmod. destruct (Z.leb_spec ((max_msgs msgq - r) * sz) (idx * sz)) as [Hc | Hc];
      destruct (Z.leb_spec (max_msgs msgq - r) idx) as [Hd | Hd]; try nia.
    + split; [done |]. rewrite wrap_u_id by nia. rewrite read_memcpy_same. f_equal. unfold slot. fold sz. lia.
    + split; [done |]. rewrite read_memcpy_same. f_equal. rewrite H6. unfold slot. fold sz. lia.
  - assert (contents msgq m !! Z.to_nat idx = None) as ->; [| done].
    apply lookup_ge_None_2. pose proof (contents_length msgq m Hok). lia.
Qed.

(** [k_msgq_purge] empties the queue and wakes every waiting thread with
    -ENOMSG: writers blocked on a full queue, and readers blocked on an empty
    one as well. *)
Theorem msgq_purge_spec msgq m s :
  msgq_inv msgq s -> current s ∈ runq s ->
  let '(msgq', s') := z_impl_k_msgq_purge msgq s in
  msgq_inv msgq' s' /\ contents msgq' m = [] /\ waitq s' (msgq_wait_q msgq) = [] /\
  ∀ t, t ∈ waitq s (msgq_wait_q msgq) -> swap_return s' t = - ENOMSG /\ pended_on (thr s' t) = None.
Proof.
  intros (Hok & Hs & Hw) Hc. unfold z_impl_k_msgq_purge.
  set (w := msgq_wait_q msgq) in *.
  change (msgq_purge_body msgq) with (wake_with w (- ENOMSG)).
  destruct (drain_ok ∅ w (wake_with w (- ENOMSG)) (length (waitq s w)) s (wake_with_head _ _) Hs) as [H1 H2]; [lia |].
  destruct (wake_all_with w (- ENOMSG) (length (waitq s w)) s Hs ltac:(lia)) as (W1 & _ & W3 & _). cbv zeta in *.
  set (s1 := waitq_drain _ _ _ _) in *. destruct (reschedule_frame s1) as (Hsame & Ho & _).
  assert (waitq (z_reschedule s1) w = []) as Hnil by (rewrite (same_waitq _ _ Hsame); done).
  pose proof Hok as [K1 K2 K3 K4 K5 [K6 K7] K8].
  assert (read_idx (set_read_ptr (write_ptr (set_used_msgs 0 msgq)) (set_used_msgs 0 msgq)) =
    (read_idx msgq + used_msgs msgq) mod max_msgs msgq) as Hr.
  { unfold read_idx. cbn [read_ptr write_ptr set_read_ptr set_used_msgs buffer_start msg_size]. rewrite K8.
    by apply read_idx_slot. }
  assert (0 <= (read_idx msgq + used_msgs msgq) mod max_msgs msgq < max_msgs msgq) as Hb by (apply Z.mod_pos_bound; lia).
  split; [| split; [done | split; [done |]]].
  - split; [| split; [by rewrite <- Hsame | intros Hne; by destruct (Hne Hnil)]].
    constructor; rewrite ?Hr; try done.
    + simpl. lia.
    + cbn [used_msgs set_read_ptr set_used_msgs max_msgs write_ptr]. rewrite Z.add_0_r, Z.mod_mod by lia. done.
  - intros t Ht. unfold swap_return in *. rewrite Ho; [by apply W1 |].
    destruct (ctx_eq _ _ W3) as (-> & _ & _). by apply (waiter_not_current s w).
Qed.

(** ** Refinement of a bounded FIFO queue *)

Inductive msgq_op := MPut (msg : list Z) | MGet.

(** A caller that never waits, with its outgoing message at [src] and its
    incoming one at [dst]. *)
Definition msgq_call (src dst : Z) (op : msgq_op) (x : k_msgq * mem * z_kernel) :
  (outcome * option (list Z)) * (k_msgq * mem * z_kernel) :=
  let '(msgq, m, s) := x in
  match op with
  | MPut msg =>
      let '(o, msgq, m, s) := z_impl_k_msgq_put msgq src K_NO_WAIT (write_bytes m src msg) s in
      ((o, None), (msgq, m, s))
  | MGet =>
      let '(o, msgq', m, s) := z_impl_k_msgq_get msgq dst K_NO_WAIT m s in
      ((o, match o with Returns 0 => Some (read_bytes m dst (msg_size msgq)) | _ => None end), (msgq', m, s))
  end.

(** The specification: a list of at most [cap] messages. *)
Definition fifo_call (cap : nat) (op : msgq_op) (q : list (list Z)) :
  (outcome * option (list Z)) * list (list Z) :=
  match op with
  | MPut msg => if (length q <? cap)%nat then ((Returns 0, None), q ++ [msg]) else ((Returns (- ENOMSG), None), q)
  | MGet => match q with
            | [] => ((Returns (- ENOMSG), None), [])
            | msg :: q => ((Returns 0, Some msg), q)
            end
  end.

Fixpoint run {A} (f : msgq_op -> A -> (outcome * option (list Z)) * A) (ops : list msgq_op) (x : A) :
  list (outcome * option (list Z)) :=
  match ops with
  | [] => []
  | op :: ops => let '(r, x) := f op x in r :: run f ops x
  end.

Lemma contents_write msgq m src msg :
  msgq_ok msgq -> outside msgq src -> length msg = msg_size msgq ->
  contents msgq (write_bytes m src msg) = contents msgq m.
Proof.
  intros Hok Ho Hl. unfold contents. apply list_fmap_ext. intros i k Hk%lookup_seq. apply read_write_other.
  rewrite Hl. apply outside_slot; [done |]. apply Z.mod_pos_bound. apply Hok.
Qed.

Lemma msgq_call_refines src dst op msgq m s :
  msgq_ok msgq -> waitq s (msgq_wait_q msgq) = [] -> outside msgq src -> outside msgq dst ->
  (∀ msg, op = MPut msg -> length msg = msg_size msgq) ->
  let '(r, (msgq', m', s')) := msgq_call src dst op (msgq, m, s) in
  fifo_call (Z.to_nat (max_msgs msgq)) op (contents msgq m) = (r, contents msgq' m') /\
  msgq_ok msgq' /\ s' = s /\ msgq_wait_q msgq' = msgq_wait_q msgq /\ max_msgs msgq' = max_msgs msgq /\
  msg_size msgq' = msg_size msgq /\ buffer_start msgq' = buffer_start msgq.
Proof.
  intros Hok Hw Hsrc Hdst Hlen. pose proof (mq_used _ Hok) as Hu. pose proof (contents_length msgq m Hok) as Hcl.
  destruct op as [msg |]; simpl.
  - specialize (Hlen msg eq_refl). unfold z_impl_k_msgq_put.
    destruct (Z.ltb_spec (used_msgs msgq) (max_msgs msgq)) as [Hlt | Hge];
      destruct (Nat.ltb_spec (length (contents msgq m)) (Z.to_nat (max_msgs msgq))); try lia.
    + rewrite unpend_first_none by done. pose proof (store_ok msgq src (write_bytes m src msg) Hok Hlt) as Hst.
      destruct (msgq_store msgq src (write_bytes m src msg)) as [msgq' m'].
      destruct Hst as (S1 & S2 & S3 & S4 & S5 & S6 & S7 & S8). rewrite S2, contents_write by done.
      assert (read_bytes (write_bytes m src msg) src (msg_size msgq) = msg) as ->
        by (rewrite <- Hlen; apply read_write_same). done.
    + simpl. by rewrite contents_write.
  - destruct (Z.gtb_spec (used_msgs msgq) 0) as [Hpos | Hz].
    + rewrite get_unfold by lia. destruct (advance_ok msgq m Hok ltac:(lia)) as (A1 & A2 & A3 & A4 & A5 & A6 & A7).
      cbv zeta. rewrite A5, unpend_first_none by done. simpl. rewrite A2, read_memcpy_same.
      assert (contents (msgq_advance msgq) (memcpy dst (read_ptr msgq) (msg_size msgq) m) =
        contents (msgq_advance msgq) m) as ->; [| done].
      rewrite <- A6. apply contents_outside; [done |]. unfold outside. by rewrite A4, A6, A7.
    + unfold z_impl_k_msgq_get. destruct (Z.gtb_spec (used_msgs msgq) 0); [lia |]. simpl.
      destruct (contents msgq m); [done | simpl in Hcl; lia].
Qed.

(** C7: For callers that do not wait, the message queue is a bounded FIFO
    queue: any sequence of puts and gets returns the same codes and delivers
    the same messages, byte for byte, as the list specification with the
    queue's capacity. *)
Theorem msgq_refines_fifo ops src dst msgq m s :
  msgq_ok msgq -> waitq s (msgq_wait_q msgq) = [] -> outside msgq src -> outside msgq dst ->
  Forall (λ op, match op with MPut msg => length msg = msg_size msgq | MGet => True end) ops ->
  run (msgq_call src dst) ops (msgq, m, s) =
  run (fifo_call (Z.to_nat (max_msgs msgq))) ops (contents msgq m).
Proof.
  intros Hok Hw Hsrc Hdst Hops. revert msgq m Hok Hw Hsrc Hdst Hops.
  induction ops as [| op ops IH]; intros msgq m Hok Hw Hsrc Hdst Hops; [done |].
  apply Forall_cons in Hops as [Hop Hops]. cbn [run].
  assert (∀ msg, op = MPut msg -> length msg = msg_size msgq) as Hlen by (intros msg ->; done).
  pose proof (msgq_call_refines src dst op msgq m s Hok Hw Hsrc Hdst Hlen) as Hstep.
  destruct (msgq_call src dst op (msgq, m, s)) as [r [[msgq' m'] s']].
  destruct Hstep as (-> & H1 & -> & H2 & H3 & H4 & H5). f_equal. rewrite <- H3.
  apply IH; unfold outside; rewrite ?H2, ?H3, ?H4, ?H5; done.
Qed.

End Ops.

(** ** Concrete runs *)

#[local] Existing Instance default_kconfig | 100.

(** Two slots of two bytes at address 100. *)
Definition msgq0 : k_msgq := mk_msgq (inr 5%nat) 2 2 100 104 100 100 0 0.

Lemma msgq0_ok : msgq_ok msgq0.
Proof. constructor; by_compute. Qed.

Lemma msgq0_inv s : sched_inv ∅ s -> msgq_inv msgq0 s.
Proof. intros Hs. split; [apply msgq0_ok |]. split; [done |]. by left. Qed.

Definition mem0 : mem := λ a, a mod 256.

Lemma msgq_put_spec_witness :
  let '(o, msgq', m', s') := z_impl_k_msgq_put msgq0 10 K_NO_WAIT mem0 one_waiting in
  o = Returns 0 /\ waitq s' (inr 5%nat) = [] /\ read_bytes m' (swap_data (thr one_waiting 2)) 2 = [10; 11].
Proof.
  pose proof (msgq_put_spec msgq0 10 K_NO_WAIT mem0 one_waiting (msgq0_inv _ one_waiting_inv)
    ltac:(by_compute) ltac:(by split)) as H.
  vm_compute in H |- *. tauto.
Defined.

Lemma msgq_get_spec_witness :
  let '(o, msgq', m', s') := z_impl_k_msgq_get msgq0 10 50 mem0 two_threads in
  o = Blocks /\ waitq s' (inr 5%nat) = [2%nat].
Proof.
  pose proof (msgq_get_spec msgq0 10 50 mem0 two_threads (msgq0_inv _ two_threads_inv)
    ltac:(by_compute) ltac:(by split) ltac:(left; by_compute)) as H.
  destruct (z_impl_k_msgq_get msgq0 10 50 mem0 two_threads) as [[[o msgq'] m'] s'] eqn:E.
  vm_compute in E. injection E as <- <- <- <-. destruct H as (_ & H). split; [reflexivity |]. vm_compute. reflexivity.
Defined.

(** A queue that has wrapped around: slot 1, then slot 0. *)
Definition msgq_wrapped : k_msgq := mk_msgq (inr 5%nat) 2 2 100 104 102 102 2 0.

Lemma msgq_peek_at_spec_witness :
  read_bytes (z_impl_k_msgq_peek_at msgq_wrapped 10 1 mem0).2 10 2 = [100; 101].
Proof.
  assert (msgq_ok msgq_wrapped) as Hok by (constructor; by_compute).
  pose proof (msgq_peek_at_spec msgq_wrapped 10 1 mem0 Hok ltac:(by_compute)) as H.
  vm_compute in H |- *. tauto.
Defined.

Lemma msgq_purge_spec_witness :
  used_msgs msgq0 = 0 /\ waitq one_waiting (inr 5%nat) = [2%nat] /\
  swap_return (z_impl_k_msgq_purge msgq0 one_waiting).2 2 = - ENOMSG.
Proof.
  split; [reflexivity |]. split; [by_compute |].
  pose proof (msgq_purge_spec msgq0 mem0 one_waiting (msgq0_inv _ one_waiting_inv) ltac:(by_compute)) as H.
  destruct (z_impl_k_msgq_purge msgq0 one_waiting) as [q' s']. destruct H as (_ & _ & _ & H).
  apply H. by_compute.
Defined.

Lemma msgq_refines_fifo_witness :
  run (msgq_call 10 20) [MPut [1; 2]; MPut [3; 4]; MPut [5; 6]; MGet; MGet; MGet] (msgq0, mem0, two_threads) =
  [(Returns 0, None); (Returns 0, None); (Returns (- ENOMSG), None);
   (Returns 0, Some [1; 2]); (Returns 0, Some [3; 4]); (Returns (- ENOMSG), None)].
Proof.
  rewrite (msgq_refines_fifo _ 10 20 msgq0 mem0 two_threads msgq0_ok);
    [vm_compute; reflexivity | by_compute | left; by_compute | left; by_compute | repeat constructor].
Defined.
