(* ===== verification/KStack.v ===== *)
(** * Stacks (kernel/stack.c)

    [struct k_stack] is an array of words between [base] and [top]; addresses
    count words.  The stack refines a bounded LIFO list, and a push with
    waiting threads hands the word to the first of them. *)

From Stdlib Require Import ZArith Lia Bool.
From stdpp Require Import base numbers list gmap sets.
From S2P Require Import Prelude Memory TimeoutQ Kernel PrioQ Sched SchedInv SchedOps Threads WaitApi.

Open Scope Z_scope.

(** ** [struct k_stack] and its operations *)

Definition K_STACK_FLAG_ALLOC : Z := 1.

(** [sizeof(stack_data_t)] on a 32-bit target *)
Definition STACK_DATA_SIZE : Z := 4.

Record k_stack := mk_stack {
  stack_wait_q : wqid;
  stack_base : Z;
  stack_next : Z;
  stack_top : Z;
  stack_flags : Z
}.

Definition set_stack_next (v : Z) (k : k_stack) : k_stack :=
  mk_stack (stack_wait_q k) (stack_base k) v (stack_top k) (stack_flags k).
Definition set_stack_flags (v : Z) (k : k_stack) : k_stack :=
  mk_stack (stack_wait_q k) (stack_base k) (stack_next k) (stack_top k) v.

Definition store_word (a v : Z) (m : mem) : mem := λ x, if x =? a then v else m x.

Section Ops.
Context {cfg : Kconfig}.
Implicit Types (stack : k_stack) (m : mem) (s : z_kernel).

Definition k_stack_init stack (buffer num_entries : Z) s : k_stack * z_kernel :=
  (mk_stack (stack_wait_q stack) buffer buffer (buffer + num_entries) (stack_flags stack),
   z_waitq_init (stack_wait_q stack) s).

(** [z_thread_malloc] takes a size in bytes; the product is a 32-bit one. *)
Definition z_impl_k_stack_alloc_init (z_thread_malloc : Z -> option Z) stack (num_entries : Z) s :
  Z * k_stack * z_kernel :=
  match z_thread_malloc (u32 (num_entries * STACK_DATA_SIZE)) with
  | Some buffer =>
      let '(stack, s) := k_stack_init stack buffer num_entries s in
      (0, set_stack_flags K_STACK_FLAG_ALLOC stack, s)
  | None => (- ENOMEM, stack, s)
  end.

(** The second component is the block handed to [k_free]. *)
Definition k_stack_cleanup stack s : Z * option Z * k_stack :=
  if z_waitq_head s (stack_wait_q stack) is Some _ then (- EAGAIN, None, stack)
  else if flag_any (stack_flags stack) K_STACK_FLAG_ALLOC
  then (0, Some (stack_base stack),
        mk_stack (stack_wait_q stack) 0 (stack_next stack) (stack_top stack)
          (flag_clear (stack_flags stack) K_STACK_FLAG_ALLOC))
  else (0, None, stack).

Definition z_impl_k_stack_push stack (data : Z) m s : Z * k_stack * mem * z_kernel :=
  if stack_next stack =? stack_top stack then (- ENOMEM, stack, m, s)
  else
    match z_unpend_first_thread (stack_wait_q stack) s with
    | (Some first_pending_thread, s) =>
        let s := z_thread_return_value_set_with_data first_pending_thread 0 data s in
        let s := z_ready_thread first_pending_thread s in
        (0, stack, m, z_reschedule s)
    | (None, s) =>
        let m := store_word (stack_next stack) data m in
        (0, set_stack_next (stack_next stack + 1) stack, m, s)
    end.

(** [k_stack_pop] up to its context switch; the popped word is the second
    component. *)
Definition z_impl_k_stack_pop stack (timeout : Z) m s : outcome * Z * k_stack * z_kernel :=
  if stack_next stack >? stack_base stack then
    let stack := set_stack_next (stack_next stack - 1) stack in
    (Returns 0, m (stack_next stack), stack, s)
  else if K_TIMEOUT_EQ timeout K_NO_WAIT then (Returns (- EBUSY), 0, stack, s)
  else (Blocks, 0, stack, z_pend_curr (stack_wait_q stack) timeout s).

(** The return value and the word of a [k_stack_pop] that waited. *)
Definition stack_pop_return s (thread : tid) : Z * option Z :=
  let result := swap_return s thread in
  if result =? - EAGAIN then (- EAGAIN, None) else (0, Some (swap_data (thr s thread))).

(** ** Contents *)

(** The words on the stack, the last one pushed first. *)
Definition stack_contents stack m : list Z :=
  (λ i, m (stack_next stack - 1 - Z.of_nat i)) <$> seq 0 (Z.to_nat (stack_next stack - stack_base stack)).

(** Threads wait only for an empty stack that has room. *)
Record stack_inv stack s : Prop := {
  st_range : stack_base stack <= stack_next stack <= stack_top stack;
  st_sched : sched_inv ∅ s;
  st_wait : waitq s (stack_wait_q stack) ≠ [] -> stack_next stack = stack_base stack
}.

Lemma contents_push stack m v :
  stack_base stack <= stack_next stack ->
  stack_contents (set_stack_next (stack_next stack + 1) stack) (store_word (stack_next stack) v m) =
  v :: stack_contents stack m.
Proof.
  intros H. unfold stack_contents. cbn [stack_next stack_base set_stack_next].
  replace (Z.to_nat (stack_next stack + 1 - stack_base stack)) with
    (S (Z.to_nat (stack_next stack - stack_base stack))) by lia.
  cbn [seq]. rewrite fmap_cons. f_equal.
  - unfold store_word. destruct (Z.eqb_spec (stack_next stack + 1 - 1 - Z.of_nat 0) (stack_next stack)); [done | lia].
  - rewrite <- fmap_S_seq, <- list_fmap_compose. apply list_fmap_ext. intros i k Hk%lookup_seq. simpl.
    unfold store_word. destruct (Z.eqb_spec (stack_next stack + 1 - 1 - Z.of_nat (S k)) (stack_next stack)); [lia |].
    f_equal. lia.
Qed.

Lemma contents_pop stack m :
  stack_base stack < stack_next stack ->
  stack_contents stack m =
  m (stack_next stack - 1) :: stack_contents (set_stack_next (stack_next stack - 1) stack) m.
Proof.
  intros H. unfold stack_contents. cbn [stack_next stack_base set_stack_next].
  replace (Z.to_nat (stack_next stack - stack_base stack)) with
    (S (Z.to_nat (stack_next stack - 1 - stack_base stack))) by lia.
  cbn [seq]. rewrite fmap_cons. f_equal; [f_equal; lia |].
  rewrite <- fmap_S_seq, <- list_fmap_compose. apply list_fmap_ext. intros i k _. simpl. f_equal. lia.
Qed.

Lemma contents_empty stack m : stack_next stack = stack_base stack -> stack_contents stack m = [].
Proof. intros E. unfold stack_contents. rewrite E, Z.sub_diag. done. Qed.

(** ** Claims *)

(** A push on a full stack fails with -ENOMEM and changes nothing; with a
    thread waiting in pop, the word goes to the first such thread, whose pop
    returns it; otherwise it is the new top of the stack. *)
Theorem stack_push_spec stack data m s :
  stack_inv stack s -> current s ∈ runq s ->
  let '(r, stack', m', s') := z_impl_k_stack_push stack data m s in
  stack_inv stack' s' /\
  if decide (stack_next stack = stack_top stack) then r = - ENOMEM /\ stack' = stack /\ m' = m /\ s' = s
  else r = 0 /\
    match waitq s (stack_wait_q stack) with
    | [] => stack_contents stack' m' = data :: stack_contents stack m /\ s' = s
    | t :: l => stack' = stack /\ m' = m /\ waitq s' (stack_wait_q stack) = l /\ stack_pop_return s' t = (0, Some data)
    end.
Proof.
  intros [Hr Hs Hw] Hc. unfold z_impl_k_stack_push.
  destruct (Z.eqb_spec (stack_next stack) (stack_top stack)) as [E | E];
    destruct (decide (stack_next stack = stack_top stack)) as [|]; try done.
  destruct (waitq s (stack_wait_q stack)) as [| t l] eqn:Hq.
  - rewrite unpend_first_none by done. split; [| split; [done |]; split; [by apply contents_push; lia | done]].
    constructor; cbn [stack_next stack_base stack_top stack_wait_q set_stack_next]; [lia | done | congruence].
  - destruct (wake_resched_with_data _ s t l 0 data Hs Hq Hc) as (s1 & -> & Hrs & Hret & Hdat). cbv zeta in *.
    split; [constructor; [lia | apply Hrs | intros _; apply Hw; congruence] |].
    split; [done |]. do 2 (split; [done |]). rewrite (rs_waitq _ _ _ _ _ Hrs), decide_True by done.
    split; [done |]. unfold stack_pop_return. by rewrite Hret, Hdat.
Qed.

(** A pop takes the word pushed last; on an empty stack it fails with
    -EBUSY if it may not wait and otherwise puts the caller on the wait
    queue, where it returns -EAGAIN unless a push wakes it. *)
Theorem stack_pop_spec stack timeout m s :
  stack_inv stack s -> current s ∈ runq s -> valid_timeout timeout ->
  let '(o, v, stack', s') := z_impl_k_stack_pop stack timeout m s in
  stack_inv stack' s' /\
  match stack_contents stack m with
  | x :: rest => o = Returns 0 /\ v = x /\ stack_contents stack' m = rest /\ s' = s
  | [] =>
      if decide (timeout = K_NO_WAIT) then o = Returns (- EBUSY) /\ stack' = stack /\ s' = s
      else o = Blocks /\ stack' = stack /\ current s ∈ waitq s' (stack_wait_q stack) /\
           stack_pop_return s' (current s) = (- EAGAIN, None)
  end.
Proof.
  intros [Hr Hs Hw] Hc Hv. unfold z_impl_k_stack_pop, K_TIMEOUT_EQ.
  destruct (Z.gtb_spec (stack_next stack) (stack_base stack)) as [Hlt | Hge].
  - rewrite contents_pop by lia. split; [| done].
    constructor; cbn [stack_next stack_base stack_top stack_wait_q set_stack_next]; [lia | done |].
    intros Hne. specialize (Hw Hne). lia.
  - destruct (Z.eqb_spec timeout K_NO_WAIT) as [-> | Hne]; rewrite contents_empty by lia.
    + rewrite decide_True by done. done.
    + rewrite decide_False by done. pose proof (pend_curr (stack_wait_q stack) timeout s Hs Hc Hv) as Hp.
      split; [constructor; [lia | apply Hp | intros _; lia] |]. split; [done |]. split; [done |].
      rewrite (pd_waitq _ _ _ Hp), decide_True by done. split; [apply dumb_add_elem; by left |].
      unfold stack_pop_return. by rewrite (pd_return _ _ _ Hp), Z.eqb_refl.
Qed.

(** [k_stack_alloc_init] sets the stack up for [num_entries] words but, as
    the byte count is computed without an overflow check, may ask the
    allocator for fewer bytes than that. *)
Theorem stack_alloc_undersized z_thread_malloc stack num_entries s buffer :
  2 ^ 30 <= num_entries <= UINT32_MAX ->
  z_thread_malloc (u32 (num_entries * STACK_DATA_SIZE)) = Some buffer ->
  let '(r, stack', _) := z_impl_k_stack_alloc_init z_thread_malloc stack num_entries s in
  r = 0 /\ stack_top stack' - stack_base stack' = num_entries /\
  u32 (num_entries * STACK_DATA_SIZE) < (stack_top stack' - stack_base stack') * STACK_DATA_SIZE.
Proof.
  intros Hn Hm. unfold z_impl_k_stack_alloc_init. rewrite Hm. simpl. split; [done |]. split; [lia |].
  unfold STACK_DATA_SIZE, UINT32_MAX in *. pose proof (wrap_u_bound 32 (num_entries * 4) ltac:(lia)). lia.
Qed.

End Ops.

(** ** Concrete runs *)

#[local] Existing Instance default_kconfig | 100.

Definition stack0 : k_stack := mk_stack (inr 5%nat) 100 100 103 0.

Lemma stack0_inv s : sched_inv ∅ s -> stack_inv stack0 s.
Proof. intros Hs. constructor; [by split | done | done]. Qed.

Lemma stack_push_spec_witness :
  let '(r, _, _, s') := z_impl_k_stack_push stack0 42 (λ _, 0) one_waiting in
  r = 0 /\ stack_pop_return s' 2 = (0, Some 42).
Proof.
  pose proof (stack_push_spec stack0 42 (λ _, 0) one_waiting (stack0_inv _ one_waiting_inv) ltac:(by_compute)) as H.
  destruct (z_impl_k_stack_push stack0 42 (λ _, 0) one_waiting) as [[[r stack'] m'] s'].
  rewrite decide_False in H by discriminate. destruct H as (_ & -> & H). split; [reflexivity |].
  assert (waitq one_waiting (stack_wait_q stack0) = [2%nat]) as E by by_compute. rewrite E in H. apply H.
Defined.

Lemma stack_pop_spec_witness :
  let '(o, _, _, s') := z_impl_k_stack_pop stack0 50 (λ _, 0) two_threads in
  o = Blocks /\ stack_pop_return s' 2 = (- EAGAIN, None).
Proof.
  pose proof (stack_pop_spec stack0 50 (λ _, 0) two_threads (stack0_inv _ two_threads_inv)
    ltac:(by_compute) ltac:(by split)) as H.
  destruct (z_impl_k_stack_pop stack0 50 (λ _, 0) two_threads) as [[[o v] stack'] s'].
  destruct H as (_ & H). cbn [stack_contents stack0 stack_next stack_base] in H.
  rewrite decide_False in H by discriminate.
  assert (current two_threads = 2%nat) as E by by_compute. rewrite E in H. split; apply H.
Defined.

Lemma stack_alloc_undersized_witness :
  let '(r, stack', _) := z_impl_k_stack_alloc_init (λ size, Some 1000) stack0 (2 ^ 30 + 1) two_threads in
  r = 0 /\ stack_top stack' - stack_base stack' = 2 ^ 30 + 1 /\ u32 ((2 ^ 30 + 1) * STACK_DATA_SIZE) = 4.
Proof.
  pose proof (stack_alloc_undersized (λ size, Some 1000) stack0 (2 ^ 30 + 1) two_threads 1000
    ltac:(by split) eq_refl) as H.
  vm_compute in H |- *. tauto.
Defined.
