(* ===== verification/Condvar.v ===== *)
(** * Condition variables (kernel/condvar.c)

    [k_condvar_wait] holds a spinlock, with interrupts locked, from before it
    unlocks the mutex until it has joined the wait queue, so the unlock does
    not reschedule: releasing the mutex and starting to wait are one step.
    It is split at its context switch. *)

From Stdlib Require Import ZArith Lia Bool.
From stdpp Require Import base numbers list gmap sets.
From S2P Require Import Prelude TimeoutQ Kernel PrioQ Sched SchedInv SchedOps Threads WaitApi Mutex.

Open Scope Z_scope.

Section Condvar.
Context {cfg : Kconfig}.
Implicit Types (condvar : wqid) (s : z_kernel).

(** [struct k_condvar] is its wait queue. *)
Definition z_impl_k_condvar_init condvar s : Z * z_kernel := (0, z_waitq_init condvar s).

Definition z_impl_k_condvar_signal condvar s : Z * z_kernel :=
  match z_unpend_first_thread condvar s with
  | (Some thread, s) =>
      let s := arch_thread_return_value_set thread 0 s in
      let s := z_ready_thread thread s in
      (0, z_reschedule s)
  | (None, s) => (0, s)
  end.

(** One turn of the loop of [k_condvar_broadcast]. *)
Definition condvar_broadcast_body condvar (_ : tid) s : z_kernel :=
  match z_unpend_first_thread condvar s with
  | (Some pending_thread, s) => z_ready_thread pending_thread (arch_thread_return_value_set pending_thread 0 s)
  | (None, s) => s
  end.

(** [woken] counts the turns of the loop, one for each waiter. *)
Definition z_impl_k_condvar_broadcast condvar s : Z * z_kernel :=
  let woken := Z.of_nat (length (waitq s condvar)) in
  let s := waitq_drain (length (waitq s condvar)) (condvar_broadcast_body condvar) condvar s in
  (woken, z_reschedule s).

(** [k_condvar_wait] up to its context switch.  The result of [k_mutex_unlock]
    is ignored. *)
Definition z_impl_k_condvar_wait condvar (mutex : k_mutex) (timeout : Z) s : option (k_mutex * z_kernel) :=
  '(_, mutex, s1) ← z_impl_k_mutex_unlock mutex (set_irq_unlocked false s);
  let s1 := set_irq_unlocked (irq_unlocked s) s1 in
  Some (mutex, z_pend_curr condvar timeout s1).

(** The rest: the value [k_condvar_wait] will return, and the lock. *)
Definition condvar_wait_resume (mutex : k_mutex) s : Z * option (lock_outcome * k_mutex * z_kernel) :=
  (swap_return s (current s), z_impl_k_mutex_lock mutex K_FOREVER s).

(** ** Signal and broadcast *)

(** A signal wakes the first waiter, with return value 0, and nobody when
    nobody waits. *)
Theorem condvar_signal_spec condvar s :
  sched_inv ∅ s -> current s ∈ runq s ->
  let '(r, s') := z_impl_k_condvar_signal condvar s in
  r = 0 /\ sched_inv ∅ s' /\
  match waitq s condvar with
  | [] => s' = s
  | t :: l => waitq s' condvar = l /\ swap_return s' t = 0 /\ pended_on (thr s' t) = None
  end.
Proof.
  intros Hs Hc. unfold z_impl_k_condvar_signal. destruct (waitq s condvar) as [| t l] eqn:Hw.
  - by rewrite unpend_first_none.
  - destruct (wake_resched _ s t l 0 Hs Hw Hc) as (s1 & -> & _ & Hr & Hret). cbv zeta in *.
    split; [done |]. split; [apply Hr |]. rewrite (rs_waitq _ _ _ _ _ Hr), decide_True by done.
    split; [done |]. split; [done | apply Hr].
Qed.

(** A broadcast wakes every waiter with return value 0 and returns their
    number. *)
Theorem condvar_broadcast_spec condvar s :
  sched_inv ∅ s -> current s ∈ runq s ->
  let '(r, s') := z_impl_k_condvar_broadcast condvar s in
  r = Z.of_nat (length (waitq s condvar)) /\ sched_inv ∅ s' /\ waitq s' condvar = [] /\
  ∀ t, t ∈ waitq s condvar -> swap_return s' t = 0 /\ pended_on (thr s' t) = None.
Proof.
  intros Hs Hc. unfold z_impl_k_condvar_broadcast.
  change (condvar_broadcast_body condvar) with (wake_with condvar 0).
  destruct (drain_ok ∅ condvar (wake_with condvar 0) (length (waitq s condvar)) s (wake_with_head _ _) Hs) as [H1 H2]; [lia |].
  destruct (wake_all_with condvar 0 (length (waitq s condvar)) s Hs ltac:(lia)) as (W1 & _ & W3 & _). cbv zeta in *.
  set (s1 := waitq_drain _ _ _ _) in *. destruct (reschedule_frame s1) as (Hsame & Ho & _).
  split; [done |]. split; [by rewrite <- Hsame |]. split; [by rewrite (same_waitq _ _ Hsame) |].
  intros t Ht. unfold swap_return in *. rewrite Ho; [by apply W1 |].
  destruct (ctx_eq _ _ W3) as (-> & _ & _). by apply (waiter_not_current s condvar).
Qed.

(** ** Wait *)

Lemma same_irq b s : same_sched s (set_irq_unlocked b s).
Proof. by constructor. Qed.

Lemma mutex_inv_irq m b s : mutex_inv m s -> mutex_inv m (set_irq_unlocked b s).
Proof. intros []. constructor; try done. by rewrite <- same_irq. Qed.

(** With interrupts locked nothing is rescheduled. *)
Lemma reschedule_locked s : irq_unlocked s = false -> z_reschedule s = s.
Proof. intros E. unfold z_reschedule, resched. by rewrite E. Qed.

Hypothesis no_deadline : SCHED_DEADLINE = false.

(** With interrupts locked, an unlock leaves the caller running and ready. *)
Lemma unlock_locked m s r m' s' :
  mutex_inv m s -> current s ∈ runq s -> irq_unlocked s = false ->
  z_impl_k_mutex_unlock m s = Some (r, m', s') ->
  current s' = current s /\ current s ∈ runq s'.
Proof.
  intros Hm Hc Hi. unfold z_impl_k_mutex_unlock.
  destruct (owner m) as [o |] eqn:Ho.
  2: { rewrite bool_decide_eq_true_2 by done. by intros [= <- <- <-]. }
  rewrite bool_decide_eq_false_2 by done. destruct (decide (o = current s)) as [-> | Hne].
  2: { rewrite bool_decide_eq_false_2 by congruence. by intros [= <- <- <-]. }
  rewrite bool_decide_eq_true_2 by done. simpl. destruct (lock_count m >? 1); [by intros [= <- <- <-] |].
  destruct (adjust_ok m s (current s) (owner_orig_prio m) Hm Ho (mi_orig _ _ Hm)) as (b & s1 & -> & A1 & A2 & A3 & A4 & A5 & A6).
  simpl. destruct (waitq s1 (mutex_wait_q m)) as [| t l] eqn:Hw.
  - rewrite unpend_first_none by done. intros [= <- <- <-].
    split; [by destruct (ctx_eq _ _ A3) | by apply A6].
  - destruct (unpend_first_some _ s1 t l A1 Hw) as (s2 & -> & Hup). intros [= <- <- <-].
    set (s3 := z_ready_thread t _).
    assert (ctx s3 = ctx s) as Hctx.
    { unfold s3, z_ready_thread. rewrite ctx_ready_thread. rewrite <- A3, <- (up_ctx _ _ _ _ _ Hup). done. }
    rewrite reschedule_locked by (by injection Hctx as _ _ _ ->).
    split; [by injection Hctx as -> _ _ _ |].
    assert (t ≠ current s) as Hne.
    { apply (waiter_not_current s (mutex_wait_q m)); [apply Hm | | done]. rewrite <- A2, Hw. by apply elem_of_cons; left. }
    unfold s3, z_ready_thread. rewrite elem_ready_thread_ne by done.
    change (runq (arch_thread_return_value_set t 0 s2)) with (runq s2). rewrite (up_runq _ _ _ _ _ Hup). by apply A6.
Qed.

(** [k_condvar_wait] by the owner of a mutex locked once releases the mutex
    to the first thread waiting for it, or frees it, and puts the caller on the
    condition's wait queue in one step: no thread runs in between, so a
    signal sent by the next owner finds the caller waiting. *)
Theorem condvar_wait_atomic condvar m timeout s :
  mutex_inv m s -> current s ∈ runq s -> valid_timeout timeout -> condvar ≠ mutex_wait_q m ->
  owner m = Some (current s) -> lock_count m = 1 ->
  exists m' s', z_impl_k_condvar_wait condvar m timeout s = Some (m', s') /\
    sched_inv ∅ s' /\ current s ∈ waitq s' condvar /\
    owner m' = head (waitq s (mutex_wait_q m)) /\ owner m' ≠ Some (current s) /\
    waitq s' (mutex_wait_q m) = tail (waitq s (mutex_wait_q m)).
Proof.
  intros Hm Hc Hv Hcv Ho H1. unfold z_impl_k_condvar_wait. set (s0 := set_irq_unlocked false s).
  assert (mutex_inv m s0) as Hm0 by (by apply mutex_inv_irq).
  destruct (unlock_last_ok m s0 Hm0 Ho H1 Hc) as (m1 & s1 & E & Hm1 & Hwq & _ & Hcase).
  destruct (unlock_locked m s0 _ _ _ Hm0 Hc eq_refl E) as [Hcur Hrun]. rewrite E. simpl.
  set (s2 := set_irq_unlocked (irq_unlocked s) s1).
  assert (pended condvar s2 (z_pend_curr condvar timeout s2)) as Hp.
  { apply pend_curr; [| unfold s2; simpl; by rewrite Hcur | done]. unfold s2. rewrite <- same_irq. apply Hm1. }
  assert (current s2 = current s) as Hcur2 by done.
  eexists _, _. split; [done |]. split; [apply Hp |].
  rewrite !(pd_waitq _ _ _ Hp), decide_True, decide_False by done. rewrite Hcur2.
  split; [apply dumb_add_elem; by left |]. change (waitq s2) with (waitq s1). change (waitq s0) with (waitq s) in Hcase.
  destruct (waitq s (mutex_wait_q m)) as [| t l] eqn:Hw; simpl.
  - destruct Hcase as [-> H0]. split; [done |]. split; [done |].
    rewrite <- Hwq. apply (mi_free _ _ Hm1). by apply (mi_owner _ _ Hm1).
  - destruct Hcase as (-> & _ & _ & _ & ->). split; [done |]. split; [| done]. intros [= ->].
    destruct (mi_excl _ _ Hm (current s) Ho) as [Hx _]. apply Hx. rewrite Hw. by apply elem_of_cons; left.
Qed.

End Condvar.

(** ** Concrete runs *)

#[local] Existing Instance default_kconfig | 100.

Lemma condvar_signal_spec_witness :
  waitq (z_impl_k_condvar_signal (inr 5%nat) one_waiting).2 (inr 5%nat) = [] /\
  swap_return (z_impl_k_condvar_signal (inr 5%nat) one_waiting).2 2 = 0.
Proof.
  pose proof (condvar_signal_spec (inr 5%nat) one_waiting one_waiting_inv ltac:(by_compute)) as H.
  destruct (z_impl_k_condvar_signal (inr 5%nat) one_waiting) as [r s']. destruct H as (_ & _ & H).
  assert (waitq one_waiting (inr 5%nat) = [2%nat]) as E by by_compute. rewrite E in H. split; apply H.
Defined.

Lemma condvar_broadcast_spec_witness :
  (z_impl_k_condvar_broadcast (inr 5%nat) one_waiting).1 = 1.
Proof.
  pose proof (condvar_broadcast_spec (inr 5%nat) one_waiting one_waiting_inv ltac:(by_compute)) as H.
  destruct (z_impl_k_condvar_broadcast (inr 5%nat) one_waiting) as [r s']. destruct H as (-> & _). by_compute.
Defined.

Lemma condvar_wait_atomic_witness :
  exists m' s', z_impl_k_condvar_wait (inr 6%nat) mutex1 50 two_threads = Some (m', s') /\
    2%nat ∈ waitq s' (inr 6%nat) /\ owner m' = None.
Proof.
  destruct (condvar_wait_atomic (cfg := default_kconfig) (inr 6%nat) mutex1 50 two_threads mutex1_inv
    ltac:(by_compute) ltac:(by split) ltac:(discriminate) ltac:(by_compute) eq_refl) as (m' & s' & E & _ & H1 & H2 & _).
  exists m', s'. split; [exact E |]. assert (current two_threads = 2%nat) as Ec by by_compute. rewrite Ec in H1.
  split; [exact H1 |]. rewrite H2. by_compute.
Defined.
