(* ===== verification/KQueue.v ===== *)
(** * Queues (kernel/queue.c)

    [struct k_queue], under k_fifo and k_lifo, is a flagged list whose nodes
    are either the caller's items, linked through their first word, or
    allocated nodes that point to the item; a flag bit of the node tells
    which.  The list lives in a memory of words and is the pointer-level one
    of GenList. *)

From Stdlib Require Import ZArith Lia Bool.
From stdpp Require Import base numbers list gmap sets.
From S2P Require Import Prelude Memory GenList TimeoutQ Kernel PrioQ Sched SchedInv SchedOps Threads WaitApi.

Open Scope Z_scope.

(** ** [struct k_queue] and its operations *)

Record k_queue := mk_queue { data_q : genlist; queue_wait_q : wqid }.

Definition set_data_q (v : genlist) (q : k_queue) : k_queue := mk_queue v (queue_wait_q q).

(** [struct alloc_node]: the list node, then the data pointer *)
Definition alloc_node_data (anode : Z) : Z := anode + 4.
Definition alloc_node_size : Z := 8.

Definition store (a v : Z) (m : mem) : mem := λ x, if x =? a then v else m x.

(** The second component is the block handed to [k_free]. *)
Definition z_queue_node_peek (m : mem) (node : Z) (needs_free : bool) : Z * option Z :=
  if negb (node =? NULL) && negb (sys_sfnode_flags_get m node =? 0) then
    let anode := node in
    (m (alloc_node_data anode), if needs_free then Some anode else None)
  else (node, None).

Section Ops.
Context {cfg : Kconfig}.
Implicit Types (queue : k_queue) (m : mem) (s : z_kernel) (prev data : Z).

Definition z_impl_k_queue_init queue s : k_queue * z_kernel :=
  (set_data_q (genlist_init (data_q queue)) queue, z_waitq_init (queue_wait_q queue) s).

Definition prepare_thread_to_run (thread : tid) data s : z_kernel :=
  z_ready_thread thread (z_thread_return_value_set_with_data thread 0 data s).

Definition z_impl_k_queue_cancel_wait queue s : z_kernel :=
  let s :=
    match z_unpend_first_thread (queue_wait_q queue) s with
    | (Some first_pending_thread, s) => prepare_thread_to_run first_pending_thread NULL s
    | (None, s) => s
    end in
  z_reschedule s.

Definition queue_insert (z_thread_malloc : Z -> option Z) queue prev data (alloc is_append : bool) m s :
  Z * k_queue * mem * z_kernel :=
  let prev := if is_append then peek_tail (data_q queue) else prev in
  match z_unpend_first_thread (queue_wait_q queue) s with
  | (Some first_pending_thread, s) => (0, queue, m, z_reschedule (prepare_thread_to_run first_pending_thread data s))
  | (None, s) =>
      let prepared : option (Z * mem) :=
        if alloc then
          match z_thread_malloc alloc_node_size with
          | None => None
          | Some anode => Some (anode, sys_sfnode_init anode 1 (store (alloc_node_data anode) data m))
          end
        else Some (data, sys_sfnode_init data 0 m) in
      match prepared with
      | None => (- ENOMEM, queue, m, s)
      | Some (data, m) =>
          let '(l, m) := insert (gn := sfnode) (data_q queue) prev data m in
          (0, set_data_q l queue, m, z_reschedule s)
      end
  end.

Definition no_malloc : Z -> option Z := λ _, None.

Definition k_queue_insert queue prev data m s : k_queue * mem * z_kernel :=
  let '(_, queue, m, s) := queue_insert no_malloc queue prev data false false m s in (queue, m, s).

Definition k_queue_append queue data m s : k_queue * mem * z_kernel :=
  let '(_, queue, m, s) := queue_insert no_malloc queue NULL data false true m s in (queue, m, s).

Definition k_queue_prepend queue data m s : k_queue * mem * z_kernel :=
  let '(_, queue, m, s) := queue_insert no_malloc queue NULL data false false m s in (queue, m, s).

Definition z_impl_k_queue_alloc_append (z_thread_malloc : Z -> option Z) queue data m s : Z * k_queue * mem * z_kernel :=
  queue_insert z_thread_malloc queue NULL data true true m s.

Definition z_impl_k_queue_alloc_prepend (z_thread_malloc : Z -> option Z) queue data m s : Z * k_queue * mem * z_kernel :=
  queue_insert z_thread_malloc queue NULL data true false m s.

(** The loop of [k_queue_append_list]; each iteration takes a thread off the
    wait queue, so its length bounds their number. *)
Fixpoint append_list_loop (fuel : nat) (w : wqid) (head : Z) (thread : option tid) m s : Z * z_kernel :=
  match fuel with
  | O => (head, s)
  | S fuel =>
      match thread with
      | Some thread =>
          if negb (head =? NULL) then
            let s := prepare_thread_to_run thread head s in
            let head := m head in
            let '(thread, s) := z_unpend_first_thread w s in
            append_list_loop fuel w head thread m s
          else (head, s)
      | None => (head, s)
      end
  end.

Definition k_queue_append_list queue (head tail : Z) m s : Z * k_queue * mem * z_kernel :=
  if (head =? NULL) || (tail =? NULL) then (- EINVAL, queue, m, s)
  else
    let waiters := length (waitq s (queue_wait_q queue)) in
    let '(thread, s) := if negb (head =? NULL) then z_unpend_first_thread (queue_wait_q queue) s else (None, s) in
    let '(head, s) := append_list_loop (S waiters) (queue_wait_q queue) head thread m s in
    let '(l, m) := if negb (head =? NULL) then append_list (gn := sfnode) (data_q queue) head tail m else (data_q queue, m) in
    (0, set_data_q l queue, m, z_reschedule s).

(** The result includes the list, emptied when it was merged. *)
Definition k_queue_merge_slist queue (list : genlist) m s : Z * k_queue * genlist * mem * z_kernel :=
  if is_empty list then (- EINVAL, queue, list, m, s)
  else
    let '(ret, queue, m, s) := k_queue_append_list queue (list_head list) (list_tail list) m s in
    if negb (ret =? 0) then (ret, queue, list, m, s) else (0, queue, genlist_init list, m, s).

(** [k_queue_get] up to its context switch: the data, the block it frees, and
    the new state; [Blocks] leaves the data to [queue_get_return]. *)
Definition z_impl_k_queue_get queue (timeout : Z) m s : outcome * option Z * k_queue * z_kernel :=
  if negb (is_empty (data_q queue)) then
    let '(node, l) := get_not_empty (gn := sfnode) (data_q queue) m in
    let '(data, freed) := z_queue_node_peek m node true in
    (Returns data, freed, set_data_q l queue, s)
  else if K_TIMEOUT_EQ timeout K_NO_WAIT then (Returns NULL, None, queue, s)
  else (Blocks, None, queue, z_pend_curr (queue_wait_q queue) timeout s).

(** What a [k_queue_get] that waited returns. *)
Definition queue_get_return s (thread : tid) : Z :=
  let ret := swap_return s thread in
  if negb (ret =? 0) then NULL else swap_data (thr s thread).

Definition k_queue_remove (fuel : nat) queue data m : option (bool * k_queue * mem) :=
  '(ret, l, m) ← find_and_remove (gn := sfnode) fuel (data_q queue) data m;
  Some (ret, set_data_q l queue, m).

Fixpoint unique_append_loop (fuel : nat) (test data : Z) m : option bool :=
  match fuel with
  | O => None
  | S fuel =>
      if test =? NULL then Some true
      else if test =? data then Some false
      else unique_append_loop fuel (peek_next (gn := sfnode) m test) data m
  end.

Definition k_queue_unique_append (fuel : nat) queue data m s : option (bool * k_queue * mem * z_kernel) :=
  unique ← unique_append_loop fuel (peek_head (data_q queue)) data m;
  if unique : bool then
    let '(queue, m, s) := k_queue_append queue data m s in Some (true, queue, m, s)
  else Some (false, queue, m, s).

Definition z_impl_k_queue_is_empty queue : bool := is_empty (data_q queue).

Definition z_impl_k_queue_peek_head queue m : Z := (z_queue_node_peek m (peek_head (data_q queue)) false).1.

Definition z_impl_k_queue_peek_tail queue m : Z := (z_queue_node_peek m (peek_tail (data_q queue)) false).1.

End Ops.

(** ** Contents *)

(** The item a node stands for. *)
Definition node_item (m : mem) (x : Z) : Z := (z_queue_node_peek m x false).1.

Definition queue_items (m : mem) (l : list Z) : list Z := node_item m <$> l.

Definition allocated (m : mem) (x : Z) : Prop := sys_sfnode_flags_get m x ≠ 0.

(** A cell that belongs to no node of the queue. *)
Definition fresh_cell (m : mem) (l : list Z) (a : Z) : Prop :=
  (a ∉ l) ∧ ∀ x, x ∈ l -> allocated m x -> a ≠ alloc_node_data x.

Section Proofs.
Context {cfg : Kconfig}.
Implicit Types (q : k_queue) (m : mem) (s : z_kernel) (prev data x : Z) (l nodes : list Z).

(** The list is represented in memory, the data words of its allocated nodes
    are no nodes, and threads wait only while it is empty. *)
Record queue_inv q m s l : Prop := {
  qi_rep : list_rep (gn := sfnode) m (data_q q) l;
  qi_data : ∀ x, x ∈ l -> allocated m x -> alloc_node_data x ∉ l;
  qi_sched : sched_inv ∅ s;
  qi_wait : waitq s (queue_wait_q q) ≠ [] -> l = []
}.

Lemma rep_ext m m' L l :
  (∀ x, x ∈ l -> m' x = m x) -> list_rep (gn := sfnode) m L l -> list_rep (gn := sfnode) m' L l.
Proof.
  intros Heq [Hs Ht Hd Hv]. split; [| done..]. eapply seg_ext; [| done].
  intros x Hx. simpl. unfold z_sfnode_next_peek. by rewrite Heq.
Qed.

Lemma items_ext m m' l :
  (∀ x, x ∈ l -> sys_sfnode_flags_get m' x = sys_sfnode_flags_get m x) ->
  (∀ x, x ∈ l -> allocated m x -> m' (alloc_node_data x) = m (alloc_node_data x)) ->
  queue_items m' l = queue_items m l.
Proof.
  intros Hf Hd. apply list_fmap_ext. intros i x Hx%list_elem_of_lookup_2. unfold node_item, z_queue_node_peek.
  rewrite Hf by done. destruct (x =? NULL); [done |]. simpl.
  destruct (Z.eqb_spec (sys_sfnode_flags_get m x) 0) as [E | E]; [done |]. simpl. by apply Hd.
Qed.

(** What linking a node writes: words of list nodes only, and no flag. *)
Lemma insert_effect m L l1 l2 node L' m' :
  list_rep (gn := sfnode) m L (l1 ++ l2) -> valid_node (gn := sfnode) node ->
  insert (gn := sfnode) L (default NULL (last l1)) node m = (L', m') ->
  (∀ a, a ≠ node -> a ∉ l1 ++ l2 -> m' a = m a) ∧
  (∀ a, sys_sfnode_flags_get m' a = sys_sfnode_flags_get m a).
Proof.
  intros Hr [Hn0 Hna] Hins. assert (Hr' := Hr). destruct Hr' as [Hs Ht Hd Hv].
  assert (∀ l, l ⊆ l1 ++ l2 -> ∀ z, last l = Some z -> z ∈ l1 ++ l2) as Hlast.
  { intros l Hl z Hz. apply last_Some in Hz as [l' ->]. set_solver. }
  assert (aligned (list_head L)) as Hha by (eapply seg_head_ptr in Hs; [done | done | done]).
  assert (∀ p c M, (p = node \/ p ∈ l1 ++ l2) -> aligned c ->
    (∀ a, a ≠ node -> a ∉ l1 ++ l2 -> M a = m a) ∧ (∀ a, sys_sfnode_flags_get M a = sys_sfnode_flags_get m a) ->
    (∀ a, a ≠ node -> a ∉ l1 ++ l2 -> z_sfnode_next_set p c M a = m a) ∧
    (∀ a, sys_sfnode_flags_get (z_sfnode_next_set p c M) a = sys_sfnode_flags_get m a)) as Hstep.
  { intros p c M Hp Hc [HM1 HM2]. split; intros a.
    - intros Ha1 Ha2. rewrite <- (HM1 a) by done. apply (next_set_frame (GenNode := sfnode) M p c a). set_solver.
    - by rewrite flags_next_set. }
  unfold insert in Hins. destruct (last l1) as [prev |] eqn:Hl; simpl in Hins.
  - assert (prev ∈ l1 ++ l2) as Hp by (apply (Hlast l1); [set_solver | done]).
    assert (prev ≠ NULL) as Hp0 by (rewrite Forall_forall in Hv; by apply Hv).
    rewrite (proj2 (Z.eqb_neq prev NULL)) in Hins by done.
    destruct (z_sfnode_next_peek m prev =? NULL).
    + unfold append in Hins. simpl in Hins. destruct (Z.eqb_spec (peek_tail L) NULL) as [E | E]; simplify_eq.
      * apply Hstep; [by left | done | done].
      * apply Hstep; [| done | apply Hstep; [by left | done | done]]. right. unfold peek_tail in *. rewrite Ht in *.
        destruct (last (l1 ++ l2)) as [z |] eqn:Hz; [| done]. by apply (Hlast (l1 ++ l2)).
    + simplify_eq. apply Hstep; [by right | done |]. apply Hstep; [by left | | done].
      unfold aligned, z_sfnode_next_peek. rewrite <- Z.land_assoc, (Z.land_comm (Z.lnot _)), Z.land_lnot_diag, Z.land_0_r. done.
  - unfold prepend in Hins. simpl in Hins. case_match; simplify_eq; (apply Hstep; [by left | done | done]).
Qed.

(** The list after [insert], for a node prepared in memory [m1]. *)
Lemma insert_items m m1 L l1 l2 node data L' m' :
  list_rep (gn := sfnode) m L (l1 ++ l2) ->
  (∀ x, x ∈ l1 ++ l2 -> allocated m x -> alloc_node_data x ∉ l1 ++ l2) ->
  valid_node (gn := sfnode) node -> fresh_cell m (l1 ++ l2) node ->
  (∀ x, x ∈ l1 ++ l2 -> m1 x = m x) ->
  (∀ x, x ∈ l1 ++ l2 -> allocated m x -> m1 (alloc_node_data x) = m (alloc_node_data x)) ->
  node_item m1 node = data -> (allocated m1 node -> alloc_node_data node ∉ l1 ++ l2) ->
  insert (gn := sfnode) L (default NULL (last l1)) node m1 = (L', m') ->
  list_rep (gn := sfnode) m' L' (l1 ++ node :: l2) ∧
  (∀ x, x ∈ l1 ++ node :: l2 -> allocated m' x -> alloc_node_data x ∉ l1 ++ node :: l2) ∧
  queue_items m' (l1 ++ node :: l2) = queue_items m l1 ++ data :: queue_items m l2.
Proof.
  intros Hr Hd Hv [Hf1 Hf2] Hw Hwd Hit Hnd Hins. pose proof (rep_ext m m1 _ _ Hw Hr) as Hr1.
  destruct (insert_effect m1 L l1 l2 node L' m' Hr1 Hv Hins) as [He1 He2].
  assert (∀ x, x ∈ l1 ++ l2 -> sys_sfnode_flags_get m1 x = sys_sfnode_flags_get m x) as Hfl.
  { intros x Hx. unfold sys_sfnode_flags_get. by rewrite Hw. }
  assert (∀ x, alloc_node_data x ≠ x) as Hne by (unfold alloc_node_data; lia).
  split; [by eapply rep_insert |]. split.
  - intros x Hx Ha. unfold allocated in *. rewrite He2 in Ha.
    destruct (decide (x = node)) as [-> | Hxn]; [specialize (Hnd Ha); specialize (Hne node); set_solver |].
    assert (x ∈ l1 ++ l2) as Hx' by set_solver. rewrite Hfl in Ha by done.
    specialize (Hd x Hx' Ha). specialize (Hf2 x Hx' Ha). set_solver.
  - assert (∀ l, l ⊆ l1 ++ l2 -> queue_items m' l = queue_items m l) as Hold.
    { intros l Hl. apply items_ext.
      - intros x Hx. rewrite He2. apply Hfl. set_solver.
      - intros x Hx Ha. assert (x ∈ l1 ++ l2) as Hx' by set_solver.
        rewrite He1; [by apply Hwd | by apply not_eq_sym, Hf2 | by apply Hd]. }
    unfold queue_items in *. rewrite fmap_app, fmap_cons. rewrite !Hold by set_solver. do 2 f_equal.
    rewrite <- Hit. unfold node_item, z_queue_node_peek. rewrite He2. destruct Hv as [Hn0 _].
    rewrite (proj2 (Z.eqb_neq node NULL)) by done. simpl.
    destruct (Z.eqb_spec (sys_sfnode_flags_get m1 node) 0) as [E | E]; [done |]. simpl. apply He1; [apply Hne | by apply Hnd].
Qed.

Lemma inv_reschedule_same q m s l : queue_inv q m s l -> queue_inv q m (z_reschedule s) l.
Proof.
  intros [Hr Hd Hs Hw]. destruct (reschedule_frame s) as (Hsame & _ & _).
  split; [done | done | by rewrite <- Hsame | by rewrite (same_waitq _ _ Hsame)].
Qed.

(** What an insertion needs: a valid item in a cell of its own, or an
    allocator that returns such a block. *)
Definition insertable (z_thread_malloc : Z -> option Z) m l data (alloc : bool) : Prop :=
  if alloc then
    ∀ p, z_thread_malloc alloc_node_size = Some p ->
         valid_node (gn := sfnode) p ∧ fresh_cell m l p ∧ fresh_cell m l (alloc_node_data p)
  else valid_node (gn := sfnode) data ∧ fresh_cell m l data.

(** The node [queue_insert] links, in the memory it links it in. *)
Lemma prepared_ok z_thread_malloc m l data (alloc : bool) node m1 :
  insertable z_thread_malloc m l data alloc ->
  (if alloc then
     match z_thread_malloc alloc_node_size with
     | None => None
     | Some anode => Some (anode, sys_sfnode_init anode 1 (store (alloc_node_data anode) data m))
     end
   else Some (data, sys_sfnode_init data 0 m)) = Some (node, m1) ->
  valid_node (gn := sfnode) node ∧ fresh_cell m l node ∧
  (∀ x, x ∈ l -> m1 x = m x) ∧
  (∀ x, x ∈ l -> allocated m x -> m1 (alloc_node_data x) = m (alloc_node_data x)) ∧
  node_item m1 node = data ∧ (allocated m1 node -> alloc_node_data node ∉ l).
Proof.
  intros Hi Hp. unfold node_item, z_queue_node_peek, allocated, sys_sfnode_flags_get.
  destruct alloc; simpl in Hi.
  - destruct (z_thread_malloc alloc_node_size) as [p |] eqn:Hm; [| done]. simplify_eq.
    destruct (Hi node eq_refl) as (Hv & [Hf1 Hf2] & [Hg1 Hg2]). split; [done |]. split; [done |].
    unfold sys_sfnode_init, store. rewrite Z.eqb_refl. assert (alloc_node_data node ≠ node) as Hne by (unfold alloc_node_data; lia).
    destruct Hv as [Hv0 _]. rewrite (proj2 (Z.eqb_neq node NULL)) by done. simpl.
    rewrite (proj2 (Z.eqb_neq _ _) Hne), Z.eqb_refl. split_and!; [| | done | done]; intros x Hx; [| intros Ha].
    + rewrite !(proj2 (Z.eqb_neq x _)); [done | set_solver | set_solver].
    + specialize (Hf2 x Hx Ha). specialize (Hg2 x Hx Ha). rewrite !(proj2 (Z.eqb_neq (alloc_node_data x) _)) by congruence. done.
  - simplify_eq. destruct Hi as [[Hv0 Hv1] [Hf1 Hf2]]. do 2 (split; [done |]). unfold sys_sfnode_init.
    rewrite Z.eqb_refl, (proj2 (Z.eqb_neq node NULL)) by done. split_and!; [| | done | done]; intros x Hx; [| intros Ha].
    + rewrite (proj2 (Z.eqb_neq x _)); [done | set_solver].
    + specialize (Hf2 x Hx Ha). rewrite (proj2 (Z.eqb_neq (alloc_node_data x) _)) by congruence. done.
Qed.

(** C16: Inserting into a queue hands the item to the first thread waiting for
    one, and otherwise links it after the node asked for: at the end for an
    append, at the front for no predecessor.  The queue then holds the items
    it held, in their order, with the new one in its place, whether the item
    is linked itself or through an allocated node; when that node cannot be
    allocated the call returns -ENOMEM and changes nothing. *)
Theorem queue_insert_spec z_thread_malloc q prev data (alloc is_append : bool) m s l1 l2 :
  queue_inv q m s (l1 ++ l2) -> current s ∈ runq s ->
  (if is_append then l2 = [] else prev = default NULL (last l1)) ->
  insertable z_thread_malloc m (l1 ++ l2) data alloc ->
  let '(r, q', m', s') := queue_insert z_thread_malloc q prev data alloc is_append m s in
  match waitq s (queue_wait_q q) with
  | t :: ts =>
      r = 0 /\ q' = q /\ m' = m /\ queue_inv q m s' (l1 ++ l2) /\
      waitq s' (queue_wait_q q) = ts /\ queue_get_return s' t = data
  | [] =>
      if alloc && bool_decide (z_thread_malloc alloc_node_size = None)
      then r = - ENOMEM /\ q' = q /\ m' = m /\ s' = s
      else r = 0 /\ ∃ node, queue_inv q' m' s' (l1 ++ node :: l2) /\
           queue_items m' (l1 ++ node :: l2) = queue_items m l1 ++ data :: queue_items m l2
  end.
Proof.
  intros Hinv Hc Hprev Hi. unfold queue_insert, prepare_thread_to_run.
  assert ((if is_append then peek_tail (data_q q) else prev) = default NULL (last l1)) as ->.
  { destruct is_append; [| done]. subst l2. rewrite app_nil_r in Hinv. apply Hinv. }
  destruct Hinv as [Hr Hd Hs Hw]. destruct (waitq s (queue_wait_q q)) as [| t ts] eqn:Hq.
  - rewrite unpend_first_none by done. cbv zeta.
    destruct (if alloc then _ else _) as [[node m1] |] eqn:Hp.
    + assert (alloc && bool_decide (z_thread_malloc alloc_node_size = None) = false) as ->.
      { destruct alloc; [| done]. simpl. apply bool_decide_false. by intros E; rewrite E in Hp. }
      destruct (prepared_ok _ _ _ _ _ _ _ Hi Hp) as (P1 & P2 & P3 & P4 & P5 & P6).
      destruct (insert (data_q q) (default NULL (last l1)) node m1) as [L' m'] eqn:Hins.
      destruct (insert_items m m1 _ l1 l2 node data L' m' Hr Hd P1 P2 P3 P4 P5 P6 Hins) as (I1 & I2 & I3).
      split; [done |]. exists node. split; [| done]. apply inv_reschedule_same. split; [done | done | done | simpl; congruence].
    + assert (alloc && bool_decide (z_thread_malloc alloc_node_size = None) = true) as ->; [| done].
      destruct alloc; [| done]. simpl. apply bool_decide_true. by case_match.
  - destruct (wake_resched_with_data _ s t ts 0 data Hs Hq Hc) as (s1 & -> & Hrs & Hret & Hdat). cbv zeta in *.
    do 3 (split; [done |]). rewrite (rs_waitq _ _ _ _ _ Hrs), decide_True by done. split; [| split; [done |]].
    + split; [done | done | apply Hrs | intros _; by apply Hw].
    + unfold queue_get_return. by rewrite Hret, Hdat.
Qed.

(** A get takes the first item of the queue, and frees the node when it
    was an allocated one; on an empty queue it returns NULL if it may not wait
    and otherwise puts the caller on the wait queue, where it returns NULL
    unless it is handed an item. *)
Theorem queue_get_spec q timeout m s l :
  queue_inv q m s l -> current s ∈ runq s -> valid_timeout timeout ->
  let '(o, freed, q', s') := z_impl_k_queue_get q timeout m s in
  match l with
  | x :: l' =>
      o = Returns (node_item m x) /\ freed = (if sys_sfnode_flags_get m x =? 0 then None else Some x) /\
      queue_inv q' m s l' /\ s' = s
  | [] =>
      q' = q /\ freed = None /\ queue_inv q m s' [] /\
      if decide (timeout = K_NO_WAIT) then o = Returns NULL /\ s' = s
      else o = Blocks /\ current s ∈ waitq s' (queue_wait_q q) /\ queue_get_return s' (current s) = NULL
  end.
Proof.
  intros Hinv Hc Hv. destruct (rep_get m _ l (qi_rep _ _ _ _ Hinv)) as [Hg1 Hg2]. unfold get in Hg1, Hg2.
  pose proof (head_valid _ _ _ (qi_rep _ _ _ _ Hinv)) as Hh. unfold z_impl_k_queue_get, K_TIMEOUT_EQ.
  unfold is_empty, peek_head in *. destruct Hinv as [Hr Hd Hs Hw]. destruct l as [| x l].
  - rewrite (proj2 Hh eq_refl), Z.eqb_refl in *. simpl.
    destruct (Z.eqb_spec timeout K_NO_WAIT) as [-> | Hne].
    + rewrite decide_True by done. done.
    + rewrite decide_False by done. pose proof (pend_curr (queue_wait_q q) timeout s Hs Hc Hv) as Hp.
      split; [done |]. split; [done |]. split; [split; [done | done | apply Hp | done] |]. split; [done |].
      rewrite (pd_waitq _ _ _ Hp), decide_True by done. split; [apply dumb_add_elem; by left |].
      unfold queue_get_return. by rewrite (pd_return _ _ _ Hp).
  - assert (list_head (data_q q) ≠ NULL) as Hne by naive_solver. rewrite (proj2 (Z.eqb_neq _ _) Hne) in *. cbn [negb].
    destruct (get_not_empty (data_q q) m) as [node L'] eqn:Hget. cbn in Hg1, Hg2. subst node.
    assert (x ≠ NULL) as Hx0 by (apply rep_valid in Hr; by inversion_clear Hr as [| ?? [? _]]).
    unfold node_item, z_queue_node_peek. rewrite (proj2 (Z.eqb_neq x NULL)) by done.
    assert (queue_inv (set_data_q L' q) m s l) as Hi.
    { split; [done | | done | intros Hw'; by specialize (Hw Hw')]. intros y Hy Ha. specialize (Hd y ltac:(set_solver) Ha). set_solver. }
    by destruct (sys_sfnode_flags_get m x =? 0).
Qed.

(** ** Appending a list *)

(** [s2] is [s] after the first waiters of [w] were handed the items of
    [nodes], one each. *)
Record handed_out (w : wqid) (nodes : list Z) (s s2 : z_kernel) : Prop := {
  ho_inv : sched_inv ∅ s2;
  ho_ctx : ctx s2 = ctx s;
  ho_waitq : waitq s2 w = drop (length nodes) (waitq s w);
  ho_items : ∀ i t x, waitq s w !! i = Some t -> nodes !! i = Some x ->
    swap_return s2 t = 0 /\ swap_data (thr s2 t) = x;
  ho_others : ∀ u, u ∉ take (length nodes) (waitq s w) -> thr s2 u = thr s u
}.

Lemma handed_out_nil w s : sched_inv ∅ s -> handed_out w [] s s.
Proof. intros Hs. by split. Qed.

Lemma handed_out_idle w nodes s : sched_inv ∅ s -> waitq s w = [] -> handed_out w nodes s s.
Proof. intros Hs Hw. split; rewrite ?Hw, ?drop_nil; done. Qed.

Lemma handed_out_cons w x nodes s t ts s1 s2 :
  waitq s w = t :: ts -> NoDup (t :: ts) -> woken w t ts s s1 -> swap_return s1 t = 0 -> swap_data (thr s1 t) = x ->
  handed_out w nodes s1 s2 -> handed_out w (x :: nodes) s s2.
Proof.
  intros Hw Hnd Hwk Hret Hdat [H1 H2 H3 H4 H5].
  assert (waitq s1 w = ts) as Hw1 by (by rewrite (wk_waitq _ _ _ _ _ Hwk), decide_True).
  apply NoDup_cons in Hnd as [Ht _]. rewrite Hw1 in *. split; rewrite ?Hw.
  - done.
  - rewrite H2. apply Hwk.
  - done.
  - intros [| i] u y; simpl; [intros [= <-] [= <-] | apply H4].
    unfold swap_return in *. rewrite H5; [done |]. intros Hin%elem_of_take. destruct Hin as (i & Hi & _).
    apply Ht. by eapply list_elem_of_lookup_2.
  - intros u Hu. csimpl in Hu. rewrite H5 by set_solver. apply Hwk. set_solver.
Qed.

Lemma append_list_loop_ok fuel w m nodes head s :
  sched_inv ∅ s -> seg (gn := snode) m head nodes NULL -> Forall (valid_node (gn := sfnode)) nodes ->
  (length (waitq s w) < fuel)%nat ->
  exists s2, handed_out w nodes s s2 /\
    (let '(thread, s0) := z_unpend_first_thread w s in append_list_loop fuel w head thread m s0) =
    (default NULL (list.head (drop (length (waitq s w)) nodes)), (z_unpend_first_thread w s2).2).
Proof.
  revert fuel head s. induction nodes as [| x nodes IH]; intros fuel head s Hs Hseg Hv Hf.
  - simpl in Hseg. subst head. exists s. split; [by apply handed_out_nil |]. rewrite drop_nil.
    destruct fuel as [| fuel]; [lia |]. destruct (z_unpend_first_thread w s) as [[t |] s0]; done.
  - destruct Hseg as [-> Hseg]. inversion_clear Hv as [| ?? [Hx _] Hv']. destruct fuel as [| fuel]; [lia |].
    destruct (waitq s w) as [| t ts] eqn:Hw.
    + exists s. split; [by apply handed_out_idle |]. by rewrite !unpend_first_none.
    + destruct (wake_first_with_data w s t ts 0 x Hs Hw) as (s1 & E & Hwk & Hret & Hdat). cbv zeta in *. rewrite E.
      cbn [append_list_loop]. rewrite (proj2 (Z.eqb_neq x NULL)) by done. cbn [negb]. cbv zeta.
      fold (prepare_thread_to_run t x s1) in Hwk, Hret, Hdat. set (s2 := prepare_thread_to_run t x s1) in *.
      assert (waitq s2 w = ts) as Hw2 by (by rewrite (wk_waitq _ _ _ _ _ Hwk), decide_True).
      destruct (IH fuel (m x) s2 (wk_inv _ _ _ _ _ Hwk) Hseg Hv') as (s3 & Hho & Hloop); [rewrite Hw2; simpl in Hf; lia |].
      exists s3. rewrite Hloop, Hw2. split; [| done]. eapply handed_out_cons; [done | | done..].
      rewrite <- Hw. apply (inv_waitq_nodup _ _ Hs).
Qed.

(** A chain of items linked through their first words, without flags. *)
Definition chain m (head tail : Z) nodes : Prop :=
  nodes ≠ [] ∧ seg (gn := snode) m head nodes NULL ∧ last nodes = Some tail ∧
  NoDup nodes ∧ Forall (valid_node (gn := sfnode)) nodes.

Lemma chain_unflagged m h nodes :
  Forall (valid_node (gn := sfnode)) nodes -> seg (gn := snode) m h nodes NULL ->
  seg (gn := sfnode) m h nodes NULL ∧ ∀ x, x ∈ nodes -> sys_sfnode_flags_get m x = 0.
Proof.
  intros Hv. revert h. induction Hv as [| x nodes Hx Hv IH]; intros h; simpl; [set_solver |]. intros [-> Hs].
  destruct (IH _ Hs) as [IH1 IH2].
  assert (aligned (m x)) as Ha.
  { destruct nodes as [| y nodes]; simpl in Hs; unfold z_snode_next_peek in Hs; [by rewrite Hs |]. destruct Hs as [-> _].
    by inversion_clear Hv as [| ?? [_ ?]]. }
  assert (z_sfnode_next_peek m x = m x) as E.
  { unfold z_sfnode_next_peek. rewrite <- (Z.lor_0_l (m x)) at 1. by apply mask_clears. }
  rewrite E. split; [done |]. intros y [-> | Hy]%elem_of_cons; [done | by apply IH2].
Qed.

Lemma chain_head m head tail nodes : chain m head tail nodes -> head ≠ NULL ∧ tail ≠ NULL.
Proof.
  intros (Hne & Hs & Hl & _ & Hv). split.
  - destruct nodes; [done |]. destruct Hs as [-> _]. by inversion_clear Hv as [| ?? [? _]].
  - apply last_Some in Hl as [l' ->]. apply Forall_app in Hv as [_ Hv]. by inversion_clear Hv as [| ?? [? _]].
Qed.

(** The call up to its final reschedule. *)
Lemma append_list_unfold q m s head tail nodes :
  sched_inv ∅ s -> chain m head tail nodes ->
  exists s2, handed_out (queue_wait_q q) nodes s s2 /\
    k_queue_append_list q head tail m s =
      let h := default NULL (list.head (drop (length (waitq s (queue_wait_q q))) nodes)) in
      let '(L, m') := if negb (h =? NULL) then append_list (gn := sfnode) (data_q q) h tail m else (data_q q, m) in
      (0, set_data_q L q, m', z_reschedule (z_unpend_first_thread (queue_wait_q q) s2).2).
Proof.
  intros Hs Hch. destruct (chain_head _ _ _ _ Hch) as [Hh Ht]. destruct Hch as (Hne & Hseg & Hl & Hnd & Hv).
  unfold k_queue_append_list. rewrite (proj2 (Z.eqb_neq head NULL)), (proj2 (Z.eqb_neq tail NULL)) by done. cbn [orb negb].
  destruct (append_list_loop_ok (S (length (waitq s (queue_wait_q q)))) (queue_wait_q q) m nodes head s Hs Hseg Hv)
    as (s2 & Hho & Hloop); [lia |].
  exists s2. split; [done |]. destruct (z_unpend_first_thread (queue_wait_q q) s) as [thread s0]. by rewrite Hloop.
Qed.

Lemma current_ctx s s2 : ctx s2 = ctx s -> current s2 = current s.
Proof. intros E. by destruct (ctx_eq _ _ E) as (? & _). Qed.

(** Each of the first waiters returns its item from [k_queue_get]. *)
Lemma handed_out_returns w nodes s s2 s' i t x :
  handed_out w nodes s s2 -> sched_inv ∅ s -> current s ∈ runq s ->
  (∀ u, u ≠ current s -> u ∈ take (length nodes) (waitq s w) -> thr s' u = thr s2 u) ->
  waitq s w !! i = Some t -> nodes !! i = Some x -> queue_get_return s' t = x.
Proof.
  intros Hho Hs Hc Heq Ht Hx. destruct (ho_items _ _ _ _ Hho i t x Ht Hx) as [Hret Hdat].
  unfold queue_get_return, swap_return in *. rewrite Heq, Hret, Hdat; [done | |].
  - apply (waiter_not_current s w); [done | by eapply list_elem_of_lookup_2 | done].
  - apply elem_of_take. exists i. split; [done |]. by eapply lookup_lt_Some.
Qed.

Lemma append_list_effect m L l head tail L' m' :
  list_rep (gn := sfnode) m L l -> aligned head -> append_list (gn := sfnode) L head tail m = (L', m') ->
  (∀ a, a ∉ l -> m' a = m a) ∧ (∀ a, sys_sfnode_flags_get m' a = sys_sfnode_flags_get m a).
Proof.
  intros [_ Ht _ Hv] Hh. unfold append_list. case_match; [| by intros [= <- <-]].
  unfold peek_tail. destruct (Z.eqb_spec (list_tail L) NULL) as [E | E]; intros [= <- <-]; [done |]. split; intros a.
  - intros Ha. apply (next_set_frame (GenNode := sfnode)). rewrite Ht in *. destruct (last l) as [z |] eqn:Hz; [| done].
    apply last_Some in Hz as [l' ->]. set_solver.
  - by apply flags_next_set.
Qed.

(** Appending a chain to the list of a queue. *)
Lemma append_chain q m s l h tail rest L' m' :
  queue_inv q m s l -> (∀ x, x ∈ l -> allocated m x -> alloc_node_data x ∉ rest) ->
  chain m h tail rest -> NoDup (l ++ rest) -> append_list (gn := sfnode) (data_q q) h tail m = (L', m') ->
  list_rep (gn := sfnode) m' L' (l ++ rest) ∧
  (∀ x, x ∈ l ++ rest -> allocated m' x -> alloc_node_data x ∉ l ++ rest) ∧
  queue_items m' (l ++ rest) = queue_items m l ++ rest.
Proof.
  intros [Hr Hd _ _] Hdis (Hne & Hseg & Hl & Hnd & Hv) Hnd' Ha.
  destruct (chain_unflagged _ _ _ Hv Hseg) as [Hseg' Hfl].
  assert (aligned h) as Hh by (eapply seg_head_ptr in Hseg'; [done | done | done]).
  destruct (append_list_effect _ _ _ _ _ _ _ Hr Hh Ha) as [He1 He2]. split; [| split].
  - apply last_Some in Hl as [l2 ->]. by eapply rep_append_list.
  - intros x Hx Hal. unfold allocated in Hal. rewrite He2 in Hal. apply elem_of_app in Hx as [Hx | Hx].
    + specialize (Hd x Hx Hal). specialize (Hdis x Hx Hal). set_solver.
    + by rewrite Hfl in Hal.
  - unfold queue_items. rewrite fmap_app. f_equal.
    + apply items_ext; [by intros | intros x Hx Hal]. apply He1. by apply Hd.
    + rewrite <- (list_fmap_id rest) at 2. apply list_fmap_ext. intros i x Hx%list_elem_of_lookup_2.
      unfold node_item, z_queue_node_peek. rewrite He2, Hfl by done. by destruct (x =? NULL).
Qed.

Lemma chain_drop m h tail nodes k :
  chain m h tail nodes -> (k < length nodes)%nat -> chain m (default NULL (list.head (drop k nodes))) tail (drop k nodes).
Proof.
  intros (Hne & Hs & Hl & Hnd & Hv) Hk. rewrite <- (take_drop k nodes) in Hs. apply seg_app in Hs as (e & _ & Hs).
  assert (drop k nodes ≠ []) as Hne' by (intros E; apply (f_equal length) in E; rewrite length_drop in E; simpl in E; lia).
  split_and!; [done | | | by eapply sublist_NoDup; [| apply sublist_drop] | by apply Forall_drop].
  - destruct (drop k nodes) as [| y r]; [done |]. by destruct Hs as [-> ?].
  - rewrite <- (take_drop k nodes), last_app in Hl. by destruct (last (drop k nodes)) eqn:E; [| apply last_None in E].
Qed.

Lemma unpend_first_frame w s u :
  sched_inv ∅ s -> Some u ≠ list.head (waitq s w) -> thr (z_unpend_first_thread w s).2 u = thr s u.
Proof.
  intros Hs Hu. destruct (waitq s w) as [| t ts] eqn:Hw; [by rewrite unpend_first_none |].
  destruct (unpend_first_some w s t ts Hs Hw) as (s1 & -> & Hup). apply Hup. simpl in Hu. congruence.
Qed.

(** Appending a list of items to a queue hands one item to each waiting
    thread, in the order of both, and appends the rest behind the items the
    queue held, provided there are at least as many items as waiters. *)
Theorem queue_append_list_spec q head tail m s l nodes :
  queue_inv q m s l -> current s ∈ runq s -> chain m head tail nodes ->
  NoDup (l ++ nodes) -> (∀ x, x ∈ l -> allocated m x -> alloc_node_data x ∉ nodes) ->
  (length (waitq s (queue_wait_q q)) <= length nodes)%nat ->
  let waiters := waitq s (queue_wait_q q) in
  let '(r, q', m', s') := k_queue_append_list q head tail m s in
  r = 0 /\ queue_inv q' m' s' (l ++ drop (length waiters) nodes) /\
  queue_items m' (l ++ drop (length waiters) nodes) = queue_items m l ++ drop (length waiters) nodes /\
  waitq s' (queue_wait_q q) = [] /\
  (∀ i t x, waiters !! i = Some t -> nodes !! i = Some x -> queue_get_return s' t = x).
Proof.
  intros Hinv Hc Hch Hnd Hdis Hlen. cbv zeta. pose proof (qi_sched _ _ _ _ Hinv) as Hs.
  destruct (append_list_unfold q m s head tail nodes Hs Hch) as (s2 & Hho & ->). cbv zeta.
  assert (waitq s2 (queue_wait_q q) = []) as Hw2 by (rewrite (ho_waitq _ _ _ _ Hho); by apply drop_ge).
  rewrite unpend_first_none by done. cbn [snd]. set (waiters := waitq s (queue_wait_q q)) in *.
  destruct (reschedule_frame s2) as (Hsame & Hfr & _).
  assert (sched_inv ∅ (z_reschedule s2)) as Hs' by (rewrite <- Hsame; apply Hho).
  assert (waitq (z_reschedule s2) (queue_wait_q q) = []) as Hw' by (by rewrite (same_waitq _ _ Hsame)).
  assert (∀ i t x, waiters !! i = Some t -> nodes !! i = Some x -> queue_get_return (z_reschedule s2) t = x) as Hret.
  { intros i t x. apply (handed_out_returns _ _ _ _ _ _ _ _ Hho Hs Hc). intros u Hu _.
    apply Hfr. by rewrite (current_ctx _ _ (ho_ctx _ _ _ _ Hho)). }
  destruct (decide (length waiters < length nodes)%nat) as [Hlt | Hge].
  - pose proof (chain_drop _ _ _ _ _ Hch Hlt) as Hch'. destruct (chain_head _ _ _ _ Hch') as [Hh _].
    rewrite (proj2 (Z.eqb_neq _ _) Hh). cbn [negb].
    set (h := default NULL (list.head (drop (length waiters) nodes))) in *.
    destruct (append_list (gn := sfnode) (data_q q) h tail m) as [L' m'] eqn:Ha.
    destruct (append_chain q m s l h tail (drop (length waiters) nodes) L' m' Hinv) as (R1 & R2 & R3); [| done | | done |].
    + intros x Hx Hal Hin. apply (Hdis x Hx Hal). eapply elem_of_sublist; [done | apply sublist_drop].
    + eapply sublist_NoDup; [done |]. apply sublist_app; [done | apply sublist_drop].
    + split; [done |]. split; [split; [done | done | done | simpl; congruence] | done].
  - rewrite drop_ge by lia. cbn [list.head default]. rewrite Z.eqb_refl, !app_nil_r. cbn [negb].
    split; [done |]. split; [| done]. destruct Hinv as [Hr Hd _ _]. split; [done | done | done | simpl; congruence].
Qed.

(** C38: When more threads wait for items than [k_queue_append_list] brings,
    the first thread left without an item is taken off the wait queue all the
    same and is not made ready: it is in no queue, its timeout is cancelled,
    and nothing the queue does later can wake it. *)
Theorem queue_append_list_loses_waiter q head tail m s nodes u :
  queue_inv q m s [] -> current s ∈ runq s -> chain m head tail nodes ->
  waitq s (queue_wait_q q) !! length nodes = Some u ->
  let '(r, _, _, s') := k_queue_append_list q head tail m s in
  r = 0 /\ (u ∉ runq s') /\ (∀ w, u ∉ waitq s' w) /\ active s' u = false /\ z_is_thread_pending (thr s' u) = false.
Proof.
  intros Hinv Hc Hch Hu. pose proof (qi_sched _ _ _ _ Hinv) as Hs.
  destruct (append_list_unfold q m s head tail nodes Hs Hch) as (s2 & Hho & ->). cbv zeta.
  rewrite drop_ge by (apply lookup_lt_Some in Hu; lia). cbn [list.head default]. rewrite Z.eqb_refl. cbn [negb].
  split; [done |]. pose proof (ho_waitq _ _ _ _ Hho) as Hw2. rewrite (drop_S _ u) in Hw2 by done.
  destruct (unpend_first_some _ s2 u _ (ho_inv _ _ _ _ Hho) Hw2) as (s3 & -> & Hup). cbn [snd].
  destruct (reschedule_frame s3) as (Hsame & _ & _). split; [| split; [| split]].
  - rewrite (same_runq _ _ Hsame), (up_runq _ _ _ _ _ Hup). eapply inv_pended_not_queued; [apply Hho |].
    apply (inv_waitq _ _ (ho_inv _ _ _ _ Hho)). rewrite Hw2. by left.
  - intros w. rewrite (same_waitq _ _ Hsame), <- (inv_waitq _ _ (up_inv _ _ _ _ _ Hup)), (up_thr _ _ _ _ _ Hup). done.
  - unfold active. rewrite (same_timeouts _ _ Hsame). apply Hup.
  - unfold z_is_thread_pending. rewrite (same_state _ _ Hsame), (up_thr _ _ _ _ _ Hup). simpl.
    unfold flag_any, flag_clear. apply negb_false_iff, Z.eqb_eq. rewrite <- Z.land_assoc, (Z.land_comm (Z.lnot _)), Z.land_lnot_diag. apply Z.land_0_r.
Qed.

End Proofs.

(** ** Concrete runs *)

#[local] Existing Instance default_kconfig | 100.

(** A queue that holds the item 16 and, through the allocated node 32, the
    item 500; and an empty one. *)
Definition queue2 : k_queue := mk_queue (mk_list 16 32) (inr 5%nat).
Definition mem2 : mem := λ a, if a =? 16 then 32 else if a =? 32 then 1 else if a =? 36 then 500 else 0.
Definition queue0 : k_queue := mk_queue (mk_list 0 0) (inr 5%nat).

Lemma queue2_inv : queue_inv queue2 mem2 two_threads ([16; 32] ++ []).
Proof.
  split.
  - split; [by_compute | reflexivity | by_compute | repeat constructor; by_compute].
  - intros x Hx _. rewrite app_nil_r in *. apply elem_of_cons in Hx as [-> | Hx]; [by_compute |].
    apply list_elem_of_singleton in Hx as ->. by_compute.
  - apply two_threads_inv.
  - assert (waitq two_threads (queue_wait_q queue2) = []) as -> by by_compute. done.
Qed.

Lemma queue0_inv m s : sched_inv ∅ s -> queue_inv queue0 m s [].
Proof. intros Hs. split; [apply (rep_init (gn := sfnode) m (data_q queue0)) | by intros x ?%elem_of_nil | done | done]. Qed.

(** An allocator that always returns the block at 64. *)
Lemma queue_insert_spec_witness :
  let '(r, q', m', s') := queue_insert (λ _, Some 64) queue2 NULL 900 true true mem2 two_threads in
  r = 0 /\ ∃ node, queue_items m' [16; 32; node] = [16; 500; 900].
Proof.
  pose proof (queue_insert_spec (λ _, Some 64) queue2 NULL 900 true true mem2 two_threads [16; 32] [] queue2_inv
    ltac:(by_compute) eq_refl) as H.
  destruct (queue_insert (λ _, Some 64) queue2 NULL 900 true true mem2 two_threads) as [[[r q'] m'] s'].
  assert (waitq two_threads (queue_wait_q queue2) = []) as E by by_compute. rewrite E in H. clear E.
  destruct H as (-> & node & _ & Hi); [| split; [reflexivity | exists node; exact Hi]].
  intros p [= <-]. split; [by split; by_compute |].
  split; (split; [by_compute |]; intros x [-> | [-> | ?%elem_of_nil]%elem_of_cons]%elem_of_cons _; done).
Defined.

Lemma queue_get_spec_witness :
  let '(o, freed, _, _) := z_impl_k_queue_get queue2 K_NO_WAIT mem2 two_threads in o = Returns 16 /\ freed = None.
Proof.
  pose proof (queue_get_spec queue2 K_NO_WAIT mem2 two_threads _ queue2_inv ltac:(by_compute) ltac:(by split)) as H.
  destruct (z_impl_k_queue_get queue2 K_NO_WAIT mem2 two_threads) as [[[o freed] q'] s'].
  destruct H as (-> & -> & _). split; reflexivity.
Defined.

(** Items 16 and 32, linked. *)
Definition mem_chain : mem := λ a, if a =? 16 then 32 else 0.

Lemma chain_two : chain mem_chain 16 32 [16; 32].
Proof. split_and!; [done | by_compute | done | by_compute | repeat constructor; by_compute]. Qed.

Lemma queue_append_list_spec_witness :
  let '(r, _, _, s') := k_queue_append_list queue0 16 32 mem_chain one_waiting in
  r = 0 /\ queue_get_return s' 2 = 16.
Proof.
  assert (waitq one_waiting (queue_wait_q queue0) = [2%nat]) as E by by_compute.
  assert (current one_waiting ∈ runq one_waiting) as Hc by by_compute.
  pose proof (queue_append_list_spec (cfg := default_kconfig) queue0 16 32 mem_chain one_waiting [] [16; 32]
    (queue0_inv mem_chain one_waiting one_waiting_inv) Hc chain_two) as H.
  rewrite E in H. clear E Hc.
  destruct (k_queue_append_list queue0 16 32 mem_chain one_waiting) as [[[r q'] m'] s'].
  destruct H as (-> & _ & _ & _ & H); [by_compute | by intros x ?%elem_of_nil | simpl; lia |].
  split; [reflexivity | apply (H 0%nat); reflexivity].
Defined.

(** One item for two waiters. *)
Lemma chain_one : chain (λ _, 0) 16 16 [16].
Proof. split_and!; [done | by_compute | done | by_compute | repeat constructor; by_compute]. Qed.

Lemma queue_append_list_loses_waiter_witness :
  let '(r, _, _, s') := k_queue_append_list queue0 16 16 (λ _, 0) two_waiting in
  r = 0 /\ (3%nat ∉ runq s') /\ (∀ w, 3%nat ∉ waitq s' w) /\ active s' 3 = false /\
  z_is_thread_pending (thr s' 3) = false.
Proof.
  apply (queue_append_list_loses_waiter queue0 16 16 (λ _, 0) two_waiting [16] 3%nat (queue0_inv (λ _, 0) _ two_waiting_inv));
    [by_compute | apply chain_one | by_compute].
Defined.
