(* ===== verification/Events.v ===== *)
(** * Event objects (kernel/events.c)

    An event object is a word of event bits; threads wait for any or for all
    of a set of bits.  A post walks the wait queue, links the threads whose
    condition is met through their [next_event_link], and wakes them. *)

From Stdlib Require Import ZArith Lia Bool.
From stdpp Require Import base numbers list gmap sets.
From S2P Require Import Prelude TimeoutQ Kernel PrioQ Sched SchedInv SchedOps Threads WaitApi.

Open Scope Z_scope.

(** ** [struct k_event] and its operations *)

Definition K_EVENT_WAIT_ANY : Z := 0.
Definition K_EVENT_WAIT_ALL : Z := 1.
Definition K_EVENT_WAIT_MASK : Z := 1.
Definition K_EVENT_WAIT_RESET : Z := 2.

Record k_event := mk_event { event_wait_q : wqid; event_bits : Z }.

Definition set_event_bits (v : Z) (event : k_event) : k_event := mk_event (event_wait_q event) v.

Definition are_wait_conditions_met (desired current wait_condition : Z) : bool :=
  let match_ := Z.land current desired in
  if wait_condition =? K_EVENT_WAIT_ALL then match_ =? desired else negb (match_ =? 0).

Section Ops.
Context {cfg : Kconfig}.
Implicit Types (event : k_event) (s : z_kernel) (thread : tid).

Definition z_impl_k_event_init event s : k_event * z_kernel :=
  (set_event_bits 0 event, z_waitq_init (event_wait_q event) s).

(** [data] points to the head of the list of threads to wake and the events. *)
Definition event_walk_op (bits : Z) thread (head : option tid) s : Z * option tid * z_kernel :=
  let wait_condition := Z.land (event_options (thr s thread)) K_EVENT_WAIT_MASK in
  if are_wait_conditions_met (events (thr s thread)) bits wait_condition then
    let s := upd_thread thread (set_no_wake_on_timeout true) s in
    let s := upd_thread thread (set_next_event_link head) s in
    (0, Some thread, (z_abort_thread_timeout thread s).2)
  else (0, head, s).

(** The do-while loop of [k_event_post_internal]; it visits each linked thread
    once, so the number of waiters bounds it. *)
Fixpoint event_wake_loop (fuel : nat) (bits : Z) thread s : z_kernel :=
  match fuel with
  | O => s
  | S fuel =>
      let s := arch_thread_return_value_set thread 0 s in
      let s := upd_thread thread (set_events bits) s in
      let next := next_event_link (thr s thread) in
      let s := z_sched_wake_thread thread false s in
      match next with
      | Some next => event_wake_loop fuel bits next s
      | None => s
      end
  end.

Definition k_event_post_internal event (bits bits_mask : Z) s : Z * k_event * z_kernel :=
  let previous_events := Z.land (event_bits event) bits_mask in
  let bits := Z.lor (Z.land (event_bits event) (lnot32 bits_mask)) (Z.land bits bits_mask) in
  let event := set_event_bits bits event in
  let '(_, head, s) := z_sched_waitq_walk (event_wait_q event) (event_walk_op bits) None s in
  let s :=
    match head with
    | Some thread => event_wake_loop (length (waitq s (event_wait_q event))) bits thread s
    | None => s
    end in
  (previous_events, event, z_reschedule s).

Definition z_impl_k_event_post event (bits : Z) s : Z * k_event * z_kernel :=
  k_event_post_internal event bits bits s.

Definition z_impl_k_event_set event (bits : Z) s : Z * k_event * z_kernel :=
  k_event_post_internal event bits (lnot32 0) s.

Definition z_impl_k_event_set_masked event (bits bits_mask : Z) s : Z * k_event * z_kernel :=
  k_event_post_internal event bits bits_mask s.

Definition z_impl_k_event_clear event (bits : Z) s : Z * k_event * z_kernel :=
  k_event_post_internal event 0 bits s.

(** Up to the context switch. *)
Definition k_event_wait_internal event (desired options timeout : Z) s : outcome * k_event * z_kernel :=
  if desired =? 0 then (Returns 0, event, s)
  else
    let wait_condition := Z.land options K_EVENT_WAIT_MASK in
    let thread := current s in
    let event := if flag_any options K_EVENT_WAIT_RESET then set_event_bits 0 event else event in
    if are_wait_conditions_met desired (event_bits event) wait_condition
    then (Returns (Z.land (event_bits event) desired), event, s)
    else if K_TIMEOUT_EQ timeout K_NO_WAIT then (Returns (Z.land 0 desired), event, s)
    else
      let s := upd_thread thread (set_events desired) s in
      let s := upd_thread thread (set_event_options options) s in
      (Blocks, event, z_pend_curr (event_wait_q event) timeout s).

(** What a wait for [desired] that blocked returns. *)
Definition event_wait_return s thread (desired : Z) : Z :=
  let rv := if swap_return s thread =? 0 then events (thr s thread) else 0 in
  Z.land rv desired.

Definition z_impl_k_event_wait event (desired : Z) (reset : bool) (timeout : Z) s : outcome * k_event * z_kernel :=
  let options := if reset then K_EVENT_WAIT_RESET else 0 in
  k_event_wait_internal event desired options timeout s.

Definition z_impl_k_event_wait_all event (desired : Z) (reset : bool) (timeout : Z) s : outcome * k_event * z_kernel :=
  let options := if reset then Z.lor K_EVENT_WAIT_RESET K_EVENT_WAIT_ALL else K_EVENT_WAIT_ALL in
  k_event_wait_internal event desired options timeout s.

End Ops.

(** ** The walk over the wait queue *)

Section Proofs.
Context {cfg : Kconfig}.
Implicit Types (event : k_event) (s : z_kernel) (t u : tid) (w : wqid) (l ts : list tid).

(** The thread's condition holds of the event bits. *)
Definition satisfied (bits : Z) (x : k_thread) : bool :=
  are_wait_conditions_met (events x) bits (Z.land (event_options x) K_EVENT_WAIT_MASK).

Definition killed (x : k_thread) : bool := flag_any (thread_state x) (Z.lor _THREAD_DEAD _THREAD_ABORTING).

(** The threads linked from [h], in order. *)
Fixpoint event_chain s (h : option tid) l : Prop :=
  match l with
  | [] => h = None
  | t :: l => h = Some t ∧ event_chain s (next_event_link (thr s t)) l
  end.

Lemma event_chain_ext s s' h l :
  (∀ t, t ∈ l -> next_event_link (thr s' t) = next_event_link (thr s t)) -> event_chain s h l -> event_chain s' h l.
Proof.
  revert h. induction l as [| t l IH]; intros h Heq; [done |]. intros [-> Hl]. split; [done |].
  rewrite Heq by set_solver. apply IH; [set_solver | done].
Qed.

(** A waiting thread may lose its timeout: it waits on. *)
Lemma inv_abort_pended w t s :
  sched_inv ∅ s -> t ∈ waitq s w -> sched_inv ∅ (z_abort_thread_timeout t s).2.
Proof.
  intros Hs Ht. apply (inv_waitq _ _ Hs) in Ht.
  destruct (inv_abort_timeout ∅ t s Hs) as [H _]; [by eapply inv_idle_not_pended |].
  apply (inv_settle_single t); [by replace ({[t]} : gset tid) with ({[t]} ∪ ∅ : gset tid) by set_solver |].
  rewrite thr_abort_timeout. pose proof (inv_pended _ _ Hs t w Ht). state_bits. by rewrite H0, ?orb_true_r.
Qed.

Lemma walk_op_ok bits w t h s :
  sched_inv ∅ s -> t ∈ waitq s w ->
  exists s', event_walk_op bits t h s =
      (0, if satisfied bits (thr s t) then Some t else h, s') /\
    sched_inv ∅ s' /\ ctx s' = ctx s /\ (∀ v, waitq s' v = waitq s v) /\
    (∀ u, thr s' u = if decide (u = t ∧ satisfied bits (thr s t) = true)
                     then set_next_event_link h (set_no_wake_on_timeout true (thr s t)) else thr s u).
Proof.
  intros Hs Ht. unfold event_walk_op. fold (satisfied bits (thr s t)). destruct (satisfied bits (thr s t)) eqn:Hsat.
  - eexists. split; [done |]. rewrite upd_upd. set (s1 := upd_thread t _ s).
    assert (same_sched s s1) as Hsame by (by apply same_upd). split; [| split; [| split]].
    + apply (inv_abort_pended w); [by rewrite <- Hsame | done].
    + by rewrite ctx_abort_timeout.
    + intros v. by rewrite waitq_abort_timeout.
    + intros u. rewrite thr_abort_timeout. unfold s1. rewrite thr_upd.
      destruct (decide (t = u)) as [<- |]; [by rewrite decide_True | by rewrite decide_False by naive_solver].
  - exists s. split; [done |]. do 3 (split; [done |]). intros u. by rewrite decide_False by naive_solver.
Qed.

(** The walk links the satisfied waiters, the last one first. *)
Lemma walk_ok bits w l h L s :
  sched_inv ∅ s -> (∀ t, t ∈ l -> t ∈ waitq s w) -> NoDup l -> event_chain s h L -> (∀ t, t ∈ l -> t ∉ L) ->
  let M := filter (λ t, satisfied bits (thr s t) = true) l in
  exists h' s', waitq_walk (event_walk_op bits) l h s = (0, h', s') /\
    sched_inv ∅ s' /\ ctx s' = ctx s /\ (∀ v, waitq s' v = waitq s v) /\
    event_chain s' h' (reverse M ++ L) /\
    (∀ u, u ∉ M -> thr s' u = thr s u) /\
    (∀ u, u ∈ M -> thr s' u = set_next_event_link (next_event_link (thr s' u)) (set_no_wake_on_timeout true (thr s u))).
Proof.
  revert h L s. induction l as [| t l IH]; intros h L s Hs Hl Hnd Hch Hdis; cbv zeta; cbn [waitq_walk].
  - exists h, s. rewrite filter_nil. split_and!; try done. by intros u ?%elem_of_nil.
  - destruct (walk_op_ok bits w t h s Hs (Hl t ltac:(set_solver))) as (s1 & -> & Hs1 & Hc1 & Hw1 & Ht1).
    apply NoDup_cons in Hnd as [Htl Hnd]. cbn [negb Z.eqb].
    set (sat := satisfied bits (thr s t)) in *.
    assert (∀ u, u ≠ t -> thr s1 u = thr s u) as Hne by (intros u Hu; rewrite Ht1, decide_False by naive_solver; done).
    destruct (IH (if sat then Some t else h) (if sat then t :: L else L) s1) as (h' & s' & -> & I1 & I2 & I3 & I4 & I5 & I6); try done.
    { intros u Hu. rewrite Hw1. apply Hl. set_solver. }
    { destruct sat eqn:Hsat.
      - split; [done |]. rewrite Ht1, decide_True by done. eapply event_chain_ext; [| done].
        intros u Hu. rewrite Hne; [done |]. intros ->. eapply (Hdis t); set_solver.
      - eapply event_chain_ext; [| done]. intros u Hu. rewrite Hne; [done |]. intros ->. eapply (Hdis t); set_solver. }
    { intros u Hu. destruct sat; set_solver. }
    assert (filter (λ t, satisfied bits (thr s1 t) = true) l = filter (λ t, satisfied bits (thr s t) = true) l) as Hfl.
    { apply filter_ext_elem. intros u Hu. rewrite Hne; [done | set_solver]. }
    rewrite Hfl in *. set (M := filter _ l) in *. assert (t ∉ M) as HtM by (unfold M; rewrite list_elem_of_filter; set_solver).
    exists h', s'. split; [done |]. split; [done |]. split; [congruence |]. split; [intros v; by rewrite I3 |].
    rewrite filter_cons. fold sat. destruct sat eqn:Hsat; [rewrite decide_True by done | rewrite decide_False by done]; fold M.
    + rewrite reverse_cons, <- app_assoc. split; [done |]. split; intros u Hu.
      * rewrite I5 by set_solver. apply Hne. set_solver.
      * apply elem_of_cons in Hu as [-> | Hu].
        -- rewrite (I5 t) by done. rewrite Ht1, decide_True by done. done.
        -- rewrite (I6 u) at 1 by done. rewrite Hne by set_solver. done.
    + split; [done |]. split; intros u Hu.
      * rewrite I5 by done. destruct (decide (u = t)) as [-> | Hu']; [| by apply Hne].
        rewrite Ht1, decide_False by naive_solver. done.
      * rewrite (I6 u) at 1 by done. rewrite Hne by set_solver. done.
Qed.

(** ** Waking *)

Lemma ready_thread_events t s u : events (thr (ready_thread t s) u) = events (thr s u).
Proof.
  unfold ready_thread. case_match; [| done]. rewrite thr_update_cache, thr_queue_thread. case_decide; [by subst | done].
Qed.

Lemma wake_one bits w t s :
  sched_inv ∅ s -> t ∈ waitq s w -> killed (thr s t) = false ->
  let s' := z_sched_wake_thread t false (upd_thread t (set_events bits) (arch_thread_return_value_set t 0 s)) in
  sched_inv ∅ s' /\ ctx s' = ctx s /\
  (∀ v, waitq s' v = if decide (w = v) then dlist_remove t (waitq s w) else waitq s v) /\
  (∀ u, u ≠ t -> thr s' u = thr s u) /\
  swap_return s' t = 0 /\ events (thr s' t) = bits /\ pended_on (thr s' t) = None.
Proof.
  intros Hs Ht Hk. cbv zeta. unfold arch_thread_return_value_set. rewrite upd_upd.
  set (f := λ x, set_events bits (set_swap_retval 0 x)). set (s1 := upd_thread t f s).
  assert (same_sched s s1) as Hsame by (by apply same_upd).
  assert (pended_on (thr s t) = Some w) as Hp by (by apply (inv_waitq _ _ Hs)).
  assert (thr s1 t = f (thr s t)) as Ht1 by apply thr_upd_eq.
  split.
  { apply inv_wake_thread; [apply inv_single; by rewrite <- Hsame | | | done |].
    - rewrite (same_runq _ _ Hsame). by eapply inv_pended_not_queued.
    - rewrite (same_idle _ _ Hsame). by eapply inv_idle_not_pended.
    - intros _. rewrite Ht1, (prevented_state _ (thr s t)) by done. pose proof (inv_pended _ _ Hs t w Hp) as Hpend. state_bits. by rewrite Hpend, ?orb_true_r. }
  unfold z_sched_wake_thread. rewrite Ht1. change (flag_any (thread_state (f (thr s t))) _) with (killed (thr s t)). rewrite Hk.
  rewrite andb_false_r. cbn [negb]. cbv zeta. set (s2 := upd_thread t (set_no_wake_on_timeout false) s1).
  assert (thr s2 t = set_no_wake_on_timeout false (f (thr s t))) as Ht2 by (unfold s2; by rewrite thr_upd_eq, Ht1).
  assert (pended_on (thr s2 t) = Some w) as Hp2 by (by rewrite Ht2). rewrite Hp2.
  set (s3 := upd_thread t z_mark_thread_as_started (unpend_thread_no_timeout t s2)).
  assert (thr s3 t = z_mark_thread_as_started (set_pended_on None (z_mark_thread_as_not_pending (thr s2 t)))) as Ht3.
  { unfold s3. by rewrite thr_upd_eq, thr_unpend, decide_True. }
  destruct (ready_thread_fields t s3 t) as (F1 & _ & _ & F4).
  split; [| split; [| split; [| split; [| split]]]].
  - rewrite ctx_ready_thread. unfold s3. change (ctx (upd_thread ?a ?b ?c)) with (ctx c). by rewrite ctx_unpend.
  - intros v. rewrite waitq_ready_thread. unfold s3. change (waitq (upd_thread ?a ?b ?c) v) with (waitq c v).
    rewrite waitq_unpend, Hp2. change (waitq s2) with (waitq s).
    destruct (decide (w = v)) as [-> | Hv]; [by rewrite decide_True | by rewrite decide_False by congruence].
  - intros u Hu. rewrite thr_ready_thread_ne by done. unfold s3. rewrite thr_upd_ne, thr_unpend, decide_False by done.
    unfold s2, s1. by rewrite !thr_upd_ne.
  - unfold swap_return. by rewrite F1, Ht3, Ht2.
  - by rewrite ready_thread_events, Ht3, Ht2.
  - by rewrite F4, Ht3, Ht2.
Qed.

(** [s'] is [s] after the threads of [M], waiting on [w], were woken with the
    event bits. *)
Record events_woken (w : wqid) (bits : Z) (M : list tid) (s s' : z_kernel) : Prop := {
  ew_inv : sched_inv ∅ s';
  ew_ctx : ctx s' = ctx s;
  ew_waitq : waitq s' w = filter (λ u, u ∉ M) (waitq s w);
  ew_others : ∀ u, u ∉ M -> thr s' u = thr s u;
  ew_woken : ∀ u, u ∈ M -> swap_return s' u = 0 /\ events (thr s' u) = bits /\ pended_on (thr s' u) = None
}.

Lemma wake_loop_ok fuel bits w t L s :
  sched_inv ∅ s -> event_chain s (Some t) (t :: L) -> NoDup (t :: L) ->
  (∀ u, u ∈ t :: L -> u ∈ waitq s w /\ killed (thr s u) = false) -> (length L < fuel)%nat ->
  events_woken w bits (t :: L) s (event_wake_loop fuel bits t s).
Proof.
  revert t L s. induction fuel as [| fuel IH]; intros t L s Hs Hch Hnd Hin Hf; [lia |]. cbn [event_wake_loop].
  destruct (Hin t ltac:(set_solver)) as [Ht Hk]. destruct Hch as [_ Hch]. apply NoDup_cons in Hnd as [HtL Hnd].
  destruct (wake_one bits w t s Hs Ht Hk) as (W1 & W2 & W3 & W4 & W5 & W6 & W7). cbv zeta in *.
  set (s1 := upd_thread t (set_events bits) _) in *. set (s2 := z_sched_wake_thread t false s1) in *.
  assert (next_event_link (thr s1 t) = next_event_link (thr s t)) as ->.
  { unfold s1, arch_thread_return_value_set. by rewrite !thr_upd_eq. }
  assert (NoDup (waitq s w)) as Hndw by apply (inv_waitq_nodup _ _ Hs).
  assert (waitq s2 w = filter (λ u, u ≠ t) (waitq s w)) as Hw2 by (by rewrite W3, decide_True).
  destruct L as [| u L]; simpl in Hch.
  - rewrite Hch. split; [done | done | | |].
    + rewrite Hw2. apply filter_ext_elem. set_solver.
    + intros u Hu. apply W4. set_solver.
    + intros u Hu. apply list_elem_of_singleton in Hu as ->. done.
  - destruct Hch as [-> Hch].
    destruct (IH u L s2) as [I1 I2 I3 I4 I5]; [done | | done | | simpl in Hf; lia |].
    + split; [done |]. rewrite W4 by set_solver. eapply event_chain_ext; [| done]. intros x Hx. rewrite W4; [done | set_solver].
    + intros x Hx. destruct (Hin x ltac:(set_solver)) as [Hx1 Hx2]. rewrite W4 by set_solver. split; [| done].
      rewrite Hw2. apply list_elem_of_filter. split; [set_solver | done].
    + split; [done | congruence | | |].
      * rewrite I3, Hw2, list_filter_filter. apply filter_ext_elem. set_solver.
      * intros x Hx. rewrite I4 by set_solver. apply W4. set_solver.
      * intros x Hx. apply elem_of_cons in Hx as [-> | Hx]; [| by apply I5]. unfold swap_return in *. rewrite !I4 by done. done.
Qed.

(** ** Claims *)

(** No thread waits for events that are there; the waiting threads are alive
    and wait for something. *)
Record event_inv event s : Prop := {
  ei_sched : sched_inv ∅ s;
  ei_alive : ∀ t, t ∈ waitq s (event_wait_q event) -> killed (thr s t) = false;
  ei_desired : ∀ t, t ∈ waitq s (event_wait_q event) -> events (thr s t) ≠ 0;
  ei_unmet : ∀ t, t ∈ waitq s (event_wait_q event) -> satisfied (event_bits event) (thr s t) = false
}.

(** The waiters a post leaves waiting satisfy the invariant again. *)
Lemma post_woken event bits s :
  event_inv event s ->
  let M := filter (λ t, satisfied bits (thr s t) = true) (waitq s (event_wait_q event)) in
  let '(_, head, s1) := z_sched_waitq_walk (event_wait_q event) (event_walk_op bits) None s in
  let s2 := match head with
            | Some thread => event_wake_loop (length (waitq s1 (event_wait_q event))) bits thread s1
            | None => s1
            end in
  events_woken (event_wait_q event) bits M s s2.
Proof.
  intros [Hs Ha Hd Hu] M. unfold z_sched_waitq_walk. set (w := event_wait_q event) in *.
  destruct (walk_ok bits w (waitq s w) None [] s) as (h & s1 & -> & W1 & W2 & W3 & W4 & W5 & W6); [done | done | apply (inv_waitq_nodup _ _ Hs) | done | set_solver |].
  fold M in W4, W5, W6. rewrite app_nil_r in W4. cbv zeta.
  assert (∀ u, u ∈ M -> u ∈ waitq s w) as HM by (intros u Hin; by apply list_elem_of_filter in Hin as [_ ?]).
  assert (NoDup M) as HndM by (apply NoDup_filter, (inv_waitq_nodup _ _ Hs)).
  destruct (reverse M) as [| t L] eqn:Hrev; simpl in W4.
  - subst h. assert (M = []) as HM0 by (rewrite <- (reverse_involutive M), Hrev; done). rewrite HM0 in *.
    split; [done | done | | | set_solver].
    + rewrite W3. symmetry. apply filter_keep. set_solver.
    + intros u _. apply W5. set_solver.
  - destruct W4 as [-> W4]. assert (∀ u, u ∈ t :: L <-> u ∈ M) as Hiff by (intros u; by rewrite <- Hrev, elem_of_reverse).
    destruct (wake_loop_ok (length (waitq s1 w)) bits w t L s1) as [E1 E2 E3 E4 E5]; [done | by split | | | |].
    + rewrite <- Hrev. by rewrite reverse_Permutation.
    + intros u Hin%Hiff. rewrite W3. split; [by apply HM |]. rewrite W6 by done. unfold killed. cbn. by apply Ha, HM.
    + assert (length (t :: L) <= length (waitq s w))%nat as Hlen by (rewrite <- Hrev, length_reverse; apply length_filter).
      rewrite W3. simpl in Hlen. lia.
    + split; [done | congruence | | |].
      * rewrite E3, W3. apply filter_ext_elem. intros u _. by rewrite Hiff.
      * intros u Hin. rewrite E4 by (by rewrite Hiff). by apply W5.
      * intros u Hin. apply E5. by rewrite Hiff.
Qed.

(** Posting events replaces the bits under the mask; the waiters whose condition
    the code finds met are woken with the bits they asked for that are set. *)
Lemma post_ok event bits bits_mask s :
  event_inv event s -> current s ∈ runq s ->
  let w := event_wait_q event in
  let new := Z.lor (Z.land (event_bits event) (lnot32 bits_mask)) (Z.land bits bits_mask) in
  let '(previous, event', s') := k_event_post_internal event bits bits_mask s in
  previous = Z.land (event_bits event) bits_mask /\ event_bits event' = new /\ event_inv event' s' /\
  waitq s' w = filter (λ t, satisfied new (thr s t) = false) (waitq s w) /\
  (∀ t, t ∈ waitq s w -> satisfied new (thr s t) = true ->
        event_wait_return s' t (events (thr s t)) = Z.land new (events (thr s t)) /\ pended_on (thr s' t) = None).
Proof.
  intros Hi Hc w new. unfold k_event_post_internal. fold new.
  pose proof (post_woken event new s Hi) as Hpw. cbv zeta in Hpw. cbn [set_event_bits event_wait_q]. fold w in Hpw |- *.
  destruct (z_sched_waitq_walk w (event_walk_op new) None s) as [[r head] s1].
  set (s2 := match head with Some _ => _ | None => _ end) in *. destruct Hpw as [E1 E2 E3 E4 E5].
  set (M := filter (λ t, satisfied new (thr s t) = true) (waitq s w)) in *. destruct Hi as [Hs Ha Hd Hu].
  assert (∀ t, t ∈ waitq s w -> t ≠ current s2) as Hnc.
  { intros t Ht. destruct (ctx_eq _ _ E2) as (-> & _). by apply (waiter_not_current s w). }
  assert (waitq s2 w = filter (λ t, satisfied new (thr s t) = false) (waitq s w)) as Hw2.
  { rewrite E3. apply filter_ext_elem. intros t Ht. unfold M. rewrite list_elem_of_filter.
    destruct (satisfied new (thr s t)); split; [intros H; exfalso; by apply H | done | done | by intros _ [? _]]. }
  destruct (reschedule_frame s2) as (Hsame & Hfr & _).
  assert (∀ t, t ∈ waitq s w -> t ∉ M -> thr (z_reschedule s2) t = thr s t) as Hkeep.
  { intros t Ht HtM. rewrite Hfr by (by apply Hnc). by apply E4. }
  assert (∀ t, t ∈ waitq (z_reschedule s2) w -> t ∈ waitq s w /\ satisfied new (thr s t) = false /\ thr (z_reschedule s2) t = thr s t) as Hrem.
  { intros t. rewrite (same_waitq _ _ Hsame), Hw2, list_elem_of_filter. intros [Hsat Ht]. split_and!; [done.. |].
    apply Hkeep; [done |]. unfold M. rewrite list_elem_of_filter. intros [? _]. congruence. }
  split; [done |]. split; [done |]. split; [| split].
  - split; cbn [event_wait_q set_event_bits event_bits]; fold w; [by rewrite <- Hsame | | |];
      intros t (Ht & Hsat & ->)%Hrem; [by apply Ha | by apply Hd | done].
  - by rewrite (same_waitq _ _ Hsame).
  - intros t Ht Hsat. assert (t ∈ M) as HtM by (by apply list_elem_of_filter). destruct (E5 t HtM) as (R1 & R2 & R3).
    unfold event_wait_return, swap_return in *. rewrite Hfr by (by apply Hnc). rewrite R1, R2, R3. done.
Qed.

(** Waiting for events returns the wanted bits that are set when the
    condition (any or all) holds, 0 if it does not and the call may not wait;
    otherwise the caller goes on the wait queue with its condition recorded, to
    return 0 unless a post wakes it.  A request to reset clears the object
    first; waiting for nothing returns 0 at once. *)
Theorem event_wait_spec event desired options timeout s :
  event_inv event s -> current s ∈ runq s -> valid_timeout timeout -> killed (thr s (current s)) = false ->
  let cond := Z.land options K_EVENT_WAIT_MASK in
  let bits := if flag_any options K_EVENT_WAIT_RESET then 0 else event_bits event in
  let '(o, event', s') := k_event_wait_internal event desired options timeout s in
  event_inv event' s' /\
  if decide (desired = 0) then o = Returns 0 /\ event' = event /\ s' = s
  else event' = set_event_bits bits event /\
    if are_wait_conditions_met desired bits cond then o = Returns (Z.land bits desired) /\ s' = s
    else if decide (timeout = K_NO_WAIT) then o = Returns 0 /\ s' = s
    else o = Blocks /\ current s ∈ waitq s' (event_wait_q event) /\ events (thr s' (current s)) = desired /\
         event_options (thr s' (current s)) = options /\ event_wait_return s' (current s) desired = 0.
Proof.
  intros Hi Hc Hv Hk cond bits. unfold k_event_wait_internal, K_TIMEOUT_EQ. fold cond.
  destruct (decide (desired = 0)) as [-> | Hne]; [done | rewrite (proj2 (Z.eqb_neq desired 0)) by done].
  assert ((if flag_any options K_EVENT_WAIT_RESET then set_event_bits 0 event else event) = set_event_bits bits event) as ->.
  { unfold bits. case_match; [done | by destruct event]. }
  assert (event_inv (set_event_bits bits event) s) as Hi'.
  { destruct Hi as [Hs Ha Hd Hu]. split; [done | done | done |]. intros t Ht. unfold bits. case_match; [| by apply Hu].
    specialize (Hd t Ht). cbn. unfold satisfied, are_wait_conditions_met. rewrite Z.land_0_l. case_match; [| done].
    apply Z.eqb_neq. congruence. }
  cbv zeta. cbn [event_bits event_wait_q set_event_bits]. set (w := event_wait_q event) in *.
  destruct (are_wait_conditions_met desired bits cond) eqn:Hmet; [done |].
  destruct (decide (timeout = K_NO_WAIT)) as [-> | Ht]; [done | rewrite (proj2 (Z.eqb_neq timeout K_NO_WAIT)) by done].
  rewrite upd_upd. set (f := λ x, set_event_options options (set_events desired x)). set (c := current s) in *.
  set (s1 := upd_thread c f s). assert (same_sched s s1) as Hsame by (by apply same_upd).
  assert (sched_inv ∅ s1) as Hs1 by (rewrite <- Hsame; apply Hi').
  assert (current s1 ∈ runq s1) as Hc1 by done.
  pose proof (pend_curr w timeout s1 Hs1 Hc1 Hv) as Hp. destruct (pend_curr_thr w timeout s1) as (x & Hx & Hthr).
  change (current s1) with c in *. assert (thr s1 c = f (thr s c)) as Hf by apply thr_upd_eq. rewrite Hf in Hx.
  set (s2 := z_pend_curr w timeout s1) in *.
  assert (events (thr s2 c) = desired /\ event_options (thr s2 c) = options /\ killed (thr s2 c) = false) as (Hev & Hop & Hki).
  { rewrite Hthr. destruct Hx as [-> | ->]; (split; [done |]; split; [done |]); unfold killed, f in *; cbn in *;
      rewrite flag_any_lor in Hk |- * by done; apply orb_false_iff in Hk as [Hk1 Hk2];
      unfold _THREAD_DEAD, _THREAD_ABORTING in *; state_bits; by rewrite ?Hk1, ?Hk2. }
  assert (∀ t, t ∈ waitq s2 w -> t = c \/ t ∈ waitq s w /\ thr s2 t = thr s t) as Hin.
  { intros t. rewrite (pd_waitq _ _ _ Hp), decide_True by done. intros [-> | Hin]%dumb_add_elem; [by left |]. right. split; [done |].
    assert (t ≠ c) as Htc by (by apply (waiter_not_current s w); [apply Hi' | |]).
    rewrite (pd_others _ _ _ Hp) by done. unfold s1. by rewrite thr_upd_ne by congruence. }
  destruct Hi' as [Hs Ha Hd Hu]. split.
  - split; cbn [event_wait_q set_event_bits event_bits]; fold w; [apply Hp | | |]; intros t [-> | [Htw ->]]%Hin;
      [done | by apply Ha | by rewrite Hev | by apply Hd | | by apply Hu].
    unfold satisfied. by rewrite Hev, Hop.
  - split; [done |]. split; [done |]. rewrite (pd_waitq _ _ _ Hp), decide_True by done. split; [apply dumb_add_elem; by left |].
    split; [done |]. split; [done |]. unfold event_wait_return. change c with (current s1). by rewrite (pd_return _ _ _ Hp).
Qed.

(** ** Conditions, bit by bit *)

(** A wait for [desired] is over: all of the bits are set, or at least one. *)
Definition wanted (bits desired : Z) (all : bool) : Prop :=
  if all then ∀ b, 0 <= b -> Z.testbit desired b = true -> Z.testbit bits b = true
  else ∃ b, 0 <= b /\ Z.testbit desired b = true /\ Z.testbit bits b = true.

Lemma nonzero_bit a : a ≠ 0 -> ∃ b, 0 <= b /\ Z.testbit a b = true.
Proof.
  intros Ha. destruct (Z.lt_total a 0) as [Hn | [-> | Hp]]; [| done |].
  - exists (Z.log2 (Z.pred (- a)) + 1). pose proof (Z.log2_nonneg (Z.pred (- a))). split; [lia |]. apply Z.bits_above_log2_neg; lia.
  - exists (Z.log2 a). split; [apply Z.log2_nonneg |]. by apply Z.bit_log2.
Qed.

Lemma conditions_wanted desired bits options :
  are_wait_conditions_met desired bits (Z.land options K_EVENT_WAIT_MASK) = true <-> wanted bits desired (Z.testbit options 0).
Proof.
  unfold are_wait_conditions_met, K_EVENT_WAIT_MASK, K_EVENT_WAIT_ALL.
  assert ((Z.land options 1 =? 1) = Z.testbit options 0) as ->.
  { change (Z.land options 1) with (Z.land options (Z.ones 1)). rewrite Z.land_ones by lia. change (2 ^ 1) with 2. rewrite <- Z.bit0_mod.
    by destruct (Z.testbit options 0). }
  unfold wanted. destruct (Z.testbit options 0).
  - rewrite Z.eqb_eq. split.
    + intros E b Hb Hd. rewrite <- E, Z.land_spec in Hd. by apply andb_true_iff in Hd as [? _].
    + intros H. apply Z.bits_inj'. intros b Hb. rewrite Z.land_spec. destruct (Z.testbit desired b) eqn:Hd; [| apply andb_false_r].
      by rewrite (H b Hb Hd).
  - rewrite negb_true_iff, Z.eqb_neq. split.
    + intros (b & Hb & H)%nonzero_bit. rewrite Z.land_spec in H. apply andb_true_iff in H as [? ?]. by exists b.
    + intros (b & Hb & Hd & Hc) E. apply (f_equal (λ a, Z.testbit a b)) in E. rewrite Z.land_spec, Hd, Hc, Z.testbit_0_l in E. done.
Qed.

Lemma satisfied_wanted bits (x : k_thread) : satisfied bits x = true <-> wanted bits (events x) (Z.testbit (event_options x) 0).
Proof. apply conditions_wanted. Qed.

(** The calls of a thread that waits for any or for all of [desired]. *)
Definition event_wait_call (all : bool) event (desired : Z) (reset : bool) (timeout : Z) s : outcome * k_event * z_kernel :=
  (if all then z_impl_k_event_wait_all else z_impl_k_event_wait) event desired reset timeout s.


End Proofs.

(** ** Concrete runs *)

#[local] Existing Instance default_kconfig | 100.

Definition event0 : k_event := mk_event (inr 5%nat) 2.

(** The main thread waits for all of the bits 5. *)
Definition event_waiting : z_kernel := (z_impl_k_event_wait_all event0 5 false 50 two_threads).2.

Lemma event0_inv : event_inv event0 two_threads.
Proof.
  assert (waitq two_threads (event_wait_q event0) = []) as E by by_compute.
  split; [apply two_threads_inv | | |]; rewrite E; clear E; intros t Ht; by apply elem_of_nil in Ht.
Qed.

Lemma event_waiting_sched : sched_inv ∅ event_waiting.
Proof.
  apply (inv_pend_curr (inr 5%nat) 50); [| by_compute | by split].
  rewrite <- same_upd by done. rewrite <- same_upd by done. apply two_threads_inv.
Qed.

#[local] Opaque event_waiting.

Lemma event_waiting_inv : event_inv event0 event_waiting.
Proof.
  assert (waitq event_waiting (event_wait_q event0) = [2%nat]) as E by by_compute.
  split; [apply event_waiting_sched | | |]; rewrite E; clear E; intros t Ht; apply list_elem_of_singleton in Ht as ->; by_compute.
Qed.


Lemma event_wait_spec_witness :
  let '(o, event', s') := k_event_wait_internal event0 5 K_EVENT_WAIT_ALL 50 two_threads in
  o = Blocks /\ events (thr s' 2) = 5.
Proof.
  pose proof (event_wait_spec event0 5 K_EVENT_WAIT_ALL 50 two_threads event0_inv ltac:(by_compute) ltac:(by split)
    ltac:(by_compute)) as H.
  assert (current two_threads = 2%nat) as E by by_compute. rewrite E in H. clear E.
  destruct (k_event_wait_internal event0 5 K_EVENT_WAIT_ALL 50 two_threads) as [[o event'] s'].
  destruct H as (_ & _ & -> & _ & -> & _). split; reflexivity.
Defined.
