(* ===== verification/MemSlab.v ===== *)
(** * Memory slabs (kernel/mem_slab.c)

    A slab is an array of equal blocks; the free ones are linked through their
    first word.  Memory is the word memory of the list files, pointers are 32
    bits wide. *)

From Stdlib Require Import ZArith Lia Bool.
From stdpp Require Import base numbers list gmap sets.
From S2P Require Import Prelude Memory GenList TimeoutQ Kernel PrioQ Sched SchedInv SchedOps Threads WaitApi.

Open Scope Z_scope.

(** ** [struct k_mem_slab] and its operations *)

(** [struct k_mem_slab_info] *)
Record k_mem_slab_info := mk_slab_info {
  num_blocks : Z;
  block_size : Z;
  num_used : Z;
  max_used : Z
}.

Record k_mem_slab := mk_slab {
  slab_wait_q : wqid;
  slab_buffer : Z;
  free_list : Z;
  info : k_mem_slab_info
}.

Definition set_free_list (v : Z) (slab : k_mem_slab) : k_mem_slab :=
  mk_slab (slab_wait_q slab) (slab_buffer slab) v (info slab).
Definition set_num_used (v : Z) (slab : k_mem_slab) : k_mem_slab :=
  mk_slab (slab_wait_q slab) (slab_buffer slab) (free_list slab)
    (mk_slab_info (num_blocks (info slab)) (block_size (info slab)) v (max_used (info slab))).
Definition set_max_used (v : Z) (slab : k_mem_slab) : k_mem_slab :=
  mk_slab (slab_wait_q slab) (slab_buffer slab) (free_list slab)
    (mk_slab_info (num_blocks (info slab)) (block_size (info slab)) (num_used (info slab)) v).

(** [*(char ** )p = v] *)
Definition store_ptr (p v : Z) (m : mem) : mem := λ a, if a =? p then v else m a.

(** The loop of [create_free_list]; one unit of fuel for each test of its
    condition. *)
Fixpoint create_free_list_loop (fuel : nat) (p : Z) (slab : k_mem_slab) (m : mem) : option (k_mem_slab * mem) :=
  match fuel with
  | O => None
  | S fuel =>
      if p >=? slab_buffer slab then
        let m := store_ptr p (free_list slab) m in
        let slab := set_free_list p slab in
        create_free_list_loop fuel (u32 (p - block_size (info slab))) slab m
      else Some (slab, m)
  end.

Definition create_free_list (fuel : nat) (slab : k_mem_slab) (m : mem) : option (Z * k_mem_slab * mem) :=
  if negb (Z.land (Z.lor (block_size (info slab)) (slab_buffer slab)) 3 =? 0) then Some (- EINVAL, slab, m)
  else
    let slab := set_free_list NULL slab in
    let p := u32 (slab_buffer slab + u32 (block_size (info slab) * u32 (num_blocks (info slab) - 1))) in
    '(slab, m) ← create_free_list_loop fuel p slab m;
    Some (0, slab, m).

Section Ops.
Context {cfg : Kconfig} (MEM_SLAB_TRACE_MAX_UTILIZATION : bool).
Implicit Types (slab : k_mem_slab) (m : mem) (s : z_kernel).

Definition k_mem_slab_init (fuel : nat) slab (buffer bsize nblocks : Z) m s : option (Z * k_mem_slab * mem * z_kernel) :=
  let slab := mk_slab (slab_wait_q slab) buffer (free_list slab)
    (mk_slab_info nblocks bsize 0 (if MEM_SLAB_TRACE_MAX_UTILIZATION then 0 else max_used (info slab))) in
  '(rc, slab, m) ← create_free_list fuel slab m;
  if rc <? 0 then Some (rc, slab, m, s)
  else Some (rc, slab, m, z_waitq_init (slab_wait_q slab) s).

Definition slab_ptr_is_good slab (ptr : Z) : bool :=
  let offset := ptr - slab_buffer slab in
  (offset >=? 0) && (offset <? block_size (info slab) * num_blocks (info slab)) &&
  (offset mod block_size (info slab) =? 0).

(** Up to the context switch; the second component is [*mem]. *)
Definition k_mem_slab_alloc slab (timeout : Z) m s : outcome * Z * k_mem_slab * z_kernel :=
  if negb (free_list slab =? NULL) then
    let mem := free_list slab in
    let slab := set_free_list (m (free_list slab)) slab in
    let slab := set_num_used (u32 (num_used (info slab) + 1)) slab in
    let slab := if MEM_SLAB_TRACE_MAX_UTILIZATION
                then set_max_used (Z.max (num_used (info slab)) (max_used (info slab))) slab else slab in
    (Returns 0, mem, slab, s)
  else if K_TIMEOUT_EQ timeout K_NO_WAIT then (Returns (- ENOMEM), NULL, slab, s)
  else (Blocks, NULL, slab, z_pend_curr (slab_wait_q slab) timeout s).

(** The result and [*mem] of a [k_mem_slab_alloc] that waited. *)
Definition slab_alloc_return s (thread : tid) : Z * option Z :=
  let result := swap_return s thread in
  (result, if result =? 0 then Some (swap_data (thr s thread)) else None).

Definition k_mem_slab_free slab (mem : Z) m s : k_mem_slab * Memory.mem * z_kernel :=
  let put s :=
    let m := store_ptr mem (free_list slab) m in
    let slab := set_free_list mem slab in
    (set_num_used (u32 (num_used (info slab) - 1)) slab, m, s) in
  if free_list slab =? NULL then
    match z_unpend_first_thread (slab_wait_q slab) s with
    | (Some pending_thread, s) =>
        let s := z_thread_return_value_set_with_data pending_thread 0 mem s in
        let s := z_ready_thread pending_thread s in
        (slab, m, z_reschedule s)
    | (None, s) => put s
    end
  else put s.

Record sys_memory_stats := mk_stats { free_bytes : Z; allocated_bytes : Z; max_allocated_bytes : Z }.

Definition k_mem_slab_runtime_stats_get slab : sys_memory_stats :=
  mk_stats (u32 ((num_blocks (info slab) - num_used (info slab)) * block_size (info slab)))
    (u32 (num_used (info slab) * block_size (info slab)))
    (if MEM_SLAB_TRACE_MAX_UTILIZATION then u32 (max_used (info slab) * block_size (info slab)) else 0).

Definition k_mem_slab_runtime_stats_reset_max slab : Z * k_mem_slab := (0, set_max_used (num_used (info slab)) slab).

Definition k_mem_slab_num_used_get slab : Z := num_used (info slab).

Definition k_mem_slab_max_used_get slab : Z :=
  if MEM_SLAB_TRACE_MAX_UTILIZATION then max_used (info slab) else 0.

Definition k_mem_slab_num_free_get slab : Z := u32 (num_blocks (info slab) - num_used (info slab)).

End Ops.

(** ** The blocks of a slab *)

Definition block (slab : k_mem_slab) (i : Z) : Z := slab_buffer slab + i * block_size (info slab).

(** Blocks [k] to [n - 1], in the order of their addresses. *)
Definition blocks_from (slab : k_mem_slab) (k n : Z) : list Z := block slab <$> seqZ k (n - k).

Definition all_blocks (slab : k_mem_slab) : list Z := blocks_from slab 0 (num_blocks (info slab)).

(** The array lies in the address space, above its first block's size, and its
    blocks are words. *)
Record slab_layout (slab : k_mem_slab) : Prop := {
  sl_size : 0 < block_size (info slab) <= slab_buffer slab;
  sl_num : 0 <= num_blocks (info slab);
  sl_end : slab_buffer slab + num_blocks (info slab) * block_size (info slab) <= 2 ^ 32;
  sl_aligned : Z.land (Z.lor (block_size (info slab)) (slab_buffer slab)) 3 = 0
}.

Lemma blocks_from_nil slab n : blocks_from slab n n = [].
Proof. unfold blocks_from. by rewrite Z.sub_diag. Qed.

Lemma blocks_from_cons slab k n : k < n -> blocks_from slab k n = block slab k :: blocks_from slab (k + 1) n.
Proof. intros Hk. unfold blocks_from. rewrite seqZ_cons by lia. csimpl. do 3 f_equal; lia. Qed.

Lemma blocks_from_elem slab k n x : x ∈ blocks_from slab k n <-> ∃ i, k <= i < n ∧ x = block slab i.
Proof.
  unfold blocks_from. rewrite list_elem_of_fmap. setoid_rewrite elem_of_seqZ. split; intros (i & ?); exists i; intuition lia.
Qed.

Lemma block_inj slab i j : 0 < block_size (info slab) -> block slab i = block slab j -> i = j.
Proof. unfold block. nia. Qed.

Lemma blocks_nodup slab k n : 0 < block_size (info slab) -> NoDup (blocks_from slab k n).
Proof. intros Hb. apply NoDup_fmap_2_strong; [| apply NoDup_seqZ]. intros i j _ _. by apply block_inj. Qed.

Lemma blocks_from_ext slab slab' k n :
  slab_buffer slab' = slab_buffer slab -> block_size (info slab') = block_size (info slab) ->
  blocks_from slab' k n = blocks_from slab k n.
Proof. intros H1 H2. unfold blocks_from, block. by rewrite H1, H2. Qed.

(** The loop links blocks [k - 1] down to 0 in front of the list it has. *)
Lemma create_loop_ok k n slab m fuel :
  slab_layout slab -> 0 <= k <= n -> n = num_blocks (info slab) -> (Z.to_nat k < fuel)%nat ->
  seg (gn := snode) m (free_list slab) (blocks_from slab k n) NULL ->
  exists m', create_free_list_loop fuel (u32 (block slab (k - 1))) slab m =
      Some (set_free_list (default NULL (head (blocks_from slab 0 n))) slab, m') /\
    seg (gn := snode) m' (default NULL (head (blocks_from slab 0 n))) (blocks_from slab 0 n) NULL /\
    (∀ a, a ∉ blocks_from slab 0 k -> m' a = m a).
Proof.
  intros Hl Hk Hn. destruct Hl as [Hsz Hnb Hend Hal]. revert k slab m Hk Hsz Hnb Hend Hal Hn.
  induction fuel as [| fuel IH]; intros k slab m Hk Hsz Hnb Hend Hal Hn Hf Hseg; [lia |]. cbn [create_free_list_loop].
  assert (u32 (block slab (k - 1)) = block slab (k - 1)) as Hp.
  { apply wrap_u_id. unfold block. nia. }
  rewrite Hp. destruct (decide (k = 0)) as [-> | Hk0].
  - assert ((block slab (0 - 1) >=? slab_buffer slab) = false) as -> by (rewrite Z.geb_leb; apply Z.leb_gt; unfold block; lia).
    assert (free_list slab = default NULL (head (blocks_from slab 0 n))) as Hfl.
    { destruct (blocks_from slab 0 n); [done | by destruct Hseg]. }
    exists m. rewrite <- Hfl. split; [by destruct slab | done].
  - assert ((block slab (k - 1) >=? slab_buffer slab) = true) as -> by (rewrite Z.geb_leb; apply Z.leb_le; unfold block; nia).
    cbv zeta. set (x := block slab (k - 1)) in *. set (slab1 := set_free_list x slab).
    assert (∀ i j, blocks_from slab1 i j = blocks_from slab i j) as Hbe by (intros; by apply blocks_from_ext).
    assert (x - block_size (info slab1) = block slab1 (k - 1 - 1)) as -> by (unfold x, block; simpl; lia).
    assert (seg (gn := snode) (store_ptr x (free_list slab) m) x (blocks_from slab (k - 1) n) NULL) as Hseg1.
    { rewrite blocks_from_cons by lia. fold x. replace (k - 1 + 1) with k by lia. split; [done |].
      simpl. unfold z_snode_next_peek, store_ptr at 2. rewrite Z.eqb_refl. eapply seg_ext; [| exact Hseg].
      intros y (i & Hi & ->)%blocks_from_elem. simpl. unfold z_snode_next_peek, store_ptr.
      destruct (Z.eqb_spec (block slab i) x) as [E |]; [| done]. apply block_inj in E; lia. }
    destruct (IH (k - 1) slab1 (store_ptr x (free_list slab) m)) as (m' & Hrun & Hseg' & Hfr);
      [lia | done | done | done | done | done | lia | by rewrite Hbe |].
    rewrite !Hbe in *. exists m'. split; [exact Hrun |]. split; [done |]. intros a Ha.
    rewrite Hfr.
    + unfold store_ptr. destruct (Z.eqb_spec a x) as [-> |]; [| done]. exfalso. apply Ha, blocks_from_elem. exists (k - 1). split; [lia | done].
    + intros (i & Hi & ->)%blocks_from_elem. apply Ha, blocks_from_elem. exists i. split; [lia | done].
Qed.

(** ** Invariant *)

Section Proofs.
Context {cfg : Kconfig} (TRACE : bool).
Implicit Types (slab : k_mem_slab) (m : mem) (s : z_kernel) (l used : list Z).

(** [l] are the free blocks, in the order of the list; [used] the ones handed
    out.  Together they are the blocks of the slab, each once; threads wait
    only when no block is free. *)
Record slab_inv slab m s l used : Prop := {
  si_layout : slab_layout slab;
  si_seg : seg (gn := snode) m (free_list slab) l NULL;
  si_blocks : l ++ used ≡ₚ all_blocks slab;
  si_used : num_used (info slab) = Z.of_nat (length used);
  si_sched : sched_inv ∅ s;
  si_wait : waitq s (slab_wait_q slab) ≠ [] -> l = []
}.

Lemma all_blocks_bound slab x : slab_layout slab -> x ∈ all_blocks slab -> 0 < x < 2 ^ 32.
Proof. intros [H1 H2 H3 _] (i & Hi & ->)%blocks_from_elem. unfold block. nia. Qed.

Lemma all_blocks_length slab : slab_layout slab -> Z.of_nat (length (all_blocks slab)) = num_blocks (info slab).
Proof. intros [_ H _ _]. unfold all_blocks, blocks_from. rewrite length_fmap, length_seqZ. lia. Qed.

Lemma inv_nodup slab m s l used : slab_inv slab m s l used -> NoDup (l ++ used).
Proof. intros [[H _ _ _] _ Hb _ _ _]. rewrite Hb. apply blocks_nodup. lia. Qed.

Lemma inv_in_slab slab m s l used x : slab_inv slab m s l used -> x ∈ l ++ used -> 0 < x < 2 ^ 32.
Proof. intros Hi Hx. apply (all_blocks_bound slab); [apply Hi |]. by rewrite <- (si_blocks _ _ _ _ _ Hi). Qed.

Lemma num_blocks_bound slab : slab_layout slab -> num_blocks (info slab) < 2 ^ 32.
Proof. intros [H1 H2 H3 _]. nia. Qed.

Lemma inv_count slab m s l used :
  slab_inv slab m s l used -> Z.of_nat (length l) + num_used (info slab) = num_blocks (info slab).
Proof.
  intros Hi. rewrite (si_used _ _ _ _ _ Hi), <- all_blocks_length by apply Hi.
  rewrite <- (si_blocks _ _ _ _ _ Hi), length_app. lia.
Qed.

(** Resetting a wait queue that is empty. *)
(** C19: Initialising a slab whose block size and buffer are not word-aligned
    fails with -EINVAL; otherwise all its blocks are free, linked in the order
    of their addresses, and only their first words have been written. *)
Theorem slab_init_spec slab buffer bsize nblocks m s fuel :
  sched_inv ∅ s -> waitq s (slab_wait_q slab) = [] -> (Z.to_nat nblocks < fuel)%nat ->
  0 < bsize <= buffer -> 0 <= nblocks -> buffer + nblocks * bsize <= 2 ^ 32 ->
  exists rc slab' m' s', k_mem_slab_init TRACE fuel slab buffer bsize nblocks m s = Some (rc, slab', m', s') /\
  if decide (Z.land (Z.lor bsize buffer) 3 = 0)
  then rc = 0 /\ slab_inv slab' m' s' (all_blocks slab') [] /\ slab_buffer slab' = buffer /\
       num_blocks (info slab') = nblocks /\ block_size (info slab') = bsize /\
       (∀ a, a ∉ all_blocks slab' -> m' a = m a)
  else rc = - EINVAL /\ m' = m /\ s' = s.
Proof.
  intros Hs Hw Hf Hsz Hnb Hend. unfold k_mem_slab_init, create_free_list. cbv zeta. cbn [info block_size slab_buffer num_blocks set_free_list slab_wait_q].
  destruct (Z.eqb_spec (Z.land (Z.lor bsize buffer) 3) 0) as [Hal | Hal]; cbn [negb mbind option_bind];
    [| eexists _, _, _, _; split; [done |]; by rewrite decide_False].
  set (slab1 := mk_slab (slab_wait_q slab) buffer NULL (mk_slab_info nblocks bsize 0 (if TRACE then 0 else max_used (info slab)))).
  assert (slab_layout slab1) as Hlay by (by split).
  destruct (create_loop_ok nblocks nblocks slab1 m fuel Hlay) as (m' & Hrun & Hseg & Hfr); [lia | done | done | |].
  { by rewrite blocks_from_nil. }
  assert (u32 (buffer + u32 (bsize * u32 (nblocks - 1))) = u32 (block slab1 (nblocks - 1))) as Hp.
  { unfold block, wrap_u. cbn [info block_size slab_buffer slab1].
    rewrite Zplus_mod_idemp_r, <- (Zplus_mod_idemp_r (bsize * _)), Zmult_mod_idemp_r, Zplus_mod_idemp_r. f_equal. lia. }
  rewrite Hp. change (set_free_list NULL _) with slab1. rewrite Hrun. cbn [mbind option_bind Z.ltb Z.compare].
  set (slab2 := set_free_list _ _). eexists 0, slab2, m', _. split; [done |]. rewrite decide_True by done.
  assert (all_blocks slab2 = blocks_from slab1 0 nblocks) as Hall by (by apply blocks_from_ext).
  split; [done |]. split; [| split; [done |]; split; [done |]; split; [done | by rewrite Hall]]. split; [by split | | by rewrite app_nil_r | done | |].
  - by rewrite Hall.
  - by rewrite <- same_waitq_init.
  - unfold z_waitq_init. change (slab_wait_q slab1) with (slab_wait_q slab2). rewrite waitq_upd, decide_True; done.
Qed.

(** Allocating takes the first free block, which no one else has; with no
    block free the call fails with -ENOMEM if it may not wait, and otherwise
    puts the caller on the wait queue, to return -EAGAIN unless a block is
    freed for it.  The slab's blocks stay divided into free and used ones. *)
Theorem slab_alloc_spec slab timeout m s l used :
  slab_inv slab m s l used -> current s ∈ runq s -> valid_timeout timeout ->
  let '(o, mem, slab', s') := k_mem_slab_alloc TRACE slab timeout m s in
  match l with
  | x :: l' => o = Returns 0 /\ mem = x /\ (x ∉ used) /\ slab_ptr_is_good slab x = true /\
               slab_inv slab' m s' l' (x :: used) /\ s' = s
  | [] =>
      slab' = slab /\ slab_inv slab m s' [] used /\
      if decide (timeout = K_NO_WAIT) then o = Returns (- ENOMEM) /\ mem = NULL /\ s' = s
      else o = Blocks /\ current s ∈ waitq s' (slab_wait_q slab) /\ slab_alloc_return s' (current s) = (- EAGAIN, None)
  end.
Proof.
  intros Hi Hc Hv. unfold k_mem_slab_alloc, K_TIMEOUT_EQ. assert (Hi' := Hi). destruct Hi as [Hlay Hseg Hb Hu Hs Hw].
  destruct l as [| x l].
  - simpl in Hseg. rewrite Hseg. cbn [negb Z.eqb NULL].
    destruct (decide (timeout = K_NO_WAIT)) as [-> | Hne]; [done |]. rewrite (proj2 (Z.eqb_neq timeout K_NO_WAIT)) by done.
    pose proof (pend_curr (slab_wait_q slab) timeout s Hs Hc Hv) as Hp. split; [done |].
    split; [split; [done | done | done | done | apply Hp | done] |]. split; [done |].
    rewrite (pd_waitq _ _ _ Hp), decide_True by done. split; [apply dumb_add_elem; by left |].
    unfold slab_alloc_return. by rewrite (pd_return _ _ _ Hp).
  - destruct Hseg as [Hfl Hseg]. rewrite Hfl. pose proof (inv_in_slab _ _ _ _ _ x Hi' ltac:(set_solver)) as Hx.
    rewrite (proj2 (Z.eqb_neq x NULL)) by (unfold NULL; lia). cbn [negb]. cbv zeta.
    pose proof (inv_nodup _ _ _ _ _ Hi') as Hnd. pose proof (inv_count _ _ _ _ _ Hi') as Hcnt. pose proof (num_blocks_bound slab Hlay).
    split; [done |]. split; [done |]. split; [rewrite <- app_comm_cons in Hnd; apply NoDup_cons in Hnd as [? _]; set_solver |].
    assert (x ∈ all_blocks slab) as (i & Hii & Hxi)%blocks_from_elem by (rewrite <- Hb; set_solver).
    split; [| split; [| done]].
    + unfold slab_ptr_is_good. rewrite Hxi. unfold block. replace (_ + _ - _) with (i * block_size (info slab)) by lia.
      rewrite Z.mod_mul by (destruct Hlay; lia). rewrite Z.eqb_refl, andb_true_r. apply andb_true_iff.
      rewrite Z.geb_leb, Z.leb_le, Z.ltb_lt. destruct Hlay. nia.
    + assert (u32 (num_used (info slab) + 1) = Z.of_nat (length (x :: used))) as Hn.
      { simpl in Hcnt |- *. rewrite wrap_u_id; lia. }
      assert (l ++ x :: used ≡ₚ all_blocks slab) as Hb' by (by rewrite <- Hb, <- Permutation_middle).
      destruct TRACE; (split; [by destruct Hlay | done | done | done | done | intros Hne; by specialize (Hw Hne)]).
Qed.

(** Freeing a used block gives it to the first thread waiting for one,
    whose call returns it, and otherwise puts it at the front of the free list;
    no other block changes hands. *)
Theorem slab_free_spec slab mem m s l used1 used2 :
  slab_inv slab m s l (used1 ++ mem :: used2) -> current s ∈ runq s ->
  let '(slab', m', s') := k_mem_slab_free slab mem m s in
  match waitq s (slab_wait_q slab) with
  | t :: ts => slab' = slab /\ m' = m /\ slab_inv slab m s' l (used1 ++ mem :: used2) /\
               waitq s' (slab_wait_q slab) = ts /\ slab_alloc_return s' t = (0, Some mem)
  | [] => slab_inv slab' m' s' (mem :: l) (used1 ++ used2) /\ s' = s /\ (∀ a, a ≠ mem -> m' a = m a)
  end.
Proof.
  intros Hi Hc. assert (Hi' := Hi). destruct Hi as [Hlay Hseg Hb Hu Hs Hw]. unfold k_mem_slab_free. cbv zeta.
  pose proof (inv_nodup _ _ _ _ _ Hi') as Hnd. pose proof (inv_count _ _ _ _ _ Hi') as Hcnt. pose proof (num_blocks_bound slab Hlay).
  rewrite length_app in Hu. simpl in Hu.
  assert (slab_inv (set_num_used (u32 (num_used (info slab) - 1)) (set_free_list mem slab))
            (store_ptr mem (free_list slab) m) s (mem :: l) (used1 ++ used2) \/ waitq s (slab_wait_q slab) ≠ []) as Hput.
  { destruct (waitq s (slab_wait_q slab)) eqn:Hq; [left | by right].
    split; [by destruct Hlay | | | | done | intros Hne; exfalso; apply Hne, Hq].
    - split; [done |]. simpl. unfold z_snode_next_peek, store_ptr at 2. rewrite Z.eqb_refl. eapply seg_ext; [| exact Hseg].
      intros y Hy. simpl. unfold z_snode_next_peek, store_ptr. destruct (Z.eqb_spec y mem) as [-> |]; [| done].
      exfalso. apply NoDup_app in Hnd as (_ & Hd & _). apply (Hd mem Hy). set_solver.
    - change (all_blocks _) with (all_blocks slab). rewrite <- Hb, <- !app_comm_cons, !Permutation_middle. done.
    - cbn. rewrite length_app, wrap_u_id; lia. }
  assert (∀ a, a ≠ mem -> store_ptr mem (free_list slab) m a = m a) as Hfr.
  { intros a Ha. unfold store_ptr. by destruct (Z.eqb_spec a mem). }
  destruct (waitq s (slab_wait_q slab)) as [| t ts] eqn:Hq.
  - destruct Hput as [Hput |]; [| done]. rewrite unpend_first_none by done. by destruct (free_list slab =? NULL).
  - assert (l = []) as -> by (by apply Hw). simpl in Hseg. rewrite Hseg. cbn [Z.eqb NULL].
    destruct (wake_resched_with_data _ s t ts 0 mem Hs Hq Hc) as (s1 & -> & Hrs & Hret & Hdat). cbv zeta in *.
    do 2 (split; [done |]). rewrite (rs_waitq _ _ _ _ _ Hrs), decide_True by done. split; [| split; [done |]].
    + split; [done | done | done | by rewrite length_app | apply Hrs | done].
    + unfold slab_alloc_return. by rewrite Hret, Hdat.
Qed.

End Proofs.

(** ** Concrete runs *)

#[local] Existing Instance default_kconfig | 100.

(** Three blocks of 16 bytes at 64; the second one is used. *)
Definition slab3 : k_mem_slab := mk_slab (inr 5%nat) 64 64 (mk_slab_info 3 16 1 1).
Definition slab_mem : mem := λ a, if a =? 64 then 96 else 0.
(** All three blocks are used. *)
Definition slab_full : k_mem_slab := mk_slab (inr 5%nat) 64 0 (mk_slab_info 3 16 3 3).

Lemma slab3_inv : slab_inv slab3 slab_mem two_threads [64; 96] [80].
Proof.
  split; [split; by vm_compute | by_compute | | reflexivity | apply two_threads_inv |].
  - change (all_blocks slab3) with [64; 80; 96]. constructor. apply perm_swap.
  - assert (waitq two_threads (slab_wait_q slab3) = []) as -> by by_compute. done.
Qed.

Lemma slab_full_inv : slab_inv slab_full slab_mem one_waiting [] ([64] ++ 80 :: [96]).
Proof. split; [split; by vm_compute | by_compute | done | reflexivity | apply one_waiting_inv | done]. Qed.

Lemma slab_init_spec_witness :
  ∃ rc slab' m' s', k_mem_slab_init true 5 slab_full 64 16 3 slab_mem two_threads = Some (rc, slab', m', s') /\ rc = 0.
Proof.
  destruct (slab_init_spec true slab_full 64 16 3 slab_mem two_threads 5 two_threads_inv ltac:(by_compute) ltac:(vm_compute; lia)
    ltac:(lia) ltac:(lia) ltac:(lia)) as (rc & slab' & m' & s' & Hrun & H).
  exists rc, slab', m', s'. split; [exact Hrun |]. rewrite decide_True in H by reflexivity. apply H.
Defined.

Lemma slab_alloc_spec_witness :
  let '(o, mem, slab', s') := k_mem_slab_alloc true slab3 50 slab_mem two_threads in
  o = Returns 0 /\ mem = 64 /\ slab_inv slab' slab_mem s' [96] [64; 80].
Proof.
  pose proof (slab_alloc_spec true slab3 50 slab_mem two_threads _ _ slab3_inv ltac:(by_compute) ltac:(by split)) as H.
  destruct (k_mem_slab_alloc true slab3 50 slab_mem two_threads) as [[[o mem] slab'] s'].
  destruct H as (-> & -> & _ & _ & H & _). split; [reflexivity |]. split; [reflexivity | exact H].
Defined.

Lemma slab_free_spec_witness :
  let '(_, _, s') := k_mem_slab_free slab_full 80 slab_mem one_waiting in slab_alloc_return s' 2 = (0, Some 80).
Proof.
  pose proof (slab_free_spec slab_full 80 slab_mem one_waiting [] [64] [96] slab_full_inv ltac:(by_compute)) as H.
  assert (waitq one_waiting (slab_wait_q slab_full) = [2%nat]) as E by by_compute. rewrite E in H. clear E.
  destruct (k_mem_slab_free slab_full 80 slab_mem one_waiting) as [[slab' m'] s']. apply H.
Defined.
