(* ===== verification/Timer.v ===== *)
(** * Kernel timers (kernel/timer.c)

    A timer's timeout is in the kernel's timeout queue under its own key; the
    clock interrupt runs the expiration handlers of threads and timers from
    [sys_clock_announce].  User callbacks are a parameter. *)

From Stdlib Require Import ZArith Lia Bool.
From stdpp Require Import base numbers list gmap sets.
From S2P Require Import Prelude TimeoutQ Kernel PrioQ Sched SchedInv SchedOps Threads WaitApi.

Open Scope Z_scope.

(** ** [struct k_timer] and the system state *)

(** [F] are the addresses of callbacks. *)
Record k_timer (F : Type) := mk_timer {
  timer_wait_q : wqid;
  expiry_fn : option F;
  stop_fn : option F;
  period : Z;
  status : Z;
  user_data : Z
}.
Arguments mk_timer {F}.
Arguments timer_wait_q {F}.
Arguments expiry_fn {F}.
Arguments stop_fn {F}.
Arguments period {F}.
Arguments status {F}.
Arguments user_data {F}.

Record clock_sys (F : Type) := mk_sys { kern : z_kernel; timers : gmap nat (k_timer F) }.
Arguments mk_sys {F}.
Arguments kern {F}.
Arguments timers {F}.

(** The timeout embedded in timer [n]. *)
Definition timer_timeout (n : nat) : tkey := inr n.

Section Ops.
Context {cfg : Kconfig} {F : Type}.
Context (call : F -> nat -> clock_sys F -> clock_sys F).
Implicit Types (sys : clock_sys F) (n : nat).

#[local] Instance k_timer_inhabited : Inhabited (k_timer F) := populate (mk_timer (inr 0%nat) None None 0 0 0).

Definition set_kern (s : z_kernel) sys : clock_sys F := mk_sys s (timers sys).
Definition upd_kern (f : z_kernel -> z_kernel) sys : clock_sys F := set_kern (f (kern sys)) sys.
Definition timer sys n : k_timer F := timers sys !!! n.
Definition upd_timer n (f : k_timer F -> k_timer F) sys : clock_sys F :=
  mk_sys (kern sys) (<[n := f (timer sys n)]> (timers sys)).

Definition set_period (v : Z) (t : k_timer F) : k_timer F :=
  mk_timer (timer_wait_q t) (expiry_fn t) (stop_fn t) v (status t) (user_data t).
Definition set_status (v : Z) (t : k_timer F) : k_timer F :=
  mk_timer (timer_wait_q t) (expiry_fn t) (stop_fn t) (period t) v (user_data t).
Definition set_user_data (v : Z) (t : k_timer F) : k_timer F :=
  mk_timer (timer_wait_q t) (expiry_fn t) (stop_fn t) (period t) (status t) v.

Definition z_impl_k_uptime_ticks sys : Z := s64 (sys_clock_tick_get (timeouts (kern sys))).

Definition K_TIMEOUT_ABS_TICKS (t : Z) : Z := Z_TICK_ABS (Z.max t 0).

Definition add_timer_timeout n (timeout : Z) sys : clock_sys F :=
  upd_kern (λ s, set_timeouts (z_add_timeout SYSTEM_CLOCK_SLOPPY_IDLE (timer_timeout n) timeout (timeouts s)) s) sys.

Definition abort_timer_timeout n sys : Z * clock_sys F :=
  let '(ret, q) := z_abort_timeout (timer_timeout n) (timeouts (kern sys)) in
  (ret, upd_kern (set_timeouts q) sys).

Definition z_timer_expiration_handler n sys : clock_sys F :=
  if is_linked (timer_timeout n) (timeouts (kern sys)) then sys
  else
    let sys :=
      if negb (K_TIMEOUT_EQ (period (timer sys n)) K_NO_WAIT) && negb (K_TIMEOUT_EQ (period (timer sys n)) K_FOREVER) then
        let next := Z.max (period (timer sys n) - 1) 0 in
        let next := K_TIMEOUT_ABS_TICKS (s64 (z_impl_k_uptime_ticks sys + 1 + next)) in
        add_timer_timeout n next sys
      else sys in
    let sys := upd_timer n (λ t, set_status (u32 (status t + 1)) t) sys in
    let sys := match expiry_fn (timer sys n) with Some fn => call fn n sys | None => sys end in
    match z_waitq_head (kern sys) (timer_wait_q (timer sys n)) with
    | None => sys
    | Some thread =>
        let s := z_unpend_thread_no_timeout thread (kern sys) in
        let s := arch_thread_return_value_set thread 0 s in
        set_kern (z_ready_thread thread s) sys
    end.

(** [t->fn(t)] of a timeout: a thread's or a timer's. *)
Definition timeout_fn (t : tkey) sys : clock_sys F :=
  match t with
  | inl thread => upd_kern (z_thread_timeout thread) sys
  | inr n => z_timer_expiration_handler n sys
  end.

(** The clock interrupt. *)
Definition clock_announce (fuel : nat) (ticks : Z) sys : option (clock_sys F * list (tkey * Z)) :=
  sys_clock_announce SYSTEM_CLOCK_SLOPPY_IDLE (λ sys, timeouts (kern sys)) (λ q, upd_kern (set_timeouts q))
    timeout_fn fuel ticks sys.

(** For a timer whose timeout is not in the queue, as [z_init_timeout] leaves it. *)
Definition k_timer_init n (expiry stop : option F) sys : clock_sys F :=
  let sys := mk_sys (kern sys)
    (<[n := mk_timer (timer_wait_q (timer sys n)) expiry stop (period (timer sys n)) 0 0]> (timers sys)) in
  upd_kern (z_waitq_init (timer_wait_q (timer sys n))) sys.

Definition z_impl_k_timer_start n (duration new_period : Z) sys : clock_sys F :=
  if K_TIMEOUT_EQ duration K_FOREVER then sys
  else
    let duration := if Z_TICK_ABS duration <? 0 then Z.max (duration - 1) 0 else duration in
    let sys := (abort_timer_timeout n sys).2 in
    let sys := upd_timer n (set_period new_period) sys in
    let sys := upd_timer n (set_status 0) sys in
    add_timer_timeout n duration sys.

Definition z_impl_k_timer_stop n sys : clock_sys F :=
  let '(ret, sys) := abort_timer_timeout n sys in
  let inactive := negb (ret =? 0) in
  if inactive then sys
  else
    let sys := match stop_fn (timer sys n) with Some fn => call fn n sys | None => sys end in
    match z_unpend1_no_timeout (timer_wait_q (timer sys n)) (kern sys) with
    | (Some pending_thread, s) => set_kern (z_reschedule_unlocked (z_ready_thread pending_thread s)) sys
    | (None, s) => set_kern s sys
    end.

Definition z_impl_k_timer_status_get n sys : Z * clock_sys F :=
  (status (timer sys n), upd_timer n (set_status 0) sys).

(** Up to the context switch. *)
Definition z_impl_k_timer_status_sync n sys : outcome * clock_sys F :=
  let result := status (timer sys n) in
  if (result =? 0) && negb (z_is_inactive_timeout (timer_timeout n) (timeouts (kern sys))) then
    (Blocks, upd_kern (z_pend_curr (timer_wait_q (timer sys n)) K_FOREVER) sys)
  else (Returns result, upd_timer n (set_status 0) sys).

(** The rest of a call that waited, once the thread runs again. *)
Definition timer_status_sync_resume n sys : Z * clock_sys F :=
  (status (timer sys n), upd_timer n (set_status 0) sys).

Definition z_impl_k_timer_expires_ticks n sys : Z := z_timeout_expires (timer_timeout n) (timeouts (kern sys)).

Definition z_impl_k_timer_remaining_ticks n sys : Z := z_timeout_remaining (timer_timeout n) (timeouts (kern sys)).

Definition z_impl_k_timer_user_data_set n (v : Z) sys : clock_sys F := upd_timer n (set_user_data v) sys.

Definition z_impl_k_timer_user_data_get n sys : Z := user_data (timer sys n).

End Ops.

(** ** Starting *)

Section Proofs.
Context {cfg : Kconfig} {F : Type}.
Context (call : F -> nat -> clock_sys F -> clock_sys F).
Implicit Types (sys : clock_sys F) (n : nat).

Abbreviation tmo sys := (timeouts (kern sys)).

Lemma tick_abs_involutive t : Z_TICK_ABS (Z_TICK_ABS t) = t.
Proof. unfold Z_TICK_ABS. lia. Qed.

Lemma tmo_add n timeout sys :
  tmo (add_timer_timeout n timeout sys) = z_add_timeout SYSTEM_CLOCK_SLOPPY_IDLE (timer_timeout n) timeout (tmo sys).
Proof. done. Qed.

Lemma abort_timer n sys :
  (abort_timer_timeout n sys).1 = (z_abort_timeout (timer_timeout n) (tmo sys)).1 /\
  tmo (abort_timer_timeout n sys).2 = (z_abort_timeout (timer_timeout n) (tmo sys)).2 /\
  timers (abort_timer_timeout n sys).2 = timers sys.
Proof. unfold abort_timer_timeout. by destruct (z_abort_timeout (timer_timeout n) (tmo sys)). Qed.

Lemma timer_upd n f sys : timer (upd_timer n f sys) n = f (timer sys n).
Proof. unfold timer, upd_timer. simpl. apply lookup_total_insert_eq. Qed.

Lemma filter_abs_insert (to : tkey) e (l : list (tkey * Z)) :
  filter (λ ke, ke.1 ≠ to) (abs_insert to e l) = filter (λ ke, ke.1 ≠ to) l.
Proof.
  induction l as [| [k x] l IH]; simpl; [by rewrite filter_cons_False by naive_solver |].
  case_match; [by rewrite filter_cons_False by naive_solver |]. rewrite !filter_cons, IH. done.
Qed.

(** Starting a timer arms it for the tick asked for, counted from now for a
    relative duration (at least one tick ahead), replacing any earlier expiry,
    and clears its status; no other timeout moves. *)
Theorem timer_start_spec n duration new_period sys :
  tq_wf (tmo sys) -> - 2 ^ 60 <= duration < 2 ^ 60 -> duration ≠ K_FOREVER ->
  let sys' := z_impl_k_timer_start n duration new_period sys in
  tq_wf (tmo sys') /\
  z_impl_k_timer_expires_ticks n sys' =
    (if Z_TICK_ABS duration <? 0 then curr_tick (tmo sys) + elapsed (tmo sys) + Z.max duration 1
     else Z.max (curr_tick (tmo sys) + 1) (Z_TICK_ABS duration)) /\
  filter (λ ke, ke.1 ≠ timer_timeout n) (expiries (tmo sys')) = filter (λ ke, ke.1 ≠ timer_timeout n) (expiries (tmo sys)) /\
  period (timer sys' n) = new_period /\ status (timer sys' n) = 0.
Proof.
  intros Hwf Hd Hf. cbv zeta. unfold z_impl_k_timer_start, K_TIMEOUT_EQ. rewrite (proj2 (Z.eqb_neq duration K_FOREVER)) by done.
  set (d := if Z_TICK_ABS duration <? 0 then Z.max (duration - 1) 0 else duration).
  destruct (abort_timer n sys) as (_ & Hq & Ht). set (sys1 := (abort_timer_timeout n sys).2) in *.
  destruct (z_abort_timeout_ok (timer_timeout n) (tmo sys) Hwf) as (Hwf1 & _ & He1). rewrite <- Hq in Hwf1, He1.
  set (sys2 := upd_timer n (set_status 0) (upd_timer n (set_period new_period) sys1)).
  change (tmo sys1) with (tmo sys2) in *.
  assert (is_linked (timer_timeout n) (tmo sys2) = false) as Hl.
  { rewrite Hq, is_linked_abort by apply Hwf. rewrite bool_decide_false by auto. by rewrite andb_false_r. }
  assert (- 2 ^ 60 <= d < 2 ^ 60 /\ d ≠ K_FOREVER) as [Hd1 Hd2].
  { unfold d, Z_TICK_ABS, K_FOREVER, K_TICKS_FOREVER in *. destruct (Z.ltb_spec (-1 - 1 - duration) 0); lia. }
  destruct (z_add_timeout_ok SYSTEM_CLOCK_SLOPPY_IDLE (timer_timeout n) d (tmo sys2) Hwf1 Hl Hd1 Hd2) as [Hwf2 He2].
  rewrite tmo_add. split; [done |]. split; [| split].
  - unfold z_impl_k_timer_expires_ticks. rewrite tmo_add. rewrite (expires_ok _ _ _ Hwf2 ltac:(rewrite He2; apply abs_insert_elem)).
    assert (curr_tick (tmo sys2) = curr_tick (tmo sys) /\ elapsed (tmo sys2) = elapsed (tmo sys)) as [Hc Hel].
    { rewrite Hq. unfold z_abort_timeout, elapsed. by case_match. }
    unfold requested_expiry. rewrite Hc, Hel. unfold d, Z_TICK_ABS, K_FOREVER, K_TICKS_FOREVER in *.
    destruct (Z.ltb_spec (-1 - 1 - duration) 0).
    + destruct (Z.geb_spec (-1 - 1 - Z.max (duration - 1) 0) 0); lia.
    + destruct (Z.geb_spec (-1 - 1 - duration) 0); lia.
  - rewrite He2, filter_abs_insert, He1, list_filter_filter. apply filter_ext_elem. naive_solver.
  - change (timer (add_timer_timeout n d sys2) n) with (timer sys2 n). unfold sys2. by rewrite !timer_upd.
Qed.

(** ** Periodic expiry *)

(** Callbacks that make no kernel calls. *)
Definition neutral_callbacks : Prop := ∀ f k sys, call f k sys = sys.

(** The handler of a periodic timer nobody waits for: it is armed for [p] ticks
    from the present uptime and counts the expiry. *)
Lemma handler_periodic n sys p :
  neutral_callbacks -> period (timer sys n) = p -> 1 <= p < 2 ^ 59 ->
  waitq (kern sys) (timer_wait_q (timer sys n)) = [] ->
  is_linked (timer_timeout n) (tmo sys) = false ->
  0 <= curr_tick (tmo sys) < 2 ^ 59 -> 0 <= elapsed (tmo sys) < 2 ^ 31 ->
  z_timer_expiration_handler call n sys =
  upd_timer n (λ t, set_status (u32 (status t + 1)) t)
    (add_timer_timeout n (Z_TICK_ABS (curr_tick (tmo sys) + elapsed (tmo sys) + p)) sys).
Proof.
  intros Hcb Hp Hpr Hw Hl Hc He. unfold z_timer_expiration_handler. rewrite Hl, Hp. unfold K_TIMEOUT_EQ, K_NO_WAIT, K_FOREVER, K_TICKS_FOREVER.
  rewrite (proj2 (Z.eqb_neq p 0)), (proj2 (Z.eqb_neq p (-1))) by lia. cbn [negb andb]. cbv zeta.
  assert (K_TIMEOUT_ABS_TICKS (s64 (z_impl_k_uptime_ticks sys + 1 + Z.max (p - 1) 0)) =
    Z_TICK_ABS (curr_tick (tmo sys) + elapsed (tmo sys) + p)) as ->.
  { unfold K_TIMEOUT_ABS_TICKS, z_impl_k_uptime_ticks, sys_clock_tick_get.
    rewrite u64_small, (s64_small (curr_tick _ + _)), s64_small by lia. f_equal. lia. }
  set (sys1 := upd_timer n _ _). assert ((match expiry_fn (timer sys1 n) with Some fn => call fn n sys1 | None => sys1 end) = sys1) as ->.
  { case_match; [apply Hcb | done]. }
  unfold sys1 at 2. rewrite timer_upd. unfold z_waitq_head.
  assert (waitq (kern sys1) (timer_wait_q (set_status (u32 (status (timer (add_timer_timeout n (Z_TICK_ABS (curr_tick (tmo sys) + elapsed (tmo sys) + p)) sys) n) + 1)) (timer (add_timer_timeout n (Z_TICK_ABS (curr_tick (tmo sys) + elapsed (tmo sys) + p)) sys) n))) = []) as ->; [exact Hw | done].
Qed.

(** Re-arming by [p] ticks puts the timer [p] ticks after the current tick. *)
Lemma rearm_empty n (q : timeout_state tkey) p SLOPPY :
  timeout_list q = [] -> announce_remaining q ≠ 0 -> 0 <= curr_tick q < 2 ^ 59 -> 1 <= p < 2 ^ 59 ->
  z_add_timeout SLOPPY (timer_timeout n) (Z_TICK_ABS (curr_tick q + elapsed q + p)) q =
  set_timeout_list [(timer_timeout n, p)] q.
Proof.
  intros Hl Ha Hc Hp. unfold elapsed. rewrite (proj2 (Z.eqb_neq _ _) Ha). unfold z_add_timeout, K_TIMEOUT_EQ, timeout_dticks.
  rewrite tick_abs_involutive.
  destruct (Z.eqb_spec (Z_TICK_ABS (curr_tick q + 0 + p)) K_FOREVER) as [E | _].
  { unfold Z_TICK_ABS, K_FOREVER, K_TICKS_FOREVER in E. lia. }
  destruct (Z.geb_spec (curr_tick q + 0 + p) 0); [| lia].
  rewrite s64_small by lia. replace (Z.max 1 (curr_tick q + 0 + p - curr_tick q)) with p by lia.
  rewrite Hl. cbn [insert_timeout]. cbv zeta. cbn [announce_remaining set_timeout_list].
  by rewrite (proj2 (Z.eqb_neq _ _) Ha), andb_false_r.
Qed.

(** How often a timer due in [d] ticks, then every [p] ticks, expires within
    [r] ticks. *)
Definition expirations (d p r : Z) : Z := if r <? d then 0 else (r - d) / p + 1.

Lemma expirations_step d p r : 1 <= p -> d <= r -> expirations d p r = 1 + expirations p p (r - d).
Proof.
  intros Hp Hd. unfold expirations. destruct (Z.ltb_spec r d); [lia |].
  destruct (Z.ltb_spec (r - d) p).
  - rewrite Z.div_small by lia. lia.
  - replace (r - d - p) with (r - d + (-1) * p) by lia. rewrite Z.div_add by lia. lia.
Qed.

Definition expiry_trace n (c d p r : Z) : list (tkey * Z) :=
  (λ i, (timer_timeout n, c + d + i * p)) <$> seqZ 0 (expirations d p r).

Lemma expirations_nonneg d p r : 1 <= p -> 0 <= expirations d p r.
Proof.
  intros Hp. unfold expirations. destruct (Z.ltb_spec r d); [lia |]. assert (0 <= (r - d) / p) by (apply Z.div_pos; lia). lia.
Qed.

Lemma expiry_trace_step n c d p r :
  1 <= p -> d <= r -> expiry_trace n c d p r = (timer_timeout n, c + d) :: expiry_trace n (c + d) p p (r - d).
Proof.
  intros Hp Hd. unfold expiry_trace. pose proof (expirations_nonneg p p (r - d) Hp).
  rewrite expirations_step by done. rewrite seqZ_cons by lia.
  replace (Z.pred (1 + expirations p p (r - d))) with (expirations p p (r - d)) by lia.
  csimpl. f_equal; [f_equal; lia |]. change (Z.succ 0) with (1 + 0). rewrite <- (fmap_add_seqZ 1 0), <- list_fmap_compose.
  apply list_fmap_ext. intros i x _. simpl. f_equal. lia.
Qed.

(** [sys'] agrees with [sys] but for the timeout queue and the status of timer
    [n], which has gone up by [k]. *)
Record expired n (k : Z) sys sys' : Prop := {
  ex_period : period (timer sys' n) = period (timer sys n);
  ex_waitq : timer_wait_q (timer sys' n) = timer_wait_q (timer sys n);
  ex_kern : ∀ w, waitq (kern sys') w = waitq (kern sys) w;
  ex_status : status (timer sys' n) = u32 (status (timer sys n) + k)
}.

Lemma wrap_add w a b : 0 <= w -> wrap_u w (wrap_u w a + b) = wrap_u w (a + b).
Proof. intros Hw. unfold wrap_u. apply Zplus_mod_idemp_l. Qed.

Lemma periodic_loop n p fuel sys :
  neutral_callbacks -> 1 <= p < 2 ^ 59 ->
  period (timer sys n) = p -> waitq (kern sys) (timer_wait_q (timer sys n)) = [] ->
  0 <= status (timer sys n) < 2 ^ 32 ->
  ∀ d, timeout_list (tmo sys) = [(timer_timeout n, d)] -> 1 <= d < 2 ^ 59 ->
  0 <= announce_remaining (tmo sys) < 2 ^ 31 -> 0 <= curr_tick (tmo sys) -> curr_tick (tmo sys) + announce_remaining (tmo sys) < 2 ^ 58 ->
  (Z.to_nat (announce_remaining (tmo sys)) < fuel)%nat ->
  let c := curr_tick (tmo sys) in let r := announce_remaining (tmo sys) in let k := expirations d p r in
  exists sys', announce_loop (λ sys, tmo sys) (λ q, upd_kern (set_timeouts q)) (timeout_fn call) fuel sys =
      Some (sys', expiry_trace n c d p r) /\
    expired n k sys sys' /\
    exists d', timeout_list (tmo sys') = [(timer_timeout n, d')] /\
      curr_tick (tmo sys') + announce_remaining (tmo sys') = c + r /\ curr_tick (tmo sys') + d' = c + d + k * p /\
      0 <= announce_remaining (tmo sys') < d' /\ d' < 2 ^ 59 /\ c <= curr_tick (tmo sys') /\
      sys_clock_elapsed (tmo sys') = sys_clock_elapsed (tmo sys).
Proof.
  intros Hcb Hp. revert sys. induction fuel as [| fuel IH]; intros sys Hper Hw Hst d Hq Hd Ha Hc Hb Hf; [lia |]. cbv zeta.
  cbn [announce_loop]. unfold first. rewrite Hq. cbn [head].
  set (c := curr_tick (tmo sys)) in *. set (r := announce_remaining (tmo sys)) in *.
  destruct (Z.leb_spec d r) as [Hdr | Hdr].
  - set (q1 := announce_pop (timer_timeout n) (s32 d) (tmo sys)).
    assert (s32 d = d) as Hs32 by (apply s32_small; lia).
    assert (timeout_list q1 = [] /\ curr_tick q1 = c + d /\ announce_remaining q1 = r /\ sys_clock_elapsed q1 = sys_clock_elapsed (tmo sys)) as (Q1 & Q2 & Q3 & Q4).
    { unfold q1, announce_pop. rewrite Hs32, Hq. simpl. rewrite decide_True by done. rewrite u64_small by (unfold c; lia). done. }
    set (sys1 := upd_kern (set_timeouts q1) sys). assert (tmo sys1 = q1) as Hq1 by done.
    assert (elapsed q1 = 0) as He by (unfold elapsed; rewrite Q3, (proj2 (Z.eqb_neq r 0)) by lia; done).
    cbn [timeout_fn timer_timeout]. change (inr n) with (timer_timeout n).
    rewrite (handler_periodic n sys1 p Hcb Hper Hp Hw); rewrite ?Hq1; [| unfold is_linked; by rewrite Q1 | lia | lia].
    set (sys2 := upd_timer n _ _).
    assert (tmo sys2 = set_timeout_list [(timer_timeout n, p)] q1) as Hq2.
    { change (tmo sys2) with (tmo (add_timer_timeout n (Z_TICK_ABS (curr_tick q1 + elapsed q1 + p)) sys1)).
      rewrite tmo_add, Hq1. apply rearm_empty; [done | lia | lia | lia]. }
    rewrite Hq2. cbn [announce_remaining set_timeout_list]. rewrite Q3, Hs32.
    set (sys3 := upd_kern _ sys2).
    assert (tmo sys3 = set_announce_remaining (r - d) (set_timeout_list [(timer_timeout n, p)] q1)) as Hq3.
    { unfold sys3. cbn [kern upd_kern set_kern timeouts set_timeouts]. by rewrite s32_small by lia. }
    assert (timer sys3 n = set_status (u32 (status (timer sys n) + 1)) (timer sys n)) as Ht3.
    { change (timer sys3 n) with (timer sys2 n). unfold sys2. by rewrite timer_upd. }
    pose proof (wrap_u_bound 32 (status (timer sys n) + 1) ltac:(lia)) as Hsb.
    destruct (IH sys3) with (d := p) as (sys' & Hrun & [E1 E2 E3 E4] & d' & D1 & D2 & D3 & D4 & D5 & D6 & D7);
      rewrite ?Ht3, ?Hq3; cbn [announce_remaining curr_tick timeout_list set_announce_remaining set_timeout_list period timer_wait_q status set_status];
      try done; try lia.
    rewrite Hq3 in Hrun, E4, D2, D3, D6, D7.
    cbn [announce_remaining curr_tick set_announce_remaining set_timeout_list sys_clock_elapsed] in Hrun, E4, D2, D3, D6, D7.
    rewrite Q2 in Hrun, D2, D3, D6. rewrite Hrun. cbn [mbind option_bind]. exists sys'. rewrite Q2.
    rewrite (expiry_trace_step n c d p r), (expirations_step d p r) by lia. split; [done |]. split.
    + split; [by rewrite E1, Ht3 | by rewrite E2, Ht3 | intros w; by rewrite E3 |].
      rewrite E4, Ht3. cbn [status set_status]. rewrite wrap_add by lia. f_equal. lia.
    + exists d'. split; [done |]. split; [lia |]. split; [lia |]. split; [done |]. split; [done |]. split; [lia | congruence].
  - assert (expirations d p r = 0) as Hk by (unfold expirations; destruct (Z.ltb_spec r d); [done | lia]).
    exists sys. unfold expiry_trace. rewrite Hk. split; [done |]. split.
    + split; try done. rewrite Z.add_0_r, wrap_u_id; [done | lia].
    + exists d. fold c r. split; [done |]. split_and!; (done || lia).
Qed.

(** C18: A periodic timer that is the only timeout in the queue, on which no
    thread waits, and whose expiry function changes nothing of the kernel
    ([neutral_callbacks]) does not drift: however many ticks the clock announces
    at once, and however late, the timer expires at its first expiry and then
    at every multiple of its period after it, once each, as many times as fit;
    its status counts them, and it stays armed for the next multiple.  (With a
    second timer on the same tick it can drift, see [timer_same_tick_drift].) *)
Theorem timer_periodic_no_drift n d p ticks fuel sys :
  neutral_callbacks -> 1 <= p < 2 ^ 59 -> 1 <= d < 2 ^ 59 -> 0 <= ticks < 2 ^ 31 ->
  period (timer sys n) = p -> waitq (kern sys) (timer_wait_q (timer sys n)) = [] ->
  0 <= status (timer sys n) < 2 ^ 32 -> timeout_list (tmo sys) = [(timer_timeout n, d)] ->
  0 <= curr_tick (tmo sys) -> curr_tick (tmo sys) + ticks < 2 ^ 58 -> (Z.to_nat ticks < fuel)%nat ->
  let c := curr_tick (tmo sys) in
  let k := if ticks <? d then 0 else (ticks - d) / p + 1 in
  exists sys', clock_announce call fuel ticks sys =
      Some (sys', (λ i, (timer_timeout n, c + d + i * p)) <$> seqZ 0 k) /\
    curr_tick (tmo sys') = c + ticks /\ status (timer sys' n) = u32 (status (timer sys n) + k) /\
    z_impl_k_timer_expires_ticks n sys' = c + d + k * p.
Proof.
  intros Hcb Hp Hd Ht Hper Hw Hst Hq Hc Hb Hf. cbv zeta. unfold clock_announce, sys_clock_announce.
  set (sys0 := upd_kern _ sys).
  destruct (periodic_loop n p fuel sys0 Hcb Hp) with (d := d) as (sys1 & Hrun & [_ _ _ Hst1] & d' & D1 & D2 & D3 & D4 & D5 & D6 & _);
    try done. cbn in Hrun, D2, D3, D6.
  unfold expiry_trace, expirations in *. rewrite Hrun. cbn [mbind option_bind].
  set (k := if ticks <? d then 0 else _) in *. eexists. split; [done |].
  set (q2 := announce_finish SYSTEM_CLOCK_SLOPPY_IDLE (tmo sys1)).
  assert (s64 (d' - announce_remaining (tmo sys1)) = d' - announce_remaining (tmo sys1)) as Hs by (apply s64_small; lia).
  assert (timeout_list q2 = [(timer_timeout n, d' - announce_remaining (tmo sys1))] /\ curr_tick q2 = curr_tick (tmo sys) + ticks) as [L2 C2].
  { unfold q2, announce_finish. rewrite D1, Hs. cbn. split; [done |]. rewrite u64_small by lia. lia. }
  split; [exact C2 |]. split; [exact Hst1 |]. unfold z_impl_k_timer_expires_ticks. change (tmo (upd_kern (set_timeouts q2) sys1)) with q2.
  unfold z_timeout_expires, z_is_inactive_timeout, is_linked, timeout_rem. rewrite L2, C2. csimpl. rewrite bool_decide_true by set_solver.
  cbn [negb timeout_rem_loop]. rewrite decide_True by done.
  rewrite (s64_small (0 + _)), (s64_small (curr_tick (tmo sys) + ticks)), s64_small by lia. lia.
Qed.

(** Two timers on the same tick: the second one fires when nothing remains to
    be announced. *)
Lemma rearm_second n1 n2 (q : timeout_state tkey) p1 p2 SLOPPY :
  n1 ≠ n2 -> timeout_list q = [(timer_timeout n1, p1)] -> announce_remaining q = 0 ->
  0 <= curr_tick q < 2 ^ 58 -> 0 <= sys_clock_elapsed q < 2 ^ 31 -> 1 <= p1 < 2 ^ 58 -> 1 <= p2 < 2 ^ 58 ->
  let q' := z_add_timeout SLOPPY (timer_timeout n2) (Z_TICK_ABS (curr_tick q + elapsed q + p2)) q in
  curr_tick q' = curr_tick q /\ announce_remaining q' = 0 /\
  expiries q' = abs_insert (timer_timeout n2) (curr_tick q + sys_clock_elapsed q + p2) [(timer_timeout n1, curr_tick q + p1)] /\ tq_wf q'.
Proof.
  intros Hne Hl Ha Hc He Hp1 Hp2. cbv zeta.
  assert (tq_wf q) as Hwf.
  { split; rewrite ?Hl, ?Ha; csimpl; try lia; [apply NoDup_singleton | repeat constructor; simpl; lia]. }
  assert (elapsed q = sys_clock_elapsed q) as Hel by (unfold elapsed; by rewrite Ha).
  assert (is_linked (timer_timeout n2) q = false) as Hlk.
  { unfold is_linked. rewrite Hl. csimpl. apply bool_decide_false. unfold timer_timeout. set_solver. }
  destruct (z_add_timeout_ok SLOPPY (timer_timeout n2) (Z_TICK_ABS (curr_tick q + elapsed q + p2)) q Hwf Hlk) as [Hwf' Hex];
    [unfold Z_TICK_ABS, K_TICKS_FOREVER; lia | unfold Z_TICK_ABS, K_FOREVER, K_TICKS_FOREVER; lia |].
  split; [| split; [| split; [| done]]].
  - unfold z_add_timeout. by repeat case_match.
  - unfold z_add_timeout. repeat case_match; done.
  - rewrite Hex. unfold requested_expiry. rewrite tick_abs_involutive. destruct (Z.geb_spec (curr_tick q + elapsed q + p2) 0); [| lia].
    rewrite Hel. unfold expiries. rewrite Hl. cbn [abs_list]. f_equal; lia.
Qed.

Lemma timer_upd_ne n m f sys : n ≠ m -> timer (upd_timer n f sys) m = timer sys m.
Proof. intros Hne. unfold timer, upd_timer. simpl. by rewrite lookup_total_insert_ne. Qed.

(** The first of two timers due on the last tick announced. *)
Lemma rearm_first n1 n2 (q : timeout_state tkey) p SLOPPY :
  timeout_list q = [(timer_timeout n2, 0)] -> announce_remaining q ≠ 0 -> 0 <= curr_tick q < 2 ^ 58 -> 1 <= p < 2 ^ 58 ->
  z_add_timeout SLOPPY (timer_timeout n1) (Z_TICK_ABS (curr_tick q + elapsed q + p)) q =
  set_timeout_list [(timer_timeout n2, 0); (timer_timeout n1, p)] q.
Proof.
  intros Hl Ha Hc Hp. unfold elapsed. rewrite (proj2 (Z.eqb_neq _ _) Ha). unfold z_add_timeout, K_TIMEOUT_EQ, timeout_dticks.
  rewrite tick_abs_involutive.
  destruct (Z.eqb_spec (Z_TICK_ABS (curr_tick q + 0 + p)) K_FOREVER) as [E | _].
  { unfold Z_TICK_ABS, K_FOREVER, K_TICKS_FOREVER in E. lia. }
  destruct (Z.geb_spec (curr_tick q + 0 + p) 0); [| lia].
  rewrite s64_small by lia. replace (Z.max 1 (curr_tick q + 0 + p - curr_tick q)) with p by lia.
  rewrite Hl. cbn [insert_timeout]. destruct (Z.gtb_spec 0 p); [lia |]. rewrite Z.sub_0_r, s64_small by lia. cbv zeta.
  cbn [announce_remaining set_timeout_list]. by rewrite (proj2 (Z.eqb_neq _ _) Ha), andb_false_r.
Qed.

(** One round of the announce loop on a periodic timer. *)
Lemma announce_round fuel n d l p sys :
  neutral_callbacks -> 1 <= p < 2 ^ 58 -> timeout_list (tmo sys) = (timer_timeout n, d) :: l -> timer_timeout n ∉ l.*1 ->
  period (timer sys n) = p -> waitq (kern sys) (timer_wait_q (timer sys n)) = [] ->
  0 <= d <= announce_remaining (tmo sys) -> announce_remaining (tmo sys) < 2 ^ 31 ->
  0 <= curr_tick (tmo sys) -> curr_tick (tmo sys) + d < 2 ^ 58 -> 0 <= sys_clock_elapsed (tmo sys) < 2 ^ 31 ->
  Forall (λ kd, 0 <= kd.2 < 2 ^ 58) l ->
  let q1 := set_timeout_list l (set_curr_tick (curr_tick (tmo sys) + d) (tmo sys)) in
  let q2 := z_add_timeout SYSTEM_CLOCK_SLOPPY_IDLE (timer_timeout n) (Z_TICK_ABS (curr_tick q1 + elapsed q1 + p)) q1 in
  exists sys', tmo sys' = set_announce_remaining (announce_remaining (tmo sys) - d) q2 /\
    (∀ m, m ≠ n -> timer sys' m = timer sys m) /\ (∀ w, waitq (kern sys') w = waitq (kern sys) w) /\
    announce_loop (λ sys, tmo sys) (λ q, upd_kern (set_timeouts q)) (timeout_fn call) (S fuel) sys =
    ('(sys'', fired) ← announce_loop (λ sys, tmo sys) (λ q, upd_kern (set_timeouts q)) (timeout_fn call) fuel sys';
     Some (sys'', (timer_timeout n, curr_tick (tmo sys) + d) :: fired)).
Proof.
  intros Hcb Hp Hq Hn Hper Hw Hd Hr Hc Hb He Hl. cbv zeta. set (q1 := set_timeout_list l _).
  assert (announce_pop (timer_timeout n) (s32 d) (tmo sys) = q1) as Hpop.
  { unfold announce_pop, q1. rewrite s32_small by lia. rewrite Hq. cbn [tail remove_timeout]. rewrite decide_True by done.
    rewrite u64_small by lia. f_equal. destruct l as [| [k2 d2] l]; [done |]. rewrite Z.add_0_r, s64_small; [done |].
    apply Forall_cons in Hl as [Hl _]. simpl in Hl. lia. }
  assert (elapsed q1 = 0 \/ elapsed q1 = sys_clock_elapsed (tmo sys)) as Hel by (unfold elapsed; case_match; auto).
  cbn [announce_loop]. unfold first. rewrite Hq. cbn [head]. rewrite (proj2 (Z.leb_le _ _)) by lia. rewrite Hpop.
  set (sys1 := upd_kern (set_timeouts q1) sys). assert (tmo sys1 = q1) as Hq1 by done.
  cbn [timeout_fn timer_timeout]. change (inr n) with (timer_timeout n).
  rewrite (handler_periodic n sys1 p Hcb Hper ltac:(lia) Hw); rewrite ?Hq1; [| | simpl; lia | lia].
  2:{ unfold is_linked. by apply bool_decide_false. }
  set (q2 := z_add_timeout _ _ _ q1). set (sys2 := upd_timer n _ _).
  assert (tmo sys2 = q2) as Hq2 by done. rewrite Hq2.
  assert (announce_remaining q2 = announce_remaining (tmo sys)) as Ha2 by (unfold q2, z_add_timeout; by repeat case_match).
  rewrite Ha2, (s32_small d), s32_small by lia. eexists. split; [| split; [| split; [| reflexivity]]].
  - reflexivity.
  - intros m Hm. change (timer (upd_kern ?f sys2) m) with (timer sys2 m). unfold sys2. by rewrite timer_upd_ne by done.
  - done.
Qed.

Lemma announce_loop_stop fuel sys :
  (∀ kd, head (timeout_list (tmo sys)) = Some kd -> announce_remaining (tmo sys) < kd.2) ->
  announce_loop (λ sys, tmo sys) (λ q, upd_kern (set_timeouts q)) (timeout_fn call) (S fuel) sys = Some (sys, []).
Proof.
  intros Hh. cbn [announce_loop]. unfold first. destruct (head (timeout_list (tmo sys))) as [[k dt] |]; [| done].
  specialize (Hh _ eq_refl). simpl in Hh. by rewrite (proj2 (Z.leb_gt _ _)) by lia.
Qed.

(** C39: Of two periodic timers due on the last announced tick, only the first
    keeps its period: when the second one's handler runs, no announced ticks
    remain, so its next expiry is counted from the hardware clock and comes as
    many ticks late as have elapsed since the announcement. *)
Theorem timer_same_tick_drift n1 n2 d p1 p2 sys fuel :
  neutral_callbacks -> n1 ≠ n2 -> 1 <= p1 < 2 ^ 58 -> 1 <= p2 < 2 ^ 58 -> 1 <= d < 2 ^ 31 ->
  period (timer sys n1) = p1 -> waitq (kern sys) (timer_wait_q (timer sys n1)) = [] ->
  period (timer sys n2) = p2 -> waitq (kern sys) (timer_wait_q (timer sys n2)) = [] ->
  timeout_list (tmo sys) = [(timer_timeout n1, d); (timer_timeout n2, 0)] ->
  0 <= curr_tick (tmo sys) -> curr_tick (tmo sys) + d < 2 ^ 58 -> 0 <= sys_clock_elapsed (tmo sys) < 2 ^ 31 ->
  let due := curr_tick (tmo sys) + d in
  exists sys', clock_announce call (S (S (S fuel))) d sys =
      Some (sys', [(timer_timeout n1, due); (timer_timeout n2, due)]) /\
    z_impl_k_timer_expires_ticks n1 sys' = due + p1 /\
    z_impl_k_timer_expires_ticks n2 sys' = due + sys_clock_elapsed (tmo sys) + p2.
Proof.
  intros Hcb Hne Hp1 Hp2 Hd Hper1 Hw1 Hper2 Hw2 Hq Hc Hb He. cbv zeta. unfold clock_announce, sys_clock_announce.
  set (sys0 := upd_kern _ sys). assert (timer_timeout n1 ≠ timer_timeout n2) as Hkne by (unfold timer_timeout; congruence).
  destruct (announce_round (S (S fuel)) n1 d [(timer_timeout n2, 0)] p1 sys0) as (sys1 & Hq1 & Ht1 & Hwq1 & ->);
    try done; try (cbn; lia); [csimpl; set_solver | repeat constructor; simpl; lia |].
  rewrite (rearm_first n1 n2) in Hq1 by (cbn; (done || lia)). cbn in Hq1. rewrite Z.sub_diag in Hq1.
  set (c := curr_tick (tmo sys)) in *. set (e := sys_clock_elapsed (tmo sys)) in *.
  destruct (announce_round (S fuel) n2 0 [(timer_timeout n1, p1)] p2 sys1) as (sys2 & Hq2 & Ht2 & Hwq2 & ->);
    rewrite ?Hq1; cbn [timeout_list curr_tick announce_remaining sys_clock_elapsed set_announce_remaining set_timeout_list set_curr_tick]; rewrite ?Ht1, ?Hwq1 by congruence; try done; try lia; [csimpl; set_solver | repeat constructor; simpl; lia |].
  rewrite Hq1 in Hq2. cbn in Hq2. rewrite Z.add_0_r in *.
  set (q1 := set_timeout_list [(timer_timeout n1, p1)] _) in Hq2.
  change (Z_TICK_ABS (c + d + sys_clock_elapsed (tmo sys) + p2)) with (Z_TICK_ABS (curr_tick q1 + elapsed q1 + p2)) in Hq2.
  destruct (rearm_second n1 n2 q1 p1 p2 SYSTEM_CLOCK_SLOPPY_IDLE) as (R1 & R2 & R3 & R4); try done; try (cbn; lia).
  set (q' := z_add_timeout _ _ _ q1) in *. change (curr_tick q1) with (c + d) in *. change (sys_clock_elapsed q1) with e in *.
  assert (tmo sys2 = q') as Hq2'.
  { rewrite Hq2. destruct q'. cbn in R2. by subst. }
  assert (∀ k x, (k, x) ∈ expiries q' -> c + d < x) as Hfut.
  { intros k x. rewrite R3. cbn [abs_insert]. case_match; rewrite !elem_of_cons, elem_of_nil; intros [? | [? | []]]; simplify_eq; lia. }
  assert (∀ kd, head (timeout_list q') = Some kd -> announce_remaining q' < kd.2) as Hhead.
  { intros [k x] Hh. destruct (timeout_list q') as [| kd l] eqn:Hl; [done |]. simplify_eq/=. rewrite R2.
    specialize (Hfut k (c + d + x)). unfold expiries in Hfut. rewrite Hl, R1 in Hfut. cbn [abs_list] in Hfut.
    specialize (Hfut ltac:(set_solver)). lia. }
  rewrite announce_loop_stop by (by rewrite Hq2'). cbn [mbind option_bind]. eexists. split; [reflexivity |].
  change (tmo (upd_kern (set_timeouts ?q) sys2)) with q. unfold z_impl_k_timer_expires_ticks.
  change (tmo (upd_kern (set_timeouts ?q) sys2)) with q. rewrite Hq2'.
  destruct (announce_finish_ok SYSTEM_CLOCK_SLOPPY_IDLE q' R4) as (Wf & Hexp & _ & _); [lia | done |].
  split; (apply expires_ok; [done |]); rewrite Hexp, R3; cbn [abs_insert]; case_match; set_solver.
Qed.

End Proofs.

(** ** Concrete runs *)

#[local] Existing Instance default_kconfig | 100.

Definition no_calls : unit -> nat -> clock_sys unit -> clock_sys unit := λ _ _ sys, sys.

(** Tick 100, 3 ticks into the future; timers 7 and 8 with periods 5 and 4. *)
Definition timer_sys (l : list (tkey * Z)) : clock_sys unit :=
  mk_sys (set_timeouts (mk_timeout_state l 100 0 3 0) two_threads)
    {[ 7%nat := mk_timer (inr 7%nat) (Some tt) None 5 0 0; 8%nat := mk_timer (inr 8%nat) None None 4 0 0 ]}.

Lemma timer_start_spec_witness :
  z_impl_k_timer_expires_ticks 7 (z_impl_k_timer_start 7 10 5 (timer_sys [(timer_timeout 8, 2)])) = 113.
Proof.
  assert (tq_wf (timeouts (kern (timer_sys [(timer_timeout 8, 2)])))) as Hwf.
  { split; simpl; [apply NoDup_singleton | repeat constructor; simpl; lia | lia..]. }
  exact (proj1 (proj2 (timer_start_spec 7 10 5 (timer_sys [(timer_timeout 8, 2)]) Hwf ltac:(lia) ltac:(discriminate)))).
Defined.

Lemma timer_periodic_no_drift_witness :
  ∃ sys', clock_announce no_calls 20 13 (timer_sys [(timer_timeout 7, 2)]) =
      Some (sys', [(timer_timeout 7, 102); (timer_timeout 7, 107); (timer_timeout 7, 112)]) /\
    curr_tick (timeouts (kern sys')) = 113 /\ status (timer sys' 7) = 3 /\ z_impl_k_timer_expires_ticks 7 sys' = 117.
Proof.
  apply (timer_periodic_no_drift no_calls 7 2 5 13 20 (timer_sys [(timer_timeout 7, 2)]));
    [by intros f k sys | lia | lia | lia | by_compute | by_compute | by vm_compute | reflexivity | by vm_compute | by vm_compute | lia].
Defined.

Lemma timer_same_tick_drift_witness :
  ∃ sys', clock_announce no_calls 3 2 (timer_sys [(timer_timeout 7, 2); (timer_timeout 8, 0)]) =
      Some (sys', [(timer_timeout 7, 102); (timer_timeout 8, 102)]) /\
    z_impl_k_timer_expires_ticks 7 sys' = 107 /\ z_impl_k_timer_expires_ticks 8 sys' = 109.
Proof.
  apply (timer_same_tick_drift no_calls 7 8 2 5 4 (timer_sys [(timer_timeout 7, 2); (timer_timeout 8, 0)]) 0);
    [by intros f k sys | discriminate | lia | lia | lia | by_compute | by_compute | by_compute | by_compute | reflexivity |
     by vm_compute | by vm_compute | by vm_compute].
Defined.
