(* ===== verification/RingBuffer.v ===== *)
(** * Ring buffers (lib/utils/ring_buffer.c, include/zephyr/sys/ring_buffer.h)

    A ring buffer keeps free-running 32-bit counters for its producer and its
    consumer; claims hand out parts of the storage without a copy.  Counters
    wrap at 2^32, their differences are taken modulo 2^32.  The buffer refines
    a byte queue with claims, and a queue of items on top of it. *)

From Stdlib Require Import ZArith Lia Bool Btauto.
From stdpp Require Import base numbers list.
From S2P Require Import Prelude Memory.

Open Scope Z_scope.

Definition EMSGSIZE : Z := 122.

Definition RING_BUFFER_MAX_SIZE : Z := 0x80000000.

(** ** [struct ring_buf] and its operations *)

Record ring_buf := mk_ring {
  rb_buffer : Z;
  put_head : Z;
  put_tail : Z;
  put_base : Z;
  get_head : Z;
  get_tail : Z;
  get_base : Z;
  rb_size : Z
}.

Definition set_put_head (v : Z) (b : ring_buf) : ring_buf :=
  mk_ring (rb_buffer b) v (put_tail b) (put_base b) (get_head b) (get_tail b) (get_base b) (rb_size b).
Definition set_put_tail (v : Z) (b : ring_buf) : ring_buf :=
  mk_ring (rb_buffer b) (put_head b) v (put_base b) (get_head b) (get_tail b) (get_base b) (rb_size b).
Definition set_put_base (v : Z) (b : ring_buf) : ring_buf :=
  mk_ring (rb_buffer b) (put_head b) (put_tail b) v (get_head b) (get_tail b) (get_base b) (rb_size b).
Definition set_get_head (v : Z) (b : ring_buf) : ring_buf :=
  mk_ring (rb_buffer b) (put_head b) (put_tail b) (put_base b) v (get_tail b) (get_base b) (rb_size b).
Definition set_get_tail (v : Z) (b : ring_buf) : ring_buf :=
  mk_ring (rb_buffer b) (put_head b) (put_tail b) (put_base b) (get_head b) v (get_base b) (rb_size b).
Definition set_get_base (v : Z) (b : ring_buf) : ring_buf :=
  mk_ring (rb_buffer b) (put_head b) (put_tail b) (put_base b) (get_head b) (get_tail b) v (rb_size b).

Section Ops.
Implicit Types (buf : ring_buf) (m : mem).

Definition ring_buf_internal_reset (value : Z) buf : ring_buf :=
  mk_ring (rb_buffer buf) value value value value value value (rb_size buf).

Definition ring_buf_init (size data : Z) buf : ring_buf :=
  ring_buf_internal_reset 0
    (mk_ring data (put_head buf) (put_tail buf) (put_base buf) (get_head buf) (get_tail buf) (get_base buf) size).

Definition ring_buf_item_init (size data : Z) buf : ring_buf := ring_buf_init (u32 (4 * size)) data buf.

Definition ring_buf_is_empty buf : bool := get_head buf =? put_tail buf.

Definition ring_buf_reset buf : ring_buf := ring_buf_internal_reset 0 buf.

Definition ring_buf_space_get buf : Z := u32 (rb_size buf - (put_head buf - get_tail buf)).

Definition ring_buf_item_space_get buf : Z := ring_buf_space_get buf / 4.

Definition ring_buf_capacity_get buf : Z := rb_size buf.

Definition ring_buf_size_get buf : Z := u32 (put_tail buf - get_head buf).

(** The number of bytes claimed, their address ([*data]), the buffer. *)
Definition ring_buf_put_claim buf (size : Z) : Z * Z * ring_buf :=
  let base := put_base buf in
  let wrap_size := u32 (put_head buf - base) in
  let '(wrap_size, base) :=
    if rb_size buf <=? wrap_size then (u32 (wrap_size - rb_size buf), s32 (base + rb_size buf)) else (wrap_size, base) in
  let wrap_size := u32 (rb_size buf - wrap_size) in
  let free_space := ring_buf_space_get buf in
  let size := Z.min size free_space in
  let size := Z.min size wrap_size in
  let data := rb_buffer buf + s32 (put_head buf - base) in
  (size, data, set_put_head (s32 (put_head buf + size)) buf).

Definition ring_buf_put_finish buf (size : Z) : Z * ring_buf :=
  let finish_space := u32 (put_head buf - put_tail buf) in
  if finish_space <? size then (- EINVAL, buf)
  else
    let buf := set_put_tail (s32 (put_tail buf + size)) buf in
    let buf := set_put_head (put_tail buf) buf in
    let wrap_size := u32 (put_tail buf - put_base buf) in
    let buf := if rb_size buf <=? wrap_size then set_put_base (s32 (put_base buf + rb_size buf)) buf else buf in
    (0, buf).

(** The copy loop of [ring_buf_put] and [ring_buf_item_put]: the total, what is
    left of [size], the buffer and the memory. *)
Fixpoint put_loop (fuel : nat) buf (data size total_size : Z) m : option (Z * Z * ring_buf * mem) :=
  match fuel with
  | O => None
  | S fuel =>
      let '(partial_size, dst, buf) := ring_buf_put_claim buf size in
      let m := memcpy dst data (Z.to_nat partial_size) m in
      let total_size := u32 (total_size + partial_size) in
      let size := u32 (size - partial_size) in
      let data := data + partial_size in
      if negb (size =? 0) && negb (partial_size =? 0)
      then put_loop fuel buf data size total_size m
      else Some (total_size, size, buf, m)
  end.

(** An iteration that goes on has claimed at least one byte. *)
Definition ring_buf_put buf (data size : Z) m : option (Z * ring_buf * mem) :=
  '(total_size, _, buf, m) ← put_loop (S (Z.to_nat size)) buf data size 0 m;
  Some (total_size, (ring_buf_put_finish buf total_size).2, m).

Definition ring_buf_get_claim buf (size : Z) : Z * Z * ring_buf :=
  let base := get_base buf in
  let wrap_size := u32 (get_head buf - base) in
  let '(wrap_size, base) :=
    if rb_size buf <=? wrap_size then (u32 (wrap_size - rb_size buf), s32 (base + rb_size buf)) else (wrap_size, base) in
  let wrap_size := u32 (rb_size buf - wrap_size) in
  let available_size := ring_buf_size_get buf in
  let size := Z.min size available_size in
  let size := Z.min size wrap_size in
  let data := rb_buffer buf + s32 (get_head buf - base) in
  (size, data, set_get_head (s32 (get_head buf + size)) buf).

Definition ring_buf_get_finish buf (size : Z) : Z * ring_buf :=
  let finish_space := u32 (get_head buf - get_tail buf) in
  if finish_space <? size then (- EINVAL, buf)
  else
    let buf := set_get_tail (s32 (get_tail buf + size)) buf in
    let buf := set_get_head (get_tail buf) buf in
    let wrap_size := u32 (get_tail buf - get_base buf) in
    let buf := if rb_size buf <=? wrap_size then set_get_base (s32 (get_base buf + rb_size buf)) buf else buf in
    (0, buf).

(** The copy loop of [ring_buf_get], [ring_buf_peek] and [ring_buf_item_get];
    a null [data] is [None]. *)
Fixpoint get_loop (fuel : nat) buf (data : option Z) (size total_size : Z) m : option (Z * ring_buf * mem) :=
  match fuel with
  | O => None
  | S fuel =>
      let '(partial_size, src, buf) := ring_buf_get_claim buf size in
      let '(data, m) :=
        match data with
        | Some data => (Some (data + partial_size), memcpy data src (Z.to_nat partial_size) m)
        | None => (None, m)
        end in
      let total_size := u32 (total_size + partial_size) in
      let size := u32 (size - partial_size) in
      if negb (size =? 0) && negb (partial_size =? 0)
      then get_loop fuel buf data size total_size m
      else Some (total_size, buf, m)
  end.

Definition ring_buf_get buf (data : option Z) (size : Z) m : option (Z * ring_buf * mem) :=
  '(total_size, buf, m) ← get_loop (S (Z.to_nat size)) buf data size 0 m;
  Some (total_size, (ring_buf_get_finish buf total_size).2, m).

Definition ring_buf_peek buf (data size : Z) m : option (Z * ring_buf * mem) :=
  let size := Z.min size (ring_buf_size_get buf) in
  '(total_size, buf, m) ← get_loop (S (Z.to_nat size)) buf (Some data) size 0 m;
  Some (total_size, (ring_buf_get_finish buf 0).2, m).

(** *** Items: [struct ring_element] is a word with the type in its low half,
    the length and the value in the next bytes, lowest byte first. *)

Definition ring_element_size : Z := 4.

Definition write_ring_element (dst type length value : Z) m : mem :=
  write_bytes m dst [Z.land type 255; Z.shiftr type 8; length; value].

Definition element_type m (src : Z) : Z := Z.lor (m src) (Z.shiftl (m (src + 1)) 8).
Definition element_length m (src : Z) : Z := m (src + 2).
Definition element_value m (src : Z) : Z := m (src + 3).

Definition ring_buf_item_put buf (type value data32 size32 : Z) m : option (Z * ring_buf * mem) :=
  let space := ring_buf_space_get buf in
  let size := size32 * 4 in
  if space <? size + ring_element_size then Some (- EMSGSIZE, buf, m)
  else
    let '(_, dst, buf) := ring_buf_put_claim buf ring_element_size in
    let m := write_ring_element dst type size32 value m in
    '(total_size, _, buf, m) ← put_loop (S (Z.to_nat size)) buf data32 size ring_element_size m;
    Some (0, (ring_buf_put_finish buf total_size).2, m).

(** The result, [*size32], and [*type] and [*value] when they are set. *)
Definition ring_buf_item_get buf (data32 : option Z) (size32 : Z) m : option (Z * Z * option (Z * Z) * ring_buf * mem) :=
  if ring_buf_is_empty buf then Some (- EAGAIN, size32, None, buf, m)
  else
    let '(_, src, buf) := ring_buf_get_claim buf ring_element_size in
    let length := element_length m src in
    if bool_decide (is_Some data32) && (size32 <? length)
    then Some (- EMSGSIZE, length, None, (ring_buf_get_finish buf 0).2, m)
    else
      let type := element_type m src in
      let value := element_value m src in
      let size := length * 4 in
      '(total_size, buf, m) ← get_loop (S (Z.to_nat size)) buf data32 size ring_element_size m;
      Some (0, length, Some (type, value), (ring_buf_get_finish buf total_size).2, m).

End Ops.

(** ** The representation of a byte queue

    [g] bytes have been consumed in all; [l] are the bytes stored, [p] the
    bytes in the storage claimed by the producer, and the consumer has claimed
    the first [gc] bytes of [l]. *)

Record rb_rep (buf : ring_buf) (m : mem) (g : Z) (l p : list Z) (gc : Z) : Prop := mk_rep {
  rep_size : 0 < rb_size buf < RING_BUFFER_MAX_SIZE;
  rep_total : 0 <= g;
  rep_room : Z.of_nat (length l) + Z.of_nat (length p) <= rb_size buf;
  rep_claimed : 0 <= gc <= Z.of_nat (length l);
  rep_get_tail : get_tail buf = s32 g;
  rep_get_head : get_head buf = s32 (g + gc);
  rep_get_base : get_base buf = s32 (rb_size buf * (g / rb_size buf));
  rep_put_tail : put_tail buf = s32 (g + Z.of_nat (length l));
  rep_put_head : put_head buf = s32 (g + Z.of_nat (length l) + Z.of_nat (length p));
  rep_put_base : put_base buf = s32 (rb_size buf * ((g + Z.of_nat (length l)) / rb_size buf));
  rep_bytes : ∀ i x, (l ++ p) !! i = Some x -> m (rb_buffer buf + (g + Z.of_nat i) mod rb_size buf) = x
}.

Section Proofs.
Implicit Types (buf : ring_buf) (m : mem) (l p d : list Z).

Abbreviation len l := (Z.of_nat (length l)).

(** The position of counter [h] in the storage, and the base to subtract from
    it, when [h] is less than one round ahead of the counter [t]. *)
Lemma claim_position N t h :
  0 < N < RING_BUFFER_MAX_SIZE -> t <= h <= t + N ->
  let b := N * (t / N) in
  u32 (s32 h - s32 b) = h - b /\ 0 <= h - b < 2 * N /\
  (if N <=? h - b then h - (b + N) else h - b) = h mod N.
Proof.
  intros HN Hh b. unfold b. unfold RING_BUFFER_MAX_SIZE in HN.
  pose proof (Z.div_mod t N ltac:(lia)) as Ht. pose proof (Z.mod_pos_bound t N ltac:(lia)).
  assert (0 <= h - N * (t / N) < 2 * N) as Hd.
  { split; lia. }
  split; [| split; [done |]].
  - rewrite wrap_u_sub_s by lia. apply wrap_u_id. lia.
  - destruct (Z.leb_spec N (h - N * (t / N))).
    + apply (Z.mod_unique_pos _ _ (t / N + 1)); lia.
    + apply (Z.mod_unique_pos _ _ (t / N)); lia.
Qed.

(** The computation of both claim functions. *)
Lemma claim_calc N t h :
  0 < N < RING_BUFFER_MAX_SIZE -> t <= h <= t + N ->
  let b := s32 (N * (t / N)) in
  let wrap_size := u32 (s32 h - b) in
  let '(wrap_size, base) := if N <=? wrap_size then (u32 (wrap_size - N), s32 (b + N)) else (wrap_size, b) in
  u32 (N - wrap_size) = N - h mod N /\ s32 (s32 h - base) = h mod N.
Proof.
  intros HN Hh. cbv zeta. destruct (claim_position N t h HN Hh) as (-> & Hd & Hm). unfold RING_BUFFER_MAX_SIZE in HN.
  pose proof (Z.mod_pos_bound h N ltac:(lia)).
  destruct (N <=? _); rewrite ?wrap_s_add_s, wrap_s_sub_s, Hm, (wrap_s_id 32 (h mod N)), !wrap_u_id by (rewrite ?wrap_u_id by lia; lia); lia.
Qed.

(** The base after [k] more bytes. *)
Lemma finish_base N t k :
  0 < N < RING_BUFFER_MAX_SIZE -> 0 <= k <= N ->
  (if N <=? u32 (s32 (t + k) - s32 (N * (t / N))) then s32 (s32 (N * (t / N)) + N) else s32 (N * (t / N))) =
  s32 (N * ((t + k) / N)).
Proof.
  intros HN Hk. destruct (claim_position N t (t + k) HN ltac:(lia)) as (-> & Hd & Hm).
  pose proof (Z.div_mod (t + k) N ltac:(lia)). destruct (N <=? _); [rewrite wrap_s_add_s by lia |]; f_equal; lia.
Qed.

Lemma space_get_rep buf m g l p gc :
  rb_rep buf m g l p gc -> ring_buf_space_get buf = rb_size buf - len l - len p.
Proof.
  intros [HN Hg Hroom Hgc Egt Egh Egb Ept Eph Epb Hb]. unfold RING_BUFFER_MAX_SIZE, ring_buf_space_get in *. rewrite Egt, Eph.
  destruct (wrap_s_shift 32 (g + len l + len p) ltac:(lia)) as [i ->], (wrap_s_shift 32 g ltac:(lia)) as [j ->].
  replace (rb_size buf - _) with (rb_size buf - len l - len p + (j - i) * 2 ^ 32) by lia.
  rewrite wrap_u_period by lia. apply wrap_u_id. lia.
Qed.

Lemma size_get_rep buf m g l p gc :
  rb_rep buf m g l p gc -> ring_buf_size_get buf = len l - gc.
Proof.
  intros [HN Hg Hroom Hgc Egt Egh Egb Ept Eph Epb Hb]. unfold RING_BUFFER_MAX_SIZE, ring_buf_size_get in *.
  rewrite Ept, Egh, wrap_u_sub_s by lia. rewrite wrap_u_id; lia.
Qed.

Lemma is_empty_rep buf m g l p gc :
  rb_rep buf m g l p gc -> ring_buf_is_empty buf = (len l =? gc).
Proof.
  intros [HN Hg Hroom Hgc Egt Egh Egb Ept Eph Epb Hb]. unfold RING_BUFFER_MAX_SIZE, ring_buf_is_empty in *. rewrite Ept, Egh.
  destruct (Z.eqb_spec (len l) gc) as [-> |]; [apply Z.eqb_refl |].
  apply Z.eqb_neq. intros E%wrap_s_inj; lia.
Qed.

Lemma put_claim_rep buf m g l p gc size :
  rb_rep buf m g l p gc -> 0 <= size < 2 ^ 32 ->
  let h := g + len l + len p in
  let n := Z.min (Z.min size (rb_size buf - len l - len p)) (rb_size buf - h mod rb_size buf) in
  ring_buf_put_claim buf size = (n, rb_buffer buf + h mod rb_size buf, set_put_head (s32 (h + n)) buf).
Proof.
  intros Hr Hs h n. pose proof (space_get_rep _ _ _ _ _ _ Hr) as Hsp.
  destruct Hr as [HN Hg Hroom Hgc Egt Egh Egb Ept Eph Epb Hb]. unfold ring_buf_put_claim. rewrite Hsp, Eph, Epb. fold h.
  pose proof (claim_calc (rb_size buf) (g + len l) h HN ltac:(lia)) as Hc. cbv zeta in *.
  destruct (if _ <=? _ then _ else _) as [wrap base]. destruct Hc as [-> ->]. by rewrite wrap_s_add_s.
Qed.

Lemma get_claim_rep buf m g l p gc size :
  rb_rep buf m g l p gc -> 0 <= size < 2 ^ 32 ->
  let h := g + gc in
  let n := Z.min (Z.min size (len l - gc)) (rb_size buf - h mod rb_size buf) in
  ring_buf_get_claim buf size = (n, rb_buffer buf + h mod rb_size buf, set_get_head (s32 (h + n)) buf).
Proof.
  intros Hr Hs h n. pose proof (size_get_rep _ _ _ _ _ _ Hr) as Hsp.
  destruct Hr as [HN Hg Hroom Hgc Egt Egh Egb Ept Eph Epb Hb]. unfold ring_buf_get_claim. rewrite Hsp, Egh, Egb. fold h.
  pose proof (claim_calc (rb_size buf) g h HN ltac:(lia)) as Hc. cbv zeta in *.
  destruct (if _ <=? _ then _ else _) as [wrap base]. destruct Hc as [-> ->]. by rewrite wrap_s_add_s.
Qed.

(** A counter less than a round behind [h + d] is not in the [d] places from
    [h] on, which do not wrap. *)
Lemma behind_outside (N x h d : Z) :
  0 < N -> h + d - N <= x < h -> 0 <= d -> h mod N + d <= N -> x mod N < h mod N \/ h mod N + d <= x mod N.
Proof.
  intros HN Hx Hd Hw. pose proof (Z.div_mod h N ltac:(lia)) as Eh. pose proof (Z.div_mod x N ltac:(lia)) as Ex.
  pose proof (Z.mod_pos_bound h N HN). pose proof (Z.mod_pos_bound x N HN).
  assert (x / N = h / N \/ x / N = h / N - 1) as [E | E] by nia; rewrite E in Ex; lia.
Qed.

(** The bytes a producer writes into its claim extend the claimed part. *)
Lemma fill_rep buf m g l p gc d :
  rb_rep buf m g l p gc -> len d <= rb_size buf - len l - len p ->
  let h := g + len l + len p in
  len d <= rb_size buf - h mod rb_size buf ->
  rb_rep (set_put_head (s32 (h + len d)) buf) (write_bytes m (rb_buffer buf + h mod rb_size buf) d) g l (p ++ d) gc.
Proof.
  intros [HN Hg Hroom Hgc Egt Egh Egb Ept Eph Epb Hb] Hd h Hw. unfold RING_BUFFER_MAX_SIZE in HN.
  constructor; cbn [set_put_head rb_buffer put_head put_tail put_base get_head get_tail get_base rb_size]; try done;
    rewrite ?length_app, ?Nat2Z.inj_add; try (unfold RING_BUFFER_MAX_SIZE; lia); [f_equal; lia |].
  intros i x Hi. unfold write_bytes. pose proof (Z.mod_pos_bound h (rb_size buf) ltac:(lia)).
  pose proof (lookup_lt_Some _ _ _ Hi) as Hlen. rewrite !length_app in Hlen.
  destruct (decide (i < length (l ++ p))%nat) as [Hlt | Hge].
  - rewrite app_assoc, lookup_app_l in Hi by done. rewrite length_app in Hlt.
    assert ((g + Z.of_nat i) mod rb_size buf < h mod rb_size buf \/
            h mod rb_size buf + len d <= (g + Z.of_nat i) mod rb_size buf) as Hout.
    { apply behind_outside; lia. }
    destruct (Z.leb_spec (rb_buffer buf + h mod rb_size buf) (rb_buffer buf + (g + Z.of_nat i) mod rb_size buf)),
      (Z.ltb_spec (rb_buffer buf + (g + Z.of_nat i) mod rb_size buf) (rb_buffer buf + h mod rb_size buf + len d));
      simpl; try lia; by apply Hb.
  - rewrite app_assoc, lookup_app_r in Hi by lia. rewrite length_app in Hge, Hi.
    set (j := (i - (length l + length p))%nat) in *.
    assert ((g + Z.of_nat i) mod rb_size buf = h mod rb_size buf + Z.of_nat j) as ->.
    { replace (g + Z.of_nat i) with (h + Z.of_nat j) by lia. symmetry.
      apply (Z.mod_unique_pos _ _ (h / rb_size buf)); pose proof (Z.div_mod h (rb_size buf) ltac:(lia)); lia. }
    rewrite (proj2 (Z.leb_le _ _)), (proj2 (Z.ltb_lt _ _)) by lia. simpl.
    replace (Z.to_nat _) with j by lia. by apply list_lookup_total_correct.
Qed.

Lemma ring_rep_ext buf m m' g l p gc :
  rb_rep buf m g l p gc -> (∀ x, rb_buffer buf <= x < rb_buffer buf + rb_size buf -> m' x = m x) ->
  rb_rep buf m' g l p gc.
Proof.
  intros [HN Hg Hroom Hgc Egt Egh Egb Ept Eph Epb Hb] Hm. constructor; try done. intros i x Hi. rewrite Hm; [by apply Hb |].
  pose proof (Z.mod_pos_bound (g + Z.of_nat i) (rb_size buf)). lia.
Qed.

(** The storage behind a consumer's claim holds the bytes claimed. *)
Lemma claimed_bytes buf m g l p gc n :
  rb_rep buf m g l p gc -> Z.of_nat n <= len l - gc -> Z.of_nat n <= rb_size buf - (g + gc) mod rb_size buf ->
  read_bytes m (rb_buffer buf + (g + gc) mod rb_size buf) n = take n (drop (Z.to_nat gc) l).
Proof.
  intros [HN Hg Hroom Hgc Egt Egh Egb Ept Eph Epb Hb] Hn Hw. apply list_eq. intros i.
  destruct (decide (i < n)%nat) as [Hi | Hi].
  - rewrite read_bytes_lookup, lookup_take_lt, lookup_drop by done.
    destruct (lookup_lt_is_Some_2 l (Z.to_nat gc + i)) as [x Hx]; [lia |]. rewrite Hx. f_equal.
    rewrite <- (Hb (Z.to_nat gc + i)%nat x) by (by apply lookup_app_l_Some). f_equal. rewrite <- Z.add_assoc. f_equal.
    pose proof (Z.div_mod (g + gc) (rb_size buf) ltac:(lia)). pose proof (Z.mod_pos_bound (g + gc) (rb_size buf) ltac:(lia)).
    apply (Z.mod_unique_pos _ _ ((g + gc) / rb_size buf)); lia.
  - rewrite !lookup_ge_None_2; [done | rewrite length_take; lia | rewrite read_bytes_length; lia].
Qed.

Lemma put_finish_rep buf m g l p gc k :
  rb_rep buf m g l p gc -> 0 <= k ->
  if decide (k <= len p)
  then exists buf', ring_buf_put_finish buf k = (0, buf') /\
         rb_buffer buf' = rb_buffer buf /\ rb_size buf' = rb_size buf /\
         rb_rep buf' m g (l ++ take (Z.to_nat k) p) [] gc
  else ring_buf_put_finish buf k = (- EINVAL, buf).
Proof.
  intros [HN Hg Hroom Hgc Egt Egh Egb Ept Eph Epb Hb] Hk. unfold ring_buf_put_finish.
  assert (u32 (put_head buf - put_tail buf) = len p) as ->.
  { rewrite Eph, Ept, wrap_u_sub_s by lia. unfold RING_BUFFER_MAX_SIZE in HN. rewrite wrap_u_id; lia. }
  destruct (Z.ltb_spec (len p) k), (decide (k <= len p)); try lia; [done |].
  set (T := g + len l) in *.
  exists (mk_ring (rb_buffer buf) (s32 (T + k)) (s32 (T + k)) (s32 (rb_size buf * ((T + k) / rb_size buf)))
            (get_head buf) (get_tail buf) (get_base buf) (rb_size buf)).
  split; [| split_and!; [done | done |]].
  - rewrite <- (finish_base (rb_size buf) T k) by lia.
    cbn [set_put_head set_put_tail put_tail put_base rb_size]. rewrite Ept, <- Epb, wrap_s_add_s by lia. by destruct (_ <=? _).
  - assert (len (l ++ take (Z.to_nat k) p) = len l + k) as El by (rewrite length_app, length_take; lia).
    constructor; rewrite ?El; cbn [rb_buffer put_head put_tail put_base get_head get_tail get_base rb_size length];
      try done; try lia; rewrite ?Z.add_assoc, ?Z.add_0_r; try done.
    intros i x. rewrite app_nil_r. intros Hi. apply Hb. rewrite <- (take_drop (Z.to_nat k) p), app_assoc.
    by apply lookup_app_l_Some.
Qed.

Lemma get_finish_rep buf m g l p gc k :
  rb_rep buf m g l p gc -> 0 <= k ->
  if decide (k <= gc)
  then exists buf', ring_buf_get_finish buf k = (0, buf') /\
         rb_buffer buf' = rb_buffer buf /\ rb_size buf' = rb_size buf /\
         rb_rep buf' m (g + k) (drop (Z.to_nat k) l) p 0
  else ring_buf_get_finish buf k = (- EINVAL, buf).
Proof.
  intros [HN Hg Hroom Hgc Egt Egh Egb Ept Eph Epb Hb] Hk. unfold ring_buf_get_finish.
  assert (u32 (get_head buf - get_tail buf) = gc) as ->.
  { rewrite Egh, Egt, wrap_u_sub_s by lia. unfold RING_BUFFER_MAX_SIZE in HN. rewrite wrap_u_id; lia. }
  destruct (Z.ltb_spec gc k), (decide (k <= gc)); try lia; [done |].
  exists (mk_ring (rb_buffer buf) (put_head buf) (put_tail buf) (put_base buf)
            (s32 (g + k)) (s32 (g + k)) (s32 (rb_size buf * ((g + k) / rb_size buf))) (rb_size buf)).
  split; [| split_and!; [done | done |]].
  - rewrite <- (finish_base (rb_size buf) g k) by lia.
    cbn [set_get_head set_get_tail get_tail get_base rb_size]. rewrite Egt, <- Egb, wrap_s_add_s by lia. by destruct (_ <=? _).
  - assert (g + k + len (drop (Z.to_nat k) l) = g + len l) as El by (rewrite length_drop; lia).
    constructor; rewrite ?El; cbn [rb_buffer put_head put_tail put_base get_head get_tail get_base rb_size];
      rewrite ?Z.add_0_r; try done; try (rewrite ?length_drop; lia).
    intros i x Hi. replace (g + k + Z.of_nat i) with (g + Z.of_nat (Z.to_nat k + i)) by lia. apply Hb.
    rewrite <- lookup_drop, drop_app_le by lia. done.
Qed.

(** ** The copy loops *)

(** Nothing but the storage of the buffer has changed. *)
Definition ring_frame buf buf' m m' : Prop :=
  rb_buffer buf' = rb_buffer buf /\ rb_size buf' = rb_size buf /\
  ∀ x, x < rb_buffer buf \/ rb_buffer buf + rb_size buf <= x -> m' x = m x.

Lemma put_loop_rep fuel buf m g l p gc data size total :
  rb_rep buf m g l p gc -> 0 <= size -> 0 <= total -> total + size < 2 ^ 32 ->
  disjoint_ranges data size (rb_buffer buf) (rb_size buf) -> (Z.to_nat size < fuel)%nat ->
  let k := Z.min size (rb_size buf - len l - len p) in
  exists tot sz buf' m', put_loop fuel buf data size total m = Some (tot, sz, buf', m') /\ tot = total + k /\ sz = size - k /\
    rb_rep buf' m' g l (p ++ take (Z.to_nat k) (read_bytes m data (Z.to_nat size))) gc /\ ring_frame buf buf' m m'.
Proof.
  revert buf m p data size total. induction fuel as [| fuel IH]; intros buf m p data size total Hr Hs Ht Hts Hdis Hfuel k; [lia |].
  cbn [put_loop]. rewrite (put_claim_rep _ _ _ _ _ _ size Hr) by lia. cbv zeta.
  pose proof (rep_size _ _ _ _ _ _ Hr) as HN. pose proof (rep_room _ _ _ _ _ _ Hr) as Hroom.
  set (h := g + len l + len p). set (n := Z.min (Z.min size _) _).
  pose proof (Z.mod_pos_bound h (rb_size buf) ltac:(lia)) as Hmod.
  assert (0 <= n <= k) as Hn by lia. rewrite !wrap_u_id by lia.
  set (d := read_bytes m data (Z.to_nat n)). assert (len d = n) as Hd by (unfold d; rewrite read_bytes_length; lia).
  pose proof (fill_rep buf m g l p gc d Hr ltac:(lia)) as Hr1. cbv zeta in Hr1. fold h in Hr1. rewrite Hd in Hr1.
  specialize (Hr1 ltac:(lia)). unfold memcpy. fold d.
  set (buf1 := set_put_head _ buf) in *. set (m1 := write_bytes m _ d) in *.
  assert (ring_frame buf buf1 m m1) as Hf1.
  { split; [done |]. split; [done |]. intros x Hx. apply write_bytes_out. lia. }
  assert (read_bytes m data (Z.to_nat size) = d ++ read_bytes m1 (data + n) (Z.to_nat (size - n))) as Hread.
  { replace (Z.to_nat size) with (Z.to_nat n + Z.to_nat (size - n))%nat by lia. rewrite read_bytes_app. fold d. f_equal.
    rewrite Z2Nat.id by lia. apply read_bytes_ext. intros x Hx. symmetry. apply Hf1.
    unfold disjoint_ranges in Hdis. lia. }
  destruct (Z.eqb_spec (size - n) 0); [| destruct (Z.eqb_spec n 0)]; cbn [negb andb].
  - exists (total + n), (size - n), buf1, m1. split; [done |]. do 2 (split; [lia |]). split; [| done]. rewrite Hread, take_app_le by lia.
    rewrite take_ge by lia. done.
  - exists (total + n), (size - n), buf1, m1. split; [done |]. do 2 (split; [lia |]). split; [| done]. replace (Z.to_nat k) with 0%nat by lia.
    rewrite take_0. destruct d; [done |]. simpl in Hd. lia.
  - destruct (IH buf1 m1 (p ++ d) (data + n) (size - n) (total + n) Hr1) as (tot & sz & buf' & m' & -> & Htot & Hsz & Hr' & Hf'); try lia.
    { unfold disjoint_ranges, buf1 in *. simpl. lia. }
    rewrite length_app in *. change (rb_size buf1) with (rb_size buf) in *.
    assert (n + Z.min (size - n) (rb_size buf - len l - Z.of_nat (length p + length d)) = k) as Hk by lia.
    exists tot, sz, buf', m'. split; [done |]. do 2 (split; [lia |]). split.
    + rewrite <- app_assoc in Hr'. rewrite Hread, take_app_ge by lia. 
      replace (Z.to_nat k - length d)%nat with (Z.to_nat (Z.min (size - n) (rb_size buf - len l - Z.of_nat (length p + length d)))) by lia.
      done.
    + destruct Hf' as (E1 & E2 & E3). split; [done |]. split; [done |]. intros x Hx.
      rewrite E3 by (simpl; lia). by apply Hf1.
Qed.

Lemma get_claim_keeps buf m g l p gc n :
  rb_rep buf m g l p gc -> 0 <= n <= len l - gc -> rb_rep (set_get_head (s32 (g + gc + n)) buf) m g l p (gc + n).
Proof.
  intros [HN Hg Hroom Hgc Egt Egh Egb Ept Eph Epb Hb] Hn.
  constructor; cbn [set_get_head rb_buffer put_head put_tail put_base get_head get_tail get_base rb_size]; try done; try lia.
  f_equal. lia.
Qed.

(** The bytes of the queue a consumer's copy delivers. *)
Definition deliver (data : option Z) d m : mem := match data with Some a => write_bytes m a d | None => m end.

Definition clear_of_ring (data : option Z) (size : Z) buf : Prop :=
  match data with Some a => disjoint_ranges a size (rb_buffer buf) (rb_size buf) | None => True end.

Lemma get_loop_rep fuel buf m g l p gc data size total :
  rb_rep buf m g l p gc -> 0 <= size -> 0 <= total -> total + size < 2 ^ 32 ->
  clear_of_ring data size buf -> (Z.to_nat size < fuel)%nat ->
  let k := Z.min size (len l - gc) in
  exists tot buf' m', get_loop fuel buf data size total m = Some (tot, buf', m') /\ tot = total + k /\
    rb_rep buf' m' g l p (gc + k) /\ rb_buffer buf' = rb_buffer buf /\ rb_size buf' = rb_size buf /\
    ∀ x, m' x = deliver data (take (Z.to_nat k) (drop (Z.to_nat gc) l)) m x.
Proof.
  revert buf m gc data size total. induction fuel as [| fuel IH]; intros buf m gc data size total Hr Hs Ht Hts Hdis Hfuel k; [lia |].
  cbn [get_loop]. rewrite (get_claim_rep _ _ _ _ _ _ size Hr) by lia. cbv zeta.
  pose proof (rep_size _ _ _ _ _ _ Hr) as HN. pose proof (rep_claimed _ _ _ _ _ _ Hr) as Hgc.
  set (n := Z.min (Z.min size _) _). pose proof (Z.mod_pos_bound (g + gc) (rb_size buf) ltac:(lia)) as Hmod.
  assert (0 <= n <= k) as Hn by lia. rewrite !wrap_u_id by lia.
  pose proof (claimed_bytes _ _ _ _ _ _ (Z.to_nat n) Hr ltac:(lia) ltac:(lia)) as Hd.
  pose proof (get_claim_keeps _ _ _ _ _ _ n Hr ltac:(lia)) as Hr1. set (buf1 := set_get_head _ buf) in *.
  set (step := match data with Some _ => _ | None => _ end).
  set (d := take (Z.to_nat n) (drop (Z.to_nat gc) l)) in *.
  assert (length d = Z.to_nat n) as Hlen by (unfold d; rewrite length_take, length_drop; lia).
  assert (step = ((λ a, a + n) <$> data, deliver data d m)) as ->.
  { unfold step, deliver, memcpy. destruct data; [by rewrite Hd | done]. }
  assert (rb_rep buf1 (deliver data d m) g l p (gc + n)) as Hr2.
  { apply (ring_rep_ext _ m); [done |]. intros x Hx. destruct data as [a |]; [| done]. simpl. apply write_bytes_out.
    simpl in Hx, Hdis. unfold disjoint_ranges in Hdis. lia. }
  assert (take (Z.to_nat k) (drop (Z.to_nat gc) l) =
          d ++ take (Z.to_nat (k - n)) (drop (Z.to_nat (gc + n)) l)) as Hsplit.
  { replace (Z.to_nat k) with (Z.to_nat n + Z.to_nat (k - n))%nat by lia. rewrite <- take_take_drop, drop_drop.
    do 3 f_equal. lia. }
  destruct (Z.eqb_spec (size - n) 0); [| destruct (Z.eqb_spec n 0)]; cbn [negb andb].
  3: {
    destruct (IH buf1 (deliver data d m) (gc + n) ((λ a, a + n) <$> data) (size - n) (total + n) Hr2)
      as (tot & buf' & m' & -> & Htot & Hr' & E1 & E2 & E3); try lia.
    { destruct data as [a |]; [| done]. simpl in *. unfold disjoint_ranges in *. lia. }
    assert (Z.min (size - n) (len l - (gc + n)) = k - n) as Hk by lia. rewrite Hk in *.
    exists tot, buf', m'. split; [done |]. split; [lia |]. replace (gc + n + (k - n)) with (gc + k) in Hr' by lia.
    do 3 (split; [done |]). intros x. rewrite E3, Hsplit. destruct data as [a |]; [| done]. simpl.
    rewrite <- write_bytes_app, Hlen, Z2Nat.id by lia. done. }
  all: assert (n = k) as Hnk by lia; rewrite Hnk in *; replace (k - k) with 0 in * by lia;
    exists (total + k), buf1, (deliver data d m); split; [done |]; split; [done |]; do 3 (split; [done |]);
    intros x; by rewrite Hsplit, take_0, app_nil_r.
Qed.

(** ** The calls *)

Lemma put_spec buf m g l gc data size :
  rb_rep buf m g l [] gc -> 0 <= size < 2 ^ 32 -> disjoint_ranges data size (rb_buffer buf) (rb_size buf) ->
  let k := Z.min size (rb_size buf - len l) in
  exists buf' m', ring_buf_put buf data size m = Some (k, buf', m') /\
    rb_rep buf' m' g (l ++ take (Z.to_nat k) (read_bytes m data (Z.to_nat size))) [] gc /\ ring_frame buf buf' m m'.
Proof.
  intros Hr Hs Hd k. unfold ring_buf_put. pose proof (rep_room _ _ _ _ _ _ Hr) as Hroom. simpl in Hroom.
  destruct (put_loop_rep (S (Z.to_nat size)) buf m g l [] gc data size 0 Hr) as (tot & sz & buf' & m' & -> & Htot & _ & Hr' & E1 & E2 & E3); try lia; [done |].
  simpl in Htot, Hr'. rewrite Z.sub_0_r in *. fold k in Htot, Hr'. rewrite Htot, ?Z.add_0_l in *. clear Htot.
  pose proof (put_finish_rep _ _ _ _ _ _ k Hr' ltac:(lia)) as Hf. rewrite length_take, read_bytes_length in Hf.
  destruct (decide _); [| lia]. destruct Hf as (b & Hb & Eb1 & Eb2 & Hrb). cbn [mbind option_bind]. rewrite Hb.
  exists b, m'. split; [done |]. rewrite take_take, Nat.min_id in Hrb. split; [done |].
  split; [congruence |]. split; [congruence |]. done.
Qed.

Lemma get_spec buf m g l p data size :
  rb_rep buf m g l p 0 -> 0 <= size < 2 ^ 32 -> clear_of_ring data size buf ->
  let k := Z.min size (len l) in
  exists buf' m', ring_buf_get buf data size m = Some (k, buf', m') /\
    rb_rep buf' m' (g + k) (drop (Z.to_nat k) l) p 0 /\ rb_buffer buf' = rb_buffer buf /\ rb_size buf' = rb_size buf /\
    ∀ x, m' x = deliver data (take (Z.to_nat k) l) m x.
Proof.
  intros Hr Hs Hd k. unfold ring_buf_get.
  destruct (get_loop_rep (S (Z.to_nat size)) buf m g l p 0 data size 0 Hr) as (tot & buf' & m' & -> & Htot & Hr' & E1 & E2 & E3); try lia; [done |].
  simpl in Htot, Hr', E3. rewrite Z.sub_0_r in *. fold k in Htot, Hr', E3. rewrite Htot, ?Z.add_0_l in *. clear Htot.
  pose proof (get_finish_rep _ _ _ _ _ _ k Hr' ltac:(lia)) as Hf.
  destruct (decide _); [| lia]. destruct Hf as (b & Hb & Eb1 & Eb2 & Hrb). cbn [mbind option_bind]. rewrite Hb.
  exists b, m'. split; [done |]. split; [done |]. split; [congruence |]. split; [congruence |]. done.
Qed.

Lemma peek_spec buf m g l p data size :
  rb_rep buf m g l p 0 -> 0 <= size < 2 ^ 32 -> disjoint_ranges data size (rb_buffer buf) (rb_size buf) ->
  let k := Z.min size (len l) in
  exists buf' m', ring_buf_peek buf data size m = Some (k, buf', m') /\
    rb_rep buf' m' g l p 0 /\ rb_buffer buf' = rb_buffer buf /\ rb_size buf' = rb_size buf /\
    ∀ x, m' x = deliver (Some data) (take (Z.to_nat k) l) m x.
Proof.
  intros Hr Hs Hd k. unfold ring_buf_peek. rewrite (size_get_rep _ _ _ _ _ _ Hr), Z.sub_0_r. fold k.
  destruct (get_loop_rep (S (Z.to_nat k)) buf m g l p 0 (Some data) k 0 Hr) as (tot & buf' & m' & -> & Htot & Hr' & E1 & E2 & E3); try lia.
  { simpl. unfold disjoint_ranges in *. lia. }
  simpl in Htot. simpl deliver in E3. rewrite !Z.sub_0_r in *. replace (Z.min k (len l)) with k in * by lia. rewrite Htot, ?Z.add_0_l in *. clear Htot.
  pose proof (get_finish_rep _ _ _ _ _ _ 0 Hr' ltac:(lia)) as Hf.
  destruct (decide _); [| lia]. destruct Hf as (b & Hb & Eb1 & Eb2 & Hrb). cbn [mbind option_bind]. rewrite Hb.
  exists b, m'. split; [done |]. rewrite Z.add_0_r, drop_0 in Hrb. split; [done |]. split; [congruence |]. split; [congruence |]. done.
Qed.

(** ** Refinement of a byte queue with claims

    The caller's data are at [scratch], outside the storage.  A producer's
    claim is filled with the data at hand as far as it goes. *)

Inductive rb_op :=
| OpPut (d : list Z)
| OpGet (n : Z)
| OpDiscard (n : Z)
| OpPeek (n : Z)
| OpPutClaim (d : list Z)
| OpPutFinish (n : Z)
| OpGetClaim (n : Z)
| OpGetFinish (n : Z).

Definition rb_call (scratch : Z) (op : rb_op) (st : ring_buf * mem) : option (Z * list Z * (ring_buf * mem)) :=
  let '(buf, m) := st in
  match op with
  | OpPut d => '(r, buf, m) ← ring_buf_put buf scratch (len d) (write_bytes m scratch d); Some (r, [], (buf, m))
  | OpGet n => '(r, buf, m) ← ring_buf_get buf (Some scratch) n m; Some (r, read_bytes m scratch (Z.to_nat r), (buf, m))
  | OpDiscard n => '(r, buf, m) ← ring_buf_get buf None n m; Some (r, [], (buf, m))
  | OpPeek n => '(r, buf, m) ← ring_buf_peek buf scratch n m; Some (r, read_bytes m scratch (Z.to_nat r), (buf, m))
  | OpPutClaim d =>
      let '(r, data, buf) := ring_buf_put_claim buf (len d) in
      Some (r, [], (buf, write_bytes m data (take (Z.to_nat r) d)))
  | OpPutFinish n => let '(r, buf) := ring_buf_put_finish buf n in Some (r, [], (buf, m))
  | OpGetClaim n =>
      let '(r, data, buf) := ring_buf_get_claim buf n in Some (r, read_bytes m data (Z.to_nat r), (buf, m))
  | OpGetFinish n => let '(r, buf) := ring_buf_get_finish buf n in Some (r, [], (buf, m))
  end.

(** The queue: bytes consumed so far, bytes stored, bytes claimed by the
    producer, number of bytes claimed by the consumer. *)
Record byte_queue := mk_bq { bq_total : Z; bq_data : list Z; bq_filling : list Z; bq_reading : Z }.

(** Of a queue of capacity [N], what the call returns and delivers. *)
Definition bq_call (N : Z) (op : rb_op) (q : byte_queue) : Z * list Z * byte_queue :=
  let '(mk_bq g l p gc) := q in
  match op with
  | OpPut d => let k := Z.min (len d) (N - len l) in (k, [], mk_bq g (l ++ take (Z.to_nat k) d) [] gc)
  | OpGet n => let k := Z.min n (len l) in (k, take (Z.to_nat k) l, mk_bq (g + k) (drop (Z.to_nat k) l) p 0)
  | OpDiscard n => let k := Z.min n (len l) in (k, [], mk_bq (g + k) (drop (Z.to_nat k) l) p 0)
  | OpPeek n => let k := Z.min n (len l) in (k, take (Z.to_nat k) l, q)
  | OpPutClaim d =>
      let k := Z.min (Z.min (len d) (N - len l - len p)) (N - (g + len l + len p) mod N) in
      (k, [], mk_bq g l (p ++ take (Z.to_nat k) d) gc)
  | OpPutFinish n =>
      if n <=? len p then (0, [], mk_bq g (l ++ take (Z.to_nat n) p) [] gc) else (- EINVAL, [], q)
  | OpGetClaim n =>
      let k := Z.min (Z.min n (len l - gc)) (N - (g + gc) mod N) in
      (k, take (Z.to_nat k) (drop (Z.to_nat gc) l), mk_bq g l p (gc + k))
  | OpGetFinish n => if n <=? gc then (0, [], mk_bq (g + n) (drop (Z.to_nat n) l) p 0) else (- EINVAL, [], q)
  end.

(** Copying calls are not made while the same side has a claim. *)
Definition bq_pre (op : rb_op) (q : byte_queue) : Prop :=
  match op with
  | OpPut d => bq_filling q = []
  | OpGet _ | OpDiscard _ | OpPeek _ => bq_reading q = 0
  | _ => True
  end.

(** The number of bytes the call is about. *)
Definition op_bytes (op : rb_op) : Z :=
  match op with
  | OpPut d | OpPutClaim d => len d
  | OpGet n | OpDiscard n | OpPeek n | OpPutFinish n | OpGetClaim n | OpGetFinish n => n
  end.

Definition rb_queue (st : ring_buf * mem) (q : byte_queue) : Prop :=
  rb_rep st.1 st.2 (bq_total q) (bq_data q) (bq_filling q) (bq_reading q).

Lemma deliver_read a d m m' k :
  (∀ x, m' x = deliver (Some a) d m x) -> k = len d -> read_bytes m' a (Z.to_nat k) = d.
Proof.
  intros H ->. rewrite Nat2Z.id. rewrite (read_bytes_ext _ (write_bytes m a d)) by (intros; apply H). apply read_write_same.
Qed.

Lemma rb_call_refines scratch op buf m q :
  rb_queue (buf, m) q -> bq_pre op q -> 0 <= op_bytes op < 2 ^ 32 ->
  disjoint_ranges scratch (op_bytes op) (rb_buffer buf) (rb_size buf) ->
  let '(r, d, q') := bq_call (rb_size buf) op q in
  exists buf' m', rb_call scratch op (buf, m) = Some (r, d, (buf', m')) /\ rb_queue (buf', m') q' /\
    rb_buffer buf' = rb_buffer buf /\ rb_size buf' = rb_size buf.
Proof.
  destruct q as [g l p gc]. unfold rb_queue. simpl. intros Hr Hpre Hb Hd.
  pose proof (rep_room _ _ _ _ _ _ Hr) as Hroom. pose proof (rep_size _ _ _ _ _ _ Hr) as HN.
  destruct op as [d | n | n | n | d | n | n | n]; simpl in *; try subst p; try subst gc.
  - assert (rb_rep buf (write_bytes m scratch d) g l [] gc) as Hr1.
    { apply (ring_rep_ext _ m); [done |]. intros x Hx. apply write_bytes_out. unfold disjoint_ranges in Hd. lia. }
    destruct (put_spec _ _ _ _ _ scratch (len d) Hr1 Hb Hd) as (buf' & m' & -> & Hr' & E1 & E2 & _).
    exists buf', m'. split; [done |]. by rewrite Nat2Z.id, read_write_same in Hr'.
  - destruct (get_spec _ _ _ _ _ (Some scratch) n Hr Hb Hd) as (buf' & m' & -> & Hr' & E1 & E2 & E3).
    exists buf', m'. split; [| done]. simpl. repeat f_equal. eapply deliver_read; [done |]. rewrite length_take. lia.
  - destruct (get_spec _ _ _ _ _ None n Hr Hb I) as (buf' & m' & -> & Hr' & E1 & E2 & E3). by exists buf', m'.
  - destruct (peek_spec _ _ _ _ _ scratch n Hr Hb Hd) as (buf' & m' & -> & Hr' & E1 & E2 & E3).
    exists buf', m'. split; [| done]. simpl. repeat f_equal. eapply deliver_read; [done |]. rewrite length_take. lia.
  - rewrite (put_claim_rep _ _ _ _ _ _ _ Hr Hb). cbv zeta. set (h := g + len l + len p).
    pose proof (Z.mod_pos_bound h (rb_size buf) ltac:(lia)). set (k := Z.min _ _).
    pose proof (fill_rep _ _ _ _ _ _ (take (Z.to_nat k) d) Hr) as Hf. cbv zeta in Hf. fold h in Hf.
    assert (len (take (Z.to_nat k) d) = k) as Ek by (rewrite length_take; lia). rewrite Ek in Hf.
    eexists _, _. split; [done |]. split; [apply Hf; lia | done].
  - pose proof (put_finish_rep _ _ _ _ _ _ n Hr ltac:(lia)) as Hf. destruct (Z.leb_spec n (len p)), (decide (n <= len p)); try lia.
    + destruct Hf as (buf' & -> & E1 & E2 & Hr'). by exists buf', m.
    + rewrite Hf. by exists buf, m.
  - rewrite (get_claim_rep _ _ _ _ _ _ _ Hr Hb). cbv zeta. pose proof (rep_claimed _ _ _ _ _ _ Hr).
    pose proof (Z.mod_pos_bound (g + gc) (rb_size buf) ltac:(lia)). set (k := Z.min _ _).
    rewrite (claimed_bytes _ _ _ _ _ _ (Z.to_nat k) Hr) by lia.
    eexists _, _. split; [done |]. split; [apply get_claim_keeps; [done | lia] | done].
  - pose proof (get_finish_rep _ _ _ _ _ _ n Hr ltac:(lia)) as Hf. destruct (Z.leb_spec n gc), (decide (n <= gc)); try lia.
    + destruct Hf as (buf' & -> & E1 & E2 & Hr'). by exists buf', m.
    + rewrite Hf. by exists buf, m.
Qed.

(** Sequences of calls. *)
Fixpoint rb_run (scratch : Z) (ops : list rb_op) (st : ring_buf * mem) : option (list (Z * list Z) * (ring_buf * mem)) :=
  match ops with
  | [] => Some ([], st)
  | op :: ops =>
      '(r, d, st) ← rb_call scratch op st;
      '(outs, st) ← rb_run scratch ops st;
      Some ((r, d) :: outs, st)
  end.

Fixpoint bq_run (N : Z) (ops : list rb_op) (q : byte_queue) : list (Z * list Z) * byte_queue :=
  match ops with
  | [] => ([], q)
  | op :: ops =>
      let '(r, d, q) := bq_call N op q in
      let '(outs, q) := bq_run N ops q in
      ((r, d) :: outs, q)
  end.

Fixpoint bq_ops_pre (N room : Z) (ops : list rb_op) (q : byte_queue) : Prop :=
  match ops with
  | [] => True
  | op :: ops => bq_pre op q /\ 0 <= op_bytes op <= room /\ bq_ops_pre N room ops (bq_call N op q).2
  end.

(** C21: Any sequence of copying calls, claims and finishes on a ring buffer
    returns and delivers what the byte queue does: bytes come out in the order
    they went in, each once, also when the 32-bit counters wrap; a call takes
    as many bytes as there is room or data for; finishing more than was
    claimed fails with -EINVAL and changes nothing. *)
Theorem ring_buf_refines scratch room ops buf m q :
  rb_queue (buf, m) q -> room < 2 ^ 32 -> disjoint_ranges scratch room (rb_buffer buf) (rb_size buf) ->
  bq_ops_pre (rb_size buf) room ops q ->
  exists st', rb_run scratch ops (buf, m) = Some ((bq_run (rb_size buf) ops q).1, st') /\
    rb_queue st' (bq_run (rb_size buf) ops q).2.
Proof.
  revert buf m q. induction ops as [| op ops IH]; intros buf m q Hq Hroom Hd Hpre; [by exists (buf, m) |].
  destruct Hpre as (Hp & Hb & Hpre). cbn [rb_run bq_run].
  assert (disjoint_ranges scratch (op_bytes op) (rb_buffer buf) (rb_size buf)) as Hd1 by (unfold disjoint_ranges in *; lia).
  pose proof (rb_call_refines scratch op buf m q Hq Hp ltac:(lia) Hd1) as H.
  destruct (bq_call (rb_size buf) op q) as [[r d] q']. destruct H as (buf' & m' & -> & Hq' & E1 & E2).
  destruct (IH buf' m' q' Hq' Hroom) as (st' & Hrun & Hst').
  { by rewrite E1, E2. }
  { by rewrite E2. }
  rewrite E2 in *. cbn [mbind option_bind]. rewrite Hrun. exists st'. by destruct (bq_run (rb_size buf) ops q') as [outs q''].
Qed.

Lemma init_rep size data buf m :
  0 < size < RING_BUFFER_MAX_SIZE -> rb_rep (ring_buf_init size data buf) m 0 [] [] 0.
Proof. intros H. constructor; simpl; rewrite ?Z.mul_0_r; try done; lia. Qed.

Lemma reset_rep buf m g l p gc :
  rb_rep buf m g l p gc -> rb_rep (ring_buf_reset buf) m 0 [] [] 0.
Proof. intros H%rep_size. constructor; simpl; rewrite ?Z.mul_0_r; try done; lia. Qed.

(** ** Items *)

(** Type, value and data of an item. *)
Definition item : Type := Z * Z * list Z.

Definition item_words (it : item) : Z := len it.2 / 4.

Definition item_wf (it : item) : Prop :=
  0 <= it.1.1 < 2 ^ 16 /\ len it.2 = 4 * item_words it /\ item_words it < 256.

Definition item_header (it : item) : list Z := [Z.land it.1.1 255; Z.shiftr it.1.1 8; item_words it; it.1.2].

Definition encode_item (it : item) : list Z := item_header it ++ it.2.

Definition encode_items (its : list item) : list Z := its ≫= encode_item.

Lemma encode_items_app its its' : encode_items (its ++ its') = encode_items its ++ encode_items its'.
Proof. apply bind_app. Qed.

Lemma encode_item_length it : item_wf it -> len (encode_item it) = 4 * (1 + item_words it).
Proof. intros (_ & H & _). unfold encode_item. rewrite length_app. simpl. lia. Qed.

Lemma encode_items_length its : Forall item_wf its -> (len (encode_items its)) mod 4 = 0.
Proof.
  induction 1 as [| it its Hit _ IH]; [done |]. unfold encode_items in *. rewrite bind_cons, length_app, Nat2Z.inj_add.
  rewrite encode_item_length by done. rewrite (Z.mul_comm 4), Z.add_comm, Z_mod_plus_full. done.
Qed.

Lemma encode_items_snoc_length its it :
  item_wf it -> len (encode_items (its ++ [it])) = len (encode_items its) + 4 * (1 + item_words it).
Proof.
  intros Hit. rewrite encode_items_app. replace (encode_items [it]) with (encode_item it) by (symmetry; apply app_nil_r).
  rewrite length_app, Nat2Z.inj_add, encode_item_length; done.
Qed.

Lemma header_type t : 0 <= t -> Z.lor (Z.land t 255) (Z.shiftl (Z.shiftr t 8) 8) = t.
Proof.
  intros Ht. apply Z.bits_inj'. intros i Hi. change 255 with (Z.ones 8).
  rewrite Z.lor_spec, Z.land_spec, Z.shiftl_spec by done. destruct (Z.ltb_spec i 8).
  - rewrite Z.ones_spec_low, (Z.testbit_neg_r _ (i - 8)) by lia. btauto.
  - rewrite Z.ones_spec_high, Z.shiftr_spec by lia. replace (i - 8 + 8) with i by lia. btauto.
Qed.

(** A buffer used for items only. *)
Definition item_queue (st : ring_buf * mem) (its : list item) : Prop :=
  exists g, rb_rep st.1 st.2 g (encode_items its) [] 0 /\ g mod 4 = 0 /\ rb_size st.1 mod 4 = 0 /\ Forall item_wf its.

(** Room for a word is contiguous. *)
Lemma word_contiguous N h : 0 < N -> N mod 4 = 0 -> h mod 4 = 0 -> 4 <= N - h mod N.
Proof.
  intros HN H4 Hh. pose proof (Z.mod_pos_bound h N HN). pose proof (Z.div_mod h N ltac:(lia)).
  pose proof (Z.div_mod N 4 ltac:(lia)). pose proof (Z.div_mod h 4 ltac:(lia)).
  assert ((N - h mod N) mod 4 = 0) as E.
  { replace (N - h mod N) with (0 + (N / 4 * (1 + h / N) - h / 4) * 4) by lia. by rewrite Z_mod_plus_full. }
  pose proof (Z.div_mod (N - h mod N) 4 ltac:(lia)). lia.
Qed.

(** Claiming the word of a header and writing it. *)
Lemma put_header_rep buf m g its it :
  rb_rep buf m g (encode_items its) [] 0 -> g mod 4 = 0 -> rb_size buf mod 4 = 0 -> Forall item_wf its ->
  4 <= rb_size buf - len (encode_items its) ->
  exists dst buf', ring_buf_put_claim buf 4 = (4, dst, buf') /\
    rb_buffer buf <= dst /\ dst + 4 <= rb_buffer buf + rb_size buf /\
    rb_buffer buf' = rb_buffer buf /\ rb_size buf' = rb_size buf /\
    rb_rep buf' (write_bytes m dst (item_header it)) g (encode_items its) (item_header it) 0.
Proof.
  intros Hr Hg4 HN4 Hwf Hroom. set (l := encode_items its) in *.
  pose proof (rep_size _ _ _ _ _ _ Hr) as HN. unfold RING_BUFFER_MAX_SIZE in HN.
  pose proof (encode_items_length its Hwf) as Hl4. fold l in Hl4.
  pose proof (word_contiguous (rb_size buf) (g + len l) ltac:(lia) HN4) as Hc.
  rewrite Z.add_mod, Hg4, Hl4 in Hc by lia. specialize (Hc eq_refl).
  rewrite (put_claim_rep _ _ _ _ _ _ 4 Hr) by lia. cbv zeta. simpl length. rewrite Z.add_0_r, Z.sub_0_r.
  replace (Z.min _ _) with 4 by lia.
  pose proof (fill_rep _ _ _ _ _ _ (item_header it) Hr) as Hf. cbn [length] in Hf. rewrite !Z.add_0_r in Hf.
  specialize (Hf ltac:(unfold item_header; simpl; lia) ltac:(unfold item_header; simpl; lia)).
  pose proof (Z.mod_pos_bound (g + len l) (rb_size buf)).
  eexists _, _. split; [done |]. split; [lia |]. split; [lia |]. done.
Qed.

Lemma item_put_spec buf m its type value data32 size32 :
  item_queue (buf, m) its -> 0 <= type < 2 ^ 16 -> 0 <= size32 < 256 ->
  disjoint_ranges data32 (size32 * 4) (rb_buffer buf) (rb_size buf) ->
  if decide (size32 * 4 + 4 <= rb_size buf - len (encode_items its))
  then exists buf' m', ring_buf_item_put buf type value data32 size32 m = Some (0, buf', m') /\
         item_queue (buf', m') (its ++ [(type, value, read_bytes m data32 (Z.to_nat (size32 * 4)))]) /\ ring_frame buf buf' m m'
  else ring_buf_item_put buf type value data32 size32 m = Some (- EMSGSIZE, buf, m).
Proof.
  intros (g & Hr & Hg4 & HN4 & Hwf) Ht Hs Hd. simpl in *. unfold ring_buf_item_put, ring_element_size.
  rewrite (space_get_rep _ _ _ _ _ _ Hr), Z.sub_0_r. simpl length.
  destruct (Z.ltb_spec (rb_size buf - len (encode_items its)) (size32 * 4 + 4)),
    (decide (size32 * 4 + 4 <= rb_size buf - len (encode_items its))); try lia; [done |].
  set (it := (type, value, read_bytes m data32 (Z.to_nat (size32 * 4)))).
  assert (item_words it = size32) as Hw.
  { unfold item_words, it. cbn [snd]. rewrite read_bytes_length, Z2Nat.id, Z.div_mul by lia. done. }
  assert (item_wf it) as Hit.
  { split; [done |]. rewrite Hw. unfold it. cbn [snd]. rewrite read_bytes_length. lia. }
  destruct (put_header_rep buf m g its it Hr Hg4 HN4 Hwf ltac:(lia)) as (dst & buf1 & -> & Hlo & Hhi & Eb & En & Hf).
  assert (write_ring_element dst type size32 value m = write_bytes m dst (item_header it)) as ->.
  { unfold item_header. by rewrite Hw. }
  set (m1 := write_bytes m dst _) in *.
  destruct (put_loop_rep (S (Z.to_nat (size32 * 4))) buf1 m1 g (encode_items its) (item_header it) 0 data32 (size32 * 4) 4 Hf)
    as (tot & sz & buf' & m' & -> & Htot & _ & Hr' & E1 & E2 & E3); try lia; [by rewrite Eb, En |].
  change (len (item_header it)) with 4 in *. rewrite Eb, En in *.
  replace (Z.min _ _) with (size32 * 4) in * by lia.
  assert (read_bytes m1 data32 (Z.to_nat (size32 * 4)) = it.2) as Hsrc.
  { apply read_write_other. unfold disjoint_ranges in *. change (len (item_header it)) with 4. lia. }
  rewrite Hsrc, take_ge in Hr' by (unfold it; cbn [snd]; rewrite read_bytes_length; lia).
  pose proof (put_finish_rep _ _ _ _ _ _ tot Hr' ltac:(lia)) as Hfin. change (item_header it ++ it.2) with (encode_item it) in Hfin.
  pose proof (encode_item_length it Hit) as Hlen. rewrite Hw in Hlen. destruct (decide (tot <= _)); [| lia].
  destruct Hfin as (b & Hb & Eb1 & Eb2 & Hrb). cbn [mbind option_bind]. rewrite Hb. exists b, m'. split; [done |].
  rewrite take_ge in Hrb by lia. split.
  - exists g. rewrite encode_items_app. cbn [fst snd]. unfold encode_items at 2. simpl. rewrite app_nil_r.
    split; [done |]. split; [done |]. split; [congruence |]. apply Forall_app. by rewrite Forall_singleton.
  - split; [congruence |]. split; [congruence |]. intros x Hx. rewrite E3 by done. apply write_bytes_out.
    change (len (item_header it)) with 4. lia.
Qed.

Lemma encode_items_cons it its : encode_items (it :: its) = item_header it ++ it.2 ++ encode_items its.
Proof. unfold encode_items. rewrite bind_cons. unfold encode_item. by rewrite app_assoc. Qed.

(** Claiming and reading the header of the first item. *)
Lemma get_header_rep buf m g it its :
  rb_rep buf m g (encode_items (it :: its)) [] 0 -> g mod 4 = 0 -> rb_size buf mod 4 = 0 -> item_wf it ->
  exists src buf', ring_buf_get_claim buf 4 = (4, src, buf') /\
    rb_buffer buf' = rb_buffer buf /\ rb_size buf' = rb_size buf /\ rb_rep buf' m g (encode_items (it :: its)) [] 4 /\
    element_length m src = item_words it /\ element_value m src = it.1.2 /\ element_type m src = it.1.1.
Proof.
  intros Hr Hg4 HN4 (Ht & _). pose proof (rep_size _ _ _ _ _ _ Hr) as HN. unfold RING_BUFFER_MAX_SIZE in HN.
  pose proof (word_contiguous (rb_size buf) g ltac:(lia) HN4 Hg4) as Hc.
  assert (4 <= len (encode_items (it :: its))) as Hlen by (rewrite encode_items_cons, length_app; simpl; lia).
  rewrite (get_claim_rep _ _ _ _ _ _ 4 Hr) by lia. cbv zeta.
  pose proof (claimed_bytes _ _ _ _ _ _ 4 Hr ltac:(lia) ltac:(rewrite Z.add_0_r; lia)) as Hhd.
  pose proof (get_claim_keeps _ _ _ _ _ _ 4 Hr ltac:(lia)) as Hr1.
  rewrite Z.add_0_r, Z.sub_0_r in *. replace (Z.min _ _) with 4 by lia.
  eexists _, _. split; [done |]. split; [done |]. split; [done |]. split; [done |].
  rewrite encode_items_cons in Hhd. unfold read_bytes, item_header in Hhd. simpl in Hhd. rewrite Z.add_0_r in Hhd.
  injection Hhd as E0 E1 E2 E3. unfold element_length, element_value, element_type.
  change (Z.of_nat 1) with 1 in E1. change (Z.of_nat 2) with 2 in E2. change (Z.of_nat 3) with 3 in E3.
  rewrite E0, E1, E2, E3. split; [done |]. split; [done |]. apply header_type. lia.
Qed.

Lemma item_get_spec buf m its data32 size32 :
  item_queue (buf, m) its -> 0 <= size32 < 256 -> (∀ n, n <= size32 \/ data32 = None -> clear_of_ring data32 (n * 4) buf) ->
  match its with
  | [] => ring_buf_item_get buf data32 size32 m = Some (- EAGAIN, size32, None, buf, m)
  | it :: its' =>
      exists buf' m', rb_buffer buf' = rb_buffer buf /\ rb_size buf' = rb_size buf /\
      if bool_decide (is_Some data32) && (size32 <? item_words it)
      then ring_buf_item_get buf data32 size32 m = Some (- EMSGSIZE, item_words it, None, buf', m') /\ m' = m /\
           item_queue (buf', m') its
      else ring_buf_item_get buf data32 size32 m = Some (0, item_words it, Some it.1, buf', m') /\
           item_queue (buf', m') its' /\ ∀ x, m' x = deliver data32 it.2 m x
  end.
Proof.
  intros (g & Hr & Hg4 & HN4 & Hwf) Hs Hclear. simpl in *. unfold ring_buf_item_get, ring_element_size.
  rewrite (is_empty_rep _ _ _ _ _ _ Hr). destruct its as [| it its]; [done |].
  pose proof Hwf as [Hit Hits]%Forall_cons. pose proof Hit as (Ht & Hw & Hw256). pose proof (encode_items_cons it its) as El.
  assert (len (encode_items (it :: its)) = 4 + len it.2 + len (encode_items its)) as Hlen.
  { rewrite El, !length_app. change (length (item_header it)) with 4%nat. lia. }
  destruct (Z.eqb_spec (len (encode_items (it :: its))) 0); [lia |].
  destruct (get_header_rep _ _ _ _ _ Hr Hg4 HN4 Hit) as (src & buf1 & -> & Eb & En & Hr1 & -> & -> & ->).
  destruct (bool_decide (is_Some data32) && (size32 <? item_words it)) eqn:Hbig.
  - pose proof (get_finish_rep _ _ _ _ _ _ 0 Hr1 ltac:(lia)) as Hf. destruct (decide _) as [_ |]; [| lia].
    destruct Hf as (b & -> & Eb1 & Eb2 & Hrb). exists b, m. split; [congruence |]. split; [congruence |]. do 2 (split; [done |]).
    exists g. rewrite Z.add_0_r, drop_0 in Hrb. cbn [fst snd]. do 2 (split; [done |]). split; [by rewrite Eb2, En | done].
  - destruct (get_loop_rep (S (Z.to_nat (item_words it * 4))) buf1 m g (encode_items (it :: its)) [] 4 data32 (item_words it * 4) 4 Hr1)
      as (tot & buf' & m' & -> & Htot & Hr' & E1 & E2 & E3); try lia.
    { unfold clear_of_ring. rewrite Eb, En. apply (Hclear (item_words it)). apply andb_false_iff in Hbig as [Hn | Hn%Z.ltb_ge]; [| by left].
      right. destruct data32; [| done]. by rewrite bool_decide_eq_false, is_Some_alt in Hn. }
    replace (Z.min _ _) with (item_words it * 4) in * by lia.
    pose proof (get_finish_rep _ _ _ _ _ _ tot Hr' ltac:(lia)) as Hf. destruct (decide _) as [_ |]; [| lia].
    destruct Hf as (b & Hb & Eb1 & Eb2 & Hrb). cbn [mbind option_bind]. rewrite Hb. exists b, m'.
    split; [congruence |]. split; [congruence |]. split; [by destruct it as [[] ?] |].
    rewrite El in *. split.
    + exists (g + tot). cbn [fst snd]. split; [| split; [| split; [by rewrite Eb2, E2, En | done]]].
      * replace (Z.to_nat tot) with (length (item_header it) + length it.2)%nat in Hrb by (change (length (item_header it)) with 4%nat; lia).
        by rewrite app_assoc, <- length_app, drop_app_length in Hrb.
      * rewrite Htot. replace (4 + item_words it * 4) with ((1 + item_words it) * 4) by lia. by rewrite Z_mod_plus_full.
    + intros x. rewrite E3. f_equal. change (Z.to_nat 4) with (length (item_header it)).
      rewrite drop_app_length, take_app_le, take_ge by lia. done.
Qed.

Inductive item_op :=
| ItemPut (it : item)
| ItemGet (size32 : Z).

(** The result, the size, type and value reported, and the data. *)
Definition item_out : Type := Z * Z * option (Z * Z) * list Z.

Definition item_call (scratch : Z) (op : item_op) (st : ring_buf * mem) : option (item_out * (ring_buf * mem)) :=
  let '(buf, m) := st in
  match op with
  | ItemPut it =>
      '(rc, buf, m) ← ring_buf_item_put buf it.1.1 it.1.2 scratch (item_words it) (write_bytes m scratch it.2);
      Some (rc, 0, None, [], (buf, m))
  | ItemGet size32 =>
      '(rc, size, tv, buf, m) ← ring_buf_item_get buf (Some scratch) size32 m;
      Some (rc, size, tv, if rc =? 0 then read_bytes m scratch (Z.to_nat (4 * size)) else [], (buf, m))
  end.

(** On the sequence of items in a buffer of [N] bytes. *)
Definition item_abs (N : Z) (op : item_op) (its : list item) : item_out * list item :=
  match op with
  | ItemPut it =>
      if decide (len (encode_items (its ++ [it])) <= N) then (0, 0, None, [], its ++ [it]) else (- EMSGSIZE, 0, None, [], its)
  | ItemGet size32 =>
      match its with
      | [] => (- EAGAIN, size32, None, [], [])
      | it :: its' =>
          if size32 <? item_words it then (- EMSGSIZE, item_words it, None, [], its)
          else (0, item_words it, Some it.1, it.2, its')
      end
  end.

Definition item_op_ok (op : item_op) : Prop :=
  match op with ItemPut it => item_wf it | ItemGet size32 => 0 <= size32 < 256 end.

Lemma item_call_refines scratch op buf m its :
  item_queue (buf, m) its -> item_op_ok op -> disjoint_ranges scratch 1020 (rb_buffer buf) (rb_size buf) ->
  exists buf' m', item_call scratch op (buf, m) = Some ((item_abs (rb_size buf) op its).1, (buf', m')) /\
    item_queue (buf', m') (item_abs (rb_size buf) op its).2 /\ rb_buffer buf' = rb_buffer buf /\ rb_size buf' = rb_size buf.
Proof.
  intros Hq Hop Hd. unfold disjoint_ranges in Hd. destruct op as [it | size32]; cbn [item_call item_abs].
  - pose proof Hop as (Ht & Hw & H256). pose proof (Nat2Z.is_nonneg (length it.2)).
    assert (item_queue (buf, write_bytes m scratch it.2) its) as Hq1.
    { destruct Hq as (g & Hr & H4). exists g. split; [| done]. apply (ring_rep_ext _ m); [done |]. intros x Hx.
      apply write_bytes_out. simpl in *. lia. }
    pose proof (item_put_spec _ _ _ it.1.1 it.1.2 scratch (item_words it) Hq1 Ht ltac:(lia) ltac:(unfold disjoint_ranges; lia)) as H'.
    replace (Z.to_nat (item_words it * 4)) with (length it.2) in H' by lia. rewrite read_write_same in H'.
    replace (it.1.1, it.1.2, it.2) with it in H' by (by destruct it as [[] ?]).
    rewrite (encode_items_snoc_length its it Hop). repeat destruct (decide (_ <= _)); try lia.
    + destruct H' as (buf' & m' & -> & Hq' & E1 & E2 & _). by exists buf', m'.
    + rewrite H'. by exists buf, (write_bytes m scratch it.2).
  - pose proof (item_get_spec buf m its (Some scratch) size32 Hq Hop) as H'.
    assert (∀ n, n <= size32 \/ Some scratch = None -> clear_of_ring (Some scratch) (n * 4) buf) as Hclear.
    { intros n [Hn | Hn]; [| done]. simpl in *. unfold disjoint_ranges. lia. }
    specialize (H' Hclear). destruct its as [| it its]; [rewrite H'; by exists buf, m |]. destruct H' as (buf' & m' & E1 & E2 & H').
    rewrite bool_decide_eq_true_2 in H' by (by eexists). cbn [andb] in H'.
    destruct (size32 <? item_words it).
    + destruct H' as (-> & -> & Hq'). by exists buf', m.
    + destruct H' as (-> & Hq' & E3). exists buf', m'. split; [| done]. cbn [mbind option_bind Z.eqb].
      rewrite (deliver_read _ _ _ _ (4 * item_words it) E3); [done |].
      destruct Hq as (_ & _ & _ & _ & [(_ & Hw & _) _]%Forall_cons). lia.
Qed.

Fixpoint item_run (scratch : Z) (ops : list item_op) (st : ring_buf * mem) : option (list item_out * (ring_buf * mem)) :=
  match ops with
  | [] => Some ([], st)
  | op :: ops =>
      '(o, st) ← item_call scratch op st;
      '(outs, st) ← item_run scratch ops st;
      Some (o :: outs, st)
  end.

Fixpoint item_abs_run (N : Z) (ops : list item_op) (its : list item) : list item_out * list item :=
  match ops with
  | [] => ([], its)
  | op :: ops =>
      let '(o, its) := item_abs N op its in
      let '(outs, its) := item_abs_run N ops its in
      (o :: outs, its)
  end.

(** A ring buffer used for items is a queue of items: from an empty buffer,
    any sequence of puts and gets delivers every item accepted once, in order,
    with its type, value and data; a put is refused with -EMSGSIZE exactly
    when header and data do not fit, a get fails with -EAGAIN on an empty
    buffer and with -EMSGSIZE, reporting the size and keeping the item, when
    the caller's array is too small. *)
Theorem ring_items_fifo scratch ops size data buf m :
  0 < size < RING_BUFFER_MAX_SIZE / 4 -> disjoint_ranges scratch 1020 data (4 * size) -> Forall item_op_ok ops ->
  exists st', item_run scratch ops (ring_buf_item_init size data buf, m) = Some ((item_abs_run (4 * size) ops []).1, st') /\
    item_queue st' (item_abs_run (4 * size) ops []).2.
Proof.
  intros Hsize Hd Hops. change (RING_BUFFER_MAX_SIZE / 4) with (2 ^ 29) in Hsize.
  assert (item_queue (ring_buf_item_init size data buf, m) []) as Hq.
  { exists 0. unfold ring_buf_item_init. rewrite wrap_u_id by lia. split; [| split; [done | split; [| done]]].
    - apply init_rep. unfold RING_BUFFER_MAX_SIZE. lia.
    - cbn. rewrite Z.mul_comm. apply Z.mod_mul. lia. }
  revert Hq. generalize ([] : list item).
  assert (rb_buffer (ring_buf_item_init size data buf) = data /\ rb_size (ring_buf_item_init size data buf) = 4 * size) as [E1 E2].
  { unfold ring_buf_item_init. by rewrite wrap_u_id by lia. }
  revert E1 E2. generalize (ring_buf_item_init size data buf) as b. revert m.
  induction Hops as [| op ops Hop _ IH]; intros m b E1 E2 its Hq; [by exists (b, m) |]. cbn [item_run item_abs_run].
  destruct (item_call_refines scratch op b m its Hq Hop) as (b' & m' & -> & Hq' & E3 & E4); [by rewrite E1, E2 |].
  rewrite E2 in *. destruct (item_abs (4 * size) op its) as [o its']. cbn [mbind option_bind fst snd] in *.
  destruct (IH m' b' ltac:(congruence) ltac:(congruence) its' Hq') as (st' & -> & Hst').
  exists st'. by destruct (item_abs_run (4 * size) ops its').
Qed.

End Proofs.

(** ** A small buffer whose counters are about to wrap *)

(** Bytes 7 and 8 at positions 2 and 3 of a buffer of 4 at 100, 2^31 - 2 bytes
    consumed so far. *)
Definition ring4 : ring_buf :=
  mk_ring 100 (-2147483648) (-2147483648) (-2147483648) 2147483646 2147483646 2147483644 4.

Definition ring4_mem : mem := λ a, if a =? 102 then 7 else if a =? 103 then 8 else 0.

Definition ring4_ops : list rb_op := [OpPut [1; 2; 3]; OpPeek 2; OpGetClaim 3; OpGetFinish 1; OpGet 10].

Lemma ring_buf_refines_witness :
  rb_run 200 ring4_ops (ring4, ring4_mem) =
    Some ([(2, []); (2, [7; 8]); (2, [7; 8]); (0, []); (3, [8; 1; 2])],
          default (ring4, ring4_mem) (snd <$> rb_run 200 ring4_ops (ring4, ring4_mem))).
Proof.
  destruct (ring_buf_refines 200 10 ring4_ops ring4 ring4_mem (mk_bq (2 ^ 31 - 2) [7; 8] [] 0)) as (st' & E & _).
  - constructor; [by vm_compute .. |]. intros [| [| i]] x Hi; [by injection Hi as <- .. | done].
  - lia.
  - right. by vm_compute.
  - repeat split; by vm_compute.
  - rewrite E. by vm_compute.
Defined.

Definition items_sample : list item_op :=
  [ItemPut (513, 7, [1; 2; 3; 4]); ItemPut (1, 2, [5; 6; 7; 8]); ItemGet 0; ItemGet 5; ItemPut (3, 4, []); ItemGet 1; ItemGet 1].

Lemma ring_items_fifo_witness :
  fst <$> item_run 200 items_sample (ring_buf_item_init 3 100 ring4, ring4_mem) =
    Some [(0, 0, None, []); (- EMSGSIZE, 0, None, []); (- EMSGSIZE, 1, None, []); (0, 1, Some (513, 7), [1; 2; 3; 4]);
          (0, 0, None, []); (0, 0, Some (3, 4), []); (- EAGAIN, 1, None, [])].
Proof.
  destruct (ring_items_fifo 200 items_sample 3 100 ring4 ring4_mem) as (st' & E & _).
  - by vm_compute.
  - right. by vm_compute.
  - repeat constructor; by vm_compute.
  - rewrite E. by vm_compute.
Defined.
