(* ===== verification/Crc.v ===== *)
(** * Cyclic redundancy checks (lib/crc/, include/zephyr/sys/crc.h)

    The bit-by-bit, table-driven and shift-based routines over a buffer of
    bytes.  Every fast routine computes the bit-by-bit one of its polynomial,
    and the checks detect any change confined to one byte. *)

From Stdlib Require Import ZArith Lia Bool Btauto.
From stdpp Require Import base numbers list.
From S2P Require Import Prelude.

Open Scope Z_scope.

(** ** crc16_sw.c *)

Definition crc16_bit (poly crc : Z) : Z :=
  if flag_any crc 0x8000 then u16 (Z.lxor (Z.shiftl crc 1) poly) else u16 (Z.shiftl crc 1).

Definition crc16 (poly seed : Z) (src : list Z) : Z :=
  foldl (λ crc byte, Nat.iter 8 (crc16_bit poly) (Z.lxor crc (u16 (Z.shiftl byte 8)))) seed src.

Definition crc16_reflect_bit (poly crc : Z) : Z :=
  if flag_any crc 0x0001 then Z.lxor (Z.shiftr crc 1) poly else Z.shiftr crc 1.

Definition crc16_reflect (poly seed : Z) (src : list Z) : Z :=
  foldl (λ crc byte, Nat.iter 8 (crc16_reflect_bit poly) (Z.lxor crc byte)) seed src.

Definition crc16_ccitt (seed : Z) (src : list Z) : Z :=
  foldl (λ seed byte,
    let e := u8 (Z.lxor seed byte) in
    let f := u8 (Z.lxor e (Z.shiftl e 4)) in
    u16 (Z.lxor (Z.lxor (Z.lxor (Z.shiftr seed 8) (Z.shiftl f 8)) (Z.shiftl f 3)) (Z.shiftr f 4))) seed src.

Definition crc16_itu_t (seed : Z) (src : list Z) : Z :=
  foldl (λ seed byte,
    let seed := u16 (Z.lor (Z.shiftr seed 8) (Z.shiftl seed 8)) in
    let seed := Z.lxor seed byte in
    let seed := Z.lxor seed (Z.shiftr (Z.land seed 0xff) 4) in
    let seed := u16 (Z.lxor seed (Z.shiftl seed 12)) in
    u16 (Z.lxor seed (Z.shiftl (Z.land seed 0xff) 5))) seed src.

Definition crc16_ansi (src : list Z) : Z := crc16_reflect 0xA001 0xffff src.

(** ** crc24_sw.c *)

Definition CRC24_PGP_POLY : Z := 0x01864cfb.
Definition CRC24_PGP_INITIAL_VALUE : Z := 0x00B704CE.
Definition CRC24_FINAL_VALUE_MASK : Z := 0x00FFFFFF.

Definition crc24_bit (crc : Z) : Z :=
  let crc := u32 (Z.shiftl crc 1) in
  if flag_any crc 0x01000000 then Z.lxor crc CRC24_PGP_POLY else crc.

Definition crc24_pgp_update (crc : Z) (data : list Z) : Z :=
  foldl (λ crc byte, Nat.iter 8 crc24_bit (Z.lxor crc (Z.shiftl byte 16))) crc data.

Definition crc24_pgp (data : list Z) : Z :=
  Z.land (crc24_pgp_update CRC24_PGP_INITIAL_VALUE data) CRC24_FINAL_VALUE_MASK.

(** ** crc32_sw.c and crc32c_sw.c *)

Definition crc32_table : list Z :=
  [0x00000000; 0x1db71064; 0x3b6e20c8; 0x26d930ac; 0x76dc4190; 0x6b6b51f4; 0x4db26158; 0x5005713c;
   0xedb88320; 0xf00f9344; 0xd6d6a3e8; 0xcb61b38c; 0x9b64c2b0; 0x86d3d2d4; 0xa00ae278; 0xbdbdf21c].

Definition crc32_ieee_update (crc : Z) (data : list Z) : Z :=
  let crc := lnot32 crc in
  let crc := foldl (λ crc byte,
    let crc := Z.lxor (Z.shiftr crc 4) (crc32_table !!! Z.to_nat (Z.land (Z.lxor crc byte) 0x0f)) in
    Z.lxor (Z.shiftr crc 4) (crc32_table !!! Z.to_nat (Z.land (Z.lxor crc (Z.shiftr byte 4)) 0x0f))) crc data in
  lnot32 crc.

Definition crc32_ieee (data : list Z) : Z := crc32_ieee_update 0x0 data.

Definition crc32c_table : list Z :=
  [0x00000000; 0x105EC76F; 0x20BD8EDE; 0x30E349B1; 0x417B1DBC; 0x5125DAD3; 0x61C69362; 0x7198540D;
   0x82F63B78; 0x92A8FC17; 0xA24BB5A6; 0xB21572C9; 0xC38D26C4; 0xD3D3E1AB; 0xE330A81A; 0xF36E6F75].

Definition CRC32C_XOR_OUT : Z := 0xFFFFFFFF.
Definition CRC32C_INIT : Z := 0xFFFFFFFF.

Definition crc32_c (crc : Z) (data : list Z) (first_pkt last_pkt : bool) : Z :=
  let crc := if first_pkt then CRC32C_INIT else crc in
  let crc := foldl (λ crc byte,
    let crc := Z.lxor (crc32c_table !!! Z.to_nat (Z.land (Z.lxor crc byte) 0x0F)) (Z.shiftr crc 4) in
    Z.lxor (crc32c_table !!! Z.to_nat (Z.land (Z.lxor crc (Z.shiftr byte 4)) 0x0F)) (Z.shiftr crc 4)) crc data in
  if last_pkt then Z.lxor crc CRC32C_XOR_OUT else crc.

(** ** crc4_sw.c *)

Definition crc4_bit (polynomial : Z) (reversed : bool) (crc : Z) : Z :=
  if reversed
  then if flag_any crc 0x01 then Z.lxor (Z.shiftr crc 1) polynomial else Z.shiftr crc 1
  else if flag_any crc 0x8 then u8 (Z.lxor (Z.shiftl crc 1) polynomial) else u8 (Z.shiftl crc 1).

(** [j] is 0 for the high and 1 for the low half of the byte. *)
Definition crc4_nibble (byte j : Z) : Z := Z.land (Z.shiftr byte (4 * (1 - j))) 0xf.

Definition crc4 (src : list Z) (polynomial initial_value : Z) (reversed : bool) : Z :=
  let crc := foldl (λ crc byte,
    foldl (λ crc j, Nat.iter 4 (crc4_bit polynomial reversed) (Z.lxor crc (crc4_nibble byte j))) crc [0; 1])
    initial_value src in
  Z.land crc 0xF.

Definition crc4_lookup : list Z := [0x03; 0x65; 0xcf; 0xa9; 0xb8; 0xde; 0x74; 0x12].

Definition crc4_ti (seed : Z) (src : list Z) : Z :=
  foldl (λ seed byte,
    foldl (λ seed j,
      let index := Z.lxor seed (crc4_nibble byte j) in
      Z.land (Z.shiftr (crc4_lookup !!! Z.to_nat (Z.shiftr index 1)) ((1 - Z.land index 1) * 4)) 0xf) seed [0; 1])
    seed src.

(** ** crc7_sw.c and crc8_sw.c *)

Definition crc7_be (seed : Z) (src : list Z) : Z :=
  foldl (λ seed byte,
    let e := Z.lxor seed byte in
    let f := Z.lxor (Z.lxor e (Z.shiftr e 4)) (Z.shiftr e 7) in
    u8 (Z.lxor (Z.shiftl f 1) (Z.shiftl f 4))) seed src.

Definition crc8_ccitt_small_table : list Z :=
  [0x00; 0x07; 0x0e; 0x09; 0x1c; 0x1b; 0x12; 0x15; 0x38; 0x3f; 0x36; 0x31; 0x24; 0x23; 0x2a; 0x2d].

Definition crc8_ccitt (val : Z) (buf : list Z) : Z :=
  foldl (λ val byte,
    let val := Z.lxor val byte in
    let val := u8 (Z.lxor (Z.shiftl val 4) (crc8_ccitt_small_table !!! Z.to_nat (Z.shiftr val 4))) in
    u8 (Z.lxor (Z.shiftl val 4) (crc8_ccitt_small_table !!! Z.to_nat (Z.shiftr val 4)))) val buf.

Definition crc8_bit (polynomial : Z) (reversed : bool) (crc : Z) : Z :=
  if reversed
  then if flag_any crc 0x01 then Z.lxor (Z.shiftr crc 1) polynomial else Z.shiftr crc 1
  else if flag_any crc 0x80 then u8 (Z.lxor (Z.shiftl crc 1) polynomial) else u8 (Z.shiftl crc 1).

Definition crc8 (src : list Z) (polynomial initial_value : Z) (reversed : bool) : Z :=
  foldl (λ crc byte, Nat.iter 8 (crc8_bit polynomial reversed) (Z.lxor crc byte)) initial_value src.

(** ** crc.h: dispatch on the algorithm *)

Inductive crc_type :=
| CRC4 | CRC4_TI | CRC7_BE | CRC8 | CRC8_CCITT | CRC16 | CRC16_ANSI | CRC16_CCITT | CRC16_ITU_T
| CRC24_PGP | CRC32_C | CRC32_IEEE.

(** Parameters are converted to the routines' own types. *)
Definition crc_by_type (type : crc_type) (src : list Z) (seed poly : Z) (reflect first last : bool) : Z :=
  match type with
  | CRC4 => crc4 src (u8 poly) (u8 seed) reflect
  | CRC4_TI => crc4_ti (u8 seed) src
  | CRC7_BE => crc7_be (u8 seed) src
  | CRC8 => crc8 src (u8 poly) (u8 seed) reflect
  | CRC8_CCITT => crc8_ccitt (u8 seed) src
  | CRC16 => if reflect then crc16_reflect (u16 poly) (u16 seed) src else crc16 (u16 poly) (u16 seed) src
  | CRC16_ANSI => crc16_ansi src
  | CRC16_CCITT => crc16_ccitt (u16 seed) src
  | CRC16_ITU_T => crc16_itu_t (u16 seed) src
  | CRC24_PGP =>
      let crc := crc24_pgp_update seed src in
      if last then Z.land crc CRC24_FINAL_VALUE_MASK else crc
  | CRC32_C => crc32_c seed src first last
  | CRC32_IEEE => crc32_ieee_update seed src
  end.

(** ** Shift registers

    The reference: a register of [w] bits shifted right (reflected) or left,
    with the polynomial added when a bit drops out. *)

Definition rstep (poly c : Z) : Z := if Z.testbit c 0 then Z.lxor (Z.shiftr c 1) poly else Z.shiftr c 1.

Definition mstep (w poly c : Z) : Z :=
  if Z.testbit c (w - 1) then Z.lxor (wrap_u w (Z.shiftl c 1)) poly else wrap_u w (Z.shiftl c 1).

(** A byte enters at the end the bits leave from. *)
Definition rbyte (poly c byte : Z) : Z := Nat.iter 8 (rstep poly) (Z.lxor c byte).

Definition mbyte (w poly c byte : Z) : Z := Nat.iter 8 (mstep w poly) (Z.lxor c (Z.shiftl byte (w - 8))).

Section Registers.
Implicit Types (w poly c : Z).

(** *** Linearity *)

Lemma lxor_swap a b c d : Z.lxor (Z.lxor a b) (Z.lxor c d) = Z.lxor (Z.lxor a c) (Z.lxor b d).
Proof. rewrite !Z.lxor_assoc. f_equal. rewrite <- !Z.lxor_assoc. f_equal. apply Z.lxor_comm. Qed.

Lemma lxor_cancel_l a b : Z.lxor a (Z.lxor a b) = b.
Proof. by rewrite <- Z.lxor_assoc, Z.lxor_nilpotent, Z.lxor_0_l. Qed.

Lemma rstep_lxor poly a b : rstep poly (Z.lxor a b) = Z.lxor (rstep poly a) (rstep poly b).
Proof.
  unfold rstep. rewrite Z.lxor_spec, Z.shiftr_lxor. destruct (Z.testbit a 0), (Z.testbit b 0); simpl.
  - by rewrite lxor_swap, Z.lxor_nilpotent, Z.lxor_0_r.
  - by rewrite !Z.lxor_assoc, (Z.lxor_comm poly).
  - by rewrite Z.lxor_assoc.
  - done.
Qed.

Lemma wrap_u_lxor w a b : 0 <= w -> wrap_u w (Z.lxor a b) = Z.lxor (wrap_u w a) (wrap_u w b).
Proof.
  intros Hw. unfold wrap_u. rewrite <- !Z.land_ones by done. apply Z.bits_inj'. intros i _.
  rewrite !Z.lxor_spec, !Z.land_spec, Z.lxor_spec. btauto.
Qed.

Lemma mstep_lxor w poly a b : 0 <= w -> mstep w poly (Z.lxor a b) = Z.lxor (mstep w poly a) (mstep w poly b).
Proof.
  intros Hw. unfold mstep. rewrite Z.lxor_spec, Z.shiftl_lxor, wrap_u_lxor by done. destruct (Z.testbit a _), (Z.testbit b _); simpl.
  - by rewrite lxor_swap, Z.lxor_nilpotent, Z.lxor_0_r.
  - by rewrite !Z.lxor_assoc, (Z.lxor_comm poly).
  - by rewrite Z.lxor_assoc.
  - done.
Qed.

Lemma iter_lxor (f : Z -> Z) k a b :
  (∀ a b, f (Z.lxor a b) = Z.lxor (f a) (f b)) -> Nat.iter k f (Z.lxor a b) = Z.lxor (Nat.iter k f a) (Nat.iter k f b).
Proof. intros Hf. induction k as [| k IH]; [done |]. simpl. by rewrite IH, Hf. Qed.

(** The bits that do not reach the end in [k] steps are only shifted. *)
Lemma riter_shifted poly k x : Nat.iter k (rstep poly) (Z.shiftl x (Z.of_nat k)) = x.
Proof.
  revert x. induction k as [| k IH]; intros x; [apply Z.shiftl_0_r |].
  rewrite Nat.iter_succ_r. unfold rstep at 2. rewrite Z.shiftl_spec_low by lia.
  rewrite Z.shiftr_shiftl_l by lia. replace (Z.of_nat (S k) - 1) with (Z.of_nat k) by lia. apply IH.
Qed.

Lemma riter_split poly k c :
  Nat.iter k (rstep poly) c = Z.lxor (Z.shiftr c (Z.of_nat k)) (Nat.iter k (rstep poly) (Z.land c (Z.ones (Z.of_nat k)))).
Proof.
  assert (c = Z.lxor (Z.shiftl (Z.shiftr c (Z.of_nat k)) (Z.of_nat k)) (Z.land c (Z.ones (Z.of_nat k)))) as E.
  { apply Z.bits_inj'. intros i Hi. rewrite Z.lxor_spec, Z.land_spec, Z.shiftl_spec by done. destruct (Z.ltb_spec i (Z.of_nat k)).
    - rewrite (Z.testbit_neg_r _ (i - Z.of_nat k)), Z.ones_spec_low by lia. btauto.
    - rewrite Z.shiftr_spec, Z.ones_spec_high by lia. replace (i - Z.of_nat k + Z.of_nat k) with i by lia. btauto. }
  rewrite E at 1. rewrite (iter_lxor _ k _ _ (rstep_lxor poly)), riter_shifted. done.
Qed.

(** *** Ranges *)

Lemma rstep_bound w poly c : 0 <= w -> 0 <= poly < 2 ^ w -> 0 <= c < 2 ^ w -> 0 <= rstep poly c < 2 ^ w.
Proof.
  intros Hw Hp Hc. unfold rstep. pose proof (shiftr_bound w 1 c ltac:(lia) Hw Hc). case_match; [by apply lxor_bound | done].
Qed.

Lemma mstep_bound w poly c : 0 <= w -> 0 <= poly < 2 ^ w -> 0 <= mstep w poly c < 2 ^ w.
Proof.
  intros Hw Hp. unfold mstep. pose proof (wrap_u_bound w (Z.shiftl c 1) Hw). case_match; [by apply lxor_bound | done].
Qed.

Lemma iter_bound (f : Z -> Z) k n c :
  (∀ c, 0 <= c < n -> 0 <= f c < n) -> 0 <= c < n -> 0 <= Nat.iter k f c < n.
Proof. intros Hf Hc. induction k as [| k IH]; [done |]. simpl. by apply Hf. Qed.

Lemma rbyte_bound w poly c b :
  8 <= w -> 0 <= poly < 2 ^ w -> 0 <= c < 2 ^ w -> is_byte b -> 0 <= rbyte poly c b < 2 ^ w.
Proof.
  intros Hw Hp Hc Hb. unfold rbyte. apply iter_bound; [intros d Hd; apply rstep_bound; (done || lia) |].
  apply lxor_bound; [lia | done |]. unfold is_byte in Hb. pose proof (Z.pow_le_mono_r 2 8 w). lia.
Qed.

Lemma shiftl_byte_bound w b : 8 <= w -> is_byte b -> 0 <= Z.shiftl b (w - 8) < 2 ^ w.
Proof.
  unfold is_byte. intros Hw Hb. rewrite Z.shiftl_mul_pow2 by lia. replace w with (8 + (w - 8)) at 3 by lia.
  rewrite Z.pow_add_r by lia. assert (0 < 2 ^ (w - 8)) by lia. nia.
Qed.

Lemma mbyte_bound w poly c b :
  8 <= w -> 0 <= poly < 2 ^ w -> 0 <= c < 2 ^ w -> is_byte b -> 0 <= mbyte w poly c b < 2 ^ w.
Proof.
  intros Hw Hp Hc Hb. unfold mbyte. apply iter_bound; [intros d Hd; apply mstep_bound; (done || lia) |].
  apply lxor_bound; [lia | done |]. by apply shiftl_byte_bound.
Qed.

(** *** Injectivity: no bit that drops out is lost *)

Lemma rstep_inj w poly a b :
  0 < w -> Z.testbit poly (w - 1) = true -> 0 <= a < 2 ^ w -> 0 <= b < 2 ^ w -> rstep poly a = rstep poly b -> a = b.
Proof.
  intros Hw Hp Ha Hb E.
  assert (∀ x, 0 <= x < 2 ^ w -> Z.testbit (rstep poly x) (w - 1) = Z.testbit x 0) as Htop.
  { intros x Hx. unfold rstep. destruct (Z.testbit x 0);
      rewrite ?Z.lxor_spec, Z.shiftr_spec, (testbit_above w) by lia; [by rewrite Hp | done]. }
  assert (Z.testbit a 0 = Z.testbit b 0) as E0 by (rewrite <- !Htop by done; by rewrite E).
  assert (Z.shiftr a 1 = Z.shiftr b 1) as E1.
  { unfold rstep in E. rewrite E0 in E. destruct (Z.testbit b 0); [| done].
    rewrite <- (lxor_cancel_l poly (Z.shiftr a 1)), <- (lxor_cancel_l poly (Z.shiftr b 1)), !(Z.lxor_comm poly (Z.shiftr _ _)).
    by rewrite E. }
  apply Z.bits_inj'. intros i Hi. destruct (Z.eq_dec i 0) as [-> |]; [done |].
  replace i with (i - 1 + 1) by lia. rewrite <- !Z.shiftr_spec by lia. by rewrite E1.
Qed.

Lemma mstep_inj w poly a b :
  0 < w -> Z.testbit poly 0 = true -> 0 <= a < 2 ^ w -> 0 <= b < 2 ^ w -> mstep w poly a = mstep w poly b -> a = b.
Proof.
  intros Hw Hp Ha Hb E.
  assert (∀ x, Z.testbit (mstep w poly x) 0 = Z.testbit x (w - 1)) as Hlow.
  { intros x. unfold mstep, wrap_u. destruct (Z.testbit x (w - 1));
      rewrite ?Z.lxor_spec, Z.mod_pow2_bits_low, Z.shiftl_spec_low by lia; [by rewrite Hp | done]. }
  assert (Z.testbit a (w - 1) = Z.testbit b (w - 1)) as E0 by (rewrite <- !Hlow; by rewrite E).
  assert (wrap_u w (Z.shiftl a 1) = wrap_u w (Z.shiftl b 1)) as E1.
  { unfold mstep in E. rewrite E0 in E. destruct (Z.testbit b (w - 1)); [| done].
    rewrite <- (lxor_cancel_l poly (wrap_u w (Z.shiftl a 1))), <- (lxor_cancel_l poly (wrap_u w (Z.shiftl b 1))), !(Z.lxor_comm poly (wrap_u _ _)).
    by rewrite E. }
  apply Z.bits_inj'. intros i Hi. destruct (Z.ltb_spec i (w - 1)).
  - replace i with (i + 1 - 1) by lia. rewrite <- !Z.shiftl_spec by lia. unfold wrap_u in E1.
    rewrite <- (Z.mod_pow2_bits_low (Z.shiftl a 1) w), <- (Z.mod_pow2_bits_low (Z.shiftl b 1) w) by lia. by rewrite E1.
  - destruct (Z.eq_dec i (w - 1)) as [-> |]; [done |]. by rewrite !(testbit_above w) by lia.
Qed.

Lemma iter_inj (f : Z -> Z) k n a b :
  (∀ c, 0 <= c < n -> 0 <= f c < n) -> (∀ a b, 0 <= a < n -> 0 <= b < n -> f a = f b -> a = b) ->
  0 <= a < n -> 0 <= b < n -> Nat.iter k f a = Nat.iter k f b -> a = b.
Proof.
  intros Hf Hi Ha Hb. induction k as [| k IH]; [done |]. simpl. intros E. apply IH.
  apply Hi; [by apply iter_bound .. | done].
Qed.

End Registers.

(** ** The routines compute shift registers *)

(** Additive functions that agree on every single bit agree. *)
Lemma additive_ext (f g : Z -> Z) (n : nat) x :
  (∀ a b, 0 <= a < 2 ^ Z.of_nat n -> 0 <= b < 2 ^ Z.of_nat n -> f (Z.lxor a b) = Z.lxor (f a) (f b)) ->
  (∀ a b, 0 <= a < 2 ^ Z.of_nat n -> 0 <= b < 2 ^ Z.of_nat n -> g (Z.lxor a b) = Z.lxor (g a) (g b)) ->
  f 0 = g 0 -> forallb (λ i, f (2 ^ Z.of_nat i) =? g (2 ^ Z.of_nat i)) (seq 0 n) = true ->
  0 <= x < 2 ^ Z.of_nat n -> f x = g x.
Proof.
  intros Hf Hg E0 Hbits. rewrite forallb_forall in Hbits.
  assert (∀ k : nat, (k <= n)%nat -> ∀ x, 0 <= x < 2 ^ Z.of_nat k -> f x = g x) as H; [| by apply H].
  induction k as [| k IH]; intros Hk y Hy.
  - by replace y with 0 by (change (2 ^ Z.of_nat 0) with 1 in Hy; lia).
  - assert (2 ^ Z.of_nat (S k) = 2 * 2 ^ Z.of_nat k) as Ek by (rewrite Nat2Z.inj_succ; apply Z.pow_succ_r; lia).
    assert (2 ^ Z.of_nat (S k) <= 2 ^ Z.of_nat n) as Hle by (apply Z.pow_le_mono_r; lia).
    destruct (Z.ltb_spec y (2 ^ Z.of_nat k)); [apply IH; lia |].
    assert (y = Z.lxor (2 ^ Z.of_nat k) (y - 2 ^ Z.of_nat k)) as ->.
    { rewrite <- Z.add_nocarry_lxor; [lia |]. apply Z.bits_inj'. intros i Hi. rewrite Z.land_spec, Z.testbit_0_l.
      destruct (Z.eq_dec i (Z.of_nat k)) as [-> | Hne]; [rewrite (testbit_above (Z.of_nat k) (y - _)) by lia; btauto |].
      by rewrite Z.pow2_bits_false by lia. }
    rewrite Hf, Hg by lia. rewrite (IH ltac:(lia) (y - _)) by lia. f_equal.
    apply Z.eqb_eq, Hbits, in_seq. lia.
Qed.

(** Folds whose steps agree as long as the state is in range. *)
Lemma foldl_agree (P : Z -> Prop) (f g : Z -> Z -> Z) c src :
  (∀ c b, P c -> is_byte b -> f c b = g c b /\ P (g c b)) -> P c -> Forall is_byte src -> foldl f c src = foldl g c src.
Proof.
  intros Hfg Hc Hsrc. revert c Hc. induction Hsrc as [| b src Hb _ IH]; intros c Hc; [done |]. simpl.
  destruct (Hfg c b Hc Hb) as [-> Hg]. by apply IH.
Qed.

Lemma foldl_keeps (P : Z -> Prop) (g : Z -> Z -> Z) c src :
  (∀ c b, P c -> is_byte b -> P (g c b)) -> P c -> Forall is_byte src -> P (foldl g c src).
Proof. intros Hg Hc Hsrc. revert c Hc. induction Hsrc as [| b src Hb _ IH]; intros c Hc; [done |]. apply IH. by apply Hg. Qed.

Abbreviation below w := (λ c, 0 <= c < 2 ^ w).

Lemma iter_ext (f g : Z -> Z) k n c :
  (∀ c, 0 <= c < n -> f c = g c /\ 0 <= g c < n) -> 0 <= c < n -> Nat.iter k f c = Nat.iter k g c.
Proof.
  intros H Hc. induction k as [| k IH]; [done |]. simpl. rewrite IH. apply H, iter_bound; [| done].
  intros d Hd. by apply H.
Qed.

(** *** Bit by bit *)

Lemma crc16_mbyte poly seed src :
  0 <= poly < 2 ^ 16 -> 0 <= seed < 2 ^ 16 -> Forall is_byte src -> crc16 poly seed src = foldl (mbyte 16 poly) seed src.
Proof.
  intros Hp Hs Hsrc. apply (foldl_agree (below 16)); [| done | done]. intros c b Hc Hb.
  split; [| by apply mbyte_bound]. unfold mbyte. pose proof (shiftl_byte_bound 16 b ltac:(lia) Hb). change (16 - 8) with 8 in *.
  rewrite (wrap_u_id 16 (Z.shiftl b 8)) by done. apply (iter_ext _ _ _ (2 ^ 16)); [| apply lxor_bound; (done || lia)].
  intros d Hd. split; [| by apply mstep_bound]. unfold crc16_bit, mstep. change (16 - 1) with 15. change 0x8000 with (BIT 15). rewrite flag_any_BIT by lia.
  case_match; [| done]. by rewrite wrap_u_lxor, (wrap_u_id 16 poly) by lia.
Qed.

Lemma reflect_bit poly c : (if flag_any c 0x01 then Z.lxor (Z.shiftr c 1) poly else Z.shiftr c 1) = rstep poly c.
Proof. change 0x01 with (BIT 0). by rewrite flag_any_BIT by lia. Qed.

Lemma crc16_reflect_rbyte poly seed src : crc16_reflect poly seed src = foldl (rbyte poly) seed src.
Proof.
  unfold crc16_reflect. revert seed. induction src as [| b src IH]; intros seed; [done |]. cbn [foldl]. rewrite IH. f_equal.
  unfold rbyte. generalize (Z.lxor seed b). intros c. generalize 8%nat.
  intros k. induction k as [| k IHk]; [done |]. simpl. rewrite IHk. apply reflect_bit.
Qed.

Lemma crc8_mbyte poly seed src :
  0 <= poly < 2 ^ 8 -> 0 <= seed < 2 ^ 8 -> Forall is_byte src -> crc8 src poly seed false = foldl (mbyte 8 poly) seed src.
Proof.
  intros Hp Hs Hsrc. apply (foldl_agree (below 8)); [| done | done]. intros c b Hc Hb. unfold is_byte in Hb.
  split; [| by apply mbyte_bound]. unfold mbyte. change (8 - 8) with 0. rewrite Z.shiftl_0_r.
  apply (iter_ext _ _ _ (2 ^ 8)); [| apply lxor_bound; (done || lia)].
  intros d Hd. split; [| by apply mstep_bound]. unfold crc8_bit, mstep. change (8 - 1) with 7. change 0x80 with (BIT 7). rewrite flag_any_BIT by lia.
  case_match; [| done]. by rewrite wrap_u_lxor, (wrap_u_id 8 poly) by lia.
Qed.

Definition CRC24_LOW_POLY : Z := 0x864cfb.

Lemma crc24_bit_mstep c : 0 <= c < 2 ^ 24 -> crc24_bit c = mstep 24 CRC24_LOW_POLY c.
Proof.
  intros Hc. unfold crc24_bit, mstep. rewrite wrap_u_id by (rewrite Z.shiftl_mul_pow2 by lia; lia).
  change 0x01000000 with (BIT 24). rewrite flag_any_BIT, Z.shiftl_spec by lia. change (24 - 1) with 23.
  assert (∀ i, 24 < i -> Z.testbit (Z.shiftl c 1) i = false) as Hhigh.
  { intros i Hi. rewrite Z.shiftl_spec by lia. apply (testbit_above 24); lia. }
  assert (Z.testbit (Z.shiftl c 1) 24 = Z.testbit c 23) as H24 by (by rewrite Z.shiftl_spec by lia).
  change CRC24_PGP_POLY with (Z.lxor (BIT 24) CRC24_LOW_POLY). unfold wrap_u.
  destruct (Z.testbit c 23) eqn:Ht; [rewrite <- Z.lxor_assoc; f_equal |]; apply Z.bits_inj'; intros i Hi;
    rewrite ?Z.lxor_spec, ?BIT_testbit by lia; (destruct (Z.ltb_spec i 24); [rewrite Z.mod_pow2_bits_low by lia | rewrite Z.mod_pow2_bits_high by lia]);
    destruct (Z.eqb_spec 24 i) as [<- |]; try lia; rewrite ?H24, ?Hhigh by lia; btauto.
Qed.

Lemma crc24_mbyte seed src :
  0 <= seed < 2 ^ 24 -> Forall is_byte src -> crc24_pgp_update seed src = foldl (mbyte 24 CRC24_LOW_POLY) seed src.
Proof.
  intros Hs Hsrc. apply (foldl_agree (below 24)); [| done | done]. intros c b Hc Hb. split; [| by apply mbyte_bound].
  unfold mbyte. pose proof (shiftl_byte_bound 24 b ltac:(lia) Hb). change (24 - 8) with 16 in *.
  apply (iter_ext _ _ _ (2 ^ 24)); [| apply lxor_bound; (done || lia)].
  intros d Hd. split; [by apply crc24_bit_mstep | by apply mstep_bound].
Qed.

(** *** Fast routines *)

Lemma u8_land x : u8 x = Z.land x 255.
Proof. unfold wrap_u. by rewrite <- Z.land_ones by lia. Qed.

Lemma u8_bound x : is_byte (u8 x).
Proof. by apply wrap_u_bound. Qed.

Lemma byte_shiftr_0 b k : is_byte b -> 8 <= k -> Z.shiftr b k = 0.
Proof.
  unfold is_byte. intros Hb Hk. rewrite Z.shiftr_div_pow2 by lia. apply Z.div_small.
  pose proof (Z.pow_le_mono_r 2 8 k). lia.
Qed.

Lemma ccitt_byte c b :
  0 <= c < 2 ^ 16 -> is_byte b ->
  (let e := u8 (Z.lxor c b) in
   let f := u8 (Z.lxor e (Z.shiftl e 4)) in
   u16 (Z.lxor (Z.lxor (Z.lxor (Z.shiftr c 8) (Z.shiftl f 8)) (Z.shiftl f 3)) (Z.shiftr f 4))) = rbyte 0x8408 c b.
Proof.
  intros Hc Hb. rewrite <- (wrap_u_id 16 (rbyte 0x8408 c b)) by (by apply rbyte_bound). cbv zeta. f_equal.
  unfold rbyte. rewrite (riter_split _ 8). change (Z.ones (Z.of_nat 8)) with 255. change (Z.of_nat 8) with 8.
  rewrite <- u8_land, Z.shiftr_lxor, (byte_shiftr_0 b 8), Z.lxor_0_r by (done || lia).
  pose proof (u8_bound (Z.lxor c b)) as He. set (e := u8 (Z.lxor c b)) in *. rewrite !Z.lxor_assoc. f_equal.
  apply Z.eqb_eq. rewrite <- Z.lxor_assoc.
  by apply (all_bytes (λ e, let f := u8 (Z.lxor e (Z.shiftl e 4)) in
    Z.lxor (Z.lxor (Z.shiftl f 8) (Z.shiftl f 3)) (Z.shiftr f 4) =? Nat.iter 8 (rstep 0x8408) e)).
Qed.

(** The register with its bytes swapped, and what follows in an iteration of
    [crc16_itu_t]. *)
Definition swap16 (x : Z) : Z := u16 (Z.lor (Z.shiftr x 8) (Z.shiftl x 8)).

Definition itu_mix (x : Z) : Z :=
  let x := Z.lxor x (Z.shiftr (Z.land x 0xff) 4) in
  let x := u16 (Z.lxor x (Z.shiftl x 12)) in
  u16 (Z.lxor x (Z.shiftl (Z.land x 0xff) 5)).

Lemma swap16_lxor x : 0 <= x < 2 ^ 16 -> swap16 x = Z.lxor (Z.shiftr x 8) (u16 (Z.shiftl x 8)).
Proof.
  intros Hx. unfold swap16. rewrite <- Z.lxor_lor, wrap_u_lxor; [| lia |].
  - f_equal. apply wrap_u_id. apply shiftr_bound; lia.
  - apply Z.bits_inj'. intros i Hi. rewrite Z.land_spec, Z.shiftr_spec, Z.shiftl_spec, Z.testbit_0_l by lia.
    destruct (Z.ltb_spec i 8); [rewrite (Z.testbit_neg_r _ (i - 8)) by lia | rewrite (testbit_above 16) by lia]; btauto.
Qed.

Lemma land_lxor_l a b c : Z.land (Z.lxor a b) c = Z.lxor (Z.land a c) (Z.land b c).
Proof. apply Z.bits_inj'. intros i _. rewrite !Z.lxor_spec, !Z.land_spec, Z.lxor_spec. btauto. Qed.

Lemma itu_mix_lxor a b : itu_mix (Z.lxor a b) = Z.lxor (itu_mix a) (itu_mix b).
Proof.
  unfold itu_mix. cbv zeta. rewrite land_lxor_l, Z.shiftr_lxor, (lxor_swap a b).
  set (a1 := Z.lxor a _). set (b1 := Z.lxor b _). rewrite (Z.shiftl_lxor a1 b1), (lxor_swap a1 b1), (wrap_u_lxor 16 (Z.lxor a1 _)) by lia.
  set (a2 := u16 (Z.lxor a1 _)). set (b2 := u16 (Z.lxor b1 _)).
  by rewrite land_lxor_l, Z.shiftl_lxor, lxor_swap, wrap_u_lxor by lia.
Qed.

Lemma swap16_additive a b :
  0 <= a < 2 ^ 16 -> 0 <= b < 2 ^ 16 -> swap16 (Z.lxor a b) = Z.lxor (swap16 a) (swap16 b).
Proof.
  intros Ha Hb. rewrite !swap16_lxor by (try apply lxor_bound; lia).
  by rewrite Z.shiftr_lxor, Z.shiftl_lxor, wrap_u_lxor, lxor_swap by lia.
Qed.

Lemma itu_t_byte c b :
  0 <= c < 2 ^ 16 -> is_byte b -> itu_mix (Z.lxor (swap16 c) b) = mbyte 16 0x1021 c b.
Proof.
  intros Hc Hb. pose proof (shiftl_byte_bound 16 b ltac:(lia) Hb) as Hsb. change (16 - 8) with 8 in Hsb.
  assert (swap16 (Z.shiftl b 8) = b) as Hswap.
  { rewrite swap16_lxor by done. rewrite Z.shiftr_shiftl_l, Z.shiftl_shiftl by lia. change (8 - 8) with 0. rewrite Z.shiftl_0_r.
    unfold wrap_u. rewrite Z.shiftl_mul_pow2, Z.mod_mul, Z.lxor_0_r by lia. done. }
  rewrite <- Hswap at 1. rewrite <- swap16_additive by done. unfold mbyte. change (16 - 8) with 8.
  assert (0 <= Z.lxor c (Z.shiftl b 8) < 2 ^ 16) as Hx by (apply lxor_bound; lia).
  apply (additive_ext (λ x, itu_mix (swap16 x)) (Nat.iter 8 (mstep 16 0x1021)) 16).
  - intros x y Hx' Hy'. by rewrite swap16_additive, itu_mix_lxor.
  - intros x y _ _. apply iter_lxor. intros. apply mstep_lxor. lia.
  - by vm_compute.
  - by vm_compute.
  - done.
Qed.

(** A table of the four-bit steps, looked up for each half of a byte. *)
Lemma nibble_table (table : list Z) poly c b :
  forallb (λ n, table !!! n =? Nat.iter 4 (rstep poly) (Z.of_nat n)) (seq 0 16) = true -> is_byte b ->
  let c1 := Z.lxor (Z.shiftr c 4) (table !!! Z.to_nat (Z.land (Z.lxor c b) 15)) in
  Z.lxor (Z.shiftr c1 4) (table !!! Z.to_nat (Z.land (Z.lxor c1 (Z.shiftr b 4)) 15)) = rbyte poly c b.
Proof.
  intros Ht Hb c1. rewrite forallb_forall in Ht.
  assert (∀ x, table !!! Z.to_nat (Z.land x 15) = Nat.iter 4 (rstep poly) (Z.land x 15)) as Hlook.
  { intros x. assert (0 <= Z.land x 15 < 16) as Hx by (change 15 with (Z.ones 4); rewrite Z.land_ones by lia; apply Z.mod_pos_bound; lia).
    specialize (Ht (Z.to_nat (Z.land x 15)) ltac:(apply in_seq; lia)). apply Z.eqb_eq in Ht. rewrite Ht. f_equal. lia. }
  assert (∀ x, Nat.iter 4 (rstep poly) x = Z.lxor (Z.shiftr x 4) (table !!! Z.to_nat (Z.land x 15))) as Hsplit.
  { intros x. rewrite Hlook. apply (riter_split poly 4). }
  unfold rbyte. change 8%nat with (4 + 4)%nat. rewrite Nat.iter_add. rewrite (Hsplit (Z.lxor c b)), Z.shiftr_lxor.
  rewrite (Z.lxor_assoc (Z.shiftr c 4)), (Z.lxor_comm (Z.shiftr b 4)), <- Z.lxor_assoc. fold c1.
  rewrite Hsplit, Z.shiftr_lxor, Z.shiftr_shiftr, (byte_shiftr_0 b (4 + 4)), Z.lxor_0_r by (done || lia). done.
Qed.

Lemma crc32_ieee_rbyte crc data :
  0 <= crc < 2 ^ 32 -> Forall is_byte data ->
  crc32_ieee_update crc data = lnot32 (foldl (rbyte 0xedb88320) (lnot32 crc) data).
Proof.
  intros Hc Hd. unfold crc32_ieee_update. cbv zeta. f_equal.
  apply (foldl_agree (below 32)); [| by apply wrap_u_bound | done]. intros c b Hc' Hb. split; [| by apply rbyte_bound].
  apply (nibble_table crc32_table); [by vm_compute | done].
Qed.

Lemma crc32_c_rbyte crc data first_pkt last_pkt :
  0 <= crc < 2 ^ 32 -> Forall is_byte data ->
  crc32_c crc data first_pkt last_pkt =
    (let crc := foldl (rbyte 0x82f63b78) (if first_pkt then CRC32C_INIT else crc) data in
     if last_pkt then Z.lxor crc CRC32C_XOR_OUT else crc).
Proof.
  intros Hc Hd. unfold crc32_c. cbv zeta.
  enough (∀ c, 0 <= c < 2 ^ 32 -> foldl _ c data = foldl (rbyte 0x82f63b78) c data) as ->; [done | by destruct first_pkt |].
  intros c' Hc'. apply (foldl_agree (below 32)); [| done | done]. intros c0 b Hc0 Hb. split; [| by apply rbyte_bound].
  rewrite <- (nibble_table crc32c_table) by (done || by vm_compute). cbv zeta. by rewrite (Z.lxor_comm (Z.shiftr c0 4)), Z.lxor_comm.
Qed.

Lemma crc8_ccitt_mbyte seed src :
  0 <= seed < 2 ^ 8 -> Forall is_byte src -> crc8_ccitt seed src = foldl (mbyte 8 0x07) seed src.
Proof.
  intros Hs Hsrc. apply (foldl_agree (below 8)); [| done | done]. intros c b Hc Hb. split; [| by apply mbyte_bound].
  unfold mbyte. change (8 - 8) with 0. rewrite Z.shiftl_0_r. cbv zeta.
  assert (is_byte (Z.lxor c b)) as Hx by (by apply lxor_bound). apply Z.eqb_eq.
  by apply (all_bytes (λ x,
    u8 (Z.lxor (Z.shiftl (u8 (Z.lxor (Z.shiftl x 4) (crc8_ccitt_small_table !!! Z.to_nat (Z.shiftr x 4)))) 4)
      (crc8_ccitt_small_table !!! Z.to_nat (Z.shiftr (u8 (Z.lxor (Z.shiftl x 4) (crc8_ccitt_small_table !!! Z.to_nat (Z.shiftr x 4)))) 4)))
    =? Nat.iter 8 (mstep 8 0x07) x)).
Qed.

Lemma crc7_be_mbyte seed src :
  0 <= seed < 2 ^ 8 -> Forall is_byte src -> crc7_be seed src = foldl (mbyte 8 0x12) seed src.
Proof.
  intros Hs Hsrc. apply (foldl_agree (below 8)); [| done | done]. intros c b Hc Hb. split; [| by apply mbyte_bound].
  unfold mbyte. change (8 - 8) with 0. rewrite Z.shiftl_0_r. cbv zeta.
  assert (is_byte (Z.lxor c b)) as Hx by (by apply lxor_bound). apply Z.eqb_eq.
  by apply (all_bytes (λ x,
    let f := Z.lxor (Z.lxor x (Z.shiftr x 4)) (Z.shiftr x 7) in
    u8 (Z.lxor (Z.shiftl f 1) (Z.shiftl f 4)) =? Nat.iter 8 (mstep 8 0x12) x)).
Qed.

(** An iteration of [crc4_ti]. *)
Definition ti_step (index : Z) : Z :=
  Z.land (Z.shiftr (crc4_lookup !!! Z.to_nat (Z.shiftr index 1)) ((1 - Z.land index 1) * 4)) 0xf.

(** The register of [crc4] holds that of [crc4_ti] in its low half. *)
Lemma crc4_nibble_step crc byte j :
  is_byte crc -> is_byte byte -> 0 <= j <= 1 ->
  let crc' := Nat.iter 4 (crc4_bit 0x3 false) (Z.lxor crc (crc4_nibble byte j)) in
  is_byte crc' /\ Z.land crc' 15 = ti_step (Z.lxor (Z.land crc 15) (crc4_nibble byte j)).
Proof.
  intros Hc Hb Hj. cbv zeta.
  assert (∀ x, 0 <= Z.land x 15 < 2 ^ 4) as H15 by (intros x; change 15 with (Z.ones 4); rewrite Z.land_ones by lia; apply Z.mod_pos_bound; lia).
  assert (crc4_nibble byte j = Z.land (crc4_nibble byte j) 15) as Hn by (unfold crc4_nibble; by rewrite <- Z.land_assoc).
  rewrite Hn at 3. rewrite <- land_lxor_l.
  assert (is_byte (Z.lxor crc (crc4_nibble byte j))) as Hx.
  { apply lxor_bound; [lia | done |]. rewrite Hn. pose proof (H15 (crc4_nibble byte j)). lia. }
  set (x := Z.lxor crc _) in *.
  pose proof (all_bytes (λ x, let c := Nat.iter 4 (crc4_bit 0x3 false) x in
    (Z.land c 15 =? ti_step (Z.land x 15)) && (0 <=? c) && (c <? 2 ^ 8)) x ltac:(by vm_compute) Hx) as H.
  cbv beta zeta in H. bool_hyps. done.
Qed.

Lemma crc4_ti_crc4 seed src :
  0 <= seed < 16 -> Forall is_byte src -> crc4_ti seed src = crc4 src 0x3 seed false.
Proof.
  intros Hs Hsrc. unfold crc4.
  change (crc4_ti seed src) with
    (foldl (λ c b, ti_step (Z.lxor (ti_step (Z.lxor c (crc4_nibble b 0))) (crc4_nibble b 1))) seed src).
  replace seed with (Z.land seed 15) at 1 by (change 15 with (Z.ones 4); rewrite Z.land_ones by lia; apply Z.mod_small; lia).
  assert (is_byte seed) as Hseed by (unfold is_byte; lia). clear Hs. revert seed Hseed.
  induction Hsrc as [| b src Hb _ IH]; intros seed Hseed; [done |]. cbn [foldl].
  destruct (crc4_nibble_step seed b 0 Hseed Hb ltac:(lia)) as [Hc0 <-].
  destruct (crc4_nibble_step _ b 1 Hc0 Hb ltac:(lia)) as [Hc1 <-]. by apply IH.
Qed.

(** C23: The fast CRC routines compute what their polynomials ask for, on every
    input: the shift tricks of [crc16_ccitt] and [crc16_itu_t] are the
    bit-by-bit [crc16_reflect] and [crc16] of 0x1021, the tables of
    [crc32_ieee_update], [crc32_c], [crc8_ccitt] and [crc4_ti] are the shift
    registers of 0x04c11db7 and 0x1edc6f41 (reflected), 0x07 and 0x3,
    [crc7_be] is that of 0x09, left justified, and [crc24_pgp_update] that of
    0x864cfb. *)
Theorem crc_fast_exact seed src :
  Forall is_byte src -> 0 <= seed ->
  (seed < 2 ^ 16 -> crc16_ccitt seed src = crc16_reflect 0x8408 seed src) /\
  (seed < 2 ^ 16 -> crc16_itu_t seed src = crc16 0x1021 seed src) /\
  (seed < 2 ^ 32 -> crc32_ieee_update seed src = lnot32 (foldl (rbyte 0xedb88320) (lnot32 seed) src)) /\
  (seed < 2 ^ 32 -> crc32_c seed src true true = Z.lxor (foldl (rbyte 0x82f63b78) CRC32C_INIT src) CRC32C_XOR_OUT) /\
  (seed < 2 ^ 24 -> crc24_pgp_update seed src = foldl (mbyte 24 0x864cfb) seed src) /\
  (seed < 2 ^ 8 -> crc8_ccitt seed src = crc8 src 0x07 seed false) /\
  (seed < 2 ^ 8 -> crc7_be seed src = crc8 src 0x12 seed false) /\
  (seed < 16 -> crc4_ti seed src = crc4 src 0x3 seed false).
Proof.
  intros Hsrc Hs. split_and!; intros Hw.
  - rewrite crc16_reflect_rbyte. apply (foldl_agree (below 16)); [| done | done]. intros c b Hc Hb.
    split; [by apply ccitt_byte | by apply rbyte_bound].
  - rewrite crc16_mbyte by done. apply (foldl_agree (below 16)); [| done | done]. intros c b Hc Hb.
    split; [by apply itu_t_byte | by apply mbyte_bound].
  - by apply crc32_ieee_rbyte.
  - by rewrite crc32_c_rbyte.
  - by apply crc24_mbyte.
  - by rewrite crc8_ccitt_mbyte, crc8_mbyte.
  - by rewrite crc7_be_mbyte, crc8_mbyte.
  - by apply crc4_ti_crc4.
Qed.

(** ** Error detection *)

Section Detect.
Context (w : Z) (step : Z -> Z -> Z).
Hypothesis step_bound : ∀ c b, 0 <= c < 2 ^ w -> is_byte b -> 0 <= step c b < 2 ^ w.
Hypothesis step_inj_l : ∀ c c' b, 0 <= c < 2 ^ w -> 0 <= c' < 2 ^ w -> is_byte b -> step c b = step c' b -> c = c'.
Hypothesis step_inj_r : ∀ c b b', 0 <= c < 2 ^ w -> is_byte b -> is_byte b' -> step c b = step c b' -> b = b'.

Lemma detects seed l b b' r :
  0 <= seed < 2 ^ w -> Forall is_byte l -> is_byte b -> is_byte b' -> Forall is_byte r -> b ≠ b' ->
  foldl step seed (l ++ b :: r) ≠ foldl step seed (l ++ b' :: r).
Proof.
  intros Hs Hl Hb Hb' Hr Hne. rewrite !foldl_app. simpl.
  assert (0 <= foldl step seed l < 2 ^ w) as Hc by (by apply (foldl_keeps (below w))).
  revert Hc. generalize (foldl step seed l) as c. intros c Hc E.
  assert (∀ x y, 0 <= x < 2 ^ w -> 0 <= y < 2 ^ w -> foldl step x r = foldl step y r -> x = y) as Hinj.
  { clear E. induction Hr as [| d r Hd _ IH]; [done |]. intros x y Hx Hy E. simpl in E. apply IH in E; [by eapply step_inj_l | auto ..]. }
  apply Hinj in E; [| auto ..]. by apply Hne, (step_inj_r c).
Qed.

End Detect.

Lemma lxor_inj_l a x y : Z.lxor a x = Z.lxor a y -> x = y.
Proof. intros E. by rewrite <- (lxor_cancel_l a x), E, lxor_cancel_l. Qed.

Lemma lxor_inj_r a x y : Z.lxor x a = Z.lxor y a -> x = y.
Proof. rewrite !(Z.lxor_comm _ a). apply lxor_inj_l. Qed.

Lemma detects_rbyte w poly seed l b b' r :
  8 <= w -> 0 <= poly < 2 ^ w -> Z.testbit poly (w - 1) = true ->
  0 <= seed < 2 ^ w -> Forall is_byte l -> is_byte b -> is_byte b' -> Forall is_byte r -> b ≠ b' ->
  foldl (rbyte poly) seed (l ++ b :: r) ≠ foldl (rbyte poly) seed (l ++ b' :: r).
Proof.
  intros Hw Hp Htop. assert (∀ b, is_byte b -> 0 <= b < 2 ^ w) as Hle.
  { unfold is_byte. intros x Hx. pose proof (Z.pow_le_mono_r 2 8 w). lia. }
  assert (∀ x y, 0 <= x < 2 ^ w -> 0 <= y < 2 ^ w -> Nat.iter 8 (rstep poly) x = Nat.iter 8 (rstep poly) y -> x = y) as Hinj.
  { intros x y Hx Hy. apply (iter_inj _ _ (2 ^ w)); [intros; apply rstep_bound; (done || lia) | | done | done].
    intros. apply (rstep_inj w poly); (done || lia). }
  apply (detects w).
  - intros. by apply rbyte_bound.
  - intros c c' x Hc Hc' Hx E. apply Hinj in E; [by apply lxor_inj_r in E | apply lxor_bound; auto with lia ..].
  - intros c x x' Hc Hx Hx' E. apply Hinj in E; [by apply lxor_inj_l in E | apply lxor_bound; auto with lia ..].
Qed.

Lemma detects_mbyte w poly seed l b b' r :
  8 <= w -> 0 <= poly < 2 ^ w -> Z.testbit poly 0 = true ->
  0 <= seed < 2 ^ w -> Forall is_byte l -> is_byte b -> is_byte b' -> Forall is_byte r -> b ≠ b' ->
  foldl (mbyte w poly) seed (l ++ b :: r) ≠ foldl (mbyte w poly) seed (l ++ b' :: r).
Proof.
  intros Hw Hp Htop.
  assert (∀ x y, 0 <= x < 2 ^ w -> 0 <= y < 2 ^ w -> Nat.iter 8 (mstep w poly) x = Nat.iter 8 (mstep w poly) y -> x = y) as Hinj.
  { intros x y Hx Hy. apply (iter_inj _ _ (2 ^ w)); [intros; apply mstep_bound; (done || lia) | | done | done].
    intros. apply (mstep_inj w poly); (done || lia). }
  apply (detects w).
  - intros. by apply mbyte_bound.
  - intros c c' x Hc Hc' Hx E. apply Hinj in E; [by apply lxor_inj_r in E | apply lxor_bound; auto using shiftl_byte_bound with lia ..].
  - intros c x x' Hc Hx Hx' E. apply Hinj in E; [| apply lxor_bound; auto using shiftl_byte_bound with lia ..].
    apply lxor_inj_l in E. rewrite !Z.shiftl_mul_pow2 in E by lia. apply Z.mul_reg_r in E; [done | lia].
Qed.

Lemma lnot32_lxor x : 0 <= x < 2 ^ 32 -> lnot32 x = Z.lxor x (Z.ones 32).
Proof.
  intros Hx. unfold lnot32, wrap_u. rewrite <- Z.land_ones by lia. apply Z.bits_inj'. intros i Hi.
  rewrite Z.land_spec, Z.lnot_spec, Z.lxor_spec by done. destruct (Z.ltb_spec i 32).
  - rewrite Z.ones_spec_low by lia. btauto.
  - rewrite Z.ones_spec_high, (testbit_above 32 x) by lia. done.
Qed.

Lemma lnot32_inj x y : 0 <= x < 2 ^ 32 -> 0 <= y < 2 ^ 32 -> lnot32 x = lnot32 y -> x = y.
Proof. intros Hx Hy. rewrite !lnot32_lxor by done. apply lxor_inj_r. Qed.

(** Changing one byte of a message changes its checksum: for CRC-32,
    CRC-32C, the OpenPGP CRC-24, CRC-8, and every CRC-16 whose polynomial has
    a constant term. *)
Theorem crc_detects_byte l b b' r :
  Forall is_byte l -> Forall is_byte r -> is_byte b -> is_byte b' -> b ≠ b' ->
  crc32_ieee (l ++ b :: r) ≠ crc32_ieee (l ++ b' :: r) /\
  crc32_c 0 (l ++ b :: r) true true ≠ crc32_c 0 (l ++ b' :: r) true true /\
  crc24_pgp (l ++ b :: r) ≠ crc24_pgp (l ++ b' :: r) /\
  (∀ seed, 0 <= seed < 2 ^ 8 -> crc8_ccitt seed (l ++ b :: r) ≠ crc8_ccitt seed (l ++ b' :: r)) /\
  (∀ poly seed, 0 <= seed < 2 ^ 16 -> 0 <= poly < 2 ^ 16 ->
    (Z.testbit poly 0 = true -> crc16 poly seed (l ++ b :: r) ≠ crc16 poly seed (l ++ b' :: r)) /\
    (Z.testbit poly 15 = true -> crc16_reflect poly seed (l ++ b :: r) ≠ crc16_reflect poly seed (l ++ b' :: r))).
Proof.
  intros Hl Hr Hb Hb' Hne.
  assert (Forall is_byte (l ++ b :: r) /\ Forall is_byte (l ++ b' :: r)) as [H H'].
  { rewrite !Forall_app, !Forall_cons. done. }
  split_and!.
  - unfold crc32_ieee. rewrite !crc32_ieee_rbyte by done. intros E. apply lnot32_inj in E.
    + by eapply (detects_rbyte 32) in E.
    + apply (foldl_keeps (below 32)); [intros; by apply rbyte_bound | done | done].
    + apply (foldl_keeps (below 32)); [intros; by apply rbyte_bound | done | done].
  - rewrite !crc32_c_rbyte by done. intros E. apply lxor_inj_r in E. by eapply (detects_rbyte 32) in E.
  - unfold crc24_pgp. rewrite !crc24_mbyte by done. change CRC24_FINAL_VALUE_MASK with (Z.ones 24). rewrite !Z.land_ones by lia.
    assert (∀ src, Forall is_byte src -> 0 <= foldl (mbyte 24 CRC24_LOW_POLY) CRC24_PGP_INITIAL_VALUE src < 2 ^ 24) as Hb24.
    { intros src Hsrc. apply (foldl_keeps (below 24)); [intros; by apply mbyte_bound | done | done]. }
    rewrite !Z.mod_small by auto. by apply detects_mbyte.
  - intros seed Hs. rewrite !crc8_ccitt_mbyte by done. by apply detects_mbyte.
  - intros poly seed Hs Hp. split; intros Hbit.
    + rewrite !crc16_mbyte by done. by apply detects_mbyte.
    + rewrite !crc16_reflect_rbyte. by apply (detects_rbyte 16).
Qed.

(** A checksum may be continued over the next part of the data. *)
Lemma crc_resume crc l r :
  0 <= crc < 2 ^ 32 -> Forall is_byte l -> Forall is_byte r ->
  crc32_ieee_update (crc32_ieee_update crc l) r = crc32_ieee_update crc (l ++ r) /\
  ∀ first_pkt last_pkt, crc32_c (crc32_c crc l first_pkt false) r false last_pkt = crc32_c crc (l ++ r) first_pkt last_pkt.
Proof.
  intros Hc Hl Hr. assert (Forall is_byte (l ++ r)) by (by apply Forall_app).
  assert (∀ poly c, 0 <= poly < 2 ^ 32 -> 0 <= c < 2 ^ 32 -> 0 <= foldl (rbyte poly) c l < 2 ^ 32) as Hb.
  { intros poly c Hp Hc'. apply (foldl_keeps (below 32)); [intros; by apply rbyte_bound | done | done]. }
  split.
  - rewrite !crc32_ieee_rbyte by (done || by apply wrap_u_bound). rewrite foldl_app. do 2 f_equal.
    rewrite lnot32_lxor by (by apply wrap_u_bound). rewrite lnot32_lxor by (apply Hb; [done | by apply wrap_u_bound]).
    by rewrite Z.lxor_assoc, Z.lxor_nilpotent, Z.lxor_0_r.
  - intros first_pkt last_pkt.
    assert (0 <= crc32_c crc l first_pkt false < 2 ^ 32).
    { rewrite crc32_c_rbyte by done. apply Hb; [done |]. by destruct first_pkt. }
    rewrite !(crc32_c_rbyte _ _ _ last_pkt) by done. rewrite (crc32_c_rbyte crc l first_pkt false) by done. by rewrite foldl_app.
Qed.

(** The note in the documentation of [crc16] names 0x1012 as the polynomial of
    [crc16_itu_t]: it is not. *)
Lemma itu_t_not_1012 : crc16 0x1012 0 [1] ≠ crc16_itu_t 0 [1].
Proof. by vm_compute. Qed.

Lemma crc_fast_exact_witness :
  crc16_ccitt 0xffff [49; 50; 51] = crc16_reflect 0x8408 0xffff [49; 50; 51] /\ crc16_ccitt 0xffff [49; 50; 51] = 25419.
Proof.
  split; [| by vm_compute]. apply (crc_fast_exact 0xffff [49; 50; 51]); [repeat constructor; lia | lia | lia].
Defined.

Lemma crc_detects_byte_witness : crc32_ieee [1; 2; 3] ≠ crc32_ieee [1; 130; 3].
Proof. apply (crc_detects_byte [1] 2 130 [3]); [repeat constructor; lia .. | split; lia | split; lia | lia]. Defined.
