(* ===== verification/Hex.v ===== *)
(** * Hexadecimal and decimal conversions (lib/utils/hex.c, lib/utils/dec.c)

    Input buffers are byte sequences.  A result comes with the bytes written to
    the output buffer, from its start.  [size_t] has 32 bits. *)

From Stdlib Require Import ZArith Lia Bool.
From stdpp Require Import base numbers list.
From S2P Require Import Prelude.

Open Scope Z_scope.

(** ** hex.c *)

(** [None] is -EINVAL. *)
Definition char2hex (c : Z) : option Z :=
  if (48 <=? c) && (c <=? 57) then Some (c - 48)
  else if (97 <=? c) && (c <=? 102) then Some (c - 97 + 10)
  else if (65 <=? c) && (c <=? 70) then Some (c - 65 + 10)
  else None.

Definition hex2char (x : Z) : option Z :=
  if x <=? 9 then Some (x + 48)
  else if x <=? 15 then Some (x - 10 + 97)
  else None.

(** The loop of [bin2hex]: whether every digit was written. *)
Fixpoint bin2hex_loop (buf : list Z) : bool * list Z :=
  match buf with
  | [] => (true, [])
  | byte :: buf =>
      match hex2char (Z.shiftr byte 4) with
      | None => (false, [])
      | Some hi =>
          match hex2char (Z.land byte 0xf) with
          | None => (false, [hi])
          | Some lo => let '(ok, out) := bin2hex_loop buf in (ok, hi :: lo :: out)
          end
      end
  end.

Definition bin2hex (buf : list Z) (hexlen : Z) : Z * list Z :=
  let buflen := Z.of_nat (length buf) in
  if hexlen <? u32 (u32 (buflen * 2) + 1) then (0, [])
  else
    let '(ok, out) := bin2hex_loop buf in
    if ok then (u32 (2 * buflen), out ++ [0]) else (0, out).

(** The loop of [hex2bin] over pairs of digits; the first digit of a pair is
    stored before the second one is read. *)
Fixpoint hex2bin_loop (hex : list Z) : bool * list Z :=
  match hex with
  | hi :: lo :: hex =>
      match char2hex hi with
      | None => (false, [])
      | Some dec =>
          let byte := u8 (Z.shiftl dec 4) in
          match char2hex lo with
          | None => (false, [byte])
          | Some dec => let '(ok, out) := hex2bin_loop hex in (ok, u8 (byte + dec) :: out)
          end
      end
  | _ => (true, [])
  end.

Definition hex2bin (hex : list Z) (buflen : Z) : Z * list Z :=
  let hexlen := Z.of_nat (length hex) in
  if buflen <? hexlen / 2 + hexlen mod 2 then (0, [])
  else if negb (hexlen mod 2 =? 0) then
    match hex with
    | [] => (0, [])
    | c :: hex =>
        match char2hex c with
        | None => (0, [])
        | Some dec =>
            let '(ok, out) := hex2bin_loop hex in
            (if ok then hexlen / 2 + hexlen mod 2 else 0, dec :: out)
        end
    end
  else
    let '(ok, out) := hex2bin_loop hex in
    (if ok then hexlen / 2 + hexlen mod 2 else 0, out).

(** ** dec.c *)

(** The loop: the digits written, the value and the room left. *)
Fixpoint dec_loop (fuel : nat) (buflen divisor value num_digits : Z) : Z * Z * list Z :=
  match fuel with
  | O => (buflen, num_digits, [])
  | S fuel =>
      if (0 <? buflen) && (0 <? divisor) then
        let digit := value / divisor in
        let emit := negb (digit =? 0) || (divisor =? 1) || negb (num_digits =? 0) in
        let value := value - digit * divisor in
        if emit then
          let '(buflen, num_digits, out) := dec_loop fuel (buflen - 1) (divisor / 10) value (num_digits + 1) in
          (buflen, num_digits, (digit + 48) :: out)
        else dec_loop fuel buflen (divisor / 10) value num_digits
      else (buflen, num_digits, [])
  end.

(** The divisors are 100, 10 and 1; the fourth test of the loop ends it. *)
Definition u8_to_dec (buflen value : Z) : Z * list Z :=
  let '(buflen, num_digits, out) := dec_loop 4 buflen 100 value 0 in
  (num_digits, if negb (buflen =? 0) then out ++ [0] else out).

(** ** Hexadecimal digits *)

Lemma byte_halves b : is_byte b -> 0 <= Z.shiftr b 4 <= 15 /\ 0 <= Z.land b 15 <= 15 /\ b = 16 * Z.shiftr b 4 + Z.land b 15.
Proof.
  unfold is_byte. intros Hb. change 15 with (Z.ones 4). rewrite Z.land_ones, Z.shiftr_div_pow2 by lia.
  change (Z.ones 4) with 15. change (2 ^ 4) with 16. pose proof (Z.div_mod b 16 ltac:(lia)). pose proof (Z.mod_pos_bound b 16 ltac:(lia)). lia.
Qed.

(** The digit of [x], and the value of a digit in either case. *)
Definition digit (x : Z) : Z := if x <=? 9 then x + 48 else x + 87.

Lemma hex2char_digit x : 0 <= x <= 15 -> hex2char x = Some (digit x).
Proof.
  intros Hx. unfold hex2char, digit. destruct (Z.leb_spec x 9); [done |]. rewrite (proj2 (Z.leb_le x 15)) by lia. f_equal. lia.
Qed.

Lemma char2hex_digit x : 0 <= x <= 15 -> char2hex (digit x) = Some x.
Proof.
  intros Hx. unfold char2hex, digit.
  destruct (Z.leb_spec x 9); repeat match goal with |- context [?a <=? ?b] => destruct (Z.leb_spec a b) end; simpl; try lia; f_equal; lia.
Qed.

Definition byte_digits (b : Z) : list Z := [digit (Z.shiftr b 4); digit (Z.land b 15)].

Lemma bin2hex_loop_digits buf : Forall is_byte buf -> bin2hex_loop buf = (true, buf ≫= byte_digits).
Proof.
  induction 1 as [| b buf Hb _ IH]; [done |]. simpl. destruct (byte_halves b Hb) as (H1 & H2 & _).
  by rewrite !hex2char_digit, IH by lia.
Qed.

Lemma hex2bin_loop_digits buf : Forall is_byte buf -> hex2bin_loop (buf ≫= byte_digits) = (true, buf).
Proof.
  induction 1 as [| b buf Hb _ IH]; [done |]. cbn. destruct (byte_halves b Hb) as (H1 & H2 & E).
  rewrite !char2hex_digit by lia. cbn in IH. rewrite IH. unfold is_byte in Hb.
  rewrite Z.shiftl_mul_pow2, !wrap_u_id by (rewrite ?wrap_u_id by lia; lia). do 2 f_equal. lia.
Qed.

(** The value of a digit sequence, most significant digit first; [None] when
    one of them is not a digit. *)
Fixpoint hex_value (acc : Z) (hex : list Z) : option Z :=
  match hex with
  | [] => Some acc
  | c :: hex => d ← char2hex c; hex_value (16 * acc + d) hex
  end.

(** The value of a byte sequence, most significant byte first. *)
Definition be_value (acc : Z) (l : list Z) : Z := foldl (λ v b, 256 * v + b) acc l.

Lemma char2hex_range c d : char2hex c = Some d -> 0 <= d <= 15.
Proof. unfold char2hex. intros H. repeat (case_match; bool_hyps; simplify_eq); lia. Qed.

Lemma hex2bin_loop_value n hex acc :
  length hex = (2 * n)%nat ->
  match hex_value acc hex with
  | Some v => exists out, hex2bin_loop hex = (true, out) /\ length out = n /\ Forall is_byte out /\ be_value acc out = v
  | None => (hex2bin_loop hex).1 = false
  end.
Proof.
  revert hex acc. induction n as [| n IH]; intros hex acc Hlen.
  - destruct hex; [| done]. simpl. by exists [].
  - destruct hex as [| hi [| lo hex]]; try (simpl in Hlen; lia). cbn [hex_value hex2bin_loop].
    destruct (char2hex hi) as [h |] eqn:Eh; cbn [mbind option_bind]; [| done].
    destruct (char2hex lo) as [l |] eqn:El; cbn [mbind option_bind]; [| done].
    apply char2hex_range in Eh, El. specialize (IH hex (16 * (16 * acc + h) + l) ltac:(simpl in Hlen; lia)).
    rewrite Z.shiftl_mul_pow2, !wrap_u_id by (rewrite ?wrap_u_id by lia; lia).
    destruct (hex_value _ hex) as [v |].
    + destruct IH as (out & -> & Hl & Hb & Hv). eexists. split; [done |]. split; [simpl; lia |]. split.
      * constructor; [unfold is_byte; lia | done].
      * rewrite <- Hv. unfold be_value. simpl. f_equal. lia.
    + by destruct (hex2bin_loop hex).
Qed.

(** Printing bytes as hexadecimal digits and reading them back gives the
    bytes; the printed string has two digits per byte and a final NUL. *)
Theorem hex_roundtrip buf hexlen :
  Forall is_byte buf -> 2 * Z.of_nat (length buf) + 1 <= hexlen < 2 ^ 32 ->
  exists hex, bin2hex buf hexlen = (2 * Z.of_nat (length buf), hex ++ [0]) /\
    length hex = (2 * length buf)%nat /\ hex2bin hex (Z.of_nat (length buf)) = (Z.of_nat (length buf), buf).
Proof.
  intros Hb Hlen. unfold bin2hex. rewrite !(wrap_u_id 32) by (rewrite ?wrap_u_id by lia; lia).
  destruct (Z.ltb_spec hexlen (Z.of_nat (length buf) * 2 + 1)); [lia |]. rewrite bin2hex_loop_digits by done.
  assert (length (buf ≫= byte_digits) = (2 * length buf)%nat) as E.
  { clear. induction buf as [| b buf IH]; [done |]. rewrite bind_cons, length_app, IH. simpl. lia. }
  exists (buf ≫= byte_digits). split; [done |]. split; [done |]. unfold hex2bin. rewrite E.
  replace (Z.of_nat (2 * length buf)) with (Z.of_nat (length buf) * 2) by lia. rewrite Z.div_mul, Z.mod_mul by lia.
  rewrite (proj2 (Z.ltb_ge _ _)) by lia. simpl. rewrite hex2bin_loop_digits by done. f_equal. lia.
Qed.

(** [hex2bin] reads a string of digits in either case as a number, most
    significant byte first, an odd number of digits with a leading zero; it
    returns 0 when a character is not a digit or the buffer is too small. *)
Theorem hex2bin_spec hex buflen :
  let n := (Z.of_nat (length hex) + 1) / 2 in
  match hex_value 0 hex with
  | Some v => if n <=? buflen
              then exists out, hex2bin hex buflen = (n, out) /\ Z.of_nat (length out) = n /\ Forall is_byte out /\ be_value 0 out = v
              else hex2bin hex buflen = (0, [])
  | None => (hex2bin hex buflen).1 = 0
  end.
Proof.
  intros n. unfold hex2bin.
  assert (Z.of_nat (length hex) / 2 + Z.of_nat (length hex) mod 2 = n) as ->.
  { unfold n. pose proof (Z.div_mod (Z.of_nat (length hex)) 2). pose proof (Z.mod_pos_bound (Z.of_nat (length hex)) 2).
    apply (Z.div_unique_pos _ _ _ (1 - Z.of_nat (length hex) mod 2)); lia. }
  pose proof (Z.div_mod (Z.of_nat (length hex)) 2 ltac:(lia)) as Hdm. pose proof (Z.mod_pos_bound (Z.of_nat (length hex)) 2 ltac:(lia)).
  destruct (Z.ltb_spec buflen n), (Z.leb_spec n buflen); try lia; [by destruct (hex_value 0 hex) |].
  destruct (Z.eqb_spec (Z.of_nat (length hex) mod 2) 0) as [E | E]; cbn [negb].
  - pose proof (hex2bin_loop_value (Z.to_nat (Z.of_nat (length hex) / 2)) hex 0 ltac:(lia)) as H'.
    assert (n = Z.of_nat (length hex) / 2) as En.
    { unfold n. symmetry. apply (Z.div_unique_pos _ _ _ 1); lia. }
    destruct (hex_value 0 hex) as [v |]; [| by destruct (hex2bin_loop hex) as [[] ?]].
    destruct H' as (out & -> & Hl & Hb & Hv). exists out. split; [done |]. split; [lia | done].
  - destruct hex as [| c hex]; [done |]. cbn [hex_value length] in *. destruct (char2hex c) as [d |] eqn:Ec; cbn [mbind option_bind]; [| done].
    pose proof (hex2bin_loop_value (Z.to_nat (Z.of_nat (S (length hex)) / 2)) hex (16 * 0 + d) ltac:(lia)) as H'.
    assert (n = Z.of_nat (S (length hex)) / 2 + 1) as En.
    { unfold n. symmetry. apply (Z.div_unique_pos _ _ _ 0); lia. }
    destruct (hex_value _ hex) as [v |]; [| by destruct (hex2bin_loop hex) as [[] ?]].
    destruct H' as (out & -> & Hl & Hb & Hv). exists (d :: out). split; [done |]. split; [simpl; lia |].
    apply char2hex_range in Ec. split; [constructor; [unfold is_byte; lia | done] | done].
Qed.

(** ** Decimal digits *)

(** The decimal digits of a byte, without leading zeros. *)
Definition dec_digits (value : Z) : list Z :=
  (if value <? 100 then [] else [value / 100 + 48]) ++ (if value <? 10 then [] else [value / 10 mod 10 + 48]) ++ [value mod 10 + 48].

(** Room beyond what the loop can use does not matter. *)
Lemma dec_loop_room fuel buflen divisor value num_digits extra :
  Z.of_nat fuel <= buflen -> 0 <= extra ->
  dec_loop fuel (buflen + extra) divisor value num_digits =
    (let '(b, n, out) := dec_loop fuel buflen divisor value num_digits in (b + extra, n, out)).
Proof.
  revert buflen divisor value num_digits. induction fuel as [| fuel IH]; intros buflen divisor value num_digits Hf He; [done |].
  cbn [dec_loop]. rewrite (proj2 (Z.ltb_lt 0 buflen)), (proj2 (Z.ltb_lt 0 (buflen + extra))) by lia. cbn [andb]. cbv zeta. destruct (0 <? divisor); [| done].
  case_match; [| apply IH; lia]. replace (buflen + extra - 1) with (buflen - 1 + extra) by lia.
  rewrite IH by lia. by destruct (dec_loop fuel _ _ _ _) as [[? ?] ?].
Qed.

(** What the loop does in a buffer of [buflen], by evaluation for all values. *)
Definition dec_ok (buflen value : Z) : bool :=
  let digits := take (Z.to_nat buflen) (dec_digits value) in
  let '(b, n, out) := dec_loop 4 buflen 100 value 0 in
  (n =? Z.of_nat (length digits)) && (b =? buflen - n) && bool_decide (out = digits).

Lemma dec_loop_digits buflen value :
  0 <= buflen -> 0 <= value < 256 ->
  let digits := take (Z.to_nat buflen) (dec_digits value) in
  dec_loop 4 buflen 100 value 0 = (buflen - Z.of_nat (length digits), Z.of_nat (length digits), digits).
Proof.
  intros Hl Hv.
  assert (forallb (λ k, forallb (λ n, dec_ok (Z.of_nat k) (Z.of_nat n)) (seq 0 256)) (seq 0 5) = true) as Hall by (by vm_compute).
  assert (∀ k, 0 <= k <= 4 -> dec_ok k value = true) as Hok.
  { intros k Hk. rewrite forallb_forall in Hall. specialize (Hall (Z.to_nat k) ltac:(apply in_seq; lia)).
    rewrite forallb_forall in Hall. specialize (Hall (Z.to_nat value) ltac:(apply in_seq; lia)). by rewrite !Z2Nat.id in Hall by lia. }
  assert (∀ k, 0 <= k <= 4 -> let digits := take (Z.to_nat k) (dec_digits value) in
    dec_loop 4 k 100 value 0 = (k - Z.of_nat (length digits), Z.of_nat (length digits), digits)) as Hsmall.
  { intros k Hk. specialize (Hok k Hk). unfold dec_ok in Hok. cbv zeta in *. destruct (dec_loop 4 k 100 value 0) as [[b n] out].
    bool_hyps. apply bool_decide_eq_true in H0. by subst. }
  cbv zeta. destruct (Z.leb_spec buflen 4); [apply Hsmall; lia |].
  replace buflen with (4 + (buflen - 4)) at 1 by lia. rewrite dec_loop_room, Hsmall by lia. 
  assert (length (dec_digits value) <= 3)%nat by (unfold dec_digits; repeat case_match; simpl; lia).
  rewrite !take_ge by lia. f_equal. f_equal. lia.
Qed.

(** [u8_to_dec] writes the decimal digits of the value, without leading
    zeros, as far as they fit, and a NUL if there is room left; it returns
    the number of digits written. *)
Theorem u8_to_dec_spec buflen value :
  0 <= buflen < 256 -> 0 <= value < 256 ->
  let digits := take (Z.to_nat buflen) (dec_digits value) in
  u8_to_dec buflen value =
    (Z.of_nat (length digits), if (length digits <? Z.to_nat buflen)%nat then digits ++ [0] else digits).
Proof.
  intros Hl Hv digits. unfold u8_to_dec. rewrite dec_loop_digits by lia. fold digits. f_equal.
  assert (length digits <= Z.to_nat buflen)%nat by (unfold digits; rewrite length_take; lia).
  destruct (Z.eqb_spec (buflen - Z.of_nat (length digits)) 0), (Nat.ltb_spec (length digits) (Z.to_nat buflen)); simpl; (done || lia).
Qed.

Lemma hex_roundtrip_witness :
  exists hex, bin2hex [1; 171; 255] 7 = (6, hex ++ [0]) /\ length hex = 6%nat /\ hex2bin hex 3 = (3, [1; 171; 255]).
Proof. apply (hex_roundtrip [1; 171; 255] 7); [repeat constructor; lia | simpl; lia]. Defined.

Lemma u8_to_dec_spec_witness : u8_to_dec 3 204 = (3, [50; 48; 52]) /\ u8_to_dec 4 7 = (1, [55; 0]).
Proof.
  split.
  - rewrite (u8_to_dec_spec 3 204) by lia. by vm_compute.
  - rewrite (u8_to_dec_spec 4 7) by lia. by vm_compute.
Defined.
