(* ===== verification/Base64.v ===== *)
(** * Base64 (lib/utils/base64.c)

    Input buffers are byte sequences; a result comes with the length reported
    and the bytes written to the output buffer.  [size_t] has 32 bits. *)

From Stdlib Require Import ZArith Lia Bool.
From stdpp Require Import base numbers list.
From S2P Require Import Prelude.

Open Scope Z_scope.

(** ** The source's tables and routines *)

Definition base64_enc_map : list Z :=
  [65; 66; 67; 68; 69; 70; 71; 72; 73; 74; 75; 76; 77; 78; 79; 80; 81; 82; 83; 84;
   85; 86; 87; 88; 89; 90; 97; 98; 99; 100; 101; 102; 103; 104; 105; 106; 107; 108; 109; 110;
   111; 112; 113; 114; 115; 116; 117; 118; 119; 120; 121; 122; 48; 49; 50; 51; 52; 53; 54; 55;
   56; 57; 43; 47].

Definition base64_dec_map : list Z :=
  [127; 127; 127; 127; 127; 127; 127; 127; 127; 127; 127; 127; 127; 127; 127; 127; 127; 127; 127; 127;
   127; 127; 127; 127; 127; 127; 127; 127; 127; 127; 127; 127; 127; 127; 127; 127; 127; 127; 127; 127;
   127; 127; 127; 62; 127; 127; 127; 63; 52; 53; 54; 55; 56; 57; 58; 59; 60; 61; 127; 127;
   127; 64; 127; 127; 127; 0; 1; 2; 3; 4; 5; 6; 7; 8; 9; 10; 11; 12; 13; 14;
   15; 16; 17; 18; 19; 20; 21; 22; 23; 24; 25; 127; 127; 127; 127; 127; 127; 26; 27; 28;
   29; 30; 31; 32; 33; 34; 35; 36; 37; 38; 39; 40; 41; 42; 43; 44; 45; 46; 47; 48;
   49; 50; 51; 127; 127; 127; 127; 127].

Definition BASE64_SIZE_T_MAX : Z := UINT32_MAX.

(** The character of six bits, and the table entry of a character. *)
Definition enc (x : Z) : Z := base64_enc_map !!! Z.to_nat (Z.land x 0x3F).
Definition dec (c : Z) : Z := base64_dec_map !!! Z.to_nat c.

(** The loop over whole groups and the rest after it. *)
Fixpoint enc_loop (src : list Z) : list Z :=
  match src with
  | C1 :: C2 :: C3 :: src =>
      enc (Z.shiftr C1 2) :: enc (Z.shiftl (Z.land C1 3) 4 + Z.shiftr C2 4) ::
      enc (Z.shiftl (Z.land C2 15) 2 + Z.shiftr C3 6) :: enc C3 :: enc_loop src
  | [C1; C2] =>
      [enc (Z.shiftr C1 2); enc (Z.shiftl (Z.land C1 3) 4 + Z.shiftr C2 4); enc (Z.shiftl (Z.land C2 15) 2); 61]
  | [C1] =>
      let C2 := 0 in
      [enc (Z.shiftr C1 2); enc (Z.shiftl (Z.land C1 3) 4 + Z.shiftr C2 4); 61; 61]
  | [] => []
  end.

(** [dst] tells whether the pointer is not null. *)
Definition base64_encode (dst : bool) (dlen : Z) (src : list Z) : Z * Z * list Z :=
  let slen := Z.of_nat (length src) in
  if slen =? 0 then (0, 0, [])
  else
    let n := slen / 3 + (if negb (slen mod 3 =? 0) then 1 else 0) in
    if (BASE64_SIZE_T_MAX - 1) / 4 <? n then (- ENOMEM, BASE64_SIZE_T_MAX, [])
    else
      let n := n * 4 in
      if (dlen <? n + 1) || negb dst then (- ENOMEM, n + 1, [])
      else
        let out := enc_loop src in
        (0, Z.of_nat (length out), out ++ [0]).

(** The first pass, a character at a time: [x] counts the spaces seen since the
    last other character.  The result is the number of characters and of
    paddings, [None] is -EINVAL. *)
Fixpoint dec_check (src : list Z) (x n j : Z) : option (Z * Z) :=
  match src with
  | [] => Some (n, j)
  | c :: src =>
      if c =? 32 then dec_check src (u32 (x + 1)) n j
      else if (c =? 13) && match src with c2 :: _ => c2 =? 10 | [] => false end then dec_check src 0 n j
      else if c =? 10 then dec_check src 0 n j
      else if negb (x =? 0) then None
      else
        let j := if c =? 61 then j + 1 else j in
        if (c =? 61) && (2 <? j) then None
        else if (127 <? c) || (dec c =? 127) then None
        else if (dec c <? 64) && negb (j =? 0) then None
        else dec_check src 0 (n + 1) j
  end.

(** The second pass. *)
Fixpoint dec_loop (src : list Z) (j n x : Z) : list Z :=
  match src with
  | [] => []
  | c :: src =>
      if (c =? 13) || (c =? 10) || (c =? 32) then dec_loop src j n x
      else
        let j := u32 (j - (if dec c =? 64 then 1 else 0)) in
        let x := Z.lor (u32 (Z.shiftl x 6)) (Z.land (dec c) 0x3F) in
        let n := n + 1 in
        if n =? 4 then
          (if 0 <? j then [u8 (Z.shiftr x 16)] else []) ++
          (if 1 <? j then [u8 (Z.shiftr x 8)] else []) ++
          (if 2 <? j then [u8 x] else []) ++ dec_loop src j 0 x
        else dec_loop src j n x
  end.

Definition base64_decode (dst : bool) (dlen : Z) (src : list Z) : Z * Z * list Z :=
  match dec_check src 0 0 0 with
  | None => (- EINVAL, 0, [])
  | Some (n, j) =>
      if n =? 0 then (0, 0, [])
      else
        let n := u32 (6 * Z.shiftr n 3 + Z.shiftr (6 * Z.land n 7 + 7) 3 - j) in
        if negb dst || (dlen <? n) then (- ENOMEM, n, [])
        else let out := dec_loop src 3 0 0 in (0, Z.of_nat (length out), out)
  end.

(** ** Characters *)

(** What the passes test of the character of [v], by evaluation. *)
Definition enc_ok (v : Z) : bool :=
  let c := enc v in
  (dec c =? v) && negb (c =? 32) && negb (c =? 13) && negb (c =? 10) && negb (c =? 61) && (c <=? 127).

Lemma enc_dec v :
  0 <= v < 64 -> dec (enc v) = v /\ enc v ≠ 32 /\ enc v ≠ 13 /\ enc v ≠ 10 /\ enc v ≠ 61 /\ enc v <= 127.
Proof.
  intros Hv. assert (enc_ok v = true) as H.
  { assert (forallb (λ n, enc_ok (Z.of_nat n)) (seq 0 64) = true) as Hall by (by vm_compute).
    rewrite forallb_forall in Hall. specialize (Hall (Z.to_nat v) ltac:(apply in_seq; lia)). by rewrite Z2Nat.id in Hall by lia. }
  unfold enc_ok in H. cbv zeta in H. bool_hyps. lia.
Qed.

Lemma enc_char v : exists u, 0 <= u < 64 /\ enc v = enc u /\ u = v mod 64.
Proof.
  exists (v mod 64). split; [apply Z.mod_pos_bound; lia |]. split; [| done]. unfold enc. change 0x3F with (Z.ones 6).
  rewrite !Z.land_ones by lia. change (2 ^ 6) with 64. by rewrite Z.mod_mod.
Qed.

(** One character in either pass. *)
Lemma check_char v src n : 
  dec_check (enc v :: src) 0 n 0 = dec_check src 0 (n + 1) 0.
Proof.
  destruct (enc_char v) as (u & Hu & -> & _). destruct (enc_dec u Hu) as (Hd & H1 & H2 & H3 & H4 & H5).
  cbn [dec_check]. rewrite Hd, (proj2 (Z.eqb_neq (enc u) 32)), (proj2 (Z.eqb_neq (enc u) 13)), (proj2 (Z.eqb_neq (enc u) 10)) by lia.
  cbn [andb orb negb Z.eqb].
  rewrite (proj2 (Z.eqb_neq (enc u) 61)), (proj2 (Z.eqb_neq u 127)), (proj2 (Z.ltb_ge 127 (enc u))) by lia. by destruct (u <? 64).
Qed.

Lemma check_pad src n j : 0 <= j < 2 -> dec_check (61 :: src) 0 n j = dec_check src 0 (n + 1) (j + 1).
Proof. intros Hj. cbn [dec_check]. cbn. rewrite (proj2 (Z.ltb_ge 2 (j + 1))) by lia. done. Qed.

Lemma lor6 x v : 0 <= v < 64 -> Z.lor (u32 (Z.shiftl x 6)) v = u32 (64 * x + v).
Proof.
  intros Hv. unfold wrap_u. rewrite Z.shiftl_mul_pow2 by lia. change (2 ^ 6) with 64.
  assert (Z.land ((x * 64) mod 2 ^ 32) v = 0) as H0.
  { apply Z.bits_inj'. intros i Hi. rewrite Z.land_spec, Z.testbit_0_l. destruct (Z.ltb_spec i 6).
    - rewrite Z.mod_pow2_bits_low by lia. change (x * 64) with (x * 2 ^ 6). by rewrite Z.mul_pow2_bits_low by lia.
    - rewrite (testbit_above 6 v) by lia. apply andb_false_r. }
  rewrite <- Z.lxor_lor, <- Z.add_nocarry_lxor by done. 
  assert ((x * 64) mod 2 ^ 32 mod 64 = 0) as Hm.
  { change (2 ^ 32) with (64 * 2 ^ 26). rewrite Z.rem_mul_r by lia. rewrite Z.mod_mul, Z.add_0_l, Z.mul_comm, Z.mod_mul; lia. }
  pose proof (Z.mod_pos_bound (x * 64) (2 ^ 32) ltac:(lia)). pose proof (Z.div_mod ((x * 64) mod 2 ^ 32) 64 ltac:(lia)).
  rewrite (Z.mul_comm 64 x), Z.add_mod by lia. rewrite (Z.mod_small v) by lia. symmetry. apply Z.mod_small. lia.
Qed.

Lemma decode_char v src j n x :
  0 <= j < 2 ^ 32 -> 
  dec_loop (enc v :: src) j n x =
    (let x := u32 (64 * x + v mod 64) in
     if n + 1 =? 4
     then (if 0 <? j then [u8 (Z.shiftr x 16)] else []) ++ (if 1 <? j then [u8 (Z.shiftr x 8)] else []) ++
          (if 2 <? j then [u8 x] else []) ++ dec_loop src j 0 x
     else dec_loop src j (n + 1) x).
Proof.
  intros Hj. destruct (enc_char v) as (u & Hu & -> & ->). destruct (enc_dec _ Hu) as (Hd & H1 & H2 & H3 & H4 & H5).
  cbn [dec_loop]. rewrite Hd. rewrite !(proj2 (Z.eqb_neq _ 13)), !(proj2 (Z.eqb_neq _ 10)), !(proj2 (Z.eqb_neq _ 32)) by lia. cbn [orb].
  rewrite (proj2 (Z.eqb_neq (v mod 64) 64)) by lia. rewrite Z.sub_0_r, wrap_u_id by lia.
  change 0x3F with (Z.ones 6). rewrite Z.land_ones by lia. change (2 ^ 6) with 64. rewrite Z.mod_mod by lia.
  rewrite lor6 by lia. done.
Qed.

Lemma decode_pad src j n x :
  1 <= j < 2 ^ 32 ->
  dec_loop (61 :: src) j n x =
    (let j := j - 1 in
     let x := u32 (64 * x + 0) in
     if n + 1 =? 4
     then (if 0 <? j then [u8 (Z.shiftr x 16)] else []) ++ (if 1 <? j then [u8 (Z.shiftr x 8)] else []) ++
          (if 2 <? j then [u8 x] else []) ++ dec_loop src j 0 x
     else dec_loop src j (n + 1) x).
Proof.
  intros Hj. cbn [dec_loop]. change (dec 61) with 64. cbn [Z.eqb Pos.eqb orb]. rewrite wrap_u_id by lia.
  change (Z.land 64 63) with 0. by rewrite lor6 by lia.
Qed.

(** ** Groups of three bytes *)

Lemma u32_push x v : u32 (64 * u32 x + v) = u32 (64 * x + v).
Proof. unfold wrap_u. by rewrite Z.add_mod, Z.mul_mod_idemp_r, <- Z.add_mod by lia. Qed.

Lemma u32_push4 x a b c d :
  u32 (64 * u32 (64 * u32 (64 * u32 (64 * x + a) + b) + c) + d) =
  u32 (2 ^ 24 * x + (a * 2 ^ 18 + b * 2 ^ 12 + c * 2 ^ 6 + d)).
Proof.
  rewrite (u32_push (64 * x + a)), (u32_push (64 * (64 * x + a) + b)), (u32_push (64 * (64 * (64 * x + a) + b) + c)).
  f_equal. lia.
Qed.

(** Bits pushed out of the low 24 do not show in the bytes written. *)
Lemma group_bytes x C1 C2 C3 :
  is_byte C1 -> is_byte C2 -> is_byte C3 ->
  let y := u32 (2 ^ 24 * x + (C1 * 2 ^ 16 + C2 * 2 ^ 8 + C3)) in
  u8 (Z.shiftr y 16) = C1 /\ u8 (Z.shiftr y 8) = C2 /\ u8 y = C3.
Proof.
  unfold is_byte. intros H1 H2 H3. cbv zeta.
  assert (u32 (2 ^ 24 * x + (C1 * 2 ^ 16 + C2 * 2 ^ 8 + C3)) = 2 ^ 24 * (x mod 256) + (C1 * 2 ^ 16 + C2 * 2 ^ 8 + C3)) as ->.
  { unfold wrap_u. symmetry. pose proof (Z.mod_pos_bound x 256 ltac:(lia)). pose proof (Z.div_mod x 256 ltac:(lia)).
    apply (Z.mod_unique_pos _ _ (x / 256)); lia. }
  generalize (x mod 256). intros h. unfold wrap_u. rewrite !Z.shiftr_div_pow2 by lia. split; [| split].
  - replace (2 ^ 24 * h + _) with ((2 ^ 8 * h + C1) * 2 ^ 16 + (C2 * 2 ^ 8 + C3)) by lia.
    rewrite Z.div_add_l, (Z.div_small (C2 * 2 ^ 8 + C3)) by lia. rewrite Z.add_0_r.
    symmetry. apply (Z.mod_unique_pos _ _ h); lia.
  - replace (2 ^ 24 * h + _) with ((2 ^ 16 * h + C1 * 2 ^ 8 + C2) * 2 ^ 8 + C3) by lia.
    rewrite Z.div_add_l, (Z.div_small C3) by lia. rewrite Z.add_0_r.
    symmetry. apply (Z.mod_unique_pos _ _ (2 ^ 8 * h + C1)); lia.
  - symmetry. apply (Z.mod_unique_pos _ _ (2 ^ 16 * h + C1 * 2 ^ 8 + C2)); lia.
Qed.

(** The four six-bit values of a group make up its three bytes. *)
Lemma group_values C1 C2 C3 :
  is_byte C1 -> is_byte C2 -> is_byte C3 ->
  let v1 := Z.shiftr C1 2 mod 64 in
  let v2 := (Z.shiftl (Z.land C1 3) 4 + Z.shiftr C2 4) mod 64 in
  let v3 := (Z.shiftl (Z.land C2 15) 2 + Z.shiftr C3 6) mod 64 in
  let v4 := C3 mod 64 in
  v1 * 2 ^ 18 + v2 * 2 ^ 12 + v3 * 2 ^ 6 + v4 = C1 * 2 ^ 16 + C2 * 2 ^ 8 + C3.
Proof.
  unfold is_byte. intros H1 H2 H3. cbv zeta. change 3 with (Z.ones 2). change 15 with (Z.ones 4).
  rewrite !Z.land_ones, !Z.shiftr_div_pow2, !Z.shiftl_mul_pow2 by lia.
  change (2 ^ 2) with 4. change (2 ^ 4) with 16. change (2 ^ 6) with 64. change (2 ^ 8) with 256 in *.
  Z.to_euclidean_division_equations. lia.
Qed.

(** One character more; the tests on the counters are closed. *)
Ltac decode_step lem :=
  rewrite lem by lia; cbv zeta;
  repeat match goal with
  | |- context [if ?b then _ else _] => let r := eval vm_compute in b in change b with r; cbv iota
  end.

Lemma decode_four v1 v2 v3 v4 src x :
  dec_loop (enc v1 :: enc v2 :: enc v3 :: enc v4 :: src) 3 0 x =
    (let y := u32 (2 ^ 24 * x + (v1 mod 64 * 2 ^ 18 + v2 mod 64 * 2 ^ 12 + v3 mod 64 * 2 ^ 6 + v4 mod 64)) in
     u8 (Z.shiftr y 16) :: u8 (Z.shiftr y 8) :: u8 y :: dec_loop src 3 0 y).
Proof.
  do 4 decode_step decode_char. cbn [app].
  by rewrite u32_push4.
Qed.

(** A group with padding, at the end. *)
Lemma decode_two v1 v2 v3 x :
  dec_loop [enc v1; enc v2; enc v3; 61] 3 0 x =
    (let y := u32 (2 ^ 24 * x + (v1 mod 64 * 2 ^ 18 + v2 mod 64 * 2 ^ 12 + v3 mod 64 * 2 ^ 6 + 0)) in
     [u8 (Z.shiftr y 16); u8 (Z.shiftr y 8)]).
Proof.
  do 3 decode_step decode_char. decode_step decode_pad. cbn [app dec_loop].
  by rewrite u32_push4.
Qed.

Lemma decode_one v1 v2 x :
  dec_loop [enc v1; enc v2; 61; 61] 3 0 x =
    [u8 (Z.shiftr (u32 (2 ^ 24 * x + (v1 mod 64 * 2 ^ 18 + v2 mod 64 * 2 ^ 12 + 0 * 2 ^ 6 + 0))) 16)].
Proof.
  do 2 decode_step decode_char. do 2 decode_step decode_pad. cbn [app dec_loop].
  by rewrite u32_push4.
Qed.

(** Sequences taken three at a time. *)
Lemma three_ind (P : list Z -> Prop) :
  P [] -> (∀ a, P [a]) -> (∀ a b, P [a; b]) -> (∀ a b c l, P l -> P (a :: b :: c :: l)) -> ∀ l, P l.
Proof.
  intros H0 H1 H2 H3. enough (∀ n l, (length l <= n)%nat -> P l) as H by (intros l; by apply (H (length l))).
  induction n as [| n IH]; intros [| a [| b [| c l]]] Hl; simpl in Hl; try done; try lia. apply H3, IH. lia.
Qed.

Lemma decode_encode src x : Forall is_byte src -> dec_loop (enc_loop src) 3 0 x = src.
Proof.
  revert x. induction src as [| C1 | C1 C2 | C1 C2 C3 src IH] using three_ind; intros x H; [done | | |];
    repeat match goal with H : Forall _ (_ :: _) |- _ => apply Forall_cons in H as [? H] end; cbn [enc_loop]; cbv zeta.
  - rewrite decode_one. pose proof (group_values C1 0 0 ltac:(done) ltac:(done) ltac:(done)) as Hv. cbv zeta in Hv.
    change ((Z.shiftl (Z.land 0 15) 2 + Z.shiftr 0 6) mod 64) with 0 in Hv. change (0 mod 64) with 0 in Hv. rewrite Hv.
    by destruct (group_bytes x C1 0 0) as (-> & _ & _).
  - rewrite decode_two. pose proof (group_values C1 C2 0 ltac:(done) ltac:(done) ltac:(done)) as Hv. cbv zeta in *.
    change (Z.shiftr 0 6) with 0 in Hv. rewrite (Z.add_0_r (Z.shiftl (Z.land C2 15) 2)) in Hv. change (0 mod 64) with 0 in Hv. rewrite Hv.
    by destruct (group_bytes x C1 C2 0) as (-> & -> & _).
  - rewrite decode_four, group_values by done. cbv zeta. rewrite IH by done.
    by destruct (group_bytes x C1 C2 C3) as (-> & -> & ->).
Qed.

(** The number of groups, and of bytes missing in the last one. *)
Definition groups (src : list Z) : Z := (Z.of_nat (length src) + 2) / 3.
Definition missing (src : list Z) : Z := 3 * groups src - Z.of_nat (length src).

Lemma groups_cons a b c src : groups (a :: b :: c :: src) = groups src + 1 /\ missing (a :: b :: c :: src) = missing src.
Proof.
  unfold missing, groups. cbn [length]. replace (Z.of_nat (S (S (S (length src)))) + 2) with (Z.of_nat (length src) + 2 + 1 * 3) by lia.
  rewrite Z.div_add by lia. lia.
Qed.

Lemma check_encode src n :
  dec_check (enc_loop src) 0 n 0 = Some (n + 4 * groups src, missing src) /\ Z.of_nat (length (enc_loop src)) = 4 * groups src.
Proof.
  revert n. induction src as [| C1 | C1 C2 | C1 C2 C3 src IH] using three_ind; intros n; cbn [enc_loop]; cbv zeta.
  - split; [| done]. change (groups []) with 0. change (missing []) with 0. by rewrite Z.add_0_r.
  - split; [| done]. rewrite !check_char, !check_pad by lia. change (groups [C1]) with 1. change (missing [C1]) with 2.
    by rewrite <- !Z.add_assoc.
  - split; [| done]. rewrite !check_char, !check_pad by lia. change (groups [C1; C2]) with 1. change (missing [C1; C2]) with 1.
    by rewrite <- !Z.add_assoc.
  - destruct (groups_cons C1 C2 C3 src) as [-> ->]. rewrite !check_char. destruct (IH (n + 1 + 1 + 1 + 1)) as [-> Hl]. split; [| simpl length; lia].
    replace (n + 1 + 1 + 1 + 1 + 4 * groups src) with (n + 4 * (groups src + 1)) by lia. done.
Qed.

(** The length the decoder computes for whole groups. *)
Lemma decoded_length q j :
  0 <= q < 2 ^ 28 -> 0 <= j <= 3 * q ->
  u32 (6 * Z.shiftr (4 * q) 3 + Z.shiftr (6 * Z.land (4 * q) 7 + 7) 3 - j) = 3 * q - j.
Proof.
  intros Hq Hj. change 7 with (Z.ones 3) at 1. rewrite Z.land_ones, !Z.shiftr_div_pow2 by lia. change (2 ^ 3) with 8.
  assert (6 * (4 * q / 8) + (6 * (4 * q mod 8) + 7) / 8 = 3 * q) as -> by (Z.to_euclidean_division_equations; lia).
  apply wrap_u_id. lia.
Qed.

Lemma groups_bounds src : 3 * groups src - 2 <= Z.of_nat (length src) <= 3 * groups src.
Proof. unfold groups. Z.to_euclidean_division_equations. lia. Qed.

Lemma encode_spec dst dlen src :
  Z.of_nat (length src) < 2 ^ 29 ->
  base64_encode dst dlen src =
    if bool_decide (src = []) then (0, 0, [])
    else if dst && (4 * groups src + 1 <=? dlen) then (0, 4 * groups src, enc_loop src ++ [0])
    else (- ENOMEM, 4 * groups src + 1, []).
Proof.
  intros Hlen. unfold base64_encode. destruct src as [| c src]; [done |]. set (l := c :: src) in *.
  rewrite bool_decide_eq_false_2 by done. destruct (Z.eqb_spec (Z.of_nat (length l)) 0); [simpl in *; lia |].
  assert (Z.of_nat (length l) / 3 + (if negb (Z.of_nat (length l) mod 3 =? 0) then 1 else 0) = groups l) as ->.
  { unfold groups. destruct (Z.eqb_spec (Z.of_nat (length l) mod 3) 0); simpl negb; cbv iota; Z.to_euclidean_division_equations; lia. }
  pose proof (groups_bounds l). change ((BASE64_SIZE_T_MAX - 1) / 4) with 1073741823.
  rewrite (proj2 (Z.ltb_ge 1073741823 (groups l))) by lia. destruct (check_encode l 0) as [_ Hl]. cbv zeta. rewrite Hl.
  destruct (Z.ltb_spec dlen (groups l * 4 + 1)), (Z.leb_spec (4 * groups l + 1) dlen), dst; cbn [orb andb negb]; try lia; f_equal; f_equal; lia.
Qed.

(** C24: Decoding what was encoded gives the data back, and both calls report
    the exact lengths.  With a null or too small buffer they fail with -ENOMEM
    and report the room needed: four characters for every three bytes begun
    and the NUL, and the number of bytes. *)
Theorem base64_roundtrip src dst dlen dlen' :
  Forall is_byte src -> src ≠ [] -> Z.of_nat (length src) < 2 ^ 29 ->
  exists text,
    base64_encode dst dlen src =
      (if dst && (4 * groups src + 1 <=? dlen) then (0, 4 * groups src, text ++ [0]) else (- ENOMEM, 4 * groups src + 1, [])) /\
    Z.of_nat (length text) = 4 * groups src /\
    base64_decode dst dlen' text =
      (if dst && (Z.of_nat (length src) <=? dlen') then (0, Z.of_nat (length src), src) else (- ENOMEM, Z.of_nat (length src), [])).
Proof.
  intros Hb Hne Hlen. exists (enc_loop src). destruct (check_encode src 0) as [Hc Hl]. pose proof (groups_bounds src).
  split; [by rewrite encode_spec, bool_decide_eq_false_2 by done |]. split; [done |].
  unfold base64_decode. rewrite Hc, Z.add_0_l. destruct src as [| c src]; [done |]. set (l := c :: src) in *.
  assert (1 <= Z.of_nat (length l)) by (simpl; lia). destruct (Z.eqb_spec (4 * groups l) 0); [lia |]. cbv zeta.
  rewrite decoded_length by (unfold missing; lia). replace (3 * groups l - missing l) with (Z.of_nat (length l)) by (unfold missing; lia).
  rewrite decode_encode by done.
  destruct dst, (Z.ltb_spec dlen' (Z.of_nat (length l))), (Z.leb_spec (Z.of_nat (length l)) dlen'); cbn [orb andb negb]; (done || lia).
Qed.

Lemma base64_roundtrip_witness :
  exists text, base64_encode true 9 [77; 97; 110; 33] = (0, 8, text ++ [0]) /\ Z.of_nat (length text) = 8 /\
    base64_decode true 4 text = (0, 4, [77; 97; 110; 33]).
Proof. apply (base64_roundtrip [77; 97; 110; 33] true 9 4); [repeat constructor; lia | done | simpl; lia]. Defined.
