(* ===== verification/Utf8.v ===== *)
(** * UTF-8 strings (lib/utils/utf8.c)

    A buffer is the sequence of its bytes; the C string in it ends before the
    first NUL.  Truncation cuts off an incomplete last character and nothing
    else, so that copying into a short buffer keeps whole characters. *)

From Stdlib Require Import ZArith Lia Bool.
From stdpp Require Import base numbers list.
From S2P Require Import Prelude.

Open Scope Z_scope.

(** ** The source's routines *)

Definition ASCII_CHAR : Z := 0x7F.
Definition SEQUENCE_FIRST_MASK : Z := 0xC0.
Definition SEQUENCE_LEN_2_BYTE : Z := 0xC0.
Definition SEQUENCE_LEN_3_BYTE : Z := 0xE0.
Definition SEQUENCE_LEN_4_BYTE : Z := 0xF0.

(** The string in a buffer, and [strlen]. *)
Fixpoint c_string (buf : list Z) : list Z :=
  match buf with
  | [] => []
  | c :: buf => if c =? 0 then [] else c :: c_string buf
  end.

Definition strlen (buf : list Z) : nat := length (c_string buf).

(** [strncpy]: at most [n] bytes, the rest of them zero. *)
Definition strncpy (dst src : list Z) (n : nat) : list Z :=
  let s := take n (c_string src) in
  s ++ replicate (n - length s) 0 ++ drop n dst.

Definition has_mask (c mask : Z) : bool := Z.land c mask =? mask.

(** The loop that walks back to the starting byte. *)
Fixpoint find_start (buf : list Z) (last_byte_p : nat) (bytes_truncated : Z) : nat * Z :=
  match last_byte_p with
  | O => (O, bytes_truncated)
  | S p =>
      if negb (has_mask (buf !!! last_byte_p) SEQUENCE_FIRST_MASK)
      then find_start buf p (u8 (bytes_truncated + 1))
      else (last_byte_p, bytes_truncated)
  end.

Definition utf8_trunc (utf8_str : list Z) : list Z :=
  let len := strlen utf8_str in
  if (len =? 0)%nat then utf8_str
  else
    let last_byte_p := (len - 1)%nat in
    if Z.land (utf8_str !!! last_byte_p) ASCII_CHAR =? utf8_str !!! last_byte_p then utf8_str
    else
      let '(last_byte_p, bytes_truncated) := find_start utf8_str last_byte_p 0 in
      let bytes_truncated := u8 (bytes_truncated + 1) in
      let seq_start_byte := utf8_str !!! last_byte_p in
      let complete :=
        if has_mask seq_start_byte SEQUENCE_LEN_4_BYTE then bytes_truncated =? 4
        else if has_mask seq_start_byte SEQUENCE_LEN_3_BYTE then bytes_truncated =? 3
        else if has_mask seq_start_byte SEQUENCE_LEN_2_BYTE then bytes_truncated =? 2
        else false in
      if complete then utf8_str else <[last_byte_p := 0]> utf8_str.

Definition utf8_lcpy (dst src : list Z) (n : nat) : list Z :=
  if (0 <? n)%nat then
    let dst := strncpy dst src (n - 1) in
    let dst := <[(n - 1)%nat := 0]> dst in
    if negb (n =? 1)%nat then utf8_trunc dst else dst
  else dst.

(** ** Characters *)

(** The number of bytes a starting byte announces; 0 for a continuation byte. *)
Definition seq_len (c : Z) : Z :=
  if c <? 0x80 then 1 else if c <? 0xC0 then 0 else if c <? 0xE0 then 2 else if c <? 0xF0 then 3 else 4.

Definition is_cont (c : Z) : Prop := 0x80 <= c < 0xC0.

(** A starting byte and the continuation bytes that follow it. *)
Definition utf8_char (ch : list Z) : Prop :=
  match ch with
  | [] => False
  | c :: conts => 0 < c < 0xF8 /\ Forall is_cont conts /\ seq_len c = Z.of_nat (length ch)
  end.

(** The beginning of a character that goes on. *)
Definition utf8_cut (p : list Z) : Prop :=
  match p with
  | [] => False
  | c :: conts => 0 < c < 0xF8 /\ Forall is_cont conts /\ Z.of_nat (length p) < seq_len c
  end.

(** The tests of the code on a byte, by evaluation. *)
Definition byte_tests (c : Z) : bool :=
  bool_decide ((Z.land c ASCII_CHAR =? c) = (c <? 0x80)) &&
  (bool_decide (has_mask c SEQUENCE_FIRST_MASK = (0xC0 <=? c)) &&
  (bool_decide (has_mask c SEQUENCE_LEN_4_BYTE = (0xF0 <=? c)) &&
  (bool_decide (has_mask c SEQUENCE_LEN_3_BYTE = (0xE0 <=? c)) &&
   bool_decide (has_mask c SEQUENCE_LEN_2_BYTE = (0xC0 <=? c))))).

Lemma byte_tests_ok c :
  0 <= c < 256 ->
  (Z.land c ASCII_CHAR =? c) = (c <? 0x80) /\ has_mask c SEQUENCE_FIRST_MASK = (0xC0 <=? c) /\
  has_mask c SEQUENCE_LEN_4_BYTE = (0xF0 <=? c) /\ has_mask c SEQUENCE_LEN_3_BYTE = (0xE0 <=? c) /\
  has_mask c SEQUENCE_LEN_2_BYTE = (0xC0 <=? c).
Proof.
  intros Hc. pose proof (all_bytes byte_tests c ltac:(by vm_compute) ltac:(unfold is_byte; lia)) as H.
  unfold byte_tests in H. rewrite !andb_true_iff, !bool_decide_eq_true in H. tauto.
Qed.

(** ** Walking back *)

Lemma find_start_conts pre c conts rest n :
  0xC0 <= c < 256 -> Forall is_cont conts -> 0 <= n -> n + Z.of_nat (length conts) < 256 ->
  find_start (pre ++ c :: conts ++ rest) (length pre + length conts) n = (length pre, n + Z.of_nat (length conts)).
Proof.
  intros Hc. revert rest n. induction conts as [| d conts IH] using rev_ind; intros rest n Hconts Hn Hlen.
  - rewrite Nat.add_0_r, Z.add_0_r. destruct (length pre) as [| k] eqn:E; [done |]. cbn [find_start]. rewrite <- E.
    rewrite list_lookup_total_middle by done. destruct (byte_tests_ok c ltac:(lia)) as (_ & -> & _).
    by rewrite (proj2 (Z.leb_le 0xC0 c)) by lia.
  - apply Forall_app in Hconts as [Hconts Hd]. rewrite Forall_singleton in Hd. rewrite length_app in *. simpl length in *. unfold is_cont in Hd.
    replace (length pre + (length conts + 1))%nat with (S (length pre + length conts)) by lia. cbn [find_start].
    replace (pre ++ c :: (conts ++ [d]) ++ rest) with ((pre ++ c :: conts) ++ d :: rest) by (by rewrite <- !app_assoc).
    rewrite list_lookup_total_middle by (rewrite length_app; simpl; lia).
    destruct (byte_tests_ok d ltac:(lia)) as (_ & -> & _). rewrite (proj2 (Z.leb_gt 0xC0 d)) by lia. cbn [negb].
    rewrite <- !app_assoc, wrap_u_id by lia. cbn [app]. rewrite IH by (done || lia). f_equal. lia.
Qed.

Lemma c_string_app s rest : Forall (λ c, c ≠ 0) s -> c_string (s ++ 0 :: rest) = s.
Proof.
  induction 1 as [| c s Hc _ IH]; [done |]. cbn [app c_string]. rewrite (proj2 (Z.eqb_neq c 0)) by done. by rewrite IH.
Qed.

Lemma conts_nonzero conts : Forall is_cont conts -> Forall (λ c, c ≠ 0) conts.
Proof. intros H. eapply Forall_impl; [exact H |]. unfold is_cont. lia. Qed.

Lemma char_nonzero ch : utf8_char ch -> Forall (λ c, c ≠ 0) ch.
Proof.
  destruct ch as [| c conts]; [done |]. intros (Hc & Hconts & _). constructor; [lia | by apply conts_nonzero].
Qed.

Lemma chars_nonzero chs : Forall utf8_char chs -> Forall (λ c, c ≠ 0) (concat chs).
Proof. induction 1; simpl; [done |]. apply Forall_app. auto using char_nonzero. Qed.

(** The last byte of a sequence with a starting byte from 0xC0 on. *)
Lemma trunc_sequence pre c conts rest :
  0xC0 <= c < 0xF8 -> Forall is_cont conts -> Z.of_nat (length conts) < 255 -> Forall (λ c, c ≠ 0) pre ->
  utf8_trunc (pre ++ c :: conts ++ 0 :: rest) =
    if seq_len c =? Z.of_nat (length conts) + 1 then pre ++ c :: conts ++ 0 :: rest
    else pre ++ 0 :: conts ++ 0 :: rest.
Proof.
  intros Hc Hconts Hlen Hpre. unfold utf8_trunc, strlen.
  assert (c_string (pre ++ c :: conts ++ 0 :: rest) = pre ++ c :: conts) as ->.
  { replace (pre ++ c :: conts ++ 0 :: rest) with ((pre ++ c :: conts) ++ 0 :: rest) by (by rewrite <- app_assoc).
    apply c_string_app. apply Forall_app. split; [done |]. constructor; [lia | by apply conts_nonzero]. }
  rewrite length_app. cbn [length]. replace (length pre + S (length conts) - 1)%nat with (length pre + length conts)%nat by lia.
  destruct (Nat.eqb_spec (length pre + S (length conts)) 0); [lia |].
  set (buf := pre ++ c :: conts ++ 0 :: rest).
  assert (0x80 <= buf !!! (length pre + length conts)%nat < 256) as Hlast.
  { unfold buf. rewrite lookup_total_app_r by lia. replace (length pre + length conts - length pre)%nat with (length conts) by lia.
    destruct conts as [| d conts _] using rev_ind; [simpl; lia |]. rewrite length_app. simpl length. rewrite Nat.add_1_r. simpl.
    rewrite <- app_assoc. cbn [app]. rewrite list_lookup_total_middle by done. apply Forall_app in Hconts as [_ Hd]. rewrite Forall_singleton in Hd. unfold is_cont in Hd. lia. }
  destruct (byte_tests_ok _ ltac:(split; [| apply Hlast]; lia)) as (-> & _). rewrite (proj2 (Z.ltb_ge _ 0x80)) by lia.
  unfold buf. rewrite find_start_conts by (done || lia). rewrite Z.add_0_l, wrap_u_id by lia.
  rewrite list_lookup_total_middle by done. destruct (byte_tests_ok c ltac:(lia)) as (_ & _ & -> & -> & ->). unfold seq_len.
  rewrite (proj2 (Z.ltb_ge c 0x80)), (proj2 (Z.ltb_ge c 0xC0)) by lia. rewrite (proj2 (Z.leb_le 0xC0 c)) by lia.
  rewrite insert_app_r_alt, Nat.sub_diag by lia. cbn [insert list_insert].
  destruct (Z.leb_spec 0xF0 c), (Z.leb_spec 0xE0 c), (Z.ltb_spec c 0xE0), (Z.ltb_spec c 0xF0); try lia;
    by rewrite (Z.eqb_sym (Z.of_nat (length conts) + 1)).
Qed.

(** ** Truncation *)

Lemma char_shape ch :
  utf8_char ch -> (exists c, ch = [c] /\ 0 < c < 0x80) \/
  (exists c conts, ch = c :: conts /\ 0xC0 <= c < 0xF8 /\ Forall is_cont conts /\ seq_len c = Z.of_nat (length conts) + 1).
Proof.
  destruct ch as [| c conts]; [done |]. intros (Hc & Hconts & Hlen). simpl length in Hlen.
  assert (c < 0x80 /\ seq_len c = 1 \/ 0xC0 <= c \/ seq_len c = 0) as Hs.
  { unfold seq_len. destruct (Z.ltb_spec c 0x80), (Z.ltb_spec c 0xC0); lia. }
  destruct Hs as [[Hs E] | [Hs | Hs]]; [left | right | lia].
  - exists c. destruct conts; [split; [done | lia] | simpl in Hlen; lia].
  - exists c, conts. split; [done |]. split; [lia |]. split; [done |]. lia.
Qed.

Lemma seq_len_le c : seq_len c <= 4.
Proof. unfold seq_len. repeat case_match; lia. Qed.

Lemma trunc_whole chs rest : Forall utf8_char chs -> utf8_trunc (concat chs ++ 0 :: rest) = concat chs ++ 0 :: rest.
Proof.
  destruct chs as [| ch chs _] using rev_ind; [done |]. intros [Hchs Hch]%Forall_app. rewrite Forall_singleton in Hch.
  rewrite concat_app. simpl concat. rewrite app_nil_r, <- app_assoc. destruct (char_shape ch Hch) as [(c & -> & Hc) | (c & conts & -> & Hc & Hconts & Hlen)].
  - unfold utf8_trunc, strlen. cbn [app].
    replace (concat chs ++ c :: 0 :: rest) with ((concat chs ++ [c]) ++ 0 :: rest) by (by rewrite <- app_assoc).
    rewrite c_string_app by (apply Forall_app; split; [by apply chars_nonzero | rewrite Forall_singleton; lia]).
    rewrite length_app. simpl length. rewrite Nat.add_sub. destruct (Nat.eqb_spec (length (concat chs) + 1) 0); [done |].
    rewrite <- app_assoc. cbn [app]. rewrite list_lookup_total_middle by done.
    destruct (byte_tests_ok c ltac:(lia)) as (-> & _). by rewrite (proj2 (Z.ltb_lt c 0x80)) by lia.
  - pose proof (seq_len_le c). cbn [app]. rewrite trunc_sequence by (done || lia || by apply chars_nonzero).
    by rewrite (proj2 (Z.eqb_eq _ _)) by done.
Qed.

Lemma trunc_cut chs p rest :
  Forall utf8_char chs -> utf8_cut p -> c_string (utf8_trunc (concat chs ++ p ++ 0 :: rest)) = concat chs.
Proof.
  intros Hchs Hp. destruct p as [| c conts]; [done |]. destruct Hp as (Hc & Hconts & Hlen). simpl length in Hlen.
  assert (0xC0 <= c) as Hlead.
  { destruct (Z.leb_spec 0xC0 c); [done |]. unfold seq_len in Hlen. destruct (Z.ltb_spec c 0x80), (Z.ltb_spec c 0xC0); lia. }
  pose proof (seq_len_le c). pose proof (chars_nonzero chs Hchs). cbn [app]. rewrite trunc_sequence by (done || lia).
  rewrite (proj2 (Z.eqb_neq _ _)) by lia. by apply c_string_app.
Qed.

(** ** Copying *)

(** The leading characters that fit into [room] bytes. *)
Fixpoint fit (room : nat) (chs : list (list Z)) : list (list Z) :=
  match chs with
  | [] => []
  | ch :: chs => if (length ch <=? room)%nat then ch :: fit (room - length ch) chs else []
  end.

Lemma fit_chars room chs : Forall utf8_char chs -> Forall utf8_char (fit room chs).
Proof. intros H. revert room. induction H as [| ch chs Hch _ IH]; intros room; simpl; [done |]. case_match; [by constructor | done]. Qed.

Lemma take_fit room chs :
  Forall utf8_char chs -> exists p, take room (concat chs) = concat (fit room chs) ++ p /\ (p = [] \/ utf8_cut p).
Proof.
  intros H. revert room. induction H as [| ch chs Hch _ IH]; intros room.
  - exists []. split; [apply take_nil | by left].
  - simpl. destruct (Nat.leb_spec (length ch) room).
    + destruct (IH (room - length ch)%nat) as (p & E & Hp). exists p. split; [| done].
      rewrite take_app_ge, E by done. simpl. by rewrite app_assoc.
    + exists (take room ch). rewrite take_app_le by lia. split; [done |]. destruct room as [| room]; [by left |]. right.
      destruct ch as [| c conts]; [done |]. destruct Hch as (Hc & Hconts & Hlen). cbn [take]. split; [done |].
      split; [by apply Forall_take |]. simpl in *. rewrite length_take. lia.
Qed.

Lemma trunc_fit room chs rest :
  Forall utf8_char chs -> c_string (utf8_trunc (take room (concat chs) ++ 0 :: rest)) = concat (fit room chs).
Proof.
  intros H. destruct (take_fit room chs H) as (p & -> & [-> | Hp]).
  - rewrite app_nil_r, trunc_whole by (by apply fit_chars). apply c_string_app, chars_nonzero. by apply fit_chars.
  - rewrite <- app_assoc. apply trunc_cut; [by apply fit_chars | done].
Qed.

Lemma find_start_le buf p n : ((find_start buf p n).1 <= p)%nat.
Proof. revert n. induction p as [| p IH]; intros n; simpl; [done |]. case_match; [| simpl; lia]. specialize (IH (u8 (n + 1))). lia. Qed.

Lemma trunc_length buf n : (strlen buf <= n)%nat -> length (utf8_trunc buf) = length buf /\ drop n (utf8_trunc buf) = drop n buf.
Proof.
  intros Hn. unfold utf8_trunc. destruct (Nat.eqb_spec (strlen buf) 0); [done |]. case_match; [done |].
  pose proof (find_start_le buf (strlen buf - 1) 0). destruct (find_start buf (strlen buf - 1) 0) as [p k].
  simpl in *. set (b := if has_mask _ SEQUENCE_LEN_4_BYTE then _ else _). destruct b; [done |].
  rewrite length_insert, drop_insert_lt by lia. done.
Qed.

(** The buffer before truncation. *)
Lemma lcpy_copy dst src n s :
  c_string src = s -> (0 < n <= length dst)%nat ->
  exists rest, <[(n - 1)%nat := 0]> (strncpy dst src (n - 1)) = take (n - 1) s ++ 0 :: rest /\
    length (take (n - 1) s ++ 0 :: rest) = length dst /\ drop n (take (n - 1) s ++ 0 :: rest) = drop n dst.
Proof.
  intros <- Hn. unfold strncpy. set (t := take (n - 1) (c_string src)).
  assert (length t <= n - 1)%nat as Ht by (unfold t; rewrite length_take; lia).
  set (z := replicate (n - 1 - length t) 0).
  assert (length (t ++ z) = n - 1)%nat as Htz by (unfold z; rewrite length_app, length_replicate; lia).
  exists (z ++ drop n dst). rewrite (app_assoc t z).
  assert (t ++ 0 :: z ++ drop n dst = (t ++ z) ++ 0 :: drop n dst) as E.
  { rewrite <- app_assoc. f_equal. rewrite (cons_middle 0 z). unfold z. by rewrite app_assoc, <- replicate_S_end, replicate_S. }
  rewrite E. split_and!.
  - rewrite insert_app_r_alt, Htz, Nat.sub_diag by lia. f_equal.
    destruct (drop (n - 1) dst) as [| d tl] eqn:Ed; [apply (f_equal length) in Ed; rewrite length_drop in Ed; simpl in Ed; lia |].
    simpl. f_equal. replace n with (n - 1 + 1)%nat by lia. by rewrite <- drop_drop, Ed.
  - rewrite length_app, Htz. simpl. rewrite length_drop. lia.
  - rewrite drop_app_ge, Htz by lia. replace (n - (n - 1))%nat with 1%nat by lia. done.
Qed.

(** Copying a valid UTF-8 string into a buffer of [n] bytes keeps whole
    characters: the copy holds the longest run of leading characters that fits
    beside the terminating NUL, and nothing behind the [n] bytes is touched. *)
Theorem utf8_lcpy_spec dst src n chs rest :
  src = concat chs ++ 0 :: rest -> Forall utf8_char chs -> (0 < n <= length dst)%nat ->
  let dst' := utf8_lcpy dst src n in
  c_string dst' = concat (fit (n - 1) chs) /\ length dst' = length dst /\ drop n dst' = drop n dst.
Proof.
  intros -> Hchs Hn. cbv zeta. unfold utf8_lcpy. rewrite (proj2 (Nat.ltb_lt 0 n)) by lia.
  destruct (lcpy_copy dst (concat chs ++ 0 :: rest) n (concat chs)) as (r & -> & El & Ed).
  { apply c_string_app. by apply chars_nonzero. }
  { done. }
  destruct (Nat.eqb_spec n 1) as [-> | Hne]; cbn [negb].
  - split; [| done]. simpl. destruct chs as [| ch chs]; [done |]. simpl. apply Forall_cons in Hchs as [Hch _].
    destruct ch as [| c conts]; [done |]. done.
  - rewrite trunc_fit by done. split; [done |].
    assert (strlen (take (n - 1) (concat chs) ++ 0%Z :: r) <= n)%nat as Hs.
    { unfold strlen. rewrite c_string_app by (apply Forall_take; by apply chars_nonzero). rewrite length_take. lia. }
    destruct (trunc_length _ n Hs) as [-> ->]. done.
Qed.

(** Two characters of two bytes into five and into four bytes. *)
Lemma utf8_lcpy_spec_witness :
  c_string (utf8_lcpy [9; 9; 9; 9; 9] [0xC3; 0xA9; 0xC3; 0xA8; 0] 5) = [0xC3; 0xA9; 0xC3; 0xA8] /\
  c_string (utf8_lcpy [9; 9; 9; 9; 9] [0xC3; 0xA9; 0xC3; 0xA8; 0] 4) = [0xC3; 0xA9].
Proof.
  split.
  - apply (utf8_lcpy_spec [9; 9; 9; 9; 9] _ 5 [[0xC3; 0xA9]; [0xC3; 0xA8]] []); [done | by repeat constructor | simpl; lia].
  - apply (utf8_lcpy_spec [9; 9; 9; 9; 9] _ 4 [[0xC3; 0xA9]; [0xC3; 0xA8]] []); [done | by repeat constructor | simpl; lia].
Defined.
