(* ===== verification/BitArray.v ===== *)
(** * Bit arrays (lib/utils/bitarray.c)

    An array of bits in 32-bit bundles.  Operations on a region compute masks
    for its first and last bundle and treat the bundles in between as a whole.
    An access outside the bundles is [None].  [size_t] has 32 bits. *)

From Stdlib Require Import ZArith Lia Bool.
From stdpp Require Import base numbers list sets.
From S2P Require Import Prelude.

Open Scope Z_scope.

Definition EFAULT : Z := 14.
Definition EEXIST : Z := 17.

(** ** [struct sys_bitarray] and its operations *)

Record sys_bitarray := mk_bitarray { num_bits : Z; num_bundles : Z; bundles : list Z }.

Definition bundle_bitness : Z := 32.

(** *** Bits of a word: [find_lsb_set] (arch/common/ffs.h) and [POPCOUNT] *)

Fixpoint lsb_loop (n : nat) (bit op : Z) : Z :=
  match n with
  | O => 0
  | S n => if flag_any op (BIT bit) then bit + 1 else lsb_loop n (bit + 1) op
  end.

Definition find_lsb_set (op : Z) : Z := if op =? 0 then 0 else lsb_loop 32 0 op.

Definition word_bits (x : Z) : list Z := filter (λ j, Z.testbit x j = true) (seqZ 0 32).

Definition POPCOUNT (x : Z) : Z := Z.of_nat (length (word_bits x)).

(** *** Access to the bundles *)

Definition get_bundle (ba : sys_bitarray) (idx : Z) : option Z := bundles ba !! Z.to_nat idx.

Definition set_bundle (idx v : Z) (ba : sys_bitarray) : option sys_bitarray :=
  _ ← get_bundle ba idx;
  Some (mk_bitarray (num_bits ba) (num_bundles ba) (<[Z.to_nat idx := v]> (bundles ba))).

Definition upd_bundle (idx : Z) (f : Z -> Z) (ba : sys_bitarray) : option sys_bitarray :=
  v ← get_bundle ba idx; set_bundle idx (f v) ba.

Record bundle_data := mk_bd { sidx : Z; eidx : Z; soff : Z; eoff : Z; smask : Z; emask : Z }.

Definition setup_bundle_data (offset nbits : Z) : bundle_data :=
  let last := u32 (offset + nbits - 1) in
  let s := offset / bundle_bitness in
  let so := offset mod bundle_bitness in
  let e := last / bundle_bitness in
  let eo := last mod bundle_bitness in
  let sm := lnot32 (BIT so - 1) in
  let em := Z.lor (BIT eo - 1) (BIT eo) in
  let sm := if s =? e then Z.land sm em else sm in
  mk_bd s e so eo sm em.

(** The indices of the loops over the bundles in between. *)
Definition between (bd : bundle_data) : list Z := seqZ (sidx bd + 1) (eidx bd - (sidx bd + 1)).

(** Where the loop over these bundles finds a bit that does not match. *)
Fixpoint between_mismatch (ba : sys_bitarray) (match_set : bool) (idxs : list Z) : option (option (Z * Z)) :=
  match idxs with
  | [] => Some None
  | idx :: idxs =>
      bundle ← get_bundle ba idx;
      let bundle := if match_set then lnot32 bundle else bundle in
      if negb (bundle =? 0) then Some (Some (bundle, idx)) else between_mismatch ba match_set idxs
  end.

(** The bundle of bits that do not match and its index; [None] when all match. *)
Definition region_mismatch (ba : sys_bitarray) (match_set : bool) (bd : bundle_data) : option (option (Z * Z)) :=
  bundle ← get_bundle ba (sidx bd);
  let bundle := if negb match_set then lnot32 bundle else bundle in
  if sidx bd =? eidx bd then
    if negb (Z.land bundle (smask bd) =? smask bd)
    then Some (Some (Z.land (lnot32 bundle) (smask bd), sidx bd)) else Some None
  else if negb (Z.land bundle (smask bd) =? smask bd)
  then Some (Some (Z.land (lnot32 bundle) (smask bd), sidx bd))
  else
    bundle ← get_bundle ba (eidx bd);
    let bundle := if negb match_set then lnot32 bundle else bundle in
    if negb (Z.land bundle (emask bd) =? emask bd)
    then Some (Some (Z.land (lnot32 bundle) (emask bd), eidx bd))
    else between_mismatch ba match_set (between bd).

(** Whether the region matches, the bundle data, and [*mismatch] if not. *)
Definition match_region (ba : sys_bitarray) (offset nbits : Z) (match_set : bool) : option (bool * bundle_data * Z) :=
  let bd := setup_bundle_data offset nbits in
  r ← region_mismatch ba match_set bd;
  match r with
  | None => Some (true, bd, 0)
  | Some (mismatch_bundle, mismatch_bundle_idx) =>
      let mismatch_bit_off := u32 (find_lsb_set mismatch_bundle - 1) in
      let mismatch_bit_off := u32 (mismatch_bit_off + u32 (mismatch_bundle_idx * bundle_bitness)) in
      Some (false, bd, mismatch_bit_off)
  end.

Fixpoint fill_between (v : Z) (idxs : list Z) (ba : sys_bitarray) : option sys_bitarray :=
  match idxs with
  | [] => Some ba
  | idx :: idxs => ba ← set_bundle idx v ba; fill_between v idxs ba
  end.

Definition set_region (ba : sys_bitarray) (to_set : bool) (bd : bundle_data) : option sys_bitarray :=
  if sidx bd =? eidx bd then
    if to_set then upd_bundle (sidx bd) (λ v, Z.lor v (smask bd)) ba
    else upd_bundle (sidx bd) (λ v, Z.land v (lnot32 (smask bd))) ba
  else if to_set then
    ba ← upd_bundle (sidx bd) (λ v, Z.lor v (smask bd)) ba;
    ba ← upd_bundle (eidx bd) (λ v, Z.lor v (emask bd)) ba;
    fill_between (lnot32 0) (between bd) ba
  else
    ba ← upd_bundle (sidx bd) (λ v, Z.land v (lnot32 (smask bd))) ba;
    ba ← upd_bundle (eidx bd) (λ v, Z.land v (lnot32 (emask bd))) ba;
    fill_between 0 (between bd) ba.

(** *** Counting and combining *)

Fixpoint count_between (ba : sys_bitarray) (count : Z) (idxs : list Z) : option Z :=
  match idxs with
  | [] => Some count
  | idx :: idxs => v ← get_bundle ba idx; count_between ba (count + POPCOUNT v) idxs
  end.

(** The result and [*count]. *)
Definition sys_bitarray_popcount_region (ba : sys_bitarray) (nbits offset : Z) : option (Z * Z) :=
  if (nbits =? 0) || (num_bits ba <? u32 (offset + nbits)) then Some (- EINVAL, 0)
  else
    let bd := setup_bundle_data offset nbits in
    if sidx bd =? eidx bd then
      v ← get_bundle ba (sidx bd);
      Some (0, POPCOUNT (Z.land v (smask bd)))
    else
      v ← get_bundle ba (sidx bd);
      let count := 0 + POPCOUNT (Z.land v (smask bd)) in
      v ← get_bundle ba (eidx bd);
      let count := count + POPCOUNT (Z.land v (emask bd)) in
      count ← count_between ba count (between bd);
      Some (0, count).

Definition xor_bundle (other : sys_bitarray) (mask idx : Z) (dst : sys_bitarray) : option sys_bitarray :=
  o ← get_bundle other idx;
  upd_bundle idx (λ d, Z.lor (Z.land (Z.lxor o d) mask) (Z.land d (lnot32 mask))) dst.

Fixpoint xor_between (other : sys_bitarray) (idxs : list Z) (dst : sys_bitarray) : option sys_bitarray :=
  match idxs with
  | [] => Some dst
  | idx :: idxs =>
      o ← get_bundle other idx;
      dst ← upd_bundle idx (λ d, Z.lxor d o) dst;
      xor_between other idxs dst
  end.

Definition sys_bitarray_xor (dst other : sys_bitarray) (nbits offset : Z) : option (Z * sys_bitarray) :=
  if negb (num_bits dst =? num_bits other) then Some (- EINVAL, dst)
  else if (nbits =? 0) || (num_bits dst <? u32 (offset + nbits)) then Some (- EINVAL, dst)
  else
    let bd := setup_bundle_data offset nbits in
    if sidx bd =? eidx bd then dst ← xor_bundle other (smask bd) (sidx bd) dst; Some (0, dst)
    else
      dst ← xor_bundle other (smask bd) (sidx bd) dst;
      dst ← xor_bundle other (emask bd) (eidx bd) dst;
      dst ← xor_between other (between bd) dst;
      Some (0, dst).

(** *** Single bits *)

Definition sys_bitarray_set_bit (ba : sys_bitarray) (bit : Z) : option (Z * sys_bitarray) :=
  if num_bits ba <=? bit then Some (- EINVAL, ba)
  else
    ba ← upd_bundle (bit / bundle_bitness) (λ v, flag_set v (BIT (bit mod bundle_bitness))) ba;
    Some (0, ba).

Definition sys_bitarray_clear_bit (ba : sys_bitarray) (bit : Z) : option (Z * sys_bitarray) :=
  if num_bits ba <=? bit then Some (- EINVAL, ba)
  else
    ba ← upd_bundle (bit / bundle_bitness) (λ v, flag_clear v (BIT (bit mod bundle_bitness))) ba;
    Some (0, ba).

(** The result and [*val]. *)
Definition sys_bitarray_test_bit (ba : sys_bitarray) (bit : Z) : option (Z * Z) :=
  if num_bits ba <=? bit then Some (- EINVAL, 0)
  else
    v ← get_bundle ba (bit / bundle_bitness);
    Some (0, if flag_any v (BIT (bit mod bundle_bitness)) then 1 else 0).

Definition sys_bitarray_test_and_set_bit (ba : sys_bitarray) (bit : Z) : option (Z * Z * sys_bitarray) :=
  if num_bits ba <=? bit then Some (- EINVAL, 0, ba)
  else
    v ← get_bundle ba (bit / bundle_bitness);
    let prev_val := if flag_any v (BIT (bit mod bundle_bitness)) then 1 else 0 in
    ba ← upd_bundle (bit / bundle_bitness) (λ v, flag_set v (BIT (bit mod bundle_bitness))) ba;
    Some (0, prev_val, ba).

Definition sys_bitarray_test_and_clear_bit (ba : sys_bitarray) (bit : Z) : option (Z * Z * sys_bitarray) :=
  if num_bits ba <=? bit then Some (- EINVAL, 0, ba)
  else
    v ← get_bundle ba (bit / bundle_bitness);
    let prev_val := if flag_any v (BIT (bit mod bundle_bitness)) then 1 else 0 in
    ba ← upd_bundle (bit / bundle_bitness) (λ v, flag_clear v (BIT (bit mod bundle_bitness))) ba;
    Some (0, prev_val, ba).

(** *** Allocating and freeing *)

(** The loop that skips full bundles. *)
Fixpoint skip_full (bit_idx : Z) (l : list Z) : Z :=
  match l with
  | [] => bit_idx
  | v :: l =>
      if lnot32 v =? 0 then skip_full (u32 (bit_idx + bundle_bitness)) l
      else if negb (v =? 0) then u32 (bit_idx + u32 (find_lsb_set (lnot32 v) - 1))
      else bit_idx
  end.

(** The search loop; an iteration moves [bit_idx] forward. *)
Fixpoint alloc_loop (fuel : nat) (ba : sys_bitarray) (nbits bit_idx off_end : Z) : option (Z * Z * sys_bitarray) :=
  match fuel with
  | O => None
  | S fuel =>
      if bit_idx <=? off_end then
        '(matched, bd, mismatch) ← match_region ba bit_idx nbits false;
        if (matched : bool) then
          ba ← set_region ba true bd;
          Some (0, bit_idx, ba)
        else alloc_loop fuel ba nbits (u32 (mismatch + 1)) off_end
      else Some (- ENOSPC, 0, ba)
  end.

(** The result, [*offset] and the array. *)
Definition sys_bitarray_alloc (ba : sys_bitarray) (nbits : Z) : option (Z * Z * sys_bitarray) :=
  if (nbits =? 0) || (num_bits ba <? nbits) then Some (- EINVAL, 0, ba)
  else
    let bit_idx := skip_full 0 (take (Z.to_nat (num_bundles ba)) (bundles ba)) in
    let off_end := num_bits ba - nbits in
    alloc_loop (S (Z.to_nat (num_bits ba))) ba nbits bit_idx off_end.

(** The test of the region in the remaining calls. *)
Definition bad_region (ba : sys_bitarray) (nbits offset : Z) : bool :=
  let off_end := u32 (offset + nbits - 1) in
  (nbits =? 0) || (num_bits ba <? nbits) || (num_bits ba <=? offset) || (num_bits ba <=? off_end).

Definition sys_bitarray_free (ba : sys_bitarray) (nbits offset : Z) : option (Z * sys_bitarray) :=
  if bad_region ba nbits offset then Some (- EINVAL, ba)
  else
    '(matched, bd, _) ← match_region ba offset nbits true;
    if (matched : bool) then ba ← set_region ba false bd; Some (0, ba)
    else Some (- EFAULT, ba).

Definition is_region_set_clear (ba : sys_bitarray) (nbits offset : Z) (to_set : bool) : option bool :=
  if bad_region ba nbits offset then Some false
  else '(matched, _, _) ← match_region ba offset nbits to_set; Some matched.

Definition sys_bitarray_is_region_set (ba : sys_bitarray) (nbits offset : Z) : option bool :=
  is_region_set_clear ba nbits offset true.

Definition sys_bitarray_is_region_cleared (ba : sys_bitarray) (nbits offset : Z) : option bool :=
  is_region_set_clear ba nbits offset false.

Definition set_clear_region (ba : sys_bitarray) (nbits offset : Z) (to_set : bool) : option (Z * sys_bitarray) :=
  if bad_region ba nbits offset then Some (- EINVAL, ba)
  else ba ← set_region ba to_set (setup_bundle_data offset nbits); Some (0, ba).

Definition sys_bitarray_test_and_set_region (ba : sys_bitarray) (nbits offset : Z) (to_set : bool) : option (Z * sys_bitarray) :=
  if bad_region ba nbits offset then Some (- EINVAL, ba)
  else
    '(region_clear, bd, _) ← match_region ba offset nbits (negb to_set);
    if (region_clear : bool) then ba ← set_region ba to_set bd; Some (0, ba)
    else Some (- EEXIST, ba).

Definition sys_bitarray_set_region (ba : sys_bitarray) (nbits offset : Z) : option (Z * sys_bitarray) :=
  set_clear_region ba nbits offset true.

Definition sys_bitarray_clear_region (ba : sys_bitarray) (nbits offset : Z) : option (Z * sys_bitarray) :=
  set_clear_region ba nbits offset false.

(** *** Searching for set bits *)

(** The loop over the bits of the bundle that holds the bit looked for. *)
Fixpoint nth_loop (word n : Z) (js : list Z) : option Z :=
  match js with
  | [] => None
  | j :: js =>
      if flag_any word (BIT j) then if n - 1 <=? 0 then Some j else nth_loop word (n - 1) js
      else nth_loop word n js
  end.

Definition nth_found (idx word n : Z) : Z * Z :=
  match nth_loop word n (seqZ 0 bundle_bitness) with
  | Some j => (0, u32 (u32 (idx * bundle_bitness) + j))
  | None => (1, 0)
  end.

(** The bundle in between that holds it, or what is left of [n]. *)
Fixpoint nth_between (ba : sys_bitarray) (n : Z) (idxs : list Z) : option ((Z * Z * Z) + Z) :=
  match idxs with
  | [] => Some (inr n)
  | idx :: idxs =>
      v ← get_bundle ba idx;
      if n <=? POPCOUNT v then Some (inl (idx, v, n)) else nth_between ba (n - POPCOUNT v) idxs
  end.

(** The result and [*found_at]. *)
Definition sys_bitarray_find_nth_set (ba : sys_bitarray) (n nbits offset : Z) : option (Z * Z) :=
  if (n =? 0) || (nbits =? 0) || (num_bits ba <? u32 (offset + nbits)) then Some (- EINVAL, 0)
  else
    let bd := setup_bundle_data offset nbits in
    v ← get_bundle ba (sidx bd);
    let word := Z.land v (smask bd) in
    let count := POPCOUNT word in
    if n <=? count then Some (nth_found (sidx bd) word n)
    else if negb (sidx bd =? eidx bd) then
      r ← nth_between ba (n - count) (between bd);
      match r with
      | inl (idx, word, n) => Some (nth_found idx word n)
      | inr n =>
          v ← get_bundle ba (eidx bd);
          let word := Z.land v (emask bd) in
          if n <=? POPCOUNT word then Some (nth_found (eidx bd) word n) else Some (1, 0)
      end
    else Some (1, 0).

(** ** The array as a sequence of bits *)

Definition word (v : Z) : Prop := 0 <= v < 2 ^ 32.

Definition bit (ba : sys_bitarray) (i : Z) : bool :=
  match bundles ba !! Z.to_nat (i / 32) with Some v => Z.testbit v (i mod 32) | None => false end.

Record ba_wf (ba : sys_bitarray) : Prop := mk_wf {
  wf_bits : 0 < num_bits ba <= 2 ^ 31;
  wf_bundles : num_bundles ba = (num_bits ba + 31) / 32;
  wf_length : Z.of_nat (length (bundles ba)) = num_bundles ba;
  wf_words : Forall word (bundles ba)
}.

(** The same array with every bundle changed according to its index. *)
Definition ba_map (f : Z -> Z -> Z) (ba : sys_bitarray) : sys_bitarray :=
  mk_bitarray (num_bits ba) (num_bundles ba) (imap (λ b v, f (Z.of_nat b) v) (bundles ba)).

(** A region in the array. *)
Definition in_array (ba : sys_bitarray) (offset nbits : Z) : Prop := 0 <= offset /\ 0 < nbits /\ offset + nbits <= num_bits ba.

Definition in_region (offset nbits i : Z) : bool := (offset <=? i) && (i <? offset + nbits).

(** The bits of the region in bundle [b]. *)
Definition region_mask (bd : bundle_data) (b : Z) : Z :=
  if b =? sidx bd then smask bd
  else if b =? eidx bd then emask bd
  else if (sidx bd <? b) && (b <? eidx bd) then lnot32 0
  else 0.

Section Masks.
Context (ba : sys_bitarray) (offset nbits : Z).
Hypothesis Hwf : ba_wf ba.
Hypothesis Hin : in_array ba offset nbits.

Abbreviation bd := (setup_bundle_data offset nbits).

Lemma bd_fields :
  sidx bd = offset / 32 /\ eidx bd = (offset + nbits - 1) / 32 /\ soff bd = offset mod 32 /\ eoff bd = (offset + nbits - 1) mod 32.
Proof.
  destruct Hin as (H1 & H2 & H3). pose proof (wf_bits _ Hwf). unfold setup_bundle_data, bundle_bitness. cbn [sidx eidx soff eoff].
  rewrite wrap_u_id by lia. done.
Qed.

Lemma lnot32_testbit x i : 0 <= i < 32 -> Z.testbit (lnot32 x) i = negb (Z.testbit x i).
Proof. intros Hi. unfold lnot32, wrap_u. by rewrite Z.mod_pow2_bits_low, Z.lnot_spec by lia. Qed.

Lemma bits_below k i : 0 <= k -> 0 <= i -> Z.testbit (BIT k - 1) i = (i <? k).
Proof.
  intros Hk Hi. unfold BIT. rewrite Z.shiftl_1_l. replace (2 ^ k - 1) with (Z.ones k) by (rewrite Z.ones_equiv; lia).
  destruct (Z.ltb_spec i k); [by rewrite Z.ones_spec_low by lia | by rewrite Z.ones_spec_high by lia].
Qed.

Lemma smask_testbit i : 0 <= i < 32 ->
  Z.testbit (smask bd) i = (soff bd <=? i) && (negb (sidx bd =? eidx bd) || (i <=? eoff bd)).
Proof.
  intros Hi. destruct bd_fields as (_ & _ & Es & Ee). pose proof (Z.mod_pos_bound offset 32 ltac:(lia)). pose proof (Z.mod_pos_bound (offset + nbits - 1) 32 ltac:(lia)).
  unfold setup_bundle_data in *. cbn [smask soff eoff sidx eidx] in *. unfold bundle_bitness in *. rewrite Ee.
  destruct (Z.eqb_spec (offset / 32) (u32 (offset + nbits - 1) / 32)); cbn [negb orb];
    rewrite ?Z.land_spec, ?Z.lor_spec, lnot32_testbit, !bits_below, ?BIT_testbit by lia;
    destruct (Z.ltb_spec i (offset mod 32)), (Z.leb_spec (offset mod 32) i); try lia; cbn [negb andb]; try done.
Qed.

Lemma emask_testbit i : 0 <= i < 32 -> Z.testbit (emask bd) i = (i <=? eoff bd).
Proof.
  intros Hi. destruct bd_fields as (_ & _ & _ & Ee). pose proof (Z.mod_pos_bound (offset + nbits - 1) 32 ltac:(lia)).
  unfold setup_bundle_data in *. cbn [emask eoff] in *. unfold bundle_bitness in *. rewrite Ee, Z.lor_spec, bits_below, BIT_testbit by lia.
  destruct (Z.ltb_spec i ((offset + nbits - 1) mod 32)), (Z.eqb_spec ((offset + nbits - 1) mod 32) i), (Z.leb_spec i ((offset + nbits - 1) mod 32)); (done || lia).
Qed.

Lemma region_mask_testbit b i :
  0 <= i < 32 -> Z.testbit (region_mask bd b) i = in_region offset nbits (32 * b + i).
Proof.
  intros Hi. destruct bd_fields as (Hs & He & Hso & Heo). unfold region_mask, in_region.
  pose proof (Z.div_mod offset 32 ltac:(lia)). pose proof (Z.mod_pos_bound offset 32 ltac:(lia)).
  pose proof (Z.div_mod (offset + nbits - 1) 32 ltac:(lia)). pose proof (Z.mod_pos_bound (offset + nbits - 1) 32 ltac:(lia)).
  destruct Hin as (Hi1 & Hi2 & Hi3). set (q := offset / 32) in *. set (r := (offset + nbits - 1) / 32) in *.
  destruct (Z.eqb_spec b (sidx bd)); [| destruct (Z.eqb_spec b (eidx bd)); [| destruct (Z.ltb_spec (sidx bd) b), (Z.ltb_spec b (eidx bd)); cbn [andb]]].
  - rewrite smask_testbit, Hs, He, Hso, Heo by done.
    destruct (Z.eqb_spec q r), (Z.leb_spec (offset mod 32) i), (Z.leb_spec i ((offset + nbits - 1) mod 32)),
      (Z.leb_spec offset (32 * b + i)), (Z.ltb_spec (32 * b + i) (offset + nbits)); cbn [negb orb andb]; (done || lia).
  - rewrite emask_testbit, Heo by done.
    destruct (Z.leb_spec i ((offset + nbits - 1) mod 32)), (Z.leb_spec offset (32 * b + i)), (Z.ltb_spec (32 * b + i) (offset + nbits)); cbn [andb]; (done || lia).
  - rewrite lnot32_testbit, Z.testbit_0_l by done.
    destruct (Z.leb_spec offset (32 * b + i)), (Z.ltb_spec (32 * b + i) (offset + nbits)); cbn [andb negb]; (done || lia).
  - rewrite Z.testbit_0_l. destruct (Z.leb_spec offset (32 * b + i)), (Z.ltb_spec (32 * b + i) (offset + nbits)); cbn [andb]; (done || lia).
  - rewrite Z.testbit_0_l. destruct (Z.leb_spec offset (32 * b + i)), (Z.ltb_spec (32 * b + i) (offset + nbits)); cbn [andb]; (done || lia).
  - rewrite Z.testbit_0_l. destruct (Z.leb_spec offset (32 * b + i)), (Z.ltb_spec (32 * b + i) (offset + nbits)); cbn [andb]; (done || lia).
Qed.

Lemma bd_range : 0 <= sidx bd <= eidx bd /\ eidx bd < num_bundles ba.
Proof.
  destruct bd_fields as (-> & -> & _ & _). destruct Hin as (H1 & H2 & H3). rewrite (wf_bundles _ Hwf).
  Z.to_euclidean_division_equations. lia.
Qed.

Lemma masks_word : word (smask bd) /\ word (emask bd).
Proof.
  pose proof (Z.mod_pos_bound (u32 (offset + nbits - 1)) 32 ltac:(lia)) as He.
  assert (word (Z.lor (BIT (u32 (offset + nbits - 1) mod 32) - 1) (BIT (u32 (offset + nbits - 1) mod 32)))) as Hem.
  { unfold BIT. rewrite Z.shiftl_1_l. set (k := u32 (offset + nbits - 1) mod 32) in *.
    assert (2 ^ k <= 2 ^ 31) by (apply Z.pow_le_mono_r; lia). apply lor_bound; lia. }
  unfold setup_bundle_data, bundle_bitness. cbn [smask emask]. split; [| done]. case_match; [| by apply wrap_u_bound].
  apply land_bound; [lia |]. by apply wrap_u_bound.
Qed.

End Masks.

(** ** Updating bundles *)

Lemma get_bundle_ok ba b : ba_wf ba -> 0 <= b < num_bundles ba -> exists v, get_bundle ba b = Some v /\ word v.
Proof.
  intros Hwf Hb. unfold get_bundle. pose proof (wf_length _ Hwf).
  destruct (lookup_lt_is_Some_2 (bundles ba) (Z.to_nat b)) as [v Hv]; [lia |]. exists v. split; [done |].
  pose proof (wf_words _ Hwf) as Hw. rewrite Forall_lookup in Hw. by eapply Hw.
Qed.

(** The bundles of [idxs] one after the other. *)
Fixpoint upd_seq (f : Z -> Z -> Z) (idxs : list Z) (ba : sys_bitarray) : option sys_bitarray :=
  match idxs with
  | [] => Some ba
  | idx :: idxs => ba ← upd_bundle idx (f idx) ba; upd_seq f idxs ba
  end.

Lemma upd_bundle_map ba idx f :
  0 <= idx < Z.of_nat (length (bundles ba)) ->
  upd_bundle idx f ba = Some (ba_map (λ b v, if b =? idx then f v else v) ba).
Proof.
  intros Hidx. unfold upd_bundle, set_bundle, get_bundle.
  destruct (lookup_lt_is_Some_2 (bundles ba) (Z.to_nat idx)) as [v Hv]; [lia |]. rewrite Hv. simpl.
  unfold ba_map. do 2 f_equal. apply list_eq. intros i. rewrite list_lookup_imap, list_lookup_insert.
  destruct (decide _) as [[<- _] | Hne].
  - rewrite Hv. simpl. rewrite Z2Nat.id, Z.eqb_refl by lia. done.
  - destruct (Z.eqb_spec (Z.of_nat i) idx) as [<- |]; [exfalso; apply Hne; rewrite Nat2Z.id; lia |]. by destruct (bundles ba !! i).
Qed.

Lemma ba_map_map f g ba : ba_map g (ba_map f ba) = ba_map (λ b v, g b (f b v)) ba.
Proof. unfold ba_map. simpl. f_equal. apply list_eq. intros i. rewrite !list_lookup_imap. by destruct (bundles ba !! i). Qed.

Lemma ba_map_ext f g ba :
  (∀ b v, 0 <= b < Z.of_nat (length (bundles ba)) -> bundles ba !! Z.to_nat b = Some v -> f b v = g b v) -> ba_map f ba = ba_map g ba.
Proof.
  intros H. unfold ba_map. f_equal. apply imap_ext. intros i v Hi. apply H; [| by rewrite Nat2Z.id].
  apply lookup_lt_Some in Hi. lia.
Qed.

Lemma upd_seq_map f idxs ba :
  NoDup idxs -> (∀ idx, idx ∈ idxs -> 0 <= idx < Z.of_nat (length (bundles ba))) ->
  upd_seq f idxs ba = Some (ba_map (λ b v, if bool_decide (b ∈ idxs) then f b v else v) ba).
Proof.
  intros Hnd. revert ba. induction Hnd as [| idx idxs Hni _ IH]; intros ba Hr.
  - simpl. f_equal. destruct ba as [nb nn l]. unfold ba_map. simpl. f_equal. apply list_eq. intros i. rewrite list_lookup_imap. by destruct (l !! i).
  - cbn [upd_seq]. rewrite upd_bundle_map by (apply Hr; set_solver). cbn [mbind option_bind]. rewrite IH.
    + rewrite ba_map_map. f_equal. apply ba_map_ext. intros b v _ _. destruct (Z.eqb_spec b idx) as [-> | Hne].
      * rewrite bool_decide_eq_false_2 by done. by rewrite bool_decide_eq_true_2 by set_solver.
      * destruct (decide (b ∈ idxs)); [rewrite !bool_decide_eq_true_2 by set_solver; done | rewrite !bool_decide_eq_false_2 by set_solver; done].
    + intros i Hi. unfold ba_map. simpl. rewrite length_imap. apply Hr. set_solver.
Qed.

Lemma upd_seq_app f i1 i2 ba : upd_seq f (i1 ++ i2) ba = (upd_seq f i1 ba ≫= upd_seq f i2).
Proof. revert ba. induction i1 as [| i i1 IH]; intros ba; [done |]. cbn [app upd_seq]. destruct (upd_bundle i (f i) ba); simpl; [apply IH | done]. Qed.

Lemma upd_bundle_ext idx f g ba : (∀ v, get_bundle ba idx = Some v -> f v = g v) -> upd_bundle idx f ba = upd_bundle idx g ba.
Proof. intros H. unfold upd_bundle. destruct (get_bundle ba idx) eqn:E; [| done]. simpl. by rewrite H. Qed.

(** The effect on a bundle with the bits [mask] of a region. *)
Definition region_fun (to_set : bool) (mask v : Z) : Z := if to_set then Z.lor v mask else Z.land v (lnot32 mask).

Lemma between_all ba offset nbits :
  ba_wf ba -> in_array ba offset nbits ->
  let bd := setup_bundle_data offset nbits in
  let idxs := if sidx bd =? eidx bd then [sidx bd] else sidx bd :: eidx bd :: between bd in
  NoDup idxs /\ (∀ b, b ∈ idxs <-> sidx bd <= b <= eidx bd).
Proof.
  intros Hwf Hin. cbv zeta. pose proof (bd_range ba offset nbits Hwf Hin) as Hr. set (bd := setup_bundle_data offset nbits) in *.
  destruct (Z.eqb_spec (sidx bd) (eidx bd)).
  - split; [apply NoDup_singleton |]. intros b. rewrite list_elem_of_singleton. lia.
  - split.
    + constructor; [rewrite elem_of_cons; unfold between; rewrite elem_of_seqZ; lia |].
      constructor; [unfold between; rewrite elem_of_seqZ; lia | apply NoDup_seqZ].
    + intros b. rewrite !elem_of_cons. unfold between. rewrite elem_of_seqZ. lia.
Qed.

Lemma ba_map_words f ba :
  Forall word (bundles ba) -> (∀ b v, word v -> word (f b v)) -> Forall word (bundles (ba_map f ba)).
Proof.
  intros Hw Hf. simpl. rewrite Forall_lookup in *. intros i v. rewrite list_lookup_imap.
  destruct (bundles ba !! i) as [w |] eqn:E; [| done]. intros [= <-]. apply Hf. by eapply Hw.
Qed.

(** A bundle outside the region keeps its value. *)
Lemma region_mask_out bd b : 0 <= sidx bd <= eidx bd -> ~ sidx bd <= b <= eidx bd -> region_mask bd b = 0.
Proof.
  intros Hr Hb. unfold region_mask. destruct (Z.eqb_spec b (sidx bd)); [lia |]. destruct (Z.eqb_spec b (eidx bd)); [lia |].
  destruct (Z.ltb_spec (sidx bd) b), (Z.ltb_spec b (eidx bd)); try lia; done.
Qed.

Lemma word_ext x y : word x -> word y -> (∀ i, 0 <= i < 32 -> Z.testbit x i = Z.testbit y i) -> x = y.
Proof.
  intros Hx Hy H. apply Z.bits_inj'. intros i Hi. destruct (Z.ltb_spec i 32); [apply H; lia |].
  by rewrite !(testbit_above 32) by (done || lia).
Qed.

Lemma lnot32_word x : word (lnot32 x).
Proof. by apply wrap_u_bound. Qed.

Lemma region_fun_0 to_set v : word v -> region_fun to_set 0 v = v.
Proof.
  intros Hv. unfold region_fun. destruct to_set; [apply Z.lor_0_r |].
  apply word_ext; [apply land_bound; [lia | done] | done |]. intros i Hi. rewrite Z.land_spec, lnot32_testbit, Z.testbit_0_l by done.
  apply andb_true_r.
Qed.

Lemma region_fun_full to_set v : word v -> region_fun to_set (lnot32 0) v = if to_set then lnot32 0 else 0.
Proof.
  intros Hv. pose proof (lnot32_word 0) as H0. unfold region_fun. destruct to_set.
  - apply word_ext; [by apply lor_bound | done |]. intros i Hi. rewrite Z.lor_spec, lnot32_testbit, Z.testbit_0_l by done. apply orb_true_r.
  - apply word_ext; [by apply land_bound | done |]. intros i Hi.
    rewrite Z.land_spec, !lnot32_testbit, Z.testbit_0_l by done. apply andb_false_r.
Qed.

Lemma fill_between_seq v f idxs ba :
  (∀ b w, b ∈ idxs -> word w -> f b w = v) -> (∀ b, b ∈ idxs -> 0 <= b) -> Forall word (bundles ba) -> word v -> 
  fill_between v idxs ba = upd_seq f idxs ba.
Proof.
  revert ba. induction idxs as [| idx idxs IH]; intros ba Hf Hpos Hw Hv; [done |]. cbn [fill_between upd_seq]. unfold upd_bundle at 1.
  destruct (get_bundle ba idx) as [w |] eqn:Eg; [| by unfold set_bundle; rewrite Eg]. cbn [mbind option_bind].
  rewrite Hf by (set_solver || (rewrite Forall_lookup in Hw; by eapply Hw)).
  unfold set_bundle. rewrite Eg. cbn [mbind option_bind]. apply IH; [set_solver | set_solver | | done]. simpl. by apply Forall_insert.
Qed.

Lemma region_mask_word ba offset nbits b :
  ba_wf ba -> in_array ba offset nbits -> word (region_mask (setup_bundle_data offset nbits) b).
Proof.
  intros Hwf Hin. destruct (masks_word offset nbits) as [H1 H2]. unfold region_mask.
  repeat case_match; try done.
Qed.

Lemma region_fun_word to_set mask v : word mask -> word v -> word (region_fun to_set mask v).
Proof. intros Hm Hv. unfold region_fun. destruct to_set; [by apply lor_bound | by apply land_bound]. Qed.

Lemma set_region_map ba offset nbits to_set :
  ba_wf ba -> in_array ba offset nbits ->
  let bd := setup_bundle_data offset nbits in
  set_region ba to_set bd = Some (ba_map (λ b v, region_fun to_set (region_mask bd b) v) ba).
Proof.
  intros Hwf Hin. cbv zeta. set (bd := setup_bundle_data offset nbits).
  destruct (between_all ba offset nbits Hwf Hin) as [Hnd Hel]. pose proof (bd_range ba offset nbits Hwf Hin) as Hr. fold bd in Hnd, Hel, Hr.
  set (f := λ b v, region_fun to_set (region_mask bd b) v).
  assert (region_mask bd (sidx bd) = smask bd) as Es by (unfold region_mask; by rewrite Z.eqb_refl).
  assert (set_region ba to_set bd = upd_seq f (if sidx bd =? eidx bd then [sidx bd] else sidx bd :: eidx bd :: between bd) ba) as ->.
  { unfold set_region. destruct (Z.eqb_spec (sidx bd) (eidx bd)) as [E | E].
    - cbn [upd_seq]. unfold f. rewrite Es. unfold region_fun. destruct to_set; by destruct (upd_bundle _ _ ba).
    - assert (region_mask bd (eidx bd) = emask bd) as Ee.
      { unfold region_mask. rewrite Z.eqb_refl. by rewrite (proj2 (Z.eqb_neq (eidx bd) (sidx bd))) by done. }
      assert (∀ b, b ∈ between bd -> region_mask bd b = lnot32 0) as Em.
      { intros b. unfold between. rewrite elem_of_seqZ. intros Hb. unfold region_mask.
        rewrite (proj2 (Z.eqb_neq b (sidx bd))), (proj2 (Z.eqb_neq b (eidx bd))) by lia.
        rewrite (proj2 (Z.ltb_lt (sidx bd) b)), (proj2 (Z.ltb_lt b (eidx bd))) by lia. done. }
      pose proof (wf_length _ Hwf) as Hlen. pose proof (masks_word offset nbits) as [Hms Hme]. fold bd in Hms, Hme.
      assert (∀ t ba', Forall word (bundles ba') -> t = to_set -> fill_between (if t then lnot32 0 else 0) (between bd) ba' = upd_seq f (between bd) ba') as Hfill.
      { intros t ba' Hw ->. apply fill_between_seq; [| | done | by destruct to_set].
        - intros b w Hb Hwd. unfold f. rewrite Em by done. by apply region_fun_full.
        - intros b. unfold between. rewrite elem_of_seqZ. lia. }
      assert (set_region ba to_set bd =
        (ba ← upd_bundle (sidx bd) (region_fun to_set (smask bd)) ba;
         ba ← upd_bundle (eidx bd) (region_fun to_set (emask bd)) ba;
         fill_between (if to_set then lnot32 0 else 0) (between bd) ba)) as Hset.
      { unfold set_region. rewrite (proj2 (Z.eqb_neq _ _)) by done. by destruct to_set. }
      unfold set_region in Hset. rewrite (proj2 (Z.eqb_neq _ _)) in Hset by done. rewrite Hset. clear Hset.
      cbn [upd_seq]. change (f (sidx bd)) with (region_fun to_set (region_mask bd (sidx bd))).
      change (f (eidx bd)) with (region_fun to_set (region_mask bd (eidx bd))). rewrite Es, Ee. rewrite upd_bundle_map by lia. cbn [mbind option_bind].
      rewrite upd_bundle_map by (cbn [ba_map bundles]; rewrite length_imap; lia). cbn [mbind option_bind]. apply Hfill; [| done].
      apply ba_map_words; [apply ba_map_words; [by apply wf_words |] |]; intros b v Hv; case_match; auto using region_fun_word. }
  rewrite (upd_seq_map f) by (done || (intros b Hb%Hel; rewrite (wf_length _ Hwf); lia)). f_equal. apply ba_map_ext.
  intros b v Hb Hv. unfold f. destruct (decide (sidx bd <= b <= eidx bd)).
  - by rewrite bool_decide_eq_true_2 by (by apply Hel).
  - rewrite bool_decide_eq_false_2 by (by rewrite Hel). rewrite region_mask_out by lia. rewrite region_fun_0; [done |].
    pose proof (wf_words _ Hwf) as Hw. rewrite Forall_lookup in Hw. by eapply Hw.
Qed.

(** ** Regions, bit by bit *)

Lemma bit_split i : 0 <= i mod 32 < 32 /\ i = 32 * (i / 32) + i mod 32.
Proof. pose proof (Z.mod_pos_bound i 32). pose proof (Z.div_mod i 32). lia. Qed.

Lemma bundle_index ba i : ba_wf ba -> 0 <= i < num_bits ba -> 0 <= i / 32 < num_bundles ba.
Proof. intros Hwf Hi. rewrite (wf_bundles _ Hwf). Z.to_euclidean_division_equations. lia. Qed.

Lemma bit_get ba i v : get_bundle ba (i / 32) = Some v -> bit ba i = Z.testbit v (i mod 32).
Proof. unfold get_bundle, bit. by intros ->. Qed.

Lemma get_ba_map f ba b : 0 <= b -> get_bundle (ba_map f ba) b = f b <$> get_bundle ba b.
Proof. intros Hb. unfold get_bundle, ba_map. simpl. rewrite list_lookup_imap, Z2Nat.id by done. done. Qed.

Lemma ba_map_wf f ba : ba_wf ba -> (∀ b v, word v -> word (f b v)) -> ba_wf (ba_map f ba).
Proof.
  intros Hwf Hf. split; [apply Hwf | apply Hwf | simpl; rewrite length_imap; apply Hwf | by apply ba_map_words; [apply Hwf |]].
Qed.

(** The array after a region was set or cleared. *)
Definition region_written (ba ba' : sys_bitarray) (offset nbits : Z) (to_set : bool) : Prop :=
  ba_wf ba' /\ num_bits ba' = num_bits ba /\
  ∀ i, 0 <= i < num_bits ba -> bit ba' i = if in_region offset nbits i then to_set else bit ba i.

Lemma set_region_bits ba offset nbits to_set :
  ba_wf ba -> in_array ba offset nbits ->
  exists ba', set_region ba to_set (setup_bundle_data offset nbits) = Some ba' /\ region_written ba ba' offset nbits to_set.
Proof.
  intros Hwf Hin. eexists. split; [by apply set_region_map |]. split; [| split; [done |]].
  - apply ba_map_wf; [done |]. intros b v Hv. apply region_fun_word; [by eapply region_mask_word | done].
  - intros i Hi. destruct (get_bundle_ok ba (i / 32) Hwf (bundle_index ba i Hwf Hi)) as (v & Hv & Hword).
    destruct (bit_split i) as [Hm Hs]. pose proof (bundle_index ba i Hwf Hi).
    rewrite (bit_get ba i v Hv), (bit_get _ i (region_fun to_set (region_mask (setup_bundle_data offset nbits) (i / 32)) v)).
    + unfold region_fun. destruct to_set; rewrite ?Z.lor_spec, ?Z.land_spec, ?lnot32_testbit, (region_mask_testbit ba), <- Hs by done;
        destruct (in_region offset nbits i), (Z.testbit v (i mod 32)); done.
    + rewrite get_ba_map, Hv by lia. done.
Qed.

(** The bits of a bundle that are in the region and differ from [match_set]. *)
Definition mismatches (match_set : bool) (mask v : Z) : Z := Z.land (if match_set then lnot32 v else v) mask.

Lemma lnot32_twice v : word v -> lnot32 (lnot32 v) = v.
Proof. intros Hv. apply word_ext; [apply lnot32_word | done |]. intros i Hi. rewrite !lnot32_testbit by done. apply negb_involutive. Qed.

Lemma mask_test v mask : word v -> word mask -> (Z.land v mask =? mask) = (Z.land (lnot32 v) mask =? 0).
Proof.
  intros Hv Hm. apply eq_bool_prop_intro. rewrite !Is_true_true, !Z.eqb_eq. split; intros E.
  - apply word_ext; [by apply land_bound; [| apply lnot32_word] | done |]. intros i Hi. rewrite Z.land_spec, lnot32_testbit, Z.testbit_0_l by done.
    assert (Z.testbit mask i = Z.testbit v i && Z.testbit mask i) as H by (by rewrite <- Z.land_spec, E).
    destruct (Z.testbit v i), (Z.testbit mask i); done.
  - apply word_ext; [by apply land_bound | done |]. intros i Hi. rewrite Z.land_spec.
    assert (negb (Z.testbit v i) && Z.testbit mask i = false) as H by (by rewrite <- lnot32_testbit, <- Z.land_spec, E, Z.testbit_0_l).
    destruct (Z.testbit v i), (Z.testbit mask i); done.
Qed.

(** The tests of [match_region] on the first and the last bundle. *)
Lemma end_test match_set v mask :
  word v -> word mask ->
  let bundle := if negb match_set then lnot32 v else v in
  negb (Z.land bundle mask =? mask) = negb (mismatches match_set mask v =? 0) /\
  Z.land (lnot32 bundle) mask = mismatches match_set mask v.
Proof.
  intros Hv Hm. cbv zeta. unfold mismatches. pose proof (lnot32_word v). destruct match_set; cbn [negb].
  - by rewrite mask_test.
  - by rewrite mask_test, lnot32_twice.
Qed.

Lemma land_full v : word v -> Z.land v (lnot32 0) = v.
Proof.
  intros Hv. apply word_ext; [by apply land_bound | done |]. intros i Hi. rewrite Z.land_spec, lnot32_testbit, Z.testbit_0_l by done.
  apply andb_true_r.
Qed.

Lemma between_mismatch_spec ba match_set idxs :
  ba_wf ba -> (∀ b, b ∈ idxs -> 0 <= b < num_bundles ba) ->
  exists r, between_mismatch ba match_set idxs = Some r /\
  match r with
  | Some (mb, idx) => idx ∈ idxs /\ mb ≠ 0 /\ exists v, get_bundle ba idx = Some v /\ mb = mismatches match_set (lnot32 0) v
  | None => ∀ b v, b ∈ idxs -> get_bundle ba b = Some v -> mismatches match_set (lnot32 0) v = 0
  end.
Proof.
  intros Hwf. induction idxs as [| idx idxs IH]; intros Hr; [exists None; split; [done |]; set_solver |]. cbn [between_mismatch].
  destruct (get_bundle_ok ba idx Hwf (Hr idx ltac:(set_solver))) as (v & Hv & Hw). rewrite Hv. cbn [mbind option_bind].
  assert ((if match_set then lnot32 v else v) = mismatches match_set (lnot32 0) v) as ->.
  { unfold mismatches. rewrite land_full; [done |]. destruct match_set; [apply lnot32_word | done]. }
  destruct (Z.eqb_spec (mismatches match_set (lnot32 0) v) 0) as [E | E]; cbn [negb].
  - destruct IH as (r & -> & Hspec); [set_solver |]. exists r. split; [done |]. destruct r as [[mb i] |].
    + destruct Hspec as (H1 & H2 & H3). split; [set_solver | done].
    + intros b w [-> | Hb]%elem_of_cons Hget; [congruence | by eapply Hspec].
  - eexists. split; [done |]. split; [set_solver |]. split; [done |]. by exists v.
Qed.

Lemma region_mismatch_spec ba match_set offset nbits :
  ba_wf ba -> in_array ba offset nbits ->
  let bd := setup_bundle_data offset nbits in
  exists r, region_mismatch ba match_set bd = Some r /\
  match r with
  | Some (mb, idx) => 0 <= idx < num_bundles ba /\ mb ≠ 0 /\
      exists v, get_bundle ba idx = Some v /\ mb = mismatches match_set (region_mask bd idx) v
  | None => ∀ b v, sidx bd <= b <= eidx bd -> get_bundle ba b = Some v -> mismatches match_set (region_mask bd b) v = 0
  end.
Proof.
  intros Hwf Hin. cbv zeta. pose proof (bd_range ba offset nbits Hwf Hin) as Hr. pose proof (masks_word offset nbits) as [Hms Hme].
  set (bd := setup_bundle_data offset nbits) in *. unfold region_mismatch.
  destruct (get_bundle_ok ba (sidx bd) Hwf ltac:(lia)) as (v & Hv & Hw). rewrite Hv. cbn [mbind option_bind]. cbv zeta.
  destruct (end_test match_set v (smask bd) Hw Hms) as [-> ->].
  assert (region_mask bd (sidx bd) = smask bd) as Es by (unfold region_mask; by rewrite Z.eqb_refl).
  assert (∀ X : option (option (Z * Z)), (if sidx bd =? eidx bd then X else X) = X) as Hif by (intros; by case_match).
  destruct (Z.eqb_spec (mismatches match_set (smask bd) v) 0) as [E0 | E0]; cbn [negb].
  2: { rewrite Hif. eexists. split; [done |]. split; [lia |]. split; [done |]. exists v. by rewrite Es. }
  destruct (Z.eqb_spec (sidx bd) (eidx bd)) as [Eq | Ne].
  { exists None. split; [done |]. intros b w Hb Hget. assert (b = sidx bd) as -> by lia. rewrite Es. congruence. }
  destruct (get_bundle_ok ba (eidx bd) Hwf ltac:(lia)) as (u & Hu & Hwu). rewrite Hu. cbn [mbind option_bind]. cbv zeta.
  destruct (end_test match_set u (emask bd) Hwu Hme) as [-> ->].
  assert (region_mask bd (eidx bd) = emask bd) as Ee.
  { unfold region_mask. rewrite Z.eqb_refl. by rewrite (proj2 (Z.eqb_neq (eidx bd) (sidx bd))) by done. }
  destruct (Z.eqb_spec (mismatches match_set (emask bd) u) 0) as [E1 | E1]; cbn [negb].
  2: { eexists. split; [done |]. split; [lia |]. split; [done |]. exists u. by rewrite Ee. }
  assert (∀ b, sidx bd < b < eidx bd -> region_mask bd b = lnot32 0) as Em.
  { intros b Hb. unfold region_mask. rewrite (proj2 (Z.eqb_neq b (sidx bd))), (proj2 (Z.eqb_neq b (eidx bd))) by lia.
    rewrite (proj2 (Z.ltb_lt (sidx bd) b)), (proj2 (Z.ltb_lt b (eidx bd))) by lia. done. }
  destruct (between_mismatch_spec ba match_set (between bd) Hwf) as (r & -> & Hspec).
  { intros b. unfold between. rewrite elem_of_seqZ. lia. }
  exists r. split; [done |]. destruct r as [[mb idx] |].
  - destruct Hspec as (Hb & Hne & w & Hget & ->). unfold between in Hb. rewrite elem_of_seqZ in Hb. split; [lia |]. split; [done |].
    exists w. by rewrite Em by lia.
  - intros b w Hb Hget. destruct (Z.eq_dec b (sidx bd)) as [-> |]; [rewrite Es; congruence |].
    destruct (Z.eq_dec b (eidx bd)) as [-> |]; [rewrite Ee; congruence |]. rewrite Em by lia. eapply Hspec; [| done].
    unfold between. rewrite elem_of_seqZ. lia.
Qed.

Lemma lsb_loop_spec n b op :
  0 <= b -> (exists i, b <= i < b + Z.of_nat n /\ Z.testbit op i = true) ->
  b < lsb_loop n b op <= b + Z.of_nat n /\ Z.testbit op (lsb_loop n b op - 1) = true /\
  ∀ i, b <= i < lsb_loop n b op - 1 -> Z.testbit op i = false.
Proof.
  revert b. induction n as [| n IH]; intros b Hb (i & Hi & Ht); [lia |]. cbn [lsb_loop]. rewrite flag_any_BIT by done.
  destruct (Z.testbit op b) eqn:E.
  - replace (b + 1 - 1) with b by lia. split; [lia |]. split; [done |]. intros; lia.
  - assert (i ≠ b) by congruence. destruct (IH (b + 1)) as (H1 & H2 & H3); [lia | exists i; split; [lia | done] |].
    split; [lia |]. split; [done |]. intros j Hj. destruct (Z.eq_dec j b) as [-> |]; [done | apply H3; lia].
Qed.

Lemma find_lsb_set_spec x :
  word x -> x ≠ 0 ->
  1 <= find_lsb_set x <= 32 /\ Z.testbit x (find_lsb_set x - 1) = true /\ ∀ i, 0 <= i < find_lsb_set x - 1 -> Z.testbit x i = false.
Proof.
  intros Hx Hne. unfold find_lsb_set. rewrite (proj2 (Z.eqb_neq x 0)) by done.
  destruct (lsb_loop_spec 32 0 x) as (H1 & H2 & H3); [lia | | split; [lia | done]].
  exists (Z.log2 x). unfold word in Hx. pose proof (Z.log2_nonneg x). split; [| apply Z.bit_log2; lia].
  split; [done |]. apply Z.log2_lt_pow2; lia.
Qed.

(** The region holds only bits of the given value. *)
Definition all_bits (ba : sys_bitarray) (offset nbits : Z) (v : bool) : Prop :=
  ∀ i, offset <= i < offset + nbits -> bit ba i = v.

Lemma mismatches_word match_set mask v : word v -> word mask -> word (mismatches match_set mask v).
Proof. intros Hv Hm. unfold mismatches. apply land_bound; [lia |]. destruct match_set; [apply lnot32_word | done]. Qed.

Lemma mismatches_testbit match_set mask v i :
  0 <= i < 32 -> Z.testbit (mismatches match_set mask v) i = negb (eqb (Z.testbit v i) match_set) && Z.testbit mask i.
Proof.
  intros Hi. unfold mismatches. rewrite Z.land_spec. f_equal. destruct match_set; rewrite ?lnot32_testbit by done; by destruct (Z.testbit v i).
Qed.

Lemma match_region_spec ba offset nbits match_set :
  ba_wf ba -> in_array ba offset nbits ->
  exists matched mismatch, match_region ba offset nbits match_set = Some (matched, setup_bundle_data offset nbits, mismatch) /\
  if matched then all_bits ba offset nbits match_set
  else offset <= mismatch < offset + nbits /\ bit ba mismatch = negb match_set.
Proof.
  intros Hwf Hin. unfold match_region. destruct (region_mismatch_spec ba match_set offset nbits Hwf Hin) as (r & -> & Hspec).
  cbn [mbind option_bind]. destruct r as [[mb idx] |].
  - destruct Hspec as (Hidx & Hne & v & Hv & ->). destruct (get_bundle_ok ba idx Hwf Hidx) as (v' & Hv' & Hw).
    assert (v' = v) as -> by congruence. set (mask := region_mask _ idx) in *.
    assert (word (mismatches match_set mask v)) as Hmw by (apply mismatches_word; [done | by eapply region_mask_word]).
    destruct (find_lsb_set_spec _ Hmw Hne) as (Hf & Ht & _). set (f := find_lsb_set _) in *.
    pose proof (wf_bits _ Hwf). pose proof (wf_bundles _ Hwf) as Hnb. unfold bundle_bitness.
    assert (32 * num_bundles ba <= 2 ^ 31 + 31) by (rewrite Hnb; Z.to_euclidean_division_equations; lia).
    rewrite !wrap_u_id by (rewrite ?wrap_u_id by lia; lia). exists false, (f - 1 + idx * 32). split; [done |].
    rewrite mismatches_testbit in Ht by lia. apply andb_true_iff in Ht as [Ht1 Ht2].
    unfold mask in Ht2. rewrite (region_mask_testbit ba) in Ht2 by (done || lia). unfold in_region in Ht2. bool_hyps. split; [lia |].
    rewrite (bit_get ba _ v).
    + replace ((f - 1 + idx * 32) mod 32) with (f - 1) by (rewrite Z.mod_add, Z.mod_small by lia; done).
      by destruct (Z.testbit v (f - 1)), match_set.
    + rewrite Z.div_add, Z.div_small by lia. done.
  - exists true, 0. split; [done |]. intros i Hi. pose proof Hin as (Hi1 & Hi2 & Hi3).
    pose proof (bundle_index ba i Hwf ltac:(lia)) as Hb. destruct (get_bundle_ok ba (i / 32) Hwf Hb) as (v & Hv & Hw).
    destruct (bit_split i) as [Hm Hs]. destruct (bd_fields ba offset nbits Hwf Hin) as (Es & Ee & _ & _).
    specialize (Hspec (i / 32) v). rewrite Es, Ee in Hspec. specialize (Hspec ltac:(split; apply Z.div_le_mono; lia) Hv).
    apply (f_equal (λ x, Z.testbit x (i mod 32))) in Hspec. rewrite mismatches_testbit, (region_mask_testbit ba), <- Hs, Z.testbit_0_l in Hspec by done.
    unfold in_region in Hspec. rewrite (proj2 (Z.leb_le _ _)), (proj2 (Z.ltb_lt _ _)) in Hspec by lia.
    rewrite (bit_get ba i v Hv). by destruct (Z.testbit v (i mod 32)), match_set.
Qed.

(** ** Allocation *)

Lemma bit_cons_skip ba l b i :
  drop b (bundles ba) = l -> 32 * Z.of_nat b <= i -> bit ba i = bit (mk_bitarray 0 0 l) (i - 32 * Z.of_nat b).
Proof.
  intros <- Hi. unfold bit. simpl. rewrite lookup_drop.
  replace ((i - 32 * Z.of_nat b) / 32) with (i / 32 - Z.of_nat b) by (Z.to_euclidean_division_equations; lia).
  replace ((i - 32 * Z.of_nat b) mod 32) with (i mod 32) by (Z.to_euclidean_division_equations; lia).
  replace (b + Z.to_nat (i / 32 - Z.of_nat b))%nat with (Z.to_nat (i / 32)); [done |].
  assert (Z.of_nat b <= i / 32) by (apply Z.div_le_lower_bound; lia). lia.
Qed.

(** The bits skipped are set. *)
Lemma skip_full_spec l b :
  Forall word l -> 0 <= b -> b + 32 * Z.of_nat (length l) < 2 ^ 32 ->
  b <= skip_full b l <= b + 32 * Z.of_nat (length l) /\ ∀ i, 0 <= i < skip_full b l - b -> bit (mk_bitarray 0 0 l) i = true.
Proof.
  revert b. induction l as [| v l IH]; intros b Hw Hb Hlen; [simpl; split; [lia |]; intros; lia |].
  apply Forall_cons in Hw as [Hv Hw]. cbn [skip_full length] in *. unfold bundle_bitness.
  assert (∀ i, 0 <= i < 32 -> bit (mk_bitarray 0 0 (v :: l)) i = Z.testbit v i) as Hfirst.
  { intros i Hi. unfold bit. rewrite Z.div_small, Z.mod_small by lia. done. }
  destruct (Z.eqb_spec (lnot32 v) 0) as [E | E].
  - rewrite wrap_u_id by lia. destruct (IH (b + 32) Hw ltac:(lia) ltac:(lia)) as [H1 H2]. split; [lia |].
    intros i Hi. destruct (Z.ltb_spec i 32).
    + rewrite Hfirst by lia. rewrite <- (negb_involutive (Z.testbit v i)), <- lnot32_testbit, E, Z.testbit_0_l by lia. done.
    + rewrite (bit_cons_skip _ l 1) by (done || lia). apply H2. lia.
  - destruct (Z.eqb_spec v 0) as [E0 | E0]; cbn [negb]; [split; [lia |]; intros; lia |].
    destruct (find_lsb_set_spec (lnot32 v) (lnot32_word v) E) as (Hf & _ & Hlow). rewrite !wrap_u_id by (rewrite ?wrap_u_id by lia; lia).
    split; [lia |]. intros i Hi. rewrite Hfirst by lia. specialize (Hlow i ltac:(lia)). rewrite lnot32_testbit in Hlow by lia.
    by destruct (Z.testbit v i).
Qed.

(** The result of an allocation: the first free region, or none. *)
Definition first_fit (ba : sys_bitarray) (nbits : Z) (rc off : Z) (ba' : sys_bitarray) : Prop :=
  (rc = 0 /\ 0 <= off /\ off + nbits <= num_bits ba /\ all_bits ba off nbits false /\
   (∀ o, 0 <= o < off -> ~ all_bits ba o nbits false) /\ region_written ba ba' off nbits true) \/
  (rc = - ENOSPC /\ ba' = ba /\ ∀ o, 0 <= o -> o + nbits <= num_bits ba -> ~ all_bits ba o nbits false).

Lemma alloc_loop_spec fuel ba nbits bit_idx :
  ba_wf ba -> 0 < nbits <= num_bits ba -> 0 <= bit_idx -> (0 < fuel)%nat -> num_bits ba < bit_idx + Z.of_nat fuel ->
  (∀ o, 0 <= o < bit_idx -> o + nbits <= num_bits ba -> ~ all_bits ba o nbits false) ->
  exists rc off ba', alloc_loop fuel ba nbits bit_idx (num_bits ba - nbits) = Some (rc, off, ba') /\ first_fit ba nbits rc off ba'.
Proof.
  intros Hwf Hn. revert bit_idx. induction fuel as [| fuel IH]; intros bit_idx Hb Hpos Hfuel Hbelow; [lia |].
  cbn [alloc_loop]. destruct (Z.leb_spec bit_idx (num_bits ba - nbits)).
  - destruct (match_region_spec ba bit_idx nbits false Hwf ltac:(split; [done | lia])) as (matched & mismatch & -> & Hm).
    cbn [mbind option_bind]. destruct matched.
    + destruct (set_region_bits ba bit_idx nbits true Hwf ltac:(split; [done | lia])) as (ba' & -> & Hw).
      exists 0, bit_idx, ba'. split; [done |]. left. split; [done |]. split; [done |]. split; [lia |]. split; [done |]. split; [| done].
      intros o Ho. apply Hbelow; lia.
    + destruct Hm as [Hm1 Hm2]. pose proof (wf_bits _ Hwf). rewrite wrap_u_id by lia. apply IH; [lia | lia | lia |].
      intros o Ho Hon Hall. destruct (Z.ltb_spec o bit_idx); [apply (Hbelow o); [lia | done | done] |].
      rewrite (Hall mismatch ltac:(lia)) in Hm2. done.
  - exists (- ENOSPC), 0, ba. split; [done |]. right. split; [done |]. split; [done |]. intros o Ho Hon. apply Hbelow; lia.
Qed.

(** C22: Allocating [nbits] bits finds the first run of that many clear bits,
    sets it and nothing else, and reports where it starts; it fails with
    -ENOSPC, changing nothing, only if there is no such run, and with -EINVAL
    for an impossible length.  The search always ends, inside the array. *)
Theorem bitarray_alloc_spec ba nbits :
  ba_wf ba -> 0 <= nbits ->
  exists rc off ba', sys_bitarray_alloc ba nbits = Some (rc, off, ba') /\
  if (nbits =? 0) || (num_bits ba <? nbits) then rc = - EINVAL /\ ba' = ba else first_fit ba nbits rc off ba'.
Proof.
  intros Hwf Hn. unfold sys_bitarray_alloc. destruct ((nbits =? 0) || (num_bits ba <? nbits)) eqn:E; [by eexists _, _, _ |].
  bool_hyps. pose proof (wf_bits _ Hwf). pose proof (wf_bundles _ Hwf). pose proof (wf_length _ Hwf) as Hlen.
  assert (32 * num_bundles ba <= 2 ^ 31 + 31) by (rewrite (wf_bundles _ Hwf); Z.to_euclidean_division_equations; lia).
  rewrite take_ge by lia. destruct (skip_full_spec (bundles ba) 0 (wf_words _ Hwf)) as [Hs1 Hs2]; [lia | lia |].
  apply alloc_loop_spec; [done | lia | lia | lia | lia |]. intros o Ho Hon Hall.
  specialize (Hs2 o ltac:(lia)). specialize (Hall o ltac:(lia)). unfold bit in *. simpl in Hs2. congruence.
Qed.

(** ** The other calls on regions *)

Lemma bad_region_spec ba nbits offset :
  ba_wf ba -> 0 <= offset < 2 ^ 32 -> 0 <= nbits < 2 ^ 32 -> bad_region ba nbits offset = false <-> in_array ba offset nbits.
Proof.
  intros Hwf Ho Hn. pose proof (wf_bits _ Hwf). unfold bad_region, in_array.
  destruct (Z.eqb_spec nbits 0), (Z.ltb_spec (num_bits ba) nbits), (Z.leb_spec (num_bits ba) offset); cbn [orb]; try (split; [done | lia]).
  rewrite wrap_u_id by lia. destruct (Z.leb_spec (num_bits ba) (offset + nbits - 1)); (split; [done || lia | done || lia]).
Qed.

(** What a call on a region does when the region holds only [want] bits, and
    its error when it does not. *)
Lemma region_call ba nbits offset want to_set err :
  ba_wf ba -> in_array ba offset nbits ->
  exists rc ba',
    ('(matched, bd, _) ← match_region ba offset nbits want;
     if (matched : bool) then ba ← set_region ba to_set bd; Some (0, ba) else Some (err, ba)) = Some (rc, ba') /\
    ((rc = 0 /\ all_bits ba offset nbits want /\ region_written ba ba' offset nbits to_set) \/
     (rc = err /\ ba' = ba /\ ~ all_bits ba offset nbits want)).
Proof.
  intros Hwf Hin. destruct (match_region_spec ba offset nbits want Hwf Hin) as (matched & mismatch & -> & Hm). cbn [mbind option_bind].
  destruct matched.
  - destruct (set_region_bits ba offset nbits to_set Hwf Hin) as (ba' & -> & Hw). exists 0, ba'. split; [done |]. by left.
  - exists err, ba. split; [done |]. right. split; [done |]. split; [done |]. intros Hall. destruct Hm as [H1 H2].
    rewrite (Hall mismatch H1) in H2. by destruct want.
Qed.

(** On a region inside the array, freeing clears its bits if all of them are
    set and fails with -EFAULT otherwise; testing and setting writes the bits
    if all of them have the other value and fails with -EEXIST otherwise;
    setting and clearing always write them; the tests tell whether all bits
    are set or clear.  Outside the array every call is refused. *)
Theorem bitarray_region_spec ba nbits offset to_set :
  ba_wf ba -> 0 <= offset < 2 ^ 32 -> 0 <= nbits < 2 ^ 32 ->
  if bad_region ba nbits offset
  then ~ in_array ba offset nbits /\
       sys_bitarray_free ba nbits offset = Some (- EINVAL, ba) /\
       sys_bitarray_test_and_set_region ba nbits offset to_set = Some (- EINVAL, ba) /\
       set_clear_region ba nbits offset to_set = Some (- EINVAL, ba) /\
       is_region_set_clear ba nbits offset to_set = Some false
  else in_array ba offset nbits /\
       (exists rc ba', sys_bitarray_free ba nbits offset = Some (rc, ba') /\
          ((rc = 0 /\ all_bits ba offset nbits true /\ region_written ba ba' offset nbits false) \/
           (rc = - EFAULT /\ ba' = ba /\ ~ all_bits ba offset nbits true))) /\
       (exists rc ba', sys_bitarray_test_and_set_region ba nbits offset to_set = Some (rc, ba') /\
          ((rc = 0 /\ all_bits ba offset nbits (negb to_set) /\ region_written ba ba' offset nbits to_set) \/
           (rc = - EEXIST /\ ba' = ba /\ ~ all_bits ba offset nbits (negb to_set)))) /\
       (exists ba', set_clear_region ba nbits offset to_set = Some (0, ba') /\ region_written ba ba' offset nbits to_set) /\
       (exists b, is_region_set_clear ba nbits offset to_set = Some b /\ (b = true <-> all_bits ba offset nbits to_set)).
Proof.
  intros Hwf Ho Hn. pose proof (bad_region_spec ba nbits offset Hwf Ho Hn) as Hbad.
  unfold sys_bitarray_free, sys_bitarray_test_and_set_region, set_clear_region, is_region_set_clear.
  destruct (bad_region ba nbits offset).
  - split; [| done]. intros Hin%Hbad. done.
  - pose proof (proj1 Hbad eq_refl) as Hin. split; [done |]. split; [by apply region_call |]. split; [by apply region_call |]. split.
    + destruct (set_region_bits ba offset nbits to_set Hwf Hin) as (ba' & -> & Hw). by exists ba'.
    + destruct (match_region_spec ba offset nbits to_set Hwf Hin) as (matched & mismatch & -> & Hm). exists matched. split; [done |].
      destruct matched; [done |]. split; [done |]. intros Hall. destruct Hm as [H1 H2]. rewrite (Hall mismatch H1) in H2. by destruct to_set.
Qed.

(** ** Counting and finding set bits *)

(** The positions of the set bits of a region, in order. *)
Definition set_bits (ba : sys_bitarray) (offset nbits : Z) : list Z := filter (λ i, bit ba i = true) (seqZ offset nbits).

(** Those in bundle [b]. *)
Definition bundle_bits (mask b v : Z) : list Z := Z.add (32 * b) <$> word_bits (Z.land v mask).

Lemma filter_seqZ_window (P : Z -> Prop) `{!∀ x, Decision (P x)} lo n lo' n' :
  lo <= lo' -> 0 <= n' -> lo' + n' <= lo + n ->
  filter P (seqZ lo' n') = filter (λ i, P i ∧ in_region lo' n' i = true) (seqZ lo n).
Proof.
  intros H1 H2 H3. replace n with ((lo' - lo) + (n' + (lo + n - (lo' + n')))) by lia.
  rewrite !seqZ_app, !filter_app by lia. replace (lo + (lo' - lo)) with lo' by lia.
  rewrite (filter_none _ (seqZ lo (lo' - lo))), (filter_none _ (seqZ (lo' + n') _)).
  - simpl. rewrite app_nil_r. apply filter_ext_elem. intros i. rewrite elem_of_seqZ. intros Hi. unfold in_region.
    rewrite (proj2 (Z.leb_le _ _)), (proj2 (Z.ltb_lt _ _)) by lia. naive_solver.
  - intros i. rewrite elem_of_seqZ. intros Hi [_ Hr]. unfold in_region in Hr. bool_hyps. lia.
  - intros i. rewrite elem_of_seqZ. intros Hi [_ Hr]. unfold in_region in Hr. bool_hyps. lia.
Qed.

(** The part of a region in one bundle. *)
Lemma bundle_bits_region ba offset nbits b v :
  ba_wf ba -> in_array ba offset nbits -> 0 <= b -> get_bundle ba b = Some v ->
  bundle_bits (region_mask (setup_bundle_data offset nbits) b) b v =
  filter (λ i, bit ba i = true ∧ in_region offset nbits i = true) (seqZ (32 * b) 32).
Proof.
  intros Hwf Hin Hb Hv. pose proof (fmap_add_seqZ (32 * b) 0 32) as E. rewrite Z.add_0_r in E. rewrite <- E, filter_fmap.
  unfold bundle_bits, word_bits. f_equal. apply filter_ext_elem. intros j. rewrite elem_of_seqZ. intros Hj. simpl.
  rewrite (bit_get ba _ v).
  - replace ((32 * b + j) mod 32) with j by (rewrite Z.add_comm, Z.mul_comm, Z.mod_add, Z.mod_small by lia; done).
    rewrite Z.land_spec, (region_mask_testbit ba) by (done || lia). by rewrite andb_true_iff.
  - replace ((32 * b + j) / 32) with b; [done |]. rewrite Z.add_comm, Z.mul_comm, Z.div_add, Z.div_small by lia. done.
Qed.

Lemma seqZ_bundles s (k : nat) : seqZ (32 * s) (32 * Z.of_nat k) = seqZ s (Z.of_nat k) ≫= λ b, seqZ (32 * b) 32.
Proof.
  revert s. induction k as [| k IH]; intros s; [done |]. rewrite (seqZ_cons s) by lia. rewrite bind_cons.
  replace (32 * Z.of_nat (S k)) with (32 + 32 * Z.of_nat k) by lia. rewrite seqZ_app by lia. f_equal.
  replace (32 * s + 32) with (32 * Z.succ s) by lia. rewrite IH. by replace (Z.pred (Z.of_nat (S k))) with (Z.of_nat k) by lia.
Qed.

Lemma filter_bind {A B} (P : B -> Prop) `{!∀ x, Decision (P x)} (f : A -> list B) (l : list A) :
  filter P (l ≫= f) = l ≫= λ x, filter P (f x).
Proof. induction l as [| x l IH]; [done |]. by rewrite !bind_cons, filter_app, IH. Qed.

Lemma bind_ext_elem {A B} (f g : A -> list B) (l : list A) : (∀ x, x ∈ l -> f x = g x) -> l ≫= f = l ≫= g.
Proof. induction l as [| x l IH]; intros H; [done |]. rewrite !bind_cons, H, IH; set_solver. Qed.

Section Search.
Context (ba : sys_bitarray) (offset nbits : Z).
Hypothesis Hwf : ba_wf ba.
Hypothesis Hin : in_array ba offset nbits.

Abbreviation bd := (setup_bundle_data offset nbits).
Definition value (b : Z) : Z := default 0 (get_bundle ba b).

Definition contribution (b : Z) : list Z := bundle_bits (region_mask bd b) b (value b).

Lemma value_ok b : sidx bd <= b <= eidx bd -> get_bundle ba b = Some (value b) /\ word (value b).
Proof.
  intros Hb. pose proof (bd_range ba offset nbits Hwf Hin). destruct (get_bundle_ok ba b Hwf ltac:(lia)) as (v & Hv & Hw). unfold value. by rewrite Hv.
Qed.

Lemma set_bits_bundles : set_bits ba offset nbits = seqZ (sidx bd) (eidx bd - sidx bd + 1) ≫= contribution.
Proof.
  pose proof (bd_range ba offset nbits Hwf Hin) as Hr. destruct (bd_fields ba offset nbits Hwf Hin) as (Es & Ee & _ & _).
  destruct Hin as (H1 & H2 & H3). unfold set_bits.
  rewrite (filter_seqZ_window _ (32 * sidx bd) (32 * (eidx bd - sidx bd + 1))) by (rewrite ?Es, ?Ee; Z.to_euclidean_division_equations; lia).
  replace (eidx bd - sidx bd + 1) with (Z.of_nat (Z.to_nat (eidx bd - sidx bd + 1))) by lia.
  rewrite seqZ_bundles, filter_bind. apply bind_ext_elem. intros b. rewrite elem_of_seqZ. intros Hb. symmetry. unfold contribution.
  destruct (value_ok b ltac:(lia)) as [Hv _]. by apply bundle_bits_region; [| | lia |].
Qed.

(** The first bundle, those in between and the last one. *)
Lemma set_bits_parts :
  set_bits ba offset nbits =
    if sidx bd =? eidx bd then contribution (sidx bd)
    else contribution (sidx bd) ++ (between bd ≫= contribution) ++ contribution (eidx bd).
Proof.
  pose proof (bd_range ba offset nbits Hwf Hin) as Hr. rewrite set_bits_bundles. destruct (Z.eqb_spec (sidx bd) (eidx bd)) as [E | E].
  - rewrite <- E, Z.sub_diag. cbn. apply app_nil_r.
  - rewrite seqZ_cons by lia. rewrite bind_cons. f_equal. unfold between.
    replace (Z.pred (eidx bd - sidx bd + 1)) with ((eidx bd - (sidx bd + 1)) + 1) by lia. rewrite seqZ_app by lia. rewrite bind_app. f_equal.
    replace (Z.succ (sidx bd) + (eidx bd - (sidx bd + 1))) with (eidx bd) by lia. cbn. apply app_nil_r.
Qed.

Lemma contribution_count b mask : region_mask bd b = mask -> POPCOUNT (Z.land (value b) mask) = Z.of_nat (length (contribution b)).
Proof. intros <-. unfold contribution, bundle_bits, POPCOUNT. by rewrite length_fmap. Qed.

Lemma between_mask b : b ∈ between bd -> region_mask bd b = lnot32 0 /\ sidx bd <= b <= eidx bd.
Proof.
  unfold between. rewrite elem_of_seqZ. intros Hb. split; [| lia]. unfold region_mask.
  rewrite (proj2 (Z.eqb_neq b (sidx bd))), (proj2 (Z.eqb_neq b (eidx bd))) by lia.
  rewrite (proj2 (Z.ltb_lt (sidx bd) b)), (proj2 (Z.ltb_lt b (eidx bd))) by lia. done.
Qed.

Lemma between_count b : b ∈ between bd -> get_bundle ba b = Some (value b) /\ POPCOUNT (value b) = Z.of_nat (length (contribution b)).
Proof.
  intros [Em Hb]%between_mask. destruct (value_ok b Hb) as [Hv Hw]. split; [done |]. rewrite <- (land_full (value b) Hw) at 1. by apply contribution_count.
Qed.

Lemma count_between_spec c idxs :
  (∀ b, b ∈ idxs -> b ∈ between bd) -> count_between ba c idxs = Some (c + Z.of_nat (length (idxs ≫= contribution))).
Proof.
  revert c. induction idxs as [| b idxs IH]; intros c Hb; [simpl; f_equal; lia |]. cbn [count_between].
  destruct (between_count b (Hb b ltac:(set_solver))) as [-> Hc]. cbn [mbind option_bind]. rewrite Hc, IH by set_solver.
  rewrite bind_cons, length_app. f_equal. lia.
Qed.

Lemma end_masks : region_mask bd (sidx bd) = smask bd /\ (sidx bd ≠ eidx bd -> region_mask bd (eidx bd) = emask bd).
Proof.
  unfold region_mask. rewrite !Z.eqb_refl. split; [done |]. intros E. by rewrite (proj2 (Z.eqb_neq (eidx bd) (sidx bd))) by done.
Qed.

Lemma popcount_spec : sys_bitarray_popcount_region ba nbits offset = Some (0, Z.of_nat (length (set_bits ba offset nbits))).
Proof.
  pose proof (bd_range ba offset nbits Hwf Hin) as Hr. destruct end_masks as [Es Ee]. pose proof (wf_bits _ Hwf).
  unfold sys_bitarray_popcount_region. destruct Hin as (H1 & H2 & H3). rewrite wrap_u_id by lia.
  rewrite (proj2 (Z.eqb_neq nbits 0)), (proj2 (Z.ltb_ge (num_bits ba) (offset + nbits))) by lia. cbn [orb]. cbv zeta.
  rewrite set_bits_parts. destruct (value_ok (sidx bd) ltac:(lia)) as [-> _]. cbn [mbind option_bind from_option].
  rewrite (contribution_count _ _ Es). destruct (Z.eqb_spec (sidx bd) (eidx bd)) as [| E]; [done |].
  destruct (value_ok (eidx bd) ltac:(lia)) as [-> _]. cbn [mbind option_bind]. rewrite (contribution_count _ _ (Ee E)).
  rewrite count_between_spec by done. cbn [mbind option_bind]. rewrite !length_app. do 2 f_equal. lia.
Qed.

Lemma nth_loop_spec w n js :
  1 <= n -> (∀ j, j ∈ js -> 0 <= j) -> nth_loop w n js = filter (λ j, Z.testbit w j = true) js !! Z.to_nat (n - 1).
Proof.
  revert n. induction js as [| j js IH]; intros n Hn Hj; [done |]. cbn [nth_loop]. rewrite flag_any_BIT by (apply Hj; set_solver).
  rewrite filter_cons. destruct (Z.testbit w j) eqn:E.
  - rewrite decide_True by done. destruct (Z.leb_spec (n - 1) 0).
    + by replace (Z.to_nat (n - 1)) with 0%nat by lia.
    + rewrite IH by (lia || set_solver). by replace (Z.to_nat (n - 1)) with (S (Z.to_nat (n - 1 - 1))) by lia.
  - rewrite decide_False by done. apply IH; [done | set_solver].
Qed.

(** The answer when the bit looked for is the [n]th of a sequence. *)
Definition nth_answer (n : Z) (l : list Z) : Z * Z :=
  match l !! Z.to_nat (n - 1) with Some p => (0, p) | None => (1, 0) end.

Lemma nth_found_spec b mask n :
  region_mask bd b = mask -> sidx bd <= b <= eidx bd -> 1 <= n <= Z.of_nat (length (contribution b)) ->
  nth_found b (Z.land (value b) mask) n = nth_answer n (contribution b).
Proof.
  intros Em Hb Hn. unfold nth_found, bundle_bitness. rewrite nth_loop_spec by (lia || (intros j; rewrite elem_of_seqZ; lia)).
  unfold nth_answer, contribution, bundle_bits. rewrite Em, list_lookup_fmap. fold (word_bits (Z.land (value b) mask)).
  destruct (word_bits (Z.land (value b) mask) !! Z.to_nat (n - 1)) as [j |] eqn:E; [| done]. simpl.
  assert (0 <= j < 32) as Hj.
  { apply list_elem_of_lookup_2 in E. unfold word_bits in E. rewrite list_elem_of_filter, elem_of_seqZ in E. lia. }
  pose proof (bd_range ba offset nbits Hwf Hin). pose proof (wf_bits _ Hwf).
  assert (32 * num_bundles ba <= 2 ^ 31 + 31) by (rewrite (wf_bundles _ Hwf); Z.to_euclidean_division_equations; lia).
  rewrite !wrap_u_id by (rewrite ?wrap_u_id by lia; lia). f_equal. lia.
Qed.

Lemma nth_answer_app_l n l1 l2 : 1 <= n <= Z.of_nat (length l1) -> nth_answer n (l1 ++ l2) = nth_answer n l1.
Proof. intros Hn. unfold nth_answer. by rewrite lookup_app_l by lia. Qed.

Lemma nth_answer_app_r n l1 l2 : Z.of_nat (length l1) < n -> nth_answer n (l1 ++ l2) = nth_answer (n - Z.of_nat (length l1)) l2.
Proof.
  intros Hn. unfold nth_answer. rewrite lookup_app_r by lia.
  by replace (Z.to_nat (n - 1) - length l1)%nat with (Z.to_nat (n - Z.of_nat (length l1) - 1)) by lia.
Qed.

Lemma nth_answer_none n l : Z.of_nat (length l) < n -> nth_answer n l = (1, 0).
Proof. intros Hn. unfold nth_answer. by rewrite lookup_ge_None_2 by lia. Qed.

Lemma nth_between_spec n idxs rest :
  1 <= n -> (∀ b, b ∈ idxs -> b ∈ between bd) ->
  exists r, nth_between ba n idxs = Some r /\
  match r with
  | inl (b, v, n') => nth_found b v n' = nth_answer n ((idxs ≫= contribution) ++ rest)
  | inr n' => 1 <= n' /\ nth_answer n ((idxs ≫= contribution) ++ rest) = nth_answer n' rest
  end.
Proof.
  revert n. induction idxs as [| b idxs IH]; intros n Hn Hb; [by exists (inr n) |]. cbn [nth_between].
  assert (b ∈ between bd) as Hbb by (apply Hb; set_solver). destruct (between_count b Hbb) as [Hv Hc]. destruct (between_mask b Hbb) as [Em Hr].
  rewrite Hv. cbn [mbind option_bind]. rewrite Hc. rewrite bind_cons, <- app_assoc.
  destruct (Z.leb_spec n (Z.of_nat (length (contribution b)))).
  - eexists. split; [done |]. cbn beta iota. rewrite nth_answer_app_l by lia.
    destruct (value_ok b Hr) as [_ Hw]. rewrite <- (land_full (value b) Hw) at 1. by apply nth_found_spec.
  - destruct (IH (n - Z.of_nat (length (contribution b)))) as (r & -> & Hspec); [lia | set_solver |]. exists r. split; [done |].
    by rewrite nth_answer_app_r by lia.
Qed.

Lemma find_nth_spec n :
  1 <= n -> sys_bitarray_find_nth_set ba n nbits offset = Some (nth_answer n (set_bits ba offset nbits)).
Proof.
  intros Hn. pose proof (bd_range ba offset nbits Hwf Hin) as Hr. destruct end_masks as [Es Ee]. pose proof (wf_bits _ Hwf).
  unfold sys_bitarray_find_nth_set. destruct Hin as (H1 & H2 & H3). rewrite wrap_u_id by lia.
  rewrite (proj2 (Z.eqb_neq n 0)), (proj2 (Z.eqb_neq nbits 0)), (proj2 (Z.ltb_ge (num_bits ba) (offset + nbits))) by lia. cbn [orb]. cbv zeta.
  rewrite set_bits_parts. destruct (value_ok (sidx bd) ltac:(lia)) as [-> _]. cbn [mbind option_bind].
  rewrite (contribution_count _ _ Es). destruct (Z.leb_spec n (Z.of_nat (length (contribution (sidx bd))))).
  - rewrite nth_found_spec by (done || lia). f_equal. symmetry. case_match; [done |]. by apply nth_answer_app_l.
  - destruct (Z.eqb_spec (sidx bd) (eidx bd)) as [| E]; cbn [negb]; [by rewrite nth_answer_none by lia |].
    rewrite nth_answer_app_r by lia. set (n1 := n - _).
    destruct (nth_between_spec n1 (between bd) (contribution (eidx bd)) ltac:(lia) ltac:(done)) as (r & -> & Hspec). cbn [mbind option_bind].
    destruct r as [[[b v] n'] | n']; [by rewrite Hspec |]. destruct Hspec as [Hn' ->].
    destruct (value_ok (eidx bd) ltac:(lia)) as [-> _]. cbn [mbind option_bind]. rewrite (contribution_count _ _ (Ee E)).
    destruct (Z.leb_spec n' (Z.of_nat (length (contribution (eidx bd))))); [by rewrite nth_found_spec by (auto with lia) | by rewrite nth_answer_none].
Qed.

End Search.

(** Counting the set bits of a region and looking for the [n]th of them give
    what the sequence of bits says: the number of set bits, and the position
    of the [n]th one, or 1 when there are fewer. *)
Theorem bitarray_search_spec ba nbits offset n :
  ba_wf ba -> in_array ba offset nbits -> 1 <= n ->
  let ones := filter (λ i, bit ba i = true) (seqZ offset nbits) in
  sys_bitarray_popcount_region ba nbits offset = Some (0, Z.of_nat (length ones)) /\
  sys_bitarray_find_nth_set ba n nbits offset =
    Some (match ones !! Z.to_nat (n - 1) with Some p => (0, p) | None => (1, 0) end).
Proof. intros Hwf Hin Hn. split; [by apply popcount_spec | by apply find_nth_spec]. Qed.

(** ** Exclusive or *)

Definition xor_fun (other : sys_bitarray) (mask b d : Z) : Z :=
  Z.lor (Z.land (Z.lxor (value other b) d) mask) (Z.land d (lnot32 mask)).

Lemma xor_fun_word other mask b d : word (value other b) -> word mask -> word d -> word (xor_fun other mask b d).
Proof. intros Ho Hm Hd. unfold xor_fun. apply lor_bound; [lia | |]; apply land_bound; [lia | by apply lxor_bound | lia | done]. Qed.

Lemma xor_fun_testbit other mask b d i :
  0 <= i < 32 -> Z.testbit (xor_fun other mask b d) i =
    if Z.testbit mask i then xorb (Z.testbit (value other b) i) (Z.testbit d i) else Z.testbit d i.
Proof.
  intros Hi. unfold xor_fun. rewrite Z.lor_spec, !Z.land_spec, Z.lxor_spec, lnot32_testbit by done.
  destruct (Z.testbit mask i), (Z.testbit d i), (Z.testbit (value other b) i); done.
Qed.

Lemma xor_bundle_upd other mask idx dst :
  get_bundle other idx = Some (value other idx) -> xor_bundle other mask idx dst = upd_bundle idx (xor_fun other mask idx) dst.
Proof. intros H. unfold xor_bundle. by rewrite H. Qed.

Lemma xor_between_seq other f idxs dst :
  (∀ b, b ∈ idxs -> get_bundle other b = Some (value other b)) ->
  (∀ b d, b ∈ idxs -> word d -> f b d = Z.lxor d (value other b) /\ word (f b d)) -> Forall word (bundles dst) ->
  xor_between other idxs dst = upd_seq f idxs dst.
Proof.
  revert dst. induction idxs as [| b idxs IH]; intros dst Hget Hf Hw; [done |]. cbn [xor_between upd_seq]. rewrite Hget by set_solver.
  cbn [mbind option_bind]. rewrite Forall_lookup in Hw. unfold upd_bundle. destruct (get_bundle dst b) as [d |] eqn:E; [| done]. cbn [mbind option_bind].
  destruct (Hf b d ltac:(set_solver) ltac:(by eapply Hw)) as [Hfd Hfw]. rewrite <- Hfd. unfold set_bundle. rewrite E. cbn [mbind option_bind].
  apply IH; [set_solver | intros; apply Hf; [set_solver | done] |]. simpl. apply Forall_insert; [by rewrite Forall_lookup | done].
Qed.

Lemma xor_map dst other offset nbits :
  ba_wf dst -> ba_wf other -> num_bits dst = num_bits other -> in_array dst offset nbits ->
  let bd := setup_bundle_data offset nbits in
  sys_bitarray_xor dst other nbits offset = Some (0, ba_map (λ b d, xor_fun other (region_mask bd b) b d) dst).
Proof.
  intros Hwf Hwfo Heq Hin. cbv zeta. pose proof (bd_range dst offset nbits Hwf Hin) as Hr. pose proof (wf_bits _ Hwf).
  destruct (between_all dst offset nbits Hwf Hin) as [Hnd Hel]. pose proof (wf_length _ Hwf) as Hlen.
  pose proof Hin as (H1 & H2 & H3). unfold sys_bitarray_xor. rewrite Heq, Z.eqb_refl, wrap_u_id by lia. cbn [negb].
  rewrite (proj2 (Z.eqb_neq nbits 0)), (proj2 (Z.ltb_ge (num_bits other) (offset + nbits))) by lia. cbn [orb].
  destruct (end_masks offset nbits) as [Es Ee]. pose proof (between_mask offset nbits) as Em. pose proof (masks_word offset nbits) as [Hms Hme].
  assert (in_array other offset nbits) as Hino by (unfold in_array in *; lia).
  assert (∀ b, sidx (setup_bundle_data offset nbits) <= b <= eidx (setup_bundle_data offset nbits) ->
    get_bundle other b = Some (value other b) /\ word (value other b)) as Hov by (intros b Hb; by apply (value_ok other offset nbits)).
  set (bd := setup_bundle_data offset nbits) in *. set (f := λ b d, xor_fun other (region_mask bd b) b d).
  set (idxs := if sidx bd =? eidx bd then _ else _) in *.
  assert ((if sidx bd =? eidx bd then dst ← xor_bundle other (smask bd) (sidx bd) dst; Some (0, dst)
           else dst ← xor_bundle other (smask bd) (sidx bd) dst; dst ← xor_bundle other (emask bd) (eidx bd) dst;
             dst ← xor_between other (between bd) dst; Some (0, dst)) =
          (dst ← upd_seq f idxs dst; Some (0, dst))) as ->.
  { unfold idxs. destruct (Hov (sidx bd) ltac:(lia)) as [Hgs Hws]. destruct (Hov (eidx bd) ltac:(lia)) as [Hge Hwe].
    rewrite xor_bundle_upd by done.
    destruct (Z.eqb_spec (sidx bd) (eidx bd)) as [E | E]; cbn [upd_seq]; change (f (sidx bd)) with (xor_fun other (region_mask bd (sidx bd)) (sidx bd)); rewrite Es.
    - by destruct (upd_bundle _ _ dst).
    - change (f (eidx bd)) with (xor_fun other (region_mask bd (eidx bd)) (eidx bd)). rewrite (Ee E).
      rewrite upd_bundle_map by lia. cbn [mbind option_bind]. rewrite xor_bundle_upd by done.
      rewrite upd_bundle_map by (cbn [ba_map bundles]; rewrite length_imap; lia). cbn [mbind option_bind].
      rewrite (xor_between_seq other f); [done | | |].
      + intros b [_ Hb]%Em. by apply Hov.
      + intros b d [Emb Hb]%Em Hd. destruct (Hov b Hb) as [_ Hw]. unfold f. rewrite Emb. split; [| apply xor_fun_word; auto using lnot32_word].
        apply word_ext; [apply xor_fun_word; auto using lnot32_word | by apply lxor_bound |]. intros i Hi.
        rewrite xor_fun_testbit, lnot32_testbit, Z.testbit_0_l, Z.lxor_spec by done. apply xorb_comm.
      + apply ba_map_words; [apply ba_map_words; [apply Hwf |] |]; intros b v Hv; case_match; auto; by apply xor_fun_word. }
  rewrite (upd_seq_map f) by (done || (intros b Hb%Hel; lia)). cbn [mbind option_bind]. do 2 f_equal. apply ba_map_ext.
  intros b v Hb Hv. unfold f. destruct (decide (sidx bd <= b <= eidx bd)).
  - by rewrite bool_decide_eq_true_2 by (by apply Hel).
  - rewrite bool_decide_eq_false_2 by (by rewrite Hel). rewrite region_mask_out by lia. unfold xor_fun. rewrite Z.land_0_r, Z.lor_0_l.
    symmetry. apply (region_fun_0 false). pose proof (wf_words _ Hwf) as Hw. rewrite Forall_lookup in Hw. by eapply Hw.
Qed.

Lemma xor_bits dst other offset nbits :
  ba_wf dst -> ba_wf other -> num_bits dst = num_bits other -> in_array dst offset nbits ->
  exists dst', sys_bitarray_xor dst other nbits offset = Some (0, dst') /\ ba_wf dst' /\ num_bits dst' = num_bits dst /\
    ∀ i, 0 <= i < num_bits dst -> bit dst' i = if in_region offset nbits i then xorb (bit other i) (bit dst i) else bit dst i.
Proof.
  intros Hwf Hwfo Heq Hin. eexists. split; [by apply xor_map |].
  set (f := λ b d, xor_fun other (region_mask (setup_bundle_data offset nbits) b) b d).
  assert (∀ b, word (value other b)) as Hov.
  { intros b. unfold value, get_bundle. destruct (bundles other !! Z.to_nat b) eqn:E; [| done].
    pose proof (wf_words _ Hwfo) as Hw. rewrite Forall_lookup in Hw. by eapply Hw. }
  split; [| split; [done |]].
  - apply ba_map_wf; [done |]. intros b v Hv. apply xor_fun_word; [done | by apply (region_mask_word dst) | done].
  - intros i Hi. pose proof (bundle_index dst i Hwf Hi) as Hb. destruct (get_bundle_ok dst (i / 32) Hwf Hb) as (v & Hv & Hw).
    destruct (bit_split i) as [Hm Hs]. rewrite (bit_get _ i (f (i / 32) v)) by (rewrite get_ba_map, Hv by lia; done).
    rewrite (bit_get dst i v Hv). unfold f. rewrite xor_fun_testbit, (region_mask_testbit dst), <- Hs by done.
    assert (bit other i = Z.testbit (value other (i / 32)) (i mod 32)) as ->; [| done].
    unfold bit, value, get_bundle. destruct (bundles other !! Z.to_nat (i / 32)); [done |]. simpl. by rewrite Z.testbit_0_l.
Qed.

(** ** Single bits *)

Lemma bit_upd ba b f v :
  ba_wf ba -> 0 <= b < num_bits ba -> get_bundle ba (b / 32) = Some v -> word (f v) ->
  (∀ j, 0 <= j < 32 -> j ≠ b mod 32 -> Z.testbit (f v) j = Z.testbit v j) ->
  exists ba', upd_bundle (b / 32) f ba = Some ba' /\ region_written ba ba' b 1 (Z.testbit (f v) (b mod 32)).
Proof.
  intros Hwf Hb Hv Hw Hf. pose proof (bundle_index ba b Hwf Hb) as Hidx. pose proof (wf_length _ Hwf).
  rewrite upd_bundle_map by lia. eexists. split; [done |]. split; [| split; [done |]].
  - split; [apply Hwf | apply Hwf | simpl; rewrite length_imap; apply Hwf |]. simpl. rewrite Forall_lookup. intros i w. rewrite list_lookup_imap.
    pose proof (wf_words _ Hwf) as Hws. rewrite Forall_lookup in Hws. destruct (bundles ba !! i) as [x |] eqn:E; [| done]. intros [= <-].
    destruct (Z.eqb_spec (Z.of_nat i) (b / 32)) as [Ei |]; [| by eapply Hws].
    unfold get_bundle in Hv. rewrite <- Ei, Nat2Z.id in Hv. congruence.
  - intros i Hi. pose proof (bundle_index ba i Hwf Hi) as Hii. destruct (get_bundle_ok ba (i / 32) Hwf Hii) as (x & Hx & _).
    destruct (bit_split i) as [Hm Hs], (bit_split b) as [Hmb Hsb]. rewrite (bit_get ba i x Hx).
    rewrite (bit_get _ i (if i / 32 =? b / 32 then f x else x)) by (rewrite get_ba_map, Hx by lia; done).
    unfold in_region. destruct (Z.eqb_spec (i / 32) (b / 32)) as [E | E].
    + assert (x = v) as -> by congruence. destruct (Z.eq_dec (i mod 32) (b mod 32)) as [Em | Em].
      * rewrite (proj2 (Z.leb_le _ _)), (proj2 (Z.ltb_lt _ _)) by lia. by rewrite Em.
      * rewrite Hf by done. destruct (Z.leb_spec b i), (Z.ltb_spec i (b + 1)); try lia; done.
    + destruct (Z.leb_spec b i), (Z.ltb_spec i (b + 1)); try done. assert (i = b) by lia. congruence.
Qed.

Lemma flag_set_word v k : word v -> 0 <= k < 32 -> word (flag_set v (BIT k)).
Proof.
  intros Hv Hk. apply lor_bound; [lia | done |]. unfold BIT. rewrite Z.shiftl_1_l. assert (2 ^ k <= 2 ^ 31) by (apply Z.pow_le_mono_r; lia). lia.
Qed.

(** The calls on one bit: setting and clearing write the bit and no other,
    testing reports it, the combined calls report the value before; a bit
    outside the array is refused with -EINVAL. *)
Theorem bitarray_bit_spec ba b :
  ba_wf ba -> 0 <= b ->
  let old := if bit ba b then 1 else 0 in
  if num_bits ba <=? b
  then sys_bitarray_set_bit ba b = Some (- EINVAL, ba) /\ sys_bitarray_clear_bit ba b = Some (- EINVAL, ba) /\
       sys_bitarray_test_bit ba b = Some (- EINVAL, 0) /\
       sys_bitarray_test_and_set_bit ba b = Some (- EINVAL, 0, ba) /\ sys_bitarray_test_and_clear_bit ba b = Some (- EINVAL, 0, ba)
  else sys_bitarray_test_bit ba b = Some (0, old) /\
       (exists ba', sys_bitarray_set_bit ba b = Some (0, ba') /\ sys_bitarray_test_and_set_bit ba b = Some (0, old, ba') /\
          region_written ba ba' b 1 true) /\
       (exists ba', sys_bitarray_clear_bit ba b = Some (0, ba') /\ sys_bitarray_test_and_clear_bit ba b = Some (0, old, ba') /\
          region_written ba ba' b 1 false).
Proof.
  intros Hwf Hb. cbv zeta. unfold sys_bitarray_set_bit, sys_bitarray_clear_bit, sys_bitarray_test_bit,
    sys_bitarray_test_and_set_bit, sys_bitarray_test_and_clear_bit, bundle_bitness. destruct (Z.leb_spec (num_bits ba) b); [done |].
  destruct (get_bundle_ok ba (b / 32) Hwf (bundle_index ba b Hwf ltac:(lia))) as (v & Hv & Hw). destruct (bit_split b) as [Hm _].
  rewrite Hv. cbn [mbind option_bind]. rewrite flag_any_BIT, <- (bit_get ba b v Hv) by lia. split; [done |].
  destruct (bit_upd ba b (λ v, flag_set v (BIT (b mod 32))) v) as (s & Hs & Hsr); [done | lia | done | by apply flag_set_word | |].
  { intros j Hj Hne. rewrite flag_set_testbit, (proj2 (Z.eqb_neq _ _)) by lia. apply orb_false_r. }
  destruct (bit_upd ba b (λ v, flag_clear v (BIT (b mod 32))) v) as (c & Hc & Hcr); [done | lia | done | by apply land_bound | |].
  { intros j Hj Hne. rewrite flag_clear_testbit, (proj2 (Z.eqb_neq _ _)) by lia. apply andb_true_r. }
  rewrite flag_set_testbit, Z.eqb_refl, orb_true_r in Hsr by lia. rewrite flag_clear_testbit, Z.eqb_refl, andb_false_r in Hcr by lia.
  rewrite Hs, Hc. split; [by exists s | by exists c].
Qed.

(** ** A small array *)

(** 40 bits of which 0 to 4, 8 and 35 are set. *)
Definition ba40 : sys_bitarray := mk_bitarray 40 2 [287; 8].

Lemma ba40_wf : ba_wf ba40.
Proof. split; [by vm_compute .. |]. repeat constructor; by vm_compute. Qed.

Lemma bitarray_alloc_spec_witness :
  sys_bitarray_alloc ba40 4 = Some (0, 9, mk_bitarray 40 2 [7967; 8]) /\ all_bits ba40 9 4 false.
Proof.
  destruct (bitarray_alloc_spec ba40 4 ba40_wf ltac:(lia)) as (rc & off & ba' & E & H). vm_compute in E. injection E as <- <- <-.
  split; [by vm_compute |]. destruct H as [(_ & _ & _ & H & _) | (H & _)]; [exact H | by vm_compute in H].
Defined.

Lemma bitarray_region_spec_witness :
  exists b, is_region_set_clear ba40 5 0 true = Some b /\ (b = true <-> all_bits ba40 0 5 true).
Proof.
  pose proof (bitarray_region_spec ba40 5 0 true ba40_wf ltac:(lia) ltac:(lia)) as H.
  assert (bad_region ba40 5 0 = false) as E by (by vm_compute). rewrite E in H. apply H.
Defined.

Lemma bitarray_search_spec_witness :
  sys_bitarray_popcount_region ba40 36 4 = Some (0, 3) /\ sys_bitarray_find_nth_set ba40 3 36 4 = Some (0, 35).
Proof.
  destruct (bitarray_search_spec ba40 36 4 3 ba40_wf ltac:(by vm_compute) ltac:(lia)) as [-> ->]. split; by vm_compute.
Defined.

Lemma bitarray_bit_spec_witness : sys_bitarray_test_bit ba40 35 = Some (0, 1).
Proof. apply (bitarray_bit_spec ba40 35 ba40_wf ltac:(lia)). Defined.

(** C25: The range check of the counting and the searching call adds offset and
    length in 32 bits.  For a region whose end passes 2^32, by at most the
    number of bits of the array, the sum wraps and the check passes: with an
    offset outside the array's bundles the calls read outside the array; the
    counting call also does so when the region ends at 2^32, and otherwise
    reports success for a region the array does not have.  The calls that set and test regions refuse the same arguments. *)
Theorem popcount_check_wraps ba n nbits offset to_set :
  ba_wf ba -> 1 <= n -> 1 <= nbits < 2 ^ 32 -> 0 <= offset < 2 ^ 32 -> 2 ^ 32 <= offset + nbits <= 2 ^ 32 + num_bits ba ->
  (32 * num_bundles ba <= offset ->
     sys_bitarray_popcount_region ba nbits offset = None /\ sys_bitarray_find_nth_set ba n nbits offset = None) /\
  (offset + nbits = 2 ^ 32 -> sys_bitarray_popcount_region ba nbits offset = None) /\
  (offset < 32 * num_bundles ba -> 2 ^ 32 < offset + nbits ->
     exists count, sys_bitarray_popcount_region ba nbits offset = Some (0, count)) /\
  is_region_set_clear ba nbits offset to_set = Some false.
Proof.
  intros [Hb Hn Hl _] Hn1 Hnb Hof Hw.
  assert (u32 (offset + nbits) = offset + nbits - 2 ^ 32) as Eu by (symmetry; apply Z.mod_unique with 1; lia).
  assert ((num_bits ba <? u32 (offset + nbits)) = false) as Ec by (rewrite Eu; apply Z.ltb_ge; lia).
  assert ((nbits =? 0) = false /\ (n =? 0) = false) as [E0 En] by (split; apply Z.eqb_neq; lia).
  pose proof (Z.div_mod offset 32 ltac:(lia)). pose proof (Z.mod_pos_bound offset 32 ltac:(lia)).
  assert (0 <= offset / 32) by (apply Z.div_pos; lia).
  assert (∀ i, 32 * num_bundles ba <= 32 * i -> get_bundle ba i = None) as Hnone by (intros i Hi; apply lookup_ge_None_2; lia).
  assert (∀ i, 0 <= i < num_bundles ba -> is_Some (get_bundle ba i)) as Hsome by (intros i Hi; apply lookup_lt_is_Some_2; lia).
  set (bd := setup_bundle_data offset nbits). assert (sidx bd = offset / 32) as Es by done.
  assert (eidx bd = u32 (offset + nbits - 1) / 32) as Ee by done.
  unfold sys_bitarray_popcount_region, sys_bitarray_find_nth_set. fold bd. rewrite E0, En, Ec. cbn [orb]. split; [| split; [| split]].
  - intros Hout. rewrite Hnone by lia. split; [by case_match | done].
  - intros Eq. assert (get_bundle ba (eidx bd) = None) as Eg.
    { apply Hnone. rewrite Ee, Eq. change (u32 (2 ^ 32 - 1) / 32) with 134217727. pose proof (Z.div_mod (num_bits ba + 31) 32 ltac:(lia)). pose proof (Z.mod_pos_bound (num_bits ba + 31) 32 ltac:(lia)). lia. }
    rewrite Eg. destruct (Z.eqb_spec (sidx bd) (eidx bd)) as [-> | _]; [by rewrite Eg | by destruct (get_bundle ba (sidx bd))].
  - intros Hin Hgt. assert (u32 (offset + nbits - 1) = offset + nbits - 1 - 2 ^ 32) as Eu' by (symmetry; apply Z.mod_unique with 1; lia).
    rewrite Eu' in Ee. pose proof (Z.div_le_mono (offset + nbits - 1 - 2 ^ 32) offset 32 ltac:(lia) ltac:(lia)).
    assert (0 <= (offset + nbits - 1 - 2 ^ 32) / 32) by (apply Z.div_pos; lia).
    destruct (Hsome (sidx bd)) as [v Ev]; [lia |]. destruct (Hsome (eidx bd)) as [v' Ev']; [lia |]. rewrite Ev, Ev'. cbn [mbind option_bind].
    destruct (sidx bd =? eidx bd); [eexists; reflexivity |]. unfold between. rewrite seqZ_nil by lia. eexists. reflexivity.
  - unfold is_region_set_clear. assert (bad_region ba nbits offset = true) as ->; [| done]. unfold bad_region. cbv zeta. rewrite E0. cbn [orb].
    destruct (Z.ltb_spec (num_bits ba) nbits); [done |]. by rewrite (proj2 (Z.leb_le (num_bits ba) offset)) by lia.
Qed.

Lemma popcount_check_wraps_witness :
  sys_bitarray_popcount_region ba40 2 (2 ^ 32 - 1) = None /\ sys_bitarray_find_nth_set ba40 1 2 (2 ^ 32 - 1) = None.
Proof. apply (popcount_check_wraps ba40 1 2 (2 ^ 32 - 1) true ba40_wf); simpl; lia. Defined.
