(* ===== verification/Heap.v ===== *)
(** * The heap allocator (lib/heap/heap.c, lib/heap/heap.h)

    The allocator keeps its chunks in a byte memory: every chunk starts with a
    header of two fields, and a free chunk holds two more fields, the links of
    its free list, in the memory its user would get.  Fields have 16 bits in
    small heaps and 32 bits in big ones.  A bucket index outside the array of
    buckets is [None].  The fields of the struct after its chunk header are
    a record beside the memory.  The configured number of search loops is at
    least one.  Statistics, listeners and sanitizer hooks are off;
    pointers and [size_t] have 32 bits. *)

From Stdlib Require Import ZArith Lia Bool.
From stdpp Require Import base numbers list.
From S2P Require Import Prelude MathExtras Memory.

Open Scope Z_scope.

(** ** Configuration and state *)

Class HeapConfig := {
  SYS_HEAP_SMALL_ONLY : bool;
  SYS_HEAP_BIG_ONLY : bool;
  SYS_HEAP_ALLOC_LOOPS : nat
}.

Definition CHUNK_UNIT : Z := 8.

(** The struct is at address [hbase], which is where its first chunk starts. *)
Record z_heap := mk_heap {
  hbase : Z;
  end_chunk : Z;
  avail_buckets : Z;
  buckets : list Z;
  hmem : mem
}.

Definition set_avail (v : Z) (h : z_heap) : z_heap := mk_heap (hbase h) (end_chunk h) v (buckets h) (hmem h).
Definition set_buckets (l : list Z) (h : z_heap) : z_heap := mk_heap (hbase h) (end_chunk h) (avail_buckets h) l (hmem h).
Definition set_hmem (m : mem) (h : z_heap) : z_heap := mk_heap (hbase h) (end_chunk h) (avail_buckets h) (buckets h) m.

Inductive chunk_fields := LEFT_SIZE | SIZE_AND_USED | FREE_PREV | FREE_NEXT.

Definition field_index (f : chunk_fields) : Z :=
  match f with LEFT_SIZE => 0 | SIZE_AND_USED => 1 | FREE_PREV => 2 | FREE_NEXT => 3 end.

Section Ops.
Context {cfg : HeapConfig}.
Implicit Types (h : z_heap) (c sz bytes : Z).

(** ** heap.h *)

Definition big_heap_chunks (chunks : Z) : bool :=
  if SYS_HEAP_SMALL_ONLY then false else if SYS_HEAP_BIG_ONLY then true else 0x7fff <? chunks.

Definition big_heap_bytes (bytes : Z) : bool := big_heap_chunks (bytes / CHUNK_UNIT).

Definition big_heap h : bool := big_heap_chunks (end_chunk h).

(** The width of a field in bytes and its address. *)
Definition field_width h : nat := if big_heap h then 4%nat else 2%nat.
Definition field_addr h c (f : chunk_fields) : Z := hbase h + CHUNK_UNIT * c + Z.of_nat (field_width h) * field_index f.

Definition chunk_field h c (f : chunk_fields) : Z := load (field_width h) (hmem h) (field_addr h c f).

Definition chunk_set c (f : chunk_fields) (val : Z) h : z_heap :=
  set_hmem (store (field_width h) (field_addr h c f) val (hmem h)) h.

Definition chunk_used h c : bool := flag_any (chunk_field h c SIZE_AND_USED) 1.

Definition chunk_size h c : Z := Z.shiftr (chunk_field h c SIZE_AND_USED) 1.

Definition set_chunk_used c (used : bool) h : z_heap :=
  let v := chunk_field h c SIZE_AND_USED in
  chunk_set c SIZE_AND_USED (if used then flag_set v 1 else flag_clear v 1) h.

Definition set_chunk_size c (size : Z) h : z_heap := chunk_set c SIZE_AND_USED (u32 (Z.shiftl size 1)) h.

Definition prev_free_chunk h c : Z := chunk_field h c FREE_PREV.

Definition next_free_chunk h c : Z := chunk_field h c FREE_NEXT.

Definition set_prev_free_chunk c (prev : Z) h : z_heap := chunk_set c FREE_PREV prev h.

Definition set_next_free_chunk c (next : Z) h : z_heap := chunk_set c FREE_NEXT next h.

Definition left_chunk h c : Z := u32 (c - chunk_field h c LEFT_SIZE).

Definition right_chunk h c : Z := u32 (c + chunk_size h c).

Definition set_left_chunk_size c (size : Z) h : z_heap := chunk_set c LEFT_SIZE size h.

Definition solo_free_header h c : bool := big_heap h && (chunk_size h c =? 1).

Definition chunk_header_bytes h : Z := if big_heap h then 8 else 4.

Definition heap_footer_bytes (size : Z) : Z := if big_heap_bytes size then 8 else 4.

Definition chunksz bytes : Z := u32 (bytes + CHUNK_UNIT - 1) / CHUNK_UNIT.

Definition bytes_to_chunksz h bytes : Z := chunksz (u32 (chunk_header_bytes h + bytes)).

Definition min_chunk_size h : Z := bytes_to_chunksz h 1.

Definition chunksz_to_bytes h (chunksz_in : Z) : Z := u32 (chunksz_in * CHUNK_UNIT - chunk_header_bytes h).

Definition bucket_idx h sz : Z :=
  let usable_sz := u32 (sz - min_chunk_size h + 1) in
  31 - u32_count_leading_zeros usable_sz.

Definition size_too_big h bytes : bool := end_chunk h <=? bytes / CHUNK_UNIT.

(** ** heap.c *)

Definition chunk_mem h c : Z := hbase h + CHUNK_UNIT * c + chunk_header_bytes h.

(** [b->next] of the bucket [bidx]. *)
Definition bucket_next h (bidx : Z) : option Z := buckets h !! Z.to_nat bidx.
Definition set_bucket_next (bidx v : Z) h : option z_heap :=
  _ ← bucket_next h bidx;
  Some (set_buckets (<[Z.to_nat bidx := v]> (buckets h)) h).

Definition free_list_remove_bidx c (bidx : Z) h : option z_heap :=
  if next_free_chunk h c =? c then
    let h := set_avail (flag_clear (avail_buckets h) (BIT bidx)) h in
    set_bucket_next bidx 0 h
  else
    let first := prev_free_chunk h c in
    let second := next_free_chunk h c in
    h ← set_bucket_next bidx second h;
    let h := set_next_free_chunk first second h in
    Some (set_prev_free_chunk second first h).

Definition free_list_remove c h : option z_heap :=
  if negb (solo_free_header h c) then free_list_remove_bidx c (bucket_idx h (chunk_size h c)) h else Some h.

Definition free_list_add_bidx c (bidx : Z) h : option z_heap :=
  next ← bucket_next h bidx;
  if next =? 0 then
    let h := set_avail (flag_set (avail_buckets h) (BIT bidx)) h in
    h ← set_bucket_next bidx c h;
    let h := set_prev_free_chunk c c h in
    Some (set_next_free_chunk c c h)
  else
    let second := next in
    let first := prev_free_chunk h second in
    let h := set_prev_free_chunk c first h in
    let h := set_next_free_chunk c second h in
    let h := set_next_free_chunk first c h in
    Some (set_prev_free_chunk second c h).

Definition free_list_add c h : option z_heap :=
  if negb (solo_free_header h c) then free_list_add_bidx c (bucket_idx h (chunk_size h c)) h else Some h.

Definition split_chunks (lc rc : Z) h : z_heap :=
  let sz0 := chunk_size h lc in
  let lsz := u32 (rc - lc) in
  let rsz := u32 (sz0 - lsz) in
  let h := set_chunk_size lc lsz h in
  let h := set_chunk_size rc rsz h in
  let h := set_left_chunk_size rc lsz h in
  set_left_chunk_size (right_chunk h rc) rsz h.

Definition merge_chunks (lc rc : Z) h : z_heap :=
  let newsz := u32 (chunk_size h lc + chunk_size h rc) in
  let h := set_chunk_size lc newsz h in
  set_left_chunk_size (right_chunk h rc) newsz h.

Definition free_chunk c h : option z_heap :=
  h ← (if negb (chunk_used h (right_chunk h c)) then
         let rc := right_chunk h c in
         h ← free_list_remove rc h;
         Some (merge_chunks c (right_chunk h c) h)
       else Some h);
  '(c, h) ← (if negb (chunk_used h (left_chunk h c)) then
               h ← free_list_remove (left_chunk h c) h;
               let h := merge_chunks (left_chunk h c) c h in
               Some (left_chunk h c, h)
             else Some (c, h));
  free_list_add c h.

Definition mem_to_chunkid h (p : Z) : Z := u32 (p - chunk_header_bytes h - hbase h) / CHUNK_UNIT.

(** Null is 0. *)
Definition sys_heap_free (mem : Z) h : option z_heap :=
  if mem =? 0 then Some h
  else
    let c := mem_to_chunkid h mem in
    let h := set_chunk_used c false h in
    free_chunk c h.

Definition sys_heap_usable_size h (mem : Z) : Z :=
  let c := mem_to_chunkid h mem in
  let chunk_base := hbase h + CHUNK_UNIT * c in
  let chunk_sz := u32 (chunk_size h c * CHUNK_UNIT) in
  u32 (chunk_sz - (mem - chunk_base)).

(** The search of the minimal bucket: the chunk taken, if any. *)
Fixpoint alloc_search (i : nat) sz (bi first : Z) h : option (Z * z_heap) :=
  match i with
  | O => Some (0, h)
  | S i =>
      c ← bucket_next h bi;
      if sz <=? chunk_size h c then
        h ← free_list_remove_bidx c bi h;
        Some (c, h)
      else
        let next := next_free_chunk h c in
        h ← set_bucket_next bi next h;
        if negb (i =? 0)%nat && negb (next =? first) then alloc_search i sz bi first h else Some (0, h)
  end.

(** The smallest bucket above whose chunks all fit. *)
Definition alloc_larger (bi : Z) h : option (Z * z_heap) :=
  let bmask := Z.land (avail_buckets h) (lnot32 (BIT (bi + 1) - 1)) in
  if negb (bmask =? 0) then
    let minbucket := u32_count_trailing_zeros bmask in
    c ← bucket_next h minbucket;
    h ← free_list_remove_bidx c minbucket h;
    Some (c, h)
  else Some (0, h).

Definition alloc_chunk sz h : option (Z * z_heap) :=
  let bi := bucket_idx h sz in
  next ← bucket_next h bi;
  '(c, h) ← (if negb (next =? 0) then alloc_search SYS_HEAP_ALLOC_LOOPS sz bi next h else Some (0, h));
  if negb (c =? 0) then Some (c, h) else alloc_larger bi h.

(** Null is 0. *)
Definition sys_heap_alloc bytes h : option (Z * z_heap) :=
  if (bytes =? 0) || size_too_big h bytes then Some (0, h)
  else
    let chunk_sz := bytes_to_chunksz h bytes in
    '(c, h) ← alloc_chunk chunk_sz h;
    if c =? 0 then Some (0, h)
    else
      h ← (if chunk_sz <? chunk_size h c then
             let h := split_chunks c (u32 (c + chunk_sz)) h in
             free_list_add (u32 (c + chunk_sz)) h
           else Some h);
      let h := set_chunk_used c true h in
      Some (chunk_mem h c, h).

Definition ROUND_UP (x align : Z) : Z := u32 (x + (align - 1)) / align * align.
Definition ROUND_DOWN (x align : Z) : Z := x / align * align.

(** After the alignment and the rewind have been told apart. *)
Definition aligned_alloc_gap (align rew gap bytes : Z) h : option (Z * z_heap) :=
  if (bytes =? 0) || size_too_big h bytes then Some (0, h)
  else
    let padded_sz := bytes_to_chunksz h (u32 (bytes + align - gap)) in
    '(c0, h) ← alloc_chunk padded_sz h;
    if c0 =? 0 then Some (0, h)
    else
      let mem := chunk_mem h c0 in
      let mem := ROUND_UP (mem + rew) align - rew in
      let end_ := ROUND_UP (mem + bytes) CHUNK_UNIT in
      let c := mem_to_chunkid h mem in
      let c_end := (end_ - hbase h) / CHUNK_UNIT in
      h ← (if c0 <? c then
             let h := split_chunks c0 c h in
             free_list_add c0 h
           else Some h);
      h ← (if c_end <? right_chunk h c then
             let h := split_chunks c c_end h in
             free_list_add c_end h
           else Some h);
      let h := set_chunk_used c true h in
      Some (mem, h).

Definition sys_heap_aligned_alloc (align bytes : Z) h : option (Z * z_heap) :=
  let rew := Z.land align (u32 (- align)) in
  if negb (align =? rew) then
    let align := align - rew in
    let gap := Z.min rew (chunk_header_bytes h) in
    aligned_alloc_gap align rew gap bytes h
  else if align <=? chunk_header_bytes h then sys_heap_alloc bytes h
  else aligned_alloc_gap align 0 (chunk_header_bytes h) bytes h.

(** Allocating anew and copying. *)
Definition realloc_move (c ptr align_gap align bytes : Z) h : option (Z * z_heap) :=
  '(ptr2, h) ← sys_heap_aligned_alloc align bytes h;
  if negb (ptr2 =? 0) then
    let prev_size := u32 (chunksz_to_bytes h (chunk_size h c) - align_gap) in
    let h := set_hmem (memcpy ptr2 ptr (Z.to_nat (Z.min prev_size bytes)) (hmem h)) h in
    h ← sys_heap_free ptr h;
    Some (ptr2, h)
  else Some (ptr2, h).

Definition sys_heap_aligned_realloc (ptr align bytes : Z) h : option (Z * z_heap) :=
  if ptr =? 0 then sys_heap_aligned_alloc align bytes h
  else if bytes =? 0 then h ← sys_heap_free ptr h; Some (0, h)
  else if size_too_big h bytes then Some (0, h)
  else
    let c := mem_to_chunkid h ptr in
    let rc := right_chunk h c in
    let align_gap := u32 (ptr - chunk_mem h c) in
    let chunks_need := bytes_to_chunksz h (u32 (bytes + align_gap)) in
    if negb (align =? 0) && negb (Z.land ptr (align - 1) =? 0) then realloc_move c ptr align_gap align bytes h
    else if chunk_size h c =? chunks_need then Some (ptr, h)
    else if chunks_need <? chunk_size h c then
      let h := split_chunks c (u32 (c + chunks_need)) h in
      let h := set_chunk_used c true h in
      h ← free_chunk (u32 (c + chunks_need)) h;
      Some (ptr, h)
    else if negb (chunk_used h rc) && (chunks_need <=? u32 (chunk_size h c + chunk_size h rc)) then
      let split_size := u32 (chunks_need - chunk_size h c) in
      h ← free_list_remove rc h;
      h ← (if split_size <? chunk_size h rc then
             let h := split_chunks rc (u32 (rc + split_size)) h in
             free_list_add (u32 (rc + split_size)) h
           else Some h);
      let h := merge_chunks c rc h in
      let h := set_chunk_used c true h in
      Some (ptr, h)
    else realloc_move c ptr align_gap align bytes h.

(** [sizeof(struct z_heap)] and of a bucket. *)
Definition sizeof_z_heap : Z := 16.
Definition sizeof_bucket : Z := 4.

Definition sys_heap_init (mem bytes : Z) (m : Memory.mem) : option z_heap :=
  let bytes := bytes - heap_footer_bytes bytes in
  let addr := ROUND_UP mem CHUNK_UNIT in
  let end_ := ROUND_DOWN (mem + bytes) CHUNK_UNIT in
  let heap_sz := (end_ - addr) / CHUNK_UNIT in
  let h := mk_heap addr heap_sz 0 [] m in
  let nb_buckets := bucket_idx h heap_sz + 1 in
  let chunk0_size := chunksz (sizeof_z_heap + nb_buckets * sizeof_bucket) in
  let h := set_buckets (replicate (Z.to_nat nb_buckets) 0) h in
  let h := set_chunk_size 0 chunk0_size h in
  let h := set_left_chunk_size 0 0 h in
  let h := set_chunk_used 0 true h in
  let h := set_chunk_size chunk0_size (heap_sz - chunk0_size) h in
  let h := set_left_chunk_size chunk0_size chunk0_size h in
  let h := set_chunk_size heap_sz 0 h in
  let h := set_left_chunk_size heap_sz (heap_sz - chunk0_size) h in
  let h := set_chunk_used heap_sz true h in
  free_list_add chunk0_size h.

End Ops.
