(* ===== verification/HeapInv.v ===== *)
(** * The representation of a heap: chunks, headers, free lists

    A heap is seen as the sequence of its chunks, a size and a state each,
    ended by the marker chunk of size 0.  The headers in memory describe the
    sequence ([heads]); every free chunk is on the circular list of its size
    class ([circ]), unless it is just being taken off or merged ([Loose]).  The
    lemmas say what the primitive operations of heap.c do to that view, and
    that they keep their hands off the memory of used chunks ([keeps]). *)

From Stdlib Require Import ZArith Lia Bool.
From stdpp Require Import base numbers list sets.
From S2P Require Import Prelude MathExtras Memory Heap.

Open Scope Z_scope.

(** ** Sequences of chunks *)

(** [Loose]: marked free but on no list. *)
Inductive cstate := Used | Free | Loose.

#[export] Instance cstate_eq_dec : EqDecision cstate.
Proof. solve_decision. Defined.

Definition chunk : Type := Z * cstate.

Definition end_marker : chunk := (0, Used).

Fixpoint extent (l : list chunk) : Z :=
  match l with
  | [] => 0
  | x :: l => x.1 + extent l
  end.

(** The chunk [sz] units long at unit [c] is in state [st]. *)
Fixpoint chunk_at (l : list chunk) (c sz : Z) (st : cstate) : Prop :=
  match l with
  | [] => False
  | x :: l => (c = 0 /\ x = (sz, st)) \/ chunk_at l (c - x.1) sz st
  end.

Definition sized (l : list chunk) : Prop := Forall (λ x, 1 <= x.1) l.

Definition last_size (left : Z) (l : list chunk) : Z := default left (fst <$> last l).

Lemma extent_app l1 l2 : extent (l1 ++ l2) = extent l1 + extent l2.
Proof. induction l1; simpl; lia. Qed.

Lemma extent_nonneg l : sized l -> 0 <= extent l.
Proof. induction 1; simpl; lia. Qed.

Lemma chunk_at_app l1 l2 c sz st :
  chunk_at (l1 ++ l2) c sz st <-> chunk_at l1 c sz st \/ chunk_at l2 (c - extent l1) sz st.
Proof.
  revert c. induction l1 as [| x l1 IH]; intros c; simpl.
  - replace (c - 0) with c by lia. tauto.
  - rewrite IH. replace (c - x.1 - extent l1) with (c - (x.1 + extent l1)) by lia. tauto.
Qed.

Lemma chunk_at_range l c sz st : sized l -> chunk_at l c sz st -> 0 <= c /\ 1 <= sz /\ c + sz <= extent l.
Proof.
  intros Hs. revert c. induction Hs as [| x l Hx Hs IH]; intros c; simpl; [done |].
  intros [[-> ->] | H]; simpl in *; [pose proof (extent_nonneg l Hs); lia |]. apply IH in H. lia.
Qed.

Lemma chunk_at_split l c sz st : chunk_at l c sz st -> ∃ l1 l2, l = l1 ++ (sz, st) :: l2 /\ extent l1 = c.
Proof.
  revert c. induction l as [| x l IH]; intros c; simpl; [done |].
  intros [[-> ->] | H]; [by exists [], l |]. apply IH in H as (l1 & l2 & -> & E). exists (x :: l1), l2. simpl. split; [done | lia].
Qed.

Lemma chunk_at_mid l1 sz st l2 : chunk_at (l1 ++ (sz, st) :: l2) (extent l1) sz st.
Proof. rewrite chunk_at_app. right. simpl. left. split; [lia | done]. Qed.

(** Two chunks of a sequence are the same or lie apart. *)
Lemma chunk_at_apart l c sz st c' sz' st' :
  sized l -> chunk_at l c sz st -> chunk_at l c' sz' st' ->
  (c = c' /\ sz = sz' /\ st = st') \/ c + sz <= c' \/ c' + sz' <= c.
Proof.
  intros Hs. revert c c'. induction Hs as [| x l Hx Hs IH]; intros c c'; simpl; [done |].
  intros [[-> ->] | H] [[-> E] | H'].
  - by simplify_eq; auto.
  - apply chunk_at_range in H'; [| done]. simpl in *. lia.
  - subst x. apply chunk_at_range in H; [| done]. simpl in *. lia.
  - destruct (IH _ _ H H') as [(? & -> & ->) | [? | ?]]; [left | right | right]; repeat split; try done; lia.
Qed.

Lemma sized_app l1 l2 : sized (l1 ++ l2) <-> sized l1 /\ sized l2.
Proof. unfold sized. by rewrite Forall_app. Qed.

Lemma sized_cons x l : sized (x :: l) <-> 1 <= x.1 /\ sized l.
Proof. unfold sized. by rewrite Forall_cons. Qed.

Lemma last_size_snoc left l x : last_size left (l ++ [x]) = x.1.
Proof. unfold last_size. by rewrite last_snoc. Qed.

Lemma last_size_cons left x l : last_size left (x :: l) = last_size x.1 l.
Proof. unfold last_size. destruct l using rev_ind; [done |]. by rewrite app_comm_cons, !last_snoc. Qed.

(** ** Fields as slots of an array *)

Definition slot `{HeapConfig} (h : z_heap) (c : Z) (f : chunk_fields) : Z := (if big_heap h then 2 else 4) * c + field_index f.

(** Fields hold numbers below this. *)
Definition field_limit `{HeapConfig} (h : z_heap) : Z := if big_heap h then 2 ^ 32 else 2 ^ 16.

(** Settle the comparisons of a goal. *)
Ltac eqbs := repeat match goal with |- context [?a =? ?b] => destruct (Z.eqb_spec a b); try lia; simpl end.

(** Read the limits of an updated heap off the original [h0]. *)
Ltac at_place h0 :=
  repeat match goal with
  | |- context [field_limit ?x] => tryif constr_eq x h0 then fail else change (field_limit x) with (field_limit h0)
  | |- context [end_chunk ?x] => tryif constr_eq x h0 then fail else change (end_chunk x) with (end_chunk h0)
  end.

Section Rep.
Context {cfg : HeapConfig}.
Implicit Types (h : z_heap) (c p : Z) (f : chunk_fields) (l : list chunk).

Definition header_field f : bool := match f with LEFT_SIZE | SIZE_AND_USED => true | _ => false end.

Lemma field_addr_slot h c f : field_addr h c f = hbase h + Z.of_nat (field_width h) * slot h c f.
Proof. unfold field_addr, slot, field_width, CHUNK_UNIT. destruct (big_heap h); lia. Qed.

Lemma field_limit_width h : field_limit h = 256 ^ Z.of_nat (field_width h).
Proof. unfold field_limit, field_width. by destruct (big_heap h). Qed.

Lemma chunk_field_set c f v h c' f' :
  0 <= v < field_limit h ->
  chunk_field (chunk_set c f v h) c' f' = if slot h c f =? slot h c' f' then v else chunk_field h c' f'.
Proof.
  intros Hv. unfold chunk_field, chunk_set. change (field_width (set_hmem _ h)) with (field_width h).
  change (field_addr (set_hmem _ h) c' f') with (field_addr h c' f'). cbn [hmem set_hmem].
  rewrite !field_addr_slot. rewrite field_limit_width in Hv. assert (0 < Z.of_nat (field_width h)) by (unfold field_width; destruct (big_heap h); lia).
  destruct (Z.eqb_spec (slot h c f) (slot h c' f')) as [-> | Hne]; [by apply load_store_same |].
  apply load_store_other. unfold disjoint_ranges. nia.
Qed.

Lemma slot_header h c f c' f' :
  header_field f = true -> header_field f' = true -> (slot h c f =? slot h c' f') = (c =? c') && (field_index f =? field_index f').
Proof.
  intros Hf Hf'. apply eq_bool_prop_intro. rewrite andb_True, !Is_true_true, !Z.eqb_eq. unfold slot.
  destruct (big_heap h), f, f'; try done; simpl; lia.
Qed.

Lemma slot_link h c f c' f' :
  header_field f = false -> header_field f' = false -> (slot h c f =? slot h c' f') = (c =? c') && (field_index f =? field_index f').
Proof.
  intros Hf Hf'. apply eq_bool_prop_intro. rewrite andb_True, !Is_true_true, !Z.eqb_eq. unfold slot.
  destruct (big_heap h), f, f'; try done; simpl; lia.
Qed.

(** The links of a chunk are inside it, past its header. *)
Lemma slot_mixed h c f p f' :
  header_field f = false -> header_field f' = true -> p <> c + 1 \/ big_heap h = false ->
  (slot h c f =? slot h p f') = false /\ (slot h p f' =? slot h c f) = false.
Proof.
  intros Hf Hf' Hp. rewrite !Z.eqb_neq. unfold slot. destruct (big_heap h), f, f'; try done; simpl; destruct Hp; try done; lia.
Qed.

(** ** Size classes *)

Definition min_size h : Z := if big_heap h then 2 else 1.

Definition size_class h (sz : Z) : Z := Z.log2 (sz - min_size h + 1).

Lemma min_chunk_size_eq h : min_chunk_size h = min_size h.
Proof. unfold min_chunk_size, min_size, bytes_to_chunksz, chunksz, chunk_header_bytes. by destruct (big_heap h). Qed.

Lemma bucket_idx_class h sz : min_size h <= sz < 2 ^ 32 -> bucket_idx h sz = size_class h sz.
Proof.
  intros H. unfold bucket_idx, size_class. rewrite min_chunk_size_eq. assert (1 <= min_size h <= 2) by (unfold min_size; destruct (big_heap h); lia).
  unfold wrap_u. rewrite Z.mod_small, u32_clz_log2 by lia. lia.
Qed.

Lemma size_class_mono h a b : a <= b -> size_class h a <= size_class h b.
Proof. intros H. apply Z.log2_le_mono. lia. Qed.

Lemma solo_iff h c sz : chunk_size h c = sz -> 1 <= sz -> solo_free_header h c = negb (min_size h <=? sz).
Proof.
  intros E H. unfold solo_free_header, min_size. rewrite E. destruct (big_heap h); cbn [andb].
  - destruct (Z.eqb_spec sz 1), (Z.leb_spec 2 sz); (done || lia).
  - destruct (Z.leb_spec 1 sz); (done || lia).
Qed.

(** ** Headers *)

Definition used_bit (st : cstate) : Z := match st with Used => 1 | _ => 0 end.

Fixpoint heads h (pos left : Z) l : Prop :=
  match l with
  | [] => True
  | x :: l =>
      chunk_field h pos LEFT_SIZE = left /\ chunk_field h pos SIZE_AND_USED = 2 * x.1 + used_bit x.2 /\
      heads h (pos + x.1) x.1 l
  end.

Lemma heads_app h pos left l1 l2 :
  heads h pos left (l1 ++ l2) <-> heads h pos left l1 /\ heads h (pos + extent l1) (last_size left l1) l2.
Proof.
  revert pos left. induction l1 as [| x l1 IH]; intros pos left; simpl.
  - replace (pos + 0) with pos by lia. unfold last_size. simpl. tauto.
  - rewrite IH. replace (pos + x.1 + extent l1) with (pos + (x.1 + extent l1)) by lia.
    assert (last_size left (x :: l1) = last_size x.1 l1) as -> by apply last_size_cons. tauto.
Qed.

Lemma heads_ext h h' pos left l :
  (∀ c sz st f, chunk_at l c sz st -> header_field f = true -> chunk_field h' (pos + c) f = chunk_field h (pos + c) f) ->
  heads h pos left l -> heads h' pos left l.
Proof.
  revert pos left. induction l as [| x l IH]; intros pos left He; simpl; [done |]. intros (H1 & H2 & H3).
  assert (∀ f, header_field f = true -> chunk_field h' pos f = chunk_field h pos f) as He0.
  { intros f Hf. specialize (He 0 x.1 x.2 f). rewrite Z.add_0_r in He. apply He; [| done]. left. by destruct x. }
  rewrite !He0 by done. repeat split; [done | done |]. apply IH; [| done]. intros c sz st f Hc Hf.
  replace (pos + x.1 + c) with (pos + (x.1 + c)) by lia. apply (He _ sz st); [| done]. right.
  by replace (x.1 + c - x.1) with c by lia.
Qed.

Definition full l : list chunk := l ++ [end_marker].

Lemma full_app l1 l2 : full (l1 ++ l2) = l1 ++ full l2.
Proof. unfold full. by rewrite app_assoc. Qed.

Lemma full_cases l : ∃ x r, full l = x :: r.
Proof. destruct l as [| x r]; [by exists end_marker, [] | by exists x, (full r)]. Qed.

Lemma chunk_at_full l c sz st : sized l -> chunk_at (full l) c sz st -> 0 <= c <= extent l /\ c + sz <= extent l.
Proof.
  intros Hs. unfold full. rewrite chunk_at_app. intros [H | H].
  - apply chunk_at_range in H; [lia | done].
  - simpl in H. pose proof (extent_nonneg l Hs). destruct H as [[H E] | []]. unfold end_marker in E. simplify_eq. lia.
Qed.

(** ** Memory that operations leave alone *)

(** Byte [x] is outside the heap or in the memory of a used chunk. *)
Definition protected l h (x : Z) : Prop :=
  x < hbase h \/ hbase h + 8 * end_chunk h + chunk_header_bytes h <= x \/
  ∃ c sz, chunk_at l c sz Used /\ chunk_mem h c <= x < hbase h + 8 * (c + sz).

(** The place of a heap, which never changes. *)
Definition same_place h h' : Prop := hbase h' = hbase h /\ end_chunk h' = end_chunk h.

Definition keeps l h h' : Prop := same_place h h' /\ ∀ x, protected l h x -> hmem h' x = hmem h x.

Lemma same_place_big h h' : same_place h h' -> big_heap h' = big_heap h.
Proof. intros [_ E]. unfold big_heap. by rewrite E. Qed.

Lemma protected_place l h h' x : same_place h h' -> protected l h' x <-> protected l h x.
Proof.
  intros Hp. pose proof (same_place_big _ _ Hp) as Eb. destruct Hp as [E1 E2].
  unfold protected, chunk_mem, chunk_header_bytes. by rewrite Eb, E1, E2.
Qed.

Lemma protected_wide l l' h x :
  (∀ c sz, chunk_at l c sz Used -> ∃ sz', chunk_at l' c sz' Used /\ sz <= sz') -> protected l h x -> protected l' h x.
Proof.
  intros H [? | [? | (c & sz & Hc & Hx)]]; [by left | by right; left | right; right].
  apply H in Hc as (sz' & Hc & Hle). exists c, sz'. split; [done | lia].
Qed.

Lemma keeps_wide l l' h h' :
  (∀ c sz, chunk_at l c sz Used -> ∃ sz', chunk_at l' c sz' Used /\ sz <= sz') -> keeps l' h h' -> keeps l h h'.
Proof. intros H [Hp Hk]. split; [done |]. intros x Hx. apply Hk. by apply (protected_wide l l'). Qed.

Lemma keeps_mono l l' h h' :
  (∀ c sz, chunk_at l c sz Used -> chunk_at l' c sz Used) -> keeps l' h h' -> keeps l h h'.
Proof. intros H. apply keeps_wide. intros c sz Hc. exists sz. split; [auto | lia]. Qed.

Lemma keeps_refl l h : keeps l h h.
Proof. by split. Qed.

Lemma keeps_trans l h h' h'' : keeps l h h' -> keeps l h' h'' -> keeps l h h''.
Proof.
  intros [Hp Hk] [Hp' Hk']. split; [unfold same_place in *; intuition congruence |].
  intros x Hx. rewrite Hk', Hk; [done | done |]. by apply (protected_place l h h').
Qed.

Lemma keeps_mem l h h' : same_place h h' -> hmem h' = hmem h -> keeps l h h'.
Proof. intros Hp E. split; [done |]. by intros; rewrite E. Qed.

Lemma field_mem h h' c f : same_place h h' -> hmem h' = hmem h -> chunk_field h' c f = chunk_field h c f.
Proof.
  intros Hp E. pose proof (same_place_big _ _ Hp) as Eb. destruct Hp as [E1 _].
  unfold chunk_field, field_addr, field_width. by rewrite Eb, E, E1.
Qed.

Lemma heads_mem h h' pos left l : same_place h h' -> hmem h' = hmem h -> heads h pos left l -> heads h' pos left l.
Proof. intros Hp E. apply heads_ext. intros. by apply field_mem. Qed.

(** No used or free chunk has unit [p] inside it. *)
Definition boundary l p : Prop := ∀ c sz st, chunk_at l c sz st -> st <> Loose -> p <= c \/ c + sz <= p.

Lemma chunk_set_out c f v h x :
  x < field_addr h c f \/ field_addr h c f + Z.of_nat (field_width h) <= x -> hmem (chunk_set c f v h) x = hmem h x.
Proof. intros H. unfold chunk_set. cbn [hmem set_hmem]. by apply store_out. Qed.

(** A write to a header between chunks keeps the memory of used chunks ... *)
Lemma header_keeps l p f v h :
  header_field f = true -> 0 <= p <= end_chunk h -> boundary l p -> keeps l h (chunk_set p f v h).
Proof.
  intros Hf Hp Hb. split; [done |]. intros x Hx. apply chunk_set_out. unfold field_addr, field_width, CHUNK_UNIT.
  assert (chunk_header_bytes h = if big_heap h then 8 else 4) as Eh by done.
  destruct Hx as [Hx | [Hx | (c & sz & Hc & Hx)]].
  - destruct (big_heap h), f; simpl in *; (done || lia).
  - rewrite Eh in Hx. destruct (big_heap h), f; simpl in *; (done || lia).
  - specialize (Hb _ _ _ Hc ltac:(done)). unfold chunk_mem, CHUNK_UNIT in Hx. rewrite Eh in Hx.
    destruct (big_heap h), f; simpl in *; (done || lia).
Qed.

(** ... and the links of free chunks. *)
Lemma header_links l p f v h c sz f' :
  header_field f = true -> header_field f' = false -> 0 <= v < field_limit h -> boundary l p ->
  chunk_at l c sz Free -> min_size h <= sz -> chunk_field (chunk_set p f v h) c f' = chunk_field h c f'.
Proof.
  intros Hf Hf' Hv Hb Hc Hsz. rewrite chunk_field_set by done.
  destruct (slot_mixed h c f' p f) as [_ E]; [done | done | | by rewrite E].
  specialize (Hb _ _ _ Hc ltac:(done)). unfold min_size in Hsz. destruct (big_heap h); [left; lia | by right].
Qed.

(** A write to the links of a free chunk keeps the memory of used chunks. *)
Lemma link_keeps l c sz st f v h :
  header_field f = false -> sized l -> extent l = end_chunk h -> chunk_at l c sz st -> st <> Used -> min_size h <= sz ->
  keeps l h (chunk_set c f v h).
Proof.
  intros Hf Hs He Hc Hst Hsz. split; [done |]. intros x Hx. apply chunk_set_out.
  pose proof (chunk_at_range _ _ _ _ Hs Hc) as Hr. unfold field_addr, field_width, CHUNK_UNIT. unfold min_size in Hsz.
  assert (chunk_header_bytes h = if big_heap h then 8 else 4) as Eh by done.
  destruct Hx as [Hx | [Hx | (c' & sz' & Hc' & Hx)]].
  - destruct (big_heap h), f; simpl in *; (done || lia).
  - rewrite Eh in Hx. destruct (big_heap h), f; simpl in *; (done || lia).
  - destruct (chunk_at_apart _ _ _ _ _ _ _ Hs Hc Hc') as [(_ & _ & E) | Hd]; [done |].
    unfold chunk_mem, CHUNK_UNIT in Hx. rewrite Eh in Hx. destruct (big_heap h), f; simpl in *; (done || lia).
Qed.

Lemma boundary_chunk l p sz st : sized l -> chunk_at l p sz st -> boundary l p.
Proof.
  intros Hs Hp c sz' st' Hc _. destruct (chunk_at_apart _ _ _ _ _ _ _ Hs Hp Hc) as [(-> & _) | ?]; [lia |].
  pose proof (chunk_at_range _ _ _ _ Hs Hp). pose proof (chunk_at_range _ _ _ _ Hs Hc). lia.
Qed.

Lemma boundary_end l : sized l -> boundary l (extent l).
Proof. intros Hs c sz st Hc _. apply chunk_at_range in Hc; [lia | done]. Qed.

Lemma boundary_prefix l1 l2 : sized (l1 ++ l2) -> boundary (l1 ++ l2) (extent l1).
Proof.
  intros Hs c sz st Hc _. apply sized_app in Hs as [H1 H2]. apply chunk_at_app in Hc as [Hc | Hc]; apply chunk_at_range in Hc; (done || lia).
Qed.

(** A change of headers only. *)
Definition relabels l h h' : Prop :=
  keeps l h h' /\ buckets h' = buckets h /\ avail_buckets h' = avail_buckets h /\
  ∀ c sz f, chunk_at l c sz Free -> min_size h <= sz -> header_field f = false -> chunk_field h' c f = chunk_field h c f.

Lemma relabels_trans l h h' h'' : relabels l h h' -> relabels l h' h'' -> relabels l h h''.
Proof.
  intros (K & B & A & L) (K' & B' & A' & L'). split; [by eapply keeps_trans |]. repeat split; [congruence | congruence |].
  intros c sz f Hc Hsz Hf. rewrite (L' c sz), (L c sz); try done. unfold min_size. by rewrite (same_place_big h h') by apply K.
Qed.

Lemma relabels_set l p f v h :
  header_field f = true -> 0 <= p <= end_chunk h -> boundary l p -> 0 <= v < field_limit h -> relabels l h (chunk_set p f v h).
Proof.
  intros Hf Hp Hb Hv. split; [by apply header_keeps |]. repeat split. intros c sz f' Hc Hsz Hf'. by eapply header_links.
Qed.

(** ** Free lists *)

Definition linked h (a b : Z) : Prop := next_free_chunk h a = b /\ prev_free_chunk h b = a.

Fixpoint chain h (l : list Z) : Prop :=
  match l with
  | a :: (b :: _) as r => linked h a b /\ chain h r
  | _ => True
  end.

(** A circular list, from its head. *)
Definition circ h (l : list Z) : Prop :=
  match l with
  | [] => True
  | x :: _ => chain h l /\ linked h (default x (last l)) x
  end.

Lemma chain_snoc h (l : list Z) a b : last l = Some b -> chain h (l ++ [a]) <-> chain h l /\ linked h b a.
Proof.
  induction l as [| x l IH]; [done |]. destruct l as [| y l]; simpl.
  - intros [= ->]. tauto.
  - intros Hl. simpl in IH. rewrite IH by done. tauto.
Qed.

Lemma circ_rotate h x (l : list Z) : circ h (x :: l) -> circ h (l ++ [x]).
Proof.
  intros [Hc Hl]. destruct l as [| y l]; [by split |]. destruct Hc as [Hxy Hc].
  destruct (last (y :: l)) as [b |] eqn:Eb; [| by apply last_None in Eb].
  split; [by apply (chain_snoc _ (y :: l) x b); [| split; [| simpl in Hl, Eb; rewrite Eb in Hl]] |].
  rewrite <- app_comm_cons. change (y :: l ++ [x]) with ((y :: l) ++ [x]). by rewrite last_snoc.
Qed.

Lemma circ_rotate_to h (l1 l2 : list Z) : circ h (l1 ++ l2) -> circ h (l2 ++ l1).
Proof.
  revert l2. induction l1 as [| x l1 IH]; intros l2; simpl; [by rewrite app_nil_r |].
  intros H%circ_rotate. rewrite <- app_assoc in H. apply IH in H. by rewrite <- app_assoc in H.
Qed.

(** Writing the links of the ends leaves the chain between them. *)
Lemma chain_upd h h' x (l : list Z) :
  NoDup (x :: l) -> chain h (x :: l) ->
  (∀ b, b ∈ l -> prev_free_chunk h' b = prev_free_chunk h b) ->
  (∀ a, a ∈ x :: l -> last (x :: l) <> Some a -> next_free_chunk h' a = next_free_chunk h a) ->
  chain h' (x :: l).
Proof.
  revert x. induction l as [| y l IH]; intros x Hnd Hc Hp Hn; [done |]. destruct Hc as [[H1 H2] Hc].
  apply NoDup_cons in Hnd as [Hx Hnd]. split.
  - split; [rewrite Hn; [done | by left |] | rewrite Hp; [done | by left]]. intros E. apply Hx. apply last_Some_elem_of. exact E.
  - apply IH; [done | done | |]; intros z Hz; [apply Hp; by right |]. intros E. apply Hn; [by right | done].
Qed.

Lemma circ_ends h x (l : list Z) : circ h (x :: l) ->
  ∃ y, last (x :: l) = Some y /\ prev_free_chunk h x = y /\ next_free_chunk h y = x.
Proof.
  intros [_ [H1 H2]]. destruct (last (x :: l)) as [y |] eqn:E; [| by apply last_None in E]. by exists y.
Qed.

Lemma chain_ext h h' (l : list Z) :
  (∀ c f, c ∈ l -> header_field f = false -> chunk_field h' c f = chunk_field h c f) -> chain h l -> chain h' l.
Proof.
  induction l as [| x l IH]; intros He Hc; [done |]. destruct l as [| y l]; [done |]. destruct Hc as [[H1 H2] Hc].
  split; [split; unfold next_free_chunk, prev_free_chunk; rewrite He; (done || set_solver) |].
  apply IH; [| done]. intros; apply He; set_solver.
Qed.

Lemma circ_ext h h' (l : list Z) :
  (∀ c f, c ∈ l -> header_field f = false -> chunk_field h' c f = chunk_field h c f) -> circ h l -> circ h' l.
Proof.
  destruct l as [| x l]; [done |]. intros He Hc. destruct (circ_ends _ _ _ Hc) as (y & Ey & H1 & H2). destruct Hc as [Hc _].
  assert (y ∈ x :: l) by (by apply last_Some_elem_of). split; [by apply (chain_ext h) |].
  rewrite Ey. split; unfold next_free_chunk, prev_free_chunk in *; simpl; rewrite He; (done || by left).
Qed.

(** Taking the head off a longer list. *)
Lemma circ_remove h h' c (l : list Z) first second :
  NoDup (c :: l) -> circ h (c :: l) -> head l = Some second -> last l = Some first ->
  (∀ a, next_free_chunk h' a = if a =? first then second else next_free_chunk h a) ->
  (∀ a, prev_free_chunk h' a = if a =? second then first else prev_free_chunk h a) ->
  circ h' l.
Proof.
  intros Hnd Hc Hs Hf Hn Hp. destruct l as [| x l]; [done |]. injection Hs as ->.
  apply NoDup_cons in Hnd as [_ Hnd]. destruct Hc as [[_ Hc] _]. split.
  - apply (chain_upd h); [done | done | |]; intros z Hz.
    + rewrite Hp. destruct (Z.eqb_spec z second) as [-> |]; [| done]. by apply NoDup_cons in Hnd as [? _].
    + intros Hl. rewrite Hn. destruct (Z.eqb_spec z first) as [-> |]; [| done]. done.
  - rewrite Hf. simpl. split; [by rewrite Hn, Z.eqb_refl | by rewrite Hp, Z.eqb_refl].
Qed.

(** Putting a chunk at the end of a list. *)
Lemma circ_add h h' c x (l : list Z) first :
  NoDup (x :: l) -> c ∉ x :: l -> circ h (x :: l) -> last (x :: l) = Some first ->
  (∀ a, next_free_chunk h' a = if a =? first then c else if a =? c then x else next_free_chunk h a) ->
  (∀ a, prev_free_chunk h' a = if a =? x then c else if a =? c then first else prev_free_chunk h a) ->
  circ h' ((x :: l) ++ [c]).
Proof.
  intros Hnd Hni [Hc _] Hf Hn Hp. assert (first ∈ x :: l) by (by apply last_Some_elem_of).
  assert (c <> first /\ c <> x) as [Hc1 Hc2] by (split; intros ->; apply Hni; [done | by left]). split.
  - rewrite chain_snoc by exact Hf. split; [| split].
    + apply (chain_upd h); [done | done | |]; intros z Hz.
      * rewrite Hp. destruct (Z.eqb_spec z x) as [-> |]; [by apply NoDup_cons in Hnd as [? _] |].
        destruct (Z.eqb_spec z c) as [-> |]; [| done]. destruct Hni. by right.
      * intros Hl. rewrite Hn. destruct (Z.eqb_spec z first) as [-> |]; [done |]. destruct (Z.eqb_spec z c) as [-> |]; done.
    + by rewrite Hn, Z.eqb_refl.
    + rewrite Hp, (proj2 (Z.eqb_neq c x)) by done. by rewrite Z.eqb_refl.
  - rewrite last_snoc. simpl. split.
    + rewrite Hn, (proj2 (Z.eqb_neq c first)) by done. by rewrite Z.eqb_refl.
    + by rewrite Hp, Z.eqb_refl.
Qed.

(** ** The representation *)

Record geometry h : Prop := mk_geometry {
  geo_base : 16 <= hbase h;
  geo_aligned : hbase h mod 8 = 0;
  geo_top : hbase h + 8 * end_chunk h + chunk_header_bytes h <= 2 ^ 32;
  geo_small : big_heap h = false -> end_chunk h < 2 ^ 15
}.

Definition first_of (fl : list Z) : Z := default 0 (head fl).

(** The chunks on the list of class [i]. *)
Definition in_class h l (i : nat) c : Prop :=
  ∃ sz, chunk_at l c sz Free /\ min_size h <= sz /\ size_class h sz = Z.of_nat i.

Record rep h l (fls : list (list Z)) : Prop := mk_rep {
  rep_geo : geometry h;
  rep_sized : sized l;
  rep_extent : extent l = end_chunk h;
  rep_first : ∃ k r, l = (k, Used) :: r;
  rep_heads : heads h 0 0 (full l);
  rep_buckets : buckets h = first_of <$> fls;
  rep_classes : Z.of_nat (length fls) = size_class h (end_chunk h) + 1;
  rep_avail_range : 0 <= avail_buckets h < 2 ^ 32;
  rep_avail : ∀ i : nat, Z.testbit (avail_buckets h) (Z.of_nat i) = true <-> ∃ fl, fls !! i = Some fl /\ fl <> [];
  rep_lists : ∀ i fl, fls !! i = Some fl -> NoDup fl /\ circ h fl /\ ∀ c, c ∈ fl <-> in_class h l i c
}.

Lemma geo_end h : geometry h -> 2 * end_chunk h + 1 < field_limit h /\ end_chunk h < 2 ^ 29.
Proof.
  intros [Hb _ Ht Hs]. unfold field_limit. assert (4 <= chunk_header_bytes h) by (unfold chunk_header_bytes; destruct (big_heap h); lia).
  destruct (big_heap h); [lia |]. specialize (Hs ltac:(done)). lia.
Qed.

Lemma heads_mid h l1 sz st r :
  heads h 0 0 (l1 ++ (sz, st) :: r) ->
  chunk_field h (extent l1) LEFT_SIZE = last_size 0 l1 /\ chunk_field h (extent l1) SIZE_AND_USED = 2 * sz + used_bit st.
Proof. rewrite heads_app. intros [_ (H1 & H2 & _)]. simpl in *. by rewrite Z.add_0_l in *. Qed.

Lemma field_size h c sz st : chunk_field h c SIZE_AND_USED = 2 * sz + used_bit st -> chunk_size h c = sz.
Proof. intros E. unfold chunk_size. rewrite E, Z.shiftr_div_pow2 by lia. symmetry. apply (Z.div_unique_pos _ _ _ (used_bit st)); destruct st; cbn [used_bit]; lia. Qed.

Lemma field_used h c sz st : chunk_field h c SIZE_AND_USED = 2 * sz + used_bit st -> chunk_used h c = bool_decide (st = Used).
Proof.
  intros E. unfold chunk_used, flag_any. rewrite E, land_1_testbit, negb_involutive, Z.bit0_odd, Z.odd_add, Z.odd_mul. by destruct st.
Qed.

Section Reads.
Context h l fls (R : rep h l fls).

Lemma rep_end_bounds : 2 * end_chunk h + 1 < field_limit h /\ end_chunk h < 2 ^ 29.
Proof. apply geo_end, R. Qed.

Lemma rep_size c sz st : chunk_at l c sz st -> chunk_size h c = sz.
Proof.
  intros (l1 & l2 & -> & <-)%chunk_at_split. pose proof (rep_heads _ _ _ R) as H. rewrite full_app in H.
  apply heads_mid in H as [_ H]. by eapply field_size.
Qed.

Lemma rep_used c sz st : chunk_at l c sz st -> chunk_used h c = bool_decide (st = Used).
Proof.
  intros (l1 & l2 & -> & <-)%chunk_at_split. pose proof (rep_heads _ _ _ R) as H. rewrite full_app in H.
  apply heads_mid in H as [_ H]. by eapply field_used.
Qed.

Lemma rep_used_end : chunk_used h (end_chunk h) = true.
Proof.
  pose proof (rep_heads _ _ _ R) as H. unfold full in H. apply heads_mid in H as [_ H]. rewrite (rep_extent _ _ _ R) in H.
  apply field_used in H. done.
Qed.

Lemma rep_range c sz st : chunk_at l c sz st -> 0 <= c /\ 1 <= sz /\ c + sz <= end_chunk h.
Proof. intros Hc. rewrite <- (rep_extent _ _ _ R). apply (chunk_at_range _ _ _ st); [apply R | done]. Qed.

Lemma rep_right c sz st : chunk_at l c sz st -> right_chunk h c = c + sz.
Proof.
  intros Hc. unfold right_chunk. rewrite (rep_size _ _ _ Hc). apply rep_range in Hc. pose proof rep_end_bounds.
  unfold wrap_u. apply Z.mod_small. lia.
Qed.

Lemma rep_left l1 x l2 : l = l1 ++ x :: l2 -> left_chunk h (extent l1) = extent l1 - last_size 0 l1.
Proof.
  intros E. destruct x as [sz st]. assert (chunk_at l (extent l1) sz st) as Hc by (rewrite E; apply chunk_at_mid).
  apply rep_range in Hc. pose proof rep_end_bounds as Hb.
  pose proof (rep_heads _ _ _ R) as H. pose proof (rep_sized _ _ _ R) as Hs. rewrite E, full_app in H.
  apply heads_mid in H as [H _]. unfold left_chunk. rewrite H. rewrite E in Hs. apply sized_app in Hs as [Hs _].
  unfold wrap_u. apply Z.mod_small. destruct l1 as [| y l1 _] using rev_ind; [unfold last_size; simpl in *; lia |].
  rewrite last_size_snoc, extent_app in *. simpl in *. apply sized_app in Hs as [Hs Hy]. apply sized_cons in Hy as [Hy _].
  pose proof (extent_nonneg _ Hs). lia.
Qed.

Lemma rep_solo c sz st : chunk_at l c sz st -> solo_free_header h c = negb (min_size h <=? sz).
Proof. intros Hc. apply solo_iff; [by eapply rep_size |]. apply rep_range in Hc. lia. Qed.

Lemma rep_bucket_idx c sz st : chunk_at l c sz st -> min_size h <= sz -> bucket_idx h (chunk_size h c) = size_class h sz.
Proof.
  intros Hc Hm. rewrite (rep_size _ _ _ Hc). apply rep_range in Hc. pose proof rep_end_bounds. apply bucket_idx_class. lia.
Qed.

Lemma rep_class_range sz : min_size h <= sz <= end_chunk h -> 0 <= size_class h sz < Z.of_nat (length fls).
Proof.
  intros Hs. rewrite (rep_classes _ _ _ R). pose proof (size_class_mono h sz (end_chunk h)). pose proof (Z.log2_nonneg (sz - min_size h + 1)).
  unfold size_class in *. lia.
Qed.

Lemma rep_class_list sz : min_size h <= sz <= end_chunk h -> ∃ fl, fls !! Z.to_nat (size_class h sz) = Some fl.
Proof. intros Hs%rep_class_range. apply lookup_lt_is_Some. lia. Qed.

Lemma rep_bucket_next (i : Z) fl : fls !! Z.to_nat i = Some fl -> bucket_next h i = Some (first_of fl).
Proof. intros E. unfold bucket_next. rewrite (rep_buckets _ _ _ R), list_lookup_fmap, E. done. Qed.

Lemma rep_free_pos c sz st : chunk_at l c sz st -> st <> Used -> 0 < c.
Proof.
  intros Hc Hst. pose proof (rep_sized _ _ _ R) as Hs. destruct (rep_first _ _ _ R) as (k & r & ->). simpl in Hc.
  apply sized_cons in Hs as [Hk Hs]. simpl in Hk.
  destruct Hc as [[-> E] | Hc]; [simplify_eq |]. apply chunk_at_range in Hc; [lia | done].
Qed.

End Reads.

(** ** Headers written: splitting, merging, marking *)

Definition same_free l l' : Prop := ∀ c sz, chunk_at l c sz Free <-> chunk_at l' c sz Free.

Lemma same_free_mid l1 A B l2 :
  extent A = extent B -> (∀ c sz, ~ chunk_at A c sz Free) -> (∀ c sz, ~ chunk_at B c sz Free) ->
  same_free (l1 ++ A ++ l2) (l1 ++ B ++ l2).
Proof. intros He HA HB c sz. rewrite !chunk_at_app, He. specialize (HA (c - extent l1) sz). specialize (HB (c - extent l1) sz). tauto. Qed.

Lemma not_free1 s a c sz : s <> Free -> ~ chunk_at [(a, s)] c sz Free.
Proof. intros Hs. simpl. intros [[_ E] | []]. congruence. Qed.

Lemma not_free2 s t a b c sz : s <> Free -> t <> Free -> ~ chunk_at [(a, s); (b, t)] c sz Free.
Proof. intros Hs Ht. simpl. intros [[_ E] | [[_ E] | []]]; congruence. Qed.

Lemma in_class_place h h' l l' i c : same_place h h' -> same_free l l' -> in_class h l i c <-> in_class h' l' i c.
Proof.
  intros Hp Hf. unfold in_class, size_class, min_size. rewrite (same_place_big _ _ Hp). unfold same_free in Hf. by setoid_rewrite Hf.
Qed.

Lemma geometry_place h h' : same_place h h' -> geometry h -> geometry h'.
Proof.
  intros Hp [H1 H2 H3 H4]. pose proof (same_place_big _ _ Hp) as Eb. destruct Hp as [E1 E2].
  split; unfold chunk_header_bytes in *; rewrite ?Eb, ?E1, ?E2; done.
Qed.

Lemma rep_reframe h h' l l' fls :
  rep h l fls -> same_place h h' -> buckets h' = buckets h -> avail_buckets h' = avail_buckets h ->
  (∀ c sz f, chunk_at l c sz Free -> min_size h <= sz -> header_field f = false -> chunk_field h' c f = chunk_field h c f) ->
  same_free l l' -> sized l' -> extent l' = extent l -> (∃ k r, l' = (k, Used) :: r) -> heads h' 0 0 (full l') -> rep h' l' fls.
Proof.
  intros R Hp B A L Hf' Hs He Hk Hh. split; try done.
  - eapply geometry_place; [done | apply R].
  - rewrite He, (rep_extent _ _ _ R). symmetry. apply Hp.
  - rewrite B. apply R.
  - unfold size_class, min_size. rewrite (same_place_big _ _ Hp). rewrite (proj2 Hp). apply R.
  - rewrite A. apply R.
  - rewrite A. apply R.
  - intros i fl Hi. apply (rep_lists _ _ _ R) in Hi as (Hnd & Hc & Hm). split; [done |]. split.
    + apply (circ_ext h); [| done]. intros c f Hcf Hhf. apply Hm in Hcf as (sz & Hc1 & Hc2 & _). by apply (L c sz).
    + intros c. rewrite Hm. by apply in_class_place.
Qed.

Lemma rep_relabel h h' l l' l'' fls :
  rep h l fls -> relabels l'' h h' -> same_free l l'' -> same_free l l' -> sized l' -> extent l' = extent l ->
  (∃ k r, l' = (k, Used) :: r) -> heads h' 0 0 (full l') -> rep h' l' fls.
Proof.
  intros R (K & B & A & L) Hf'' Hf' Hs He Hk Hh. apply (rep_reframe h h' l l'); try done; [apply K |].
  intros c sz f Hc. apply L. by apply Hf''.
Qed.

(** The client's writes to the memory of a used chunk. *)
Lemma rep_payload h l fls c sz a d :
  rep h l fls -> chunk_at l c sz Used -> chunk_mem h c <= a -> a + Z.of_nat (length d) <= hbase h + 8 * (c + sz) ->
  rep (set_hmem (write_bytes (hmem h) a d) h) l fls.
Proof.
  intros R Hc Ha Hd. set (h' := set_hmem _ h). pose proof (rep_sized _ _ _ R) as Hs. pose proof (rep_range _ _ _ R _ _ _ Hc) as Hr.
  assert (∀ p f, (field_addr h p f + Z.of_nat (field_width h) <= chunk_mem h c \/ hbase h + 8 * (c + sz) <= field_addr h p f) ->
                 chunk_field h' p f = chunk_field h p f) as Hout.
  { intros p f Ho. unfold chunk_field. change (field_width h') with (field_width h). change (field_addr h' p f) with (field_addr h p f).
    apply load_ext. intros x Hx. unfold h'. cbn [hmem set_hmem]. apply write_bytes_out. lia. }
  apply (rep_reframe h h' l l); try done.
  - intros c' z f Hc' Hz Hf. apply Hout. destruct (chunk_at_apart _ _ _ _ _ _ _ Hs Hc Hc') as [(_ & _ & ?) | Ha']; [done |].
    pose proof (rep_range _ _ _ R _ _ _ Hc') as Hr'. unfold field_addr, field_width, chunk_mem, chunk_header_bytes, CHUNK_UNIT, min_size in *.
    destruct (big_heap h), f; simpl in *; (done || lia).
  - apply R.
  - apply (heads_ext h); [| apply R]. intros p z st f Hp Hf. rewrite Z.add_0_l. apply Hout.
    assert (p <= c \/ c + sz <= p) as Hb.
    { unfold full in Hp. apply chunk_at_app in Hp as [Hp | Hp].
      - destruct (chunk_at_apart _ _ _ _ _ _ _ Hs Hc Hp) as [(-> & _) | ?]; [lia |]. pose proof (rep_range _ _ _ R _ _ _ Hp). lia.
      - simpl in Hp. destruct Hp as [[Hp _] | []]. rewrite (rep_extent _ _ _ R) in Hp. lia. }
    unfold field_addr, field_width, chunk_mem, chunk_header_bytes, CHUNK_UNIT in *. destruct (big_heap h), f; simpl in *; (done || lia).
Qed.

Lemma header_set p f v h p' f' :
  header_field f = true -> header_field f' = true -> 0 <= v < field_limit h ->
  chunk_field (chunk_set p f v h) p' f' = if (p =? p') && (field_index f =? field_index f') then v else chunk_field h p' f'.
Proof. intros Hf Hf' Hv. rewrite chunk_field_set by done. by rewrite slot_header. Qed.

Lemma set_chunk_size_eq p sz h : 0 <= sz < 2 ^ 31 -> set_chunk_size p sz h = chunk_set p SIZE_AND_USED (2 * sz) h.
Proof. intros H. unfold set_chunk_size. f_equal. rewrite Z.shiftl_mul_pow2 by lia. unfold wrap_u. rewrite Z.mod_small; lia. Qed.

Lemma first_kept l1 A B l2 : l1 <> [] -> (∃ k r, l1 ++ A ++ l2 = (k, Used) :: r) -> ∃ k r, l1 ++ B ++ l2 = (k, Used) :: r.
Proof. intros Hne (k & r & E). destruct l1 as [| x l1]; [done |]. injection E as -> _. by eexists _, _. Qed.

(** Rewriting the headers of the chunks [A] to describe [B] in their place. *)
Lemma heads_edit h h' l1 A B l2 :
  sized l1 -> sized l2 -> extent A = extent B -> B <> [] ->
  heads h 0 0 (full (l1 ++ A ++ l2)) ->
  (∀ p f, header_field f = true -> p < extent l1 \/ extent l1 + extent B < p -> chunk_field h' p f = chunk_field h p f) ->
  chunk_field h' (extent l1 + extent B) SIZE_AND_USED = chunk_field h (extent l1 + extent B) SIZE_AND_USED ->
  chunk_field h' (extent l1 + extent B) LEFT_SIZE = last_size 0 B ->
  heads h' (extent l1) (last_size 0 l1) B ->
  heads h' 0 0 (full (l1 ++ B ++ l2)).
Proof.
  intros H1 H2 He HB Hh Ho Hs Hl HhB. rewrite !full_app in *. rewrite !heads_app in *. rewrite !Z.add_0_l in *. destruct Hh as (Hh1 & _ & Hh2).
  rewrite He in Hh2. split; [| split; [done |]].
  - apply (heads_ext h); [| done]. intros c sz st f Hc Hf. apply Ho; [done |]. apply chunk_at_range in Hc; [lia | done].
  - assert (last_size (last_size 0 l1) B = last_size 0 B) as ->.
    { unfold last_size. destruct (last B) eqn:E; [done |]. by apply last_None in E. }
    destruct (full_cases l2) as (x & r & E). rewrite E in *. destruct Hh2 as (_ & Hx & Hr). split; [done |]. split; [by rewrite Hs |].
    apply (heads_ext h); [| done]. intros c sz st f Hc Hf. apply Ho; [done |]. right.
    destruct l2 as [| y l2]; [unfold full in E; simpl in E; injection E as <- <-; destruct Hc |]. injection E as -> <-.
    apply sized_cons in H2 as [Hy H2]. fold (full l2) in Hc. apply chunk_at_full in Hc; [lia | done].
Qed.

Definition unlisted l : Prop := ∀ c sz, ~ chunk_at l c sz Free.

Lemma rep_edit h h' l1 A B C l2 fls :
  rep h (l1 ++ A ++ l2) fls -> l1 <> [] -> B <> [] -> sized B -> extent A = extent B -> extent C = extent B ->
  unlisted A -> unlisted B -> unlisted C -> relabels (l1 ++ C ++ l2) h h' ->
  (∀ p f, header_field f = true -> p < extent l1 \/ extent l1 + extent B < p -> chunk_field h' p f = chunk_field h p f) ->
  chunk_field h' (extent l1 + extent B) SIZE_AND_USED = chunk_field h (extent l1 + extent B) SIZE_AND_USED ->
  chunk_field h' (extent l1 + extent B) LEFT_SIZE = last_size 0 B ->
  heads h' (extent l1) (last_size 0 l1) B ->
  rep h' (l1 ++ B ++ l2) fls.
Proof.
  intros R Hne HB HsB EA EC UA UB UC HR Ho H1 H2 H3. pose proof (rep_sized _ _ _ R) as Hz. rewrite !sized_app in Hz.
  destruct Hz as (Hz1 & _ & Hz2). apply (rep_relabel h _ _ _ _ _ R HR).
  - apply same_free_mid; [congruence | done | done].
  - apply same_free_mid; [done | done | done].
  - rewrite !sized_app. done.
  - rewrite !extent_app. lia.
  - apply (first_kept l1 A B l2); [done | apply R].
  - apply (heads_edit h _ l1 A B l2); try done. apply R.
Qed.

Lemma unlisted1 a s : s <> Free -> unlisted [(a, s)].
Proof. intros Hs c sz. by apply not_free1. Qed.

Lemma unlisted2 a s b t : s <> Free -> t <> Free -> unlisted [(a, s); (b, t)].
Proof. intros Hs Ht c sz. by apply not_free2. Qed.

Lemma rep_left_field h l1 sz s l2 fls :
  rep h (l1 ++ (sz, s) :: l2) fls -> chunk_field h (extent l1) LEFT_SIZE = last_size 0 l1.
Proof. intros R. pose proof (rep_heads _ _ _ R) as H. rewrite full_app in H. by apply heads_mid in H as [H _]. Qed.

(** Adjacent chunks can be written at each of their starts and at their end. *)
Lemma boundaries l1 A B l2 : sized (l1 ++ (A ++ B) ++ l2) -> boundary (l1 ++ (A ++ B) ++ l2) (extent l1 + extent A).
Proof.
  intros Hs. rewrite <- extent_app. rewrite <- app_assoc, app_assoc in *. by apply boundary_prefix.
Qed.

(** Cutting the chunk at [extent l1] in two. *)
Lemma split_rep h l1 sz s l2 fls a :
  rep h (l1 ++ (sz, s) :: l2) fls -> l1 <> [] -> s <> Free -> 1 <= a < sz ->
  let h' := split_chunks (extent l1) (extent l1 + a) h in
  rep h' (l1 ++ (a, Loose) :: (sz - a, Loose) :: l2) fls /\ keeps (l1 ++ (a, Used) :: (sz - a, Used) :: l2) h h'.
Proof.
  intros R Hne Hs Ha. pose proof (rep_end_bounds _ _ _ R) as Hb. pose proof (chunk_at_mid l1 sz s l2) as Hc.
  pose proof (rep_range _ _ _ R _ _ _ Hc) as Hr. pose proof (rep_left_field _ _ _ _ _ _ R) as Hl. set (c := extent l1) in *.
  set (h1 := chunk_set c SIZE_AND_USED (2 * a) h). set (h2 := chunk_set (c + a) SIZE_AND_USED (2 * (sz - a)) h1).
  set (h3 := chunk_set (c + a) LEFT_SIZE a h2). set (h4 := chunk_set (c + sz) LEFT_SIZE (sz - a) h3).
  assert (∀ p f, header_field f = true -> chunk_field h4 p f =
              if (c + sz =? p) && (0 =? field_index f) then sz - a else if (c + a =? p) && (0 =? field_index f) then a
              else if (c + a =? p) && (1 =? field_index f) then 2 * (sz - a) else if (c =? p) && (1 =? field_index f) then 2 * a
              else chunk_field h p f) as Hf.
  { intros p f Hf. unfold h4, h3, h2, h1. rewrite !header_set; (done || (at_place h; lia)). }
  assert (split_chunks c (c + a) h = h4) as ->.
  { unfold split_chunks. rewrite (rep_size _ _ _ R _ _ _ Hc). replace (c + a - c) with a by lia. rewrite !wrap_u_id by lia.
    rewrite !set_chunk_size_eq by lia. fold h1. fold h2. unfold set_left_chunk_size. fold h3.
    assert (chunk_size h3 (c + a) = sz - a) as E.
    { apply (field_size _ _ _ Loose). unfold h3, h2. rewrite !header_set by (done || (at_place h; lia)). rewrite Z.eqb_refl. simpl. lia. }
    unfold right_chunk. rewrite E, wrap_u_id by lia. by replace (c + a + (sz - a)) with (c + sz) by lia. }
  assert (sized (l1 ++ [(a, Used); (sz - a, Used)] ++ l2)) as Hsz.
  { pose proof (rep_sized _ _ _ R) as Hz. rewrite sized_app, sized_cons in Hz. destruct Hz as (? & _ & ?). rewrite !sized_app, !sized_cons.
    repeat split; simpl; (done || lia || constructor). }
  assert (relabels (l1 ++ [(a, Used); (sz - a, Used)] ++ l2) h h4) as HR.
  { pose proof (boundaries l1 [] _ l2 Hsz) as B1. pose proof (boundaries l1 [_] [_] l2 Hsz) as B2. pose proof (boundaries l1 [_; _] [] l2 Hsz) as B3.
    simpl in B1, B2, B3. fold c in B1, B2, B3. replace (c + (a + 0)) with (c + a) in B2 by lia.
    replace (c + (a + (sz - a + 0))) with (c + sz) in B3 by lia. rewrite Z.add_0_r in B1.
    apply (relabels_trans _ _ h1); [apply relabels_set; [done | lia | done | lia] |].
    apply (relabels_trans _ _ h2); [apply relabels_set; [done | at_place h; lia | done | at_place h; lia] |].
    apply (relabels_trans _ _ h3); apply relabels_set; (done || (at_place h; lia)). }
  split; [| apply HR].
  apply (rep_edit h h4 l1 [(sz, s)] [(a, Loose); (sz - a, Loose)] [(a, Used); (sz - a, Used)] l2); try done; try (simpl; lia);
    try (by apply unlisted1); try (by apply unlisted2); simpl; fold c.
  - rewrite !sized_cons. simpl. repeat split; [lia | lia | constructor].
  - intros p f Hf' Hp. rewrite Hf by done. eqbs. done.
  - rewrite Hf by done. eqbs. done.
  - rewrite Hf by done. eqbs. done.
  - rewrite !Hf by done. repeat split; eqbs; (done || lia).
Qed.

(** Joining two neighbours. *)
Lemma rep_merge h l1 a s b t l2 fls :
  rep h (l1 ++ (a, s) :: (b, t) :: l2) fls -> l1 <> [] -> s <> Free -> t <> Free ->
  let h' := merge_chunks (extent l1) (extent l1 + a) h in
  rep h' (l1 ++ (a + b, Loose) :: l2) fls /\ keeps (l1 ++ (a, Used) :: (b, Used) :: l2) h h'.
Proof.
  intros R Hne Hs Ht. pose proof (rep_end_bounds _ _ _ R) as Hb. pose proof (chunk_at_mid l1 a s ((b, t) :: l2)) as Hc.
  pose proof (chunk_at_mid (l1 ++ [(a, s)]) b t l2) as Hc'. rewrite <- app_assoc, extent_app in Hc'. simpl in Hc'.
  pose proof (rep_left_field _ _ _ _ _ _ R) as Hl. pose proof (rep_right _ _ _ R _ _ _ Hc') as Er.
  pose proof (rep_range _ _ _ R _ _ _ Hc) as Hr. pose proof (rep_range _ _ _ R _ _ _ Hc') as Hr'.
  set (c := extent l1) in *. replace (c + (a + 0)) with (c + a) in * by lia.
  set (h1 := chunk_set c SIZE_AND_USED (2 * (a + b)) h). set (h2 := chunk_set (c + a + b) LEFT_SIZE (a + b) h1).
  assert (∀ p f, header_field f = true -> chunk_field h2 p f =
            if (c + a + b =? p) && (0 =? field_index f) then a + b else if (c =? p) && (1 =? field_index f) then 2 * (a + b)
            else chunk_field h p f) as Hf.
  { intros p f Hf. unfold h2, h1. rewrite !header_set; (done || (at_place h; lia)). }
  assert (merge_chunks c (c + a) h = h2) as ->.
  { unfold merge_chunks. rewrite (rep_size _ _ _ R _ _ _ Hc), (rep_size _ _ _ R _ _ _ Hc'), wrap_u_id by lia.
    rewrite set_chunk_size_eq by lia. fold h1.
    assert (right_chunk h1 (c + a) = c + a + b) as ->; [| done].
    rewrite <- Er. unfold right_chunk, chunk_size. unfold h1. rewrite header_set by (done || lia). by eqbs. }
  assert (sized (l1 ++ [(a, Used); (b, Used)] ++ l2)) as Hsz.
  { pose proof (rep_sized _ _ _ R) as Hz. rewrite sized_app, !sized_cons in Hz. destruct Hz as (? & _ & _ & ?). rewrite !sized_app, !sized_cons.
    repeat split; simpl; (done || lia || constructor). }
  assert (relabels (l1 ++ [(a, Used); (b, Used)] ++ l2) h h2) as HR.
  { pose proof (boundaries l1 [] _ l2 Hsz) as B1. pose proof (boundaries l1 [_; _] [] l2 Hsz) as B3. simpl in B1, B3. fold c in B1, B3.
    replace (c + (a + (b + 0))) with (c + a + b) in B3 by lia. rewrite Z.add_0_r in B1.
    apply (relabels_trans _ _ h1); apply relabels_set; (done || (at_place h; lia)). }
  split; [| apply HR].
  apply (rep_edit h h2 l1 [(a, s); (b, t)] [(a + b, Loose)] [(a, Used); (b, Used)] l2); try done; try (simpl; lia);
    try (by apply unlisted1); try (by apply unlisted2); simpl; fold c.
  - rewrite !sized_cons. simpl. split; [lia | constructor].
  - intros p f Hf' Hp. rewrite Hf by done. eqbs; done.
  - rewrite Hf by done. eqbs. done.
  - rewrite Hf by done. eqbs. done.
  - rewrite !Hf by done. repeat split; eqbs; (done || lia).
Qed.

Lemma flag_set_odd sz s : flag_set (2 * sz + used_bit s) 1 = 2 * sz + used_bit Used.
Proof.
  unfold flag_set. apply Z.bits_inj'. intros n Hn. rewrite Z.lor_spec.
  destruct (Z.eq_dec n 0) as [-> | Hn0].
  - rewrite !Z.bit0_odd, !Z.odd_add, !Z.odd_mul. by destruct s.
  - replace n with (Z.succ (n - 1)) by lia. destruct s; cbn [used_bit]; rewrite ?Z.add_0_r, ?Z.testbit_odd_succ, ?Z.testbit_even_succ by lia.
    all: change 1 with (2 * 0 + 1) at 2; rewrite Z.testbit_odd_succ, Z.bits_0 by lia; by rewrite orb_false_r.
Qed.

Lemma flag_clear_odd sz s : flag_clear (2 * sz + used_bit s) 1 = 2 * sz + used_bit Loose.
Proof.
  unfold flag_clear. apply Z.bits_inj'. intros n Hn. rewrite Z.land_spec, Z.lnot_spec by lia.
  destruct (Z.eq_dec n 0) as [-> | Hn0].
  - rewrite !Z.bit0_odd, !Z.odd_add, !Z.odd_mul. by destruct s.
  - replace n with (Z.succ (n - 1)) by lia. destruct s; cbn [used_bit]; rewrite ?Z.add_0_r, ?Z.testbit_odd_succ, ?Z.testbit_even_succ by lia.
    all: change 1 with (2 * 0 + 1) at 2; rewrite Z.testbit_odd_succ, Z.bits_0 by lia; by rewrite andb_true_r.
Qed.

(** Marking a chunk used or free. *)
Lemma rep_mark h l1 a s l2 fls used :
  rep h (l1 ++ (a, s) :: l2) fls -> l1 <> [] -> s <> Free ->
  let h' := set_chunk_used (extent l1) used h in
  rep h' (l1 ++ (a, if used : bool then Used else Loose) :: l2) fls /\ keeps (l1 ++ (a, Used) :: l2) h h'.
Proof.
  intros R Hne Hs. pose proof (rep_end_bounds _ _ _ R) as Hb. pose proof (chunk_at_mid l1 a s l2) as Hc.
  pose proof (rep_left_field _ _ _ _ _ _ R) as Hl. pose proof (rep_range _ _ _ R _ _ _ Hc) as Hr.
  pose proof (rep_heads _ _ _ R) as Hh. rewrite full_app in Hh. destruct (heads_mid _ _ _ _ _ Hh) as [_ Hv].
  set (c := extent l1) in *. set (t := if used then Used else Loose).
  assert (set_chunk_used c used h = chunk_set c SIZE_AND_USED (2 * a + used_bit t) h) as ->.
  { unfold set_chunk_used. rewrite Hv, flag_set_odd, flag_clear_odd. by destruct used. }
  assert (0 <= used_bit t <= 1) as Ht by (unfold t; destruct used; simpl; lia).
  assert (sized (l1 ++ [(a, Used)] ++ l2)) as Hsz.
  { pose proof (rep_sized _ _ _ R) as Hz. rewrite sized_app, !sized_cons in Hz. destruct Hz as (? & _ & ?). rewrite !sized_app, !sized_cons.
    repeat split; simpl; (done || lia || constructor). }
  assert (relabels (l1 ++ [(a, Used)] ++ l2) h (chunk_set c SIZE_AND_USED (2 * a + used_bit t) h)) as HR.
  { apply relabels_set; [done | lia | | lia]. pose proof (boundaries l1 [] _ l2 Hsz) as B1. simpl in B1. by rewrite Z.add_0_r in B1. }
  split; [| apply HR].
  destruct (full_cases l2) as (x & r & E). change (full ((a, s) :: l2)) with ((a, s) :: full l2) in Hh. rewrite E, heads_app in Hh. destruct Hh as [_ (_ & _ & Hx & _)]. simpl in Hx.
  apply (rep_edit h _ l1 [(a, s)] [(a, t)] [(a, Used)] l2); try done; try (apply unlisted1; unfold t; destruct used; done);
    cbn [extent fst]; fold c; rewrite ?Z.add_0_r.
  - rewrite !sized_cons. simpl. split; [lia | constructor].
  - intros p f Hf' Hp. rewrite header_set by (done || lia). eqbs; done.
  - rewrite header_set by (done || lia). eqbs. done.
  - rewrite header_set by (done || lia). simpl. rewrite andb_false_r. done.
  - cbn [heads]. rewrite !header_set by (done || lia). repeat split; simpl; [by rewrite andb_false_r | by rewrite Z.eqb_refl].
Qed.

(** ** Links written: taking chunks off their lists and putting them on *)

Lemma link_set c f v h c' f' :
  header_field f = false -> header_field f' = false -> 0 <= v < field_limit h ->
  chunk_field (chunk_set c f v h) c' f' = if (c =? c') && (field_index f =? field_index f') then v else chunk_field h c' f'.
Proof. intros Hf Hf' Hv. rewrite chunk_field_set by done. by rewrite slot_link. Qed.

Lemma link_heads l c sz st f v h :
  sized l -> chunk_at l c sz st -> min_size h <= sz -> header_field f = false -> 0 <= v < field_limit h ->
  heads h 0 0 (full l) -> heads (chunk_set c f v h) 0 0 (full l).
Proof.
  intros Hs Hc Hm Hf Hv. apply heads_ext. intros p sz' st' f' Hp Hf'. rewrite Z.add_0_l, chunk_field_set by done.
  destruct (slot_mixed h c f p f') as [E _]; [done | done | | by rewrite E].
  unfold min_size in Hm. destruct (big_heap h); [left | by right].
  unfold full in Hp. apply chunk_at_app in Hp as [Hp | Hp].
  - pose proof (boundary_chunk l p sz' st' Hs Hp) as B. destruct (chunk_at_apart _ _ _ _ _ _ _ Hs Hc Hp) as [(-> & _) | ?]; [lia |].
    pose proof (chunk_at_range _ _ _ _ Hs Hc). pose proof (chunk_at_range _ _ _ _ Hs Hp). lia.
  - simpl in Hp. destruct Hp as [[Hp _] | []]. pose proof (chunk_at_range _ _ _ _ Hs Hc). lia.
Qed.

(** A change of the links of free chunks, listed in [cs]. *)
Definition relinks l (cs : list Z) h h' : Prop :=
  keeps l h h' /\ buckets h' = buckets h /\ avail_buckets h' = avail_buckets h /\
  (heads h 0 0 (full l) -> heads h' 0 0 (full l)) /\
  ∀ c f, c ∉ cs -> header_field f = false -> chunk_field h' c f = chunk_field h c f.

Lemma relinks_trans l cs h h' h'' : relinks l cs h h' -> relinks l cs h' h'' -> relinks l cs h h''.
Proof.
  intros (K & B & A & H & L) (K' & B' & A' & H' & L'). split; [by eapply keeps_trans |].
  repeat split; [congruence | congruence | auto |]. intros c f Hc Hf. by rewrite L', L.
Qed.

Lemma relinks_set l cs c sz st f v h :
  sized l -> extent l = end_chunk h -> chunk_at l c sz st -> st <> Used -> min_size h <= sz -> header_field f = false ->
  0 <= v < field_limit h -> c ∈ cs -> relinks l cs h (chunk_set c f v h).
Proof.
  intros Hs He Hc Hst Hm Hf Hv Hcs. split; [by eapply link_keeps |]. repeat split; [by eapply link_heads |].
  intros c' f' Hc' Hf'. rewrite link_set by done. destruct (Z.eqb_spec c c') as [-> |]; done.
Qed.

Lemma free_toggle l1 sz l2 c z :
  sized (l1 ++ (sz, Free) :: l2) ->
  chunk_at (l1 ++ (sz, Loose) :: l2) c z Free <-> chunk_at (l1 ++ (sz, Free) :: l2) c z Free /\ c <> extent l1.
Proof.
  intros Hs. apply sized_app in Hs as [H1 H2]. apply sized_cons in H2 as [Hz H2]. rewrite !chunk_at_app. simpl in *. split.
  - intros [H | [[_ E] | H]]; [| done |].
    + split; [by left |]. apply chunk_at_range in H; [lia | done].
    + split; [by right; right |]. apply chunk_at_range in H; [lia | done].
  - intros [[H | [[? _] | H]] Hne]; [by left | lia | by right; right].
Qed.

Lemma sized_toggle l1 sz s t l2 : sized (l1 ++ (sz, s) :: l2) -> sized (l1 ++ (sz, t) :: l2).
Proof. rewrite !sized_app, !sized_cons. done. Qed.

Lemma heads_toggle h l1 sz s t l2 :
  s <> Used -> t <> Used -> heads h 0 0 (full (l1 ++ (sz, s) :: l2)) -> heads h 0 0 (full (l1 ++ (sz, t) :: l2)).
Proof. intros Hs Ht. rewrite !full_app, !heads_app. simpl. destruct s, t; done. Qed.

Lemma keeps_toggle l1 sz s t l2 h h' :
  s <> Used -> t <> Used -> keeps (l1 ++ (sz, s) :: l2) h h' -> keeps (l1 ++ (sz, t) :: l2) h h'.
Proof.
  intros Hs Ht. apply keeps_mono. intros c z. rewrite !chunk_at_app. simpl. intros [? | [[_ E] | ?]]; [by left | congruence | by right; right].
Qed.

(** One list changes, and one chunk with it. *)
Lemma rep_relist h h' l1 sz s t l2 fls i fl' :
  rep h (l1 ++ (sz, s) :: l2) fls -> s <> Used -> t <> Used -> l1 <> [] -> same_place h h' ->
  heads h' 0 0 (full (l1 ++ (sz, s) :: l2)) ->
  (i < length fls)%nat -> buckets h' = <[i := first_of fl']> (buckets h) ->
  0 <= avail_buckets h' < 2 ^ 32 ->
  (∀ j : nat, Z.testbit (avail_buckets h') (Z.of_nat j) = if (i =? j)%nat then bool_decide (fl' <> []) else Z.testbit (avail_buckets h) (Z.of_nat j)) ->
  NoDup fl' -> circ h' fl' -> (∀ c, c ∈ fl' <-> in_class h (l1 ++ (sz, t) :: l2) i c) ->
  (∀ j fl, j <> i -> fls !! j = Some fl ->
     circ h' fl /\ ∀ c, in_class h (l1 ++ (sz, s) :: l2) j c <-> in_class h (l1 ++ (sz, t) :: l2) j c) ->
  rep h' (l1 ++ (sz, t) :: l2) (<[i := fl']> fls).
Proof.
  intros R Hs Ht Hne Hp Hh Hi Hb Ha0 Ha Hnd Hc Hm Ho.
  assert (∀ j c, in_class h (l1 ++ (sz, t) :: l2) j c <-> in_class h' (l1 ++ (sz, t) :: l2) j c) as Hcl by (intros; by apply in_class_place).
  split; try done.
  - eapply geometry_place; [done | apply R].
  - eapply sized_toggle, R.
  - rewrite (proj2 Hp), <- (rep_extent _ _ _ R), !extent_app. done.
  - apply (first_kept l1 [(sz, s)] [(sz, t)] l2); [done | apply R].
  - by apply (heads_toggle _ _ _ s).
  - rewrite Hb, (rep_buckets _ _ _ R). by rewrite list_fmap_insert.
  - unfold size_class, min_size. rewrite (same_place_big _ _ Hp), (proj2 Hp), length_insert. apply R.
  - intros j. rewrite Ha. destruct (Nat.eqb_spec i j) as [<- | Hj].
    + rewrite bool_decide_eq_true, list_lookup_insert_eq by done. naive_solver.
    + rewrite list_lookup_insert_ne by done. apply R.
  - intros j fl Hj. destruct (decide (i = j)) as [<- | Hij].
    + rewrite list_lookup_insert_eq in Hj by done. injection Hj as <-. split; [done |]. split; [done |]. intros c. by rewrite Hm.
    + rewrite list_lookup_insert_ne in Hj by done. destruct (Ho j fl) as [Hcj Hcc]; [done | done |].
      apply (rep_lists _ _ _ R) in Hj as (Hndj & _ & Hmj). split; [done |]. split; [done |]. intros c. by rewrite Hmj, Hcc.
Qed.

Lemma rep_avail_bit h l fls i fl :
  rep h l fls -> fls !! i = Some fl -> Z.testbit (avail_buckets h) (Z.of_nat i) = bool_decide (fl <> []).
Proof.
  intros R Hi. apply eq_bool_prop_intro. rewrite !Is_true_true, bool_decide_eq_true, (rep_avail _ _ _ R). naive_solver.
Qed.

Lemma rep_few_classes h l fls : rep h l fls -> Z.of_nat (length fls) < 32.
Proof.
  intros R. rewrite (rep_classes _ _ _ R). pose proof (rep_end_bounds _ _ _ R) as [_ Hb].
  assert (size_class h (end_chunk h) <= Z.log2 (2 ^ 29)) as H; [| rewrite Z.log2_pow2 in H by lia; lia].
  apply Z.log2_le_mono. unfold min_size. destruct (big_heap h); lia.
Qed.

Lemma rep_bucket_count h l fls : rep h l fls -> length (buckets h) = length fls.
Proof. intros R. by rewrite (rep_buckets _ _ _ R), length_fmap. Qed.

Lemma set_bucket_next_eq h i v :
  (i < length (buckets h))%nat -> set_bucket_next (Z.of_nat i) v h = Some (set_buckets (<[i := v]> (buckets h)) h).
Proof. intros [x E]%lookup_lt_is_Some_2. unfold set_bucket_next, bucket_next. by rewrite Nat2Z.id, E. Qed.

(** The chunks of one list and their link fields *)
Lemma listed_chunk h l fls i fl c :
  rep h l fls -> fls !! i = Some fl -> c ∈ fl ->
  ∃ sz, chunk_at l c sz Free /\ min_size h <= sz /\ size_class h sz = Z.of_nat i /\ 0 < c < field_limit h.
Proof.
  intros R Hi Hc. apply (rep_lists _ _ _ R) in Hi as (_ & _ & Hm). apply Hm in Hc as (sz & Hc & Hs & Hcl).
  exists sz. repeat split; try done; [by eapply rep_free_pos |]. apply (rep_range _ _ _ R) in Hc. pose proof (rep_end_bounds _ _ _ R). lia.
Qed.

(** Lists of different classes have no chunk in common. *)
Lemma lists_apart h l fls i fl j fl' c c' :
  rep h l fls -> fls !! i = Some fl -> fls !! j = Some fl' -> i <> j -> c ∈ fl -> c' ∈ fl' -> c <> c'.
Proof.
  intros R Hi Hj Hij Hc Hc' ->. destruct (listed_chunk _ _ _ _ _ _ R Hi Hc) as (sz & H1 & _ & H2 & _).
  destruct (listed_chunk _ _ _ _ _ _ R Hj Hc') as (sz' & H1' & _ & H2' & _).
  destruct (chunk_at_apart _ _ _ _ _ _ _ (rep_sized _ _ _ R) H1 H1') as [(_ & -> & _) | ?]; [lia |].
  apply (rep_range _ _ _ R) in H1. apply (rep_range _ _ _ R) in H1'. lia.
Qed.

Lemma toggle_off h l1 sz l2 fls i fl c :
  rep h (l1 ++ (sz, Free) :: l2) fls -> fls !! i = Some fl ->
  (c ∈ fl /\ c <> extent l1) <-> in_class h (l1 ++ (sz, Loose) :: l2) i c.
Proof.
  intros R Hi. destruct (rep_lists _ _ _ R _ _ Hi) as (_ & _ & Hm). rewrite Hm. unfold in_class.
  setoid_rewrite free_toggle; [| apply R]. naive_solver.
Qed.

Lemma avail_cleared h l fls i : rep h l fls -> (i < length fls)%nat ->
  0 <= flag_clear (avail_buckets h) (BIT (Z.of_nat i)) < 2 ^ 32 /\
  ∀ j : nat, Z.testbit (flag_clear (avail_buckets h) (BIT (Z.of_nat i))) (Z.of_nat j) =
             if (i =? j)%nat then false else Z.testbit (avail_buckets h) (Z.of_nat j).
Proof.
  intros R Hi. split; [apply land_bound; [lia | apply R] |]. intros j. rewrite flag_clear_testbit by lia.
  destruct (Nat.eqb_spec i j) as [<- |]; [by rewrite Z.eqb_refl, andb_false_r |].
  rewrite (proj2 (Z.eqb_neq (Z.of_nat i) (Z.of_nat j))) by lia. by rewrite andb_true_r.
Qed.

Lemma avail_set h l fls i : rep h l fls -> (i < length fls)%nat ->
  0 <= flag_set (avail_buckets h) (BIT (Z.of_nat i)) < 2 ^ 32 /\
  ∀ j : nat, Z.testbit (flag_set (avail_buckets h) (BIT (Z.of_nat i))) (Z.of_nat j) =
             if (i =? j)%nat then true else Z.testbit (avail_buckets h) (Z.of_nat j).
Proof.
  intros R Hi. pose proof (rep_few_classes _ _ _ R). split.
  - apply lor_bound; [lia | apply R |]. unfold BIT. rewrite Z.shiftl_1_l. split; [lia |]. apply Z.pow_lt_mono_r; lia.
  - intros j. rewrite flag_set_testbit by lia. destruct (Nat.eqb_spec i j) as [<- |]; [by rewrite Z.eqb_refl, orb_true_r |].
    rewrite (proj2 (Z.eqb_neq (Z.of_nat i) (Z.of_nat j))) by lia. by rewrite orb_false_r.
Qed.

(** The list [fl] without the chunk at [extent l1]. *)
Lemma rep_off h h' l1 sz l2 fls i fl fl' :
  rep h (l1 ++ (sz, Free) :: l2) fls -> fls !! i = Some fl -> fl <> [] -> l1 <> [] -> NoDup fl' ->
  (∀ x, x ∈ fl' <-> x ∈ fl /\ x <> extent l1) -> extent l1 ∈ fl ->
  same_place h h' -> heads h' 0 0 (full (l1 ++ (sz, Free) :: l2)) -> buckets h' = <[i := first_of fl']> (buckets h) ->
  avail_buckets h' = (if decide (fl' = []) then flag_clear (avail_buckets h) (BIT (Z.of_nat i)) else avail_buckets h) ->
  circ h' fl' -> (∀ j fj, j <> i -> fls !! j = Some fj -> circ h' fj) -> rep h' (l1 ++ (sz, Loose) :: l2) (<[i := fl']> fls).
Proof.
  intros R Hi Hfl Hne Hnd Hm Hin Hp Hh Hb Ha Hc Ho. pose proof (lookup_lt_Some _ _ _ Hi) as Hlt.
  pose proof (avail_cleared _ _ _ i R Hlt) as [Hac Hat]. pose proof (rep_avail_bit _ _ _ _ _ R Hi) as Hbit.
  apply (rep_relist h h' l1 sz Free Loose l2 fls i fl' R); try done.
  - rewrite Ha. case_decide; [done | apply R].
  - intros j. rewrite Ha. case_decide as Hd.
    + rewrite Hat. destruct (i =? j)%nat; [| done]. by rewrite bool_decide_eq_false_2 by (by intros ?).
    + destruct (Nat.eqb_spec i j) as [<- |]; [| done]. by rewrite Hbit, !bool_decide_eq_true_2.
  - intros c. rewrite Hm. by apply toggle_off with (fls := fls).
  - intros j fj Hj Hlj. split; [by apply (Ho j) |]. intros c. rewrite <- (toggle_off h l1 sz l2 fls j fj) by done.
    destruct (rep_lists _ _ _ R _ _ Hlj) as (_ & _ & <-). split; [| tauto]. intros Hc'. split; [done |].
    by apply not_eq_sym, (lists_apart h _ fls i fl j fj (extent l1) c R).
Qed.

(** Taking a chunk off its list. *)
Lemma unlist_rep h l1 sz l2 fls i fl :
  rep h (l1 ++ (sz, Free) :: l2) fls -> fls !! i = Some fl -> extent l1 ∈ fl ->
  ∃ h' fl', free_list_remove_bidx (extent l1) (Z.of_nat i) h = Some h' /\
    rep h' (l1 ++ (sz, Loose) :: l2) (<[i := fl']> fls) /\ keeps (l1 ++ (sz, Free) :: l2) h h'.
Proof.
  intros R Hi Hin. destruct (listed_chunk _ _ _ _ _ _ R Hi Hin) as (z & Hc & _ & _ & Hc0).
  assert (l1 <> []) as Hne by (intros ->; simpl in *; lia). pose proof (lookup_lt_Some _ _ _ Hi) as Hlt.
  destruct (list_elem_of_split _ _ Hin) as (f1 & f2 & Ef). destruct (rep_lists _ _ _ R _ _ Hi) as (Hnd & Hci & _).
  assert (extent l1 :: f2 ++ f1 ≡ₚ fl) as Hperm by (rewrite Ef, <- Permutation_middle; constructor; apply Permutation_app_comm).
  assert (fl <> []) as Hfl by (intros ->; by apply not_elem_of_nil in Hin).
  rewrite Ef in Hci. apply circ_rotate_to in Hci. change ((extent l1 :: f2) ++ f1) with (extent l1 :: f2 ++ f1) in Hci.
  rewrite <- Hperm in Hnd. pose proof (NoDup_cons_1_2 _ _ Hnd) as Hnd'.
  assert (∀ x, x ∈ f2 ++ f1 <-> x ∈ fl /\ x <> extent l1) as Hm.
  { intros x. rewrite <- Hperm. rewrite NoDup_cons in Hnd. set_solver. }
  assert (∀ h' j fj, (∀ x f, x ∉ f2 ++ f1 -> header_field f = false -> chunk_field h' x f = chunk_field h x f) ->
            j <> i -> fls !! j = Some fj -> circ h' fj) as Ho.
  { intros h' j fj He Hj Hlj. apply (circ_ext h); [| apply (rep_lists _ _ _ R _ _ Hlj)]. intros x f Hx Hf. apply He; [| done].
    intros Hx'. apply Hm in Hx' as [Hx' _]. by apply (lists_apart h _ fls i fl j fj x x R). }
  unfold free_list_remove_bidx. remember (f2 ++ f1) as fl' eqn:Efl. clear Efl f1 f2 Ef. destruct fl' as [| second r].
  - destruct Hci as [_ [E _]]. simpl in E. rewrite E, Z.eqb_refl. eexists _, []. split; [| split].
    + apply set_bucket_next_eq. cbn [buckets set_avail]. by rewrite (rep_bucket_count _ _ _ R).
    + apply (rep_off h _ l1 sz l2 fls i fl []); try done; [by apply (heads_mem h), R |]. intros j fj Hj Hlj. by apply (Ho _ j).
    + by apply keeps_mem.
  - destruct (circ_ends _ _ _ Hci) as (first & El & Ep & _). pose proof Hci as [[[E _] _] _]. rewrite E, Ep.
    assert (last (second :: r) = Some first) as El' by done. apply last_Some_elem_of in El' as Hf.
    assert (second ∈ second :: r) as Hs by (by left).
    rewrite (proj2 (Z.eqb_neq second (extent l1))) by (by apply Hm in Hs as [_ ?]).
    rewrite set_bucket_next_eq by (by rewrite (rep_bucket_count _ _ _ R)). simpl.
    set (h1 := set_buckets (<[i := second]> (buckets h)) h). unfold set_next_free_chunk, set_prev_free_chunk.
    set (h2 := chunk_set first FREE_NEXT second h1). set (h3 := chunk_set second FREE_PREV first h2).
    destruct (listed_chunk _ _ _ _ _ first R Hi) as (z1 & Hz1 & Hm1 & _ & Hb1); [by apply Hm in Hf as [? _] |].
    destruct (listed_chunk _ _ _ _ _ second R Hi) as (z2 & Hz2 & Hm2 & _ & Hb2); [by apply Hm in Hs as [? _] |].
    assert (relinks (l1 ++ (sz, Free) :: l2) (second :: r) h1 h3) as (K & B & A & HH & L).
    { apply (relinks_trans _ _ _ h2).
      - apply (relinks_set _ _ _ z1 Free); try done; [apply R | apply R | at_place h; lia].
      - apply (relinks_set _ _ _ z2 Free); try done; [apply R | apply R | at_place h; lia]. }
    exists h3, (second :: r). split; [done |]. split; [| by apply (keeps_trans _ _ h1); [apply keeps_mem |]].
    apply (rep_off h h3 l1 sz l2 fls i fl (second :: r)); try done; [by apply HH, (heads_mem h), R | |].
    + apply (circ_remove h h3 (extent l1) (second :: r) first second); try done; intros a;
        unfold next_free_chunk, prev_free_chunk, h3, h2; rewrite !link_set by (done || (at_place h; lia)); simpl;
        rewrite ?andb_false_r, ?andb_true_r, Z.eqb_sym; done.
    + intros j fj Hj Hlj. apply (Ho _ j); try done.
Qed.

Lemma toggle_on h l1 sz l2 fls i fl c :
  rep h (l1 ++ (sz, Loose) :: l2) fls -> fls !! i = Some fl -> min_size h <= sz -> size_class h sz = Z.of_nat i ->
  (c ∈ fl \/ c = extent l1) <-> in_class h (l1 ++ (sz, Free) :: l2) i c.
Proof.
  intros R Hi Hm Hcl. destruct (rep_lists _ _ _ R _ _ Hi) as (_ & _ & ->). unfold in_class.
  setoid_rewrite free_toggle; [| by eapply sized_toggle, R]. split.
  - intros [(z & (H1 & _) & H2 & H3) | ->]; [by exists z |]. exists sz. split; [apply chunk_at_mid | done].
  - intros (z & H1 & H2). destruct (decide (c = extent l1)) as [-> | Hne]; [by right |]. left. by exists z.
Qed.

Lemma loose_not_listed h l1 sz l2 fls i fl : rep h (l1 ++ (sz, Loose) :: l2) fls -> fls !! i = Some fl -> extent l1 ∉ fl.
Proof.
  intros R Hi Hc. destruct (listed_chunk _ _ _ _ _ _ R Hi Hc) as (z & Hz & _).
  destruct (chunk_at_apart _ _ _ _ _ _ _ (rep_sized _ _ _ R) Hz (chunk_at_mid l1 sz Loose l2)) as [(_ & _ & ?) | ?]; [done |].
  pose proof (rep_range _ _ _ R _ _ _ Hz). pose proof (rep_range _ _ _ R _ _ _ (chunk_at_mid l1 sz Loose l2)). lia.
Qed.

(** The list [fl] with the chunk at [extent l1]. *)
Lemma rep_on h h' l1 sz l2 fls i fl :
  rep h (l1 ++ (sz, Loose) :: l2) fls -> fls !! i = Some fl -> l1 <> [] -> min_size h <= sz -> size_class h sz = Z.of_nat i ->
  same_place h h' -> heads h' 0 0 (full (l1 ++ (sz, Loose) :: l2)) ->
  buckets h' = <[i := first_of (fl ++ [extent l1])]> (buckets h) ->
  avail_buckets h' = (if decide (fl = []) then flag_set (avail_buckets h) (BIT (Z.of_nat i)) else avail_buckets h) ->
  circ h' (fl ++ [extent l1]) -> (∀ j fj, j <> i -> fls !! j = Some fj -> circ h' fj) ->
  rep h' (l1 ++ (sz, Free) :: l2) (<[i := fl ++ [extent l1]]> fls).
Proof.
  intros R Hi Hne Hm Hcl Hp Hh Hb Ha Hc Ho. pose proof (lookup_lt_Some _ _ _ Hi) as Hlt.
  pose proof (avail_set _ _ _ i R Hlt) as [Hac Hat]. pose proof (rep_avail_bit _ _ _ _ _ R Hi) as Hbit.
  pose proof (loose_not_listed _ _ _ _ _ _ _ R Hi) as Hni. assert (fl ++ [extent l1] <> []) as Hfl by (by destruct fl).
  apply (rep_relist h h' l1 sz Loose Free l2 fls i (fl ++ [extent l1]) R); try done.
  - rewrite Ha. case_decide; [done | apply R].
  - intros j. rewrite Ha, (bool_decide_eq_true_2 _ Hfl). case_decide as Hd; [apply Hat |].
    destruct (Nat.eqb_spec i j) as [<- |]; [| done]. by rewrite Hbit, bool_decide_eq_true_2.
  - apply NoDup_app. split; [apply (rep_lists _ _ _ R _ _ Hi) |]. split; [| apply NoDup_singleton]. set_solver.
  - intros c. rewrite <- (toggle_on h l1 sz l2 fls i fl) by done. set_solver.
  - intros j fj Hj Hlj. split; [by apply (Ho j) |]. intros c. unfold in_class. split; intros (z & H1 & H2 & H3); exists z.
    + apply free_toggle in H1 as [H1 _]; [done | by eapply sized_toggle, R].
    + split; [| done]. apply free_toggle; [by eapply sized_toggle, R |]. split; [done |]. intros ->.
      destruct (chunk_at_apart _ _ _ _ _ _ _ (sized_toggle _ _ _ Free _ (rep_sized _ _ _ R)) H1 (chunk_at_mid l1 sz Free l2)) as [(_ & -> & _) | ?]; [lia |].
      pose proof (rep_range _ _ _ R _ _ _ (chunk_at_mid l1 sz Loose l2)). unfold min_size in H2. destruct (big_heap h); lia.
Qed.

(** Putting a chunk on the list of its class. *)
Lemma rep_add h l1 sz l2 fls i fl :
  rep h (l1 ++ (sz, Loose) :: l2) fls -> fls !! i = Some fl -> l1 <> [] -> min_size h <= sz -> size_class h sz = Z.of_nat i ->
  ∃ h', free_list_add_bidx (extent l1) (Z.of_nat i) h = Some h' /\
    rep h' (l1 ++ (sz, Free) :: l2) (<[i := fl ++ [extent l1]]> fls) /\ keeps (l1 ++ (sz, Loose) :: l2) h h'.
Proof.
  intros R Hi Hne Hmin Hcl. pose proof (lookup_lt_Some _ _ _ Hi) as Hlt. pose proof (loose_not_listed _ _ _ _ _ _ _ R Hi) as Hni.
  pose proof (chunk_at_mid l1 sz Loose l2) as Hc. pose proof (rep_range _ _ _ R _ _ _ Hc) as Hr. pose proof (rep_end_bounds _ _ _ R) as Hb.
  destruct (rep_lists _ _ _ R _ _ Hi) as (Hnd & Hci & _).
  assert (∀ h' j fj, (∀ x f, x ∉ extent l1 :: fl -> header_field f = false -> chunk_field h' x f = chunk_field h x f) ->
            j <> i -> fls !! j = Some fj -> circ h' fj) as Ho.
  { intros h' j fj He Hj Hlj. apply (circ_ext h); [| apply (rep_lists _ _ _ R _ _ Hlj)]. intros x f Hx Hf. apply He; [| done].
    intros [-> | Hx']%elem_of_cons; [by apply (loose_not_listed _ _ _ _ _ _ _ R Hlj) |]. by apply (lists_apart h _ fls i fl j fj x x R). }
  unfold free_list_add_bidx. rewrite (rep_bucket_next _ _ _ R _ fl) by (by rewrite Nat2Z.id). simpl.
  unfold set_prev_free_chunk, set_next_free_chunk. destruct fl as [| second r].
  - simpl. rewrite set_bucket_next_eq by (cbn [buckets set_avail]; by rewrite (rep_bucket_count _ _ _ R)). simpl.
    set (h1 := set_buckets _ _). set (h2 := chunk_set _ FREE_PREV _ h1). set (h3 := chunk_set _ FREE_NEXT _ h2).
    assert (relinks (l1 ++ (sz, Loose) :: l2) [extent l1] h1 h3) as (K & B & A & HH & L).
    { apply (relinks_trans _ _ _ h2); apply (relinks_set _ _ _ sz Loose); try done; try apply R; try (at_place h; lia); set_solver. }
    exists h3. split; [done |]. split; [| by apply (keeps_trans _ _ h1); [apply keeps_mem |]].
    apply (rep_on h h3 l1 sz l2 fls i []); try done; [by apply HH, (heads_mem h), R | |].
    + split; [done |]. simpl. unfold linked, next_free_chunk, prev_free_chunk, h3, h2. rewrite !link_set by (done || (at_place h; lia)). simpl. by rewrite Z.eqb_refl.
    + intros j fj Hj Hlj. apply (Ho _ j); try done.
  - destruct (circ_ends _ _ _ Hci) as (first & El & Ep & _). change (first_of (second :: r)) with second. rewrite Ep.
    assert (second ∈ second :: r) as Hs by (by left). apply last_Some_elem_of in El as Hf.
    destruct (listed_chunk _ _ _ _ _ first R Hi Hf) as (z1 & Hz1 & Hm1 & _ & Hb1).
    destruct (listed_chunk _ _ _ _ _ second R Hi Hs) as (z2 & Hz2 & Hm2 & _ & Hb2).
    rewrite (proj2 (Z.eqb_neq second 0)) by lia.
    set (h1 := chunk_set _ FREE_PREV _ h). set (h2 := chunk_set _ FREE_NEXT _ h1). set (h3 := chunk_set _ FREE_NEXT _ h2). set (h4 := chunk_set _ FREE_PREV _ h3).
    assert (relinks (l1 ++ (sz, Loose) :: l2) (extent l1 :: second :: r) h h4) as (K & B & A & HH & L).
    { apply (relinks_trans _ _ _ h1); [apply (relinks_set _ _ _ sz Loose); try done; try apply R; try (at_place h; lia); set_solver |].
      apply (relinks_trans _ _ _ h2); [apply (relinks_set _ _ _ sz Loose); try done; try apply R; try (at_place h; lia); set_solver |].
      apply (relinks_trans _ _ _ h3); [apply (relinks_set _ _ _ z1 Free) | apply (relinks_set _ _ _ z2 Free)]; try done; try apply R; try (at_place h; lia); set_solver. }
    exists h4. split; [done |]. split; [| done].
    apply (rep_on h h4 l1 sz l2 fls i (second :: r)); try done; [apply HH, R | | |].
    + rewrite B. simpl. rewrite list_insert_id; [done |]. rewrite (rep_buckets _ _ _ R), list_lookup_fmap, Hi. done.
    + apply (circ_add h h4 (extent l1) second r first); try done; intros a;
        unfold next_free_chunk, prev_free_chunk, h4, h3, h2, h1; rewrite !link_set by (done || (at_place h; lia)); simpl;
        rewrite ?andb_false_r, ?andb_true_r, !(Z.eqb_sym a); done.
    + intros j fj Hj Hlj. apply (Ho _ j); try done.
Qed.

(** A chunk too small for the links is on no list. *)
Lemma rep_solo_toggle h l1 sz s t l2 fls :
  rep h (l1 ++ (sz, s) :: l2) fls -> s <> Used -> t <> Used -> l1 <> [] -> sz < min_size h -> rep h (l1 ++ (sz, t) :: l2) fls.
Proof.
  intros R Hs Ht Hne Hsz. pose proof R as [R1 R2 R3 R4 R5 R6 R7 R8 R9 R10]. split; try done.
  - by eapply sized_toggle.
  - rewrite <- R3, !extent_app. done.
  - by apply (first_kept l1 [(sz, s)] [(sz, t)] l2).
  - by apply (heads_toggle _ _ _ s).
  - intros i fl Hi. apply R10 in Hi as (Hnd & Hc & Hm). split; [done |]. split; [done |]. intros c. rewrite Hm. unfold in_class.
    split; intros (z & H1 & H2 & H3); exists z; (split; [| done]); apply chunk_at_app; apply chunk_at_app in H1; simpl in *;
      (destruct H1 as [? | [[_ E] | ?]]; [by left | | by right; right]); exfalso; injection E; intros; subst; lia.
Qed.

Lemma rep_list_remove h l1 sz l2 fls :
  rep h (l1 ++ (sz, Free) :: l2) fls ->
  ∃ h' fls', free_list_remove (extent l1) h = Some h' /\ rep h' (l1 ++ (sz, Loose) :: l2) fls' /\ keeps (l1 ++ (sz, Free) :: l2) h h'.
Proof.
  intros R. pose proof (chunk_at_mid l1 sz Free l2) as Hc. pose proof (rep_range _ _ _ R _ _ _ Hc) as Hr.
  assert (l1 <> []) as Hne by (intros ->; pose proof (rep_free_pos _ _ _ R _ _ _ Hc); simpl in *; naive_solver lia).
  unfold free_list_remove. rewrite (rep_solo _ _ _ R _ _ _ Hc), negb_involutive. destruct (Z.leb_spec (min_size h) sz) as [Hm | Hm].
  - rewrite (rep_bucket_idx _ _ _ R _ _ _ Hc Hm). destruct (rep_class_list _ _ _ R sz) as [fl Hi]; [lia |].
    pose proof (rep_class_range _ _ _ R sz) as Hcr. rewrite <- (Z2Nat.id (size_class h sz)) by lia.
    destruct (unlist_rep h l1 sz l2 fls _ fl R Hi) as (h' & fl' & E & R' & K); [| by eauto].
    apply (rep_lists _ _ _ R _ _ Hi). exists sz. repeat split; [done | done |]. rewrite Z2Nat.id; [done | lia].
  - exists h, fls. split; [done |]. split; [by apply (rep_solo_toggle h l1 sz Free) | apply keeps_refl].
Qed.

Lemma rep_list_add h l1 sz l2 fls :
  rep h (l1 ++ (sz, Loose) :: l2) fls -> l1 <> [] ->
  ∃ h' fls', free_list_add (extent l1) h = Some h' /\ rep h' (l1 ++ (sz, Free) :: l2) fls' /\ keeps (l1 ++ (sz, Loose) :: l2) h h'.
Proof.
  intros R Hne. pose proof (chunk_at_mid l1 sz Loose l2) as Hc. pose proof (rep_range _ _ _ R _ _ _ Hc) as Hr.
  unfold free_list_add. rewrite (rep_solo _ _ _ R _ _ _ Hc), negb_involutive. destruct (Z.leb_spec (min_size h) sz) as [Hm | Hm].
  - rewrite (rep_bucket_idx _ _ _ R _ _ _ Hc Hm). destruct (rep_class_list _ _ _ R sz) as [fl Hi]; [lia |].
    pose proof (rep_class_range _ _ _ R sz) as Hcr. rewrite <- (Z2Nat.id (size_class h sz)) by lia.
    destruct (rep_add h l1 sz l2 fls _ fl R Hi Hne Hm) as (h' & E & R' & K); [rewrite Z2Nat.id; [done | lia] | by eauto].
  - exists h, fls. split; [done |]. split; [by apply (rep_solo_toggle h l1 sz Loose) | apply keeps_refl].
Qed.

(** Turning a list so that its second chunk is the head. *)
Lemma rep_rotate h l fls i x r :
  rep h l fls -> fls !! i = Some (x :: r) ->
  let h' := set_buckets (<[i := next_free_chunk h x]> (buckets h)) h in
  set_bucket_next (Z.of_nat i) (next_free_chunk h x) h = Some h' /\ next_free_chunk h x = first_of (r ++ [x]) /\
  rep h' l (<[i := r ++ [x]]> fls).
Proof.
  intros R Hi. pose proof (lookup_lt_Some _ _ _ Hi) as Hlt. destruct (rep_lists _ _ _ R _ _ Hi) as (Hnd & Hc & Hm).
  assert (next_free_chunk h x = first_of (r ++ [x])) as En.
  { destruct r as [| y r]; [destruct Hc as [_ [E _]] | destruct Hc as [[[E _] _] _]]; exact E. }
  split; [apply set_bucket_next_eq; by rewrite (rep_bucket_count _ _ _ R) |]. split; [done |].
  pose proof R as [R1 R2 R3 R4 R5 R6 R7 R8 R9 R10]. split; try done.
  - eapply geometry_place; [| done]. done.
  - by apply (heads_mem h).
  - cbn [buckets set_buckets]. by rewrite R6, list_fmap_insert, En.
  - by rewrite length_insert.
  - intros j. rewrite (R9 j). destruct (decide (i = j)) as [<- | Hij].
    + rewrite list_lookup_insert_eq, Hi by done. split; intros (fl & [= <-] & _); eexists; (split; [done |]); [by destruct r | done].
    + by rewrite list_lookup_insert_ne.
  - intros j fl Hj. destruct (decide (i = j)) as [<- | Hij].
    + rewrite list_lookup_insert_eq in Hj by done. injection Hj as <-. split; [| split].
      * apply (NoDup_Permutation_proper (x :: r)); [| done]. by rewrite (Permutation_app_comm r [x]).
      * apply (circ_ext h); [intros; by apply field_mem | by apply circ_rotate].
      * intros c. rewrite <- (in_class_place h) with (l := l) by done. rewrite <- Hm. set_solver.
    + rewrite list_lookup_insert_ne in Hj by done. apply R10 in Hj as (Hndj & Hcj & Hmj). split; [done |]. split.
      * apply (circ_ext h); [intros; by apply field_mem | done].
      * intros c. rewrite <- (in_class_place h) with (l := l) by done. apply Hmj.
Qed.

End Rep.
