(* ===== verification/HeapSpec.v ===== *)
(** * What the heap allocator does

    The calls of lib/heap/heap.c on the sequence of chunks: allocation takes
    part of a free chunk, freeing merges with free neighbours, resizing moves
    the end of a chunk or the block.  None of them touches the memory of
    another block. *)

From Stdlib Require Import ZArith Lia Bool.
From stdpp Require Import base numbers list sets.
From S2P Require Import Prelude MathExtras Memory Heap HeapInv.

Open Scope Z_scope.

(** No two neighbours are free. *)
Fixpoint coalesced (l : list chunk) : Prop :=
  match l with
  | x :: (y :: _) as r => (x.2 = Used \/ y.2 = Used) /\ coalesced r
  | _ => True
  end.

Lemma coalesced_app l1 l2 :
  coalesced (l1 ++ l2) <->
  coalesced l1 /\ coalesced l2 /\ (∀ x y, last l1 = Some x -> head l2 = Some y -> x.2 = Used \/ y.2 = Used).
Proof.
  induction l1 as [| x l1 IH]; [by simpl; naive_solver |]. destruct l1 as [| y l1].
  - destruct l2 as [| z l2]; simpl; naive_solver.
  - change (coalesced ((x :: y :: l1) ++ l2)) with ((x.2 = Used \/ y.2 = Used) /\ coalesced ((y :: l1) ++ l2)).
    rewrite IH. simpl. naive_solver.
Qed.

Definition ends_used (l : list chunk) : Prop := ∀ x, last l = Some x -> x.2 = Used.
Definition starts_used (l : list chunk) : Prop := ∀ x, head l = Some x -> x.2 = Used.

Lemma coalesced_cons x l : coalesced (x :: l) <-> coalesced l /\ (x.2 = Used \/ starts_used l).
Proof. destruct l as [| y l]; unfold starts_used; simpl; naive_solver. Qed.

Lemma coalesced_used l1 sz l2 : coalesced (l1 ++ (sz, Used) :: l2) <-> coalesced l1 /\ coalesced l2.
Proof. rewrite coalesced_app, coalesced_cons. simpl. naive_solver. Qed.

Lemma coalesced_free l1 sz l2 :
  coalesced (l1 ++ (sz, Free) :: l2) <-> coalesced l1 /\ coalesced l2 /\ ends_used l1 /\ starts_used l2.
Proof. rewrite coalesced_app, coalesced_cons. unfold ends_used. simpl. naive_solver. Qed.

Definition settled (l : list chunk) : Prop := Forall (λ x, x.2 <> Loose) l.

Section Spec.
Context {cfg : HeapConfig}.
Implicit Types (h : z_heap) (l : list chunk) (c need : Z).

(** The state between calls. *)
Definition heap_inv h l (fls : list (list Z)) : Prop := rep h l fls /\ coalesced l /\ settled l.

(** ** Taking a chunk *)

(** A free chunk of at least [need] units is taken off its list. *)
Definition took h l need c h' (l' : list chunk) fls' : Prop :=
  ∃ l1 sz l2, l = l1 ++ (sz, Free) :: l2 /\ c = extent l1 /\ l1 <> [] /\ need <= sz /\
    l' = l1 ++ (sz, Loose) :: l2 /\ rep h' l' fls' /\ keeps l h h'.

Lemma take_listed h l fls i fl c need :
  rep h l fls -> fls !! i = Some fl -> c ∈ fl -> need <= chunk_size h c ->
  ∃ h' l' fls', free_list_remove_bidx c (Z.of_nat i) h = Some h' /\ took h l need c h' l' fls' /\ c <> 0.
Proof.
  intros R Hi Hc Hn. destruct (listed_chunk _ _ _ _ _ _ R Hi Hc) as (sz & Hat & _ & _ & Hpos).
  rewrite (rep_size _ _ _ R _ _ _ Hat) in Hn. apply chunk_at_split in Hat as (l1 & l2 & -> & <-).
  destruct (unlist_rep _ _ _ _ _ _ _ R Hi Hc) as (h' & fl' & E & R' & K). exists h', (l1 ++ (sz, Loose) :: l2), (<[i := fl']> fls). split; [done |]. split; [| lia].
  exists l1, sz, l2. split_and!; try done. intros ->. simpl in Hpos. lia.
Qed.

(** Unchanged but for the order of a list. *)
Definition turned h l h' fls' : Prop := rep h' l fls' /\ same_place h h' /\ hmem h' = hmem h.

Lemma turned_trans h l h' fls' h'' fls'' : turned h l h' fls' -> turned h' l h'' fls'' -> turned h l h'' fls''.
Proof. intros (R & [P1 P2] & E) (R' & [P1' P2'] & E'). split; [done |]. split; [split|]; congruence. Qed.

Lemma turned_took h l h' fls' need c h'' l'' fls'' :
  turned h l h' fls' -> took h' l need c h'' l'' fls'' -> took h l need c h'' l'' fls''.
Proof.
  intros (R & P & E) (l1 & sz & l2 & -> & -> & Hne & Hn & -> & R' & K). exists l1, sz, l2. split_and!; try done.
  eapply keeps_trans; [by apply keeps_mem | exact K].
Qed.

Lemma alloc_search_spec n need i first h l fls x r :
  rep h l fls -> fls !! i = Some (x :: r) ->
  ∃ c h', alloc_search n need (Z.of_nat i) first h = Some (c, h') /\
    ((c = 0 /\ ∃ fls', turned h l h' fls') \/ (c <> 0 /\ ∃ l' fls', took h l need c h' l' fls')).
Proof.
  revert h fls x r. induction n as [| n IH]; intros h fls x r R Hi; cbn [alloc_search].
  { exists 0, h. split; [done |]. left. split; [done |]. by exists fls. }
  rewrite (rep_bucket_next _ _ _ R _ (x :: r)) by (by rewrite Nat2Z.id). change (first_of (x :: r)) with x. simpl.
  destruct (Z.leb_spec need (chunk_size h x)) as [Hn | Hn].
  { destruct (take_listed h l fls i (x :: r) x need R Hi) as (h' & l' & fls' & E & T & Hx); [by left | done |].
    rewrite E. simpl. exists x, h'. eauto 10. }
  destruct (rep_rotate _ _ _ _ _ _ R Hi) as (Es & En & R'). rewrite Es. simpl.
  set (h1 := set_buckets _ h) in *. assert (turned h l h1 (<[i := r ++ [x]]> fls)) as T by done.
  destruct (negb (n =? 0)%nat && negb (next_free_chunk h x =? first)); [| exists 0, h1; eauto 10].
  assert (∃ y q, r ++ [x] = y :: q) as (y & q & Eq) by (destruct r as [| z r]; [by exists x, [] | by exists z, (r ++ [x])]).
  destruct (IH h1 _ y q R') as (c & h' & E & [[-> (fls' & T')] | (Hc & l' & fls' & T')]).
  { rewrite list_lookup_insert_eq by (by eapply lookup_lt_Some). by rewrite Eq. }
  - exists 0, h'. split; [done |]. left. split; [done |]. exists fls'. exact (turned_trans _ _ _ _ _ _ T T').
  - exists c, h'. split; [done |]. right. split; [done |]. exists l', fls'. exact (turned_took _ _ _ _ _ _ _ _ _ T T').
Qed.

Lemma bmask_bit avail bi j :
  0 <= bi < 31 -> 0 <= j < 32 -> Z.testbit (Z.land avail (lnot32 (BIT (bi + 1) - 1))) j = Z.testbit avail j && (bi <? j).
Proof.
  intros Hb Hj. rewrite Z.land_spec. f_equal. unfold lnot32, wrap_u. rewrite Z.mod_pow2_bits_low, Z.lnot_spec by lia.
  unfold BIT. rewrite Z.shiftl_1_l. replace (2 ^ (bi + 1) - 1) with (Z.ones (bi + 1)) by (rewrite Z.ones_equiv; lia).
  destruct (Z.ltb_spec bi j); [rewrite Z.ones_spec_high by lia | rewrite Z.ones_spec_low by lia]; done.
Qed.

Lemma alloc_larger_spec need bi h l fls :
  rep h l fls -> 0 <= bi < 31 -> size_class h need = bi ->
  ∃ c h', alloc_larger bi h = Some (c, h') /\
    ((c = 0 /\ h' = h /\ ∀ c sz, chunk_at l c sz Free -> min_size h <= sz -> size_class h sz <= bi) \/
     (c <> 0 /\ ∃ l' fls', took h l need c h' l' fls')).
Proof.
  intros R Hbi Hcl. unfold alloc_larger. set (bmask := Z.land _ _). pose proof (rep_few_classes _ _ _ R) as Hfew.
  assert (0 <= bmask < 2 ^ 32) as Hb by (apply land_bound; [lia | apply R]).
  destruct (Z.eqb_spec bmask 0) as [E0 | Hne]; cbn [negb].
  - exists 0, h. split; [done |]. left. split_and!; [done | done |]. intros c sz Hc Hm.
    destruct (Z.leb_spec (size_class h sz) bi) as [| Hgt]; [done | exfalso]. pose proof (rep_range _ _ _ R _ _ _ Hc) as Hr.
    destruct (rep_class_range _ _ _ R sz) as [Hs1 Hs2]; [lia |]. destruct (rep_class_list _ _ _ R sz) as [fl Hi]; [lia |].
    assert (Z.testbit bmask (size_class h sz) = true) as Hbit; [| by rewrite E0, Z.bits_0 in Hbit].
    unfold bmask. rewrite bmask_bit by lia. rewrite (proj2 (Z.ltb_lt bi _) Hgt), andb_true_r.
    rewrite <- (Z2Nat.id (size_class h sz)), (rep_avail_bit _ _ _ _ _ R Hi), bool_decide_eq_true by lia. intros ->.
    apply (not_elem_of_nil c). apply (rep_lists _ _ _ R _ _ Hi). exists sz. split_and!; [done | done |]. rewrite Z2Nat.id; lia.
  - destruct (u32_ctz_lowest bmask) as (Hm1 & Hm2 & _); [lia |]. set (m := u32_count_trailing_zeros bmask) in *.
    unfold bmask in Hm2. rewrite bmask_bit in Hm2 by lia. apply andb_true_iff in Hm2 as [Hav Hgt%Z.ltb_lt].
    rewrite <- (Z2Nat.id m) in Hav by lia. apply (rep_avail _ _ _ R) in Hav as (fl & Hi & Hfl).
    destruct fl as [| x r]; [done |]. rewrite (rep_bucket_next _ _ _ R _ _ Hi). change (first_of (x :: r)) with x. simpl.
    destruct (take_listed h l fls (Z.to_nat m) (x :: r) x need R Hi) as (h' & l' & fls' & E & T & Hx); [by left | |].
    { destruct (listed_chunk _ _ _ _ _ x R Hi) as (sz & Hat & _ & Hc & _); [by left |]. rewrite (rep_size _ _ _ R _ _ _ Hat).
      destruct (Z.leb_spec need sz) as [| Hlt]; [done |]. pose proof (size_class_mono h sz need). lia. }
    rewrite Z2Nat.id in E by lia. rewrite E. simpl. exists x, h'. eauto 10.
Qed.

(** No free chunk is of a class above that of [need]. *)
Definition no_room h l need : Prop := ∀ c sz, chunk_at l c sz Free -> min_size h <= sz -> size_class h sz <= size_class h need.

Lemma alloc_chunk_spec need h l fls :
  rep h l fls -> min_size h <= need < 2 ^ 32 -> size_class h need <= size_class h (end_chunk h) ->
  ∃ c h', alloc_chunk need h = Some (c, h') /\
    ((c = 0 /\ (∃ fls', turned h l h' fls') /\ no_room h l need) \/ (c <> 0 /\ ∃ l' fls', took h l need c h' l' fls')).
Proof.
  intros R Hn Hcl. unfold alloc_chunk. rewrite bucket_idx_class by done. pose proof (rep_few_classes _ _ _ R) as Hfew.
  rewrite (rep_classes _ _ _ R) in Hfew. assert (0 <= size_class h need) as Hnn by apply Z.log2_nonneg.
  destruct (lookup_lt_is_Some_2 fls (Z.to_nat (size_class h need))) as [fl Hi]; [pose proof (rep_classes _ _ _ R); lia |].
  rewrite (rep_bucket_next _ _ _ R _ _ Hi). simpl.
  assert (∃ c h', (if negb (first_of fl =? 0) then alloc_search SYS_HEAP_ALLOC_LOOPS need (size_class h need) (first_of fl) h else Some (0, h)) = Some (c, h') /\
    ((c = 0 /\ ∃ fls', turned h l h' fls') \/ (c <> 0 /\ ∃ l' fls', took h l need c h' l' fls'))) as (c & h1 & -> & Hcase).
  { destruct fl as [| x r]; [exists 0, h; split; [done |]; left; split; [done | by exists fls] |].
    change (first_of (x :: r)) with x. destruct (listed_chunk _ _ _ _ _ x R Hi) as (sz & _ & _ & _ & Hx); [by left |].
    rewrite (proj2 (Z.eqb_neq x 0)) by lia. cbn [negb]. rewrite <- (Z2Nat.id (size_class h need)) by lia. by apply (alloc_search_spec _ _ _ _ _ _ fls x r). }
  simpl. destruct Hcase as [[-> (fls' & T)] | (Hc & l' & fls' & T)]; cycle 1.
  { rewrite (proj2 (Z.eqb_neq c 0)) by done. exists c, h1. eauto 10. }
  simpl. pose proof T as (R1 & P & _). assert (∀ sz, size_class h1 sz = size_class h sz /\ min_size h1 = min_size h) as Ecl.
  { intros. unfold size_class, min_size. by rewrite (same_place_big _ _ P). }
  destruct (alloc_larger_spec need (size_class h need) h1 l fls' R1) as (c & h' & E & [(-> & -> & Hno) | (Hc & l' & fls'' & T')]); [lia | apply Ecl | |].
  - exists 0, h1. split; [done |]. left. split_and!; [done | by eauto |]. intros c sz Hc Hm. rewrite <- (proj1 (Ecl sz)).
    apply (Hno c); [done | by rewrite (proj2 (Ecl sz))].
  - exists c, h'. split; [done |]. right. split; [done |]. exists l', fls''. exact (turned_took _ _ _ _ _ _ _ _ _ T T').
Qed.

(** ** Cutting chunks *)

Lemma extent_snoc l sz st : extent (l ++ [(sz, st)]) = extent l + sz.
Proof. rewrite extent_app. simpl. lia. Qed.

Lemma used_mono_mid l1 A B l2 :
  extent A = extent B -> (∀ c sz, chunk_at A c sz Used -> chunk_at B c sz Used) ->
  ∀ c sz, chunk_at (l1 ++ A ++ l2) c sz Used -> chunk_at (l1 ++ B ++ l2) c sz Used.
Proof. intros He HA c sz. rewrite !chunk_at_app, He. specialize (HA (c - extent l1) sz). tauto. Qed.

Lemma keeps_mid l1 A B l2 h h' :
  extent A = extent B -> (∀ c sz, chunk_at A c sz Used -> chunk_at B c sz Used) ->
  keeps (l1 ++ B ++ l2) h h' -> keeps (l1 ++ A ++ l2) h h'.
Proof. intros He HA. apply keeps_mono. by apply used_mono_mid. Qed.

Ltac not_used := simpl; intros; intuition (congruence || lia).

(** The end of a chunk goes back to the free lists. *)
Lemma rep_cut_tail h l1 sz s l2 fls a :
  rep h (l1 ++ (sz, s) :: l2) fls -> l1 <> [] -> s <> Free -> 1 <= a < sz ->
  ∃ h' fls', free_list_add (extent l1 + a) (split_chunks (extent l1) (extent l1 + a) h) = Some h' /\
    rep h' (l1 ++ (a, Loose) :: (sz - a, Free) :: l2) fls' /\ keeps (l1 ++ (a, Loose) :: (sz - a, Loose) :: l2) h h'.
Proof.
  intros R Hne Hs Ha. destruct (split_rep _ _ _ _ _ _ a R Hne Hs Ha) as [R1 K1]. set (h1 := split_chunks _ _ h) in *.
  assert (rep h1 ((l1 ++ [(a, Loose)]) ++ (sz - a, Loose) :: l2) fls) as R1' by (by rewrite <- app_assoc).
  destruct (rep_list_add _ _ _ _ _ R1') as (h' & fls' & E & R' & K'); [by destruct l1 |]. rewrite extent_snoc in E.
  rewrite <- app_assoc in R', K'. exists h', fls'. split; [done |]. split; [done |].
  apply (keeps_trans _ _ h1); [| exact K']. apply (keeps_mid l1 [_; _] [(a, Used); (sz - a, Used)] l2); [done | | exact K1]. not_used.
Qed.

(** The start of a chunk goes back to the free lists. *)
Lemma rep_cut_head h l1 sz s l2 fls a :
  rep h (l1 ++ (sz, s) :: l2) fls -> l1 <> [] -> s <> Free -> 1 <= a < sz ->
  ∃ h' fls', free_list_add (extent l1) (split_chunks (extent l1) (extent l1 + a) h) = Some h' /\
    rep h' (l1 ++ (a, Free) :: (sz - a, Loose) :: l2) fls' /\ keeps (l1 ++ (a, Loose) :: (sz - a, Loose) :: l2) h h'.
Proof.
  intros R Hne Hs Ha. destruct (split_rep _ _ _ _ _ _ a R Hne Hs Ha) as [R1 K1]. set (h1 := split_chunks _ _ h) in *.
  destruct (rep_list_add _ _ _ _ _ R1 Hne) as (h' & fls' & E & R' & K'). exists h', fls'. split; [done |]. split; [done |].
  apply (keeps_trans _ _ h1); [| exact K']. apply (keeps_mid l1 [_; _] [(a, Used); (sz - a, Used)] l2); [done | | exact K1]. not_used.
Qed.

(** What is left of [sz] units after [need]. *)
Definition remainder (sz need : Z) : list chunk := if need <? sz then [(sz - need, Free)] else [].

Lemma extent_remainder sz need : need <= sz -> extent (remainder sz need) = sz - need.
Proof. intros H. unfold remainder. destruct (Z.ltb_spec need sz); simpl; lia. Qed.

(** Cutting off what is not needed and marking the rest used. *)
Lemma carve_spec h l1 sz l2 fls need :
  rep h (l1 ++ (sz, Loose) :: l2) fls -> l1 <> [] -> 1 <= need <= sz ->
  ∃ h' fls',
    (if need <? sz then free_list_add (extent l1 + need) (split_chunks (extent l1) (extent l1 + need) h) else Some h) = Some h' /\
    rep (set_chunk_used (extent l1) true h') (l1 ++ (need, Used) :: remainder sz need ++ l2) fls' /\
    keeps (l1 ++ (sz, Loose) :: l2) h (set_chunk_used (extent l1) true h').
Proof.
  intros R Hne Hn. unfold remainder. destruct (Z.ltb_spec need sz) as [Hlt | Hge].
  - destruct (rep_cut_tail _ _ _ _ _ _ need R Hne) as (h' & fls' & E & R' & K'); [done | lia |].
    destruct (rep_mark _ _ _ _ _ _ true R' Hne) as [R'' K'']; [done |]. exists h', fls'. split_and!; [done | done |].
    apply (keeps_trans _ _ h'); [apply (keeps_mid l1 [_] [_; _] l2 _ _) with (3 := K') |
                                 apply (keeps_mid l1 [_] [_; _] l2 _ _) with (3 := K'')]; first [simpl; lia | not_used].
  - replace sz with need in * by lia. destruct (rep_mark _ _ _ _ _ _ true R Hne) as [R' K']; [done |]. exists h, fls. split_and!; [done | done |].
    apply (keeps_mid l1 [_] [_] l2 _ _) with (3 := K'); [done | not_used].
Qed.

(** ** Sizes *)

Lemma header_bytes_cases h : chunk_header_bytes h = if big_heap h then 8 else 4.
Proof. done. Qed.

Lemma need_eq h bytes : 0 <= bytes -> chunk_header_bytes h + bytes + 7 < 2 ^ 32 -> bytes_to_chunksz h bytes = (chunk_header_bytes h + bytes + 7) / 8.
Proof.
  intros H0 H. unfold bytes_to_chunksz, chunksz, CHUNK_UNIT. assert (4 <= chunk_header_bytes h) by (rewrite header_bytes_cases; destruct (big_heap h); lia).
  rewrite (wrap_u_id 32 (chunk_header_bytes h + bytes)) by lia. rewrite wrap_u_id by lia. f_equal. lia.
Qed.

Lemma need_bounds h n : let need := (chunk_header_bytes h + n + 7) / 8 in
  1 <= n -> min_size h <= need /\ chunk_header_bytes h + n <= 8 * need < chunk_header_bytes h + n + 8.
Proof.
  intros need Hn. subst need. pose proof (Z.div_mod (chunk_header_bytes h + n + 7) 8 ltac:(lia)). pose proof (Z.mod_pos_bound (chunk_header_bytes h + n + 7) 8).
  rewrite header_bytes_cases in *. unfold min_size. destruct (big_heap h); lia.
Qed.

(** A class spans a factor of two. *)
Lemma class_below_double h sz need :
  min_size h <= need -> size_class h sz <= size_class h need -> min_size h <= sz -> sz < 2 * need.
Proof.
  intros Hn Hc Hs. unfold size_class in Hc. assert (1 <= min_size h <= 2) by (unfold min_size; destruct (big_heap h); lia).
  destruct (Z.log2_spec (need - min_size h + 1)) as [Hl1 Hl2]; [lia |]. destruct (Z.log2_spec (sz - min_size h + 1)) as [Hs1 Hs2]; [lia |].
  assert (2 ^ Z.succ (Z.log2 (sz - min_size h + 1)) <= 2 ^ Z.succ (Z.log2 (need - min_size h + 1))) by (apply Z.pow_le_mono_r; lia).
  rewrite (Z.pow_succ_r 2 (Z.log2 (need - min_size h + 1))) in * by apply Z.log2_nonneg. lia.
Qed.

(** ** Allocation *)

Lemma geo_bytes h bytes : geometry h -> 0 <= bytes -> size_too_big h bytes = false -> bytes < 8 * end_chunk h /\ chunk_header_bytes h + bytes + 7 < 2 ^ 32.
Proof.
  intros [Hb Hal Ht _] H0 Hs. unfold size_too_big, CHUNK_UNIT in Hs. apply Z.leb_gt in Hs.
  pose proof (Z.div_mod bytes 8 ltac:(lia)). pose proof (Z.mod_pos_bound bytes 8). pose proof (Z.div_mod (hbase h) 8 ltac:(lia)). lia.
Qed.

Lemma chunk_mem_place h h' c : same_place h h' -> chunk_mem h' c = chunk_mem h c.
Proof. intros Hp. unfold chunk_mem, chunk_header_bytes. rewrite (same_place_big _ _ Hp). by rewrite (proj1 Hp). Qed.

Lemma alloc_rep bytes h l fls :
  rep h l fls -> 1 <= bytes -> size_too_big h bytes = false ->
  let need := (chunk_header_bytes h + bytes + 7) / 8 in size_class h need <= size_class h (end_chunk h) ->
  ∃ p h', sys_heap_alloc bytes h = Some (p, h') /\
    ((p = 0 /\ (∃ fls', turned h l h' fls') /\ no_room h l need) \/
     ∃ l1 sz l2 fls', l = l1 ++ (sz, Free) :: l2 /\ l1 <> [] /\ p = chunk_mem h (extent l1) /\ need <= sz /\
       rep h' (l1 ++ (need, Used) :: remainder sz need ++ l2) fls' /\ keeps l h h').
Proof.
  intros R Hb Hs need Hcl. pose proof (rep_geo _ _ _ R) as G. destruct (geo_bytes h bytes G ltac:(lia) Hs) as [Hb1 Hb2].
  destruct (need_bounds h bytes Hb) as [Hn1 Hn2]. fold need in Hn1, Hn2.
  assert (need < 2 ^ 32) as Hn3 by (destruct G; lia).
  unfold sys_heap_alloc. rewrite Hs, (proj2 (Z.eqb_neq bytes 0)), need_eq by lia. fold need. cbn [orb].
  destruct (alloc_chunk_spec need h l fls R) as (c & h1 & -> & [(-> & T & Hno) | (Hc & l' & fls' & T)]); [lia | done | simpl; by eauto 10 |].
  destruct T as (l1 & sz & l2 & -> & -> & Hne & Hsz & -> & R1 & K1). simpl. rewrite (proj2 (Z.eqb_neq (extent l1) 0)) by done.
  pose proof (chunk_at_mid l1 sz Loose l2) as Hat. pose proof (rep_range _ _ _ R1 _ _ _ Hat) as Hr. pose proof (rep_end_bounds _ _ _ R1) as He.
  assert (1 <= min_size h) as Hm by (unfold min_size; destruct (big_heap h); lia).
  rewrite (rep_size _ _ _ R1 _ _ _ Hat), wrap_u_id by lia.
  destruct (carve_spec h1 l1 sz l2 fls' need R1 Hne) as (h2 & fls2 & E2 & R2 & K2); [lia |]. rewrite E2. simpl.
  set (h3 := set_chunk_used _ _ h2) in *. exists (chunk_mem h3 (extent l1)), h3. split; [done |]. right.
  assert (keeps (l1 ++ (sz, Free) :: l2) h h3) as K.
  { apply (keeps_trans _ _ h1); [done |]. by apply (keeps_toggle l1 sz Loose Free). }
  exists l1, sz, l2, fls2. split_and!; try done. apply chunk_mem_place, K.
Qed.

(** ** Freeing *)

(** A chunk of [sz] units with the free chunk to its right, to its left. *)
Definition join_right (sz : Z) l : Z * list chunk :=
  match l with
  | (b, Free) :: l => (sz + b, l)
  | _ => (sz, l)
  end.

Definition join_left l (sz : Z) : list chunk * Z :=
  match reverse l with
  | (a, Free) :: r => (reverse r, a + sz)
  | _ => (l, sz)
  end.

(** The chunks [l1], one freed of [sz] units, the chunks [l2]. *)
Definition released l1 (sz : Z) l2 : list chunk :=
  let '(sz, l2) := join_right sz l2 in
  let '(l1, sz) := join_left l1 sz in
  l1 ++ (sz, Free) :: l2.

Lemma join_right_spec h l1 sz l2 fls :
  rep h (l1 ++ (sz, Loose) :: l2) fls -> l1 <> [] -> settled l2 ->
  let '(sz', l2') := join_right sz l2 in
  ∃ h' fls',
    (if negb (chunk_used h (right_chunk h (extent l1))) then
       h ← free_list_remove (right_chunk h (extent l1)) h; Some (merge_chunks (extent l1) (right_chunk h (extent l1)) h)
     else Some h) = Some h' /\
    rep h' (l1 ++ (sz', Loose) :: l2') fls' /\ keeps (l1 ++ (sz, Loose) :: l2) h h'.
Proof.
  intros R Hne Hst. pose proof (chunk_at_mid l1 sz Loose l2) as Hc. pose proof (rep_right _ _ _ R _ _ _ Hc) as Er. rewrite Er.
  destruct l2 as [| [b t] l2].
  { assert (extent l1 + sz = end_chunk h) as -> by (rewrite <- (rep_extent _ _ _ R), extent_snoc; lia).
    rewrite (rep_used_end _ _ _ R). exists h, fls. split_and!; [done | done | apply keeps_refl]. }
  assert (rep h ((l1 ++ [(sz, Loose)]) ++ (b, t) :: l2) fls) as R' by (by rewrite <- app_assoc).
  pose proof (chunk_at_mid (l1 ++ [(sz, Loose)]) b t l2) as Hb. rewrite extent_snoc in Hb.
  rewrite (rep_used _ _ _ R' _ _ _ Hb). apply Forall_cons in Hst as [Ht _]. destruct t; [| | done].
  - simpl. exists h, fls. split_and!; [done | done | apply keeps_refl].
  - simpl. destruct (rep_list_remove _ _ _ _ _ R') as (h1 & fls1 & E1 & R1 & K1). rewrite extent_snoc in E1. rewrite E1. simpl.
    rewrite <- app_assoc in R1, K1. simpl in R1, K1. rewrite (rep_right _ _ _ R1 _ _ _ (chunk_at_mid l1 sz Loose _)).
    destruct (rep_merge _ _ _ _ _ _ _ _ R1 Hne) as [R2 K2]; [done | done |]. exists (merge_chunks (extent l1) (extent l1 + sz) h1), fls1.
    split_and!; [done | done |]. apply (keeps_trans _ _ h1); [done |]. apply (keeps_mid l1 [_; _] [_; _] l2) with (3 := K2); [done | not_used].
Qed.

(** Merging into the left neighbour leaves the header of the right one. *)
Lemma merge_left_field h l1 a s b t l2 fls :
  rep h (l1 ++ (a, s) :: (b, t) :: l2) fls ->
  left_chunk (merge_chunks (extent l1) (extent l1 + a) h) (extent l1 + a) = extent l1.
Proof.
  intros R. pose proof (rep_end_bounds _ _ _ R) as Hb. pose proof (chunk_at_mid l1 a s ((b, t) :: l2)) as Hc.
  assert (rep h ((l1 ++ [(a, s)]) ++ (b, t) :: l2) fls) as R' by (by rewrite <- app_assoc).
  pose proof (chunk_at_mid (l1 ++ [(a, s)]) b t l2) as Hc'. pose proof (rep_left_field _ _ _ _ _ _ R') as Hl. rewrite extent_snoc in Hc', Hl.
  rewrite last_size_snoc in Hl. simpl in Hl. pose proof (rep_right _ _ _ R' _ _ _ Hc') as Er. pose proof (rep_range _ _ _ R _ _ _ Hc) as Hr.
  pose proof (rep_range _ _ _ R' _ _ _ Hc') as Hr'. unfold merge_chunks.
  rewrite (rep_size _ _ _ R _ _ _ Hc), (rep_size _ _ _ R' _ _ _ Hc'), wrap_u_id by lia. rewrite set_chunk_size_eq by lia.
  set (h1 := chunk_set _ _ _ h). assert (right_chunk h1 (extent l1 + a) = extent l1 + a + b) as ->.
  { rewrite <- Er. unfold right_chunk, chunk_size, h1. rewrite header_set by (done || lia). by eqbs. }
  unfold left_chunk, set_left_chunk_size, h1. rewrite !header_set by (done || (at_place h; lia)). simpl. rewrite andb_false_r. eqbs.
  rewrite Hl, wrap_u_id by lia. lia.
Qed.

Lemma join_left_spec h l1 sz l2 fls :
  rep h (l1 ++ (sz, Loose) :: l2) fls -> l1 <> [] -> settled l1 ->
  let '(l1', sz') := join_left l1 sz in
  ∃ h' fls',
    (if negb (chunk_used h (left_chunk h (extent l1))) then
       h ← free_list_remove (left_chunk h (extent l1)) h;
       let h := merge_chunks (left_chunk h (extent l1)) (extent l1) h in Some (left_chunk h (extent l1), h)
     else Some (extent l1, h)) = Some (extent l1', h') /\
    rep h' (l1' ++ (sz', Loose) :: l2) fls' /\ l1' <> [] /\ keeps (l1 ++ (sz, Loose) :: l2) h h'.
Proof.
  intros R Hne Hst. destruct l1 as [| [a t] l1 _] using rev_ind; [done |]. unfold join_left. rewrite reverse_snoc.
  match goal with |- context [left_chunk h ?e] => assert (left_chunk h e = extent l1) as -> end.
  { rewrite (rep_left _ _ _ R _ _ _ eq_refl), last_size_snoc, extent_snoc. simpl. lia. }
  assert (rep h (l1 ++ (a, t) :: (sz, Loose) :: l2) fls) as R' by (by rewrite <- app_assoc in R).
  rewrite (rep_used _ _ _ R' _ _ _ (chunk_at_mid l1 a t _)). apply Forall_app in Hst as [_ Ht]. apply Forall_cons in Ht as [Ht _].
  destruct t; [| | done].
  - simpl. exists h, fls. split_and!; [done | done | done | apply keeps_refl].
  - simpl. destruct (rep_list_remove _ _ _ _ _ R') as (h1 & fls1 & E1 & R1 & K1). rewrite E1. simpl.
    assert (rep h1 ((l1 ++ [(a, Loose)]) ++ (sz, Loose) :: l2) fls1) as R1' by (by rewrite <- app_assoc).
    pose proof (rep_left _ _ _ R1' _ _ _ eq_refl) as El. rewrite last_size_snoc, extent_snoc in El. simpl in El.
    rewrite extent_snoc. rewrite El. replace (extent l1 + a - a) with (extent l1) by lia.
    assert (l1 <> []) as Hne1 by (intros ->; by destruct (rep_first _ _ _ R') as (? & ? & ?)).
    destruct (rep_merge _ _ _ _ _ _ _ _ R1 Hne1) as [R2 K2]; [done | done |]. rewrite (merge_left_field _ _ _ _ _ _ _ _ R1), reverse_involutive.
    exists (merge_chunks (extent l1) (extent l1 + a) h1), fls1. split_and!; try done.
    rewrite <- app_assoc. apply (keeps_trans _ _ h1); [done |]. apply (keeps_mid l1 [_; _] [_; _] l2) with (3 := K2); [done | not_used].
Qed.

Lemma join_right_used l1 sz l2 c z :
  chunk_at (l1 ++ (sz, Loose) :: l2) c z Used ->
  chunk_at (l1 ++ ((join_right sz l2).1, Loose) :: (join_right sz l2).2) c z Used.
Proof.
  destruct l2 as [| [b []] l2]; try done. apply (used_mono_mid l1 [_; _] [_] l2); [simpl; lia | not_used].
Qed.

Lemma join_left_used l1 sz l2 c z :
  chunk_at (l1 ++ (sz, Loose) :: l2) c z Used ->
  chunk_at ((join_left l1 sz).1 ++ ((join_left l1 sz).2, Loose) :: l2) c z Used.
Proof.
  destruct l1 as [| [a t] l1 _] using rev_ind; [done |]. unfold join_left. rewrite reverse_snoc. destruct t; try done.
  simpl. rewrite reverse_involutive, <- app_assoc. apply (used_mono_mid l1 [_; _] [_] l2); [simpl; lia | not_used].
Qed.

Lemma free_chunk_spec h l1 sz l2 fls :
  rep h (l1 ++ (sz, Loose) :: l2) fls -> l1 <> [] -> settled l1 -> settled l2 ->
  ∃ h' fls', free_chunk (extent l1) h = Some h' /\ rep h' (released l1 sz l2) fls' /\ keeps (l1 ++ (sz, Loose) :: l2) h h'.
Proof.
  intros R Hne H1 H2. unfold free_chunk, released. pose proof (join_right_spec _ _ _ _ _ R Hne H2) as HR.
  destruct (join_right sz l2) as [sz1 l2'] eqn:Ej. destruct HR as (h1 & fls1 & E1 & R1 & K1).
  match goal with |- context [mbind _ ?m] => replace m with (Some h1) end. simpl.
  pose proof (join_left_spec _ _ _ _ _ R1 Hne H1) as HL. destruct (join_left l1 sz1) as [l1' sz2] eqn:Ek. destruct HL as (h2 & fls2 & E2 & R2 & Hne2 & K2).
  match goal with |- context [mbind _ ?m] => replace m with (Some (extent l1', h2)) end. simpl.
  destruct (rep_list_add _ _ _ _ _ R2 Hne2) as (h3 & fls3 & E3 & R3 & K3). rewrite E3. exists h3, fls3. split_and!; [done | done |].
  pose proof (join_right_used l1 sz l2) as U1. pose proof (join_left_used l1 sz1 l2') as U2. rewrite Ej in U1. rewrite Ek in U2. simpl in U1, U2.
  apply (keeps_trans _ _ h1); [done |]. apply (keeps_trans _ _ h2); [by apply (keeps_mono _ _ _ _ U1) |].
  eapply keeps_mono; [| exact K3]. auto.
Qed.

Lemma settled_app l1 l2 : settled (l1 ++ l2) <-> settled l1 /\ settled l2.
Proof. unfold settled. by rewrite Forall_app. Qed.

Lemma settled_cons x l : settled (x :: l) <-> x.2 <> Loose /\ settled l.
Proof. unfold settled. by rewrite Forall_cons. Qed.

Lemma released_tidy l1 sz l2 :
  coalesced l1 -> coalesced l2 -> settled l1 -> settled l2 -> coalesced (released l1 sz l2) /\ settled (released l1 sz l2).
Proof.
  intros C1 C2 S1 S2. unfold released.
  assert (∃ sz' l2', join_right sz l2 = (sz', l2') /\ coalesced l2' /\ settled l2' /\ starts_used l2') as (sz1 & l2' & -> & C2' & S2' & U2).
  { destruct l2 as [| [b []] l2]; simpl; eexists _, _; split_and!; try done.
    - by intros ? [= <-].
    - apply coalesced_cons in C2 as [? _]. done.
    - by apply settled_cons in S2 as [_ ?].
    - apply coalesced_cons in C2 as [_ [? | ?]]; done.
    - by apply settled_cons in S2 as [? _]. }
  assert (∃ sz' l1', join_left l1 sz1 = (l1', sz') /\ coalesced l1' /\ settled l1' /\ ends_used l1') as (sz2 & l1' & -> & C1' & S1' & U1).
  { unfold join_left. destruct l1 as [| [a t] l1 _] using rev_ind; [by eexists _, _ |]. rewrite reverse_snoc.
    destruct t; simpl; eexists _, _; split_and!; try done; rewrite ?reverse_involutive.
    - intros x. rewrite last_snoc. by intros [= <-].
    - by apply (coalesced_free l1 a []) in C1 as (? & _).
    - by apply settled_app in S1 as [? _].
    - by apply (coalesced_free l1 a []) in C1 as (_ & _ & ? & _).
    - apply settled_app in S1 as [_ S1]. by apply settled_cons in S1 as [? _]. }
  split; [by apply coalesced_free |]. apply settled_app. split; [done |]. by apply settled_cons.
Qed.

Lemma carved_tidy l1 sz l2 need :
  coalesced (l1 ++ (sz, Free) :: l2) -> settled (l1 ++ (sz, Free) :: l2) ->
  coalesced (l1 ++ (need, Used) :: remainder sz need ++ l2) /\ settled (l1 ++ (need, Used) :: remainder sz need ++ l2).
Proof.
  intros (C1 & C2 & U1 & U2)%coalesced_free (S1 & S2)%settled_app. apply settled_cons in S2 as [_ S2]. split.
  - apply coalesced_used. split; [done |]. unfold remainder. destruct (need <? sz); [| done].
    apply (coalesced_free [] _ l2). split_and!; done.
  - apply settled_app. split; [done |]. apply settled_cons. split; [done |]. apply settled_app. split; [| done].
    unfold remainder. destruct (need <? sz); [| constructor].
    apply settled_cons. split; [done | constructor].
Qed.

(** A pointer given out for the chunk at [c]: [sys_heap_aligned_alloc] may
    place it up to a unit past the start of the chunk's memory. *)
Definition block_of h c (p : Z) : Prop := chunk_mem h c <= p < chunk_mem h c + 8.

Lemma block_chunkid h c p : geometry h -> 0 <= c <= end_chunk h -> block_of h c p -> mem_to_chunkid h p = c.
Proof.
  intros [G1 G2 G3 _] Hc Hp. unfold block_of, chunk_mem, mem_to_chunkid, CHUNK_UNIT in *. rewrite header_bytes_cases in *.
  rewrite wrap_u_id by (destruct (big_heap h); lia). symmetry. apply (Z.div_unique_pos _ _ _ (p - (if big_heap h then 8 else 4) - hbase h - 8 * c)); destruct (big_heap h); lia.
Qed.

Lemma free_rep h l1 sz l2 fls p :
  rep h (l1 ++ (sz, Used) :: l2) fls -> l1 <> [] -> settled l1 -> settled l2 -> block_of h (extent l1) p ->
  ∃ h' fls', sys_heap_free p h = Some h' /\ rep h' (released l1 sz l2) fls' /\ keeps (l1 ++ (sz, Loose) :: l2) h h'.
Proof.
  intros R Hne S1 S2 Hp. pose proof (rep_range _ _ _ R _ _ _ (chunk_at_mid l1 sz Used l2)) as Hr. pose proof (rep_geo _ _ _ R) as G.
  unfold sys_heap_free. rewrite (block_chunkid h (extent l1) p G ltac:(lia) Hp). rewrite (proj2 (Z.eqb_neq p 0)).
  2: { unfold block_of, chunk_mem, CHUNK_UNIT in Hp. rewrite header_bytes_cases in Hp. destruct G. destruct (big_heap h); lia. }
  destruct (rep_mark _ _ _ _ _ _ false R Hne) as [R1 K1]; [done |].
  destruct (free_chunk_spec _ _ _ _ _ R1 Hne S1 S2) as (h' & fls' & E & R' & K'). exists h', fls'. split_and!; [done | done |].
  eapply keeps_trans; [| exact K']. apply (keeps_mid l1 [_] [_] l2) with (3 := K1); [done | not_used].
Qed.

(** ** Aligned allocation *)

Lemma round_up_spec x a g :
  0 < g -> 0 < a -> (g | a) -> (g | x) -> 0 <= x -> x + a <= 2 ^ 32 ->
  (a | ROUND_UP x a) /\ x <= ROUND_UP x a <= x + a - g.
Proof.
  intros Hg Ha [m Hm] [k Hk] Hx Hw. unfold ROUND_UP. rewrite wrap_u_id by lia.
  pose proof (Z.div_mod (x + (a - 1)) a ltac:(lia)) as E. pose proof (Z.mod_pos_bound (x + (a - 1)) a ltac:(lia)) as B.
  set (q := (x + (a - 1)) / a) in *. split; [exists q; lia |]. split; [lia |].
  assert (q * a < x + a) by lia. assert (q * m < k + m) as Hlt by (apply (Z.mul_lt_mono_pos_r g); [done | lia]).
  assert (q * m * g <= (k + m - 1) * g) by (apply Z.mul_le_mono_nonneg_r; lia). lia.
Qed.

(** Where an aligned block lies in the chunk at [c0] that was found for it. *)
Lemma aligned_place h c0 align rew gap bytes sz :
  geometry h -> 0 <= c0 -> c0 + sz <= end_chunk h -> 1 <= bytes -> 0 < gap -> 0 <= rew -> 0 < align ->
  (gap | align) -> (gap | 8) -> (gap | chunk_header_bytes h + rew) ->
  hbase h + 8 * end_chunk h + chunk_header_bytes h + align + rew <= 2 ^ 32 ->
  chunk_header_bytes h + (bytes + align - gap) <= 8 * sz ->
  let mem := ROUND_UP (chunk_mem h c0 + rew) align - rew in
  let c := mem_to_chunkid h mem in
  let c_end := (ROUND_UP (mem + bytes) CHUNK_UNIT - hbase h) / CHUNK_UNIT in
  (align | mem + rew) /\ block_of h c mem /\ c0 <= c < c_end /\ c_end <= c0 + sz /\ mem + bytes <= hbase h + 8 * c_end.
Proof.
  intros [G1 G2 G3 _] Hc0 Hsz Hb Hg Hr Ha Ga G8 Gh Hw Hfit mem c c_end.
  assert (4 <= chunk_header_bytes h) as Hh by (rewrite header_bytes_cases; destruct (big_heap h); lia).
  pose proof (Z.divide_pos_le _ _ Ha Ga) as Hle.
  apply Z.mod_divide in G2 as [k Hk]; [| lia]. unfold chunk_mem, CHUNK_UNIT in mem.
  destruct (round_up_spec (hbase h + 8 * c0 + chunk_header_bytes h + rew) align gap) as (M1 & M2 & M3); try done; try lia.
  { replace (hbase h + 8 * c0 + chunk_header_bytes h + rew) with ((k + c0) * 8 + (chunk_header_bytes h + rew)) by lia.
    apply Z.divide_add_r; [by apply Z.divide_mul_r | done]. }
  set (y := ROUND_UP _ align) in *. replace y with (mem + rew) in M1, M2, M3 by (unfold mem; lia). clearbody mem. clear y.
  destruct (round_up_spec (mem + bytes) 8 1) as ([q Hq] & E2 & E3); try apply Z.divide_1_l; try lia.
  assert (c_end = q - k) as Ece.
  { unfold c_end, CHUNK_UNIT. rewrite Hq, Hk. rewrite <- Z.mul_sub_distr_r. by apply Z.div_mul. }
  assert (c = (mem - chunk_header_bytes h - hbase h) / 8) as Ec by (unfold c, mem_to_chunkid, CHUNK_UNIT; by rewrite wrap_u_id by lia).
  pose proof (Z.div_mod (mem - chunk_header_bytes h - hbase h) 8 ltac:(lia)) as D. pose proof (Z.mod_pos_bound (mem - chunk_header_bytes h - hbase h) 8 ltac:(lia)).
  rewrite <- Ec in D. unfold block_of, chunk_mem, CHUNK_UNIT. split_and!; (done || lia).
Qed.

(** What is cut off before an aligned block. *)
Definition prefix (d : Z) : list chunk := if 0 <? d then [(d, Free)] else [].

Lemma carve_both h l1 sz l2 fls d n :
  rep h (l1 ++ (sz, Loose) :: l2) fls -> l1 <> [] -> 0 <= d -> 1 <= n -> d + n <= sz ->
  let c := extent l1 + d in
  ∃ h1 h2 fls',
    (if extent l1 <? c then free_list_add (extent l1) (split_chunks (extent l1) c h) else Some h) = Some h1 /\
    (if c + n <? right_chunk h1 c then free_list_add (c + n) (split_chunks c (c + n) h1) else Some h1) = Some h2 /\
    rep (set_chunk_used c true h2) (l1 ++ prefix d ++ (n, Used) :: remainder (sz - d) n ++ l2) fls' /\
    keeps (l1 ++ (sz, Loose) :: l2) h (set_chunk_used c true h2).
Proof.
  intros R Hne Hd Hn Hs c.
  assert (∃ h1 fls1, (if extent l1 <? c then free_list_add (extent l1) (split_chunks (extent l1) c h) else Some h) = Some h1 /\
    rep h1 ((l1 ++ prefix d) ++ (sz - d, Loose) :: l2) fls1 /\ keeps (l1 ++ (sz, Loose) :: l2) h h1 /\ extent (l1 ++ prefix d) = c)
    as (h1 & fls1 & E1 & R1 & K1 & Ec).
  { unfold prefix, c. destruct (Z.ltb_spec 0 d) as [Hd0 | Hd0].
    - rewrite (proj2 (Z.ltb_lt (extent l1) (extent l1 + d))) by lia.
      destruct (rep_cut_head _ _ _ _ _ _ d R Hne) as (h1 & fls1 & E1 & R1 & K1); [done | lia |]. exists h1, fls1.
      rewrite extent_snoc, <- app_assoc. split_and!; try done. apply (keeps_mid l1 [_] [_; _] l2) with (3 := K1); [simpl; lia | not_used].
    - replace d with 0 in * by lia. rewrite Z.add_0_r, Z.ltb_irrefl, app_nil_r, Z.sub_0_r. exists h, fls. by split_and!. }
  assert (l1 ++ prefix d <> []) as Hne1 by (by destruct l1).
  destruct (carve_spec h1 (l1 ++ prefix d) (sz - d) l2 fls1 n R1 Hne1) as (h2 & fls2 & E2 & R2 & K2); [lia |]. rewrite Ec in *.
  exists h1, h2, fls2. pose proof (rep_right _ _ _ R1 _ _ _ (chunk_at_mid _ _ _ _)) as Er. rewrite Ec in Er. rewrite Er.
  replace (c + n <? c + (sz - d)) with (n <? sz - d) by (destruct (Z.ltb_spec n (sz - d)), (Z.ltb_spec (c + n) (c + (sz - d))); (done || lia)).
  split_and!; [done | done | by rewrite <- app_assoc in R2 |]. apply (keeps_trans _ _ h1); [done |].
  eapply keeps_mono; [| exact K2]. rewrite <- app_assoc. unfold prefix.
  destruct (Z.ltb_spec 0 d); [apply (used_mono_mid l1 [_] [_; _] l2); [simpl; lia | not_used] |].
  replace d with 0 by lia. by rewrite Z.sub_0_r.
Qed.

(** A block [p] of [bytes] bytes, [rew] bytes before a multiple of [align],
    carved out of a free chunk of [l]: [d] units are cut off before it, [n]
    are used. *)
Definition gave h l (align rew bytes p : Z) h' (l' : list chunk) c (n : Z) : Prop :=
  ∃ l1 sz l2 d fls', l = l1 ++ (sz, Free) :: l2 /\ l1 <> [] /\ 0 <= d /\ d + n <= sz /\ min_size h <= n /\ c = extent l1 + d /\
    l' = l1 ++ prefix d ++ (n, Used) :: remainder (sz - d) n ++ l2 /\ rep h' l' fls' /\ keeps l h h' /\
    (align | p + rew) /\ block_of h c p /\ p + bytes <= hbase h + 8 * (c + n).

Lemma aligned_gap_rep align rew gap bytes h l fls :
  rep h l fls -> 1 <= bytes -> size_too_big h bytes = false -> 0 < gap -> 0 <= rew -> 0 < align ->
  (gap | align) -> (gap | 8) -> (gap | chunk_header_bytes h + rew) ->
  hbase h + 8 * end_chunk h + chunk_header_bytes h + align + rew <= 2 ^ 32 ->
  let need := (chunk_header_bytes h + (bytes + align - gap) + 7) / 8 in
  size_class h need <= size_class h (end_chunk h) ->
  ∃ p h', aligned_alloc_gap align rew gap bytes h = Some (p, h') /\
    ((p = 0 /\ (∃ fls', turned h l h' fls') /\ no_room h l need) \/
     ∃ l' c n, gave h l align rew bytes p h' l' c n).
Proof.
  intros R Hb Hs Hg Hr Ha Ga G8 Gh Hw need Hcl. pose proof (rep_geo _ _ _ R) as G. destruct (geo_bytes h bytes G ltac:(lia) Hs) as [Hb1 _].
  pose proof (Z.divide_pos_le _ _ Ha Ga) as Hle. destruct (need_bounds h (bytes + align - gap)) as [Hn1 Hn2]; [lia |]. fold need in Hn1, Hn2.
  pose proof (geo_aligned _ G) as Hal. pose proof (geo_base _ G) as Hb0. apply Z.mod_divide in Hal as [k Hk]; [| lia].
  assert (chunk_header_bytes h + (bytes + align - gap) + 7 < 2 ^ 32) as Hov by lia.
  assert (4 <= chunk_header_bytes h) as Hh by (rewrite header_bytes_cases; destruct (big_heap h); lia).
  unfold aligned_alloc_gap. rewrite Hs, (proj2 (Z.eqb_neq bytes 0)) by lia. cbn [orb].
  rewrite (wrap_u_id 32 (bytes + align - gap)), need_eq by lia. fold need.
  destruct (alloc_chunk_spec need h l fls R) as (c0 & h1 & -> & [(-> & T & Hno) | (Hc & l' & fls' & T)]); [lia | done | simpl; by eauto 10 |].
  destruct T as (l1 & sz & l2 & -> & -> & Hne & Hsz & -> & R1 & K1). simpl. rewrite (proj2 (Z.eqb_neq (extent l1) 0)) by done.
  pose proof (rep_range _ _ _ R _ _ _ (chunk_at_mid l1 sz Free l2)) as Hr0. pose proof (proj1 K1) as P.
  rewrite (chunk_mem_place h h1 _ P). assert (∀ p, mem_to_chunkid h1 p = mem_to_chunkid h p) as Em.
  { intros. unfold mem_to_chunkid, chunk_header_bytes. rewrite (same_place_big _ _ P). by rewrite (proj1 P). }
  rewrite Em, (proj1 P). destruct (aligned_place h (extent l1) align rew gap bytes sz) as (M1 & M2 & M3 & M4 & M5); try done; try lia.
  set (mem := _ - rew) in *. set (c := mem_to_chunkid h mem) in *. set (c_end := _ / CHUNK_UNIT) in *.
  destruct (carve_both h1 l1 sz l2 fls' (c - extent l1) (c_end - c) R1 Hne) as (h2 & h3 & fls3 & E2 & E3 & R3 & K3); [lia | lia | lia |].
  replace (extent l1 + (c - extent l1)) with c in * by lia. replace (c + (c_end - c)) with c_end in * by lia. rewrite E2. simpl. rewrite E3. simpl.
  exists mem, (set_chunk_used c true h3). split; [done |]. right. eexists _, c, (c_end - c).
  exists l1, sz, l2, (c - extent l1), fls3. replace (c + (c_end - c)) with c_end by lia. split_and!; try done; try lia.
  - unfold block_of, chunk_mem, CHUNK_UNIT in M2. rewrite header_bytes_cases in M2. unfold min_size. destruct (big_heap h); lia.
  - apply (keeps_trans _ _ h1); [done |]. by apply (keeps_toggle l1 sz Loose Free).
Qed.

(** ** The alignment argument *)

Lemma testbit_concat a n r i : 0 <= n -> 0 <= r < 2 ^ n -> 0 <= i ->
  Z.testbit (a * 2 ^ n + r) i = if i <? n then Z.testbit r i else Z.testbit a (i - n).
Proof.
  intros Hn Hr Hi. destruct (Z.ltb_spec i n) as [Hlt | Hge].
  - rewrite <- (Z.mod_pow2_bits_low (a * 2 ^ n + r) n i) by lia. rewrite Z.add_comm, Z_mod_plus_full, Z.mod_small by lia. done.
  - replace i with (i - n + n) at 1 by lia. rewrite <- Z.div_pow2_bits by lia. rewrite Z.div_add_l, Z.div_small by lia. by rewrite Z.add_0_r.
Qed.

(** [x & -x] is the lowest bit of [x]. *)
Lemma lowest_bit m j : 0 <= j -> 0 <= m -> (2 * m + 1) * 2 ^ j < 2 ^ 32 ->
  Z.land ((2 * m + 1) * 2 ^ j) (u32 (- ((2 * m + 1) * 2 ^ j))) = 2 ^ j.
Proof.
  intros Hj Hm Hx. set (x := (2 * m + 1) * 2 ^ j) in *. assert (0 < 2 ^ j) by lia. assert (0 < x) by (unfold x; nia).
  assert (Z.land x (u32 (- x)) = Z.land x (Z.lnot (x - 1))) as ->.
  { apply Z.bits_inj'. intros i Hi. rewrite !Z.land_spec. destruct (Z.ltb_spec i 32).
    - unfold wrap_u. rewrite Z.mod_pow2_bits_low by lia. by replace (Z.lnot (x - 1)) with (- x) by (unfold Z.lnot; lia).
    - by rewrite (testbit_above 32 x i) by lia. }
  assert (2 ^ (j + 1) = 2 * 2 ^ j) as Ej by (rewrite Z.pow_add_r; lia).
  apply Z.bits_inj'. intros i Hi. rewrite Z.land_spec, Z.lnot_spec by lia.
  replace (x - 1) with (m * 2 ^ (j + 1) + (2 ^ j - 1)) by (unfold x; lia). rewrite testbit_concat by lia.
  unfold x. replace ((2 * m + 1) * 2 ^ j) with ((2 * m + 1) * 2 ^ j + 0) by lia. rewrite testbit_concat by lia.
  rewrite Z.pow2_bits_eqb by lia. replace (2 ^ j - 1) with (Z.ones j) by (rewrite Z.ones_equiv; lia).
  destruct (Z.ltb_spec i j), (Z.ltb_spec i (j + 1)), (Z.eqb_spec j i); try lia.
  - by rewrite Z.bits_0.
  - subst i. rewrite Z.sub_diag, Z.ones_spec_high by lia. rewrite Z.bit0_odd, Z.odd_add, Z.odd_mul. done.
  - replace (i - j) with (Z.succ (i - (j + 1))) by lia. rewrite Z.testbit_odd_succ by lia. by destruct (Z.testbit m _).
Qed.

(** What the argument [arg] asks for: nothing, a power of two, or a power of
    two to align to plus a smaller one to step back. *)
Inductive asks : Z -> Z -> Z -> Prop :=
  | asks_any : asks 0 1 0
  | asks_aligned k : 0 <= k < 32 -> asks (2 ^ k) (2 ^ k) 0
  | asks_rewind k j : 0 <= j < k -> k < 32 -> asks (2 ^ k + 2 ^ j) (2 ^ k) (2 ^ j).

(** The extra bytes [sys_heap_aligned_alloc] looks for. *)
Definition padding h (align rew : Z) : Z :=
  if negb (rew =? 0) then align - Z.min rew (chunk_header_bytes h)
  else if align <=? chunk_header_bytes h then 0 else align - chunk_header_bytes h.

Definition request h (align rew bytes : Z) : Z := (chunk_header_bytes h + (bytes + padding h align rew) + 7) / 8.

Lemma asks_pos arg align rew : asks arg align rew -> 0 < align /\ 0 <= rew < align.
Proof. intros [| k Hk | k j Hj Hk]; [lia | lia |]. pose proof (Z.pow_lt_mono_r 2 j k). lia. Qed.

Lemma pow2_le_divides a b : 0 <= a <= b -> (2 ^ a | 2 ^ b).
Proof. intros H. exists (2 ^ (b - a)). rewrite <- Z.pow_add_r by lia. f_equal. lia. Qed.

Lemma header_pow h : ∃ e, 2 <= e <= 3 /\ chunk_header_bytes h = 2 ^ e.
Proof. rewrite header_bytes_cases. destruct (big_heap h); [by exists 3 | by exists 2]. Qed.

Lemma plain_gave bytes align h l fls :
  rep h l fls -> 1 <= bytes -> size_too_big h bytes = false -> (align | 8) -> (align | chunk_header_bytes h) ->
  let need := (chunk_header_bytes h + bytes + 7) / 8 in size_class h need <= size_class h (end_chunk h) ->
  ∃ p h', sys_heap_alloc bytes h = Some (p, h') /\
    ((p = 0 /\ (∃ fls', turned h l h' fls') /\ no_room h l need) \/ ∃ l' c n, gave h l align 0 bytes p h' l' c n).
Proof.
  intros R Hb Hs A8 Ah need Hcl. destruct (alloc_rep bytes h l fls R Hb Hs Hcl) as (p & h' & E & Hcase). exists p, h'. split; [done |].
  destruct Hcase as [? | (l1 & sz & l2 & fls' & -> & Hne & -> & Hsz & R' & K)]; [by left | right].
  destruct (need_bounds h bytes Hb) as [Hn1 Hn2]. fold need in Hsz, Hn1, Hn2, R'.
  eexists _, (extent l1), need. exists l1, sz, l2, 0, fls'. split_and!; try done; try lia.
  - by rewrite Z.sub_0_r.
  - pose proof (geo_aligned _ (rep_geo _ _ _ R)) as Hal. apply Z.mod_divide in Hal as [k Hk]; [| lia]. unfold chunk_mem, CHUNK_UNIT. rewrite Hk.
    replace (k * 8 + 8 * extent l1 + chunk_header_bytes h + 0) with ((k + extent l1) * 8 + chunk_header_bytes h) by lia.
    apply Z.divide_add_r; [by apply Z.divide_mul_r | done].
  - unfold block_of. lia.
  - unfold chunk_mem, CHUNK_UNIT. lia.
Qed.

Lemma aligned_alloc_rep arg align rew bytes h l fls :
  rep h l fls -> asks arg align rew -> 1 <= bytes -> size_too_big h bytes = false ->
  hbase h + 8 * end_chunk h + chunk_header_bytes h + arg <= 2 ^ 32 ->
  size_class h (request h align rew bytes) <= size_class h (end_chunk h) ->
  ∃ p h', sys_heap_aligned_alloc arg bytes h = Some (p, h') /\
    ((p = 0 /\ (∃ fls', turned h l h' fls') /\ no_room h l (request h align rew bytes)) \/ ∃ l' c n, gave h l align rew bytes p h' l' c n).
Proof.
  intros R Hask Hb Hs Hw Hcl. destruct (header_pow h) as (e & He & Eh). unfold sys_heap_aligned_alloc.
  pose proof (geo_base _ (rep_geo _ _ _ R)) as Hb0. assert (0 <= end_chunk h) as He0 by (rewrite <- (rep_extent _ _ _ R); apply extent_nonneg, R).
  assert (4 <= chunk_header_bytes h <= 8) as Hh by (rewrite header_bytes_cases; destruct (big_heap h); lia).
  unfold request, padding in *. destruct Hask as [| k Hk | k j Hj Hk].
  - change (Z.land 0 (u32 (- 0))) with 0. cbn [Z.eqb negb]. rewrite (proj2 (Z.leb_le 0 (chunk_header_bytes h))) by lia.
    cbn [Z.eqb negb] in *. rewrite (proj2 (Z.leb_le 1 (chunk_header_bytes h))), Z.add_0_r in * by lia.
    apply (plain_gave bytes 1 h l fls); try done; apply Z.divide_1_l.
  - pose proof (lowest_bit 0 k) as Hl. rewrite Z.mul_0_r, Z.add_0_l, Z.mul_1_l in Hl. rewrite Hl, Z.eqb_refl by lia. cbn [negb Z.eqb] in *.
    destruct (Z.leb_spec (2 ^ k) (chunk_header_bytes h)) as [Hle | Hgt].
    + rewrite Z.add_0_r in *. assert (k <= e) by (apply (Z.pow_le_mono_r_iff 2); lia).
      apply (plain_gave bytes (2 ^ k) h l fls); try done; [change 8 with (2 ^ 3) | rewrite Eh]; apply pow2_le_divides; lia.
    + assert (e <= k) by (apply (Z.pow_le_mono_r_iff 2); lia). replace (bytes + (2 ^ k - chunk_header_bytes h)) with (bytes + 2 ^ k - chunk_header_bytes h) in * by lia.
      apply (aligned_gap_rep (2 ^ k) 0 (chunk_header_bytes h) bytes h l fls); try done; try lia.
      * rewrite Eh. apply pow2_le_divides. lia.
      * rewrite Eh. change 8 with (2 ^ 3). apply pow2_le_divides. lia.
      * rewrite Z.add_0_r. apply Z.divide_refl.
  - assert (2 ^ k + 2 ^ j = (2 * 2 ^ (k - j - 1) + 1) * 2 ^ j) as Ex.
    { rewrite Z.mul_add_distr_r. rewrite <- Z.pow_succ_r, <- Z.pow_add_r by lia. replace (Z.succ (k - j - 1) + j) with k by lia. lia. }
    pose proof (lowest_bit (2 ^ (k - j - 1)) j) as Hl. rewrite <- Ex in Hl. rewrite Hl by lia. assert (0 < 2 ^ k /\ 0 < 2 ^ j) as [Hk0 Hj0] by lia.
    rewrite (proj2 (Z.eqb_neq (2 ^ k + 2 ^ j) (2 ^ j))), (proj2 (Z.eqb_neq (2 ^ j) 0)) in * by lia. cbn [negb] in *.
    assert (Z.min (2 ^ j) (chunk_header_bytes h) = 2 ^ Z.min j e) as Em.
    { rewrite Eh. destruct (Z.min_spec j e) as [[? ->] | [? ->]]; [apply Z.min_l | apply Z.min_r]; apply Z.pow_le_mono_r; lia. }
    replace (bytes + (2 ^ k - Z.min (2 ^ j) (chunk_header_bytes h))) with (bytes + 2 ^ k - Z.min (2 ^ j) (chunk_header_bytes h)) in * by lia.
    replace (2 ^ k + 2 ^ j - 2 ^ j) with (2 ^ k) by lia.
    apply (aligned_gap_rep (2 ^ k) (2 ^ j) (Z.min (2 ^ j) (chunk_header_bytes h)) bytes h l fls); try done; try lia; rewrite Em.
    + apply pow2_le_divides. lia.
    + change 8 with (2 ^ 3). apply pow2_le_divides. lia.
    + rewrite Eh. apply Z.divide_add_r; apply pow2_le_divides; lia.
Qed.

End Spec.
