(* ===== verification/HeapClient.v ===== *)
(** * The heap allocator and its clients

    Resizing, initialisation, and the contract of the allocator: whatever
    calls a client makes, each block it holds keeps its contents, blocks do not
    overlap, and when all are freed the heap is one free chunk again. *)

From Stdlib Require Import ZArith Lia Bool.
From stdpp Require Import base numbers list sets gmap.
From S2P Require Import Prelude MathExtras Memory Heap HeapInv HeapSpec.

Open Scope Z_scope.

Ltac not_used := simpl; intros; intuition (congruence || lia).

Section Client.
Context {cfg : HeapConfig}.
Implicit Types (h : z_heap) (l : list chunk) (c : Z).

(** ** Resizing in place *)

Lemma realloc_shrink h l1 sz l2 fls a :
  rep h (l1 ++ (sz, Used) :: l2) fls -> l1 <> [] -> settled l1 -> settled l2 -> 1 <= a < sz ->
  ∃ h' fls', free_chunk (extent l1 + a) (set_chunk_used (extent l1) true (split_chunks (extent l1) (extent l1 + a) h)) = Some h' /\
    rep h' (l1 ++ (a, Used) :: released [] (sz - a) l2) fls' /\ keeps (l1 ++ (a, Used) :: (sz - a, Loose) :: l2) h h'.
Proof.
  intros R Hne S1 S2 Ha. destruct (split_rep _ _ _ _ _ _ a R Hne) as [R1 K1]; [done | done |]. set (h1 := split_chunks _ _ h) in *.
  destruct (rep_mark _ _ _ _ _ _ true R1 Hne) as [R2 K2]; [done |]. set (h2 := set_chunk_used _ _ h1) in *. simpl in R2.
  assert (rep h2 ((l1 ++ [(a, Used)]) ++ (sz - a, Loose) :: l2) fls) as R2' by (by rewrite <- app_assoc).
  destruct (free_chunk_spec _ _ _ _ _ R2') as (h' & fls' & E & R' & K'); [by destruct l1 | apply settled_app; split; [done | by repeat constructor] | done |].
  rewrite extent_snoc in E. exists h', fls'. split; [done |]. split.
  - assert (released (l1 ++ [(a, Used)]) (sz - a) l2 = l1 ++ (a, Used) :: released [] (sz - a) l2) as <-; [| done].
    unfold released. destruct (join_right (sz - a) l2) as [z m]. unfold join_left. rewrite reverse_snoc. simpl. by rewrite <- app_assoc.
  - rewrite <- app_assoc in K'. apply (keeps_trans _ _ h1); [apply (keeps_mid l1 [_; _] [_; _] l2) with (3 := K1); [done | not_used] |].
    apply (keeps_trans _ _ h2); [| exact K']. apply (keeps_mid l1 [_; _] [_; _] l2) with (3 := K2); [done | not_used].
Qed.

Lemma realloc_grow h l1 sz b l2 fls need :
  rep h (l1 ++ (sz, Used) :: (b, Free) :: l2) fls -> l1 <> [] -> sz < need <= sz + b ->
  let c := extent l1 in let rc := extent l1 + sz in
  ∃ h1 h2 fls', free_list_remove rc h = Some h1 /\ chunk_size h1 rc = b /\
    (if need - sz <? b then free_list_add (rc + (need - sz)) (split_chunks rc (rc + (need - sz)) h1) else Some h1) = Some h2 /\
    rep (set_chunk_used c true (merge_chunks c rc h2)) (l1 ++ (need, Used) :: remainder (sz + b) need ++ l2) fls' /\
    keeps (l1 ++ (sz, Used) :: (b, Free) :: l2) h (set_chunk_used c true (merge_chunks c rc h2)).
Proof.
  intros R Hne Hn c rc. assert (rep h ((l1 ++ [(sz, Used)]) ++ (b, Free) :: l2) fls) as R' by (by rewrite <- app_assoc).
  destruct (rep_list_remove _ _ _ _ _ R') as (h1 & fls1 & E1 & R1 & K1). rewrite extent_snoc in E1. fold rc in E1.
  pose proof (rep_size _ _ _ R1 _ _ _ (chunk_at_mid _ _ _ _)) as Ez. rewrite extent_snoc in Ez. fold rc in Ez.
  assert (∃ h2 fls2, (if need - sz <? b then free_list_add (rc + (need - sz)) (split_chunks rc (rc + (need - sz)) h1) else Some h1) = Some h2 /\
    rep h2 (l1 ++ (sz, Used) :: (need - sz, Loose) :: remainder (sz + b) need ++ l2) fls2 /\ keeps (l1 ++ (sz, Used) :: (b, Loose) :: l2) h1 h2)
    as (h2 & fls2 & E2 & R2 & K2).
  { unfold remainder. destruct (Z.ltb_spec (need - sz) b) as [Hlt | Hge].
    - rewrite (proj2 (Z.ltb_lt need (sz + b))) by lia. destruct (rep_cut_tail _ _ _ _ _ _ (need - sz) R1) as (h2 & fls2 & E2 & R2 & K2); [by destruct l1 | done | lia |].
      rewrite extent_snoc in E2. fold rc in E2. exists h2, fls2. rewrite <- app_assoc in R2, K2. replace (sz + b - need) with (b - (need - sz)) by lia. split_and!; try done.
      apply (keeps_mid l1 [_; _] [_; _; _] l2) with (3 := K2); [simpl; lia | not_used].
    - rewrite (proj2 (Z.ltb_ge need (sz + b))) by lia. replace (need - sz) with b by lia. exists h1, fls1. rewrite <- app_assoc in R1. by split_and!. }
  destruct (rep_merge _ _ _ _ _ _ _ _ R2 Hne) as [R3 K3]; [done | done |]. fold c rc in R3, K3. set (h3 := merge_chunks c rc h2) in *.
  replace (sz + (need - sz)) with need in R3 by lia.
  destruct (rep_mark _ _ _ _ _ _ true R3 Hne) as [R4 K4]; [done |]. exists h1, h2, fls2. split_and!; try done.
  rewrite <- app_assoc in K1. apply (keeps_trans _ _ h1); [exact K1 |].
  apply (keeps_trans _ _ h2); [apply (keeps_mid l1 [_; _] [_; _] l2) with (3 := K2); [simpl; lia | not_used] |].
  apply (keeps_trans _ _ h3).
  - apply (keeps_mid l1 [_; _] ((sz, Used) :: (need - sz, Used) :: remainder (sz + b) need) l2) with (3 := K3); [| not_used].
    simpl. rewrite extent_remainder; lia.
  - eapply keeps_wide; [| exact K4]. intros c' z Hc. apply chunk_at_app in Hc as [Hc | [[E Hc] | [[_ Hc] | Hc]]]; [| | done |].
    + exists z. split; [apply chunk_at_app; by left | lia].
    + injection Hc as <-. exists need. split; [apply chunk_at_app; right; by left | lia].
    + exists z. split; [| lia]. apply chunk_at_app. right. right. apply chunk_at_app. right. simpl. rewrite extent_remainder by lia.
      by replace (c' - extent l1 - need - (sz + b - need)) with (c' - extent l1 - sz - b) by lia.
Qed.

(** ** Which chunks are used *)

Lemma used_others l1 sz s l2 x z :
  sized (l1 ++ (sz, s) :: l2) ->
  chunk_at (l1 ++ (sz, Loose) :: l2) x z Used <-> chunk_at (l1 ++ (sz, s) :: l2) x z Used /\ x <> extent l1.
Proof.
  intros Hs. apply sized_app in Hs as [H1 H2]. apply sized_cons in H2 as [Hz H2]. rewrite !chunk_at_app. simpl in *. split.
  - intros [H | [[_ E] | H]]; [| done |].
    + split; [by left |]. apply chunk_at_range in H; [lia | done].
    + split; [by right; right |]. apply chunk_at_range in H; [lia | done].
  - intros [[H | [[? _] | H]] Hne]; [by left | lia | by right; right].
Qed.

Lemma used_mid_iff l1 A B l2 :
  extent A = extent B -> (∀ x z, chunk_at A x z Used <-> chunk_at B x z Used) ->
  ∀ x z, chunk_at (l1 ++ A ++ l2) x z Used <-> chunk_at (l1 ++ B ++ l2) x z Used.
Proof. intros He HA x z. rewrite !chunk_at_app, He, HA. done. Qed.

Lemma released_used l1 sz l2 x z : chunk_at (released l1 sz l2) x z Used <-> chunk_at (l1 ++ (sz, Loose) :: l2) x z Used.
Proof.
  assert (∀ x z, chunk_at (l1 ++ ((join_right sz l2).1, Loose) :: (join_right sz l2).2) x z Used <-> chunk_at (l1 ++ (sz, Loose) :: l2) x z Used) as Hr.
  { destruct l2 as [| [b []] l2]; try done. apply (used_mid_iff l1 [_] [_; _] l2); [simpl; lia | not_used]. }
  unfold released. destruct (join_right sz l2) as [sz' l2']. simpl in Hr.
  rewrite <- Hr. unfold join_left. destruct l1 as [| [a t] l1 _] using rev_ind; [simpl; intuition congruence |]. rewrite reverse_snoc.
  destruct t; [rewrite !chunk_at_app; simpl; intuition congruence | | rewrite !chunk_at_app; simpl; intuition congruence].
  rewrite reverse_involutive, <- app_assoc. apply (used_mid_iff l1 [_] [_; _] l2'); [simpl; lia | not_used].
Qed.

Lemma remainder_free sz need x z : ~ chunk_at (remainder sz need) x z Used.
Proof. unfold remainder. destruct (need <? sz); [| by intros []]. simpl. intros [[_ ?] | []]. done. Qed.

Lemma prefix_free d x z : ~ chunk_at (prefix d) x z Used.
Proof. unfold prefix. destruct (0 <? d); [| by intros []]. simpl. intros [[_ ?] | []]. done. Qed.

Lemma extent_prefix d : 0 <= d -> extent (prefix d) = d.
Proof. intros H. unfold prefix. destruct (Z.ltb_spec 0 d); simpl; lia. Qed.

Lemma gave_used h l align rew bytes p h' l' c n x z :
  gave h l align rew bytes p h' l' c n -> chunk_at l' x z Used <-> chunk_at l x z Used \/ (x = c /\ z = n).
Proof.
  intros (l1 & sz & l2 & d & fls' & -> & _ & Hd & Hn & _ & -> & -> & _). rewrite !chunk_at_app. simpl. rewrite chunk_at_app, extent_prefix by done.
  rewrite extent_remainder by lia. pose proof (prefix_free d (x - extent l1) z). pose proof (remainder_free (sz - d) n (x - extent l1 - d - n) z).
  replace (x - extent l1 - d - n - (sz - d - n)) with (x - extent l1 - sz) by lia. split.
  - intros [? | [? | [[? E] | [? | ?]]]]; try done; [by left; left | injection E as ->; right; lia | left; right; by right].
  - intros [[? | [[_ ?] | ?]] | [-> ->]]; [by left | done | by right; right; right; right |]. right. right. left. split; [lia | done].
Qed.

Lemma gave_fresh h l fls align rew bytes p h' l' c n :
  rep h l fls -> gave h l align rew bytes p h' l' c n -> 0 < c /\ ∀ x z, chunk_at l x z Used -> x <> c.
Proof.
  intros R (l1 & sz & l2 & d & fls' & -> & _ & Hd & Hn & Hm & -> & _). pose proof (chunk_at_mid l1 sz Free l2) as Hf.
  pose proof (rep_free_pos _ _ _ R _ _ _ Hf) as Hpos. split; [specialize (Hpos ltac:(done)); lia |]. intros x z Hx ->.
  pose proof (rep_range _ _ _ R _ _ _ Hx) as Hr. assert (1 <= n) by (unfold min_size in Hm; destruct (big_heap h); lia).
  destruct (chunk_at_apart _ _ _ _ _ _ _ (rep_sized _ _ _ R) Hx Hf) as [(_ & _ & ?) | ?]; [done | lia].
Qed.

Lemma gave_tidy h l align rew bytes p h' l' c n :
  coalesced l -> settled l -> gave h l align rew bytes p h' l' c n -> coalesced l' /\ settled l'.
Proof.
  intros Hc Hs (l1 & sz & l2 & d & fls' & -> & _ & Hd & Hn & _ & -> & -> & _).
  apply coalesced_free in Hc as (C1 & C2 & U1 & U2). apply settled_app in Hs as [S1 S2]. apply settled_cons in S2 as [_ S2]. rewrite app_assoc. split.
  - apply coalesced_used. split.
    + unfold prefix. destruct (0 <? d); [| by rewrite app_nil_r]. by apply coalesced_free.
    + unfold remainder. destruct (n <? sz - d); [| done]. by apply (coalesced_free [] _ l2).
  - rewrite !settled_app, settled_cons, settled_app. split_and!; try done.
    + unfold prefix. destruct (0 <? d); by repeat constructor.
    + unfold remainder. destruct (n <? sz - d); by repeat constructor.
Qed.

(** ** Resizing *)

(** Memory outside the heap and of the used chunks but [c] is unchanged. *)
Definition spares l c h h' : Prop :=
  same_place h h' /\
  ∀ y, (y < hbase h \/ hbase h + 8 * end_chunk h + chunk_header_bytes h <= y \/
        ∃ x z, chunk_at l x z Used /\ x <> c /\ chunk_mem h x <= y < hbase h + 8 * (x + z)) -> hmem h' y = hmem h y.

Lemma keeps_spares l1 sz s l2 h h' :
  sized (l1 ++ (sz, s) :: l2) -> keeps (l1 ++ (sz, Loose) :: l2) h h' -> spares (l1 ++ (sz, s) :: l2) (extent l1) h h'.
Proof.
  intros Hs [P K]. split; [done |]. intros y Hy. apply K. destruct Hy as [? | [? | (x & z & Hx & Hne & Hy)]]; [by left | by right; left |].
  right. right. exists x, z. split; [by eapply used_others | done].
Qed.

(** The block [ptr] in the chunk [c] of [sz] units has become the block [p]
    in the chunk [c'] of [n] units, with its contents. *)
Definition resized h l c (sz ptr align bytes p : Z) h' (l' : list chunk) c' (n : Z) : Prop :=
  (∀ x z, chunk_at l' x z Used <-> (chunk_at l x z Used /\ x <> c) \/ (x = c' /\ z = n)) /\
  (∀ x z, chunk_at l x z Used -> x <> c -> x <> c') /\ 0 < c' /\ block_of h c' p /\ p + bytes <= hbase h + 8 * (c' + n) /\ (align | p) /\ spares l c h h' /\
  ∀ i, 0 <= i < Z.min bytes (hbase h + 8 * (c + sz) - ptr) -> hmem h' (p + i) = hmem h (ptr + i).

Section Block.
Context h l1 (sz : Z) l2 (ptr align bytes : Z).
Context (Hp : block_of h (extent l1) ptr) (Ha : (align | ptr)) (Hb : 1 <= bytes).

Let l := l1 ++ (sz, Used) :: l2.
Let need := (chunk_header_bytes h + (bytes + (ptr - chunk_mem h (extent l1))) + 7) / 8.

Lemma need_covers : min_size h <= need /\ ptr + bytes <= hbase h + 8 * (extent l1 + need).
Proof.
  unfold block_of in Hp. destruct (need_bounds h (bytes + (ptr - chunk_mem h (extent l1)))) as [Hn1 Hn2]; [lia |]. fold need in Hn1, Hn2.
  split; [done |]. unfold chunk_mem, CHUNK_UNIT in *. lia.
Qed.

(** The block stays and its chunk becomes [n] units long. *)
Lemma resized_in_place h' l' n :
  0 < extent l1 -> same_place h h' -> (∀ x z, chunk_at l' x z Used <-> (chunk_at l x z Used /\ x <> extent l1) \/ (x = extent l1 /\ z = n)) -> need <= n ->
  (∀ y, protected (l1 ++ (Z.min n sz, Used) :: (sz - Z.min n sz, Loose) :: l2) h y -> hmem h' y = hmem h y) ->
  resized h l (extent l1) sz ptr align bytes ptr h' l' (extent l1) n.
Proof.
  intros Hpos P Hu Hn K. destruct need_covers as [_ Hc]. split_and!; try done; [lia | |].
  - split; [done |]. intros y Hy. apply K. destruct Hy as [? | [? | (x & z & Hx & Hne' & Hy)]]; [by left | by right; left |].
    right. right. exists x, z. split; [| done]. unfold l in Hx. rewrite !chunk_at_app in *. simpl in *.
    destruct Hx as [? | [[? _] | Hx]]; [by left | lia |]. right. right. right.
    by replace (x - extent l1 - Z.min n sz - (sz - Z.min n sz)) with (x - extent l1 - sz) by lia.
  - intros i Hi. apply K. right. right. exists (extent l1), (Z.min n sz). split; [apply chunk_at_mid |]. unfold block_of in Hp. lia.
Qed.

End Block.

Lemma move_copy h l fls align bytes p h1 l' c' n c sz ptr :
  rep h l fls -> coalesced l -> settled l -> chunk_at l c sz Used -> 0 < c -> block_of h c ptr -> ptr <= hbase h + 8 * (c + sz) -> 1 <= bytes ->
  gave h l align 0 bytes p h1 l' c' n ->
  let k := Z.min (hbase h + 8 * (c + sz) - ptr) bytes in
  ∃ h' fls' l'', sys_heap_free ptr (set_hmem (memcpy p ptr (Z.to_nat k) (hmem h1)) h1) = Some h' /\
    rep h' l'' fls' /\ coalesced l'' /\ settled l'' /\ resized h l c sz ptr align bytes p h' l'' c' n.
Proof.
  intros R Hco Hse Hc Hc0 Hp Hpe Hb G k. destruct (gave_tidy _ _ _ _ _ _ _ _ _ _ Hco Hse G) as [C' S'].
  assert (∀ x z, chunk_at l' x z Used <-> chunk_at l x z Used \/ (x = c' /\ z = n)) as U by (intros; by eapply gave_used).
  destruct (gave_fresh _ _ _ _ _ _ _ _ _ _ _ R G) as [Hpos Hfresh].
  destruct G as (l1 & sz0 & l2 & d & fls1 & El & Hne & Hd & Hdn & Hmn & Ec' & _ & R1 & K1 & Hal & Hblk & Hfit).
  assert (chunk_at l' c' n Used) as Hc' by (apply U; by right). assert (chunk_at l' c sz Used) as Hcl' by (apply U; by left).
  pose proof (rep_range _ _ _ R _ _ _ Hc) as Hr. pose proof (rep_range _ _ _ R1 _ _ _ Hc') as Hr'. pose proof (proj1 K1) as P1.
  pose proof (not_eq_sym (Hfresh _ _ Hc)) as Hcc.
  assert (0 <= k <= bytes) as Hk by (unfold k; lia).
  set (h2 := set_hmem _ h1). assert (rep h2 l' fls1) as R2.
  { unfold h2, memcpy. apply (rep_payload h1 l' fls1 c' n); [done | done | | rewrite read_bytes_length, Z2Nat.id by lia; rewrite (proj1 P1); lia].
    rewrite (chunk_mem_place _ _ _ P1). apply Hblk. }
  apply chunk_at_split in Hcl' as (m1 & m2 & Em & <-). assert (m1 <> []) as Hm1 by (intros ->; simpl in Hc0; lia).
  rewrite Em in R2, C', S'. apply coalesced_used in C' as [C1 C2]. apply settled_app in S' as [S1 S2]. apply settled_cons in S2 as [_ S2].
  destruct (free_rep h2 m1 sz m2 fls1 ptr R2 Hm1 S1 S2) as (h' & fls' & E & R' & K').
  { unfold block_of in *. by rewrite (chunk_mem_place h h2). }
  exists h', fls', (released m1 sz m2). destruct (released_tidy m1 sz m2 C1 C2 S1 S2) as [C'' S'']. split_and!; try done.
  assert (∀ x z, chunk_at (m1 ++ (sz, Loose) :: m2) x z Used <-> chunk_at l' x z Used /\ x <> extent m1) as U'.
  { intros x z. rewrite Em. apply used_others. apply R2. }
  assert (same_place h h2) as P2 by done. assert (same_place h h') as P' by (destruct P2, (proj1 K'); split; congruence).
  assert (∀ y, y < p \/ p + k <= y -> hmem h2 y = hmem h1 y) as Hw.
  { intros y Hy. unfold h2, memcpy. cbn [hmem set_hmem]. apply write_bytes_out. rewrite read_bytes_length. lia. }
  assert (chunk_mem h c' <= p) as Hpm by apply Hblk.
  split_and!; try done.
  - intros x z. rewrite released_used, U', U. naive_solver.
  - intros x z Hx _. by apply (Hfresh x z).
  - by rewrite Z.add_0_r in Hal.
  - split; [done |]. intros y Hy. transitivity (hmem h2 y); [apply K', (protected_place _ h h2 _ P2) | transitivity (hmem h1 y); [apply Hw | apply K1]].
    + destruct Hy as [? | [? | (x & z & Hx & Hxc & Hy)]]; [by left | by right; left |]. right. right. exists x, z. split; [| done]. apply U'. split; [| done]. apply U. by left.
    + destruct Hy as [? | [? | (x & z & Hx & Hxc & Hy)]].
      * unfold chunk_mem, CHUNK_UNIT in Hpm. rewrite header_bytes_cases in Hpm. destruct (big_heap h); lia.
      * rewrite (proj2 P1) in Hr'. rewrite header_bytes_cases in *. destruct (big_heap h); lia.
      * assert (chunk_at l' x z Used) as Hx' by (apply U; by left).
        destruct (chunk_at_apart _ _ _ _ _ _ _ (rep_sized _ _ _ R1) Hx' Hc') as [(-> & -> & _) | Hap].
        { by destruct (Hfresh _ _ Hx). }
        unfold chunk_mem, CHUNK_UNIT in *. rewrite header_bytes_cases in *. destruct (big_heap h); lia.
    + destruct Hy as [? | [? | (x & z & Hx & Hxc & Hy)]]; [by left | by right; left |]. right. right. by exists x, z.
  - intros i Hi. transitivity (hmem h2 (p + i)).
    + apply K', (protected_place _ h h2 _ P2). right. right. exists c', n. split; [apply U'; by split | lia].
    + transitivity (hmem h1 (ptr + i)).
      * apply memcpy_at. unfold k. lia.
      * apply K1. right. right. exists (extent m1), sz. split; [done |]. unfold block_of in Hp. lia.
Qed.

Lemma asks_plain arg align rew : asks arg align rew -> rew = 0 -> arg = 0 /\ align = 1 \/ ∃ k, 0 <= k < 32 /\ arg = 2 ^ k /\ align = 2 ^ k.
Proof. intros [| k Hk | k j Hj Hk] E; [by left | right; by exists k | lia]. Qed.

(** The test for a misaligned pointer. *)
Lemma aligned_test arg align ptr :
  asks arg align 0 -> negb (arg =? 0) && negb (Z.land ptr (arg - 1) =? 0) = false <-> (align | ptr).
Proof.
  intros [[-> ->] | (k & Hk & -> & ->)]%asks_plain; [| | done]; cbn [negb andb Z.eqb].
  - split; [intros _; apply Z.divide_1_l | done].
  - rewrite (proj2 (Z.eqb_neq (2 ^ k) 0)) by lia. cbn [negb andb].
    replace (2 ^ k - 1) with (Z.ones k) by (rewrite Z.ones_equiv; lia). rewrite Z.land_ones by lia.
    rewrite negb_false_iff, Z.eqb_eq. apply Z.mod_divide. lia.
Qed.

Section Realloc.
Context h l fls c (sz ptr arg align bytes : Z) (Hinv : heap_inv h l fls) (Hc : chunk_at l c sz Used) (Hc0 : 0 < c).
Context (Hp : block_of h c ptr) (Hpe : ptr <= hbase h + 8 * (c + sz)) (Hask : asks arg align 0) (Hb : 1 <= bytes).
Context (Hs : size_too_big h bytes = false) (Hw : hbase h + 8 * end_chunk h + chunk_header_bytes h + arg <= 2 ^ 32).
Context (Hcl : size_class h (request h align 0 bytes) <= size_class h (end_chunk h)).

Definition realloc_post (p : Z) h' : Prop :=
  (p = 0 /\ (∃ fls', turned h l h' fls') /\ no_room h l (request h align 0 bytes)) \/
  ∃ l' fls' c' n, heap_inv h' l' fls' /\ resized h l c sz ptr align bytes p h' l' c' n.

Lemma move_post : ∃ p h', realloc_move c ptr (ptr - chunk_mem h c) arg bytes h = Some (p, h') /\ realloc_post p h'.
Proof.
  destruct Hinv as (R & Hco & Hse). unfold realloc_move.
  destruct (aligned_alloc_rep arg align 0 bytes h l fls R Hask Hb Hs Hw Hcl) as (p & h1 & -> & [(-> & T & Hno) | (l' & c' & n & G)]); simpl.
  { exists 0, h1. split; [done |]. by left. }
  pose proof (gave_used _ _ _ _ _ _ _ _ _ _ c sz G) as [_ U].
  pose proof G as (l1 & sz0 & l2 & d & fls1 & El & Hne & Hd & Hdn & Hmn & Ec' & _ & R1 & K1 & _ & Hblk & _).
  assert (chunk_at l' c sz Used) as Hc' by (apply U; by left). pose proof (rep_range _ _ _ R1 _ _ _ Hc') as Hr. pose proof (rep_end_bounds _ _ _ R1) as He.
  assert (4 <= chunk_header_bytes h <= 8) as Hh by (rewrite header_bytes_cases; destruct (big_heap h); lia). pose proof (geo_base _ (rep_geo _ _ _ R)) as Hb0.
  rewrite (proj2 (Z.eqb_neq p 0)). 2: { unfold block_of, chunk_mem, CHUNK_UNIT in Hblk. pose proof (rep_sized _ _ _ R) as Hz.
    rewrite El in Hz. apply sized_app in Hz as [Hz _]. pose proof (extent_nonneg l1 Hz). lia. }
  cbn [negb]. assert (chunk_header_bytes h1 = chunk_header_bytes h) as Eh by (unfold chunk_header_bytes; by rewrite (same_place_big _ _ (proj1 K1))).
  unfold chunksz_to_bytes, CHUNK_UNIT. rewrite (rep_size _ _ _ R1 _ _ _ Hc'), Eh.
  assert (u32 (u32 (sz * 8 - chunk_header_bytes h) - (ptr - chunk_mem h c)) = hbase h + 8 * (c + sz) - ptr) as ->.
  { unfold block_of, chunk_mem, CHUNK_UNIT in *. rewrite (wrap_u_id 32 (sz * 8 - chunk_header_bytes h)) by lia. rewrite wrap_u_id by lia. lia. }
  destruct (move_copy _ _ _ _ _ _ _ _ _ _ _ _ _ R Hco Hse Hc Hc0 Hp Hpe Hb G) as (h' & fls' & l'' & -> & R' & C' & S' & HR). simpl.
  exists p, h'. split; [done |]. right. by exists l'', fls', c', n.
Qed.

Lemma shrink_post l1 l2 need :
  l = l1 ++ (sz, Used) :: l2 -> c = extent l1 -> (align | ptr) ->
  need = (chunk_header_bytes h + (bytes + (ptr - chunk_mem h c)) + 7) / 8 -> need < sz ->
  ∃ h', free_chunk (c + need) (set_chunk_used c true (split_chunks c (c + need) h)) = Some h' /\ realloc_post ptr h'.
Proof.
  intros El Ec Ha En Hlt. pose proof Hinv as (R & Hco & Hse). rewrite El in R, Hco, Hse. rewrite Ec in *.
  assert (l1 <> []) as Hne by (intros ->; simpl in Hc0; lia).
  apply coalesced_used in Hco as [C1 C2]. apply settled_app in Hse as [S1 S2]. apply settled_cons in S2 as [_ S2].
  destruct (need_covers h l1 ptr bytes Hp Hb) as [Hn1 Hn2]. rewrite <- En in Hn1, Hn2.
  assert (1 <= min_size h) by (unfold min_size; destruct (big_heap h); lia).
  destruct (realloc_shrink h l1 sz l2 fls need R Hne S1 S2) as (h' & fls' & E & R' & K); [lia |]. exists h'. split; [done |]. right.
  destruct (released_tidy [] (sz - need) l2) as [C' S']; [done | done | constructor | done |].
  exists (l1 ++ (need, Used) :: released [] (sz - need) l2), fls', (extent l1), need. split.
  { split; [done |]. split; [by apply coalesced_used |]. apply settled_app. split; [done |]. by apply settled_cons. }
  rewrite El, Ec. apply (resized_in_place h l1 sz l2 ptr align bytes Hp Ha Hb); [done | apply K | | lia |].
  - intros x z. rewrite <- used_others by apply R. rewrite !chunk_at_app. simpl. rewrite (released_used [] (sz - need) l2). simpl.
    replace (x - extent l1 - need - (sz - need)) with (x - extent l1 - sz) by lia. split.
    + intros [? | [[? [= ->]] | [[_ ?] | ?]]]; [by left; left | right; lia | done | by left; right; right].
    + intros [[? | [[_ ?] | ?]] | [-> ->]]; [by left | done | by right; right; right |]. right. left. split; [lia | done].
  - rewrite Z.min_l by lia. apply K.
Qed.

Lemma grow_post l1 b l2 need :
  l = l1 ++ (sz, Used) :: (b, Free) :: l2 -> c = extent l1 -> (align | ptr) ->
  need = (chunk_header_bytes h + (bytes + (ptr - chunk_mem h c)) + 7) / 8 -> sz < need <= sz + b ->
  let rc := c + sz in
  ∃ h1 h2, free_list_remove rc h = Some h1 /\ chunk_size h1 rc = b /\
    (if need - sz <? b then free_list_add (rc + (need - sz)) (split_chunks rc (rc + (need - sz)) h1) else Some h1) = Some h2 /\
    realloc_post ptr (set_chunk_used c true (merge_chunks c rc h2)).
Proof.
  intros El Ec Ha En Hn rc. pose proof Hinv as (R & Hco & Hse). rewrite El in R, Hco, Hse. subst rc. rewrite Ec in *.
  assert (l1 <> []) as Hne by (intros ->; simpl in Hc0; lia).
  apply coalesced_used in Hco as [C1 C2]. apply coalesced_cons in C2 as [C2 [? | U2]]; [done |].
  apply settled_app in Hse as [S1 S2]. apply settled_cons in S2 as [_ S2]. apply settled_cons in S2 as [_ S2].
  destruct (realloc_grow h l1 sz b l2 fls need R Hne Hn) as (h1 & h2 & fls' & E1 & E2 & E3 & R' & K). exists h1, h2. split_and!; try done. right.
  rewrite Ec. eexists _, fls', (extent l1), need. split; [split; [exact R' | split] |].
  - apply coalesced_used. split; [done |]. unfold remainder. destruct (need <? sz + b); [| done]. by apply (coalesced_free [] _ l2).
  - apply settled_app. split; [done |]. apply settled_cons. split; [done |]. apply settled_app. split; [| done].
    unfold remainder. destruct (need <? sz + b); by repeat constructor.
  - rewrite El. apply (resized_in_place h l1 sz _ ptr align bytes Hp Ha Hb); [done | apply K | | lia |].
    + intros x z. rewrite <- used_others by apply R. rewrite !chunk_at_app. simpl. rewrite chunk_at_app, extent_remainder by lia.
      pose proof (remainder_free (sz + b) need (x - extent l1 - need) z) as Hr.
      replace (x - extent l1 - need - (sz + b - need)) with (x - extent l1 - sz - b) by lia. split.
      * intros [? | [[? [= ->]] | [? | ?]]]; [by left; left | right; lia | done | by left; right; right; right].
      * intros [[? | [[_ ?] | [[_ ?] | ?]]] | [-> ->]]; [by left | done | done | by right; right; right |]. right. left. split; [lia | done].
    + rewrite Z.min_r, Z.sub_diag by lia. intros y Hy. apply K. apply (protected_wide _ _ _ _) with (2 := Hy). intros x z Hx. exists z. split; [| lia].
      rewrite !chunk_at_app in *. simpl in *. rewrite !Z.sub_0_r in Hx. intuition congruence.
Qed.

Lemma same_post l1 l2 :
  l = l1 ++ (sz, Used) :: l2 -> c = extent l1 -> (align | ptr) ->
  (chunk_header_bytes h + (bytes + (ptr - chunk_mem h c)) + 7) / 8 = sz -> realloc_post ptr h.
Proof.
  intros El Ec Ha En. pose proof Hinv as (R & _). pose proof (rep_range _ _ _ R _ _ _ Hc). right. exists l, fls, c, sz. split; [done |]. rewrite El, Ec.
  apply (resized_in_place h l1 sz l2 ptr align bytes); try done; [by rewrite <- Ec | by rewrite <- Ec | |].
  - intros x z. rewrite El in R. split.
    + intros Hx. destruct (Z.eq_dec x (extent l1)) as [-> |]; [right | by left]. split; [done |].
      destruct (chunk_at_apart _ _ _ _ _ _ _ (rep_sized _ _ _ R) Hx (chunk_at_mid l1 sz Used l2)) as [(_ & ? & _) | ?]; [done |].
      apply (rep_range _ _ _ R) in Hx. lia.
    + intros [[? _] | [-> ->]]; [done | apply chunk_at_mid].
  - rewrite <- Ec. lia.
Qed.

(** The block is long enough for the new size, alone or with the free chunk
    to its right. *)
Definition room_here : Prop :=
  ptr + bytes <= hbase h + 8 * (c + sz) \/ ∃ b, chunk_at l (c + sz) b Free /\ ptr + bytes <= hbase h + 8 * (c + sz + b).

Definition stays (p : Z) : Prop := (align | ptr) -> room_here -> p = ptr.

Lemma move_stays :
  ~ ((align | ptr) /\ room_here) ->
  ∃ p h', realloc_move c ptr (ptr - chunk_mem h c) arg bytes h = Some (p, h') /\ realloc_post p h' /\ stays p.
Proof. intros Hno. destruct move_post as (p & h' & E & HP). exists p, h'. split_and!; [done | done |]. intros Ha Hf. by destruct Hno. Qed.

(** [sys_heap_aligned_realloc] of a live block *)
Lemma realloc_rep : ∃ p h', sys_heap_aligned_realloc ptr arg bytes h = Some (p, h') /\ realloc_post p h' /\ stays p.
Proof.
  pose proof Hinv as (R & Hco & Hse). pose proof (rep_geo _ _ _ R) as G. pose proof (rep_range _ _ _ R _ _ _ Hc) as Hr. pose proof (rep_end_bounds _ _ _ R) as He.
  destruct (geo_bytes h bytes G ltac:(lia) Hs) as [Hb1 _]. pose proof (geo_base _ G) as Hb0. pose proof (geo_top _ G) as Ht.
  assert (4 <= chunk_header_bytes h <= 8) as Hh by (rewrite header_bytes_cases; destruct (big_heap h); lia).
  assert (0 <= ptr - chunk_mem h c < 8) as Hgap by (unfold block_of in Hp; lia).
  unfold sys_heap_aligned_realloc. rewrite (proj2 (Z.eqb_neq ptr 0)) by (unfold chunk_mem, CHUNK_UNIT in *; lia).
  rewrite (proj2 (Z.eqb_neq bytes 0)), Hs by lia. rewrite (block_chunkid h c ptr G) by (done || lia).
  rewrite (wrap_u_id 32 (ptr - chunk_mem h c)), (wrap_u_id 32 (bytes + _)), need_eq, (rep_right _ _ _ R _ _ _ Hc), (rep_size _ _ _ R _ _ _ Hc) by lia.
  set (need := _ / 8). pose proof (aligned_test arg align ptr Hask) as Ht'.
  destruct (negb (arg =? 0) && _) eqn:Et; [apply move_stays; intros [Ha _]; by apply Ht' in Ha |]. pose proof (proj1 Ht' eq_refl) as Ha.
  destruct (chunk_at_split _ _ _ _ Hc) as (l1 & l2 & El & Ec). symmetry in Ec.
  destruct (need_covers h l1 ptr bytes) as [Hn1 Hn2]; [by rewrite <- Ec | done |]. rewrite <- Ec in Hn1, Hn2. fold need in Hn1, Hn2.
  assert (0 < min_size h) as Hm by (unfold min_size; destruct (big_heap h); lia).
  destruct (Z.eqb_spec sz need) as [Esz | Hnsz]; [exists ptr, h; split_and!; [done | by apply (same_post l1 l2) | done] |].
  destruct (Z.ltb_spec need sz) as [Hlt | Hge].
  { rewrite wrap_u_id by lia. destruct (shrink_post l1 l2 need) as (h' & -> & HP); try done. simpl. by exists ptr, h'. }
  assert (∀ b, 0 <= b -> (∀ b', chunk_at l (c + sz) b' Free -> b' <= b) -> sz + b < need -> ~ ((align | ptr) /\ room_here)) as Hmove.
  { intros b Hb' Hbs Hlt [_ Hf]. pose proof (Z.mul_div_le (chunk_header_bytes h + (bytes + (ptr - chunk_mem h c)) + 7) 8) as Hdv. fold need in Hdv. unfold room_here, chunk_mem, CHUNK_UNIT in *.
    destruct Hf as [Hf | (b' & Hb1' & Hf)]; [lia |]. specialize (Hbs b' Hb1'). lia. }
  destruct l2 as [| [b t] l2].
  { assert (c + sz = end_chunk h) as Eend by (rewrite <- (rep_extent _ _ _ R), El, extent_snoc; lia). rewrite Eend, (rep_used_end _ _ _ R).
    apply move_stays, (Hmove 0); [lia | | lia]. intros b' Hb'. apply (rep_range _ _ _ R) in Hb'. lia. }
  assert (chunk_at l (c + sz) b t) as Hrc.
  { rewrite El, Ec, <- (extent_snoc l1 sz Used). replace (l1 ++ (sz, Used) :: (b, t) :: l2) with ((l1 ++ [(sz, Used)]) ++ (b, t) :: l2) by (by rewrite <- app_assoc). apply chunk_at_mid. }
  pose proof (rep_range _ _ _ R _ _ _ Hrc) as Hr'. rewrite (rep_used _ _ _ R _ _ _ Hrc), (rep_size _ _ _ R _ _ _ Hrc), (wrap_u_id 32 (sz + b)) by lia.
  assert (∀ b' t', chunk_at l (c + sz) b' t' -> b' = b /\ t' = t) as Hfun.
  { intros b' t' Hb'. destruct (chunk_at_apart _ _ _ _ _ _ _ (rep_sized _ _ _ R) Hb' Hrc) as [(_ & -> & ->) | ?]; [done |].
    apply (rep_range _ _ _ R) in Hb'. lia. }
  destruct t; [| | exfalso].
  - apply move_stays, (Hmove 0); [lia | | lia]. intros b' Hb'. by destruct (Hfun b' Free Hb').
  - simpl. destruct (Z.leb_spec need (sz + b)) as [Hle | Hgt].
    2: { apply move_stays, (Hmove b); [lia | | lia]. intros b' Hb'. destruct (Hfun b' Free Hb') as [-> _]. lia. }
    destruct (grow_post l1 b l2 need) as (h1 & h2 & -> & Ez & Ea & HP); try done; [lia |]. simpl.
    rewrite Ez, !wrap_u_id by lia. rewrite Ea. simpl. by eexists ptr, _.
  - rewrite El in Hse. apply settled_app in Hse as [_ S]. apply settled_cons in S as [_ S]. by apply settled_cons in S as [S _].
Qed.

End Realloc.

(** ** Initialisation *)

(** The units of a heap placed in [bytes] bytes at [mem], and of its first
    chunk, which holds the heap's own data. *)
Definition heap_units (mem bytes : Z) : Z :=
  (ROUND_DOWN (mem + (bytes - heap_footer_bytes bytes)) CHUNK_UNIT - ROUND_UP mem CHUNK_UNIT) / CHUNK_UNIT.

(** The struct as [sys_heap_init] first fills it in. *)
Definition raw_heap (mem bytes : Z) (m : Memory.mem) : z_heap := mk_heap (ROUND_UP mem CHUNK_UNIT) (heap_units mem bytes) 0 [] m.

Definition header_units (mem bytes : Z) : Z :=
  chunksz (sizeof_z_heap + (bucket_idx (raw_heap mem bytes (λ _, 0)) (heap_units mem bytes) + 1) * sizeof_bucket).

(** The assertions of [sys_heap_init], with a heap that does not wrap around
    the address space and is not at its very start. *)
Record init_ok (mem bytes : Z) : Prop := mk_init_ok {
  init_mem : 16 <= mem;
  init_top : 16 <= bytes /\ mem + bytes <= 2 ^ 32;
  init_small : SYS_HEAP_SMALL_ONLY = true -> bytes / CHUNK_UNIT <= 0x7fff;
  init_room : header_units mem bytes + min_chunk_size (raw_heap mem bytes (λ _, 0)) <= heap_units mem bytes
}.

Lemma init_place mem bytes : init_ok mem bytes ->
  let addr := ROUND_UP mem CHUNK_UNIT in let n := heap_units mem bytes in
  16 <= addr /\ addr mod 8 = 0 /\ mem <= addr /\ addr + 8 * n <= mem + (bytes - heap_footer_bytes bytes) /\ 8 * n <= bytes.
Proof.
  intros [H1 [H2 H3] _ H4] addr n. unfold addr, ROUND_UP, CHUNK_UNIT. assert (4 <= heap_footer_bytes bytes <= 8) as Hf.
  { unfold heap_footer_bytes. destruct (big_heap_bytes bytes); lia. }
  rewrite wrap_u_id by lia. pose proof (Z.div_mod (mem + (8 - 1)) 8 ltac:(lia)). pose proof (Z.mod_pos_bound (mem + (8 - 1)) 8 ltac:(lia)).
  assert (n = ((mem + (bytes - heap_footer_bytes bytes)) / 8 * 8 - (mem + (8 - 1)) / 8 * 8) / 8) as En.
  { unfold n, heap_units, ROUND_DOWN, ROUND_UP, CHUNK_UNIT. by rewrite wrap_u_id by lia. }
  rewrite <- Z.mul_sub_distr_r, Z.div_mul in En by lia.
  pose proof (Z.div_mod (mem + (bytes - heap_footer_bytes bytes)) 8 ltac:(lia)). pose proof (Z.mod_pos_bound (mem + (bytes - heap_footer_bytes bytes)) 8 ltac:(lia)).
  split_and!; try lia. apply Z.mod_mul. lia.
Qed.

(** The end marker's header is inside the memory given. *)
Lemma init_inside mem bytes h : init_ok mem bytes -> hbase h = ROUND_UP mem CHUNK_UNIT -> end_chunk h = heap_units mem bytes ->
  mem <= hbase h /\ hbase h + 8 * end_chunk h + chunk_header_bytes h <= mem + bytes.
Proof.
  intros Hok Eb En. destruct (init_place mem bytes Hok) as (H1 & H2 & H3 & H4 & H5). pose proof (Z.div_mod bytes 8 ltac:(lia)). pose proof (Z.mod_pos_bound bytes 8 ltac:(lia)).
  rewrite Eb, En. split; [done |]. assert (chunk_header_bytes h <= heap_footer_bytes bytes); [| lia].
  unfold chunk_header_bytes, heap_footer_bytes, big_heap_bytes, big_heap, big_heap_chunks, CHUNK_UNIT. rewrite En.
  destruct SYS_HEAP_SMALL_ONLY; [lia |]. destruct SYS_HEAP_BIG_ONLY; [lia |].
  destruct (Z.ltb_spec 0x7fff (heap_units mem bytes)), (Z.ltb_spec 0x7fff (bytes / 8)); lia.
Qed.

Lemma init_geometry mem bytes h : init_ok mem bytes ->
  hbase h = ROUND_UP mem CHUNK_UNIT -> end_chunk h = heap_units mem bytes -> geometry h.
Proof.
  intros Hok Eb En. destruct (init_place mem bytes Hok) as (H1 & H2 & H3 & H4 & H5). destruct (init_inside mem bytes h Hok Eb En) as [_ Hin].
  destruct Hok as [_ [_ Ht] Hsm _]. pose proof (Z.div_mod bytes 8 ltac:(lia)). pose proof (Z.mod_pos_bound bytes 8 ltac:(lia)).
  split; rewrite ?Eb; try done; [rewrite Eb in Hin; lia |].
  unfold big_heap, big_heap_chunks, CHUNK_UNIT in *. rewrite En. destruct SYS_HEAP_SMALL_ONLY; [specialize (Hsm ltac:(done)); lia |].
  destruct SYS_HEAP_BIG_ONLY; [done |]. intros E%Z.ltb_ge. lia.
Qed.

Lemma mark_after p sz h : chunk_field h p SIZE_AND_USED = 2 * sz -> set_chunk_used p true h = chunk_set p SIZE_AND_USED (2 * sz + 1) h.
Proof. intros E. unfold set_chunk_used. rewrite E. pose proof (flag_set_odd sz Loose) as Hf. simpl used_bit in Hf. rewrite Z.add_0_r in Hf. by rewrite Hf. Qed.

(** The headers [sys_heap_init] writes. *)
Lemma init_headers h k : geometry h -> 1 <= k -> k + 1 <= end_chunk h ->
  let n := end_chunk h in
  let h' := set_chunk_used n true (set_left_chunk_size n (n - k) (set_chunk_size n 0 (set_left_chunk_size k k (set_chunk_size k (n - k)
              (set_chunk_used 0 true (set_left_chunk_size 0 0 (set_chunk_size 0 k h))))))) in
  keeps [(k, Used); (n - k, Loose)] h h' /\ buckets h' = buckets h /\ avail_buckets h' = avail_buckets h /\
  heads h' 0 0 (full [(k, Used); (n - k, Loose)]).
Proof.
  intros G Hk Hn n h'. destruct (geo_end _ G) as [He1 He2]. fold n in He1, He2.
  set (h1 := chunk_set 0 SIZE_AND_USED (2 * k) h). set (h2 := chunk_set 0 LEFT_SIZE 0 h1). set (h3 := chunk_set 0 SIZE_AND_USED (2 * k + 1) h2).
  set (h4 := chunk_set k SIZE_AND_USED (2 * (n - k)) h3). set (h5 := chunk_set k LEFT_SIZE k h4). set (h6 := chunk_set n SIZE_AND_USED (2 * 0) h5).
  set (h7 := chunk_set n LEFT_SIZE (n - k) h6). set (h8 := chunk_set n SIZE_AND_USED (2 * 0 + 1) h7).
  assert (h' = h8) as ->.
  { unfold h', set_left_chunk_size. rewrite (set_chunk_size_eq 0 k h) by lia. fold h1 h2.
    rewrite (mark_after 0 k h2) by (unfold h2, h1; rewrite !header_set by (done || (at_place h; lia)); done). fold h3.
    rewrite (set_chunk_size_eq k (n - k) h3) by lia. fold h4 h5. rewrite (set_chunk_size_eq n 0 h5) by lia. fold h6 h7.
    rewrite (mark_after n 0 h7); [done |]. unfold h7, h6. rewrite !header_set by (done || (at_place h; fold n; lia)). simpl. by rewrite andb_false_r, Z.eqb_refl. }
  assert (sized [(k, Used); (n - k, Loose)]) as Hs by (rewrite !sized_cons; simpl; split_and!; [lia | lia | constructor]).
  assert (relabels [(k, Used); (n - k, Loose)] h h8) as HR.
  { pose proof (boundaries [] [] [_; _] [] Hs) as B0. pose proof (boundaries [] [_] [_] [] Hs) as Bk. pose proof (boundaries [] [_; _] [] [] Hs) as Bn.
    simpl in B0, Bk, Bn. replace (k + 0) with k in Bk by lia. replace (k + (n - k + 0)) with n in Bn by lia.
    do 7 (eapply relabels_trans; [| apply relabels_set; try done; at_place h; fold n; lia]). apply relabels_set; try done; at_place h; fold n; lia. }
  destruct HR as (K & B & A & _). split_and!; try done.
  unfold h8, h7, h6, h5, h4, h3, h2, h1. simpl. rewrite !header_set by (done || (at_place h; fold n; lia)). simpl.
  split_and!; try done; eqbs; lia.
Qed.

(** A heap with no list filled yet. *)
Lemma rep_unlisted h l nb :
  geometry h -> sized l -> extent l = end_chunk h -> (∃ k r, l = (k, Used) :: r) -> unlisted l -> heads h 0 0 (full l) ->
  buckets h = replicate nb 0 -> Z.of_nat nb = size_class h (end_chunk h) + 1 -> avail_buckets h = 0 -> rep h l (replicate nb []).
Proof.
  intros G Hs He Hk Hu Hh Hb Hnb Ha. split; try done.
  - by rewrite Hb, fmap_replicate.
  - by rewrite length_replicate.
  - rewrite Ha. lia.
  - intros i. rewrite Ha, Z.bits_0. split; [done |]. intros (fl & Hi & Hne). apply lookup_replicate in Hi as [-> _]. done.
  - intros i fl Hi. apply lookup_replicate in Hi as [-> _]. split; [constructor |]. split; [done |]. intros c. split; [by intros ?%elem_of_nil |].
    intros (sz & Hc & _). by destruct (Hu c sz).
Qed.

Lemma bucket_idx_place h h' sz : same_place h h' -> bucket_idx h' sz = bucket_idx h sz.
Proof. intros Hp. unfold bucket_idx, min_chunk_size, bytes_to_chunksz, chunk_header_bytes. by rewrite (same_place_big _ _ Hp). Qed.

Lemma sys_heap_init_eq mem bytes m :
  let h0 := raw_heap mem bytes m in let n := heap_units mem bytes in
  let k := chunksz (sizeof_z_heap + (bucket_idx h0 n + 1) * sizeof_bucket) in
  sys_heap_init mem bytes m =
  free_list_add k (set_chunk_used n true (set_left_chunk_size n (n - k) (set_chunk_size n 0 (set_left_chunk_size k k (set_chunk_size k (n - k)
    (set_chunk_used 0 true (set_left_chunk_size 0 0 (set_chunk_size 0 k
      (set_buckets (replicate (Z.to_nat (bucket_idx h0 n + 1)) 0) h0))))))))).
Proof. reflexivity. Qed.

(** [sys_heap_init] leaves one free chunk and touches nothing outside. *)
Lemma heap_init_rep mem bytes m : init_ok mem bytes ->
  ∃ h fls, sys_heap_init mem bytes m = Some h /\
    heap_inv h [(header_units mem bytes, Used); (heap_units mem bytes - header_units mem bytes, Free)] fls /\
    hbase h = ROUND_UP mem CHUNK_UNIT /\ end_chunk h = heap_units mem bytes /\
    ∀ x, x < hbase h \/ hbase h + 8 * end_chunk h + chunk_header_bytes h <= x -> hmem h x = m x.
Proof.
  intros Hok. destruct (init_place mem bytes Hok) as (P1 & P2 & P3 & P4 & P5). pose proof (init_room _ _ Hok) as Hroom. rewrite min_chunk_size_eq in Hroom.
  set (n := heap_units mem bytes) in *. set (k := header_units mem bytes) in *.
  set (h0 := raw_heap mem bytes m). assert (geometry h0) as G0 by (by apply (init_geometry mem bytes)).
  destruct (geo_end _ G0) as [_ He]. change (end_chunk h0) with n in He.
  assert (1 <= min_size (raw_heap mem bytes (λ _, 0)) <= 2) as Hm by (unfold min_size; destruct (big_heap _); lia).
  assert (bucket_idx h0 n = size_class h0 n /\ 0 <= size_class h0 n) as [Hbi Hnn].
  { split; [| apply Z.log2_nonneg]. apply bucket_idx_class. change (min_size h0) with (min_size (raw_heap mem bytes (λ _, 0))).
    assert (0 <= k); [| lia]. unfold k, header_units, chunksz, CHUNK_UNIT. apply Z.div_pos; [apply wrap_u_bound; lia | lia]. }
  assert (k = (16 + (size_class h0 n + 1) * 4 + 7) / 8 /\ size_class h0 n <= 31) as [Ek Hcb].
  { assert (size_class h0 n <= 31) as Hcb.
    { transitivity (Z.log2 (2 ^ 29)); [apply Z.log2_le_mono; change (min_size h0) with (min_size (raw_heap mem bytes (λ _, 0))); lia | rewrite Z.log2_pow2; lia]. }
    split; [| done]. unfold k, header_units. fold n. rewrite <- (bucket_idx_place _ h0) by done.
    rewrite Hbi. unfold chunksz, sizeof_z_heap, sizeof_bucket, CHUNK_UNIT. rewrite wrap_u_id by lia. f_equal. lia. }
  assert (1 <= k) as Hk1 by (rewrite Ek; apply Z.div_le_lower_bound; lia).
  set (nb := Z.to_nat (size_class h0 n + 1)). set (h1 := set_buckets (replicate nb 0) h0).
  destruct (init_headers h1 k) as (K & B & A & Hh); [by apply (geometry_place h0) | lia | change (end_chunk h1) with n; lia |].
  change (end_chunk h1) with n in K, B, A, Hh. set (h2 := set_chunk_used n true _) in *.
  assert (rep h2 [(k, Used); (n - k, Loose)] (replicate nb [])) as R.
  { apply rep_unlisted; try done.
    - apply (geometry_place h0); [| done]. done.
    - rewrite !sized_cons. simpl. split_and!; [lia | lia | constructor].
    - simpl. change (end_chunk h2) with n. lia.
    - by eexists _, _.
    - by apply unlisted2.
    - unfold nb. change (size_class h2 (end_chunk h2)) with (size_class h0 n). lia. }
  destruct (rep_list_add h2 [(k, Used)] (n - k) [] _ R) as (h3 & fls & E3 & R3 & K3); [done |]. simpl in E3. rewrite Z.add_0_r in E3.
  exists h3, fls. split_and!.
  - rewrite sys_heap_init_eq. fold h0 n.
    assert (chunksz (sizeof_z_heap + (bucket_idx h0 n + 1) * sizeof_bucket) = k) as ->.
    { unfold k, header_units. fold n. by rewrite (bucket_idx_place (raw_heap mem bytes (λ _, 0)) h0). }
    rewrite Hbi. exact E3.
  - split; [exact R3 |]. split; [by split; [left |] | by repeat constructor].
  - by rewrite (proj1 (proj1 K3)).
  - by rewrite (proj2 (proj1 K3)).
  - intros x Hx. rewrite (proj1 (proj1 K3)), (proj2 (proj1 K3)) in Hx. unfold chunk_header_bytes in Hx. rewrite (same_place_big _ _ (proj1 K3)) in Hx.
    transitivity (hmem h2 x); [apply K3 | apply (proj2 K x)]; destruct Hx; [by left | by right; left | by left | by right; left].
Qed.

End Client.
