(* ===== verification/HeapRun.v ===== *)
(** * The contract of the heap allocator

    A client holds blocks and makes calls in any order.  Every call returns;
    each block keeps its contents but for the client's own writes; blocks lie
    inside the heap and apart from each other; resizing keeps what fits; no
    memory is lost: with all blocks freed the heap is as it was at first. *)

From Stdlib Require Import ZArith Lia Bool.
From stdpp Require Import base numbers list sets gmap.
From S2P Require Import Prelude MathExtras Memory Heap HeapInv HeapSpec HeapClient.

Open Scope Z_scope.

(** The blocks a client holds, with their contents. *)
Abbreviation blocks := (gmap Z (list Z)).

Abbreviation len bs := (Z.of_nat (length bs)).

Section Run.
Context {cfg : HeapConfig}.
Implicit Types (h : z_heap) (l : list chunk) (v : blocks) (U : Z -> Z -> Prop).

(** ** Blocks and used chunks *)

Definition holds_block h c (sz p : Z) (bs : list Z) : Prop :=
  0 < c /\ block_of h c p /\ p + len bs <= hbase h + 8 * (c + sz) /\ read_bytes (hmem h) p (length bs) = bs.

(** The used chunks [U], but for the heap's own, are the blocks of [v]. *)
Record covers U h v : Prop := mk_covers {
  cov_block : ∀ p bs, v !! p = Some bs -> ∃ c sz, U c sz /\ holds_block h c sz p bs;
  cov_chunk : ∀ c sz, U c sz -> 0 < c -> ∃ p bs, v !! p = Some bs /\ block_of h c p;
  cov_inj : ∀ p p' bs bs' c, v !! p = Some bs -> v !! p' = Some bs' -> block_of h c p -> block_of h c p' -> p = p'
}.

Lemma block_of_inj h c c' p : block_of h c p -> block_of h c' p -> c = c'.
Proof. unfold block_of, chunk_mem, CHUNK_UNIT. lia. Qed.

Lemma block_of_place h h' c p : same_place h h' -> block_of h' c p <-> block_of h c p.
Proof. intros P. unfold block_of. by rewrite (chunk_mem_place h h'). Qed.

Lemma holds_block_mem h h' c sz p bs :
  same_place h h' -> (∀ y, chunk_mem h c <= y < hbase h + 8 * (c + sz) -> hmem h' y = hmem h y) ->
  holds_block h c sz p bs -> holds_block h' c sz p bs.
Proof.
  intros P Hm (H0 & Hb & He & Hr). split_and!; [done | by apply (block_of_place h h') | by rewrite (proj1 P) |].
  rewrite <- Hr at 2. apply read_bytes_ext. intros x Hx. apply Hm. unfold block_of in Hb. lia.
Qed.

Lemma covers_iff U U' h v : (∀ x z, U' x z <-> U x z) -> covers U h v -> covers U' h v.
Proof.
  intros HU [C1 C2 C3]. split; [| | done].
  - intros p bs Hp. apply C1 in Hp as (c & sz & HUc & Hh). exists c, sz. split; [by apply HU | done].
  - intros c sz Hc. apply HU in Hc. by apply (C2 c sz).
Qed.

Lemma covers_mem U h h' v :
  same_place h h' -> (∀ c sz y, U c sz -> 0 < c -> chunk_mem h c <= y < hbase h + 8 * (c + sz) -> hmem h' y = hmem h y) ->
  covers U h v -> covers U h' v.
Proof.
  intros P Hm [C1 C2 C3]. split.
  - intros p bs Hp. apply C1 in Hp as (c & sz & HUc & Hh). exists c, sz. split; [done |]. pose proof Hh as (H0 & _).
    apply (holds_block_mem h); [done | | done]. intros y Hy. by apply (Hm c sz).
  - intros c sz Hc H0. destruct (C2 c sz Hc H0) as (p & bs & Hp & Hb). exists p, bs. split; [done |]. by apply (block_of_place h h').
  - intros p p' bs bs' c Hp Hp' Hb%(block_of_place h h') Hb'%(block_of_place h h'); [by eapply C3 | done | done].
Qed.

(** Giving up a block and its chunk *)
Lemma covers_drop U h v c p bs :
  covers U h v -> v !! p = Some bs -> block_of h c p -> covers (λ x z, U x z /\ x <> c) h (delete p v).
Proof.
  intros [C1 C2 C3] Hp Hb. split.
  - intros q bs' [Hne Hq]%lookup_delete_Some. destruct (C1 _ _ Hq) as (x & z & HU & Hh). exists x, z. split; [| done]. split; [done |].
    intros ->. apply Hne. eapply C3; [exact Hp | exact Hq | exact Hb | apply Hh].
  - intros x z [HU Hx] H0. destruct (C2 x z HU H0) as (q & bs' & Hq & Hbq). exists q, bs'. split; [| done]. apply lookup_delete_Some. split; [| done].
    intros <-. apply Hx. by eapply block_of_inj.
  - intros q q' b b' x [_ Hq]%lookup_delete_Some [_ Hq']%lookup_delete_Some. by eapply C3.
Qed.

(** Getting a block in a fresh chunk *)
Lemma covers_add U h v c n p bs :
  covers U h v -> (∀ z, ~ U c z) -> holds_block h c n p bs -> covers (λ x z, U x z \/ (x = c /\ z = n)) h (<[p := bs]> v).
Proof.
  intros [C1 C2 C3] Hf Hh. pose proof Hh as (H0 & Hb & _).
  assert (∀ q b x, v !! q = Some b -> block_of h x q -> x <> c) as Hold.
  { intros q b x Hq Hbq ->. apply C1 in Hq as (y & z & HU & Hy & Hby & _). rewrite (block_of_inj h c y q Hbq Hby) in Hf. by apply (Hf z). }
  split.
  - intros q b [[-> <-] | [Hne Hq]]%lookup_insert_Some; [exists c, n; split; [by right | done] |].
    apply C1 in Hq as (x & z & HU & Hx). exists x, z. split; [by left | done].
  - intros x z [HU | [-> ->]] Hx; [| exists p, bs; split; [apply lookup_insert_eq | done]].
    destruct (C2 x z HU Hx) as (q & b & Hq & Hbq). exists q, b. split; [| done]. apply lookup_insert_Some. right. split; [| done].
    intros <-. by apply (Hold _ _ _ Hq Hb).
  - intros q q' b b' x [[-> <-] | [Hne Hq]]%lookup_insert_Some [[-> <-] | [Hne' Hq']]%lookup_insert_Some Hx Hx'; [done | | | by eapply C3].
    + destruct (Hold _ _ _ Hq' Hx'). exact (block_of_inj _ _ _ _ Hx Hb).
    + destruct (Hold _ _ _ Hq Hx). exact (block_of_inj _ _ _ _ Hx' Hb).
Qed.

(** ** The client *)

(** [k] units are the heap's own, the rest is free or the client's. *)
Definition client_ok (k : Z) h v : Prop :=
  ∃ l fls, heap_inv h l fls /\ chunk_at l 0 k Used /\ covers (λ c z, chunk_at l c z Used) h v.

Inductive heap_op :=
  | HAlloc (align bytes : Z)
  | HFree (p : Z)
  | HRealloc (p align bytes : Z)
  | HWrite (p off : Z) (data : list Z).

(** The contents of a block of [n] bytes that held [bs] before. *)
Definition resize_contents (bs : list Z) (n : Z) (m : mem) (q : Z) : list Z :=
  let kept := take (Z.to_nat n) bs in
  kept ++ read_bytes m (q + len kept) (Z.to_nat n - length kept).

(** A call, with the blocks held after it; the client frees, resizes and
    writes only what it holds. *)
Definition heap_call (op : heap_op) (st : z_heap * blocks) : option (Z * (z_heap * blocks)) :=
  let '(h, v) := st in
  match op with
  | HAlloc align bytes =>
      '(p, h) ← sys_heap_aligned_alloc align bytes h;
      Some (p, (h, if p =? 0 then v else <[p := read_bytes (hmem h) p (Z.to_nat bytes)]> v))
  | HFree p =>
      match v !! p with
      | Some _ => h ← sys_heap_free p h; Some (0, (h, delete p v))
      | None => Some (0, (h, v))
      end
  | HRealloc p align bytes =>
      match v !! p with
      | Some bs =>
          '(q, h) ← sys_heap_aligned_realloc p align bytes h;
          Some (q, (h, if q =? 0 then (if bytes =? 0 then delete p v else v)
                       else <[q := resize_contents bs bytes (hmem h) q]> (delete p v)))
      | None => Some (0, (h, v))
      end
  | HWrite p off data =>
      match v !! p with
      | Some bs =>
          if (0 <=? off) && (off + len data <=? len bs) then
            Some (0, (set_hmem (write_bytes (hmem h) (p + off) data) h,
                      <[p := take (Z.to_nat off) bs ++ data ++ drop (Z.to_nat (off + len data)) bs]> v))
          else Some (0, (h, v))
      | None => Some (0, (h, v))
      end
  end.

(** The request is empty, refused as too big, or the chunk it needs, with its
    header and padding, is in a size class the heap has a bucket for. *)
Definition in_range h (align rew bytes : Z) : Prop :=
  bytes <> 0 -> size_too_big h bytes = false -> size_class h (request h align rew bytes) <= size_class h (end_chunk h).

(** The limits on a client's requests: non-negative sizes [in_range], and an
    alignment that does not run past the 32-bit address space. *)
Definition op_ok h (op : heap_op) : Prop :=
  match op with
  | HAlloc arg bytes =>
      0 <= bytes /\ ∃ align rew, asks arg align rew /\ hbase h + 8 * end_chunk h + chunk_header_bytes h + arg <= 2 ^ 32 /\ in_range h align rew bytes
  | HRealloc _ arg bytes =>
      0 <= bytes /\ ∃ align, asks arg align 0 /\ hbase h + 8 * end_chunk h + chunk_header_bytes h + arg <= 2 ^ 32 /\ in_range h align 0 bytes
  | _ => True
  end.

(** Memory outside the heap is unchanged. *)
Definition outside_same h h' : Prop :=
  same_place h h' /\ ∀ x, x < hbase h \/ hbase h + 8 * end_chunk h + chunk_header_bytes h <= x -> hmem h' x = hmem h x.

Lemma outside_trans h h' h'' : outside_same h h' -> outside_same h' h'' -> outside_same h h''.
Proof.
  intros [P O] [P' O']. assert (chunk_header_bytes h' = chunk_header_bytes h) as Eh by (unfold chunk_header_bytes; by rewrite (same_place_big _ _ P)).
  destruct P as [P1 P2], P' as [P1' P2']. split; [split; congruence |]. intros x Hx. rewrite O', O; [done | done |]. by rewrite P1, P2, Eh.
Qed.

Lemma keeps_outside l h h' : keeps l h h' -> outside_same h h'.
Proof. intros [P K]. split; [done |]. intros x Hx. apply K. destruct Hx; [by left | by right; left]. Qed.

Lemma spares_outside l c h h' : spares l c h h' -> outside_same h h'.
Proof. intros [P K]. split; [done |]. intros x Hx. apply K. destruct Hx; [by left | by right; left]. Qed.

Lemma turned_outside h l h' fls' : turned h l h' fls' -> outside_same h h'.
Proof. intros (_ & P & E). split; [done |]. intros x _. by rewrite E. Qed.

Lemma client_turned k h l v h' fls' :
  turned h l h' fls' -> coalesced l -> settled l -> chunk_at l 0 k Used -> covers (λ c z, chunk_at l c z Used) h v -> client_ok k h' v.
Proof.
  intros (R & P & E) C S H0 Hc. exists l, fls'. split; [done |]. split; [done |].
  apply (covers_mem _ h); [done | | done]. intros. by rewrite E.
Qed.

Lemma aligned_alloc_null arg bytes h : (bytes =? 0) || size_too_big h bytes = true -> sys_heap_aligned_alloc arg bytes h = Some (0, h).
Proof.
  intros E. unfold sys_heap_aligned_alloc, aligned_alloc_gap, sys_heap_alloc. rewrite E.
  destruct (negb _); [done |]. by destruct (_ <=? _).
Qed.

Lemma keeps_others l h h' : keeps l h h' -> ∀ c sz y, chunk_at l c sz Used -> chunk_mem h c <= y < hbase h + 8 * (c + sz) -> hmem h' y = hmem h y.
Proof. intros [_ K] c sz y Hc Hy. apply K. right. right. by exists c, sz. Qed.

(** A block just allocated is the client's. *)
Lemma client_gave k h l fls v align rew bytes p h' l' c n :
  heap_inv h l fls -> chunk_at l 0 k Used -> covers (λ c z, chunk_at l c z Used) h v -> 0 <= bytes ->
  gave h l align rew bytes p h' l' c n -> client_ok k h' (<[p := read_bytes (hmem h') p (Z.to_nat bytes)]> v).
Proof.
  intros (R & C & S) H0 Hcov Hb G. destruct (gave_fresh _ _ _ _ _ _ _ _ _ _ _ R G) as [Hpos Hfresh].
  assert (∀ x z, chunk_at l' x z Used <-> chunk_at l x z Used \/ (x = c /\ z = n)) as U by (intros; by eapply gave_used).
  destruct (gave_tidy _ _ _ _ _ _ _ _ _ _ C S G) as [C' S'].
  destruct G as (l1 & sz & l2 & d & fls' & _ & _ & _ & _ & _ & _ & _ & R' & K & _ & Hblk & Hfit).
  exists l', fls'. split; [done |]. split; [apply U; by left |]. apply (covers_iff (λ x z, chunk_at l x z Used \/ (x = c /\ z = n))); [done |].
  apply covers_add; [| intros z Hz; by apply (Hfresh c z) |].
  - apply (covers_mem _ h); [apply K | | done]. intros x z y Hx _. by apply (keeps_others l).
  - pose proof (proj1 K) as P. split_and!; [done | by apply (block_of_place h h') | |]; rewrite read_bytes_length, ?(proj1 P); [lia | done].
Qed.

Lemma client_alloc_aligned k h v arg align rew bytes :
  client_ok k h v -> 0 <= bytes -> asks arg align rew -> hbase h + 8 * end_chunk h + chunk_header_bytes h + arg <= 2 ^ 32 -> in_range h align rew bytes ->
  ∃ p h', sys_heap_aligned_alloc arg bytes h = Some (p, h') /\ outside_same h h' /\ (p = 0 \/ (align | p + rew)) /\
    client_ok k h' (if p =? 0 then v else <[p := read_bytes (hmem h') p (Z.to_nat bytes)]> v).
Proof.
  intros (l & fls & Hinv & H0 & Hcov) Hb Hask Hw Hin. pose proof Hinv as (R & C & S).
  destruct ((bytes =? 0) || size_too_big h bytes) eqn:Et.
  { exists 0, h. split_and!; [by apply aligned_alloc_null | done | by left |]. exists l, fls. done. }
  apply orb_false_iff in Et as [Hz%Z.eqb_neq Hs].
  destruct (aligned_alloc_rep arg align rew bytes h l fls R Hask ltac:(lia) Hs Hw (Hin Hz Hs)) as (p & h' & E & [(-> & (fls' & T) & _) | (l' & c & n & G)]).
  - exists 0, h'. split_and!; [done | by eapply turned_outside | by left |]. by apply (client_turned k h l v h' fls').
  - exists p, h'. split; [done |]. pose proof G as (_ & _ & _ & _ & _ & _ & _ & _ & _ & _ & _ & _ & _ & K & Hal & Hblk & _).
    split; [by eapply keeps_outside |]. split; [by right |]. destruct (gave_fresh _ _ _ _ _ _ _ _ _ _ _ R G) as [Hpos _].
    rewrite (proj2 (Z.eqb_neq p 0)); [by eapply client_gave |]. pose proof (geo_base _ (rep_geo _ _ _ R)).
    unfold block_of, chunk_mem, CHUNK_UNIT in Hblk. rewrite header_bytes_cases in Hblk. destruct (big_heap h); lia.
Qed.

Lemma client_alloc k h v arg bytes :
  client_ok k h v -> op_ok h (HAlloc arg bytes) ->
  ∃ p h', sys_heap_aligned_alloc arg bytes h = Some (p, h') /\ outside_same h h' /\
    client_ok k h' (if p =? 0 then v else <[p := read_bytes (hmem h') p (Z.to_nat bytes)]> v).
Proof.
  intros Hok (Hb & align & rew & Hask & Hw & Hin).
  destruct (client_alloc_aligned k h v arg align rew bytes Hok Hb Hask Hw Hin) as (p & h' & E & O & _ & Hok'). by exists p, h'.
Qed.

Lemma spares_others l c h h' : spares l c h h' ->
  ∀ x sz y, chunk_at l x sz Used -> x <> c -> chunk_mem h x <= y < hbase h + 8 * (x + sz) -> hmem h' y = hmem h y.
Proof. intros [_ K] x sz y Hx Hne Hy. apply K. right. right. by exists x, sz. Qed.

Lemma client_free k h v p bs :
  client_ok k h v -> v !! p = Some bs -> ∃ h', sys_heap_free p h = Some h' /\ outside_same h h' /\ client_ok k h' (delete p v).
Proof.
  intros (l & fls & (R & C & S) & H0 & Hcov) Hp. destruct (cov_block _ _ _ Hcov _ _ Hp) as (c & sz & Hc & Hpos & Hblk & _).
  apply chunk_at_split in Hc as (l1 & l2 & -> & <-). apply coalesced_used in C as [C1 C2].
  apply settled_app in S as [S1 S2]. apply settled_cons in S2 as [_ S2].
  assert (l1 <> []) as Hne by (intros ->; simpl in Hpos; lia).
  destruct (free_rep h l1 sz l2 fls p R Hne S1 S2 Hblk) as (h' & fls' & E & R' & K). exists h'. split; [done |]. split; [by eapply keeps_outside |].
  destruct (released_tidy l1 sz l2 C1 C2 S1 S2) as [C' S'].
  assert (∀ x z, chunk_at (released l1 sz l2) x z Used <-> chunk_at (l1 ++ (sz, Used) :: l2) x z Used /\ x <> extent l1) as U.
  { intros x z. rewrite released_used. apply used_others, R. }
  exists (released l1 sz l2), fls'. split; [done |]. split; [apply U; split; [done | lia] |].
  apply (covers_iff (λ x z, chunk_at (l1 ++ (sz, Used) :: l2) x z Used /\ x <> extent l1)); [done |].
  apply (covers_mem _ h); [apply K | | by eapply covers_drop].
  intros x z y [Hx Hxc] _. apply (keeps_others _ _ _ K). apply used_others with (s := Used); [apply R | done].
Qed.

Lemma resize_read m m' bs (n p q : Z) :
  0 <= n -> read_bytes m p (length bs) = bs -> (∀ i, 0 <= i < Z.min n (len bs) -> m' (q + i) = m (p + i)) ->
  len (resize_contents bs n m' q) = n /\ read_bytes m' q (length (resize_contents bs n m' q)) = resize_contents bs n m' q.
Proof.
  intros Hn Hr Hc. unfold resize_contents. set (kept := take (Z.to_nat n) bs). assert (length kept = Z.to_nat n `min` length bs)%nat as Hk by apply length_take.
  assert (read_bytes m' q (length kept) = kept) as Hread.
  { apply list_eq. intros i. destruct (decide (i < length kept)%nat) as [Hi | Hi].
    - rewrite read_bytes_lookup by done. rewrite Hc by lia. unfold kept. rewrite lookup_take_lt by lia. rewrite <- Hr, read_bytes_lookup by lia. done.
    - rewrite !lookup_ge_None_2; [done | lia | rewrite read_bytes_length; lia]. }
  rewrite length_app, read_bytes_length. split; [lia |]. by rewrite read_bytes_app, Hread.
Qed.

Lemma client_resized k h l fls v c sz ptr align bytes q h' l' fls' c' n bs :
  heap_inv h l fls -> chunk_at l 0 k Used -> covers (λ c z, chunk_at l c z Used) h v -> v !! ptr = Some bs ->
  chunk_at l c sz Used -> holds_block h c sz ptr bs -> 1 <= bytes -> heap_inv h' l' fls' ->
  resized h l c sz ptr align bytes q h' l' c' n -> client_ok k h' (<[q := resize_contents bs bytes (hmem h') q]> (delete ptr v)).
Proof.
  intros (R & _) H0 Hcov Hp Hc (Hpos & Hblk & Hend & Hread) Hb Hinv' (U & Hfresh & Hpos' & Hblk' & Hfit & _ & Hsp & Hcont). pose proof (proj1 Hsp) as P.
  exists l', fls'. split; [done |]. split; [apply U; left; split; [done | lia] |].
  apply (covers_iff (λ x z, (chunk_at l x z Used /\ x <> c) \/ (x = c' /\ z = n))); [done |]. apply covers_add.
  - apply (covers_mem _ h); [done | | by eapply covers_drop]. intros x z y [Hx Hxc] _. by apply (spares_others _ _ _ _ Hsp).
  - intros z [Hz Hne]. by apply (Hfresh c' z).
  - destruct (resize_read (hmem h) (hmem h') bs bytes ptr q) as [Hl Hr]; [lia | done | intros i Hi; apply Hcont; lia |].
    split_and!; [done | by apply (block_of_place h h') | rewrite Hl, (proj1 P); lia | done].
Qed.

Lemma client_realloc k h v p arg bytes bs :
  client_ok k h v -> op_ok h (HRealloc p arg bytes) -> v !! p = Some bs ->
  ∃ q h', sys_heap_aligned_realloc p arg bytes h = Some (q, h') /\ outside_same h h' /\
    client_ok k h' (if q =? 0 then (if bytes =? 0 then delete p v else v) else <[q := resize_contents bs bytes (hmem h') q]> (delete p v)).
Proof.
  intros Hok (Hb & align & Hask & Hw & Hin) Hp. pose proof Hok as (l & fls & Hinv & H0 & Hcov). pose proof Hinv as (R & C & S).
  destruct (cov_block _ _ _ Hcov _ _ Hp) as (c & sz & Hc & Hh). pose proof Hh as (Hpos & Hblk & Hend & Hread). pose proof (geo_base _ (rep_geo _ _ _ R)) as Hb0.
  assert (∀ x y, 0 < x -> block_of h x y -> y <> 0) as Hnz.
  { intros x y Hx Hy. unfold block_of, chunk_mem, CHUNK_UNIT in Hy. rewrite header_bytes_cases in Hy. destruct (big_heap h); lia. }
  destruct (Z.eqb_spec bytes 0) as [-> | Hz].
  { destruct (client_free k h v p bs Hok Hp) as (h' & E & P & Hok'). exists 0, h'. split; [| done].
    unfold sys_heap_aligned_realloc. rewrite (proj2 (Z.eqb_neq p 0)) by (by eapply Hnz). simpl. by rewrite E. }
  destruct (size_too_big h bytes) eqn:Hs.
  { exists 0, h. split; [| done]. unfold sys_heap_aligned_realloc. rewrite (proj2 (Z.eqb_neq p 0)) by (by eapply Hnz).
    rewrite (proj2 (Z.eqb_neq bytes 0)) by done. by rewrite Hs. }
  destruct (realloc_rep h l fls c sz p arg align bytes Hinv Hc Hpos Hblk ltac:(lia) Hask ltac:(lia) Hs Hw (Hin Hz Hs)) as (q & h' & E & HP & _).
  exists q, h'. split; [done |]. destruct HP as [(-> & (fls' & T) & _) | (l' & fls' & c' & n & Hinv' & HR)].
  - split; [by eapply turned_outside |]. by apply (client_turned k h l v h' fls').
  - pose proof HR as (_ & _ & Hpos' & Hblk' & _ & _ & Hsp & _). split; [by eapply spares_outside |]. rewrite (proj2 (Z.eqb_neq q 0)) by (by eapply Hnz).
    apply (client_resized k h l fls v c sz p align bytes q h' l' fls' c' n bs); (done || lia).
Qed.

Lemma client_write k h v p bs off data :
  client_ok k h v -> v !! p = Some bs -> 0 <= off -> off + len data <= len bs ->
  client_ok k (set_hmem (write_bytes (hmem h) (p + off) data) h) (<[p := take (Z.to_nat off) bs ++ data ++ drop (Z.to_nat (off + len data)) bs]> v).
Proof.
  intros (l & fls & (R & C & S) & H0 & Hcov) Hp Ho Hd. destruct (cov_block _ _ _ Hcov _ _ Hp) as (c & sz & Hc & Hh). pose proof Hh as (Hpos & Hblk & Hend & Hread).
  set (h' := set_hmem _ h). set (bs' := take _ _ ++ _). assert (same_place h h') as P by done.
  assert (rep h' l fls) as R' by (apply (rep_payload h l fls c sz); [done | done | unfold block_of in Hblk; lia | lia]).
  assert (length bs' = length bs) as Hlen by (unfold bs'; rewrite !length_app, length_take, length_drop; lia).
  exists l, fls. split; [done |]. split; [done |].
  apply (covers_iff (λ x z, (chunk_at l x z Used /\ x <> c) \/ (x = c /\ z = sz))).
  { intros x z. split; [| naive_solver]. intros Hx. destruct (Z.eq_dec x c) as [-> |]; [right | by left]. split; [done |].
    destruct (chunk_at_apart _ _ _ _ _ _ _ (rep_sized _ _ _ R) Hx Hc) as [(_ & ? & _) | ?]; [done |]. apply (rep_range _ _ _ R) in Hx. apply (rep_range _ _ _ R) in Hc. lia. }
  rewrite <- insert_delete_eq. apply covers_add; [| by intros z [_ ?] |].
  - apply (covers_mem _ h); [done | | by eapply covers_drop]. intros x z y [Hx Hxc] _ Hy. unfold h'. cbn [hmem set_hmem]. apply write_bytes_out.
    unfold block_of in Hblk. destruct (chunk_at_apart _ _ _ _ _ _ _ (rep_sized _ _ _ R) Hx Hc) as [(? & _) | Ha]; [done |].
    unfold chunk_mem, CHUNK_UNIT in *. rewrite header_bytes_cases in *. destruct (big_heap h); lia.
  - split_and!; [done | done | rewrite Hlen; done |]. rewrite Hlen. unfold h', bs'. cbn [hmem set_hmem].
    replace (p + off) with (p + Z.of_nat (Z.to_nat off)) by lia. rewrite read_write_splice by lia. rewrite Hread. do 3 f_equal. lia.
Qed.

Lemma write_outside k h v p bs off data :
  client_ok k h v -> v !! p = Some bs -> 0 <= off -> off + len data <= len bs -> outside_same h (set_hmem (write_bytes (hmem h) (p + off) data) h).
Proof.
  intros (l & fls & (R & _) & _ & Hcov) Hp Ho Hd. destruct (cov_block _ _ _ Hcov _ _ Hp) as (c & sz & Hc & Hpos & Hblk & Hend & _).
  apply (rep_range _ _ _ R) in Hc. unfold block_of, chunk_mem, CHUNK_UNIT in Hblk. split; [done |]. intros x Hx. cbn [hmem set_hmem]. apply write_bytes_out.
  rewrite header_bytes_cases in *. destruct (big_heap h); lia.
Qed.

Lemma client_step k h v op :
  client_ok k h v -> op_ok h op -> ∃ r h' v', heap_call op (h, v) = Some (r, (h', v')) /\ outside_same h h' /\ client_ok k h' v'.
Proof.
  intros Hok Hop. destruct op as [arg bytes | p | p arg bytes | p off data]; cbn [heap_call].
  - destruct (client_alloc k h v arg bytes Hok Hop) as (p & h' & -> & P & Hok'). simpl. by eexists _, _, _.
  - destruct (v !! p) as [bs |] eqn:Hp; [| by eexists _, _, _].
    destruct (client_free k h v p bs Hok Hp) as (h' & -> & P & Hok'). simpl. by eexists _, _, _.
  - destruct (v !! p) as [bs |] eqn:Hp; [| by eexists _, _, _].
    destruct (client_realloc k h v p arg bytes bs Hok Hop Hp) as (q & h' & -> & P & Hok'). simpl. by eexists _, _, _.
  - destruct (v !! p) as [bs |] eqn:Hp; [| by eexists _, _, _].
    destruct (Z.leb_spec 0 off) as [Ho |], (Z.leb_spec (off + len data) (len bs)) as [Hd |]; try by eexists _, _, _.
    eexists _, _, _. split; [done |]. split; [by eapply write_outside | by apply client_write].
Qed.

Fixpoint heap_run (ops : list heap_op) (st : z_heap * blocks) : option (list Z * (z_heap * blocks)) :=
  match ops with
  | [] => Some ([], st)
  | op :: ops =>
      '(r, st) ← heap_call op st;
      '(rs, st) ← heap_run ops st;
      Some (r :: rs, st)
  end.

Lemma op_ok_place h h' op : same_place h h' -> op_ok h op -> op_ok h' op.
Proof.
  intros P. pose proof (same_place_big _ _ P) as Eb. destruct P as [P1 P2].
  destruct op; simpl; try done; unfold in_range, size_too_big, size_class, request, padding, min_size, chunk_header_bytes in *; by rewrite Eb, P1, P2.
Qed.

Lemma client_run k ops h v :
  client_ok k h v -> Forall (op_ok h) ops -> ∃ rs h' v', heap_run ops (h, v) = Some (rs, (h', v')) /\ outside_same h h' /\ client_ok k h' v'.
Proof.
  intros Hok Hops. revert h v Hok Hops. induction ops as [| op ops IH]; intros h v Hok Hops; [by eexists _, _, _ |].
  apply Forall_cons in Hops as [Hop Hops]. destruct (client_step k h v op Hok Hop) as (r & h1 & v1 & E & O & Hok1).
  destruct (IH h1 v1 Hok1) as (rs & h2 & v2 & E2 & O2 & Hok2).
  { eapply Forall_impl; [exact Hops |]. intros o Ho. by apply (op_ok_place h); [apply O |]. }
  exists (r :: rs), h2, v2. cbn [heap_run]. rewrite E. simpl. rewrite E2. simpl. split_and!; [done | by eapply outside_trans | done].
Qed.

(** With no block left there is one free chunk. *)
Lemma client_empty k h : client_ok k h ∅ -> k < end_chunk h -> ∃ fls, heap_inv h [(k, Used); (end_chunk h - k, Free)] fls.
Proof.
  intros (l & fls & (R & C & S) & H0 & Hcov) Hk.
  assert (∀ c sz, chunk_at l c sz Used -> c = 0) as Hu.
  { intros c sz Hc. pose proof (rep_range _ _ _ R _ _ _ Hc). destruct (Z.eq_dec c 0) as [| Hne]; [done |].
    destruct (cov_chunk _ _ _ Hcov c sz Hc ltac:(lia)) as (p & bs & Hp & _). done. }
  assert (l = [(k, Used); (end_chunk h - k, Free)]) as <-; [| by exists fls].
  pose proof (rep_extent _ _ _ R) as He. pose proof (rep_sized _ _ _ R) as Hs. destruct (rep_first _ _ _ R) as (k' & r & ->).
  apply sized_cons in Hs as [Hk' Hs]. simpl in Hk', He. assert (k' = k) as ->.
  { destruct H0 as [[_ [= ->]] | H0]; [done |]. apply chunk_at_range in H0; [simpl in H0; lia | done]. }
  assert (∀ c sz, ~ chunk_at r c sz Used) as Hr.
  { intros c sz Hc. pose proof (chunk_at_range _ _ _ _ Hs Hc). specialize (Hu (c + k) sz). assert (c + k = 0); [| lia]. apply Hu. right. simpl. by replace (c + k - k) with c by lia. }
  apply settled_cons in S as [_ S]. apply coalesced_cons in C as [C _].
  destruct r as [| [a s] r]; [simpl in He; lia |]. apply settled_cons in S as [Sa S]. simpl in Sa.
  destruct s; [by destruct (Hr 0 a); left | | done]. apply coalesced_cons in C as [C [? | Hst]]; [done |].
  destruct r as [| [b t] r]; [simpl in He; by replace (end_chunk h - k) with a by lia |].
  specialize (Hst _ eq_refl). simpl in Hst. subst t. destruct (Hr a b). right. left. simpl. split; [lia | done].
Qed.

Lemma padding_nonneg h arg align rew : asks arg align rew -> 0 <= padding h align rew.
Proof.
  intros Hask. pose proof (asks_pos _ _ _ Hask) as [H1 H2]. unfold padding. destruct (Z.eqb_spec rew 0); simpl; [| lia].
  destruct (Z.leb_spec align (chunk_header_bytes h)); lia.
Qed.

Lemma usable_size h l fls c sz p :
  rep h l fls -> chunk_at l c sz Used -> block_of h c p -> p <= hbase h + 8 * (c + sz) -> sys_heap_usable_size h p = hbase h + 8 * (c + sz) - p.
Proof.
  intros R Hc Hb Hp. pose proof (rep_range _ _ _ R _ _ _ Hc) as Hr. pose proof (rep_end_bounds _ _ _ R) as He. unfold sys_heap_usable_size.
  rewrite (block_chunkid h c p (rep_geo _ _ _ R) ltac:(lia) Hb), (rep_size _ _ _ R _ _ _ Hc). unfold block_of, chunk_mem, CHUNK_UNIT in *.
  assert (4 <= chunk_header_bytes h) by (rewrite header_bytes_cases; destruct (big_heap h); lia).
  rewrite (wrap_u_id 32 (sz * 8)), wrap_u_id by lia. lia.
Qed.

Lemma client_blocks k h v p q bs bs' :
  client_ok k h v -> v !! p = Some bs ->
  hbase h <= p /\ p + len bs <= hbase h + 8 * end_chunk h /\ read_bytes (hmem h) p (length bs) = bs /\ len bs <= sys_heap_usable_size h p /\
  (p <> q -> v !! q = Some bs' -> disjoint_ranges p (len bs) q (len bs')).
Proof.
  intros (l & fls & (R & _) & _ & Hcov) Hp. destruct (cov_block _ _ _ Hcov _ _ Hp) as (c & sz & Hc & Hpos & Hblk & Hend & Hread).
  pose proof (rep_range _ _ _ R _ _ _ Hc) as Hr. assert (4 <= chunk_header_bytes h) as Hh by (rewrite header_bytes_cases; destruct (big_heap h); lia).
  split_and!; [unfold block_of, chunk_mem, CHUNK_UNIT in Hblk; lia | lia | done | rewrite (usable_size h l fls c sz p); (done || lia) |].
  intros Hne Hq. destruct (cov_block _ _ _ Hcov _ _ Hq) as (c' & sz' & Hc' & _ & Hblk' & Hend' & _).
  destruct (chunk_at_apart _ _ _ _ _ _ _ (rep_sized _ _ _ R) Hc Hc') as [(-> & _) | Ha]; [destruct Hne; by eapply (cov_inj _ _ _ Hcov) |].
  unfold disjoint_ranges, block_of, chunk_mem, CHUNK_UNIT in *. lia.
Qed.

Lemma client_nonnull k h v p bs : client_ok k h v -> v !! p = Some bs -> p <> 0.
Proof.
  intros Hok Hp. destruct (client_blocks k h v p p bs bs Hok Hp) as [H _]. destruct Hok as (l & fls & (R & _) & _).
  pose proof (geo_base _ (rep_geo _ _ _ R)). lia.
Qed.

(** Memory outside the heap does not matter to it. *)
Lemma heap_rep_frame h m l fls :
  rep h l fls -> (∀ x, hbase h <= x < hbase h + 8 * end_chunk h + chunk_header_bytes h -> m x = hmem h x) -> rep (set_hmem m h) l fls.
Proof.
  intros R Hm. pose proof (rep_sized _ _ _ R) as Hs. pose proof (rep_extent _ _ _ R) as He.
  assert (∀ c f, 0 <= c -> hbase h <= field_addr h c f /\ field_addr h c f + Z.of_nat (field_width h) <= hbase h + 8 * end_chunk h + chunk_header_bytes h ->
    chunk_field (set_hmem m h) c f = chunk_field h c f) as Hf.
  { intros c f Hc Hr. unfold chunk_field. apply load_ext. intros x Hx. apply Hm. change (field_addr (set_hmem m h) c f) with (field_addr h c f) in Hx.
    change (field_width (set_hmem m h)) with (field_width h) in Hx. lia. }
  apply (rep_reframe h _ l l); try done; [| apply R |].
  - intros c sz f Hc Hz Hh. apply (rep_range _ _ _ R) in Hc. apply Hf; [lia |]. unfold field_addr, field_width, chunk_header_bytes, CHUNK_UNIT, min_size in *.
    destruct (big_heap h), f; simpl in *; lia.
  - apply (heads_ext h); [| apply R]. intros c sz st f Hc Hh. rewrite Z.add_0_l. apply chunk_at_full in Hc; [| done]. apply Hf; [lia |].
    unfold field_addr, field_width, chunk_header_bytes, CHUNK_UNIT in *. destruct (big_heap h), f; simpl in *; (done || lia).
Qed.

Lemma client_frame k h m v :
  client_ok k h v -> (∀ x, hbase h <= x < hbase h + 8 * end_chunk h + chunk_header_bytes h -> m x = hmem h x) -> client_ok k (set_hmem m h) v.
Proof.
  intros (l & fls & (R & C & S) & H0 & Hcov) Hm. exists l, fls. split; [split; [by apply heap_rep_frame | done] |]. split; [done |].
  apply (covers_mem _ h); [done | | done]. intros c sz y Hc _ Hy. cbn [hmem set_hmem]. apply Hm. apply (rep_range _ _ _ R) in Hc.
  unfold chunk_mem, chunk_header_bytes, CHUNK_UNIT in *. destruct (big_heap h); lia.
Qed.

Lemma client_init mem bytes m : init_ok mem bytes ->
  ∃ h0, sys_heap_init mem bytes m = Some h0 /\ hbase h0 = ROUND_UP mem CHUNK_UNIT /\ end_chunk h0 = heap_units mem bytes /\
    (∀ x, x < hbase h0 \/ hbase h0 + 8 * end_chunk h0 + chunk_header_bytes h0 <= x -> hmem h0 x = m x) /\ client_ok (header_units mem bytes) h0 ∅.
Proof.
  intros Hok. destruct (heap_init_rep mem bytes m Hok) as (h0 & fls & E0 & Hinv & Eb & En & Hout). exists h0. split_and!; try done.
  eexists _, fls. split; [exact Hinv |]. split; [by left |]. split; [done | | done]. intros c sz [[-> _] | [[_ ?] | []]]; [lia | done].
Qed.

(** C5: a client of a freshly initialised heap may allocate with any
    alignment, free, resize and write what it holds in any order, provided each
    request asks for a chunk in a size class the heap has a bucket for (or is
    empty or refused as too big) and its alignment does not run past the
    address space ([op_ok]).  Every call
    returns; the blocks held lie in the memory given to the heap, apart from
    each other, and hold exactly what the client last wrote to them, also
    after being moved; memory outside is never touched; and when every block
    has been freed the heap is one free chunk again. *)
Theorem heap_client_safe mem bytes m ops :
  init_ok mem bytes -> Forall (op_ok (raw_heap mem bytes m)) ops ->
  ∃ h0 rs h v, sys_heap_init mem bytes m = Some h0 /\ heap_run ops (h0, ∅) = Some (rs, (h, v)) /\
    (∀ p bs, v !! p = Some bs ->
       mem <= p /\ p + len bs <= mem + bytes /\ read_bytes (hmem h) p (length bs) = bs /\ len bs <= sys_heap_usable_size h p) /\
    (∀ p q bs bs', p <> q -> v !! p = Some bs -> v !! q = Some bs' -> disjoint_ranges p (len bs) q (len bs')) /\
    (∀ x, x < mem \/ mem + bytes <= x -> hmem h x = m x) /\
    (v = ∅ -> ∃ fls, heap_inv h [(header_units mem bytes, Used); (heap_units mem bytes - header_units mem bytes, Free)] fls).
Proof.
  intros Hok Hops. destruct (client_init mem bytes m Hok) as (h0 & E0 & Eb & En & Hout & Hc0). set (k := header_units mem bytes) in *.
  destruct (client_run k ops h0 ∅ Hc0) as (rs & h & v & E & [P O] & Hc).
  { eapply Forall_impl; [exact Hops |]. intros o Ho. by apply (op_ok_place (raw_heap mem bytes m)). }
  destruct (init_inside mem bytes h0 Hok Eb En) as [Hi1 Hi2]. assert (4 <= chunk_header_bytes h0) by (rewrite header_bytes_cases; destruct (big_heap h0); lia).
  exists h0, rs, h, v. split_and!; try done.
  - intros p bs Hp. destruct (client_blocks k h v p p bs bs Hc Hp) as (B1 & B2 & B3 & B4 & _). destruct P as [P1 P2]. rewrite P1, P2 in *. split_and!; (done || lia).
  - intros p q bs bs' Hne Hp Hq. by eapply (client_blocks k h v p q bs bs' Hc Hp).
  - intros x Hx. rewrite O, Hout by lia. done.
  - intros ->. rewrite <- En, <- (proj2 P). apply client_empty; [done |]. rewrite (proj2 P), En.
    pose proof (init_room _ _ Hok) as Hroom. rewrite min_chunk_size_eq in Hroom. unfold min_size in Hroom. destruct (big_heap _); lia.
Qed.

(** Without a chunk in a class above the request's, no free chunk is twice as
    big as the request. *)
Lemma no_room_double h l fls arg align rew bytes :
  rep h l fls -> asks arg align rew -> 1 <= bytes -> no_room h l (request h align rew bytes) ->
  ∀ c sz, chunk_at l c sz Free -> sz < 2 * request h align rew bytes.
Proof.
  intros R Hask Hb Hno c sz Hc.
  assert (min_size h <= request h align rew bytes) as Hm by (apply need_bounds; pose proof (padding_nonneg h arg align rew Hask); lia).
  pose proof (rep_range _ _ _ R _ _ _ Hc). assert (1 <= min_size h <= 2) by (unfold min_size; destruct (big_heap h); lia).
  destruct (Z.le_gt_cases (min_size h) sz) as [Hmsz | ?]; [| lia]. by apply (class_below_double h); [| eapply Hno |].
Qed.

Lemma too_big_bytes h bytes : size_too_big h bytes = true -> 8 * end_chunk h <= bytes.
Proof.
  unfold size_too_big, CHUNK_UNIT. intros Hs%Z.leb_le.
  pose proof (Z.div_mod bytes 8 ltac:(lia)). pose proof (Z.mod_pos_bound bytes 8 ltac:(lia)). lia.
Qed.

(** C27: for a request in a size class the heap has a bucket for ([in_range]) and
    an alignment that does not run past the address space,
    allocating with an alignment argument returns null only for an empty
    or oversized request or when no free chunk is twice as big as the request;
    otherwise it returns a block aligned as asked, cut out of one free chunk,
    the rest of which stays free, and no used memory changes. *)
Theorem heap_alloc_spec arg align rew bytes h l fls :
  heap_inv h l fls -> asks arg align rew -> 0 <= bytes -> hbase h + 8 * end_chunk h + chunk_header_bytes h + arg <= 2 ^ 32 ->
  in_range h align rew bytes ->
  ∃ p h', sys_heap_aligned_alloc arg bytes h = Some (p, h') /\
    ((p = 0 /\ (∃ fls', heap_inv h' l fls') /\ hmem h' = hmem h /\
      (bytes = 0 \/ 8 * end_chunk h <= bytes \/ ∀ c sz, chunk_at l c sz Free -> sz < 2 * request h align rew bytes)) \/
     ∃ l' c n fls', gave h l align rew bytes p h' l' c n /\ heap_inv h' l' fls').
Proof.
  intros Hinv Hask Hb Hw Hin. pose proof Hinv as (R & C & S). destruct ((bytes =? 0) || size_too_big h bytes) eqn:Et.
  { exists 0, h. split; [by apply aligned_alloc_null |]. left. split_and!; [done | by exists fls | done |].
    apply orb_true_iff in Et as [->%Z.eqb_eq | Hs]; [by left |]. right. left. by apply too_big_bytes. }
  apply orb_false_iff in Et as [Hz%Z.eqb_neq Hs].
  destruct (aligned_alloc_rep arg align rew bytes h l fls R Hask ltac:(lia) Hs Hw (Hin Hz Hs)) as (p & h' & E & [(-> & (fls' & T) & Hno) | (l' & c & n & G)]).
  - exists 0, h'. split; [done |]. left. destruct T as (R' & P & Em). split_and!; [done | by exists fls' | done |]. right. right. by apply (no_room_double h l fls arg); [| | lia |].
  - exists p, h'. split; [done |]. right. destruct (gave_tidy _ _ _ _ _ _ _ _ _ _ C S G) as [C' S'].
    pose proof G as (l1 & sz & l2 & d & fls' & _ & _ & _ & _ & _ & _ & _ & R' & _). by exists l', c, n, fls'.
Qed.

(** freeing a live block marks its chunk free, joined with the free
    chunks on either side, so that no two free chunks are adjacent; the other
    used chunks are those before and their memory does not change. *)
Theorem heap_free_spec h l1 sz l2 fls p :
  heap_inv h (l1 ++ (sz, Used) :: l2) fls -> l1 <> [] -> block_of h (extent l1) p ->
  ∃ h' fls', sys_heap_free p h = Some h' /\ heap_inv h' (released l1 sz l2) fls' /\ keeps (l1 ++ (sz, Loose) :: l2) h h' /\
    (∀ x z, chunk_at (released l1 sz l2) x z Used <-> chunk_at (l1 ++ (sz, Used) :: l2) x z Used /\ x <> extent l1).
Proof.
  intros (R & C & S) Hne Hblk. apply coalesced_used in C as [C1 C2]. apply settled_app in S as [S1 S2]. apply settled_cons in S2 as [_ S2].
  destruct (free_rep h l1 sz l2 fls p R Hne S1 S2 Hblk) as (h' & fls' & E & R' & K). exists h', fls'.
  destruct (released_tidy l1 sz l2 C1 C2 S1 S2) as [C' S']. split_and!; try done. intros x z. rewrite released_used. apply used_others, R.
Qed.

(** C28: resizing a live block to a positive size that is too big for the heap or
    in a size class the heap has a bucket for ([in_range]), with an alignment that
    does not run past the address space: the call returns null and leaves the
    chunks and the memory as they were, which happens only when the size is too
    big or no free chunk is twice the size of the chunk needed; or it returns a
    block of the size and alignment asked that holds the old contents up to the
    shorter of the two lengths, while every other used chunk keeps its place and
    its contents.  A block that is aligned and long enough, alone or with the
    free chunk to its right, is not moved and the call does not fail. *)
Theorem heap_realloc_spec h l fls c sz ptr arg align bytes :
  heap_inv h l fls -> chunk_at l c sz Used -> 0 < c -> block_of h c ptr -> ptr <= hbase h + 8 * (c + sz) -> asks arg align 0 -> 1 <= bytes ->
  hbase h + 8 * end_chunk h + chunk_header_bytes h + arg <= 2 ^ 32 -> in_range h align 0 bytes ->
  ∃ p h', sys_heap_aligned_realloc ptr arg bytes h = Some (p, h') /\
    ((p = 0 /\ (∃ fls', heap_inv h' l fls') /\ same_place h h' /\ hmem h' = hmem h /\
      (8 * end_chunk h <= bytes \/ ∀ x z, chunk_at l x z Free -> z < 2 * request h align 0 bytes)) \/
     ∃ l' fls' c' n, heap_inv h' l' fls' /\ resized h l c sz ptr align bytes p h' l' c' n) /\
    ((align | ptr) ->
     (ptr + bytes <= hbase h + 8 * (c + sz) \/ ∃ b, chunk_at l (c + sz) b Free /\ ptr + bytes <= hbase h + 8 * (c + sz + b)) -> p = ptr).
Proof.
  intros Hinv Hc Hpos Hblk Hend Hask Hb Hw Hin. pose proof Hinv as (R & C & S). pose proof (geo_base _ (rep_geo _ _ _ R)) as Hb0.
  assert (hbase h + 8 * c < ptr) as Hptr by (unfold block_of, chunk_mem, CHUNK_UNIT in Hblk; rewrite header_bytes_cases in Hblk; destruct (big_heap h); lia).
  destruct (size_too_big h bytes) eqn:Hs.
  - pose proof (too_big_bytes h bytes Hs) as Hbig. exists 0, h. split.
    { unfold sys_heap_aligned_realloc. rewrite (proj2 (Z.eqb_neq ptr 0)), (proj2 (Z.eqb_neq bytes 0)), Hs by lia. done. }
    split; [left; split_and!; [done | by exists fls | done | done | by left] |].
    intros _ [Hf | (b & Hb' & Hf)]; exfalso; [pose proof (rep_range _ _ _ R _ _ _ Hc) | pose proof (rep_range _ _ _ R _ _ _ Hb')]; lia.
  - destruct (realloc_rep h l fls c sz ptr arg align bytes Hinv Hc Hpos Hblk Hend Hask Hb Hs Hw (Hin ltac:(lia) Hs)) as (p & h' & E & HP & Hst).
    exists p, h'. split; [done |]. split; [| exact Hst]. destruct HP as [(-> & (fls' & R' & P & Em) & Hno) | HP]; [left | by right].
    split_and!; [done | by exists fls' | done | done | right; by apply (no_room_double h l fls arg)].
Qed.

(** C29: a request whose size class is above the heap's largest reads a bucket
    past the end of the array, because the only guard compares bytes with the
    length of the heap and not the chunk the request needs. *)
Theorem heap_bucket_overrun h l fls bytes :
  heap_inv h l fls -> 1 <= bytes -> size_too_big h bytes = false -> size_class h (end_chunk h) < size_class h (request h 1 0 bytes) ->
  sys_heap_alloc bytes h = None.
Proof.
  intros (R & _) Hb Hs Hcl. pose proof (rep_geo _ _ _ R) as G. destruct (geo_bytes h bytes G ltac:(lia) Hs) as [Hb1 Hb2]. pose proof (rep_end_bounds _ _ _ R) as He.
  assert (4 <= chunk_header_bytes h <= 8) as Hh by (rewrite header_bytes_cases; destruct (big_heap h); lia).
  assert (padding h 1 0 = 0) as Ep by (unfold padding; simpl; rewrite (proj2 (Z.leb_le 1 (chunk_header_bytes h))) by lia; done).
  unfold request in Hcl. rewrite Ep, Z.add_0_r in Hcl. destruct (need_bounds h bytes Hb) as [Hn1 Hn2].
  unfold sys_heap_alloc. rewrite (proj2 (Z.eqb_neq bytes 0)), Hs by lia. cbn [orb]. rewrite need_eq by lia. set (need := _ / 8) in *.
  unfold alloc_chunk. rewrite bucket_idx_class by lia. unfold bucket_next. rewrite (rep_buckets _ _ _ R), list_lookup_fmap.
  pose proof (rep_classes _ _ _ R). rewrite lookup_ge_None_2 by lia. done.
Qed.

(** C26: initialisation makes a heap that is well formed and holds no block,
    and every call of a client within the limits of [op_ok] (requests in a size
    class the heap has a bucket for, empty or refused as too big; alignments that
    do not run past the address space), whatever its outcome, returns a
    well-formed heap that holds exactly the client's blocks. *)
Theorem heap_well_formed mem bytes m :
  init_ok mem bytes ->
  ∃ h0, sys_heap_init mem bytes m = Some h0 /\ client_ok (header_units mem bytes) h0 ∅ /\
    ∀ k h v op, client_ok k h v -> op_ok h op -> ∃ r h' v', heap_call op (h, v) = Some (r, (h', v')) /\ client_ok k h' v'.
Proof.
  intros Hok. destruct (client_init mem bytes m Hok) as (h0 & E0 & _ & _ & _ & Hc0). exists h0. split_and!; [done | done |].
  intros k h v op Hc Hop. destruct (client_step k h v op Hc Hop) as (r & h' & v' & E & _ & Hc'). by exists r, h', v'.
Qed.

End Run.

(** ** Witnesses: a heap of 1024 bytes at 4096 *)

Definition default_heap : HeapConfig := {| SYS_HEAP_SMALL_ONLY := false; SYS_HEAP_BIG_ONLY := false; SYS_HEAP_ALLOC_LOOPS := 3 |}.

Lemma demo_ok : @init_ok default_heap 4096 1024.
Proof. split; [lia | lia | done | by vm_compute]. Qed.

(** The heap, and the heap after an allocation of 100 bytes. *)
Lemma demo_heap : ∃ h0 fls, @sys_heap_init default_heap 4096 1024 (λ _, 0) = Some h0 /\ @heap_inv default_heap h0 [(6, Used); (121, Free)] fls /\
  hbase h0 = 4096 /\ end_chunk h0 = 127.
Proof.
  destruct (@heap_init_rep default_heap 4096 1024 (λ _, 0) demo_ok) as (h0 & fls & E & Hinv & Hb & He & _).
  assert (@header_units default_heap 4096 1024 = 6) as E6 by (by vm_compute). assert (@heap_units default_heap 4096 1024 = 127) as E127 by (by vm_compute).
  assert (ROUND_UP 4096 CHUNK_UNIT = 4096) as E4096 by (by vm_compute). rewrite E6, E127 in Hinv. rewrite E127 in He. rewrite E4096 in Hb.
  exists h0, fls. split_and!; assumption.
Qed.

Ltac sized h :=
  assert (@big_heap default_heap h = false) by (unfold big_heap; simpl; by match goal with H : end_chunk h = _ |- _ => rewrite H end);
  unfold block_of, in_range, request, padding, size_too_big, size_class, min_size, chunk_mem, chunk_header_bytes, CHUNK_UNIT in *;
  repeat match goal with H : big_heap h = _ |- _ => rewrite H in * end;
  repeat match goal with H : end_chunk h = _ |- _ => rewrite H in * | H : hbase h = _ |- _ => rewrite H in * end.

Lemma demo_block : ∃ h1 fls, @heap_inv default_heap h1 [(6, Used); (13, Used); (108, Free)] fls /\ hbase h1 = 4096 /\ end_chunk h1 = 127.
Proof.
  destruct demo_heap as (h0 & fls & _ & (R & _) & Hb & He).
  destruct (@alloc_rep default_heap 100 h0 _ fls R) as (p & h1 & E & HP); [lia | by sized h0 | by sized h0 |].
  assert ((@chunk_header_bytes default_heap h0 + 100 + 7) / 8 = 13) as En by (by sized h0). rewrite En in HP. destruct HP as [(_ & _ & Hno) | HP].
  { exfalso. specialize (Hno 6 121 ltac:(right; by left)). sized h0. specialize (Hno ltac:(lia)). by vm_compute in Hno. }
  destruct HP as (l1 & sz & l2 & fls' & El & Hne & _ & _ & R' & [P1 P2] & _). exists h1, fls'. rewrite P1, P2.
  destruct l1 as [| a [| b l1]]; [done | | destruct l1 as [| ? [|]]; discriminate El]. injection El as <- <- <-. split; [| done]. split; [done |].
  split; [| by repeat constructor]. simpl. tauto.
Qed.

(** A run: two blocks, one of them aligned to 64 bytes, a write, a growth that
    must move, and a release. *)
Definition demo_run : list heap_op := [HAlloc 0 100; HAlloc 64 20; HWrite 4148 3 [7; 8; 9]; HRealloc 4148 0 130; HFree 4288].

Lemma heap_client_safe_witness :
  ∃ h0 rs h v, @sys_heap_init default_heap 4096 1024 (λ _, 0) = Some h0 /\ @heap_run default_heap demo_run (h0, ∅) = Some (rs, (h, v)) /\
    ∀ p q bs bs', p <> q -> v !! p = Some bs -> v !! q = Some bs' -> disjoint_ranges p (len bs) q (len bs').
Proof.
  destruct (@heap_client_safe default_heap 4096 1024 (λ _, 0) demo_run demo_ok) as (h0 & rs & h & v & H1 & H2 & _ & H3 & _).
  { unfold demo_run. apply Forall_cons; split; [split; [lia |]; exists 1, 0; split; [apply asks_any | by split] |].
    apply Forall_cons; split; [split; [lia |]; exists 64, 0; split; [by apply (asks_aligned 6) | by split] |]. apply Forall_cons; split; [done |].
    apply Forall_cons; split; [split; [lia |]; exists 1; split; [apply asks_any | by split] |]. by apply Forall_singleton. }
  exists h0, rs, h, v. split; [exact H1 | split; [exact H2 | exact H3]].
Defined.

Lemma heap_alloc_spec_witness : ∃ h0 p h', @sys_heap_aligned_alloc default_heap 64 20 h0 = Some (p, h').
Proof.
  destruct demo_heap as (h0 & fls & _ & Hinv & Hb & He).
  destruct (@heap_alloc_spec default_heap 64 64 0 20 h0 _ fls Hinv) as (p & h' & E & _); [by apply (asks_aligned 6) | lia | by sized h0 | by sized h0 |].
  exists h0, p, h'. exact E.
Defined.

Lemma heap_free_spec_witness : ∃ h1 h' fls', @sys_heap_free default_heap 4148 h1 = Some h' /\ @heap_inv default_heap h' [(6, Used); (121, Free)] fls'.
Proof.
  destruct demo_block as (h1 & fls & Hinv & Hb & He).
  destruct (@heap_free_spec default_heap h1 [(6, Used)] 13 [(108, Free)] fls 4148 Hinv) as (h' & fls' & E & Hinv' & _); [done | by sized h1 |].
  exists h1, h', fls'. split; [exact E | exact Hinv'].
Defined.

Lemma heap_realloc_spec_witness : ∃ h1 h', @sys_heap_aligned_realloc default_heap 4148 0 40 h1 = Some (4148, h').
Proof.
  destruct demo_block as (h1 & fls & Hinv & Hb & He).
  destruct (@heap_realloc_spec default_heap h1 _ fls 6 13 4148 0 1 40 Hinv) as (p & h' & E & _ & Hp);
    [right; by left | done | by sized h1 | by sized h1 | apply asks_any | done | by sized h1 | by sized h1 |].
  exists h1, h'. rewrite E, Hp; [reflexivity | apply Z.divide_1_l | left; by sized h1].
Defined.

Lemma heap_bucket_overrun_witness : ∃ h0, @sys_heap_init default_heap 4096 1024 (λ _, 0) = Some h0 /\ @sys_heap_alloc default_heap 1013 h0 = None.
Proof.
  destruct demo_heap as (h0 & fls & E & Hinv & Hb & He). exists h0. split; [exact E |].
  apply (@heap_bucket_overrun default_heap h0 _ fls 1013 Hinv); [done | by sized h0 | by sized h0].
Defined.

Lemma heap_well_formed_witness : ∃ h0, @sys_heap_init default_heap 4096 1024 (λ _, 0) = Some h0 /\ @client_ok default_heap 6 h0 ∅.
Proof.
  destruct (@heap_well_formed default_heap 4096 1024 (λ _, 0) demo_ok) as (h0 & E & Hc & _). exists h0. split; [exact E |].
  assert (@header_units default_heap 4096 1024 = 6) as E6 by (by vm_compute). rewrite E6 in Hc. exact Hc.
Defined.
