(* ===== verification/KHeap.v ===== *)
(** * Kernel heaps (kernel/kheap.c)

    A [k_heap] is a [sys_heap] with a wait queue.  An allocation that finds no
    room waits and tries again when memory has been freed: the loop of
    [k_heap_aligned_alloc] is cut at the context switch, so one definition is
    one pass through the loop and a waiting thread goes on with another pass. *)

From Stdlib Require Import ZArith Lia Bool.
From stdpp Require Import base numbers list gmap sets.
From S2P Require Import Prelude Memory TimeoutQ Kernel PrioQ Sched SchedInv SchedOps Threads WaitApi Heap HeapInv HeapSpec HeapClient HeapRun.

Open Scope Z_scope.

(** ** [struct k_heap] *)

Record k_heap := mk_k_heap { kh_heap : z_heap; kh_wait_q : wqid }.

Definition set_kh_heap (h : z_heap) (heap : k_heap) : k_heap := mk_k_heap h (kh_wait_q heap).

Definition sizeof_ptr : Z := 4.

Section Ops.
Context {kcfg : Kconfig} {cfg : HeapConfig}.
Implicit Types (heap : k_heap) (s : z_kernel).

Definition k_heap_init heap (mem bytes : Z) (m : Memory.mem) s : option (k_heap * z_kernel) :=
  let s := z_waitq_init (kh_wait_q heap) s in
  h ← sys_heap_init mem bytes m;
  Some (set_kh_heap h heap, s).

(** One pass through the loop: the outcome and the timeout of the next pass. *)
Definition heap_alloc_pass heap (align bytes timeout end_ : Z) s : option (outcome * Z * k_heap * z_kernel) :=
  '(ret, h) ← sys_heap_aligned_alloc align bytes (kh_heap heap);
  let heap := set_kh_heap h heap in
  if negb (ret =? 0) || K_TIMEOUT_EQ timeout K_NO_WAIT then Some (Returns ret, timeout, heap, s)
  else
    let timeout := sys_timepoint_timeout end_ (timeouts s) in
    Some (Blocks, timeout, heap, z_pend_curr (kh_wait_q heap) timeout s).

Definition k_heap_aligned_alloc heap (align bytes timeout : Z) s : option (outcome * Z * k_heap * z_kernel) :=
  let end_ := sys_timepoint_calc timeout (timeouts s) in
  heap_alloc_pass heap align bytes timeout end_ s.

Definition k_heap_alloc heap (bytes timeout : Z) s : option (outcome * Z * k_heap * z_kernel) :=
  k_heap_aligned_alloc heap sizeof_ptr bytes timeout s.

Definition heap_realloc_pass heap (ptr bytes timeout end_ : Z) s : option (outcome * Z * k_heap * z_kernel) :=
  '(ret, h) ← sys_heap_aligned_realloc ptr sizeof_ptr bytes (kh_heap heap);
  let heap := set_kh_heap h heap in
  if negb (ret =? 0) || K_TIMEOUT_EQ timeout K_NO_WAIT then Some (Returns ret, timeout, heap, s)
  else
    let timeout := sys_timepoint_timeout end_ (timeouts s) in
    Some (Blocks, timeout, heap, z_pend_curr (kh_wait_q heap) timeout s).

Definition k_heap_realloc heap (ptr bytes timeout : Z) s : option (outcome * Z * k_heap * z_kernel) :=
  let end_ := sys_timepoint_calc timeout (timeouts s) in
  heap_realloc_pass heap ptr bytes timeout end_ s.

Definition k_heap_free heap (mem : Z) s : option (k_heap * z_kernel) :=
  h ← sys_heap_free mem (kh_heap heap);
  let heap := set_kh_heap h heap in
  let '(n, s) := z_unpend_all (kh_wait_q heap) s in
  Some (heap, if negb (n =? 0) then z_reschedule s else s).

(** ** Kernel heaps: what a call does *)

Lemma unpend_all_facts w s :
  sched_inv ∅ s -> let s' := (z_unpend_all w s).2 in
  sched_inv ∅ s' /\ waitq s' w = [] /\ ((z_unpend_all w s).1 = 0 -> s' = s).
Proof.
  intros Hs s'. destruct (inv_z_unpend_all w s Hs) as [H1 H2]. split_and!; [done | done |].
  unfold s', z_unpend_all, z_waitq_head. cbn [fst snd]. by destruct (waitq s w).
Qed.

Lemma kheap_free_rep heap mem s h' :
  sched_inv ∅ s -> sys_heap_free mem (kh_heap heap) = Some h' ->
  ∃ s', k_heap_free heap mem s = Some (set_kh_heap h' heap, s') /\ sched_inv ∅ s' /\ waitq s' (kh_wait_q heap) = [].
Proof.
  intros Hs E. unfold k_heap_free. rewrite E. cbn [mbind option_bind kh_wait_q set_kh_heap].
  destruct (unpend_all_facts (kh_wait_q heap) s Hs) as (H1 & H2 & _). destruct (z_unpend_all (kh_wait_q heap) s) as [n s1]. cbn [fst snd] in *.
  eexists. split; [done |]. case_match; [| done].
  split; [by rewrite <- same_reschedule | by rewrite (same_waitq _ _ (same_reschedule s1))].
Qed.

(** What an allocation does to the blocks held. *)
Definition allocated (o : outcome) (bytes : Z) (h : z_heap) (v : gmap Z (list Z)) : gmap Z (list Z) :=
  match o with
  | Returns p => if p =? 0 then v else <[p := read_bytes (hmem h) p (Z.to_nat bytes)]> v
  | Blocks => v
  end.

Lemma alloc_pass_rep k heap v align bytes timeout end_ s :
  sched_inv ∅ s -> client_ok k (kh_heap heap) v -> op_ok (kh_heap heap) (HAlloc align bytes) ->
  current s ∈ runq s -> valid_timeout (sys_timepoint_timeout end_ (timeouts s)) ->
  ∃ o t h' s', heap_alloc_pass heap align bytes timeout end_ s = Some (o, t, set_kh_heap h' heap, s') /\
    outside_same (kh_heap heap) h' /\ client_ok k h' (allocated o bytes h' v) /\ sched_inv ∅ s' /\
    match o with
    | Returns p => s' = s /\ (p = 0 -> timeout = K_NO_WAIT)
    | Blocks => timeout <> K_NO_WAIT /\ pended (kh_wait_q heap) s s'
    end.
Proof.
  intros Hs Hok Hop Hc Hv. destruct (client_alloc k _ v align bytes Hok Hop) as (p & h' & E & O & Hok').
  unfold heap_alloc_pass. rewrite E. cbn [mbind option_bind]. unfold K_TIMEOUT_EQ. destruct (Z.eqb_spec p 0) as [-> | Hp]; cbn [negb orb].
  - destruct (Z.eqb_spec timeout K_NO_WAIT) as [Ht | Ht].
    + by exists (Returns 0), timeout, h', s.
    + eexists Blocks, _, h', _. split; [done |]. pose proof (pend_curr (kh_wait_q heap) _ s Hs Hc Hv) as Hp. split_and!; try done. apply Hp.
  - exists (Returns p), timeout, h', s. unfold allocated. rewrite (proj2 (Z.eqb_neq p 0)) by done. done.
Qed.

(** What a resize does to the blocks held. *)
Definition reallocated (o : outcome) (p : Z) (bs : list Z) (bytes : Z) (h : z_heap) (v : gmap Z (list Z)) : gmap Z (list Z) :=
  match o with
  | Returns q => if q =? 0 then (if bytes =? 0 then delete p v else v) else <[q := resize_contents bs bytes (hmem h) q]> (delete p v)
  | Blocks => v
  end.

Lemma realloc_pass_rep k heap v p bs bytes timeout end_ s :
  sched_inv ∅ s -> client_ok k (kh_heap heap) v -> op_ok (kh_heap heap) (HRealloc p sizeof_ptr bytes) -> v !! p = Some bs ->
  bytes <> 0 \/ timeout = K_NO_WAIT -> current s ∈ runq s -> valid_timeout (sys_timepoint_timeout end_ (timeouts s)) ->
  ∃ o t h' s', heap_realloc_pass heap p bytes timeout end_ s = Some (o, t, set_kh_heap h' heap, s') /\
    client_ok k h' (reallocated o p bs bytes h' v) /\ sched_inv ∅ s' /\
    match o with Returns q => s' = s /\ (q = 0 -> timeout = K_NO_WAIT) | Blocks => pended (kh_wait_q heap) s s' end.
Proof.
  intros Hs Hok Hop Hp Hz Hc Hv. destruct (client_realloc k _ v p sizeof_ptr bytes bs Hok Hop Hp) as (q & h' & E & _ & Hok').
  unfold heap_realloc_pass. rewrite E. cbn [mbind option_bind]. unfold K_TIMEOUT_EQ. destruct (Z.eqb_spec q 0) as [-> | Hq]; cbn [negb orb].
  - destruct (Z.eqb_spec timeout K_NO_WAIT) as [Ht | Ht].
    + by exists (Returns 0), timeout, h', s.
    + destruct Hz as [Hz | Hz]; [| done]. rewrite (proj2 (Z.eqb_neq bytes 0) Hz) in Hok'.
      eexists Blocks, _, h', _. split; [done |]. pose proof (pend_curr (kh_wait_q heap) _ s Hs Hc Hv) as Hpd. split_and!; try done. apply Hpd.
  - exists (Returns q), timeout, h', s. unfold reallocated. rewrite (proj2 (Z.eqb_neq q 0)) by done. done.
Qed.

Lemma realloc_zero k h v p bs : client_ok k h v -> v !! p = Some bs ->
  ∃ h', sys_heap_aligned_realloc p sizeof_ptr 0 h = Some (0, h') /\ client_ok k h' (delete p v).
Proof.
  intros Hok Hp. destruct (client_free k h v p bs Hok Hp) as (h' & E & _ & Hok'). exists h'. split; [| done].
  unfold sys_heap_aligned_realloc. rewrite (proj2 (Z.eqb_neq p 0)), E; [done |]. by apply (client_nonnull k h v p bs).
Qed.

(** ** Threads that wait for memory *)

(** The locals of a thread inside [k_heap_aligned_alloc], or inside
    [k_heap_realloc] of a block, with the number of calls of [k_heap_free] there
    had been when its last attempt failed. *)
Record pending_alloc := mk_request { rq_ptr : option Z; rq_align : Z; rq_bytes : Z; rq_timeout : Z; rq_end : Z; rq_seen : nat }.

Record heap_system := mk_system {
  sys_kheap : k_heap;
  sys_blocks : gmap Z (list Z);
  sys_waiters : gmap tid pending_alloc;
  sys_releases : nat;
  sys_kernel : z_kernel
}.

(** The thread waits, or its call is over. *)
Definition pass_done (c : tid) (o : outcome) (rq : pending_alloc) (W : gmap tid pending_alloc) : gmap tid pending_alloc :=
  match o with Returns _ => delete c W | Blocks => <[c := rq]> W end.

(** A step of the threads that use one heap.  A resize may wait unless it is to
    nothing (see [kheap_realloc_frees_twice]).  [heap_step_other] is anything
    else the kernel does: it may take waiters off the queue but adds none. *)
Inductive heap_step : heap_system -> heap_system -> Prop :=
  | heap_step_alloc heap v W n s align bytes timeout o t heap' s' :
      current s ∈ runq s -> W !! current s = None -> op_ok (kh_heap heap) (HAlloc align bytes) ->
      valid_timeout (sys_timepoint_timeout (sys_timepoint_calc timeout (timeouts s)) (timeouts s)) ->
      k_heap_aligned_alloc heap align bytes timeout s = Some (o, t, heap', s') ->
      heap_step (mk_system heap v W n s)
        (mk_system heap' (allocated o bytes (kh_heap heap') v)
           (pass_done (current s) o (mk_request None align bytes t (sys_timepoint_calc timeout (timeouts s)) n) W) n s')
  | heap_step_resume heap v W n s rq o t heap' s' :
      current s ∈ runq s -> W !! current s = Some rq -> rq_ptr rq = None -> op_ok (kh_heap heap) (HAlloc (rq_align rq) (rq_bytes rq)) ->
      valid_timeout (sys_timepoint_timeout (rq_end rq) (timeouts s)) ->
      heap_alloc_pass heap (rq_align rq) (rq_bytes rq) (rq_timeout rq) (rq_end rq) s = Some (o, t, heap', s') ->
      heap_step (mk_system heap v W n s)
        (mk_system heap' (allocated o (rq_bytes rq) (kh_heap heap') v)
           (pass_done (current s) o (mk_request None (rq_align rq) (rq_bytes rq) t (rq_end rq) n) W) n s')
  | heap_step_realloc heap v W n s p bs bytes timeout o t heap' s' :
      current s ∈ runq s -> W !! current s = None -> v !! p = Some bs -> op_ok (kh_heap heap) (HRealloc p sizeof_ptr bytes) ->
      bytes <> 0 \/ timeout = K_NO_WAIT ->
      valid_timeout (sys_timepoint_timeout (sys_timepoint_calc timeout (timeouts s)) (timeouts s)) ->
      k_heap_realloc heap p bytes timeout s = Some (o, t, heap', s') ->
      heap_step (mk_system heap v W n s)
        (mk_system heap' (reallocated o p bs bytes (kh_heap heap') v)
           (pass_done (current s) o (mk_request (Some p) sizeof_ptr bytes t (sys_timepoint_calc timeout (timeouts s)) n) W) n s')
  | heap_step_realloc_resume heap v W n s rq p bs o t heap' s' :
      current s ∈ runq s -> W !! current s = Some rq -> rq_ptr rq = Some p -> v !! p = Some bs ->
      op_ok (kh_heap heap) (HRealloc p sizeof_ptr (rq_bytes rq)) -> rq_bytes rq <> 0 ->
      valid_timeout (sys_timepoint_timeout (rq_end rq) (timeouts s)) ->
      heap_realloc_pass heap p (rq_bytes rq) (rq_timeout rq) (rq_end rq) s = Some (o, t, heap', s') ->
      heap_step (mk_system heap v W n s)
        (mk_system heap' (reallocated o p bs (rq_bytes rq) (kh_heap heap') v)
           (pass_done (current s) o (mk_request (Some p) sizeof_ptr (rq_bytes rq) t (rq_end rq) n) W) n s')
  | heap_step_free heap v W n s p bs heap' s' :
      v !! p = Some bs -> k_heap_free heap p s = Some (heap', s') ->
      heap_step (mk_system heap v W n s) (mk_system heap' (delete p v) W (S n) s')
  | heap_step_other heap v W n s s' :
      sched_inv ∅ s' -> waitq s' (kh_wait_q heap) ⊆ waitq s (kh_wait_q heap) -> heap_step (mk_system heap v W n s) (mk_system heap v W n s').

(** Whoever waits has tried since the last call of [k_heap_free]. *)
Record system_ok (k : Z) (x : heap_system) : Prop := {
  so_sched : sched_inv ∅ (sys_kernel x);
  so_client : client_ok k (kh_heap (sys_kheap x)) (sys_blocks x);
  so_waiters : ∀ t, t ∈ waitq (sys_kernel x) (kh_wait_q (sys_kheap x)) -> ∃ rq, sys_waiters x !! t = Some rq /\ rq_seen rq = sys_releases x
}.

(** A pass leaves the others waiting and puts the caller on the queue or not. *)
Lemma waiters_after heap W n s (rq : pending_alloc) o s' :
  sched_inv ∅ s -> current s ∈ runq s -> rq_seen rq = n ->
  (∀ t, t ∈ waitq s (kh_wait_q heap) -> ∃ rq, W !! t = Some rq /\ rq_seen rq = n) ->
  match o with Returns _ => s' = s | Blocks => pended (kh_wait_q heap) s s' end ->
  ∀ t, t ∈ waitq s' (kh_wait_q heap) -> ∃ rq', pass_done (current s) o rq W !! t = Some rq' /\ rq_seen rq' = n.
Proof.
  intros Hs Hc Hrq Hw Ho u Hu. destruct o as [p |]; simpl.
  - subst s'. rewrite lookup_delete_ne; [by apply Hw |]. intros <-. by apply (waiter_not_current s (kh_wait_q heap) (current s)).
  - rewrite (pd_waitq _ _ _ Ho), decide_True in Hu by done. destruct (decide (u = current s)) as [-> | Hne].
    { rewrite lookup_insert_eq. by eexists. }
    rewrite lookup_insert_ne by done. apply Hw. by rewrite dumb_add_elem in Hu; destruct Hu.
Qed.

Lemma pass_waiters k heap v W n s (rq : Z -> pending_alloc) align bytes timeout end_ o t heap' s' :
  system_ok k (mk_system heap v W n s) -> current s ∈ runq s -> op_ok (kh_heap heap) (HAlloc align bytes) ->
  valid_timeout (sys_timepoint_timeout end_ (timeouts s)) -> (∀ t, rq_seen (rq t) = n) ->
  heap_alloc_pass heap align bytes timeout end_ s = Some (o, t, heap', s') ->
  system_ok k (mk_system heap' (allocated o bytes (kh_heap heap') v) (pass_done (current s) o (rq t) W) n s').
Proof.
  intros [Hs Hok Hw] Hc Hop Hv Hrq E. simpl in Hs, Hok, Hw.
  destruct (alloc_pass_rep k heap v align bytes timeout end_ s Hs Hok Hop Hc Hv) as (o' & t' & h' & s'' & E' & _ & Hok' & Hs' & Ho).
  rewrite E' in E. injection E as -> -> <- ->. split; [done | done |]. apply (waiters_after heap W n s); try done. destruct o; tauto.
Qed.

Lemma realloc_waiters k heap v W n s (rq : Z -> pending_alloc) p bs bytes timeout end_ o t heap' s' :
  system_ok k (mk_system heap v W n s) -> current s ∈ runq s -> v !! p = Some bs -> op_ok (kh_heap heap) (HRealloc p sizeof_ptr bytes) ->
  bytes <> 0 \/ timeout = K_NO_WAIT -> valid_timeout (sys_timepoint_timeout end_ (timeouts s)) -> (∀ t, rq_seen (rq t) = n) ->
  heap_realloc_pass heap p bytes timeout end_ s = Some (o, t, heap', s') ->
  system_ok k (mk_system heap' (reallocated o p bs bytes (kh_heap heap') v) (pass_done (current s) o (rq t) W) n s').
Proof.
  intros [Hs Hok Hw] Hc Hp Hop Hz Hv Hrq E. simpl in Hs, Hok, Hw.
  destruct (realloc_pass_rep k heap v p bs bytes timeout end_ s Hs Hok Hop Hp Hz Hc Hv) as (o' & t' & h' & s'' & E' & Hok' & Hs' & Ho).
  rewrite E' in E. injection E as -> -> <- ->. split; [done | done |]. apply (waiters_after heap W n s); try done. destruct o; tauto.
Qed.

Lemma heap_step_ok k x y : heap_step x y -> system_ok k x -> system_ok k y.
Proof.
  destruct 1 as [heap v W n s align bytes timeout o t heap' s' Hc HW Hop Hv E | heap v W n s rq o t heap' s' Hc HW Hq Hop Hv E
    | heap v W n s p bs bytes timeout o t heap' s' Hc HW Hp Hop Hz Hv E | heap v W n s rq p bs o t heap' s' Hc HW Hq Hp Hop Hz Hv E
    | heap v W n s p bs heap' s' Hp E | heap v W n s s' Hs' Hsub]; intros Hsys.
  - by apply (pass_waiters k heap v W n s (λ t, mk_request None align bytes t (sys_timepoint_calc timeout (timeouts s)) n) align bytes timeout (sys_timepoint_calc timeout (timeouts s))).
  - by apply (pass_waiters k heap v W n s (λ t, mk_request None (rq_align rq) (rq_bytes rq) t (rq_end rq) n) (rq_align rq) (rq_bytes rq) (rq_timeout rq) (rq_end rq)).
  - by apply (realloc_waiters k heap v W n s (λ t, mk_request (Some p) sizeof_ptr bytes t (sys_timepoint_calc timeout (timeouts s)) n) p bs bytes timeout (sys_timepoint_calc timeout (timeouts s))).
  - apply (realloc_waiters k heap v W n s (λ t, mk_request (Some p) sizeof_ptr (rq_bytes rq) t (rq_end rq) n) p bs (rq_bytes rq) (rq_timeout rq) (rq_end rq)); auto.
  - destruct Hsys as [Hs Hok _]. simpl in Hs, Hok. destruct (client_free k _ v p bs Hok Hp) as (h' & Ef & _ & Hok').
    destruct (kheap_free_rep heap p s h' Hs Ef) as (s'' & E' & Hs' & Hw'). rewrite E' in E. injection E as <- ->.
    split; [done | done |]. simpl. rewrite Hw'. intros t Ht. by apply elem_of_nil in Ht.
  - destruct Hsys as [Hs Hok Hw]. split; [done | done |]. simpl in *. intros t Ht. apply Hw. by apply Hsub.
Qed.


(** C31: resizing a block to nothing with a timeout frees it and waits; when
    the thread runs again it frees whatever block is then at that address. *)
Theorem kheap_realloc_frees_twice k heap v p bs timeout s :
  client_ok k (kh_heap heap) v -> v !! p = Some bs -> timeout <> K_NO_WAIT ->
  ∃ t h1, k_heap_realloc heap p 0 timeout s = Some (Blocks, t, set_kh_heap h1 heap, z_pend_curr (kh_wait_q heap) t s) /\ client_ok k h1 (delete p v) /\
    ∀ h2 v2 bs2 end_ s2, client_ok k h2 v2 -> v2 !! p = Some bs2 ->
      ∃ o t' h3 s3, heap_realloc_pass (set_kh_heap h2 heap) p 0 t end_ s2 = Some (o, t', set_kh_heap h3 heap, s3) /\ client_ok k h3 (delete p v2).
Proof.
  intros Hok Hp Ht. pose proof (λ h v b, realloc_zero k h v p b) as Hz. destruct (Hz _ _ _ Hok Hp) as (h1 & E1 & Hok1).
  eexists _, h1. split; [| split; [done |]].
  - unfold k_heap_realloc, heap_realloc_pass. rewrite E1. cbn [mbind option_bind]. unfold K_TIMEOUT_EQ. rewrite (proj2 (Z.eqb_neq _ _) Ht). done.
  - intros h2 v2 bs2 end_ s2 Hok2 Hp2. destruct (Hz _ _ _ Hok2 Hp2) as (h3 & E3 & Hok3).
    unfold heap_realloc_pass. cbn [kh_heap set_kh_heap]. rewrite E3. cbn [mbind option_bind]. destruct (_ || _); by eexists _, _, h3, _.
Qed.

Lemma shrink_frees h l fls c sz ptr arg align bytes :
  heap_inv h l fls -> chunk_at l c sz Used -> 0 < c -> block_of h c ptr -> asks arg align 0 -> (align | ptr) -> 1 <= bytes ->
  let need := (chunk_header_bytes h + (bytes + (ptr - chunk_mem h c)) + 7) / 8 in need < sz ->
  ∃ h' l' fls' c' z, sys_heap_aligned_realloc ptr arg bytes h = Some (ptr, h') /\ rep h' l' fls' /\ same_place h h' /\ chunk_at l' c' z Free /\ sz - need <= z.
Proof.
  intros (R & Hco & Hse) Hc Hc0 Hp Hask Ha Hb need Hlt. pose proof (rep_geo _ _ _ R) as G. pose proof (rep_range _ _ _ R _ _ _ Hc) as Hr.
  pose proof (rep_end_bounds _ _ _ R) as He. pose proof (geo_base _ G) as Hb0. pose proof (geo_top _ G) as Ht.
  assert (4 <= chunk_header_bytes h <= 8) as Hh by (rewrite header_bytes_cases; destruct (big_heap h); lia).
  assert (0 <= ptr - chunk_mem h c < 8) as Hgap by (unfold block_of in Hp; lia).
  destruct (chunk_at_split _ _ _ _ Hc) as (l1 & l2 & El & Ec). symmetry in Ec.
  destruct (need_covers h l1 ptr bytes) as [Hn1 Hn2]; [by rewrite <- Ec | done |]. rewrite <- Ec in Hn1, Hn2. fold need in Hn1, Hn2.
  assert (0 < min_size h) as Hm by (unfold min_size; destruct (big_heap h); lia).
  destruct (size_too_big h bytes) eqn:Hs; [apply too_big_bytes in Hs; unfold chunk_mem, CHUNK_UNIT in *; lia |].
  destruct (geo_bytes h bytes G ltac:(lia) Hs) as [Hb1 _].
  unfold sys_heap_aligned_realloc. rewrite (proj2 (Z.eqb_neq ptr 0)) by (unfold chunk_mem, CHUNK_UNIT in *; lia).
  rewrite (proj2 (Z.eqb_neq bytes 0)), Hs by lia. rewrite (block_chunkid h c ptr G) by (done || lia).
  rewrite (wrap_u_id 32 (ptr - chunk_mem h c)), (wrap_u_id 32 (bytes + _)), need_eq, (rep_right _ _ _ R _ _ _ Hc), (rep_size _ _ _ R _ _ _ Hc) by lia.
  fold need. rewrite (proj2 (aligned_test arg align ptr Hask) Ha), (proj2 (Z.eqb_neq sz need)), (proj2 (Z.ltb_lt need sz)), wrap_u_id by lia.
  rewrite El in R, Hse. rewrite Ec in *. apply settled_app in Hse as [S1 S2]. apply settled_cons in S2 as [_ S2].
  destruct (realloc_shrink h l1 sz l2 fls need R) as (h' & fls' & -> & R' & K); [by intros -> | done | done | lia |]. simpl.
  pose proof (chunk_at_mid (l1 ++ [(need, Used)]) (join_right (sz - need) l2).1 Free (join_right (sz - need) l2).2) as Hf. rewrite <- app_assoc in Hf.
  assert (released [] (sz - need) l2 = ((join_right (sz - need) l2).1, Free) :: (join_right (sz - need) l2).2) as Er.
  { unfold released. by destruct (join_right _ _). }
  rewrite Er in R'. eexists h', _, fls', _, _. split_and!; [done | exact R' | apply K | exact Hf |].
  pose proof (rep_sized _ _ _ R) as Hz. apply sized_app in Hz as [_ Hz]. apply sized_cons in Hz as [_ Hz].
  destruct l2 as [| [b []] l2]; simpl; try lia. apply sized_cons in Hz. simpl in Hz. lia.
Qed.

(** A client that shrinks a block gets the rest back as room for others. *)
Lemma shrink_leaves_room k h v p bs bytes b :
  client_ok k h v -> v !! p = Some bs -> (4 | p) -> 1 <= bytes -> 1 <= b -> 2 * b + 37 <= len bs - bytes ->
  hbase h + 8 * end_chunk h + chunk_header_bytes h + 4 <= 2 ^ 32 ->
  ∃ h' q h2, sys_heap_aligned_realloc p 4 bytes h = Some (p, h') /\ client_ok k h' (<[p := take (Z.to_nat bytes) bs]> v) /\
    sys_heap_aligned_alloc 4 b h' = Some (q, h2) /\ q <> 0.
Proof.
  intros Hok Hp Ha Hb1 Hb Hroom Hw. pose proof Hok as (l & fls & Hinv & _ & Hcov). pose proof Hinv as (R & _).
  destruct (cov_block _ _ _ Hcov _ _ Hp) as (c & sz & Hc & Hpos & Hblk & Hend & _).
  assert (4 <= chunk_header_bytes h <= 8) as Hh by (rewrite header_bytes_cases; destruct (big_heap h); lia).
  pose proof (rep_range _ _ _ R _ _ _ Hc) as Hr. assert (asks 4 4 0) as Hask by (by apply (asks_aligned 2)).
  set (need := (chunk_header_bytes h + (bytes + (p - chunk_mem h c)) + 7) / 8).
  assert (∀ n, request h 4 0 n = (chunk_header_bytes h + n + 7) / 8) as Erq.
  { intros n. unfold request, padding. simpl. rewrite (proj2 (Z.leb_le 4 _)) by lia. f_equal. lia. }
  assert (2 * request h 4 0 b <= sz - need) as Hn2 by (rewrite Erq; unfold need, chunk_mem, CHUNK_UNIT in *; Z.div_mod_to_equations; lia).
  assert (1 <= request h 4 0 b /\ request h 4 0 bytes <= end_chunk h) as [Hrq Hrq'] by (rewrite !Erq; unfold block_of, chunk_mem, CHUNK_UNIT in *; split; Z.div_mod_to_equations; lia).
  assert (0 <= need) as Hn0 by (unfold need, block_of in *; apply Z.div_pos; lia).
  destruct (shrink_frees h l fls c sz p 4 4 bytes) as (h' & l' & fls' & c' & z & E & R' & P & Hf & Hz); try done; [fold need; lia |]. fold need in Hz.
  destruct (client_realloc k h v p 4 bytes bs Hok) as (q & h'' & E' & _ & Hok'); [| done |].
  { split; [lia |]. exists 4. split_and!; [done | done |]. intros _ _. by apply size_class_mono. }
  rewrite E in E'. injection E' as <- <-. pose proof (client_nonnull _ _ _ _ _ Hok Hp) as Hp0.
  rewrite (proj2 (Z.eqb_neq p 0) Hp0), insert_delete_eq in Hok'.
  assert (resize_contents bs bytes (hmem h') p = take (Z.to_nat bytes) bs) as Ers.
  { unfold resize_contents. rewrite length_take, Nat.min_l, Nat.sub_diag by lia. by rewrite app_nil_r. }
  rewrite Ers in Hok'. pose proof (same_place_big _ _ P) as Eb. assert (∀ n, request h' 4 0 n = request h 4 0 n) as Erq'.
  { intros n. unfold request, padding, chunk_header_bytes. by rewrite Eb. }
  assert (chunk_header_bytes h' = chunk_header_bytes h) as Eh by (unfold chunk_header_bytes; by rewrite Eb). destruct P as [P1 P2].
  destruct (aligned_alloc_rep 4 4 0 b h' l' fls' R' Hask Hb) as (q & h2 & E2 & Hcase).
  - destruct (size_too_big h' b) eqn:Hs; [| done]. apply too_big_bytes in Hs. rewrite P2 in Hs. rewrite Erq in Hn2. Z.div_mod_to_equations. lia.
  - by rewrite P1, P2, Eh.
  - rewrite Erq', P2. apply size_class_mono. lia.
  - exists h', q, h2. split_and!; try done. destruct Hcase as [(-> & _ & Hno) | (l2 & c2 & n2 & G)].
    + pose proof (no_room_double h' l' fls' 4 4 0 b R' Hask Hb Hno _ _ Hf). rewrite Erq' in *. lia.
    + pose proof (gave_fresh _ _ _ _ _ _ _ _ _ _ _ R' G) as [Hpos' _]. destruct G as (? & ? & ? & ? & ? & _ & _ & _ & _ & _ & _ & _ & _ & _ & _ & Hblk' & _).
      pose proof (geo_base _ (rep_geo _ _ _ R')). unfold block_of, chunk_mem, CHUNK_UNIT in Hblk'. rewrite Eh in Hblk'. lia.
Qed.

(** C32: a resize that releases memory wakes nobody: when a block of a
    well-formed heap, at a word address, is shrunk by at least [2 * b + 37] bytes
    (and the heap does not run up to the end of the address space), the resize
    returns the block in place with its remaining contents whatever the timeout,
    the kernel with its waiting threads is as before, and yet a thread that waits
    for [b] bytes would get them on another pass through its loop; releasing the
    block by [k_heap_free] would have woken every waiter. *)
Theorem kheap_realloc_misses_waiter k heap v p bs bytes b timeout s :
  sched_inv ∅ s -> client_ok k (kh_heap heap) v -> v !! p = Some bs -> (sizeof_ptr | p) -> 1 <= bytes -> 1 <= b -> 2 * b + 37 <= len bs - bytes ->
  hbase (kh_heap heap) + 8 * end_chunk (kh_heap heap) + chunk_header_bytes (kh_heap heap) + sizeof_ptr <= 2 ^ 32 ->
  (∃ h' q h2, k_heap_realloc heap p bytes timeout s = Some (Returns p, timeout, set_kh_heap h' heap, s) /\
    client_ok k h' (<[p := take (Z.to_nat bytes) bs]> v) /\ q <> 0 /\
    ∀ t end_ s', heap_alloc_pass (set_kh_heap h' heap) sizeof_ptr b t end_ s' = Some (Returns q, t, set_kh_heap h2 heap, s')) /\
  ∃ heap' s', k_heap_free heap p s = Some (heap', s') /\ waitq s' (kh_wait_q heap) = [].
Proof.
  intros Hs Hok Hp Ha Hb1 Hb Hroom Hw. split.
  - destruct (shrink_leaves_room k (kh_heap heap) v p bs bytes b) as (h' & q & h2 & E & Hok' & Eq & Hq); try done.
    pose proof (client_nonnull _ _ _ _ _ Hok Hp) as Hp0. exists h', q, h2. split_and!; try done.
    + unfold k_heap_realloc, heap_realloc_pass, sizeof_ptr. rewrite E. cbn [mbind option_bind]. by rewrite (proj2 (Z.eqb_neq p 0) Hp0).
    + intros t end_ s'. unfold heap_alloc_pass, sizeof_ptr. cbn [kh_heap set_kh_heap]. rewrite Eq. cbn [mbind option_bind]. by rewrite (proj2 (Z.eqb_neq q 0) Hq).
  - destruct (client_free k _ v p bs Hok Hp) as (h' & E & _). destruct (kheap_free_rep heap p s h' Hs E) as (s' & E' & _ & Hw'). by eexists _, s'.
Qed.

End Ops.

(** ** A heap of 1024 bytes *)

#[local] Existing Instance default_kconfig | 100.
#[local] Existing Instance default_heap | 100.

Definition kheap0 (h : z_heap) : k_heap := mk_k_heap h (inr 5%nat).

Lemma demo_client : ∃ h0, sys_heap_init 4096 1024 (λ _, 0) = Some h0 /\ hbase h0 = 4096 /\ end_chunk h0 = 127 /\ client_ok 6 h0 ∅.
Proof.
  destruct (client_init 4096 1024 (λ _, 0) demo_ok) as (h0 & E & Hb & He & _ & Hc).
  assert (header_units 4096 1024 = 6) as E6 by by_compute. assert (heap_units 4096 1024 = 127) as E127 by by_compute.
  assert (ROUND_UP 4096 CHUNK_UNIT = 4096) as E4096 by by_compute. rewrite E6 in Hc. rewrite E127 in He. rewrite E4096 in Hb.
  exists h0. split_and!; assumption.
Qed.

Lemma demo_asks h bytes : hbase h = 4096 -> end_chunk h = 127 -> bytes ∈ [100; 300; 800; 2000] -> op_ok h (HAlloc 4 bytes).
Proof.
  intros Hb He Hn. repeat (apply elem_of_cons in Hn as [-> | Hn]; [split; [done |]; exists 4, 0; split; [by apply (asks_aligned 2) |]; by sized h |]).
  by apply elem_of_nil in Hn.
Qed.


Lemma demo_held : ∃ h bs, client_ok 6 h {[4148 := bs]}.
Proof.
  destruct demo_client as (h0 & E0 & Hb & He & Hc). destruct (client_alloc 6 h0 ∅ 4 100 Hc) as (p & h & E & _ & Hc'); [apply demo_asks; [exact Hb | exact He | by_compute] |].
  assert ((h0 ← sys_heap_init 4096 1024 (λ _, 0); '(p, h) ← sys_heap_aligned_alloc 4 100 h0; Some p) = Some 4148) as F by (vm_compute; reflexivity).
  rewrite E0 in F. cbn [mbind option_bind] in F. rewrite E in F. cbn [mbind option_bind] in F. injection F as ->.
  change (4148 =? 0) with false in Hc'. cbv iota in Hc'. rewrite insert_empty in Hc'. eexists h, _. exact Hc'.
Qed.

Lemma kheap_realloc_frees_twice_witness : ∃ h t h1 s, k_heap_realloc (kheap0 h) 4148 0 50 two_threads = Some (Blocks, t, kheap0 h1, s) /\ client_ok 6 h1 ∅.
Proof.
  destruct demo_held as (h & bs & Hc).
  destruct (kheap_realloc_frees_twice 6 (kheap0 h) {[4148 := bs]} 4148 bs 50 two_threads Hc) as (t & h1 & E & Hc' & _); [apply lookup_singleton_eq | discriminate |].
  exists h, t, h1. eexists. split; [exact E |]. rewrite delete_singleton_eq in Hc'. exact Hc'.
Defined.

(** With 800 bytes in use a request for 300 fails. *)
Lemma demo_full :
  ∃ h h1 bs, sys_heap_aligned_alloc 4 300 h = Some (0, h1) /\ client_ok 6 h1 {[4148 := bs]} /\ len bs = 800 /\ hbase h1 = 4096 /\ end_chunk h1 = 127.
Proof.
  destruct demo_client as (h0 & E0 & Hb & He & Hc). destruct (client_alloc 6 h0 ∅ 4 800 Hc) as (p & h & E & [[Pb Pe] _] & Hc'); [apply demo_asks; [done | done | by_compute] |].
  assert ((h0 ← sys_heap_init 4096 1024 (λ _, 0); '(p, h) ← sys_heap_aligned_alloc 4 800 h0; '(z, h) ← sys_heap_aligned_alloc 4 300 h; Some (p, z)) = Some (4148, 0)) as F
    by (vm_compute; reflexivity).
  rewrite E0 in F. cbn [mbind option_bind] in F. rewrite E in F. cbn [mbind option_bind] in F.
  destruct (sys_heap_aligned_alloc 4 300 h) as [[z h1] |] eqn:E1; [| discriminate F]. cbn [mbind option_bind] in F. injection F as -> ->.
  change (4148 =? 0) with false in Hc'. cbv iota in Hc'. rewrite insert_empty in Hc'.
  destruct (client_alloc 6 h _ 4 300 Hc') as (z & h1' & E1' & [[Pb' Pe'] _] & Hc1); [apply demo_asks; [congruence | congruence | by_compute] |].
  rewrite E1 in E1'. injection E1' as <- <-. change (0 =? 0) with true in Hc1. cbv iota in Hc1.
  eexists h, h1, _. split_and!; [exact E1 | exact Hc1 | by rewrite read_bytes_length | congruence | congruence].
Qed.

(** Thread 2 waits for 300 bytes, and still waits when the block shrinks to 40. *)
Lemma kheap_realloc_misses_waiter_witness :
  ∃ h h1 h2 q h3,
    k_heap_aligned_alloc (kheap0 h) 4 300 50 two_threads = Some (Blocks, 50, kheap0 h1, one_waiting) /\ waitq one_waiting (inr 5%nat) = [2%nat] /\
    k_heap_realloc (kheap0 h1) 4148 40 K_NO_WAIT one_waiting = Some (Returns 4148, K_NO_WAIT, kheap0 h2, one_waiting) /\
    heap_alloc_pass (kheap0 h2) 4 300 50 50 one_waiting = Some (Returns q, 50, kheap0 h3, one_waiting) /\ q <> 0.
Proof.
  destruct demo_full as (h & h1 & bs & E & Hc & Hl & Hb & He).
  destruct (kheap_realloc_misses_waiter 6 (kheap0 h1) {[4148 := bs]} 4148 bs 40 300 K_NO_WAIT one_waiting one_waiting_inv Hc)
    as [(h2 & q & h3 & E2 & _ & Hq & E3) _]; [apply lookup_singleton_eq | by exists 1037 | lia | lia | lia | cbn [kh_heap kheap0]; rewrite Hb, He, header_bytes_cases; by destruct (big_heap h1) |].
  exists h, h1, h2, q, h3. split; [| split; [by_compute | split; [exact E2 | split; [apply E3 | exact Hq]]]].
  assert (sys_timepoint_timeout (sys_timepoint_calc 50 (timeouts two_threads)) (timeouts two_threads) = 50) as Et by by_compute.
  unfold k_heap_aligned_alloc, heap_alloc_pass. rewrite Et. cbn [kh_heap kheap0]. rewrite E. cbn [mbind option_bind].
  replace (negb (0 =? 0) || K_TIMEOUT_EQ 50 K_NO_WAIT) with false by done. rewrite one_waiting_eq. reflexivity.
Defined.
