(* ===== verification/MemPool.v ===== *)
(** * The system memory pool (kernel/mempool.c)

    The pool stores below each block the address of the heap it is from.  All
    heaps share one memory, and the pool finds a heap by its address. *)

From Stdlib Require Import ZArith Lia Bool.
From stdpp Require Import base numbers list gmap sets.
From S2P Require Import Prelude MathExtras Memory GenList TimeoutQ Kernel PrioQ Sched SchedInv SchedOps Threads WaitApi Heap HeapInv HeapSpec HeapClient HeapRun KHeap.

Open Scope Z_scope.

Section Ops.
Context {kcfg : Kconfig} {cfg : HeapConfig}.
Implicit Types (heap : k_heap) (s : z_kernel).

(** The heaps by address over one memory, and the [resource_pool] of each
    thread. *)
Record pool := mk_pool { pmem : mem; pheaps : gmap Z k_heap; resource_pool : tid -> Z }.

Definition set_pmem (m : mem) (P : pool) : pool := mk_pool m (pheaps P) (resource_pool P).

(** The heap at an address, on the shared memory, and its write-back. *)
Definition pool_heap (P : pool) (a : Z) : option k_heap :=
  heap ← pheaps P !! a;
  Some (set_kh_heap (set_hmem (pmem P) (kh_heap heap)) heap).
Definition pool_put (a : Z) heap (P : pool) : pool := mk_pool (hmem (kh_heap heap)) (<[a := heap]> (pheaps P)) (resource_pool P).

(** The static heaps with their [init_mem] and [init_bytes] (kernel/kheap.c). *)
Fixpoint statics_init (sect : list (Z * Z * Z)) (P : pool) s : option (pool * z_kernel) :=
  match sect with
  | [] => Some (P, s)
  | (a, init_mem, init_bytes) :: sect =>
      heap ← pheaps P !! a;
      '(heap, s) ← k_heap_init heap init_mem init_bytes (pmem P) s;
      statics_init sect (pool_put a heap P) s
  end.

Definition z_heap_aligned_alloc (a align size : Z) (P : pool) s : option (Z * pool * z_kernel) :=
  let '(size, overflow) := size_add_overflow size sizeof_ptr in
  if overflow then Some (NULL, P, s)
  else
    let __align := Z.lor align sizeof_ptr in
    heap ← pool_heap P a;
    '(o, _, heap, s) ← k_heap_aligned_alloc heap __align size K_NO_WAIT s;
    let P := pool_put a heap P in
    match o with
    | Returns mem =>
        if mem =? NULL then Some (NULL, P, s)
        else
          let P := set_pmem (store 4 mem a (pmem P)) P in
          Some (mem + sizeof_ptr, P, s)
    | Blocks => None
    end.

Definition k_free (ptr : Z) (P : pool) s : option (pool * z_kernel) :=
  if negb (ptr =? NULL) then
    let heap_ref := ptr - sizeof_ptr in
    let a := load 4 (pmem P) heap_ref in
    heap ← pool_heap P a;
    '(heap, s) ← k_heap_free heap heap_ref s;
    Some (pool_put a heap P, s)
  else Some (P, s).

Section System.
Context (_SYSTEM_HEAP : Z).

Definition k_aligned_alloc (align size : Z) (P : pool) s : option (Z * pool * z_kernel) := z_heap_aligned_alloc _SYSTEM_HEAP align size P s.

Definition k_malloc (size : Z) (P : pool) s : option (Z * pool * z_kernel) := k_aligned_alloc sizeof_ptr size P s.

Definition k_calloc (nmemb size : Z) (P : pool) s : option (Z * pool * z_kernel) :=
  let '(bounds, overflow) := size_mul_overflow nmemb size in
  if overflow then Some (NULL, P, s)
  else
    '(ret, P, s) ← k_malloc bounds P s;
    let P := if negb (ret =? NULL) then set_pmem (write_bytes (pmem P) ret (replicate (Z.to_nat bounds) 0)) P else P in
    Some (ret, P, s).

Definition k_realloc (ptr size : Z) (P : pool) s : option (Z * pool * z_kernel) :=
  if size =? 0 then '(P, s) ← k_free ptr P s; Some (NULL, P, s)
  else if ptr =? NULL then k_malloc size P s
  else
    let ptr := ptr - sizeof_ptr in
    let a := load 4 (pmem P) ptr in
    let '(size, overflow) := size_add_overflow size sizeof_ptr in
    if overflow then Some (NULL, P, s)
    else
      heap ← pool_heap P a;
      '(o, _, heap, s) ← k_heap_realloc heap ptr size K_NO_WAIT s;
      let P := pool_put a heap P in
      match o with
      | Returns ret => Some (if negb (ret =? NULL) then ret + sizeof_ptr else NULL, P, s)
      | Blocks => None
      end.

Definition k_thread_system_pool_assign (thread : tid) (P : pool) : pool :=
  mk_pool (pmem P) (pheaps P) (λ t, if decide (t = thread) then _SYSTEM_HEAP else resource_pool P t).

Definition z_thread_aligned_alloc (align size : Z) (P : pool) s : option (Z * pool * z_kernel) :=
  let heap := if arch_is_in_isr s then _SYSTEM_HEAP else resource_pool P (current s) in
  if negb (heap =? NULL) then z_heap_aligned_alloc heap align size P s else Some (NULL, P, s).

End System.

(** ** The blocks of the pool

    A block of the client at [p] with contents [bs] is the block at [p - 4] of
    its heap with the heap's address in front. *)

Definition region (h : z_heap) : Z * Z := (hbase h, 8 * end_chunk h + chunk_header_bytes h).

Definition pool_blocks (V : gmap Z (Z * list Z)) (a : Z) (v : gmap Z (list Z)) : Prop :=
  ∀ q d, v !! q = Some d <-> ∃ bs, d = le_bytes 4 a ++ bs /\ V !! (q + 4) = Some (a, bs).

Record pool_ok (P : pool) (V : gmap Z (Z * list Z)) s : Prop := mk_pool_ok {
  po_sched : sched_inv ∅ s;
  po_heap : ∀ a heap, pheaps P !! a = Some heap ->
    0 < a < 2 ^ 32 /\ ∃ k v, client_ok k (set_hmem (pmem P) (kh_heap heap)) v /\ pool_blocks V a v;
  po_apart : ∀ a b ha hb, a <> b -> pheaps P !! a = Some ha -> pheaps P !! b = Some hb ->
    disjoint_ranges (region (kh_heap ha)).1 (region (kh_heap ha)).2 (region (kh_heap hb)).1 (region (kh_heap hb)).2;
  po_owner : ∀ p a bs, V !! p = Some (a, bs) -> is_Some (pheaps P !! a);
  po_pools : ∀ t, resource_pool P t = NULL \/ is_Some (pheaps P !! resource_pool P t)
}.

Lemma same_place_region h h' : same_place h h' -> region h' = region h.
Proof. intros Hp. unfold region, chunk_header_bytes. rewrite (same_place_big _ _ Hp). by destruct Hp as [-> ->]. Qed.

(** One heap and the memory change; the blocks of the others are theirs. *)
Lemma pool_with_ok P V s a heap h m k v' V' s' :
  pool_ok P V s -> pheaps P !! a = Some heap -> outside_same (set_hmem (pmem P) (kh_heap heap)) (set_hmem m h) -> client_ok k (set_hmem m h) v' ->
  pool_blocks V' a v' -> (∀ p b bs, b <> a -> V' !! p = Some (b, bs) <-> V !! p = Some (b, bs)) -> sched_inv ∅ s' ->
  pool_ok (mk_pool m (<[a := set_kh_heap h heap]> (pheaps P)) (resource_pool P)) V' s'.
Proof.
  intros [Hs Hh Ha Ho Hp] Ea [Pl O] Hc Hb Hother Hs'. assert (region h = region (kh_heap heap)) as Hreg by apply (same_place_region _ _ Pl).
  split; [done | | | |]; cbn [pheaps pmem resource_pool].
  - intros b hb Eb. destruct (decide (b = a)) as [-> | Hne].
    { rewrite lookup_insert_eq in Eb. injection Eb as <-. split; [apply (Hh a heap Ea) |]. by exists k, v'. }
    rewrite lookup_insert_ne in Eb by done. destruct (Hh b hb Eb) as (Hb0 & kb & vb & Hcb & Hvb). split; [done |]. exists kb, vb. split.
    + replace (set_hmem m (kh_heap hb)) with (set_hmem m (set_hmem (pmem P) (kh_heap hb))) by done.
      apply client_frame; [done |]. intros x Hx. apply O. destruct (Ha a b heap hb (not_eq_sym Hne) Ea Eb) as [Hd | Hd];
        unfold region in Hd; cbn [fst snd] in Hd; change (hbase (set_hmem ?m ?h)) with (hbase h) in *; change (end_chunk (set_hmem ?m ?h)) with (end_chunk h) in *;
        change (chunk_header_bytes (set_hmem ?m ?h)) with (chunk_header_bytes h) in *; lia.
    + intros q d. rewrite (Hvb q d). split; intros (bs & -> & HV); exists bs; (split; [done |]); by apply Hother.
  - intros b c hb hc Hne Eb Ec.
    assert (∀ x hx, <[a := set_kh_heap h heap]> (pheaps P) !! x = Some hx -> ∃ hx', pheaps P !! x = Some hx' /\ region (kh_heap hx) = region (kh_heap hx')) as Hx.
    { intros x hx Ex. destruct (decide (x = a)) as [-> | Hxa]; [| rewrite lookup_insert_ne in Ex by done; by exists hx].
      rewrite lookup_insert_eq in Ex. injection Ex as <-. by exists heap. }
    destruct (Hx b hb Eb) as (hb' & Eb' & ->). destruct (Hx c hc Ec) as (hc' & Ec' & ->). by apply (Ha b c).
  - intros p b bs HV. destruct (decide (b = a)) as [-> | Hne]; [rewrite lookup_insert_eq; by eexists |].
    rewrite lookup_insert_ne by done. apply (Ho p b bs). by apply (Hother p b bs).
  - intros t. destruct (Hp t) as [? | Ht]; [by left | right].
    destruct (decide (resource_pool P t = a)) as [-> | Hne]; [rewrite lookup_insert_eq; by eexists | by rewrite lookup_insert_ne].
Qed.

Lemma pool_put_ok P V s a heap h' k v' V' s' :
  pool_ok P V s -> pheaps P !! a = Some heap -> outside_same (set_hmem (pmem P) (kh_heap heap)) h' -> client_ok k h' v' ->
  pool_blocks V' a v' -> (∀ p b bs, b <> a -> V' !! p = Some (b, bs) <-> V !! p = Some (b, bs)) -> sched_inv ∅ s' ->
  pool_ok (pool_put a (set_kh_heap h' heap) P) V' s'.
Proof. intros HP Ea O Hc. apply (pool_with_ok P V s a heap h' (hmem h') k v'); [done | done | by destruct h' ..]. Qed.

Lemma pool_blocks_insert V a v p bs : pool_blocks V a v -> pool_blocks (<[p := (a, bs)]> V) a (<[p - 4 := le_bytes 4 a ++ bs]> v).
Proof.
  intros Hb q d. destruct (decide (q = p - 4)) as [-> | Hne].
  - replace (p - 4 + 4) with p by lia. rewrite !lookup_insert_eq. split; [intros [= <-]; by exists bs |]. by intros (bs' & -> & [= <-]).
  - rewrite !lookup_insert_ne by lia. apply Hb.
Qed.

Lemma pool_blocks_delete V a v p : pool_blocks V a v -> pool_blocks (delete p V) a (delete (p - 4) v).
Proof.
  intros Hb q d. destruct (decide (q = p - 4)) as [-> | Hne].
  - replace (p - 4 + 4) with p by lia. rewrite !lookup_delete_eq. split; [done |]. by intros (bs & _ & ?).
  - rewrite !lookup_delete_ne by lia. apply Hb.
Qed.

Lemma read_bytes_drop m a n k : drop k (read_bytes m a n) = read_bytes m (a + Z.of_nat k) (n - k).
Proof.
  apply list_eq. intros i. rewrite lookup_drop. destruct (decide (i < n - k)%nat) as [Hi | Hi].
  - rewrite !read_bytes_lookup by lia. do 2 f_equal. lia.
  - rewrite !lookup_ge_None_2; [done | |]; rewrite read_bytes_length; lia.
Qed.

Lemma client_base k h v : client_ok k h v -> 16 <= hbase h.
Proof. intros (l & fls & (R & _) & _). apply (geo_base _ (rep_geo _ _ _ R)). Qed.

(** A block, the heap it is from and the reference below it. *)
Lemma pool_block P V s p a bs :
  pool_ok P V s -> V !! p = Some (a, bs) ->
  ∃ heap k v, pheaps P !! a = Some heap /\ client_ok k (set_hmem (pmem P) (kh_heap heap)) v /\ pool_blocks V a v /\
    v !! (p - 4) = Some (le_bytes 4 a ++ bs) /\ load 4 (pmem P) (p - 4) = a /\ p <> 0 /\
    hbase (kh_heap heap) <= p - 4 /\ p + len bs <= hbase (kh_heap heap) + 8 * end_chunk (kh_heap heap) /\ read_bytes (pmem P) p (length bs) = bs.
Proof.
  intros HP HV. destruct (po_owner _ _ _ HP _ _ _ HV) as [heap Ea]. destruct (po_heap _ _ _ HP a heap Ea) as (Ha & k & v & Hc & Hb).
  assert (v !! (p - 4) = Some (le_bytes 4 a ++ bs)) as Hv by (apply Hb; exists bs; by replace (p - 4 + 4) with p by lia).
  destruct (client_blocks k _ v (p - 4) (p - 4) _ (le_bytes 4 a ++ bs) Hc Hv) as (B1 & B2 & B3 & _).
  rewrite length_app, le_bytes_length in B2, B3. rewrite read_bytes_app in B3. apply app_inj_1 in B3 as [B3 B4]; [| by rewrite read_bytes_length, le_bytes_length].
  destruct Hc as (l & fls & (R & Hrest) & Hrest'). pose proof (geo_base _ (rep_geo _ _ _ R)) as Hbase. change (hbase (set_hmem ?m ?h)) with (hbase h) in *.
  change (end_chunk (set_hmem ?m ?h)) with (end_chunk h) in *. cbn [hmem set_hmem] in B3, B4.
  exists heap, k, v. split_and!; try done; [by exists l, fls | | lia | lia | by replace (p - 4 + Z.of_nat 4) with p in B4 by lia].
  unfold load. rewrite B3, le_value_bytes. change (256 ^ Z.of_nat 4) with (2 ^ 32). apply Z.mod_small. lia.
Qed.

(** An address inside one heap is not a block of another. *)
Lemma pool_foreign P V s a heap q b bs :
  pool_ok P V s -> pheaps P !! a = Some heap -> hbase (kh_heap heap) <= q < hbase (kh_heap heap) + 8 * end_chunk (kh_heap heap) ->
  V !! (q + 4) = Some (b, bs) -> b = a.
Proof.
  intros HP Ea Hq HV. destruct (decide (b = a)) as [| Hne]; [done | exfalso].
  destruct (pool_block P V s (q + 4) b bs HP HV) as (hb & _ & _ & Eb & _ & _ & _ & _ & _ & B1 & B2 & _).
  destruct (po_apart _ _ _ HP b a hb heap Hne Eb Ea) as [Hd | Hd]; unfold region in Hd; cbn [fst snd] in Hd;
    assert (4 <= chunk_header_bytes (kh_heap heap) /\ 4 <= chunk_header_bytes (kh_heap hb)) by (unfold chunk_header_bytes; destruct (big_heap _), (big_heap _); lia); lia.
Qed.

Lemma pool_disjoint P V s p q a b bs bs' :
  pool_ok P V s -> p <> q -> V !! p = Some (a, bs) -> V !! q = Some (b, bs') -> disjoint_ranges p (len bs) q (len bs').
Proof.
  intros HP Hne HVp HVq. destruct (pool_block P V s p a bs HP HVp) as (ha & k & v & Ea & Hc & Hb & Hvp & _ & _ & A1 & A2 & _).
  destruct (pool_block P V s q b bs' HP HVq) as (hb & _ & _ & Eb & _ & _ & _ & _ & _ & B1 & B2 & _). destruct (decide (a = b)) as [<- | Hab].
  - assert (v !! (q - 4) = Some (le_bytes 4 a ++ bs')) as Hvq by (apply Hb; exists bs'; by replace (q - 4 + 4) with q by lia).
    destruct (client_blocks k _ v (p - 4) (q - 4) _ (le_bytes 4 a ++ bs') Hc Hvp) as (_ & _ & _ & _ & Hd). specialize (Hd ltac:(lia) Hvq).
    unfold disjoint_ranges in *. rewrite !length_app, !le_bytes_length in Hd. lia.
  - destruct (po_apart _ _ _ HP a b ha hb Hab Ea Eb) as [Hd | Hd]; unfold region in Hd; cbn [fst snd] in Hd; unfold disjoint_ranges;
      assert (4 <= chunk_header_bytes (kh_heap ha) /\ 4 <= chunk_header_bytes (kh_heap hb)) by (unfold chunk_header_bytes; destruct (big_heap _), (big_heap _); lia); lia.
Qed.

Definition pool_place (P P' : pool) : Prop :=
  (∀ a, option_Forall2 (λ x y, same_place (kh_heap x) (kh_heap y)) (pheaps P !! a) (pheaps P' !! a)).

Lemma pool_place_put P a heap h' :
  pheaps P !! a = Some heap -> same_place (kh_heap heap) h' -> pool_place P (pool_put a (set_kh_heap h' heap) P).
Proof.
  intros Ea Hp b. cbn [pheaps pool_put]. destruct (decide (b = a)) as [-> | Hne]; [rewrite lookup_insert_eq, Ea; by constructor |].
  rewrite lookup_insert_ne by done. destruct (pheaps P !! b); constructor. done.
Qed.

(** A request of [size] bytes aligned to [2 ^ k], with the reference below. *)
Definition pool_rew (k : Z) : Z := if k =? 2 then 0 else 4.

(** The block and its reference need a chunk in a size class the heap has a
    bucket for, and the alignment does not run past the address space. *)
Definition fits (h : z_heap) (k size : Z) : Prop :=
  hbase h + 8 * end_chunk h + chunk_header_bytes h + Z.lor (2 ^ k) 4 <= 2 ^ 32 /\ in_range h (2 ^ k) (pool_rew k) (size + 4).

Lemma pool_asks k : 2 <= k < 32 -> asks (Z.lor (2 ^ k) 4) (2 ^ k) (pool_rew k).
Proof.
  intros Hk. unfold pool_rew. destruct (Z.eqb_spec k 2) as [-> | Hne]; [by apply (asks_aligned 2) |].
  assert (Z.lor (2 ^ k) 4 = 2 ^ k + 2 ^ 2) as ->; [| apply (asks_rewind k 2); lia].
  change 4 with (2 ^ 2). symmetry. apply Z.add_nocarry_lor. apply Z.bits_inj'. intros n Hn. rewrite Z.land_spec, Z.bits_0, !Z.pow2_bits_eqb by lia.
  destruct (Z.eqb_spec k n), (Z.eqb_spec 2 n); simpl; (done || lia).
Qed.

(** A new block after its reference has been stored. *)
Lemma pool_ref_ok P V s a heap h' k v m size :
  pool_ok P V s -> pheaps P !! a = Some heap -> 0 <= size -> pool_blocks V a v -> outside_same (set_hmem (pmem P) (kh_heap heap)) h' ->
  client_ok k h' (<[m := read_bytes (hmem h') m (Z.to_nat (size + 4))]> v) ->
  let m' := store 4 m a (hmem h') in
  pool_ok (mk_pool m' (<[a := set_kh_heap h' heap]> (pheaps P)) (resource_pool P)) (<[m + 4 := (a, read_bytes m' (m + 4) (Z.to_nat size))]> V) s.
Proof.
  intros HP Ea Hsz Hb O Hc m'. set (h := set_hmem (pmem P) (kh_heap heap)) in *. destruct (proj1 O) as [O1 O2].
  destruct (client_blocks k h' _ m m _ [] Hc (lookup_insert_eq _ _ _)) as (B1 & B2 & _). rewrite read_bytes_length in B2. rewrite O1 in B1, B2. rewrite O2 in B2.
  change (hbase h) with (hbase (kh_heap heap)) in *. change (end_chunk h) with (end_chunk (kh_heap heap)) in *.
  pose proof (client_write k h' _ m _ 0 (le_bytes 4 a) Hc (lookup_insert_eq _ _ _) ltac:(lia)) as Hc2.
  pose proof (write_outside k h' _ m _ 0 (le_bytes 4 a) Hc (lookup_insert_eq _ _ _) ltac:(lia)) as Ho2.
  rewrite read_bytes_length, le_bytes_length in Hc2, Ho2. specialize (Hc2 ltac:(lia)). specialize (Ho2 ltac:(lia)).
  rewrite Z.add_0_r, insert_insert_eq in Hc2. rewrite Z.add_0_r in Ho2.
  change (take (Z.to_nat 0) ?x ++ ?y) with y in Hc2. change (Z.to_nat (0 + Z.of_nat 4)) with 4%nat in Hc2.
  rewrite read_bytes_drop in Hc2. replace (Z.to_nat (size + 4) - 4)%nat with (Z.to_nat size) in Hc2 by lia. change (Z.of_nat 4) with 4 in Hc2.
  rewrite <- (read_write_other (hmem h') m (le_bytes 4 a) (m + 4)) in Hc2 by (rewrite le_bytes_length; unfold disjoint_ranges; lia). fold m' in Hc2, Ho2.
  eapply (pool_with_ok P V s a heap h' m' k); [done | done | by apply (outside_trans h h') | exact Hc2 | | | apply HP].
  - replace m with (m + 4 - 4) at 3 by lia. by apply pool_blocks_insert.
  - intros p b bs Hne. destruct (decide (p = m + 4)) as [-> | Hp]; [| by rewrite lookup_insert_ne by done]. rewrite lookup_insert_eq.
    split; [intros [= <- _]; done |]. intros HV. destruct Hne. apply (pool_foreign P V s a heap m b bs); [done | done | lia | done].
Qed.

Lemma pool_alloc_ok P V s a heap k size :
  pool_ok P V s -> pheaps P !! a = Some heap -> 2 <= k < 32 -> 0 <= size < 2 ^ 32 -> fits (kh_heap heap) k size ->
  ∃ p P', z_heap_aligned_alloc a (2 ^ k) size P s = Some (p, P', s) /\ (2 ^ k | p) /\ pool_place P P' /\
    pool_ok P' (if p =? 0 then V else <[p := (a, read_bytes (pmem P') p (Z.to_nat size))]> V) s.
Proof.
  intros HP Ea Hk Hsz [Hw Hin]. unfold z_heap_aligned_alloc, size_add_overflow, sizeof_ptr, NULL. rewrite add_overflow_exact by lia.
  destruct (Z.leb_spec (2 ^ 32) (size + 4)) as [Hov | Hov].
  { exists 0, P. split_and!; [done | apply Z.divide_0_r | | done]. intros b. destruct (pheaps P !! b); by constructor. }
  rewrite Z.mod_small by lia. unfold pool_heap. rewrite Ea. cbn [mbind option_bind].
  destruct (po_heap _ _ _ HP a heap Ea) as (Ha & kk & v & Hc & Hb). set (h := set_hmem (pmem P) (kh_heap heap)) in *.
  destruct (client_alloc_aligned kk h v (Z.lor (2 ^ k) 4) (2 ^ k) (pool_rew k) (size + 4) Hc ltac:(lia) (pool_asks k Hk) Hw Hin) as (m & h' & E & O & Hal & Hc').
  unfold k_heap_aligned_alloc, heap_alloc_pass. cbn [kh_heap set_kh_heap]. rewrite E. cbn [mbind option_bind].
  rewrite orb_true_r. cbn [mbind option_bind]. change (set_kh_heap h' (set_kh_heap h heap)) with (set_kh_heap h' heap).
  assert (pool_place P (pool_put a (set_kh_heap h' heap) P)) as Hpl by (apply pool_place_put; [done | apply O]).
  destruct (Z.eqb_spec m 0) as [-> | Hm].
  - eexists 0, _. split_and!; [done | apply Z.divide_0_r | done |]. by apply (pool_put_ok P V s a heap h' kk v V s); [| | | | | | apply HP].
  - eexists (m + 4), _. split; [done |]. split; [| split; [exact Hpl |]].
    { destruct Hal as [? | Hal]; [done |]. unfold pool_rew in Hal. destruct (Z.eqb_spec k 2) as [-> |]; [| done]. rewrite Z.add_0_r in Hal. by apply Z.divide_add_r; [| exists 1]. }
    rewrite (proj2 (Z.eqb_neq (m + 4) 0)); [by apply (pool_ref_ok P V s a heap h' kk v m size); [| | lia | | |] |].
    pose proof (client_base kk h' _ Hc'). pose proof (proj1 (client_blocks kk h' _ m m _ [] Hc' (lookup_insert_eq _ _ _))). lia.
Qed.

Lemma pool_place_refl P : pool_place P P.
Proof. intros a. destruct (pheaps P !! a); by constructor. Qed.

Lemma pool_free_ok P V s p a bs :
  pool_ok P V s -> V !! p = Some (a, bs) -> ∃ P' s', k_free p P s = Some (P', s') /\ pool_place P P' /\ pool_ok P' (delete p V) s'.
Proof.
  intros HP HV. destruct (pool_block P V s p a bs HP HV) as (heap & k & v & Ea & Hc & Hb & Hv & Hload & Hp & _).
  destruct (client_free k _ v (p - 4) _ Hc Hv) as (h' & E & O & Hc').
  destruct (kheap_free_rep (set_kh_heap (set_hmem (pmem P) (kh_heap heap)) heap) (p - 4) s h' (po_sched _ _ _ HP) E) as (s' & Ef & Hs' & _).
  unfold k_free, sizeof_ptr, NULL. rewrite (proj2 (Z.eqb_neq p 0)) by done. cbn [negb]. rewrite Hload. unfold pool_heap. rewrite Ea. cbn [mbind option_bind].
  rewrite Ef. cbn [mbind option_bind]. change (set_kh_heap h' (set_kh_heap ?x heap)) with (set_kh_heap h' heap). eexists _, s'. split; [done |]. split; [apply pool_place_put; [done | apply O] |].
  apply (pool_put_ok P V s a heap h' k (delete (p - 4) v)); try done; [by apply pool_blocks_delete |].
  intros q b d Hne. destruct (decide (q = p)) as [-> | Hq]; [| by rewrite lookup_delete_ne]. rewrite lookup_delete_eq, HV. split; [done |]. by intros [= <- _].
Qed.

Lemma resize_contents_app hd bs n m q :
  0 <= n -> resize_contents (hd ++ bs) (n + len hd) m q = hd ++ resize_contents bs n m (q + len hd).
Proof.
  intros Hn. unfold resize_contents. replace (Z.to_nat (n + len hd)) with (length hd + Z.to_nat n)%nat by lia. rewrite take_app_add.
  rewrite <- app_assoc, length_app. do 2 f_equal. f_equal; lia.
Qed.

Lemma pool_realloc_ok SYSTEM P V s p a bs heap size :
  pool_ok P V s -> V !! p = Some (a, bs) -> pheaps P !! a = Some heap -> 0 < size < 2 ^ 32 -> op_ok (kh_heap heap) (HRealloc (p - 4) 4 (size + 4)) ->
  ∃ q P', k_realloc SYSTEM p size P s = Some (q, P', s) /\ pool_place P P' /\
    pool_ok P' (if q =? 0 then V else <[q := (a, resize_contents bs size (pmem P') q)]> (delete p V)) s.
Proof.
  intros HP HV Ea Hsz Hop. destruct (pool_block P V s p a bs HP HV) as (heap' & k & v & Ea' & Hc & Hb & Hv & Hload & Hp & _).
  rewrite Ea in Ea'. injection Ea' as <-. unfold k_realloc, sizeof_ptr, NULL, size_add_overflow. rewrite (proj2 (Z.eqb_neq size 0)), (proj2 (Z.eqb_neq p 0)) by lia.
  rewrite Hload, add_overflow_exact by lia. destruct (Z.leb_spec (2 ^ 32) (size + 4)) as [Hov | Hov]; [exists 0, P; split_and!; [done | apply pool_place_refl | done] |].
  rewrite Z.mod_small by lia. unfold pool_heap. rewrite Ea. cbn [mbind option_bind]. set (h := set_hmem (pmem P) (kh_heap heap)) in *.
  destruct (client_realloc k h v (p - 4) 4 (size + 4) _ Hc Hop Hv) as (q & h' & E & O & Hc').
  unfold k_heap_realloc, heap_realloc_pass. cbn [kh_heap set_kh_heap]. change sizeof_ptr with 4. rewrite E. cbn [mbind option_bind]. rewrite orb_true_r. cbn [mbind option_bind].
  change (set_kh_heap h' (set_kh_heap h heap)) with (set_kh_heap h' heap).
  assert (pool_place P (pool_put a (set_kh_heap h' heap) P)) as Hpl by (apply pool_place_put; [done | apply O]).
  destruct (Z.eqb_spec q 0) as [-> | Hq]; cbn [negb]; eexists _, _; (split; [done |]); (split; [done |]).
  { rewrite (proj2 (Z.eqb_neq (size + 4) 0)) in Hc' by lia. by apply (pool_put_ok P V s a heap h' k v V s); [| | | | | | apply HP]. }
  pose proof (client_base k h' _ Hc') as Hbase. destruct (client_blocks k h' _ q q _ [] Hc' (lookup_insert_eq _ _ _)) as (B1 & B2 & _).
  rewrite (proj2 (Z.eqb_neq (q + 4) 0)) by lia. pose proof (resize_contents_app (le_bytes 4 a) bs size (hmem h') q ltac:(lia)) as Er.
  rewrite le_bytes_length in Er. change (Z.of_nat 4) with 4 in Er. rewrite Er in Hc', B2. cbn [pmem pool_put kh_heap set_kh_heap].
  eapply (pool_put_ok P V s a heap h' k); [done | done | done | exact Hc' | | | apply HP].
  - replace q with (q + 4 - 4) at 3 by lia. by apply pool_blocks_insert, pool_blocks_delete.
  - rewrite length_app, le_bytes_length in B2. rewrite (proj1 (proj1 O)) in B1, B2. rewrite (proj2 (proj1 O)) in B2.
    change (hbase h) with (hbase (kh_heap heap)) in *. change (end_chunk h) with (end_chunk (kh_heap heap)) in *.
    intros r b d Hne. destruct (decide (r = q + 4)) as [-> | Hr].
    + rewrite lookup_insert_eq. split; [intros [= <- _]; done |]. intros HV'. destruct Hne. apply (pool_foreign P V s a heap q b d); [done | done | lia | done].
    + rewrite lookup_insert_ne by done. destruct (decide (r = p)) as [-> | Hrp]; [| by rewrite lookup_delete_ne].
      rewrite lookup_delete_eq, HV. split; [done |]. by intros [= <- _].
Qed.

Lemma pool_write_ok P V s p a bs off data :
  pool_ok P V s -> V !! p = Some (a, bs) -> 0 <= off -> off + len data <= len bs ->
  pool_ok (set_pmem (write_bytes (pmem P) (p + off) data) P) (<[p := (a, take (Z.to_nat off) bs ++ data ++ drop (Z.to_nat (off + len data)) bs)]> V) s.
Proof.
  intros HP HV Ho Hd. destruct (pool_block P V s p a bs HP HV) as (heap & k & v & Ea & Hc & Hb & Hv & _).
  pose proof (client_write k _ v (p - 4) _ (off + 4) data Hc Hv ltac:(lia)) as Hc2. pose proof (write_outside k _ v (p - 4) _ (off + 4) data Hc Hv ltac:(lia)) as O.
  rewrite length_app, le_bytes_length in Hc2, O. specialize (Hc2 ltac:(lia)). specialize (O ltac:(lia)). replace (p - 4 + (off + 4)) with (p + off) in * by lia.
  replace (Z.to_nat (off + 4)) with (length (le_bytes 4 a) + Z.to_nat off)%nat in Hc2 by (rewrite le_bytes_length; lia).
  replace (Z.to_nat (off + 4 + len data)) with (length (le_bytes 4 a) + Z.to_nat (off + len data))%nat in Hc2 by (rewrite le_bytes_length; lia).
  rewrite take_app_add, drop_app_add, <- app_assoc in Hc2.
  assert (pheaps P = <[a := set_kh_heap (kh_heap heap) heap]> (pheaps P)) as Eh by (symmetry; apply insert_id; rewrite Ea; by destruct heap).
  unfold set_pmem. rewrite Eh. eapply (pool_with_ok P V s a heap (kh_heap heap) _ k); [done | done | exact O | exact Hc2 | by apply pool_blocks_insert | | apply HP].
  intros q b d Hne. destruct (decide (q = p)) as [-> | Hq]; [| by rewrite lookup_insert_ne]. rewrite lookup_insert_eq, HV. by split; intros [= <- _].
Qed.

(** ** Clients of the pool *)

(** Calls of a client; [PKernel] is anything else the kernel does. *)
Inductive pool_op :=
  | PAlloc (k size : Z)
  | PThread (k size : Z)
  | PCalloc (nmemb size : Z)
  | PRealloc (p size : Z)
  | PFree (p : Z)
  | PWrite (p off : Z) (data : list Z)
  | PAssign (t : tid)
  | PKernel (s : z_kernel).

Section Client.
Context (_SYSTEM_HEAP : Z).

Definition held (a : Z) (r : option (Z * pool * z_kernel)) (size : Z) (V : gmap Z (Z * list Z)) : option (Z * (pool * gmap Z (Z * list Z) * z_kernel)) :=
  '(p, P, s) ← r;
  Some (p, (P, if p =? NULL then V else <[p := (a, read_bytes (pmem P) p (Z.to_nat size))]> V, s)).

Definition pool_call (op : pool_op) (st : pool * gmap Z (Z * list Z) * z_kernel) : option (Z * (pool * gmap Z (Z * list Z) * z_kernel)) :=
  let '(P, V, s) := st in
  match op with
  | PAlloc k size => held _SYSTEM_HEAP (k_aligned_alloc _SYSTEM_HEAP (2 ^ k) size P s) size V
  | PThread k size =>
      held (if arch_is_in_isr s then _SYSTEM_HEAP else resource_pool P (current s)) (z_thread_aligned_alloc _SYSTEM_HEAP (2 ^ k) size P s) size V
  | PCalloc nmemb size => held _SYSTEM_HEAP (k_calloc _SYSTEM_HEAP nmemb size P s) (nmemb * size) V
  | PRealloc p size =>
      match V !! p with
      | Some (a, bs) =>
          '(q, P, s) ← k_realloc _SYSTEM_HEAP p size P s;
          Some (q, (P, if q =? NULL then (if size =? 0 then delete p V else V) else <[q := (a, resize_contents bs size (pmem P) q)]> (delete p V), s))
      | None => Some (NULL, (P, V, s))
      end
  | PFree p =>
      match V !! p with
      | Some _ => '(P, s) ← k_free p P s; Some (NULL, (P, delete p V, s))
      | None => Some (NULL, (P, V, s))
      end
  | PWrite p off data =>
      match V !! p with
      | Some (a, bs) =>
          if (0 <=? off) && (off + len data <=? len bs) then
            Some (NULL, (set_pmem (write_bytes (pmem P) (p + off) data) P,
                         <[p := (a, take (Z.to_nat off) bs ++ data ++ drop (Z.to_nat (off + len data)) bs)]> V, s))
          else Some (NULL, (P, V, s))
      | None => Some (NULL, (P, V, s))
      end
  | PAssign t => Some (NULL, (k_thread_system_pool_assign _SYSTEM_HEAP t P, V, s))
  | PKernel s => Some (NULL, (P, V, s))
  end.

Definition pool_op_ok (P : pool) (op : pool_op) : Prop :=
  match op with
  | PAlloc k size | PThread k size => 2 <= k < 32 /\ 0 <= size < 2 ^ 32 /\ ∀ a heap, pheaps P !! a = Some heap -> fits (kh_heap heap) k size
  | PCalloc nmemb size =>
      0 <= nmemb < 2 ^ 32 /\ 0 <= size < 2 ^ 32 /\ ∀ a heap, pheaps P !! a = Some heap -> fits (kh_heap heap) 2 (nmemb * size)
  | PRealloc p size => 0 <= size < 2 ^ 32 /\ ∀ a heap, pheaps P !! a = Some heap -> op_ok (kh_heap heap) (HRealloc (p - 4) 4 (size + 4))
  | PKernel s => sched_inv ∅ s
  | _ => True
  end.

Lemma pool_op_place P P' op : pool_place P P' -> pool_op_ok P op -> pool_op_ok P' op.
Proof.
  intros Hpl. assert (∀ Q : z_heap -> Prop, (∀ h h', same_place h h' -> Q h -> Q h') ->
    (∀ a heap, pheaps P !! a = Some heap -> Q (kh_heap heap)) -> ∀ a heap, pheaps P' !! a = Some heap -> Q (kh_heap heap)) as Hall.
  { intros Q HQ H a heap Ea. specialize (Hpl a). rewrite Ea in Hpl. inversion Hpl as [x y Hxy Ex |]; subst. by apply (HQ (kh_heap x)); [| apply (H a)]. }
  assert (∀ k size h h', same_place h h' -> fits h k size -> fits h' k size) as Hf.
  { intros k size h h' Hp. pose proof (same_place_big _ _ Hp) as Eb. destruct Hp as [P1 P2].
    unfold fits, in_range, size_too_big, size_class, request, padding, min_size, chunk_header_bytes. by rewrite Eb, P1, P2. }
  destruct op as [k size | k size | n size | p size | | | |]; simpl; try done.
  - intros (H1 & H2 & H3). split; [done |]. split; [done |]. apply (Hall (λ h, fits h k size)); [apply Hf | done].
  - intros (H1 & H2 & H3). split; [done |]. split; [done |]. apply (Hall (λ h, fits h k size)); [apply Hf | done].
  - intros (H1 & H2 & H3). split; [done |]. split; [done |]. apply (Hall (λ h, fits h 2 (n * size))); [apply Hf | done].
  - intros (H1 & H2). split; [done |]. apply (Hall (λ h, op_ok h (HRealloc (p - 4) 4 (size + 4)))); [| done]. intros h h' Hp. by apply op_ok_place.
Qed.

(** The blocks of a call of [k_aligned_alloc] or [k_malloc] *)
Lemma pool_held P V s a heap k size :
  pool_ok P V s -> pheaps P !! a = Some heap -> 2 <= k < 32 -> 0 <= size < 2 ^ 32 -> fits (kh_heap heap) k size ->
  ∃ p P' V', held a (z_heap_aligned_alloc a (2 ^ k) size P s) size V = Some (p, (P', V', s)) /\ (2 ^ k | p) /\ pool_place P P' /\ pool_ok P' V' s.
Proof.
  intros HP Ea Hk Hsz Hf. destruct (pool_alloc_ok P V s a heap k size HP Ea Hk Hsz Hf) as (p & P' & E & Hal & Hpl & HP').
  unfold held. rewrite E. cbn [mbind option_bind]. by eexists p, P', _.
Qed.

Lemma pool_calloc_ok P V s heap n size :
  pool_ok P V s -> pheaps P !! _SYSTEM_HEAP = Some heap -> 0 <= n < 2 ^ 32 -> 0 <= size < 2 ^ 32 -> fits (kh_heap heap) 2 (n * size) ->
  ∃ p P', k_calloc _SYSTEM_HEAP n size P s = Some (p, P', s) /\ pool_place P P' /\
    pool_ok P' (if p =? 0 then V else <[p := (_SYSTEM_HEAP, replicate (Z.to_nat (n * size)) 0)]> V) s.
Proof.
  intros HP Ea Hn Hsz Hf. unfold k_calloc, size_mul_overflow. rewrite mul_overflow_exact by lia.
  destruct (Z.leb_spec (2 ^ 32) (n * size)) as [Hov | Hov]; [exists 0, P; split_and!; [done | apply pool_place_refl | done] |].
  rewrite Z.mod_small by lia. unfold k_malloc, k_aligned_alloc. change sizeof_ptr with (2 ^ 2).
  destruct (pool_alloc_ok P V s _ heap 2 (n * size) HP Ea ltac:(lia) ltac:(lia) Hf) as (p & P' & -> & _ & Hpl & HP'). cbn [mbind option_bind].
  unfold NULL. destruct (Z.eqb_spec p 0) as [-> | Hp]; cbn [negb]; eexists _, _; (split; [done |]); (split; [done |]); [done |].
  rewrite (proj2 (Z.eqb_neq p 0)) by done.
  pose proof (pool_write_ok _ _ _ p _SYSTEM_HEAP _ 0 (replicate (Z.to_nat (n * size)) 0) HP' (lookup_insert_eq _ _ _) ltac:(lia)) as HW.
  rewrite length_replicate, read_bytes_length, insert_insert_eq, Z.add_0_r in HW. specialize (HW ltac:(lia)).
  rewrite drop_ge in HW by (rewrite read_bytes_length; lia). by rewrite app_nil_r in HW.
Qed.

Definition aligned_result (op : pool_op) (r : Z) : Prop :=
  match op with PAlloc k _ | PThread k _ => (2 ^ k | r) | _ => True end.

Lemma pool_step P V s op :
  pool_ok P V s -> is_Some (pheaps P !! _SYSTEM_HEAP) -> pool_op_ok P op ->
  ∃ r P' V' s', pool_call op (P, V, s) = Some (r, (P', V', s')) /\ aligned_result op r /\ pool_place P P' /\ pool_ok P' V' s'.
Proof.
  intros HP [sys Es] Hop. destruct op as [k size | k size | n size | p size | p | p off data | t | s1]; cbn [pool_call].
  - destruct Hop as (Hk & Hsz & Hf). destruct (pool_held P V s _ sys k size HP Es Hk Hsz (Hf _ _ Es)) as (p & P' & V' & E & H). by exists p, P', V', s.
  - destruct Hop as (Hk & Hsz & Hf). unfold z_thread_aligned_alloc. set (a := if arch_is_in_isr s then _ else _).
    assert (a = NULL \/ is_Some (pheaps P !! a)) as Ha by (unfold a; destruct (arch_is_in_isr s); [right; by rewrite Es | apply (po_pools _ _ _ HP)]).
    destruct (Z.eqb_spec a NULL) as [Hn | Hn]; cbn [negb].
    { exists NULL, P, V, s. split_and!; [done | apply Z.divide_0_r | apply pool_place_refl | done]. }
    destruct Ha as [? | [heap Ea]]; [done |]. destruct (pool_held P V s a heap k size HP Ea Hk Hsz (Hf _ _ Ea)) as (p & P' & V' & E & H). by exists p, P', V', s.
  - destruct Hop as (Hn & Hsz & Hf). destruct (pool_calloc_ok P V s sys n size HP Es Hn Hsz (Hf _ _ Es)) as (p & P' & E & Hpl & HP').
    unfold held. rewrite E. cbn [mbind option_bind]. eexists _, _, _, _. split; [done |]. split; [done |]. split; [done |]. unfold NULL.
    destruct (Z.eqb_spec p 0); [done |]. destruct (pool_block P' _ s p _SYSTEM_HEAP _ HP' (lookup_insert_eq _ _ _)) as (_ & _ & _ & _ & _ & _ & _ & _ & _ & _ & _ & Hr).
    rewrite length_replicate in Hr. by rewrite Hr.
  - destruct Hop as [Hsz Hop]. destruct (V !! p) as [[a bs] |] eqn:HV; [| exists NULL, P, V, s; split_and!; [done | done | apply pool_place_refl | done]].
    destruct (Z.eqb_spec size 0) as [-> | Hz].
    { destruct (pool_free_ok P V s p a bs HP HV) as (P' & s' & E & Hpl & HP'). unfold k_realloc. rewrite Z.eqb_refl, E. cbn [mbind option_bind]. by eexists _, _, _, _. }
    destruct (po_owner _ _ _ HP _ _ _ HV) as [heap Ea]. destruct (pool_realloc_ok _SYSTEM_HEAP P V s p a bs heap size HP HV Ea ltac:(lia) (Hop _ _ Ea)) as (q & P' & E & Hpl & HP').
    rewrite E. cbn [mbind option_bind]. by eexists _, _, _, _.
  - destruct (V !! p) as [[a bs] |] eqn:HV; [| exists NULL, P, V, s; split_and!; [done | done | apply pool_place_refl | done]].
    destruct (pool_free_ok P V s p a bs HP HV) as (P' & s' & -> & Hpl & HP'). cbn [mbind option_bind]. by eexists _, _, _, _.
  - destruct (V !! p) as [[a bs] |] eqn:HV; [| exists NULL, P, V, s; split_and!; [done | done | apply pool_place_refl | done]].
    destruct (Z.leb_spec 0 off) as [Ho |], (Z.leb_spec (off + len data) (len bs)) as [Hd |]; cbn [andb]; try (exists NULL, P, V, s; split_and!; [done | done | apply pool_place_refl | done]).
    eexists _, _, _, _. split; [done |]. split; [done |]. split; [apply (pool_place_refl P) | by apply pool_write_ok].
  - eexists _, _, _, _. split; [done |]. split; [done |]. split; [apply (pool_place_refl P) |]. destruct HP as [H1 H2 H3 H4 H5].
    split; try done. intros u. cbn [resource_pool k_thread_system_pool_assign pheaps]. destruct (decide (u = t)); [right; by rewrite Es | apply H5].
  - exists NULL, P, V, s1. split_and!; [done | done | apply pool_place_refl |]. destruct HP. by split.
Qed.

Fixpoint pool_run (ops : list pool_op) (st : pool * gmap Z (Z * list Z) * z_kernel) : option (list Z * (pool * gmap Z (Z * list Z) * z_kernel)) :=
  match ops with
  | [] => Some ([], st)
  | op :: ops =>
      '(r, st) ← pool_call op st;
      '(rs, st) ← pool_run ops st;
      Some (r :: rs, st)
  end.

Lemma pool_run_ok ops P V s :
  pool_ok P V s -> is_Some (pheaps P !! _SYSTEM_HEAP) -> Forall (pool_op_ok P) ops ->
  ∃ rs P' V' s', pool_run ops (P, V, s) = Some (rs, (P', V', s')) /\ Forall2 aligned_result ops rs /\ pool_ok P' V' s'.
Proof.
  revert P V s. induction ops as [| op ops IH]; intros P V s HP Hsys Hops; [by eexists [], P, V, s |].
  apply Forall_cons in Hops as [Hop Hops]. destruct (pool_step P V s op HP Hsys Hop) as (r & P1 & V1 & s1 & E & Hr & Hpl & HP1).
  destruct (IH P1 V1 s1 HP1) as (rs & P2 & V2 & s2 & E2 & Hrs & HP2).
  - destruct Hsys as [sys Es]. specialize (Hpl _SYSTEM_HEAP). rewrite Es in Hpl. by inversion Hpl.
  - eapply Forall_impl; [exact Hops |]. intros o. by apply pool_op_place.
  - exists (r :: rs), P2, V2, s2. cbn [pool_run]. rewrite E. cbn [mbind option_bind]. rewrite E2. cbn [mbind option_bind]. split_and!; [done | by constructor | done].
Qed.

(** *** Boot *)

(** The heap at [a] lies in its memory and holds no block. *)
Definition ready (P : pool) (x : Z * Z * Z) : Prop :=
  let '(a, mem, bytes) := x in
  ∃ heap k, pheaps P !! a = Some heap /\ client_ok k (set_hmem (pmem P) (kh_heap heap)) ∅ /\
    mem <= (region (kh_heap heap)).1 /\ (region (kh_heap heap)).1 + (region (kh_heap heap)).2 <= mem + bytes.

Definition apart_memory (x y : Z * Z * Z) : Prop := x.1.1 <> y.1.1 /\ disjoint_ranges x.1.2 x.2 y.1.2 y.2.

Lemma ready_put P a mem bytes h heap x :
  ready P x -> apart_memory (a, mem, bytes) x -> (∀ y, y < mem \/ mem + bytes <= y -> hmem h y = pmem P y) -> ready (pool_put a (set_kh_heap h heap) P) x.
Proof.
  destruct x as [[b mb] nb]. intros (hb & k & Eb & Hc & H1 & H2) [Hne Hd] Hm. cbn [fst snd] in Hne, Hd. exists hb, k. cbn [pheaps pmem pool_put kh_heap set_kh_heap].
  rewrite lookup_insert_ne by done. split_and!; try done.
  replace (set_hmem (hmem h) (kh_heap hb)) with (set_hmem (hmem h) (set_hmem (pmem P) (kh_heap hb))) by done. apply client_frame; [done |].
  intros y Hy. apply Hm. unfold region in *. cbn [fst snd] in *. unfold disjoint_ranges in Hd. cbn [hbase end_chunk set_hmem] in Hy.
  change (chunk_header_bytes (set_hmem ?m ?z)) with (chunk_header_bytes z) in Hy. lia.
Qed.

Lemma k_heap_init_ok heap mem bytes m s :
  sched_inv ∅ s -> waitq s (kh_wait_q heap) = [] -> init_ok mem bytes ->
  ∃ h s', k_heap_init heap mem bytes m s = Some (set_kh_heap h heap, s') /\ sched_inv ∅ s' /\ (∀ w, waitq s' w = waitq s w) /\
    client_ok (header_units mem bytes) h ∅ /\ mem <= hbase h /\ hbase h + (8 * end_chunk h + chunk_header_bytes h) <= mem + bytes /\
    (∀ y, y < mem \/ mem + bytes <= y -> hmem h y = m y).
Proof.
  intros Hs Hw Hok. destruct (client_init mem bytes m Hok) as (h & E & Eb & En & Hout & Hc). destruct (init_inside mem bytes h Hok Eb En) as [I1 I2].
  unfold k_heap_init. rewrite E. cbn [mbind option_bind]. pose proof (same_waitq_init (kh_wait_q heap) s Hw) as Hsame. exists h, (z_waitq_init (kh_wait_q heap) s).
  split; [done |]. split; [by rewrite <- Hsame |]. split_and!; try done; [apply Hsame | lia |]. intros y Hy. apply Hout. lia.
Qed.

Lemma statics_init_ok sect D P s :
  sched_inv ∅ s -> (∀ a heap, pheaps P !! a = Some heap -> waitq s (kh_wait_q heap) = []) -> ForallOrdPairs apart_memory sect ->
  Forall (λ x, is_Some (pheaps P !! x.1.1) /\ init_ok x.1.2 x.2) sect -> Forall (λ x, ready P x /\ Forall (λ y, apart_memory y x) sect) D ->
  ∃ P' s', statics_init sect P s = Some (P', s') /\ sched_inv ∅ s' /\ Forall (ready P') (D ++ sect) /\
    resource_pool P' = resource_pool P /\ dom (pheaps P') = dom (pheaps P).
Proof.
  revert D P s. induction sect as [| [[a mem] bytes] sect IH]; intros D P s Hs Hw Hap Hin HD.
  { exists P, s. rewrite app_nil_r. split_and!; try done. eapply Forall_impl; [exact HD |]. by intros x [? _]. }
  apply Forall_cons in Hin as [[[heap Ea] Hok] Hin]. inversion Hap as [| x l Hax Hap']; subst. cbn [fst snd] in Ea, Hok. cbn [statics_init]. rewrite Ea. cbn [mbind option_bind].
  destruct (k_heap_init_ok heap mem bytes (pmem P) s Hs (Hw _ _ Ea) Hok) as (h & s1 & E & Hs1 & Hw1 & Hc & I1 & I2 & Hout). rewrite E. cbn [mbind option_bind].
  set (P1 := pool_put a (set_kh_heap h heap) P).
  assert (dom (pheaps P1) = dom (pheaps P)) as Hdom by (unfold P1; cbn [pheaps pool_put]; rewrite dom_insert_L; apply subseteq_union_1_L, singleton_subseteq_l, elem_of_dom; by eexists).
  destruct (IH (D ++ [(a, mem, bytes)]) P1 s1) as (P' & s' & E' & Hs' & HD' & Hr & Hdom'); [done | | done | | |].
  - intros b hb Eb. rewrite Hw1. unfold P1 in Eb. cbn [pheaps pool_put] in Eb. destruct (decide (b = a)) as [-> | Hne];
      [rewrite lookup_insert_eq in Eb; injection Eb as <-; exact (Hw a heap Ea) | rewrite lookup_insert_ne in Eb by done; by apply (Hw b)].
  - eapply Forall_impl; [exact Hin |]. intros x [Hx Hx']. split; [| done]. by rewrite <- elem_of_dom, Hdom, elem_of_dom.
  - apply Forall_app. split; [| apply Forall_singleton; split; [| eapply Forall_impl; [exact Hax |]; intros y [Hy1 Hy2]; split; [by apply not_eq_sym | unfold disjoint_ranges in *; tauto]]].
    + eapply Forall_impl; [exact HD |]. intros x [Hx Hx']. apply Forall_cons in Hx' as [Hxa Hx']. split; [| done]. by apply (ready_put P a mem bytes).
    + exists (set_kh_heap h heap), (header_units mem bytes). unfold P1. cbn [pheaps pmem pool_put kh_heap set_kh_heap]. rewrite lookup_insert_eq.
      split_and!; [done | by destruct h | done | done].
  - exists P', s'. rewrite <- app_assoc in HD'. split_and!; try done; [by rewrite Hdom'].
Qed.

(** The static heaps the linker lays out, one for each [k_heap] of the pool. *)
Record boot_layout (sect : list (Z * Z * Z)) (P : pool) s : Prop := {
  bl_sched : sched_inv ∅ s;
  bl_waiters : ∀ a heap, pheaps P !! a = Some heap -> waitq s (kh_wait_q heap) = [];
  bl_apart : ForallOrdPairs apart_memory sect;
  bl_heaps : Forall (λ x, is_Some (pheaps P !! x.1.1) /\ init_ok x.1.2 x.2 /\ 0 < x.1.1 < 2 ^ 32) sect;
  bl_all : ∀ a, is_Some (pheaps P !! a) -> ∃ mem bytes, (a, mem, bytes) ∈ sect;
  bl_pools : ∀ t, resource_pool P t = NULL \/ is_Some (pheaps P !! resource_pool P t)
}.

Lemma apart_lookup sect x y : ForallOrdPairs apart_memory sect -> x ∈ sect -> y ∈ sect -> x.1.1 <> y.1.1 -> disjoint_ranges x.1.2 x.2 y.1.2 y.2.
Proof.
  induction 1 as [| z l Hz _ IH]; [by intros ?%elem_of_nil |]. rewrite !elem_of_cons. intros [-> | Hx] [-> | Hy] Hne; [done | | | by apply IH].
  - by apply (proj1 (Forall_forall _ _) Hz y Hy).
  - pose proof (proj2 (proj1 (Forall_forall _ _) Hz x Hx)). unfold disjoint_ranges in *. tauto.
Qed.

Lemma boot_ok sect P s :
  boot_layout sect P s -> ∃ P' s', statics_init sect P s = Some (P', s') /\ pool_ok P' ∅ s' /\ dom (pheaps P') = dom (pheaps P).
Proof.
  intros [Hs Hw Hap Hin Hall Hp]. destruct (statics_init_ok sect [] P s) as (P' & s' & E & Hs' & HR & Hr & Hdom); [done | done | done | | done |].
  { eapply Forall_impl; [exact Hin |]. by intros x (? & ? & _). }
  exists P', s'. split; [done |]. split; [| done]. cbn [app] in HR. rewrite Forall_forall in HR, Hin.
  assert (∀ a heap, pheaps P' !! a = Some heap -> ∃ mem bytes, (a, mem, bytes) ∈ sect) as Hsect.
  { intros a heap Ea. apply Hall. rewrite <- elem_of_dom, <- Hdom, elem_of_dom. by eexists. }
  split; [done | | | done |].
  - intros a heap Ea. destruct (Hsect a heap Ea) as (mem & bytes & Hx). split; [apply (Hin _ Hx) |]. destruct (HR _ Hx) as (heap' & k & Ea' & Hc & _).
    rewrite Ea in Ea'. injection Ea' as <-. exists k, ∅. split; [done |]. intros q d. split; [done |]. by intros (bs & _ & ?).
  - intros a b ha hb Hne Ea Eb. destruct (Hsect a ha Ea) as (ma & na & Ha). destruct (Hsect b hb Eb) as (mb & nb & Hb).
    destruct (HR _ Ha) as (ha' & ka & Ea' & _ & A1 & A2). destruct (HR _ Hb) as (hb' & kb & Eb' & _ & B1 & B2).
    rewrite Ea in Ea'. rewrite Eb in Eb'. injection Ea' as <-. injection Eb' as <-.
    pose proof (apart_lookup sect _ _ Hap Ha Hb Hne) as Hd. unfold disjoint_ranges in *. cbn [fst snd] in Hd. lia.
  - intros t. rewrite Hr. destruct (Hp t) as [? | Ht]; [by left | right]. by rewrite <- elem_of_dom, Hdom, elem_of_dom.
Qed.

(** C6: once the static heaps are initialised at boot, a client of the memory
    pool may allocate from the system heap and from the pool of its thread,
    with any alignment, clear, resize, free and write its blocks in any order
    and between other kernel activity, provided each request [fits] every heap
    (it needs a chunk in a size class the heap has a bucket for, or is refused as
    too big; its alignment does not run past the address space).  Every call returns; blocks are aligned
    as asked, pairwise disjoint, hold what the client wrote, and every block
    stays tied to the heap it came from. *)
Theorem pool_client_safe sect ops P s :
  boot_layout sect P s -> is_Some (pheaps P !! _SYSTEM_HEAP) ->
  ∃ P0 s0, statics_init sect P s = Some (P0, s0) /\
    (Forall (pool_op_ok P0) ops ->
     ∃ rs P' V s', pool_run ops (P0, ∅, s0) = Some (rs, (P', V, s')) /\ Forall2 aligned_result ops rs /\ sched_inv ∅ s' /\
       (∀ p a bs, V !! p = Some (a, bs) ->
          p <> NULL /\ load 4 (pmem P') (p - 4) = a /\ read_bytes (pmem P') p (length bs) = bs /\
          ∃ heap, pheaps P' !! a = Some heap /\ hbase (kh_heap heap) <= p /\ p + len bs <= hbase (kh_heap heap) + 8 * end_chunk (kh_heap heap)) /\
       (∀ p q a b bs bs', p <> q -> V !! p = Some (a, bs) -> V !! q = Some (b, bs') -> disjoint_ranges p (len bs) q (len bs'))).
Proof.
  intros Hboot Hsys. destruct (boot_ok sect P s Hboot) as (P0 & s0 & E0 & HP & Hdom). exists P0, s0. split; [done |]. intros Hops.
  destruct (pool_run_ok ops P0 ∅ s0 HP) as (rs & P' & V' & s' & E & Hrs & HP'); [by rewrite <- elem_of_dom, Hdom, elem_of_dom | done |].
  exists rs, P', V', s'. split_and!; [done | done | apply HP' | |].
  - intros p a bs HV. destruct (pool_block P' V' s' p a bs HP' HV) as (heap & _ & _ & Ea & _ & _ & _ & B1 & B2 & B3 & B4 & B5).
    split_and!; [done | done | done |]. exists heap. split; [done | lia].
  - intros p q a b bs bs' Hne HVp HVq. by apply (pool_disjoint P' V' s' p q a b).
Qed.

End Client.
End Ops.

(** ** A pool of one heap *)

#[local] Existing Instance default_kconfig | 100.
#[local] Existing Instance default_heap | 100.

Definition pool0 : pool := mk_pool (λ _, 0) {[256 := mk_k_heap (mk_heap 0 0 0 [] (λ _, 0)) (inr 5%nat)]} (λ _, NULL).

Definition pool_demo : list pool_op :=
  [PAlloc 2 100; PAlloc 6 20; PCalloc 3 10; PAssign 2%nat; PThread 3 8; PWrite 4152 0 [1; 2]; PRealloc 4152 40; PFree 4152].

Lemma pool0_layout : boot_layout [(256, 4096, 1024)] pool0 two_threads.
Proof.
  split.
  - apply two_threads_inv.
  - intros a heap Ea. unfold pool0 in Ea. cbn [pheaps] in Ea. apply lookup_singleton_Some in Ea as [_ <-]. by_compute.
  - repeat constructor.
  - apply Forall_singleton. split; [by eexists |]. split; [apply demo_ok | cbn [fst snd]; lia].
  - intros a [heap Ea]. unfold pool0 in Ea. cbn [pheaps] in Ea. apply lookup_singleton_Some in Ea as [<- _]. exists 4096, 1024. by apply list_elem_of_singleton.
  - intros t. left. reflexivity.
Qed.

Lemma demo_fits h k size : hbase h = 4096 -> end_chunk h = 127 -> (k = 2 \/ k = 3 \/ k = 6) -> (size = 100 \/ size = 20 \/ size = 30 \/ size = 8) -> fits h k size.
Proof. intros Hb He [-> | [-> | ->]] [-> | [-> | [-> | ->]]]; unfold fits, pool_rew; by sized h. Qed.

Lemma demo_resize h : hbase h = 4096 -> end_chunk h = 127 -> op_ok h (HRealloc 4148 4 44).
Proof. intros Hb He. split; [done |]. exists 4. split; [by apply (asks_aligned 2) |]. by sized h. Qed.

Lemma pool_client_safe_witness :
  ∃ P0 s0 rs P' V s', statics_init [(256, 4096, 1024)] pool0 two_threads = Some (P0, s0) /\
    pool_run 256 pool_demo (P0, ∅, s0) = Some (rs, (P', V, s')) /\
    ∀ p q a b bs bs', p <> q -> V !! p = Some (a, bs) -> V !! q = Some (b, bs') -> disjoint_ranges p (len bs) q (len bs').
Proof.
  destruct (pool_client_safe 256 [(256, 4096, 1024)] pool_demo pool0 two_threads pool0_layout) as (P0 & s0 & E & Hrun); [by eexists |].
  destruct demo_client as (h0 & E0 & Hb & He & _).
  assert (∀ a heap, pheaps P0 !! a = Some heap -> hbase (kh_heap heap) = 4096 /\ end_chunk (kh_heap heap) = 127) as Hplace.
  { clear Hrun. unfold statics_init, k_heap_init in E. change (pheaps pool0 !! 256) with (Some (mk_k_heap (mk_heap 0 0 0 [] (λ _, 0)) (inr 5%nat))) in E.
    cbn [mbind option_bind] in E. change (pmem pool0) with (λ _ : Z, 0) in E. rewrite E0 in E. cbn [mbind option_bind] in E. injection E as <- _.
    intros a heap Ea. cbn [pheaps pool_put] in Ea. destruct (decide (a = 256)) as [-> | Hne]; [rewrite lookup_insert_eq in Ea; injection Ea as <-; by split |].
    rewrite lookup_insert_ne in Ea by congruence. unfold pool0 in Ea. cbn [pheaps] in Ea. apply lookup_singleton_Some in Ea as [? _]. congruence. }
  destruct Hrun as (rs & P' & V & s' & Er & _ & _ & _ & Hd).
  { clear E E0. unfold pool_demo. repeat (apply Forall_cons; split); try exact I; try apply Forall_nil_2.
    all: cbn [pool_op_ok]; repeat match goal with |- _ /\ _ => split; [lia |] end; intros a heap Ea; destruct (Hplace a heap Ea); first [by apply demo_resize | apply demo_fits; [done | done | lia | lia]]. }
  exists P0, s0, rs, P', V, s'. split; [exact E | split; [exact Er | exact Hd]].
Defined.
