(* ===== verification/Pipe.v ===== *)
(** * Pipes (kernel/pipes.c): the operations

    A pipe moves bytes between the buffers of its callers and its own ring
    buffer.  A waiting thread is described by the descriptor in its thread
    record, whose address is its [swap_data]; a call uses two more descriptors
    for the parts of the ring.  The lists of descriptors are lists of
    identifiers and the descriptors a store, since the copying loop updates
    descriptors that stay linked.  Polling is off; [size_t] has 32 bits. *)

From Stdlib Require Import ZArith Lia Bool.
From stdpp Require Import base numbers list gmap sets.
From S2P Require Import Prelude Memory GenList TimeoutQ Kernel PrioQ Sched.

Open Scope Z_scope.

(** ** Data *)

Definition EIO : Z := 5.

Definition K_PIPE_FLAG_ALLOC : Z := BIT 0.

Record k_pipe := mk_pipe {
  pipe_buffer : Z;
  pipe_size : Z;
  bytes_used : Z;
  read_index : Z;
  write_index : Z;
  readers : wqid;
  writers : wqid;
  pipe_flags : Z
}.

Definition set_pipe_flags (v : Z) (p : k_pipe) : k_pipe :=
  mk_pipe (pipe_buffer p) (pipe_size p) (bytes_used p) (read_index p) (write_index p) (readers p) (writers p) v.

(** [struct _pipe_desc] and who owns it: a thread, one of the two local
    descriptors of a call, or a call from an interrupt. *)
Record pipe_desc := mk_desc { d_buffer : Z; d_bytes : Z; d_thread : option tid }.

Inductive desc_id := DThread (t : tid) | DLocal (i : nat) | DIsr.

#[export] Instance desc_id_eq_dec : EqDecision desc_id.
Proof. solve_decision. Defined.

Definition descs := desc_id -> pipe_desc.

Definition set_desc (i : desc_id) (d : pipe_desc) (D : descs) : descs := λ j, if decide (j = i) then d else D j.

(** The address of a thread's descriptor, as [swap_data] holds it. *)
Definition desc_addr (t : tid) : Z := Z.of_nat t.
Definition desc_at (a : Z) : desc_id := DThread (Z.to_nat a).

(** What a call works on. *)
Record pipe_state := mk_pstate { pst_pipe : k_pipe; pst_mem : mem; pst_descs : descs; pst_kernel : z_kernel }.

Section Ops.
Context {cfg : Kconfig}.
Implicit Types (pipe : k_pipe) (m : mem) (D : descs) (s : z_kernel) (x : pipe_state).

Definition k_pipe_init pipe (buffer size : Z) s : k_pipe * z_kernel :=
  let pipe := mk_pipe buffer size 0 0 0 (readers pipe) (writers pipe) 0 in
  (pipe, z_waitq_init (readers pipe) (z_waitq_init (writers pipe) s)).

Definition z_impl_k_pipe_alloc_init (z_thread_malloc : Z -> option Z) pipe (size : Z) s : Z * k_pipe * z_kernel :=
  if negb (size =? 0) then
    match z_thread_malloc size with
    | Some buffer =>
        let '(pipe, s) := k_pipe_init pipe buffer size s in
        (0, set_pipe_flags K_PIPE_FLAG_ALLOC pipe, s)
    | None => (- ENOMEM, pipe, s)
    end
  else
    let '(pipe, s) := k_pipe_init pipe NULL 0 s in
    (0, pipe, s).

(** The second component is the block handed to [k_free]. *)
Definition k_pipe_cleanup pipe s : Z * option Z * k_pipe :=
  if bool_decide (is_Some (z_waitq_head s (readers pipe))) || bool_decide (is_Some (z_waitq_head s (writers pipe))) then (- EAGAIN, None, pipe)
  else if flag_any (pipe_flags pipe) K_PIPE_FLAG_ALLOC then
    (0, Some (pipe_buffer pipe), mk_pipe NULL 0 0 0 0 (readers pipe) (writers pipe) (flag_clear (pipe_flags pipe) K_PIPE_FLAG_ALLOC))
  else (0, None, pipe).

Definition pipe_xfer (dest dest_size src src_size : Z) m : Z * mem :=
  let num_bytes := Z.min dest_size src_size in
  if dest =? NULL then (num_bytes, m) else (num_bytes, memcpy dest src (Z.to_nat num_bytes) m).

(** The walk's data: the list and [bytes_available]. *)
Definition pipe_walk_op D (bytes_requested : Z) thread (walk_data : list desc_id * Z) s : Z * (list desc_id * Z) * z_kernel :=
  let '(l, bytes_available) := walk_data in
  let desc := desc_at (swap_data (thr s thread)) in
  let bytes_available := u32 (bytes_available + d_bytes (D desc)) in
  (if bytes_requested <=? bytes_available then 1 else 0, (l ++ [desc], bytes_available), s).

Definition pipe_waiter_list_populate D (l : list desc_id) wait_q (bytes_to_xfer : Z) s : Z * list desc_id :=
  let '(_, (l, bytes_available), _) := z_sched_waitq_walk wait_q (pipe_walk_op D bytes_to_xfer) (l, 0) s in
  (bytes_available, l).

Definition pipe_buffer_list_populate (l : list desc_id) (buffer size start end_ : Z) D : Z * list desc_id * descs :=
  let l := l ++ [DLocal 0] in
  if start <? end_ then (end_ - start, l, set_desc (DLocal 0) (mk_desc (buffer + start) (end_ - start) None) D)
  else
    let D := set_desc (DLocal 0) (mk_desc (buffer + start) (size - start) None) D in
    let D := set_desc (DLocal 1) (mk_desc buffer end_ None) D in
    (size - start + end_, l ++ [DLocal 1], D).

Definition pipe_return_code (min_xfer bytes_remaining bytes_requested : Z) : Z :=
  if min_xfer <=? u32 (bytes_requested - bytes_remaining) then 0 else - EAGAIN.

(** [dest->buffer += n; dest->bytes_to_xfer -= n] *)
Definition advance (n : Z) (d : pipe_desc) : pipe_desc := mk_desc (d_buffer d + n) (d_bytes d - n) (d_thread d).

(** [pipe->bytes_used += n], with the write index behind it. *)
Definition pipe_filled (n : Z) pipe : k_pipe :=
  let w := write_index pipe + n in
  mk_pipe (pipe_buffer pipe) (pipe_size pipe) (bytes_used pipe + n) (read_index pipe)
    (if w >=? pipe_size pipe then w - pipe_size pipe else w) (readers pipe) (writers pipe) (pipe_flags pipe).

(** [pipe->bytes_used -= n], with the read index behind it. *)
Definition pipe_drained (n : Z) pipe : k_pipe :=
  let r := read_index pipe + n in
  mk_pipe (pipe_buffer pipe) (pipe_size pipe) (bytes_used pipe - n)
    (if r >=? pipe_size pipe then r - pipe_size pipe else r) (write_index pipe) (readers pipe) (writers pipe) (pipe_flags pipe).

(** [z_unpend_thread(thread); z_ready_thread(thread);] *)
Definition pipe_wake thread s : z_kernel := z_ready_thread thread (z_unpend_thread thread s).

(** The loop of [pipe_write] on the source and destination at the front of
    their lists: the bytes written and [*reschedule].  Every iteration uses up
    one of the two, so their number is enough fuel. *)
Fixpoint pipe_write_loop (fuel : nat) (src dest : list desc_id) (num_bytes_written : Z) (reschedule : bool) x : option (Z * bool * pipe_state) :=
  match src, dest with
  | i :: src', j :: dest' =>
      match fuel with
      | O => None
      | S fuel =>
          let '(mk_pstate pipe m D s) := x in
          let '(bytes_copied, m) := pipe_xfer (d_buffer (D j)) (d_bytes (D j)) (d_buffer (D i)) (d_bytes (D i)) m in
          let num_bytes_written := num_bytes_written + bytes_copied in
          let D := set_desc j (advance bytes_copied (D j)) D in
          let D := set_desc i (advance bytes_copied (D i)) D in
          let '(pipe, s, reschedule) :=
            match d_thread (D j) with
            | None => (pipe_filled bytes_copied pipe, s, reschedule)
            | Some thread => if d_bytes (D j) =? 0 then (pipe, pipe_wake thread s, true) else (pipe, s, reschedule)
            end in
          let src := if d_bytes (D i) =? 0 then src' else src in
          let dest := if d_bytes (D j) =? 0 then dest' else dest in
          pipe_write_loop fuel src dest num_bytes_written reschedule (mk_pstate pipe m D s)
      end
  | _, _ => Some (num_bytes_written, reschedule, x)
  end.

Definition pipe_write (src_list dest_list : list desc_id) (reschedule : bool) x : option (Z * bool * pipe_state) :=
  pipe_write_loop (length src_list + length dest_list) src_list dest_list 0 reschedule x.

(** [isr_desc] in an interrupt, else the thread's own. *)
Definition caller_desc s : desc_id := if arch_is_in_isr s then DIsr else DThread (current s).

(** Up to the context switch; the second component is [*bytes_written]. *)
Definition z_impl_k_pipe_put (data bytes_to_write min_xfer timeout : Z) x : option (outcome * option Z * pipe_state) :=
  if min_xfer >? bytes_to_write then Some (Returns (- EINVAL), None, x)
  else
    let '(mk_pstate pipe m D s) := x in
    let '(bytes_can_write, dest_list) := pipe_waiter_list_populate D [] (readers pipe) bytes_to_write s in
    let '(bytes_can_write, dest_list, D) :=
      if negb (bytes_used pipe =? pipe_size pipe) then
        let '(n, dest_list, D) := pipe_buffer_list_populate dest_list (pipe_buffer pipe) (pipe_size pipe) (write_index pipe) (read_index pipe) D in
        (u32 (bytes_can_write + n), dest_list, D)
      else (bytes_can_write, dest_list, D) in
    if (bytes_can_write <? min_xfer) && K_TIMEOUT_EQ timeout K_NO_WAIT then Some (Returns (- EIO), Some 0, mk_pstate pipe m D s)
    else
      let src_desc := caller_desc s in
      let D := set_desc src_desc (mk_desc data bytes_to_write (Some (current s))) D in
      '(bytes_written, reschedule_needed, x) ← pipe_write [src_desc] dest_list false (mk_pstate pipe m D s);
      let '(mk_pstate pipe m D s) := x in
      if (bytes_written =? bytes_to_write) || K_TIMEOUT_EQ timeout K_NO_WAIT || ((min_xfer <=? bytes_written) && (0 <? min_xfer)) then
        Some (Returns 0, Some bytes_written, mk_pstate pipe m D (if reschedule_needed : bool then z_reschedule s else s))
      else
        let s := upd_thread (current s) (set_swap_data (desc_addr (current s))) s in
        Some (Blocks, None, mk_pstate pipe m D (z_sched_wait (writers pipe) timeout s)).

(** What a put or get that waited returns, with [*bytes_written] or
    [*bytes_read]. *)
Definition pipe_wait_return D (thread : tid) (bytes_requested min_xfer : Z) : Z * Z :=
  let remaining := d_bytes (D (DThread thread)) in
  (pipe_return_code min_xfer remaining bytes_requested, u32 (bytes_requested - remaining)).

(** The copying loop of [pipe_get_internal] over the sources. *)
Fixpoint pipe_get_loop (dest : desc_id) (src_list : list desc_id) (num_bytes_read : Z) (reschedule_needed : bool) x : Z * bool * pipe_state :=
  match src_list with
  | [] => (num_bytes_read, reschedule_needed, x)
  | i :: src_list =>
      let '(mk_pstate pipe m D s) := x in
      let '(bytes_copied, m) := pipe_xfer (d_buffer (D dest)) (d_bytes (D dest)) (d_buffer (D i)) (d_bytes (D i)) m in
      let num_bytes_read := num_bytes_read + bytes_copied in
      let D := set_desc i (advance bytes_copied (D i)) D in
      let D := set_desc dest (mk_desc (if negb (d_buffer (D dest) =? NULL) then d_buffer (D dest) + bytes_copied else NULL)
                                (d_bytes (D dest) - bytes_copied) (d_thread (D dest))) D in
      let '(pipe, s, reschedule_needed) :=
        match d_thread (D i) with
        | None => (pipe_drained bytes_copied pipe, s, reschedule_needed)
        | Some thread => if d_bytes (D i) =? 0 then (pipe, pipe_wake thread s, true) else (pipe, s, reschedule_needed)
        end in
      pipe_get_loop dest src_list num_bytes_read reschedule_needed (mk_pstate pipe m D s)
  end.

(** Refilling the ring from the waiting writers. *)
Definition pipe_refill (reschedule_needed : bool) x : option (bool * pipe_state) :=
  let '(mk_pstate pipe m D s) := x in
  if negb (bytes_used pipe =? pipe_size pipe) then
    let '(_, src_list) := pipe_waiter_list_populate D [] (writers pipe) (pipe_size pipe - bytes_used pipe) s in
    let '(_, pipe_list, D) := pipe_buffer_list_populate [] (pipe_buffer pipe) (pipe_size pipe) (write_index pipe) (read_index pipe) D in
    '(_, reschedule_needed, x) ← pipe_write src_list pipe_list reschedule_needed (mk_pstate pipe m D s);
    Some (reschedule_needed, x)
  else Some (reschedule_needed, x).

Definition pipe_get_internal (data bytes_to_read min_xfer timeout : Z) x : option (outcome * option Z * pipe_state) :=
  let '(mk_pstate pipe m D s) := x in
  let '(bytes_can_read, src_list, D) :=
    if negb (bytes_used pipe =? 0) then pipe_buffer_list_populate [] (pipe_buffer pipe) (pipe_size pipe) (read_index pipe) (write_index pipe) D
    else (0, [], D) in
  let '(n, src_list) := pipe_waiter_list_populate D src_list (writers pipe) bytes_to_read s in
  let bytes_can_read := u32 (bytes_can_read + n) in
  if (bytes_can_read <? min_xfer) && K_TIMEOUT_EQ timeout K_NO_WAIT then Some (Returns (- EIO), Some 0, mk_pstate pipe m D s)
  else
    let dest_desc := caller_desc s in
    let D := set_desc dest_desc (mk_desc data bytes_to_read (Some (current s))) D in
    let '(num_bytes_read, reschedule_needed, x) := pipe_get_loop dest_desc src_list 0 false (mk_pstate pipe m D s) in
    '(reschedule_needed, x) ← pipe_refill reschedule_needed x;
    let '(mk_pstate pipe m D s) := x in
    if (num_bytes_read =? bytes_to_read) || K_TIMEOUT_EQ timeout K_NO_WAIT || ((min_xfer <=? num_bytes_read) && (0 <? min_xfer)) then
      Some (Returns 0, Some num_bytes_read, mk_pstate pipe m D (if reschedule_needed : bool then z_reschedule s else s))
    else
      let s := upd_thread (current s) (set_swap_data (desc_addr (current s))) s in
      Some (Blocks, None, mk_pstate pipe m D (z_sched_wait (readers pipe) timeout s)).

Definition z_impl_k_pipe_get (data bytes_to_read min_xfer timeout : Z) x : option (outcome * option Z * pipe_state) :=
  if min_xfer >? bytes_to_read then Some (Returns (- EINVAL), None, x)
  else pipe_get_internal data bytes_to_read min_xfer timeout x.

Definition z_impl_k_pipe_flush x : option pipe_state :=
  '(_, _, x) ← pipe_get_internal NULL UINT32_MAX 0 K_NO_WAIT x;
  Some x.

Definition z_impl_k_pipe_buffer_flush x : option pipe_state :=
  if negb (pipe_buffer (pst_pipe x) =? NULL) then
    '(_, _, x) ← pipe_get_internal NULL (pipe_size (pst_pipe x)) 0 K_NO_WAIT x;
    Some x
  else Some x.

Definition z_impl_k_pipe_read_avail pipe : Z :=
  if (pipe_buffer pipe =? NULL) || (pipe_size pipe =? 0) then 0
  else if read_index pipe =? write_index pipe then bytes_used pipe
  else if read_index pipe <? write_index pipe then write_index pipe - read_index pipe
  else pipe_size pipe - (read_index pipe - write_index pipe).

Definition z_impl_k_pipe_write_avail pipe : Z :=
  if (pipe_buffer pipe =? NULL) || (pipe_size pipe =? 0) then 0
  else if write_index pipe =? read_index pipe then pipe_size pipe - bytes_used pipe
  else if write_index pipe <? read_index pipe then read_index pipe - write_index pipe
  else pipe_size pipe - (write_index pipe - read_index pipe).

End Ops.
