(* ===== verification/PipeCopy.v ===== *)
(** * The copying loops of kernel/pipes.c

    What a loop does is stated on the bytes its sources hold and on the
    addresses its destinations ask for, each laid end to end: it fills the
    addresses with the bytes, in order, until one of the two runs out. *)

From Stdlib Require Import ZArith Lia Bool.
From stdpp Require Import base numbers list gmap sets.
From S2P Require Import Prelude Memory GenList TimeoutQ Kernel PrioQ Sched Pipe.

Open Scope Z_scope.

#[local] Abbreviation len l := (Z.of_nat (length l)).

(** ** Filling addresses with bytes *)

Fixpoint fill (m : mem) (addrs bytes : list Z) : mem :=
  match addrs, bytes with
  | a :: addrs, b :: bytes => fill (λ x, if x =? a then b else m x) addrs bytes
  | _, _ => m
  end.

Lemma fill_nil_r m addrs : fill m addrs [] = m.
Proof. by destruct addrs. Qed.

Lemma fill_ext m m' addrs bytes x : (∀ x, m x = m' x) -> fill m addrs bytes x = fill m' addrs bytes x.
Proof.
  revert m m' bytes. induction addrs as [| a addrs IH]; intros m m' [| b bytes] H; simpl; try done. apply IH. intros y. by destruct (y =? a).
Qed.

Lemma fill_out m addrs bytes x : x ∉ addrs -> fill m addrs bytes x = m x.
Proof.
  revert m bytes. induction addrs as [| a addrs IH]; intros m [| b bytes] H; simpl; try done. apply not_elem_of_cons in H as [Hne H].
  rewrite IH by done. by rewrite (proj2 (Z.eqb_neq x a)).
Qed.

Lemma fill_app m a1 a2 b1 b2 : length a1 = length b1 -> fill m (a1 ++ a2) (b1 ++ b2) = fill (fill m a1 b1) a2 b2.
Proof. revert m b1. induction a1 as [| a a1 IH]; intros m [| b b1] H; simpl in *; try done. apply IH. lia. Qed.

Lemma fill_take m addrs bytes : fill m addrs bytes = fill m (take (length bytes) addrs) bytes.
Proof. revert m bytes. induction addrs as [| a addrs IH]; intros m [| b bytes]; simpl; done. Qed.

Lemma fill_short m addrs bytes : fill m addrs bytes = fill m addrs (take (length addrs) bytes).
Proof. revert m bytes. induction addrs as [| a addrs IH]; intros m [| b bytes]; simpl; done. Qed.

Lemma fill_at m addrs bytes i a b : NoDup addrs -> addrs !! i = Some a -> bytes !! i = Some b -> fill m addrs bytes a = b.
Proof.
  revert m bytes i. induction addrs as [| a0 addrs IH]; intros m [| b0 bytes] i Hnd Ha Hb; simpl; try done.
  apply NoDup_cons in Hnd as [Hn Hnd]. destruct i as [| i]; simpl in *; [| by apply (IH _ bytes i)].
  injection Ha as ->. injection Hb as ->. rewrite fill_out by done. by rewrite Z.eqb_refl.
Qed.

Lemma write_bytes_fill m a l x : write_bytes m a l x = fill m (seqZ a (len l)) l x.
Proof.
  destruct (decide (a <= x < a + len l)) as [Hx | Hx].
  - symmetry. apply (fill_at _ _ _ (Z.to_nat (x - a))); [apply NoDup_seqZ | rewrite lookup_seqZ_lt by lia; f_equal; lia |].
    unfold write_bytes. destruct (Z.leb_spec a x), (Z.ltb_spec x (a + len l)); try lia. cbn [andb]. apply list_lookup_lookup_total_lt. lia.
  - rewrite write_bytes_out, fill_out by (rewrite ?elem_of_seqZ; lia). done.
Qed.

Lemma take_seqZ (n : nat) a k : Z.of_nat n <= k -> take n (seqZ a k) = seqZ a (Z.of_nat n).
Proof. intros H. replace k with (Z.of_nat n + (k - Z.of_nat n)) by lia. rewrite seqZ_app by lia. apply take_app_length'. rewrite length_seqZ. lia. Qed.

Lemma drop_seqZ (n : nat) a k : Z.of_nat n <= k -> drop n (seqZ a k) = seqZ (a + Z.of_nat n) (k - Z.of_nat n).
Proof. intros H. replace k with (Z.of_nat n + (k - Z.of_nat n)) at 1 by lia. rewrite seqZ_app by lia. apply drop_app_length'. rewrite length_seqZ. lia. Qed.

Lemma memcpy_fill dst src n m x : memcpy dst src n m x = fill m (seqZ dst (Z.of_nat n)) (read_bytes m src n) x.
Proof. unfold memcpy. rewrite write_bytes_fill. by rewrite read_bytes_length. Qed.

(** ** Sources and destinations

    A source is a descriptor with the bytes it holds, a destination one with
    the addresses it asks for and the thread it belongs to, if any. *)

Abbreviation source := (desc_id * list Z)%type.
Abbreviation target := (desc_id * (option tid * list Z))%type.

(** The list once [k] bytes have been taken from its front. *)
Fixpoint consume {A} (k : nat) (l : list (desc_id * list A)) : list (desc_id * list A) :=
  match l with
  | [] => []
  | (i, bs) :: l => (i, drop k bs) :: consume (k - length bs) l
  end.

Fixpoint supply (k : nat) (l : list target) : list target :=
  match l with
  | [] => []
  | (j, (t, al)) :: l => (j, (t, drop k al)) :: supply (k - length al) l
  end.

(** The threads that get all they asked for, and the bytes that go into the
    ring. *)
Fixpoint satisfied_by (k : nat) (l : list target) : list tid :=
  match l with
  | [] => []
  | (_, (t, al)) :: l => if (length al <=? k)%nat then option_list t ++ satisfied_by (k - length al) l else []
  end.

Fixpoint into_ring (k : nat) (l : list target) : nat :=
  match l with
  | [] => 0
  | (_, (t, al)) :: l => (match t with None => k `min` length al | Some _ => 0 end + into_ring (k - length al) l)%nat
  end.

Definition bytes_of (l : list source) : list Z := mjoin l.*2.
Definition addrs_of (l : list target) : list Z := mjoin (snd <$> l.*2).

Lemma consume_0 {A} (l : list (desc_id * list A)) : consume 0 l = l.
Proof. induction l as [| [i bs] l IH]; cbn [consume]; [done |]. by rewrite Nat.sub_0_l, IH. Qed.

Lemma supply_0 l : supply 0 l = l.
Proof. induction l as [| [i [t al]] l IH]; cbn [supply]; [done |]. by rewrite Nat.sub_0_l, IH. Qed.

Lemma set_desc_eq i d D : set_desc i d D i = d.
Proof. unfold set_desc. by rewrite decide_True. Qed.

Lemma set_desc_ne i j d D : j <> i -> set_desc i d D j = D j.
Proof. intros H. unfold set_desc. by rewrite decide_False. Qed.

(** ** What the descriptors say *)

Definition holds m (D : descs) (x : source) : Prop :=
  d_bytes (D x.1) = len x.2 /\ read_bytes m (d_buffer (D x.1)) (length x.2) = x.2.

Definition wants (D : descs) (x : target) : Prop :=
  d_thread (D x.1) = x.2.1 /\ d_bytes (D x.1) = len x.2.2 /\ x.2.2 = seqZ (d_buffer (D x.1)) (len x.2.2).

(** The addresses of a list of sources. *)
Definition reads (D : descs) (l : list source) : list Z := mjoin ((λ x : source, seqZ (d_buffer (D x.1)) (len x.2)) <$> l).

(** Destinations are apart from each other and from the sources, threads ask
    for something, and null is not a destination. *)
Record apart (D : descs) (src : list source) (dest : list target) : Prop := {
  ap_ids : NoDup (src.*1 ++ dest.*1);
  ap_addrs : NoDup (addrs_of dest);
  ap_reads : ∀ a, a ∈ addrs_of dest -> a ∉ reads D src;
  ap_null : 0 ∉ addrs_of dest;
  ap_asks : Forall (λ x : target, is_Some x.2.1 -> x.2.2 <> []) dest
}.

(** One copy of [n] bytes between the fronts. *)
Lemma xfer_front m D i bs j t al n :
  holds m D (i, bs) -> wants D (j, (t, al)) -> n = (length bs `min` length al)%nat -> 0 ∉ al ->
  ∃ m', pipe_xfer (d_buffer (D j)) (d_bytes (D j)) (d_buffer (D i)) (d_bytes (D i)) m = (Z.of_nat n, m') /\
    ∀ x, m' x = fill m (take n al) (take n bs) x.
Proof.
  intros [Hb Hr] (_ & Hw & Ha) En H0. cbn [fst snd] in *. unfold pipe_xfer. rewrite Hb, Hw. replace (Z.min (len al) (len bs)) with (Z.of_nat n) by lia.
  assert (∀ x, memcpy (d_buffer (D j)) (d_buffer (D i)) n m x = fill m (take n al) (take n bs) x) as Hm.
  { intros x. rewrite memcpy_fill. f_equal.
    - rewrite Ha at 1. rewrite take_seqZ by lia. done.
    - rewrite <- Hr at 1. apply list_eq. intros k. destruct (decide (k < n)%nat) as [Hk | Hk].
      + rewrite lookup_take_lt by done. rewrite !read_bytes_lookup by lia. done.
      + rewrite lookup_take_ge by lia. apply lookup_ge_None_2. rewrite read_bytes_length. lia. }
  destruct (Z.eqb_spec (d_buffer (D j)) NULL) as [E | _].
  - exists m. split; [done |]. destruct n as [| n]; [by rewrite fill_nil_r; intros |]. destruct H0. rewrite Ha, E. apply elem_of_seqZ. unfold NULL. lia.
  - exists (memcpy (d_buffer (D j)) (d_buffer (D i)) n m). rewrite Nat2Z.id. by split.
Qed.

Lemma elem_of_reads D l a : a ∈ reads D l <-> ∃ x, x ∈ l /\ d_buffer (D x.1) <= a < d_buffer (D x.1) + len x.2.
Proof.
  unfold reads. rewrite list_elem_of_join. setoid_rewrite list_elem_of_fmap. split.
  - intros (k & Ha & x & -> & Hx). apply elem_of_seqZ in Ha. by exists x.
  - intros (x & Hx & Ha). exists (seqZ (d_buffer (D x.1)) (len x.2)). split; [by apply elem_of_seqZ |]. by exists x.
Qed.

Lemma holds_mem m m' D x : holds m D x -> (∀ a, d_buffer (D x.1) <= a < d_buffer (D x.1) + len x.2 -> m' a = m a) -> holds m' D x.
Proof. intros [H1 H2] Hm. split; [done |]. rewrite <- H2 at 2. by apply read_bytes_ext. Qed.

(** ** The lists after one copy *)

Definition rest_src (n : nat) i (bs : list Z) (src : list source) : list source :=
  if (n =? length bs)%nat then src else (i, drop n bs) :: src.
Definition rest_dest (n : nat) j t (al : list Z) (dest : list target) : list target :=
  if (n =? length al)%nat then dest else (j, (t, drop n al)) :: dest.

Lemma rest_src_bytes n i bs src : (n <= length bs)%nat -> bytes_of ((i, bs) :: src) = take n bs ++ bytes_of (rest_src n i bs src).
Proof.
  intros Hn. unfold rest_src, bytes_of. cbn [fmap list_fmap snd mjoin list_join]. destruct (Nat.eqb_spec n (length bs)) as [-> |]; [by rewrite take_ge by lia |].
  cbn [fmap list_fmap snd mjoin list_join]. by rewrite app_assoc, take_drop.
Qed.

Lemma rest_dest_addrs n j t al dest : (n <= length al)%nat -> addrs_of ((j, (t, al)) :: dest) = take n al ++ addrs_of (rest_dest n j t al dest).
Proof.
  intros Hn. unfold rest_dest, addrs_of. cbn [fmap list_fmap snd mjoin list_join]. destruct (Nat.eqb_spec n (length al)) as [-> |]; [by rewrite take_ge by lia |].
  cbn [fmap list_fmap snd mjoin list_join]. by rewrite app_assoc, take_drop.
Qed.

Lemma consume_rest {P : source -> Prop} n k i bs src :
  (n <= length bs)%nat -> (n = length bs -> P (i, [])) -> Forall P (consume k (rest_src n i bs src)) -> Forall P (consume (n + k) ((i, bs) :: src)).
Proof.
  intros Hn He H. cbn [consume]. unfold rest_src in H. destruct (Nat.eqb_spec n (length bs)) as [-> | Hne].
  - apply Forall_cons. rewrite drop_ge by lia. split; [by apply He |]. by replace (length bs + k - length bs)%nat with k by lia.
  - cbn [consume] in H. rewrite drop_drop, length_drop in H. apply Forall_cons in H as [H1 H2]. apply Forall_cons. split; [done |].
    by replace (n + k - length bs)%nat with (k - (length bs - n))%nat by lia.
Qed.

Lemma supply_rest {P : target -> Prop} n k j t al dest :
  (n <= length al)%nat -> (n = length al -> P (j, (t, []))) -> Forall P (supply k (rest_dest n j t al dest)) -> Forall P (supply (n + k) ((j, (t, al)) :: dest)).
Proof.
  intros Hn He H. cbn [supply]. unfold rest_dest in H. destruct (Nat.eqb_spec n (length al)) as [-> | Hne].
  - apply Forall_cons. rewrite drop_ge by lia. split; [by apply He |]. by replace (length al + k - length al)%nat with k by lia.
  - cbn [supply] in H. rewrite drop_drop, length_drop in H. apply Forall_cons in H as [H1 H2]. apply Forall_cons. split; [done |].
    by replace (n + k - length al)%nat with (k - (length al - n))%nat by lia.
Qed.

Lemma satisfied_rest n k j t al dest :
  (n <= length al)%nat -> satisfied_by (n + k) ((j, (t, al)) :: dest) =
    (if (n =? length al)%nat then option_list t else []) ++ satisfied_by k (rest_dest n j t al dest).
Proof.
  intros Hn. cbn [satisfied_by]. unfold rest_dest. destruct (Nat.eqb_spec n (length al)) as [-> | Hne].
  - rewrite (proj2 (Nat.leb_le _ _)) by lia. by replace (length al + k - length al)%nat with k by lia.
  - cbn [satisfied_by app]. rewrite length_drop. destruct (Nat.leb_spec (length al) (n + k)), (Nat.leb_spec (length al - n) k); try lia; [| done].
    by replace (n + k - length al)%nat with (k - (length al - n))%nat by lia.
Qed.

Lemma into_ring_rest n k j t al dest :
  (n <= length al)%nat -> into_ring (n + k) ((j, (t, al)) :: dest) = ((match t with None => n | Some _ => 0 end) + into_ring k (rest_dest n j t al dest))%nat.
Proof.
  intros Hn. cbn [into_ring]. unfold rest_dest. destruct (Nat.eqb_spec n (length al)) as [-> | Hne].
  - replace (length al + k - length al)%nat with k by lia. destruct t; lia.
  - cbn [into_ring]. rewrite length_drop. replace (n + k - length al)%nat with (k - (length al - n))%nat by lia. destruct t; lia.
Qed.

(** The descriptors after one copy. *)
Definition copied (n : Z) (i j : desc_id) (D : descs) : descs := set_desc i (advance n (D i)) (set_desc j (advance n (D j)) D).

Lemma copied_src n i j D : copied n i j D i = advance n (D i).
Proof. unfold copied, set_desc. by rewrite decide_True. Qed.

Lemma copied_dest n i j D : i <> j -> copied n i j D j = advance n (D j).
Proof. intros H. unfold copied, set_desc. by rewrite decide_False, decide_True. Qed.

Lemma copied_other n i j D q : q <> i -> q <> j -> copied n i j D q = D q.
Proof. intros H1 H2. unfold copied, set_desc. by rewrite !decide_False. Qed.

Section Step.
Context (D : descs) (m : mem) (i : desc_id) (bs : list Z) (src : list source) (j : desc_id) (t : option tid) (al : list Z) (dest : list target) (n : nat) (m' : mem).
Context (Hap : apart D ((i, bs) :: src) ((j, (t, al)) :: dest)) (Hs : Forall (holds m D) ((i, bs) :: src)) (Hd : Forall (wants D) ((j, (t, al)) :: dest)).
Context (Hnb : (n <= length bs)%nat) (Hna : (n <= length al)%nat) (Hm : ∀ x, m' x = fill m (take n al) (take n bs) x).

Let D' := copied (Z.of_nat n) i j D.

Lemma step_ids : i <> j /\ Forall (λ x : source, x.1 <> i /\ x.1 <> j) src /\ Forall (λ x : target, x.1 <> i /\ x.1 <> j) dest.
Proof.
  destruct Hap as [Hid _ _ _ _]. cbn [fmap list_fmap fst app] in Hid. apply NoDup_cons in Hid as [Hi Hid]. apply not_elem_of_app in Hi as [Hi1 Hi2].
  apply not_elem_of_cons in Hi2 as [Hij Hi2]. apply NoDup_app in Hid as (_ & Hx & Hid). apply NoDup_cons in Hid as [Hj _].
  split; [done |]. split; apply Forall_forall; intros x Hxl; apply (list_elem_of_fmap_2 fst) in Hxl.
  - split; intros E; rewrite E in Hxl; [done |]. apply (Hx j Hxl). by left.
  - by split; intros E; rewrite E in Hxl.
Qed.

Lemma step_holds : Forall (holds m' D') (rest_src n i bs src).
Proof.
  destruct step_ids as (Hij & Hsi & _). apply Forall_cons in Hs as [[Hb Hr] Hs']. cbn [fst snd] in Hb, Hr.
  assert (∀ a, a ∈ reads D ((i, bs) :: src) -> m' a = m a) as Hkeep.
  { intros a Ha. rewrite Hm. apply fill_out. intros Hin. apply (ap_reads _ _ _ Hap a); [| done]. rewrite (rest_dest_addrs n) by done. apply elem_of_app. by left. }
  assert (Forall (holds m' D') src) as Hrest.
  { rewrite Forall_forall in Hs', Hsi |- *. intros x Hx. destruct (Hsi x Hx) as [H1 H2]. pose proof (Hs' x Hx) as Hh. unfold holds, D'. rewrite copied_other by done.
    apply (holds_mem m m' D x Hh). intros a Ha. apply Hkeep, elem_of_reads. exists x. split; [by right | done]. }
  unfold rest_src. case_match; [done |]. apply Forall_cons. split; [| done]. unfold holds, D'. cbn [fst snd]. rewrite copied_src. cbn [advance d_bytes d_buffer].
  rewrite length_drop. split; [lia |]. rewrite (read_bytes_ext m' m) by (intros a Ha; apply Hkeep, elem_of_reads; exists (i, bs); split; [by left | cbn [fst snd]; lia]).
  rewrite <- Hr at 2. apply list_eq. intros k. rewrite lookup_drop. destruct (decide (k < length bs - n)%nat).
  - rewrite !read_bytes_lookup by lia. do 2 f_equal. lia.
  - rewrite !lookup_ge_None_2; [done | |]; rewrite read_bytes_length; lia.
Qed.

Lemma step_wants : Forall (wants D') (rest_dest n j t al dest).
Proof.
  destruct step_ids as (Hij & _ & Hdi). apply Forall_cons in Hd as [(Ht & Hb & Ha) Hd']. cbn [fst snd] in Ht, Hb, Ha.
  assert (Forall (wants D') dest) as Hrest.
  { rewrite Forall_forall in Hd', Hdi |- *. intros x Hx. destruct (Hdi x Hx) as [H1 H2]. unfold wants, D'. rewrite copied_other by done. by apply Hd'. }
  unfold rest_dest. case_match; [done |]. apply Forall_cons. split; [| done]. unfold wants, D'. cbn [fst snd]. rewrite copied_dest by done.
  cbn [advance d_bytes d_buffer d_thread]. rewrite length_drop. split; [done |]. split; [lia |]. rewrite Ha at 1. rewrite drop_seqZ by lia. f_equal. lia.
Qed.

Lemma step_apart : apart D' (rest_src n i bs src) (rest_dest n j t al dest).
Proof.
  destruct step_ids as (Hij & Hsi & _). destruct Hap as [Hid Had Hrd H0 Hask]. rewrite (rest_dest_addrs n) in Had, Hrd, H0 by done. split.
  - unfold rest_src, rest_dest. cbn [fmap list_fmap fst app] in Hid. case_match; case_match; cbn [fmap list_fmap fst app]; try done.
    + eapply sublist_NoDup; [exact Hid |]. apply sublist_cons, sublist_app; [done | by apply sublist_cons].
    + by apply NoDup_cons in Hid as [_ ?].
    + eapply sublist_NoDup; [exact Hid |]. apply sublist_skip, sublist_app; [done | by apply sublist_cons].
  - by apply NoDup_app in Had as (_ & _ & ?).
  - intros a Ha Hin. apply (Hrd a); [apply elem_of_app; by right |]. apply elem_of_reads in Hin as (x & Hx & Hr). apply elem_of_reads.
    assert (∀ y, y ∈ src -> d_buffer (D' y.1) = d_buffer (D y.1)) as Hy by (intros y Hy; rewrite Forall_forall in Hsi; destruct (Hsi y Hy); unfold D'; by rewrite copied_other).
    unfold rest_src in Hx. destruct (_ =? _)%nat; [exists x; split; [by right | rewrite Hy in Hr; done] |].
    apply elem_of_cons in Hx as [-> | Hx]; [| exists x; split; [by right | rewrite Hy in Hr; done]].
    exists (i, bs). split; [by left |]. cbn [fst snd] in *. unfold D' in Hr. rewrite copied_src in Hr. cbn [advance d_buffer] in Hr. rewrite length_drop in Hr. lia.
  - intros Hin. apply H0, elem_of_app. by right.
  - apply Forall_cons in Hask as [Hj Hask]. unfold rest_dest. destruct (Nat.eqb_spec n (length al)); [done |]. apply Forall_cons. split; [| done].
    intros _ E. apply (f_equal length) in E. cbn [fst snd] in E. rewrite length_drop in E. simpl in E. lia.
Qed.

End Step.

(** ** The loop of [pipe_write] *)

Section Loop.
Context {cfg : Kconfig}.

Definition ring_filled (n : Z) (p : k_pipe) : k_pipe :=
  mk_pipe (pipe_buffer p) (pipe_size p) (bytes_used p + n) (read_index p) ((write_index p + n) mod pipe_size p) (readers p) (writers p) (pipe_flags p).

(** The write index is inside the ring, if there is one. *)
Definition write_inside (p : k_pipe) : Prop := 0 <= pipe_size p /\ write_index p mod pipe_size p = write_index p.

Lemma ring_filled_0 p : write_inside p -> ring_filled 0 p = p.
Proof. intros [_ H]. unfold ring_filled. rewrite !Z.add_0_r, H. by destruct p. Qed.

Lemma ring_filled_add a b p : ring_filled a (ring_filled b p) = ring_filled (b + a) p.
Proof. unfold ring_filled. simpl. f_equal; [lia |]. rewrite Zplus_mod_idemp_l. f_equal. lia. Qed.

Lemma write_inside_filled n p : write_inside p -> write_inside (ring_filled n p).
Proof. intros [H1 H2]. split; [done |]. simpl. apply Zmod_mod. Qed.

Lemma pipe_filled_eq n p : write_inside p -> 0 <= n <= pipe_size p -> pipe_filled n p = ring_filled n p.
Proof.
  intros [H1 H2] Hn. unfold pipe_filled, ring_filled. f_equal. destruct (Z.eq_dec (pipe_size p) 0) as [E | E].
  - rewrite E in *. rewrite Z.mod_0_r in *. destruct (Z.geb_spec (write_index p + n) 0); lia.
  - pose proof (Z.mod_pos_bound (write_index p) (pipe_size p)). destruct (Z.geb_spec (write_index p + n) (pipe_size p)).
    + symmetry. rewrite <- (Z.mod_small (write_index p + n - pipe_size p) (pipe_size p)) by lia.
      replace (write_index p + n) with (write_index p + n - pipe_size p + 1 * pipe_size p) at 1 by lia. apply Z.mod_add. lia.
    + symmetry. apply Z.mod_small. lia.
Qed.

(** Parts of the ring fit into it. *)
Definition ring_parts (p : k_pipe) (dest : list target) : Prop := Forall (λ x : target, x.2.1 = None -> len x.2.2 <= pipe_size p) dest.

Definition wake_all (l : list tid) (s : z_kernel) : z_kernel := foldl (λ s t, pipe_wake t s) s l.

(** Descriptors move along their buffers. *)
Definition moved (D D' : descs) : Prop :=
  ∀ i, d_thread (D' i) = d_thread (D i) /\ d_buffer (D' i) + d_bytes (D' i) = d_buffer (D i) + d_bytes (D i).

Lemma copied_moved n i j D : moved D (copied n i j D).
Proof. intros q. unfold copied, set_desc, advance. repeat case_decide; subst; simpl; split; (done || lia). Qed.

Lemma moved_trans D1 D2 D3 : moved D1 D2 -> moved D2 D3 -> moved D1 D3.
Proof. intros H1 H2 i. destruct (H1 i), (H2 i). split; [congruence | lia]. Qed.

Lemma satisfied_none dest : Forall (λ x : target, is_Some x.2.1 -> x.2.2 <> []) dest -> satisfied_by 0 dest = [].
Proof.
  induction 1 as [| [j [t al]] dest Hx _ IH]; [done |]. cbn [satisfied_by]. cbn [fst snd] in Hx. destruct (Nat.leb_spec (length al) 0); [| done].
  rewrite Nat.sub_0_l, IH. destruct t; [| done]. destruct al; [by destruct Hx; [eexists |] | simpl in *; lia].
Qed.

Lemma into_ring_none dest : into_ring 0 dest = 0%nat.
Proof. induction dest as [| [j [t al]] dest IH]; [done |]. cbn [into_ring]. rewrite Nat.sub_0_l, IH. by destruct t. Qed.

(** The result of copying [src] to [dest]. *)
Definition written (src : list source) (dest : list target) acc (r : bool) p m D s (res : option (Z * bool * pipe_state)) : Prop :=
  let k := (length (bytes_of src) `min` length (addrs_of dest))%nat in
  ∃ m' D', res = Some (acc + Z.of_nat k, r || bool_decide (satisfied_by k dest <> []),
      mk_pstate (ring_filled (Z.of_nat (into_ring k dest)) p) m' D' (wake_all (satisfied_by k dest) s)) /\
    (∀ x, m' x = fill m (addrs_of dest) (bytes_of src) x) /\ Forall (holds m' D') (consume k src) /\ Forall (wants D') (supply k dest) /\
    moved D D' /\ (∀ i, i ∉ src.*1 -> i ∉ dest.*1 -> D' i = D i).

Lemma written_end src dest acc r p m D s :
  src = [] \/ dest = [] -> Forall (holds m D) src -> Forall (wants D) dest -> apart D src dest -> write_inside p ->
  written src dest acc r p m D s (Some (acc, r, mk_pstate p m D s)).
Proof.
  intros He Hs Hd Hap Hw. unfold written. replace (length (bytes_of src) `min` length (addrs_of dest))%nat with 0%nat by (destruct He as [-> | ->]; simpl; lia).
  exists m, D. rewrite into_ring_none, (satisfied_none dest (ap_asks _ _ _ Hap)), ring_filled_0, consume_0, supply_0 by done.
  split_and!; try done; [| destruct He as [-> | ->]; intros x; by rewrite ?fill_nil_r]. by rewrite orb_false_r, Z.add_0_r.
Qed.

Lemma written_step src dest acc r p m D s i bs j t al n m1 res :
  Forall (holds m D) ((i, bs) :: src) -> Forall (wants D) ((j, (t, al)) :: dest) -> apart D ((i, bs) :: src) ((j, (t, al)) :: dest) ->
  (n <= length bs)%nat -> (n <= length al)%nat -> (∀ x, m1 x = fill m (take n al) (take n bs) x) ->
  written (rest_src n i bs src) (rest_dest n j t al dest) (acc + Z.of_nat n) (r || bool_decide ((if (n =? length al)%nat then option_list t else []) <> []))
    (ring_filled (Z.of_nat (match t with None => n | Some _ => 0 end)) p) m1 (copied (Z.of_nat n) i j D)
    (wake_all (if (n =? length al)%nat then option_list t else []) s) res ->
  written ((i, bs) :: src) ((j, (t, al)) :: dest) acc r p m D s res.
Proof.
  intros Hs Hd Hap Hnb Hna Hm (m' & D' & -> & Hm' & Hh & Hwt & Hmv & Hfr). destruct (step_ids D i bs src j t al dest Hap) as (Hij & Hsi & Hdi).
  set (k := (length (bytes_of (rest_src n i bs src)) `min` length (addrs_of (rest_dest n j t al dest)))%nat) in *. unfold written.
  rewrite (rest_src_bytes n), (rest_dest_addrs n) by done. rewrite !length_app, !length_take.
  replace (Nat.min (Nat.min n (length bs) + length (bytes_of (rest_src n i bs src))) (Nat.min n (length al) + length (addrs_of (rest_dest n j t al dest))))%nat with (n + k)%nat by lia.
  assert ((i ∉ src.*1) /\ (i ∉ dest.*1) /\ (j ∉ src.*1) /\ (j ∉ dest.*1)) as (N1 & N2 & N3 & N4).
  { rewrite Forall_forall in Hsi. rewrite Forall_forall in Hdi. split_and!; intros (x & E & Hx)%list_elem_of_fmap; [destruct (Hsi x Hx) | destruct (Hdi x Hx) | destruct (Hsi x Hx) | destruct (Hdi x Hx)]; by subst. }
  exists m', D'. rewrite satisfied_rest, into_ring_rest by done. split; [| split_and!].
  - rewrite ring_filled_add, Nat2Z.inj_add. unfold wake_all. rewrite <- foldl_app. do 3 f_equal; [lia | | f_equal; lia].
    rewrite <- orb_assoc. f_equal. destruct (n =? length al)%nat, t; done.
  - intros x. rewrite fill_app by (rewrite !length_take; lia). rewrite Hm'. apply fill_ext. apply Hm.
  - apply consume_rest; [done | | done]. intros En. unfold holds. cbn [fst snd]. rewrite Hfr.
    + rewrite copied_src. cbn [advance d_bytes]. apply Forall_cons in Hs as [[Hb _] _]. cbn [fst snd] in Hb. split; [simpl; lia | done].
    + unfold rest_src. by rewrite (proj2 (Nat.eqb_eq _ _)).
    + unfold rest_dest. case_match; [done |]. cbn [fmap list_fmap fst]. by apply not_elem_of_cons.
  - apply supply_rest; [done | | done]. intros En. unfold wants. cbn [fst snd]. apply Forall_cons in Hd as [(Ht & Hb & _) _]. cbn [fst snd] in Ht, Hb. rewrite Hfr.
    + rewrite copied_dest by done. cbn [advance d_bytes d_thread d_buffer]. split; [done |]. split; [simpl; lia | done].
    + unfold rest_src. case_match; [done |]. cbn [fmap list_fmap fst]. apply not_elem_of_cons. split; [by apply not_eq_sym | done].
    + unfold rest_dest. by rewrite (proj2 (Nat.eqb_eq _ _)).
  - by eapply moved_trans; [apply copied_moved |].
  - intros q Hq1 Hq2. cbn [fmap list_fmap fst] in Hq1, Hq2. apply not_elem_of_cons in Hq1 as [Hqi Hq1], Hq2 as [Hqj Hq2]. rewrite Hfr, copied_other; try done.
    + unfold rest_src. case_match; [done |]. cbn [fmap list_fmap fst]. by apply not_elem_of_cons.
    + unfold rest_dest. case_match; [done |]. cbn [fmap list_fmap fst]. by apply not_elem_of_cons.
Qed.

Lemma pipe_write_loop_ok fuel src dest acc r p m D s :
  (length src + length dest <= fuel)%nat -> Forall (holds m D) src -> Forall (wants D) dest -> apart D src dest -> write_inside p -> ring_parts p dest ->
  written src dest acc r p m D s (pipe_write_loop fuel src.*1 dest.*1 acc r (mk_pstate p m D s)).
Proof.
  revert src dest acc r p m D s. induction fuel as [| fuel IH]; intros src dest acc r p m D s Hf Hs Hd Hap Hw Hp.
  { destruct src, dest; simpl in Hf; try lia. by apply written_end; [left | ..]. }
  destruct src as [| [i bs] src]; [by apply written_end; [left | ..] |]. destruct dest as [| [j [t al]] dest]; [by apply written_end; [right | ..] |].
  set (n := (length bs `min` length al)%nat). pose proof (proj1 (proj1 (Forall_cons _ _ _) Hs)) as Hb. pose proof (proj1 (proj1 (Forall_cons _ _ _) Hd)) as Ht.
  destruct (step_ids D i bs src j t al dest Hap) as (Hij & _). pose proof Hp as Hp'. apply Forall_cons in Hp' as [Hpj Hp']. cbn [fst snd] in Hpj.
  destruct (xfer_front m D i bs j t al n Hb Ht eq_refl) as (m1 & E & Hm1); [intros H0; apply (ap_null _ _ _ Hap), elem_of_app; by left |].
  apply (written_step src dest acc r p m D s i bs j t al n m1); [done | done | done | lia | lia | done |].
  cbn [fmap list_fmap fst pipe_write_loop]. rewrite E. change (set_desc i _ _) with (set_desc i (advance (Z.of_nat n) (set_desc j (advance (Z.of_nat n) (D j)) D i)) (set_desc j (advance (Z.of_nat n) (D j)) D)).
  replace (set_desc j (advance (Z.of_nat n) (D j)) D i) with (D i) by (unfold set_desc; by rewrite decide_False).
  fold (copied (Z.of_nat n) i j D). rewrite copied_src, copied_dest by done. cbn [advance d_bytes d_thread].
  destruct Hb as [Hb1 _], Ht as (Ht1 & Ht2 & _). cbn [fst snd] in Hb1, Ht1, Ht2. rewrite Hb1, Ht1, Ht2.
  assert ((len bs - Z.of_nat n =? 0) = (n =? length bs)%nat) as -> by (destruct (Nat.eqb_spec n (length bs)); [apply Z.eqb_eq | apply Z.eqb_neq]; lia).
  assert ((len al - Z.of_nat n =? 0) = (n =? length al)%nat) as -> by (destruct (Nat.eqb_spec n (length al)); [apply Z.eqb_eq | apply Z.eqb_neq]; lia).
  assert ((if (n =? length bs)%nat then src.*1 else i :: src.*1) = (rest_src n i bs src).*1) as -> by (unfold rest_src; by case_match).
  assert ((if (n =? length al)%nat then dest.*1 else j :: dest.*1) = (rest_dest n j t al dest).*1) as -> by (unfold rest_dest; by case_match).
  set (p1 := ring_filled (Z.of_nat (match t with None => n | Some _ => 0%nat end)) p). set (w := if (n =? length al)%nat then option_list t else []).
  assert ((match t with None => (pipe_filled (Z.of_nat n) p, s, r) | Some thread => if (n =? length al)%nat then (p, pipe_wake thread s, true) else (p, s, r) end) =
    (p1, wake_all w s, r || bool_decide (w <> []))) as ->.
  { unfold p1, w. destruct t as [u |]; [rewrite ring_filled_0 by done; destruct (n =? length al)%nat; simpl; by rewrite ?orb_true_r, ?orb_false_r |].
    specialize (Hpj eq_refl). rewrite pipe_filled_eq by (done || lia). destruct (n =? length al)%nat; simpl; by rewrite orb_false_r. }
  apply IH; [| apply (step_holds D m i bs src j t al dest n m1); (done || lia) | eapply step_wants; (done || lia) | eapply step_apart; (done || lia) | by apply write_inside_filled |].
  - unfold rest_src, rest_dest. destruct (Nat.eqb_spec n (length bs)), (Nat.eqb_spec n (length al)); simpl in *; lia.
  - unfold ring_parts, rest_dest. case_match; [done |]. apply Forall_cons. split; [| done]. cbn [fst snd]. rewrite length_drop. change (pipe_size p1) with (pipe_size p). intros Et. specialize (Hpj Et). lia.
Qed.

(** ** The loop of [pipe_get_internal] *)

(** A source with the thread it belongs to, if any. *)
Definition offers m (D : descs) (x : target) : Prop := d_thread (D x.1) = x.2.1 /\ holds m D (x.1, x.2.2).

(** The threads whose bytes are all taken; the loop visits every source, also
    when nothing more is wanted. *)
Fixpoint emptied_by (k : nat) (l : list target) : list tid :=
  match l with
  | [] => []
  | (_, (t, bs)) :: l => (if (length bs <=? k)%nat then option_list t else []) ++ emptied_by (k - length bs) l
  end.

Definition ring_drained (n : Z) (p : k_pipe) : k_pipe :=
  mk_pipe (pipe_buffer p) (pipe_size p) (bytes_used p - n) ((read_index p + n) mod pipe_size p) (write_index p) (readers p) (writers p) (pipe_flags p).

Definition read_inside (p : k_pipe) : Prop := 0 <= pipe_size p /\ read_index p mod pipe_size p = read_index p.

Lemma ring_drained_0 p : read_inside p -> ring_drained 0 p = p.
Proof. intros [_ H]. unfold ring_drained. rewrite Z.add_0_r, Z.sub_0_r, H. by destruct p. Qed.

Lemma ring_drained_add a b p : ring_drained a (ring_drained b p) = ring_drained (b + a) p.
Proof. unfold ring_drained. simpl. f_equal; [lia |]. rewrite Zplus_mod_idemp_l. f_equal. lia. Qed.

Lemma read_inside_drained n p : read_inside p -> read_inside (ring_drained n p).
Proof. intros [H1 H2]. split; [done |]. simpl. apply Zmod_mod. Qed.

Lemma wrap_once x n size : 0 <= size -> x mod size = x -> 0 <= n <= size -> (if x + n >=? size then x + n - size else x + n) = (x + n) mod size.
Proof.
  intros H1 H2 Hn. destruct (Z.eq_dec size 0) as [-> | E].
  - rewrite Z.mod_0_r in *. destruct (Z.geb_spec (x + n) 0); lia.
  - pose proof (Z.mod_pos_bound x size). destruct (Z.geb_spec (x + n) size).
    + symmetry. rewrite <- (Z.mod_small (x + n - size) size) by lia. replace (x + n) with (x + n - size + 1 * size) at 1 by lia. apply Z.mod_add. lia.
    + symmetry. apply Z.mod_small. lia.
Qed.

Lemma pipe_drained_eq n p : read_inside p -> 0 <= n <= pipe_size p -> pipe_drained n p = ring_drained n p.
Proof. intros [H1 H2] Hn. unfold pipe_drained, ring_drained. f_equal. by apply wrap_once. Qed.

(** The receiver's descriptor after [n] bytes. *)
Definition received (n : Z) (d : pipe_desc) : pipe_desc :=
  mk_desc (if negb (d_buffer d =? NULL) then d_buffer d + n else NULL) (d_bytes d - n) (d_thread d).

(** The memory after [bytes] have been copied to a receiver. *)
Definition received_mem (m : mem) (d : pipe_desc) (bytes : list Z) : mem :=
  if d_buffer d =? NULL then m else fill m (seqZ (d_buffer d) (d_bytes d)) bytes.

Lemma received_0 d : received 0 d = d.
Proof. unfold received. destruct (Z.eqb_spec (d_buffer d) NULL) as [E |]; cbn [negb]; rewrite ?Z.add_0_r, ?Z.sub_0_r; [rewrite <- E |]; by destruct d. Qed.

Lemma received_add a b d : 0 <= d_buffer d -> 0 <= b -> received a (received b d) = received (b + a) d.
Proof.
  intros H1 H2. unfold received, NULL. cbn [d_buffer d_bytes d_thread]. destruct (Z.eqb_spec (d_buffer d) 0); cbn [negb].
  - f_equal. lia.
  - rewrite (proj2 (Z.eqb_neq (d_buffer d + b) 0)) by lia. cbn [negb]. f_equal; lia.
Qed.

Lemma received_mem_step m m1 d n bs rest x :
  0 <= d_buffer d -> (n <= length bs)%nat -> Z.of_nat n <= d_bytes d -> ((n < length bs)%nat -> d_bytes d = Z.of_nat n) ->
  (∀ x, m1 x = received_mem m d (take n bs) x) -> received_mem m1 (received (Z.of_nat n) d) rest x = received_mem m d (bs ++ rest) x.
Proof.
  intros Hb Hn Hd Hfull Hm. unfold received_mem, received, NULL in *. cbn [d_buffer d_bytes]. destruct (Z.eqb_spec (d_buffer d) 0) as [E | E]; cbn [negb].
  - rewrite Z.eqb_refl. apply Hm.
  - rewrite (proj2 (Z.eqb_neq (d_buffer d + Z.of_nat n) 0)) by lia. rewrite (fill_ext _ _ _ _ _ Hm).
    destruct (Nat.lt_ge_cases n (length bs)) as [Hlt | Hge].
    + rewrite (Hfull Hlt), Z.sub_diag, (seqZ_nil _ 0) by lia. cbn [fill]. rewrite (fill_short _ _ (bs ++ rest)), length_seqZ, Nat2Z.id, take_app_le by lia. done.
    + rewrite (take_ge bs) by lia. assert (seqZ (d_buffer d) (d_bytes d) = seqZ (d_buffer d) (Z.of_nat n) ++ seqZ (d_buffer d + Z.of_nat n) (d_bytes d - Z.of_nat n)) as ->
        by (rewrite <- seqZ_app by lia; f_equal; lia).
      rewrite (fill_app m _ _ bs rest) by (rewrite length_seqZ; lia). f_equal. rewrite (fill_take m (_ ++ _) bs), take_app_length' by (rewrite length_seqZ; lia). done.
Qed.

(** One source of the loop. *)
Lemma xfer_receive m D i t bs j n :
  offers m D (i, (t, bs)) -> 0 <= d_bytes (D j) -> n = (Z.to_nat (d_bytes (D j)) `min` length bs)%nat ->
  ∃ m', pipe_xfer (d_buffer (D j)) (d_bytes (D j)) (d_buffer (D i)) (d_bytes (D i)) m = (Z.of_nat n, m') /\
    ∀ x, m' x = received_mem m (D j) (take n bs) x.
Proof.
  intros (_ & Hb & Hr) Hj En. cbn [fst snd] in *. unfold pipe_xfer, received_mem. rewrite Hb. replace (Z.min (d_bytes (D j)) (len bs)) with (Z.of_nat n) by lia.
  destruct (d_buffer (D j) =? NULL); [by exists m |]. eexists. split; [done |]. intros x. rewrite Nat2Z.id, memcpy_fill.
  rewrite (fill_take m (seqZ _ (d_bytes (D j)))), length_take, take_seqZ by lia. replace (Z.of_nat (n `min` length bs)) with (Z.of_nat n) by lia. f_equal.
  rewrite <- Hr. apply list_eq. intros k. destruct (decide (k < n)%nat).
  - rewrite lookup_take_lt, !read_bytes_lookup by lia. done.
  - rewrite lookup_take_ge by lia. apply lookup_ge_None_2. rewrite read_bytes_length. lia.
Qed.

Definition to_receive (D : descs) j (n : Z) i : descs := set_desc j (received n (D j)) (set_desc i (advance n (D i)) D).

Definition gotten (src : list target) j acc (r : bool) p m D s (res : Z * bool * pipe_state) : Prop :=
  let k := (Z.to_nat (d_bytes (D j)) `min` length (addrs_of src))%nat in
  ∃ m' D', res = (acc + Z.of_nat k, r || bool_decide (emptied_by k src <> []),
      mk_pstate (ring_drained (Z.of_nat (into_ring k src)) p) m' D' (wake_all (emptied_by k src) s)) /\
    (∀ x, m' x = received_mem m (D j) (addrs_of src) x) /\ Forall (offers m' D') (supply k src) /\ D' j = received (Z.of_nat k) (D j) /\
    (∀ i, i ∉ src.*1 -> i <> j -> D' i = D i) /\
    (∀ i, i <> j -> d_thread (D' i) = d_thread (D i) /\ d_buffer (D' i) + d_bytes (D' i) = d_buffer (D i) + d_bytes (D i)).

Lemma received_mem_out m d bytes a : ~ (d_buffer d <= a < d_buffer d + d_bytes d) \/ d_buffer d = NULL -> received_mem m d bytes a = m a.
Proof.
  intros H. unfold received_mem. destruct (Z.eqb_spec (d_buffer d) NULL); [done |]. apply fill_out. rewrite elem_of_seqZ. by destruct H.
Qed.

Lemma gotten_step src j acc r p m D s i t bs n m1 D1 res :
  i <> j -> j ∉ src.*1 -> i ∉ src.*1 -> offers m D (i, (t, bs)) -> 0 <= d_buffer (D j) -> 0 <= d_bytes (D j) ->
  n = (Z.to_nat (d_bytes (D j)) `min` length bs)%nat -> (∀ x, m1 x = received_mem m (D j) (take n bs) x) ->
  D1 j = received (Z.of_nat n) (D j) -> D1 i = advance (Z.of_nat n) (D i) -> (∀ q, q <> i -> q <> j -> D1 q = D q) ->
  (d_buffer (D j) <> NULL -> ∀ a, d_buffer (D j) <= a < d_buffer (D j) + d_bytes (D j) -> a ∉ seqZ (d_buffer (D i)) (len bs)) ->
  gotten src j (acc + Z.of_nat n) (r || bool_decide ((if (n =? length bs)%nat then option_list t else []) <> []))
    (ring_drained (Z.of_nat (match t with None => n | Some _ => 0%nat end)) p) m1 D1 (wake_all (if (n =? length bs)%nat then option_list t else []) s) res ->
  gotten ((i, (t, bs)) :: src) j acc r p m D s res.
Proof.
  intros Hij Hjs His (Ht & Hb & Hrd) Hb0 Hj En Hm D1j D1i D1q Hap (m' & D' & -> & Hm' & Hof & Hdj & Hfr & Hmv). cbn [fst snd] in Ht, Hb, Hrd.
  set (k := (Z.to_nat (d_bytes (D1 j)) `min` length (addrs_of src))%nat) in *. assert (d_bytes (D1 j) = d_bytes (D j) - Z.of_nat n) as Hjn by (by rewrite D1j).
  assert (addrs_of ((i, (t, bs)) :: src) = bs ++ addrs_of src) as Ea by done. unfold gotten. rewrite Ea, length_app.
  replace (Z.to_nat (d_bytes (D j)) `min` (length bs + length (addrs_of src)))%nat with (n + k)%nat by lia.
  assert (n + k - length bs = k)%nat as Ek by lia. assert ((length bs <=? n + k)%nat = (n =? length bs)%nat) as El.
  { destruct (Nat.eqb_spec n (length bs)); [apply Nat.leb_le | apply Nat.leb_gt]; lia. }
  assert (∀ x, m' x = received_mem m (D j) (bs ++ addrs_of src) x) as Hmem.
  { intros x. rewrite Hm', D1j. apply received_mem_step; (done || lia). }
  exists m', D'. cbn [emptied_by into_ring supply]. rewrite El, Ek. split_and!; [| done | | | |].
  - rewrite ring_drained_add. unfold wake_all. rewrite <- foldl_app. f_equal; [f_equal; [lia |] | f_equal; f_equal].
    + rewrite <- orb_assoc. f_equal. destruct (n =? length bs)%nat, t; done.
    + rewrite Nat2Z.inj_add. do 2 f_equal. destruct t; lia.
  - apply Forall_cons. split; [| done]. unfold offers, holds. cbn [fst snd]. rewrite Hfr, D1i by done. cbn [advance d_thread d_bytes d_buffer]. rewrite length_drop.
    split; [done |]. split; [lia |]. assert (drop (n + k) bs = drop n bs) as -> by (destruct (Nat.eqb_spec n (length bs)); [rewrite !drop_ge by lia; done | by replace (n + k)%nat with n by lia]).
    rewrite (read_bytes_ext m' m).
    + transitivity (drop n (read_bytes m (d_buffer (D i)) (length bs))); [| by rewrite Hrd]. apply list_eq. intros q. rewrite lookup_drop. destruct (decide (q < length bs - (n + k))%nat).
      * rewrite !read_bytes_lookup by lia. do 2 f_equal. lia.
      * rewrite !lookup_ge_None_2; [done | |]; rewrite read_bytes_length; lia.
    + intros a Ha. rewrite Hmem. apply received_mem_out. destruct (Z.eq_dec (d_buffer (D j)) NULL) as [| Hn]; [by right | left]. intros Hin. apply (Hap Hn a Hin), elem_of_seqZ. lia.
  - rewrite Hdj, D1j, received_add by lia. f_equal. lia.
  - intros q Hq Hqj. cbn [fmap list_fmap fst] in Hq. apply not_elem_of_cons in Hq as [Hqi Hq]. by rewrite Hfr, D1q.
  - intros q Hqj. destruct (Hmv q Hqj) as [H1 H2]. rewrite H1, H2. destruct (decide (q = i)) as [-> | Hqi]; [rewrite D1i; simpl; split; (done || lia) | by rewrite D1q].
Qed.

Lemma pipe_get_loop_ok src j acc r p m D s :
  Forall (offers m D) src -> NoDup (j :: src.*1) -> 0 <= d_buffer (D j) -> 0 <= d_bytes (D j) ->
  (d_buffer (D j) <> NULL -> ∀ a, d_buffer (D j) <= a < d_buffer (D j) + d_bytes (D j) -> a ∉ reads D ((λ x : target, (x.1, x.2.2)) <$> src)) ->
  read_inside p -> ring_parts p src ->
  gotten src j acc r p m D s (pipe_get_loop j src.*1 acc r (mk_pstate p m D s)).
Proof.
  revert acc r p m D s. induction src as [| [i [t bs]] src IH]; intros acc r p m D s Ho Hnd Hb0 Hj Hap Hr Hp.
  { unfold gotten. simpl. rewrite Nat.min_0_r. exists m, D. simpl. rewrite Z.add_0_r, orb_false_r, ring_drained_0, received_0 by done. split_and!; try done.
    intros x. unfold received_mem. rewrite fill_nil_r. by case_match. }
  cbn [fmap list_fmap fst pipe_get_loop]. apply Forall_cons in Ho as [Hi Ho]. apply Forall_cons in Hp as [Hpi Hp]. cbn [fst snd] in Hpi.
  cbn [fmap list_fmap fst] in Hnd. apply NoDup_cons in Hnd as [Hji Hnd]. apply not_elem_of_cons in Hji as [Hji Hjs]. apply NoDup_cons in Hnd as [His Hnd].
  set (n := (Z.to_nat (d_bytes (D j)) `min` length bs)%nat). destruct (xfer_receive m D i t bs j n Hi Hj eq_refl) as (m1 & E & Hm1). rewrite E.
  pose proof Hi as (Ht & Hb & Hrd). cbn [fst snd] in Ht, Hb, Hrd.
  rewrite (set_desc_ne i j) by done. fold (received (Z.of_nat n) (D j)). set (D1 := set_desc j (received (Z.of_nat n) (D j)) (set_desc i (advance (Z.of_nat n) (D i)) D)).
  assert (D1 j = received (Z.of_nat n) (D j)) as D1j by (unfold D1; by rewrite set_desc_eq).
  assert (D1 i = advance (Z.of_nat n) (D i)) as D1i by (unfold D1; rewrite set_desc_ne, set_desc_eq by done; done).
  assert (∀ q, q <> i -> q <> j -> D1 q = D q) as D1q by (intros q ??; unfold D1; by rewrite !set_desc_ne).
  rewrite D1i. cbn [advance d_thread d_bytes]. rewrite Ht, Hb.
  assert ((len bs - Z.of_nat n =? 0) = (n =? length bs)%nat) as -> by (destruct (Nat.eqb_spec n (length bs)); [apply Z.eqb_eq | apply Z.eqb_neq]; lia).
  set (p1 := ring_drained (Z.of_nat (match t with None => n | Some _ => 0%nat end)) p). set (w := if (n =? length bs)%nat then option_list t else []).
  assert ((match t with None => (pipe_drained (Z.of_nat n) p, s, r) | Some thread => if (n =? length bs)%nat then (p, pipe_wake thread s, true) else (p, s, r) end) =
    (p1, wake_all w s, r || bool_decide (w <> []))) as ->.
  { unfold p1, w. destruct t as [u |]; [rewrite ring_drained_0 by done; destruct (n =? length bs)%nat; simpl; by rewrite ?orb_true_r, ?orb_false_r |].
    specialize (Hpi eq_refl). rewrite pipe_drained_eq by (done || lia). destruct (n =? length bs)%nat; simpl; by rewrite orb_false_r. }
  assert (∀ a, a ∈ reads D ((λ x : target, (x.1, x.2.2)) <$> ((i, (t, bs)) :: src)) -> m1 a = m a) as Hkeep.
  { intros a Ha. rewrite Hm1. apply received_mem_out. destruct (Z.eq_dec (d_buffer (D j)) NULL); [by right | left]. intros Hr'. by apply (Hap n0 a). }
  apply (gotten_step src j acc r p m D s i t bs n m1 D1); try done.
  { intros Hn a Ha Hin. apply (Hap Hn a Ha), elem_of_reads. exists (i, bs). split; [by left | by apply elem_of_seqZ in Hin]. }
  apply IH; [| by apply NoDup_cons | | | | by apply read_inside_drained | done].
  - rewrite Forall_forall in Ho |- *. intros x Hx. destruct (Ho x Hx) as [Hx1 Hx2].
    assert (x.1 <> i /\ x.1 <> j) as [Hxi Hxj] by (split; intros Ex; [apply His | apply Hjs]; rewrite <- Ex; by apply list_elem_of_fmap_2).
    unfold offers, holds. cbn [fst snd]. rewrite D1q by done. split; [done |]. apply (holds_mem m m1 D (x.1, x.2.2) Hx2). cbn [fst snd]. intros a Ha. apply Hkeep, elem_of_reads.
    exists (x.1, x.2.2). split; [| done]. cbn [fmap list_fmap]. right. apply list_elem_of_fmap. by exists x.
  - rewrite D1j. unfold received. cbn [d_buffer]. unfold NULL. destruct (_ =? _); simpl; lia.
  - rewrite D1j. unfold received. cbn [d_bytes]. lia.
  - rewrite D1j. unfold received. cbn [d_buffer d_bytes]. intros Hn a Ha Hin. destruct (Z.eqb_spec (d_buffer (D j)) NULL) as [E0 | E0]; cbn [negb] in *; [done |].
    apply (Hap E0 a); [lia |]. apply elem_of_reads in Hin as (x & Hx & Hr'). apply elem_of_reads. exists x. cbn [fmap list_fmap]. split; [by right |].
    apply list_elem_of_fmap in Hx as (y & -> & Hy). cbn [fst snd] in *. rewrite D1q in Hr'; [done | |]; intros Ey; [apply His | apply Hjs]; rewrite <- Ey; by apply list_elem_of_fmap_2.
Qed.

End Loop.
