(* ===== verification/PipeRing.v ===== *)
(** * The ring and the waiters of a pipe (kernel/pipes.c)

    The addresses of the ring in the order of the stream, what the copying
    loops of PipeCopy.v do to lists of waiters, the walk that picks the
    waiters a call looks at, and waking those it has served. *)

From Stdlib Require Import ZArith Lia Bool.
From stdpp Require Import base numbers list gmap sets.
From S2P Require Import Prelude Memory GenList TimeoutQ Kernel PrioQ Sched SchedInv SchedOps WaitApi Pipe PipeCopy.

Open Scope Z_scope.

#[local] Abbreviation len l := (Z.of_nat (length l)).

(** ** The ring *)

(** [n] addresses of the ring from [start] on. *)
Definition wrap_seq (p : k_pipe) (start n : Z) : list Z := (λ i, pipe_buffer p + (start + i) mod pipe_size p) <$> seqZ 0 n.

Definition region (p : k_pipe) : list Z := seqZ (pipe_buffer p) (pipe_size p).
Definition used_addrs (p : k_pipe) : list Z := wrap_seq p (read_index p) (bytes_used p).
Definition free_addrs (p : k_pipe) : list Z := wrap_seq p (write_index p) (pipe_size p - bytes_used p).

Record ring_wf (p : k_pipe) : Prop := {
  rw_size : 0 <= pipe_size p;
  rw_used : 0 <= bytes_used p <= pipe_size p;
  rw_read : read_index p mod pipe_size p = read_index p;
  rw_write : write_index p = (read_index p + bytes_used p) mod pipe_size p
}.

Lemma wrap_seq_length p start n : length (wrap_seq p start n) = Z.to_nat n.
Proof. unfold wrap_seq. by rewrite length_fmap, length_seqZ. Qed.

Lemma wrap_seq_lookup p start n (i : nat) : Z.of_nat i < n -> wrap_seq p start n !! i = Some (pipe_buffer p + (start + Z.of_nat i) mod pipe_size p).
Proof. intros H. unfold wrap_seq. rewrite list_lookup_fmap, lookup_seqZ_lt by lia. cbn. do 4 f_equal. Qed.

Lemma wrap_seq_app p start a b : 0 <= a -> 0 <= b -> wrap_seq p start (a + b) = wrap_seq p start a ++ wrap_seq p (start + a) b.
Proof.
  intros Ha Hb. apply list_eq. intros i. destruct (decide (Z.of_nat i < a)).
  - rewrite lookup_app_l by (rewrite wrap_seq_length; lia). rewrite !wrap_seq_lookup by lia. done.
  - rewrite lookup_app_r, wrap_seq_length by (rewrite wrap_seq_length; lia). destruct (decide (Z.of_nat i < a + b)).
    + rewrite !wrap_seq_lookup by lia. do 3 f_equal. lia.
    + rewrite !lookup_ge_None_2; [done | |]; rewrite wrap_seq_length; lia.
Qed.

Lemma wrap_seq_mod p start n : wrap_seq p (start mod pipe_size p) n = wrap_seq p start n.
Proof. unfold wrap_seq. apply list_fmap_ext. intros i j Hj. by rewrite Zplus_mod_idemp_l. Qed.

(** The buffer and size are all it reads of the pipe. *)
Lemma wrap_seq_pipe p p' start n : pipe_buffer p = pipe_buffer p' -> pipe_size p = pipe_size p' -> wrap_seq p start n = wrap_seq p' start n.
Proof. intros H1 H2. unfold wrap_seq. by rewrite H1, H2. Qed.

Lemma wrap_seq_low p start n : 0 <= start -> start + n <= pipe_size p -> wrap_seq p start n = seqZ (pipe_buffer p + start) n.
Proof.
  intros H1 H2. apply list_eq. intros i. destruct (decide (Z.of_nat i < n)).
  - rewrite wrap_seq_lookup, lookup_seqZ_lt by lia. rewrite Z.mod_small by lia. f_equal. lia.
  - rewrite !lookup_ge_None_2; [done | rewrite length_seqZ; lia | rewrite wrap_seq_length; lia].
Qed.

(** The whole ring, from wherever it starts. *)
Lemma wrap_seq_inside p start n a : a ∈ wrap_seq p start n -> 0 < pipe_size p -> a ∈ region p.
Proof.
  intros (i & -> & _)%list_elem_of_fmap Hs. apply elem_of_seqZ. pose proof (Z.mod_pos_bound (start + i) (pipe_size p)). lia.
Qed.

Lemma wrap_seq_nodup p start n : n <= pipe_size p -> NoDup (wrap_seq p start n).
Proof.
  intros Hn. apply NoDup_alt. intros i j a Hi Hj.
  assert (∀ q : nat, wrap_seq p start n !! q = Some a -> Z.of_nat q < n) as Hlt by (intros q Hq; apply lookup_lt_Some in Hq; rewrite wrap_seq_length in Hq; lia).
  pose proof (Hlt i Hi). pose proof (Hlt j Hj). rewrite !wrap_seq_lookup in Hi, Hj by lia. rewrite <- Hj in Hi. injection Hi as E. set (z := pipe_size p) in *.
  assert (((start + Z.of_nat i) - (start + Z.of_nat j)) mod z = 0) as Em by (rewrite Zminus_mod, (Z.add_cancel_l _ _ _ ) in *; replace ((start + Z.of_nat i) mod z) with ((start + Z.of_nat j) mod z) by lia; rewrite Z.sub_diag; apply Zmod_0_l).
  apply Z.mod_divide in Em as [q Hq]; [| lia]. assert (q = 0) by nia. lia.
Qed.

Lemma ring_split p : ring_wf p -> used_addrs p ++ free_addrs p = wrap_seq p (read_index p) (pipe_size p).
Proof.
  intros [Hs Hu Hr Hw]. unfold used_addrs, free_addrs. rewrite Hw, wrap_seq_mod, <- wrap_seq_app by lia. f_equal. lia.
Qed.

Lemma used_length p : ring_wf p -> len (used_addrs p) = bytes_used p.
Proof. intros [Hs Hu Hr Hw]. unfold used_addrs. rewrite wrap_seq_length. lia. Qed.

Lemma free_length p : ring_wf p -> len (free_addrs p) = pipe_size p - bytes_used p.
Proof. intros [Hs Hu Hr Hw]. unfold free_addrs. rewrite wrap_seq_length. lia. Qed.

Lemma ring_apart p : ring_wf p -> NoDup (free_addrs p) /\ (∀ a, a ∈ free_addrs p -> a ∉ used_addrs p) /\ (∀ a, a ∈ used_addrs p \/ a ∈ free_addrs p -> a ∈ region p).
Proof.
  intros Hp. pose proof (wrap_seq_nodup p (read_index p) (pipe_size p) ltac:(lia)) as Hnd. rewrite <- ring_split in Hnd by done. apply NoDup_app in Hnd as (_ & H1 & H2).
  split; [done |]. split; [intros a Ha Hu; by apply (H1 a) |]. intros a Ha. assert (a ∈ used_addrs p ++ free_addrs p) as Hin by (by apply elem_of_app).
  rewrite ring_split in Hin by done. apply (wrap_seq_inside p _ _ a Hin). destruct Hp as [Hs Hu _ _]. destruct (decide (pipe_size p = 0)) as [E | E]; [| lia].
  rewrite E in Hin. by apply elem_of_nil in Hin.
Qed.

(** Filling and draining move the border between the two. *)
Lemma ring_wf_filled n p : ring_wf p -> 0 <= n <= pipe_size p - bytes_used p -> ring_wf (ring_filled n p).
Proof.
  intros [Hs Hu Hr Hw] Hn. split; cbn [ring_filled pipe_size bytes_used read_index write_index]; [done | lia | done |]. rewrite Hw, Zplus_mod_idemp_l. f_equal. lia.
Qed.

Lemma ring_wf_drained n p : ring_wf p -> 0 <= n <= bytes_used p -> ring_wf (ring_drained n p).
Proof.
  intros [Hs Hu Hr Hw] Hn. split; cbn [ring_drained pipe_size bytes_used read_index write_index]; [done | lia | apply Zmod_mod |].
  rewrite Hw, Zplus_mod_idemp_l. f_equal. lia.
Qed.

Lemma used_filled n p : ring_wf p -> 0 <= n <= pipe_size p - bytes_used p -> used_addrs (ring_filled n p) = used_addrs p ++ take (Z.to_nat n) (free_addrs p).
Proof.
  intros [Hs Hu Hr Hw] Hn. unfold used_addrs, free_addrs. rewrite (wrap_seq_pipe (ring_filled n p) p) by done. cbn [ring_filled read_index bytes_used].
  rewrite wrap_seq_app by lia. f_equal. replace (pipe_size p - bytes_used p) with (n + (pipe_size p - bytes_used p - n)) by lia.
  rewrite wrap_seq_app, take_app_length' by (rewrite ?wrap_seq_length; lia). by rewrite Hw, wrap_seq_mod.
Qed.

Lemma free_filled n p : ring_wf p -> 0 <= n <= pipe_size p - bytes_used p -> free_addrs (ring_filled n p) = drop (Z.to_nat n) (free_addrs p).
Proof.
  intros [Hs Hu Hr Hw] Hn. unfold free_addrs. rewrite (wrap_seq_pipe (ring_filled n p) p) by done. cbn [ring_filled write_index bytes_used pipe_size].
  rewrite wrap_seq_mod. replace (pipe_size p - bytes_used p) with (n + (pipe_size p - (bytes_used p + n))) by lia.
  rewrite wrap_seq_app, drop_app_length' by (rewrite ?wrap_seq_length; lia). done.
Qed.

Lemma used_drained n p : ring_wf p -> 0 <= n <= bytes_used p -> used_addrs (ring_drained n p) = drop (Z.to_nat n) (used_addrs p).
Proof.
  intros [Hs Hu Hr Hw] Hn. unfold used_addrs. rewrite (wrap_seq_pipe (ring_drained n p) p) by done. cbn [ring_drained read_index bytes_used].
  rewrite wrap_seq_mod. replace (bytes_used p) with (n + (bytes_used p - n)) at 2 by lia. rewrite wrap_seq_app, drop_app_length' by (rewrite ?wrap_seq_length; lia). done.
Qed.

(** The descriptors of a part of the ring. *)
Lemma buffer_populate l p start n D :
  0 <= start < pipe_size p -> 0 < n <= pipe_size p ->
  ∃ parts D', pipe_buffer_list_populate l (pipe_buffer p) (pipe_size p) start ((start + n) mod pipe_size p) D = (n, l ++ parts.*1, D') /\
    addrs_of parts = wrap_seq p start n /\ Forall (wants D') parts /\ Forall (λ x : target, x.2.1 = None) parts /\
    NoDup parts.*1 /\ (∀ i, i ∈ parts.*1 -> ∃ q, i = DLocal q) /\ ring_parts p parts /\ (∀ i, (∀ q, i <> DLocal q) -> D' i = D i).
Proof.
  intros Hst Hn. unfold pipe_buffer_list_populate. destruct (decide (start + n < pipe_size p)) as [Hlt | Hge].
  - rewrite (Z.mod_small (start + n)) by lia. rewrite (proj2 (Z.ltb_lt start (start + n))) by lia. replace (start + n - start) with n by lia.
    exists [(DLocal 0, (None, seqZ (pipe_buffer p + start) n))]. eexists. split; [done |]. unfold addrs_of, ring_parts. cbn [fmap list_fmap snd mjoin list_join fst].
    rewrite app_nil_r, wrap_seq_low by lia. split; [done |]. repeat match goal with |- _ /\ _ => split end.
    + apply Forall_singleton. unfold wants. cbn [fst snd]. rewrite set_desc_eq. cbn [d_thread d_bytes d_buffer]. rewrite length_seqZ, Z2Nat.id by lia. done.
    + by apply Forall_singleton.
    + apply NoDup_singleton.
    + intros i ->%list_elem_of_singleton. by eexists.
    + apply Forall_singleton. intros _. cbn [fst snd]. rewrite length_seqZ. lia.
    + intros i Hi. by rewrite set_desc_ne.
  - assert ((start + n) mod pipe_size p = start + n - pipe_size p) as ->.
    { symmetry. apply Z.mod_unique with 1; lia. }
    rewrite (proj2 (Z.ltb_ge start (start + n - pipe_size p))) by lia. set (e := start + n - pipe_size p).
    exists [(DLocal 0, (None, seqZ (pipe_buffer p + start) (pipe_size p - start))); (DLocal 1, (None, seqZ (pipe_buffer p) e))]. eexists.
    split; [rewrite <- app_assoc; f_equal; f_equal; lia |]. unfold addrs_of, ring_parts. cbn [fmap list_fmap snd mjoin list_join fst]. rewrite app_nil_r. split.
    { replace n with ((pipe_size p - start) + e) by lia. rewrite wrap_seq_app by lia. rewrite (wrap_seq_low p start) by lia. f_equal.
      rewrite <- wrap_seq_mod. replace (start + (pipe_size p - start)) with (pipe_size p) by lia. rewrite Z_mod_same_full, wrap_seq_low by lia. f_equal. lia. }
    repeat match goal with |- _ /\ _ => split end.
    + rewrite Forall_cons, Forall_singleton. unfold wants. cbn [fst snd]. rewrite set_desc_eq, (set_desc_ne (DLocal 1)), set_desc_eq by done. cbn [d_thread d_bytes d_buffer].
      rewrite !length_seqZ, !Z2Nat.id by lia. done.
    + by rewrite Forall_cons, Forall_singleton.
    + apply NoDup_cons. split; [intros ?%list_elem_of_singleton; done | apply NoDup_singleton].
    + intros i [-> | ->%list_elem_of_singleton]%elem_of_cons; by eexists.
    + rewrite Forall_cons, Forall_singleton. cbn [fst snd]. rewrite !length_seqZ. split; intros _; lia.
    + intros i Hi. by rewrite !set_desc_ne.
Qed.

(** ** Lists of descriptors *)

(** The bytes at the addresses. *)
Definition contents (m : mem) (l : list target) : list target := (λ x : target, (x.1, (x.2.1, m <$> x.2.2))) <$> l.

Lemma addrs_of_app l1 l2 : addrs_of (l1 ++ l2) = addrs_of l1 ++ addrs_of l2.
Proof. unfold addrs_of. by rewrite !fmap_app, join_app. Qed.

Lemma addrs_of_contents m l : addrs_of (contents m l) = m <$> addrs_of l.
Proof. induction l as [| [i [t al]] l IH]; [done |]. unfold addrs_of, contents in *. cbn [fmap list_fmap fst snd mjoin list_join]. rewrite fmap_app. f_equal. exact IH. Qed.

Lemma contents_ids m l : (contents m l).*1 = l.*1.
Proof. unfold contents. rewrite <- list_fmap_compose. by apply list_fmap_ext. Qed.

Lemma read_bytes_fmap m a n : read_bytes m a n = m <$> seqZ a (Z.of_nat n).
Proof.
  apply list_eq. intros i. rewrite list_lookup_fmap. destruct (decide (i < n)%nat).
  - rewrite read_bytes_lookup, lookup_seqZ_lt by lia. done.
  - rewrite !lookup_ge_None_2; [done | rewrite length_seqZ; lia | rewrite read_bytes_length; lia].
Qed.

Lemma wants_offers m D x : wants D x -> offers m D (x.1, (x.2.1, m <$> x.2.2)).
Proof.
  intros (H1 & H2 & H3). unfold offers, holds. cbn [fst snd]. rewrite length_fmap. split; [done |]. split; [done |]. rewrite read_bytes_fmap. by rewrite H3 at 2.
Qed.

Lemma contents_offers m D l : Forall (wants D) l -> Forall (offers m D) (contents m l).
Proof. intros H. apply Forall_fmap. eapply Forall_impl; [exact H |]. intros x. apply wants_offers. Qed.

Lemma supply_app k l1 l2 : supply k (l1 ++ l2) = supply k l1 ++ supply (k - length (addrs_of l1)) l2.
Proof.
  revert k. induction l1 as [| [i [t al]] l1 IH]; intros k; [by rewrite Nat.sub_0_r |]. cbn [app supply]. rewrite IH. f_equal. f_equal. f_equal.
  change (addrs_of ((i, (t, al)) :: l1)) with (al ++ addrs_of l1). rewrite length_app. lia.
Qed.

Lemma supply_addrs k l : addrs_of (supply k l) = drop k (addrs_of l).
Proof.
  revert k. induction l as [| [i [t al]] l IH]; intros k; [by destruct k |]. cbn [supply]. change (addrs_of ((i, (t, ?b)) :: ?r)) with (b ++ addrs_of r).
  by rewrite IH, drop_app.
Qed.

Lemma supply_ids k l : (supply k l).*1 = l.*1.
Proof. revert k. induction l as [| [i [t al]] l IH]; intros k; [done |]. cbn [supply fmap list_fmap fst]. by rewrite IH. Qed.

Lemma satisfied_app k l1 l2 : (length (addrs_of l1) <= k)%nat -> satisfied_by k (l1 ++ l2) = satisfied_by k l1 ++ satisfied_by (k - length (addrs_of l1)) l2.
Proof.
  revert k. induction l1 as [| [i [t al]] l1 IH]; intros k Hk; [by rewrite Nat.sub_0_r |]. change (addrs_of ((i, (t, al)) :: l1)) with (al ++ addrs_of l1) in *. rewrite length_app in *.
  cbn [app satisfied_by]. rewrite (proj2 (Nat.leb_le _ _)) by lia. rewrite IH by lia. rewrite <- app_assoc. do 3 f_equal. lia.
Qed.

Lemma satisfied_ring k l : Forall (λ x : target, x.2.1 = None) l -> satisfied_by k l = [].
Proof. intros H. revert k. induction H as [| [i [t al]] l Ht _ IH]; intros k; [done |]. cbn [fst snd] in Ht. subst t. cbn [satisfied_by option_list app]. case_match; [apply IH | done]. Qed.

Lemma satisfied_short k l1 l2 :
  (k < length (addrs_of l1))%nat -> Forall (λ x : target, is_Some x.2.1 -> x.2.2 <> []) l1 -> satisfied_by k (l1 ++ l2) = satisfied_by k l1.
Proof.
  revert k. induction l1 as [| [i [t al]] l1 IH]; intros k Hk Ha; [simpl in Hk; lia |]. change (addrs_of ((i, (t, al)) :: l1)) with (al ++ addrs_of l1) in *. rewrite length_app in *.
  apply Forall_cons in Ha as [_ Ha]. cbn [app satisfied_by]. destruct (Nat.leb_spec (length al) k); [| done]. f_equal. apply IH; [lia | done].
Qed.

Lemma into_ring_app k l1 l2 : into_ring k (l1 ++ l2) = (into_ring k l1 + into_ring (k - length (addrs_of l1)) l2)%nat.
Proof.
  revert k. induction l1 as [| [i [t al]] l1 IH]; intros k; [by rewrite Nat.sub_0_r |]. cbn [app into_ring]. rewrite IH. change (addrs_of ((i, (t, al)) :: l1)) with (al ++ addrs_of l1).
  rewrite length_app. replace (k - (length al + length (addrs_of l1)))%nat with (k - length al - length (addrs_of l1))%nat by lia. lia.
Qed.

Lemma into_ring_threads k l : Forall (λ x : target, is_Some x.2.1) l -> into_ring k l = 0%nat.
Proof. intros H. revert k. induction H as [| [i [t al]] l [u Ht] _ IH]; intros k; [done |]. cbn [fst snd] in Ht. subst t. cbn [into_ring]. rewrite IH. lia. Qed.

Lemma into_ring_ring k l : Forall (λ x : target, x.2.1 = None) l -> into_ring k l = (k `min` length (addrs_of l))%nat.
Proof.
  intros H. revert k. induction H as [| [i [t al]] l Ht _ IH]; intros k; [simpl; lia |]. cbn [fst snd] in Ht. subst t. cbn [into_ring]. rewrite IH.
  change (addrs_of ((i, (None, al)) :: l)) with (al ++ addrs_of l). rewrite length_app. lia.
Qed.

Lemma emptied_app k l1 l2 : emptied_by k (l1 ++ l2) = emptied_by k l1 ++ emptied_by (k - length (addrs_of l1)) l2.
Proof.
  revert k. induction l1 as [| [i [t al]] l1 IH]; intros k; [by rewrite Nat.sub_0_r |]. cbn [app emptied_by]. rewrite IH, app_assoc. f_equal. f_equal.
  change (addrs_of ((i, (t, al)) :: l1)) with (al ++ addrs_of l1). rewrite length_app. lia.
Qed.

Lemma emptied_ring k l : Forall (λ x : target, x.2.1 = None) l -> emptied_by k l = [].
Proof. intros H. revert k. induction H as [| [i [t al]] l Ht _ IH]; intros k; [done |]. cbn [fst snd] in Ht. subst t. cbn [emptied_by]. rewrite IH. by case_match. Qed.

(** The waiting threads, with the addresses or bytes of each. *)
Definition waiting (f : tid -> list Z) (l : list tid) : list target := (λ t, (DThread t, (Some t, f t))) <$> l.

Lemma waiting_ids f l : (waiting f l).*1 = DThread <$> l.
Proof. unfold waiting. rewrite <- list_fmap_compose. by apply list_fmap_ext. Qed.

(** What they ask for or offer, laid end to end. *)
Definition gather (f : tid -> list Z) (l : list tid) : list Z := mjoin (f <$> l).

Lemma gather_cons f t l : gather f (t :: l) = f t ++ gather f l.
Proof. done. Qed.

Lemma gather_app f l1 l2 : gather f (l1 ++ l2) = gather f l1 ++ gather f l2.
Proof. unfold gather. by rewrite fmap_app, join_app. Qed.

Lemma waiting_addrs f l : addrs_of (waiting f l) = gather f l.
Proof. unfold gather, addrs_of, waiting. f_equal. rewrite <- !list_fmap_compose. by apply list_fmap_ext. Qed.

Lemma waiting_cons f t l : waiting f (t :: l) = (DThread t, (Some t, f t)) :: waiting f l.
Proof. done. Qed.

(** Who is served is who has nothing left. *)
Lemma satisfied_iff k f l t al :
  NoDup l -> (∀ t, t ∈ l -> f t <> []) -> (DThread t, (Some t, al)) ∈ supply k (waiting f l) -> t ∈ satisfied_by k (waiting f l) <-> al = [].
Proof.
  revert k. induction l as [| u l IH]; intros k Hnd Ha Hin; [by apply elem_of_nil in Hin |]. apply NoDup_cons in Hnd as [Hu Hnd].
  rewrite waiting_cons in *. cbn [supply satisfied_by option_list] in *.
  assert (∀ k, t ∈ satisfied_by k (waiting f l) -> t ∈ l) as Hsub.
  { clear. induction l as [| v l IH]; intros k; [done |]. rewrite waiting_cons. cbn [satisfied_by option_list]. case_match; [| by intros ?%elem_of_nil].
    rewrite elem_of_app, elem_of_cons. intros [Ht | Ht]; [left; by apply list_elem_of_singleton in Ht | right; by eapply IH]. }
  apply elem_of_cons in Hin as [E | Hin].
  - assert (t = u /\ al = drop k (f u)) as [-> ->] by (split; congruence). destruct (Nat.leb_spec (length (f u)) k) as [Hle | Hgt].
    + rewrite drop_ge by exact Hle. split; [done | intros _; apply elem_of_app; left; by apply list_elem_of_singleton].
    + split; [by intros ?%elem_of_nil | intros E'; apply (f_equal length) in E'; rewrite length_drop in E'; simpl in E'; lia].
  - assert (t ∈ l) as Htl. { apply (list_elem_of_fmap_2 fst) in Hin. rewrite supply_ids, waiting_ids in Hin. apply list_elem_of_fmap in Hin as (v & E & Hv). by injection E as ->. }
    destruct (Nat.leb_spec (length (f u)) k) as [Hle | Hgt].
    + pose proof (IH _ Hnd ltac:(intros v Hv; apply Ha; by right) Hin) as Hiff. rewrite elem_of_app. split; [| naive_solver]. intros [H%list_elem_of_singleton | H]; [by subst | by apply Hiff].
    + replace (k - length (f u))%nat with 0%nat in Hin by lia. rewrite supply_0 in Hin. apply list_elem_of_fmap in Hin as (v & E & Hv). assert (t = v /\ al = f v) as [-> ->] by (split; congruence).
      split; [by intros ?%elem_of_nil | intros E'; exfalso; apply (Ha v); [by right | done]].
Qed.

Lemma emptied_iff k f l t al :
  NoDup l -> (DThread t, (Some t, al)) ∈ supply k (waiting f l) -> t ∈ emptied_by k (waiting f l) <-> al = [].
Proof.
  revert k. induction l as [| u l IH]; intros k Hnd Hin; [by apply elem_of_nil in Hin |]. apply NoDup_cons in Hnd as [Hu Hnd].
  rewrite waiting_cons in *. cbn [supply emptied_by option_list] in *.
  assert (∀ k, t ∈ emptied_by k (waiting f l) -> t ∈ l) as Hsub.
  { clear. induction l as [| v l IH]; intros k; [done |]. rewrite waiting_cons. cbn [emptied_by option_list]. rewrite elem_of_app, elem_of_cons.
    intros [Ht | Ht]; [left | right; by eapply IH]. case_match; [by apply list_elem_of_singleton in Ht | by apply elem_of_nil in Ht]. }
  rewrite elem_of_app. apply elem_of_cons in Hin as [E | Hin].
  - assert (t = u /\ al = drop k (f u)) as [-> ->] by (split; congruence). destruct (Nat.leb_spec (length (f u)) k) as [Hle | Hgt].
    + rewrite drop_ge by exact Hle. split; [done | intros _; left; by apply list_elem_of_singleton].
    + split; [intros [H | H]; [by apply elem_of_nil in H | by apply Hsub in H] | intros E'; apply (f_equal length) in E'; rewrite length_drop in E'; simpl in E'; lia].
  - assert (t ∈ l) as Htl. { apply (list_elem_of_fmap_2 fst) in Hin. rewrite supply_ids, waiting_ids in Hin. apply list_elem_of_fmap in Hin as (v & E & Hv). by injection E as ->. }
    pose proof (IH _ Hnd Hin) as Hiff. split; [| naive_solver]. intros [H | H]; [| by apply Hiff]. case_match; [| by apply elem_of_nil in H]. apply list_elem_of_singleton in H. by subst.
Qed.

(** ** Walking the waiters *)

(** The waiters looked at for [n] bytes: up to the first that makes enough. *)
Fixpoint visited (f : tid -> list Z) (n : Z) (l : list tid) : list tid :=
  match l with
  | [] => []
  | t :: l => t :: if n <=? len (f t) then [] else visited f (n - len (f t)) l
  end.

Lemma visited_split f n l : ∃ rest, l = visited f n l ++ rest /\ (rest = [] \/ n <= len (gather f (visited f n l))).
Proof.
  revert n. induction l as [| t l IH]; intros n; [exists []; split; [done | by left] |]. cbn [visited]. destruct (Z.leb_spec n (len (f t))).
  - exists l. split; [done |]. right. rewrite gather_cons, app_nil_r. done.
  - destruct (IH (n - len (f t))) as (rest & E & Hr). exists rest. cbn [app]. split; [by f_equal |]. destruct Hr as [| Hr]; [by left | right].
    rewrite gather_cons, length_app. lia.
Qed.

Section Walk.
Context {cfg : Kconfig}.
Implicit Types (D : descs) (s : z_kernel) (f : tid -> list Z).

Lemma walk_visits D f n s l l0 acc :
  (∀ t, t ∈ l -> swap_data (thr s t) = desc_addr t /\ d_bytes (D (DThread t)) = len (f t)) ->
  0 <= acc < n \/ acc = 0 -> acc + len (gather f l) < 2 ^ 32 ->
  ∃ st, waitq_walk (pipe_walk_op D n) l (l0, acc) s =
    (st, (l0 ++ (DThread <$> visited f (n - acc) l), acc + len (gather f (visited f (n - acc) l))), s).
Proof.
  revert l0 acc. induction l as [| t l IH]; intros l0 acc Hd Ha Hb.
  { exists 0. cbn [waitq_walk visited]. rewrite app_nil_r. cbn. by rewrite Z.add_0_r. }
  rewrite gather_cons, length_app in Hb. destruct (Hd t ltac:(by left)) as [H1 H2].
  cbn [waitq_walk]. unfold pipe_walk_op at 1. rewrite H1. unfold desc_at, desc_addr. rewrite Nat2Z.id, H2.
  unfold wrap_u. rewrite Z.mod_small by lia. cbn [visited]. destruct (Z.leb_spec n (acc + len (f t))) as [Hle | Hgt].
  - rewrite (proj2 (Z.leb_le (n - acc) _)) by lia. exists 1. cbn. by rewrite app_nil_r.
  - rewrite (proj2 (Z.leb_gt (n - acc) _)) by lia. cbn [Z.eqb negb]. destruct (IH (l0 ++ [DThread t]) (acc + len (f t))) as (st & E); [intros u Hu; apply Hd; by right | lia | lia |].
    exists st. rewrite E. replace (n - (acc + len (f t))) with (n - acc - len (f t)) by lia. rewrite gather_cons, length_app, <- app_assoc. do 3 f_equal. lia.
Qed.

Lemma populate_waiters D f w n s l0 :
  (∀ t, t ∈ waitq s w -> swap_data (thr s t) = desc_addr t /\ d_bytes (D (DThread t)) = len (f t)) ->
  len (gather f (waitq s w)) < 2 ^ 32 ->
  pipe_waiter_list_populate D l0 w n s = (len (gather f (visited f n (waitq s w))), l0 ++ (DThread <$> visited f n (waitq s w))).
Proof.
  intros Hd Hb. unfold pipe_waiter_list_populate, z_sched_waitq_walk. destruct (walk_visits D f n s (waitq s w) l0 0 Hd) as (st & ->); [by right | lia |].
  by rewrite Z.sub_0_r.
Qed.

(** ** Waking the threads served *)

Record woken_all (w : wqid) (l : list tid) s s' : Prop := {
  wa_inv : sched_inv ∅ s';
  wa_waitq : waitq s' w = filter (λ t, t ∉ l) (waitq s w);
  wa_others : ∀ v, v <> w -> waitq s' v = waitq s v;
  wa_thr : ∀ u, u ∉ l -> thr s' u = thr s u;
  wa_data : ∀ u, swap_data (thr s' u) = swap_data (thr s u);
  wa_ranks : ∀ u, prio (thr s' u) = prio (thr s u);
  wa_ready : ∀ u, u ∈ l -> pended_on (thr s' u) = None;
  wa_ctx : ctx s' = ctx s
}.

Lemma pipe_wake_ok w t s : sched_inv ∅ s -> t ∈ waitq s w -> woken_all w [t] s (pipe_wake t s).
Proof.
  intros Hs Ht. pose proof (proj2 (inv_waitq _ _ Hs t w) Ht) as Hp. unfold pipe_wake, z_ready_thread, z_unpend_thread, z_unpend_thread_no_timeout. rewrite Hp.
  destruct (inv_unpend_abort ∅ t w s Hs Hp) as [H1 H2]. set (s1 := (z_abort_thread_timeout t (unpend_thread_no_timeout t s)).2) in *.
  assert (∀ v, waitq s1 v = if decide (w = v) then dlist_remove t (waitq s v) else waitq s v) as Hw.
  { intros v. unfold s1. rewrite waitq_abort_timeout, waitq_unpend, Hp. destruct (decide (w = v)); [by rewrite decide_True by congruence | by rewrite decide_False by congruence]. }
  assert (∀ u, thr s1 u = if decide (t = u) then set_pended_on None (z_mark_thread_as_not_pending (thr s t)) else thr s u) as Hthr.
  { intros u. unfold s1. by rewrite thr_abort_timeout, thr_unpend. }
  constructor.
  - by apply inv_ready_thread.
  - rewrite waitq_ready_thread, Hw, decide_True by done. unfold dlist_remove. apply list_filter_iff. intros u. rewrite list_elem_of_singleton. done.
  - intros v Hv. rewrite waitq_ready_thread, Hw, decide_False by done. done.
  - intros u Hu. rewrite thr_ready_thread_ne by set_solver. rewrite Hthr, decide_False by set_solver. done.
  - intros u. destruct (ready_thread_fields t s1 u) as (_ & -> & _). rewrite Hthr. case_decide; by subst.
  - intros u. destruct (ready_thread_fields t s1 u) as (_ & _ & -> & _). rewrite Hthr. case_decide; by subst.
  - intros u ->%list_elem_of_singleton. destruct (ready_thread_fields t s1 t) as (_ & _ & _ & ->). rewrite Hthr, decide_True by done. done.
  - rewrite ctx_ready_thread. unfold s1. by rewrite ctx_abort_timeout, ctx_unpend.
Qed.

Lemma wake_all_ok w l s : sched_inv ∅ s -> NoDup l -> (∀ t, t ∈ l -> t ∈ waitq s w) -> woken_all w l s (wake_all l s).
Proof.
  revert s. induction l as [| t l IH]; intros s Hs Hnd Hl.
  { constructor; try done; [| by intros u ?%elem_of_nil]. symmetry. apply filter_keep. intros u _. apply not_elem_of_nil. }
  apply NoDup_cons in Hnd as [Ht Hnd]. pose proof (pipe_wake_ok w t s Hs (Hl t ltac:(by left))) as [A1 A2 A3 A4 A5 A6 A7 A8].
  destruct (IH (pipe_wake t s) A1 Hnd) as [B1 B2 B3 B4 B5 B6 B7 B8].
  { intros u Hu. rewrite A2. apply list_elem_of_filter. split; [| apply Hl; by right]. rewrite list_elem_of_singleton. by intros ->. }
  change (wake_all (t :: l) s) with (wake_all l (pipe_wake t s)). constructor; try done.
  - rewrite B2, A2, list_filter_filter. apply list_filter_iff. intros u. rewrite list_elem_of_singleton, elem_of_cons. tauto.
  - intros v Hv. by rewrite B3, A3.
  - intros u Hu. apply not_elem_of_cons in Hu as [H1 H2]. rewrite B4, A4; [done | | done]. by rewrite list_elem_of_singleton.
  - intros u. by rewrite B5, A5.
  - intros u. by rewrite B6, A6.
  - intros u [-> | Hu]%elem_of_cons; [rewrite B4 by done; apply A7; by apply list_elem_of_singleton | by apply B7].
  - by rewrite B8.
Qed.

End Walk.
