(* ===== verification/PipePut.v ===== *)
(** * The state of a pipe and writing to it (kernel/pipes.c)

    A pipe holds a stream: the bytes of its ring, then those of the waiting
    writers.  The invariant says that writers wait with bytes only on a full
    ring and readers only on an empty pipe, and that the buffers involved are
    apart.  A put fills what the waiting readers and the ring have room for. *)

From Stdlib Require Import ZArith Lia Bool.
From stdpp Require Import base numbers list gmap sets.
From S2P Require Import Prelude Memory GenList TimeoutQ Kernel PrioQ Sched SchedInv SchedOps WaitApi Pipe PipeCopy PipeRing.

Open Scope Z_scope.

#[local] Abbreviation len l := (Z.of_nat (length l)).

(** ** The state of a pipe *)

#[export] Instance DThread_inj : Inj (=) (=) DThread.
Proof. intros t u E. by injection E. Qed.

Definition desc_addrs (D : descs) (t : tid) : list Z := seqZ (d_buffer (D (DThread t))) (d_bytes (D (DThread t))).
Definition desc_bytes (m : mem) (D : descs) (t : tid) : list Z := m <$> desc_addrs D t.

Section State.
Context {cfg : Kconfig}.
Implicit Types (x : pipe_state).

Definition reader_queue x : list tid := waitq (pst_kernel x) (readers (pst_pipe x)).
Definition writer_queue x : list tid := waitq (pst_kernel x) (writers (pst_pipe x)).

(** Where the waiting readers want their bytes, and where those of the
    waiting writers are. *)
Definition reader_addrs x : list Z := gather (desc_addrs (pst_descs x)) (reader_queue x).
Definition writer_addrs x : list Z := gather (desc_addrs (pst_descs x)) (writer_queue x).

Definition ring_bytes x : list Z := pst_mem x <$> used_addrs (pst_pipe x).
Definition writer_bytes x : list Z := gather (desc_bytes (pst_mem x) (pst_descs x)) (writer_queue x).
Definition stream x : list Z := ring_bytes x ++ writer_bytes x.

(** What holds also between taking bytes and refilling the ring. *)
Record pipe_mid x : Prop := {
  pi_sched : sched_inv ∅ (pst_kernel x);
  pi_ring : ring_wf (pst_pipe x);
  pi_queues : readers (pst_pipe x) <> writers (pst_pipe x);
  pi_desc : ∀ t, t ∈ reader_queue x ++ writer_queue x ->
    swap_data (thr (pst_kernel x) t) = desc_addr t /\ d_thread (pst_descs x (DThread t)) = Some t /\ 0 <= d_bytes (pst_descs x (DThread t));
  pi_asks : ∀ t, t ∈ reader_queue x -> desc_addrs (pst_descs x) t <> [];
  pi_apart : NoDup (region (pst_pipe x) ++ reader_addrs x);
  pi_null : 0 ∉ region (pst_pipe x) ++ reader_addrs x;
  pi_reads : ∀ a, a ∈ region (pst_pipe x) ++ reader_addrs x -> a ∉ writer_addrs x;
  pi_idle : reader_queue x <> [] -> stream x = [] /\ writer_queue x = [];
  pi_rtotal : len (reader_addrs x) + pipe_size (pst_pipe x) < 2 ^ 32;
  pi_wtotal : len (writer_addrs x) + pipe_size (pst_pipe x) < 2 ^ 32
}.

(** Writers only wait with bytes when the ring is full. *)
Record pipe_inv x : Prop := {
  pi_mid : pipe_mid x;
  pi_full : writer_bytes x <> [] -> bytes_used (pst_pipe x) = pipe_size (pst_pipe x)
}.

(** Who may call: an interrupt that does not wait, or a running thread. *)
Definition caller_ok (s : z_kernel) (timeout : Z) : Prop :=
  if arch_is_in_isr s then timeout = K_NO_WAIT else current s ∈ runq s /\ valid_timeout timeout.

(** ** Lemmas on the views *)

Lemma gather_fmap m D l : gather (desc_bytes m D) l = m <$> gather (desc_addrs D) l.
Proof. induction l as [| t l IH]; [done |]. rewrite !gather_cons, fmap_app, IH. done. Qed.

Lemma gather_length m D l : length (gather (desc_bytes m D) l) = length (gather (desc_addrs D) l).
Proof. by rewrite gather_fmap, length_fmap. Qed.

Lemma gather_filter f (P : tid -> Prop) `{!∀ t, Decision (P t)} l : (∀ t, t ∈ l -> ~ P t -> f t = []) -> gather f (filter P l) = gather f l.
Proof.
  induction l as [| t l IH]; intros Hf; [done |]. rewrite gather_cons, <- IH by (intros u Hu; apply Hf; by right). destruct (decide (P t)).
  - by rewrite filter_cons_True, gather_cons.
  - rewrite filter_cons_False by done. rewrite (Hf t) by (done || by left). done.
Qed.

Lemma gather_ext (f g : tid -> list Z) l : (∀ t, t ∈ l -> f t = g t) -> gather f l = gather g l.
Proof. induction l as [| t l IH]; intros H; [done |]. rewrite !gather_cons, (H t), IH; [done | intros u Hu; apply H; by right | by left]. Qed.

Lemma gather_perm f l l' : l ≡ₚ l' -> gather f l ≡ₚ gather f l'.
Proof.
  induction 1 as [| t l l' _ IH | t u l | l1 l2 l3 _ IH1 _ IH2]; [done | by rewrite !gather_cons, IH | | by rewrite IH1].
  rewrite !gather_cons, !app_assoc. by rewrite (Permutation_app_comm (f t)).
Qed.

Lemma elem_of_gather f l a : a ∈ gather f l <-> ∃ t, t ∈ l /\ a ∈ f t.
Proof. unfold gather. rewrite list_elem_of_join. setoid_rewrite list_elem_of_fmap. naive_solver. Qed.

Lemma gather_nil f l : (∀ t, t ∈ l -> f t <> []) -> gather f l = [] -> l = [].
Proof. destruct l as [| t l]; [done |]. rewrite gather_cons. intros H [E _]%app_nil. destruct (H t); [by left | done]. Qed.

Lemma desc_addrs_length D t : 0 <= d_bytes (D (DThread t)) -> len (desc_addrs D t) = d_bytes (D (DThread t)).
Proof. intros H. unfold desc_addrs. rewrite length_seqZ. lia. Qed.

Lemma wants_waiting D l :
  (∀ t, t ∈ l -> d_thread (D (DThread t)) = Some t /\ 0 <= d_bytes (D (DThread t))) -> Forall (wants D) (waiting (desc_addrs D) l).
Proof.
  intros H. apply Forall_fmap, Forall_forall. intros t Ht. destruct (H t Ht) as [H1 H2]. unfold wants. cbn [fst snd compose]. rewrite desc_addrs_length by done. done.
Qed.

Lemma contents_waiting m D l : contents m (waiting (desc_addrs D) l) = waiting (desc_bytes m D) l.
Proof. unfold contents, waiting. rewrite <- list_fmap_compose. done. Qed.

Lemma offers_waiting m D l :
  (∀ t, t ∈ l -> d_thread (D (DThread t)) = Some t /\ 0 <= d_bytes (D (DThread t))) -> Forall (offers m D) (waiting (desc_bytes m D) l).
Proof. intros H. rewrite <- contents_waiting. by apply contents_offers, wants_waiting. Qed.

(** What is left of the waiters is what their descriptors say. *)
Lemma supply_wants D k f l : Forall (wants D) (supply k (waiting f l)) -> supply k (waiting f l) = waiting (desc_addrs D) l.
Proof.
  revert k. induction l as [| t l IH]; intros k H; [done |]. rewrite !waiting_cons in *. cbn [supply] in *. apply Forall_cons in H as [(_ & Hb & Ha) H].
  rewrite IH by done. cbn [fst snd] in *. f_equal. do 2 f_equal. unfold desc_addrs. by rewrite Hb.
Qed.

Lemma supply_offers m D k f l : Forall (offers m D) (supply k (waiting f l)) -> supply k (waiting f l) = waiting (desc_bytes m D) l.
Proof.
  revert k. induction l as [| t l IH]; intros k H; [done |]. rewrite !waiting_cons in *. cbn [supply] in *. apply Forall_cons in H as [(_ & Hb & Ha) H].
  rewrite IH by done. cbn [fst snd] in *. f_equal. do 2 f_equal. unfold desc_bytes, desc_addrs. by rewrite Hb, <- read_bytes_fmap.
Qed.

Lemma supply_gather k f g l : supply k (waiting f l) = waiting g l -> gather g l = drop k (gather f l).
Proof. intros H. rewrite <- !waiting_addrs, <- H. apply supply_addrs. Qed.

(** The sources of a list. *)
Definition strip (l : list target) : list source := (λ x : target, (x.1, x.2.2)) <$> l.

Lemma strip_ids l : (strip l).*1 = l.*1.
Proof. unfold strip. rewrite <- list_fmap_compose. by apply list_fmap_ext. Qed.

Lemma strip_bytes l : bytes_of (strip l) = addrs_of l.
Proof. unfold bytes_of, addrs_of, strip. f_equal. rewrite <- !list_fmap_compose. by apply list_fmap_ext. Qed.

Lemma strip_consume k l : consume k (strip l) = strip (supply k l).
Proof. revert k. induction l as [| [i [t al]] l IH]; intros k; [done |]. cbn [strip fmap list_fmap consume supply fst snd]. f_equal. apply IH. Qed.

Lemma strip_reads m D l :
  (∀ t, t ∈ l -> 0 <= d_bytes (D (DThread t))) -> ∀ a, a ∈ reads D (strip (waiting (desc_bytes m D) l)) <-> a ∈ gather (desc_addrs D) l.
Proof.
  intros H a. rewrite elem_of_reads, elem_of_gather. split.
  - intros (y & Hy & Ha). unfold strip, waiting in Hy. rewrite <- list_fmap_compose in Hy. apply list_elem_of_fmap in Hy as (t & -> & Ht). cbn [fst snd compose] in Ha.
    exists t. split; [done |]. apply elem_of_seqZ. unfold desc_bytes in Ha. rewrite length_fmap, desc_addrs_length in Ha by auto. done.
  - intros (t & Ht & Ha). exists (DThread t, desc_bytes m D t). split.
    + unfold strip, waiting. rewrite <- list_fmap_compose. apply list_elem_of_fmap. by exists t.
    + apply elem_of_seqZ in Ha. cbn [fst snd]. unfold desc_bytes. rewrite length_fmap, desc_addrs_length by auto. done.
Qed.

(** Bytes read back from where they were filled in. *)
Lemma fill_read m addrs bytes :
  NoDup addrs -> (length bytes <= length addrs)%nat -> fill m addrs bytes <$> take (length bytes) addrs = bytes.
Proof.
  intros Hnd Hl. apply list_eq. intros i. rewrite list_lookup_fmap. destruct (decide (i < length bytes)%nat) as [Hi | Hi].
  - rewrite lookup_take_lt by done. destruct (lookup_lt_is_Some_2 addrs i) as [a Ha]; [lia |]. destruct (lookup_lt_is_Some_2 bytes i Hi) as [b Hb].
    rewrite Ha, Hb. cbn. f_equal. by apply (fill_at m addrs bytes i).
  - rewrite lookup_take_ge by lia. symmetry. apply lookup_ge_None_2. lia.
Qed.

Lemma fmap_same (m m' : mem) (l : list Z) : (∀ a, a ∈ l -> m' a = m a) -> m' <$> l = m <$> l.
Proof. intros H. apply list_fmap_ext. intros i a Ha. apply H. by eapply list_elem_of_lookup_2. Qed.

(** What the walk leaves out is not needed. *)
Lemma visited_enough f n l F :
  0 <= F -> let A := len (gather f (visited f n l)) in let B := len (gather f l) in
  A <= B /\ Z.min n (A + F) = Z.min n (B + F) /\ (A = B \/ n <= A).
Proof.
  intros HF. destruct (visited_split f n l) as (rest & E & Hr). cbv zeta.
  assert (gather f l = gather f (visited f n l) ++ gather f rest) as -> by (by rewrite <- gather_app, <- E). rewrite length_app. destruct Hr as [-> | Hr]; [simpl; lia | lia].
Qed.

Lemma caller_apart x timeout :
  pipe_mid x -> caller_ok (pst_kernel x) timeout ->
  (∀ q, caller_desc (pst_kernel x) <> DLocal q) /\ (∀ t, t ∈ reader_queue x ++ writer_queue x -> DThread t <> caller_desc (pst_kernel x)).
Proof.
  intros Hx Hc. unfold caller_ok, caller_desc in *. destruct (arch_is_in_isr (pst_kernel x)); [done |]. split; [done |]. intros t Ht E. injection E as ->.
  destruct Hc as [Hc _]. apply elem_of_app in Ht as [Ht | Ht]; by apply (waiter_not_current _ _ _ (pi_sched _ Hx) Ht Hc).
Qed.

(** The descriptors of a part of the ring that may be empty. *)
Lemma part_populate (b : bool) l p start n D :
  ring_wf p -> (b = false -> n = 0) -> (b = true -> 0 < n) -> 0 <= n <= pipe_size p -> start mod pipe_size p = start ->
  ∃ parts D', (if b then pipe_buffer_list_populate l (pipe_buffer p) (pipe_size p) start ((start + n) mod pipe_size p) D else (0, l, D)) = (n, l ++ parts.*1, D') /\
    addrs_of parts = wrap_seq p start n /\ Forall (wants D') parts /\ Forall (λ x : target, x.2.1 = None) parts /\
    NoDup parts.*1 /\ (∀ i, i ∈ parts.*1 -> ∃ q, i = DLocal q) /\ ring_parts p parts /\ (∀ i, (∀ q, i <> DLocal q) -> D' i = D i).
Proof.
  intros Hp H1 H2 Hn Hs. destruct b.
  - specialize (H2 eq_refl). apply buffer_populate; [| lia]. rewrite <- Hs. apply Z.mod_pos_bound. lia.
  - rewrite H1 by done. exists [], D. rewrite app_nil_r. split_and!; try done; [apply NoDup_nil_2 | by intros i ?%elem_of_nil | by apply Forall_nil].
Qed.

Lemma ring_ends p : ring_wf p ->
  write_index p mod pipe_size p = write_index p /\ (write_index p + (pipe_size p - bytes_used p)) mod pipe_size p = read_index p.
Proof.
  intros [Hs Hu Hr Hw]. split; [rewrite Hw; apply Zmod_mod |]. rewrite Hw, Zplus_mod_idemp_l. replace (read_index p + bytes_used p + (pipe_size p - bytes_used p)) with (read_index p + 1 * pipe_size p) by lia.
  destruct (Z.eq_dec (pipe_size p) 0) as [E | E]; [rewrite E in *; rewrite !Z.mod_0_r; lia | by rewrite Z.mod_add].
Qed.

(** ** Writing *)

(** The state after [k] bytes of a put have been copied; [m'] is stated on
    every address. *)
Record put_moved (k : nat) (data : Z) (n : nat) x x' : Prop := {
  pm_pipe : pst_pipe x' = ring_filled (Z.of_nat (k - length (reader_addrs x))) (pst_pipe x);
  pm_mem : ∀ a, pst_mem x' a = fill (pst_mem x) (reader_addrs x ++ free_addrs (pst_pipe x)) (read_bytes (pst_mem x) data n) a;
  pm_woken : woken_all (readers (pst_pipe x)) (satisfied_by k (waiting (desc_addrs (pst_descs x)) (reader_queue x))) (pst_kernel x) (pst_kernel x');
  pm_readers : supply k (waiting (desc_addrs (pst_descs x)) (reader_queue x)) = waiting (desc_addrs (pst_descs x')) (reader_queue x);
  pm_thread : ∀ t, t ∈ reader_queue x -> d_thread (pst_descs x' (DThread t)) = Some t /\ 0 <= d_bytes (pst_descs x' (DThread t));
  pm_others : ∀ t, t ∉ reader_queue x -> DThread t <> caller_desc (pst_kernel x) -> pst_descs x' (DThread t) = pst_descs x (DThread t);
  pm_caller : pst_descs x' (caller_desc (pst_kernel x)) = mk_desc (data + Z.of_nat k) (Z.of_nat (n - k)) (Some (current (pst_kernel x)))
}.

Lemma satisfied_prefix k l1 l2 :
  Forall (λ x : target, is_Some x.2.1 -> x.2.2 <> []) l1 -> satisfied_by (k - length (addrs_of l1)) l2 = [] -> satisfied_by k (l1 ++ l2) = satisfied_by k l1.
Proof.
  intros Ha H. destruct (Nat.lt_ge_cases k (length (addrs_of l1))); [by apply satisfied_short |]. rewrite satisfied_app by done. by rewrite H, app_nil_r.
Qed.

Lemma waiting_asks f l : (∀ t, t ∈ l -> f t <> []) -> Forall (λ x : target, is_Some x.2.1 -> x.2.2 <> []) (waiting f l).
Proof. intros H. apply Forall_fmap, Forall_forall. intros t Ht _. by apply H. Qed.

Lemma waiting_some f l : Forall (λ x : target, is_Some x.2.1) (waiting f l).
Proof. apply Forall_fmap, Forall_forall. intros t Ht. by eexists. Qed.

Lemma satisfied_elem k f l t : t ∈ satisfied_by k (waiting f l) -> t ∈ l.
Proof.
  revert k. induction l as [| v l IH]; intros k; [done |]. rewrite waiting_cons. cbn [satisfied_by option_list]. case_match; [| by intros ?%elem_of_nil].
  rewrite elem_of_app, elem_of_cons. intros [Ht | Ht]; [left; by apply list_elem_of_singleton in Ht | right; by eapply IH].
Qed.

Lemma satisfied_nodup k f l : NoDup l -> NoDup (satisfied_by k (waiting f l)).
Proof.
  intros H. revert k. induction H as [| t l Ht _ IH]; intros k; [apply NoDup_nil_2 |]. rewrite waiting_cons. cbn [satisfied_by option_list]. case_match; [| apply NoDup_nil_2].
  apply NoDup_cons. split; [intros Hin; by apply satisfied_elem in Hin | apply IH].
Qed.

(** Copying a put's bytes to the readers looked at and the free part of the
    ring; a reader that is not looked at is not needed. *)
Section PutCopy.
Context (x : pipe_state) (timeout data : Z) (n : nat) (D1 : descs) (parts : list target).
Context (Hx : pipe_mid x) (Hc : caller_ok (pst_kernel x) timeout).
Context (Hsrc : ∀ a, data <= a < data + Z.of_nat n -> a ∉ region (pst_pipe x) ++ reader_addrs x).
Context (Hfree : addrs_of parts = free_addrs (pst_pipe x)) (Hwant : Forall (wants D1) parts) (Hnone : Forall (λ y : target, y.2.1 = None) parts).
Context (Hnd : NoDup parts.*1) (Hloc : ∀ i, i ∈ parts.*1 -> ∃ q, i = DLocal q) (Hfit : ring_parts (pst_pipe x) parts).
Context (HD1 : ∀ i, (∀ q, i <> DLocal q) -> D1 i = pst_descs x i).

Let p := pst_pipe x.
Let m := pst_mem x.
Let D := pst_descs x.
Let s := pst_kernel x.
Let rs := reader_queue x.
Let f := desc_addrs D.
Let vis := visited f (Z.of_nat n) rs.
Let c := caller_desc s.
Let bs := read_bytes m data n.
Let D2 := set_desc c (mk_desc data (Z.of_nat n) (Some (current s))) D1.
Let k := (n `min` (length (reader_addrs x) + length (free_addrs p)))%nat.
Let dest := waiting f vis ++ parts.

Lemma put_rest : ∃ rest, rs = vis ++ rest /\ (rest = [] \/ (n <= length (gather f vis))%nat).
Proof. destruct (visited_split f (Z.of_nat n) rs) as (rest & E & Hr). exists rest. split; [done |]. destruct Hr; [by left | right; unfold vis; lia]. Qed.

Lemma put_vis t : t ∈ vis -> t ∈ rs.
Proof. destruct put_rest as (rest & E & _). intros Ht. rewrite E. apply elem_of_app. by left. Qed.

Lemma put_rest_out rest t : rs = vis ++ rest -> t ∈ rest -> t ∉ vis.
Proof.
  intros E Ht Hv. pose proof (inv_waitq_nodup _ _ (pi_sched x Hx) (readers p)) as Hq. change (waitq (pst_kernel x) (readers p)) with rs in Hq. rewrite E in Hq.
  apply NoDup_app in Hq as (_ & Hq & _). by apply (Hq t).
Qed.

Lemma put_ids_out t : t ∉ vis -> DThread t ∉ (DThread <$> vis) ++ parts.*1.
Proof. intros Ht. rewrite not_elem_of_app. split; [| by intros [q Hq]%Hloc]. intros (u & Eu & Hu)%list_elem_of_fmap. by injection Eu as ->. Qed.

Lemma put_D2_other i : (∀ q, i <> DLocal q) -> i <> c -> D2 i = D i.
Proof. intros H1 H2. unfold D2. rewrite set_desc_ne by done. by apply HD1. Qed.

Lemma put_D2_vis t : t ∈ rs -> D2 (DThread t) = D (DThread t).
Proof. intros Ht. apply put_D2_other; [done |]. apply (caller_apart x timeout Hx Hc). apply elem_of_app. by left. Qed.

Lemma put_D2_local i : i ∈ parts.*1 -> D2 i = D1 i.
Proof. intros [q ->]%Hloc. unfold D2. apply set_desc_ne. apply not_eq_sym. apply (caller_apart x timeout Hx Hc). Qed.

Lemma put_dest_addrs : addrs_of dest = gather f vis ++ free_addrs p.
Proof. unfold dest. by rewrite addrs_of_app, waiting_addrs, Hfree. Qed.

Lemma put_wants : Forall (wants D2) dest.
Proof.
  apply Forall_app. split.
  - apply Forall_fmap, Forall_forall. intros t Ht. apply put_vis in Ht. unfold wants. cbn [compose fst snd]. rewrite put_D2_vis by done.
    destruct (pi_desc x Hx t) as (_ & H1 & H2); [apply elem_of_app; by left |]. unfold f. rewrite desc_addrs_length by done. done.
  - rewrite Forall_forall in Hwant |- *. intros y Hy. unfold wants. rewrite put_D2_local by (by apply list_elem_of_fmap_2). by apply Hwant.
Qed.

Lemma put_apart : apart D2 [(c, bs)] dest.
Proof.
  destruct put_rest as (rest & E & _). pose proof (ring_apart p (pi_ring x Hx)) as (R1 & _ & R3). pose proof (caller_apart x timeout Hx Hc) as [C1 C2].
  assert (∀ a, a ∈ gather f vis -> a ∈ reader_addrs x) as Hsub.
  { intros a Ha. unfold reader_addrs. fold rs D f. rewrite E, gather_app. apply elem_of_app. by left. }
  pose proof (pi_apart x Hx) as Hap. apply NoDup_app in Hap as (_ & A2 & A3).
  split; rewrite ?put_dest_addrs.
  - cbn [fmap list_fmap fst app]. unfold dest. rewrite fmap_app, waiting_ids. apply NoDup_cons. split.
    + rewrite not_elem_of_app. split; [intros (t & Et & Ht)%list_elem_of_fmap | intros [q Hq]%Hloc; by apply (C1 q)].
      apply (C2 t); [apply elem_of_app; left; by apply put_vis | by symmetry].
    + apply NoDup_app. split; [| split; [intros i (t & -> & _)%list_elem_of_fmap [q Hq]%Hloc; done | done]].
      apply (NoDup_fmap_2 DThread). pose proof (inv_waitq_nodup _ _ (pi_sched x Hx) (readers p)) as Hq. change (waitq (pst_kernel x) (readers p)) with rs in Hq. rewrite E in Hq. by apply NoDup_app in Hq as [? _].
  - apply NoDup_app. split; [| split; [| done]].
    + unfold reader_addrs in A3. fold rs D f in A3. rewrite E, gather_app in A3. by apply NoDup_app in A3 as [? _].
    + intros a Ha Hf. apply (A2 a); [apply R3; by right | by apply Hsub].
  - intros a Ha Hr. apply elem_of_reads in Hr as (y & Hy & Hr). apply list_elem_of_singleton in Hy. subst y. cbn [fst snd] in Hr. unfold D2 in Hr. rewrite set_desc_eq in Hr. cbn [d_buffer] in Hr.
    unfold bs in Hr. rewrite read_bytes_length in Hr. apply (Hsrc a Hr), elem_of_app. apply elem_of_app in Ha as [Ha | Ha]; [right; by apply Hsub | left; apply R3; by right].
  - intros H0. apply (pi_null x Hx), elem_of_app. apply elem_of_app in H0 as [H0 | H0]; [right; by apply Hsub | left; apply R3; by right].
  - apply Forall_app. split; [apply waiting_asks; intros t Ht; by apply (pi_asks x Hx), put_vis |]. eapply Forall_impl; [exact Hnone |]. cbn. intros y -> [? ?]. done.
Qed.

Lemma put_k : k = (length bs `min` length (addrs_of dest))%nat /\ (k - length (gather f vis) = k - length (reader_addrs x))%nat.
Proof.
  rewrite put_dest_addrs, length_app. unfold bs. rewrite read_bytes_length. destruct (visited_enough f (Z.of_nat n) rs (len (free_addrs p)) ltac:(lia)) as (H1 & H2 & H3). cbv zeta in *.
  fold vis in H1, H2, H3. change (gather f rs) with (reader_addrs x) in *. unfold k. split; lia.
Qed.

Lemma put_satisfied : satisfied_by k dest = satisfied_by k (waiting f rs).
Proof.
  destruct put_rest as (rest & E & Hr). destruct put_k as [Hk _]. unfold bs in Hk. rewrite read_bytes_length in Hk.
  assert (Forall (λ y : target, is_Some y.2.1 -> y.2.2 <> []) (waiting f vis)) as Ha by (apply waiting_asks; intros t Ht; by apply (pi_asks x Hx), put_vis).
  unfold dest. rewrite satisfied_prefix by (try done; by apply satisfied_ring). symmetry. rewrite E. unfold waiting at 1. rewrite fmap_app. apply satisfied_prefix; [done |].
  destruct Hr as [-> | Hr]; [done |]. rewrite waiting_addrs. replace (k - length (gather f vis))%nat with 0%nat by lia. apply satisfied_none, waiting_asks.
  intros t Ht. apply (pi_asks x Hx). change (reader_queue x) with rs. rewrite E. apply elem_of_app. by right.
Qed.

Lemma put_filled a : fill m (addrs_of dest) bs a = fill m (reader_addrs x ++ free_addrs p) bs a.
Proof.
  rewrite put_dest_addrs. destruct put_rest as (rest & E & Hr). change (reader_addrs x) with (gather f rs). rewrite E at 1. rewrite gather_app. destruct Hr as [-> | Hr]; [by rewrite app_nil_r |].
  rewrite fill_take, (fill_take m ((_ ++ _) ++ _)). unfold bs. rewrite read_bytes_length. rewrite <- app_assoc. by rewrite !take_app_le by done.
Qed.

Lemma put_copy :
  ∃ x', pipe_write [c] ((DThread <$> vis) ++ parts.*1) false (mk_pstate p m D2 s) =
    Some (Z.of_nat k, bool_decide (satisfied_by k (waiting f rs) <> []), x') /\ put_moved k data n x x'.
Proof.
  pose proof put_apart as Hap. pose proof put_wants as Hw. destruct put_k as [Hk Hk']. pose proof (caller_apart x timeout Hx Hc) as [C1 C2].
  destruct (pipe_write_loop_ok (length [c] + length ((DThread <$> vis) ++ parts.*1)) [(c, bs)] dest 0 false p m D2 s) as (m' & D' & E & Hm & Hh & Hwt & Hmv & Hfr); [| | done | done | | |].
  { unfold dest. rewrite !length_app, !length_fmap. unfold waiting. rewrite length_fmap. simpl. lia. }
  { apply Forall_singleton. unfold holds. cbn [fst snd]. unfold D2. rewrite set_desc_eq. cbn [d_bytes d_buffer]. unfold bs. by rewrite read_bytes_length. }
  { split; [apply (pi_ring x Hx) | apply (ring_ends p (pi_ring x Hx))]. }
  { apply Forall_app. split; [| done]. eapply Forall_impl; [apply waiting_some |]. intros y [u Hu]. by rewrite Hu. }
  assert (dest.*1 = (DThread <$> vis) ++ parts.*1) as Eid by (unfold dest; by rewrite fmap_app, waiting_ids). rewrite Eid in E, Hfr.
  change (bytes_of [(c, bs)]) with (bs ++ []) in *. rewrite app_nil_r in *. rewrite <- Hk in *. cbn [fmap list_fmap fst] in E, Hfr.
  unfold pipe_write. rewrite E, Z.add_0_l, put_satisfied. eexists. split; [done |].
  assert (into_ring k dest = k - length (reader_addrs x))%nat as Ei.
  { unfold dest. rewrite into_ring_app, (into_ring_threads k) by apply waiting_some. rewrite into_ring_ring, waiting_addrs, Hfree by done. fold p. rewrite put_dest_addrs, length_app in Hk. lia. }
  assert (Forall (wants D') (supply k (waiting f rs))) as Hall.
  { destruct put_rest as (rest & Er & Hr). rewrite Er. unfold waiting. rewrite fmap_app. fold (waiting f vis) (waiting f rest). rewrite supply_app, waiting_addrs. apply Forall_app.
    unfold dest in Hwt. rewrite supply_app in Hwt. apply Forall_app in Hwt as [Hwt _]. split; [done |]. destruct Hr as [-> | Hr]; [by apply Forall_nil |].
    unfold bs in Hk. rewrite read_bytes_length in Hk. replace (k - length (gather f vis))%nat with 0%nat by lia. rewrite supply_0. apply Forall_fmap, Forall_forall. intros t Ht.
    assert (t ∈ rs) as Hrs by (rewrite Er; apply elem_of_app; by right). unfold wants. cbn [compose fst snd].
    rewrite Hfr, put_D2_vis; [| done | rewrite list_elem_of_singleton; apply C2, elem_of_app; by left | apply put_ids_out; by apply (put_rest_out rest)].
    destruct (pi_desc x Hx t) as (_ & H1 & H2); [apply elem_of_app; by left |]. unfold f. rewrite desc_addrs_length by done. done. }
  constructor; cbn [pst_pipe pst_mem pst_descs pst_kernel]; fold p m D s rs f bs c.
  - by rewrite Ei.
  - intros a. rewrite Hm. apply put_filled.
  - apply wake_all_ok; [apply Hx | apply satisfied_nodup, (inv_waitq_nodup _ _ (pi_sched x Hx)) | intros t; apply satisfied_elem].
  - by apply supply_wants.
  - intros t Ht. rewrite (supply_wants D') in Hall by done. rewrite Forall_forall in Hall. destruct (Hall (DThread t, (Some t, desc_addrs D' t))) as (H1 & H2 & _); [apply list_elem_of_fmap; by exists t |].
    cbn [fst snd] in *. split; [done | lia].
  - intros t Ht Htc. rewrite Hfr; [by apply put_D2_other | by rewrite list_elem_of_singleton |]. apply put_ids_out. intros Hv. by apply put_vis in Hv.
  - cbn [consume] in Hh. apply Forall_cons in Hh as [[Hb _] _]. cbn [fst snd] in Hb. destruct (Hmv c) as [M1 M2]. unfold D2 in M1, M2. rewrite set_desc_eq in M1, M2. cbn [d_thread d_buffer d_bytes] in M1, M2.
    rewrite length_drop in Hb. unfold bs in Hb, Hk. rewrite read_bytes_length in Hb, Hk. destruct (D' c) as [db dn dt]. cbn [d_thread d_buffer d_bytes] in *. f_equal; [lia | done | done].
Qed.

End PutCopy.

Lemma fill_front m ra fr bs k :
  NoDup fr -> k = (length bs `min` (length ra + length fr))%nat ->
  fill m (ra ++ fr) bs <$> take (k - length ra) fr = drop (length ra) (take k bs).
Proof.
  intros Hnd Hk. destruct (Nat.le_gt_cases k (length ra)) as [Hle | Hgt].
  { replace (k - length ra)%nat with 0%nat by lia. rewrite drop_ge by (rewrite length_take; lia). done. }
  assert (fill m (ra ++ fr) bs = fill (fill m ra (take (length ra) bs)) fr (drop (length ra) (take k bs))) as ->.
  { rewrite fill_short, length_app. replace (take (length ra + length fr) bs) with (take k bs).
    - rewrite <- (take_drop (length ra) (take k bs)) at 1. rewrite take_take, Nat.min_l by lia. rewrite fill_app by (rewrite length_take; lia). done.
    - destruct (Nat.le_gt_cases (length bs) (length ra + length fr)); [rewrite !take_ge by lia; done | f_equal; lia]. }
  assert (length (drop (length ra) (take k bs)) = k - length ra)%nat as El by (rewrite length_drop, length_take; lia). rewrite <- El. apply fill_read; [done | lia].
Qed.

Section PutViews.
Context (x x' : pipe_state) (timeout data : Z) (n k : nat).
Context (Hx : pipe_inv x) (Hc : caller_ok (pst_kernel x) timeout) (Hput : put_moved k data n x x').
Context (Hsrc : ∀ a, data <= a < data + Z.of_nat n -> a ∉ region (pst_pipe x) ++ reader_addrs x).
Context (Hk : k = (n `min` (length (reader_addrs x) + length (free_addrs (pst_pipe x))))%nat).

Let sat := satisfied_by k (waiting (desc_addrs (pst_descs x)) (reader_queue x)).

Lemma put_reader_queue : reader_queue x' = filter (λ t, t ∉ sat) (reader_queue x).
Proof. unfold reader_queue at 1. rewrite (pm_pipe _ _ _ _ _ Hput). apply (wa_waitq _ _ _ _ (pm_woken _ _ _ _ _ Hput)). Qed.

Lemma put_writer_queue : writer_queue x' = writer_queue x.
Proof. unfold writer_queue at 1. rewrite (pm_pipe _ _ _ _ _ Hput). apply (wa_others _ _ _ _ (pm_woken _ _ _ _ _ Hput)). apply not_eq_sym, (pi_queues _ (pi_mid _ Hx)). Qed.

Lemma put_left t : t ∈ reader_queue x -> t ∈ sat <-> desc_addrs (pst_descs x') t = [].
Proof.
  intros Ht. apply satisfied_iff; [apply (inv_waitq_nodup _ _ (pi_sched _ (pi_mid _ Hx))) | apply (pi_asks _ (pi_mid _ Hx)) |].
  rewrite (pm_readers _ _ _ _ _ Hput). apply list_elem_of_fmap. by exists t.
Qed.

Lemma put_reader_addrs : reader_addrs x' = drop k (reader_addrs x).
Proof.
  unfold reader_addrs at 1. rewrite put_reader_queue, gather_filter.
  - apply (supply_gather k _ _ _ (pm_readers _ _ _ _ _ Hput)).
  - intros t Ht Hs. apply put_left; [done |]. by apply dec_stable.
Qed.

Lemma put_writer_desc t : t ∈ writer_queue x -> pst_descs x' (DThread t) = pst_descs x (DThread t).
Proof.
  intros Ht. apply (pm_others _ _ _ _ _ Hput).
  - intros Hr. apply (pi_queues _ (pi_mid _ Hx)). apply (inv_waitq _ _ (pi_sched _ (pi_mid _ Hx))) in Hr, Ht. congruence.
  - apply (caller_apart x timeout (pi_mid _ Hx) Hc). apply elem_of_app. by right.
Qed.

Lemma put_writer_addrs : writer_addrs x' = writer_addrs x.
Proof. unfold writer_addrs. rewrite put_writer_queue. apply gather_ext. intros t Ht. unfold desc_addrs. by rewrite put_writer_desc. Qed.

Lemma put_mem_out a : a ∉ region (pst_pipe x) ++ reader_addrs x -> pst_mem x' a = pst_mem x a.
Proof.
  intros Ha. rewrite (pm_mem _ _ _ _ _ Hput). apply fill_out. apply not_elem_of_app in Ha as [H1 H2]. apply not_elem_of_app. split; [done |].
  intros Hf. apply H1, (ring_apart _ (pi_ring _ (pi_mid _ Hx))). by right.
Qed.

Lemma put_writer_bytes : writer_bytes x' = writer_bytes x.
Proof.
  unfold writer_bytes. rewrite !gather_fmap. change (gather _ (writer_queue x')) with (writer_addrs x'). rewrite put_writer_addrs. apply fmap_same.
  intros a Ha. apply put_mem_out. intros Hr. by apply (pi_reads _ (pi_mid _ Hx) a Hr).
Qed.

Lemma put_into : 0 <= Z.of_nat (k - length (reader_addrs x)) <= pipe_size (pst_pipe x) - bytes_used (pst_pipe x).
Proof. pose proof (free_length _ (pi_ring _ (pi_mid _ Hx))). lia. Qed.

Lemma put_ring_bytes : ring_bytes x' = ring_bytes x ++ drop (length (reader_addrs x)) (take k (read_bytes (pst_mem x) data n)).
Proof.
  destruct (ring_apart _ (pi_ring _ (pi_mid _ Hx))) as (R1 & R2 & R3). unfold ring_bytes. rewrite (pm_pipe _ _ _ _ _ Hput), used_filled, fmap_app by (apply (pi_ring _ (pi_mid _ Hx)) || apply put_into).
  rewrite Nat2Z.id. f_equal.
  - apply fmap_same. intros a Ha. rewrite (pm_mem _ _ _ _ _ Hput). apply fill_out. apply not_elem_of_app. split; [| intros Hf; by apply (R2 a)].
    pose proof (pi_apart _ (pi_mid _ Hx)) as Hap. apply NoDup_app in Hap as (_ & Hap & _). apply Hap, R3. by left.
  - rewrite <- (fill_front (pst_mem x) (reader_addrs x) (free_addrs (pst_pipe x))); [| done | by rewrite read_bytes_length]. apply list_fmap_ext. intros i a _. apply (pm_mem _ _ _ _ _ Hput).
Qed.

Lemma put_waits : reader_queue x' <> [] -> reader_queue x <> [] /\ (k < length (reader_addrs x))%nat.
Proof.
  intros Hr. split; [intros E; apply Hr; rewrite put_reader_queue, E; done |]. destruct (Nat.lt_ge_cases k (length (reader_addrs x))); [done |].
  destruct Hr. assert (reader_addrs x' = []) as E by (rewrite put_reader_addrs; by apply drop_ge). apply (gather_nil _ _) in E; [done |]. intros t Ht Et.
  rewrite put_reader_queue in Ht. apply list_elem_of_filter in Ht as [Hs Ht]. apply Hs. by apply put_left.
Qed.

Lemma put_mid : pipe_mid x'.
Proof.
  destruct Hx as [[I1 I2 I3 I4 I5 I6 I7 I8 I9 I10 I11] I12]. pose proof (pm_pipe _ _ _ _ _ Hput) as Hp. pose proof (pm_woken _ _ _ _ _ Hput) as Hwk.
  assert (region (pst_pipe x') = region (pst_pipe x)) as Hreg by (rewrite Hp; done).
  assert (∀ a, a ∈ region (pst_pipe x') ++ reader_addrs x' -> a ∈ region (pst_pipe x) ++ reader_addrs x) as Hsub.
  { intros a. rewrite Hreg, put_reader_addrs, !elem_of_app. intros [| Ha]; [by left | right]. rewrite <- (take_drop k). apply elem_of_app. by right. }
  constructor.
  - apply Hwk.
  - rewrite Hp. apply ring_wf_filled; [done | apply put_into].
  - by rewrite Hp.
  - intros t Ht. rewrite put_writer_queue, put_reader_queue in Ht. rewrite (wa_data _ _ _ _ Hwk).
    apply elem_of_app in Ht as [[_ Ht]%list_elem_of_filter | Ht].
    + split; [apply I4, elem_of_app; by left | by apply (pm_thread _ _ _ _ _ Hput)].
    + rewrite put_writer_desc by done. apply I4, elem_of_app. by right.
  - intros t Ht E. rewrite put_reader_queue in Ht. apply list_elem_of_filter in Ht as [Hs Ht]. apply Hs. by apply put_left.
  - rewrite Hreg, put_reader_addrs. eapply sublist_NoDup; [exact I6 |]. apply sublist_app; [done | apply sublist_drop].
  - intros H0. by apply I7, Hsub.
  - intros a Ha. rewrite put_writer_addrs. by apply I8, Hsub.
  - intros [Hr Hlt]%put_waits. destruct (I9 Hr) as [E1 E2]. rewrite put_writer_queue. split; [| done]. unfold stream in *. rewrite put_ring_bytes, put_writer_bytes, drop_ge by (rewrite length_take; lia).
    by rewrite app_nil_r.
  - rewrite put_reader_addrs, length_drop, Hp. cbn [ring_filled pipe_size]. lia.
  - rewrite put_writer_addrs, Hp. done.
Qed.

Lemma put_inv : pipe_inv x'.
Proof.
  split; [apply put_mid |]. rewrite put_writer_bytes. intros Hw. pose proof (pi_full _ Hx Hw) as Hf. pose proof put_into. rewrite (pm_pipe _ _ _ _ _ Hput). cbn [ring_filled bytes_used pipe_size]. lia.
Qed.

End PutViews.

(** ** Ending a call *)

(** The parts of the state the invariant reads. *)
Record same_view x x' : Prop := {
  sv_pipe : pst_pipe x' = pst_pipe x;
  sv_mem : pst_mem x' = pst_mem x;
  sv_readers : reader_queue x' = reader_queue x;
  sv_writers : writer_queue x' = writer_queue x;
  sv_descs : ∀ t, t ∈ reader_queue x ++ writer_queue x -> pst_descs x' (DThread t) = pst_descs x (DThread t);
  sv_data : ∀ t, t ∈ reader_queue x ++ writer_queue x -> swap_data (thr (pst_kernel x') t) = swap_data (thr (pst_kernel x) t)
}.

Lemma view_addrs x x' :
  same_view x x' -> reader_addrs x' = reader_addrs x /\ writer_addrs x' = writer_addrs x /\ ring_bytes x' = ring_bytes x /\ writer_bytes x' = writer_bytes x.
Proof.
  intros [H1 H2 H3 H4 H5 H6]. unfold reader_addrs, writer_addrs, ring_bytes, writer_bytes. rewrite H1, H2, H3, H4.
  assert (∀ t, t ∈ reader_queue x ++ writer_queue x -> desc_addrs (pst_descs x') t = desc_addrs (pst_descs x) t) as Ha by (intros t Ht; unfold desc_addrs; by rewrite H5).
  repeat match goal with |- _ /\ _ => split end; [| | done |]; apply gather_ext; intros t Ht.
  - apply Ha, elem_of_app. by left.
  - apply Ha, elem_of_app. by right.
  - unfold desc_bytes. rewrite Ha; [done |]. apply elem_of_app. by right.
Qed.

Lemma view_inv x x' : same_view x x' -> sched_inv ∅ (pst_kernel x') -> pipe_inv x -> pipe_inv x'.
Proof.
  intros Hv Hs [[I1 I2 I3 I4 I5 I6 I7 I8 I9 I10 I11] I12]. destruct (view_addrs x x' Hv) as (V1 & V2 & V3 & V4). destruct Hv as [H1 H2 H3 H4 H5 H6].
  split; [constructor |]; unfold stream in *; rewrite ?H1, ?H3, ?H4, ?V1, ?V2, ?V3, ?V4; try done.
  - intros t Ht. rewrite H5, H6 by done. by apply I4.
  - intros t Ht. unfold desc_addrs. rewrite H5 by (apply elem_of_app; by left). by apply I5.
Qed.

Lemma resched_view p m D s (b : bool) : same_view (mk_pstate p m D s) (mk_pstate p m D (if b then z_reschedule s else s)).
Proof.
  destruct b; [| constructor; done]. constructor; cbn [pst_pipe pst_mem pst_descs pst_kernel]; try done; unfold reader_queue, writer_queue; cbn [pst_pipe pst_kernel].
  - apply (same_waitq _ _ (same_reschedule s)).
  - apply (same_waitq _ _ (same_reschedule s)).
  - intros t _. apply reschedule_fields.
Qed.

Lemma resched_inv p m D s (b : bool) : pipe_inv (mk_pstate p m D s) -> pipe_inv (mk_pstate p m D (if b then z_reschedule s else s)).
Proof.
  intros H. apply (view_inv _ _ (resched_view p m D s b)); [| done]. pose proof (pi_sched _ (pi_mid _ H)) as Hs. cbn [pst_kernel] in *. destruct b; [by rewrite <- same_reschedule | done].
Qed.

(** The caller goes to wait, its descriptor in its [swap_data]. *)
Record blocked (w : wqid) s s' : Prop := {
  bl_inv : sched_inv ∅ s';
  bl_waitq : waitq s' w = z_priq_dumb_add (thr s) (waitq s w) (current s);
  bl_others : ∀ v, v <> w -> waitq s' v = waitq s v;
  bl_data : swap_data (thr s' (current s)) = desc_addr (current s);
  bl_thr : ∀ u, u <> current s -> thr s' u = thr s u
}.

Lemma pipe_block_ok w timeout s :
  sched_inv ∅ s -> current s ∈ runq s -> valid_timeout timeout ->
  blocked w s (z_sched_wait w timeout (upd_thread (current s) (set_swap_data (desc_addr (current s))) s)).
Proof.
  intros Hs Hc Ht. set (s1 := upd_thread (current s) _ s). assert (same_sched s s1) as Hsame by (by apply same_upd).
  destruct (pend_curr w timeout s1) as [P1 P2 P3 P4 P5 P6 P7 P8]; [by rewrite <- Hsame | done | done |]. change (current s1) with (current s) in *. unfold z_sched_wait. constructor.
  - done.
  - rewrite P2, decide_True by done. change (waitq s1) with (waitq s). apply dumb_add_ext_rank. intros u. unfold s1. rewrite thr_upd. case_decide; by subst.
  - intros v Hv. rewrite P2, decide_False by done. done.
  - rewrite P6. unfold s1. by rewrite thr_upd_eq.
  - intros u Hu. rewrite P4 by done. unfold s1. by rewrite thr_upd_ne.
Qed.

(** A put that waits. *)
Section WriterBlocks.
Context (p : k_pipe) (m : mem) (D : descs) (s s' : z_kernel) (bs : list Z).
Let x := mk_pstate p m D s.
Let x' := mk_pstate p m D s'.
Context (Hx : pipe_inv x) (Hb : blocked (writers p) s s') (Hcur : current s ∉ reader_queue x ++ writer_queue x) (Hfull : bytes_used p = pipe_size p) (Hidle : reader_queue x = []).
Context (Hth : d_thread (D (DThread (current s))) = Some (current s)) (Hn : 0 <= d_bytes (D (DThread (current s)))).
Context (Hap : ∀ a, a ∈ desc_addrs D (current s) -> a ∉ region p) (Htot : len (writer_addrs x) + d_bytes (D (DThread (current s))) + pipe_size p < 2 ^ 32).

Lemma wblock_queue : writer_queue x' = z_priq_dumb_add (thr s) (writer_queue x) (current s).
Proof. apply (bl_waitq _ _ _ Hb). Qed.

Lemma wblock_readers : reader_queue x' = [].
Proof. rewrite <- Hidle. apply (bl_others _ _ _ Hb). apply (pi_queues _ (pi_mid _ Hx)). Qed.

Lemma wblock_addrs : writer_addrs x' ≡ₚ desc_addrs D (current s) ++ writer_addrs x.
Proof. unfold writer_addrs. rewrite wblock_queue, <- gather_cons. apply gather_perm, dumb_add_perm. Qed.

Lemma wblock_inv : pipe_inv x'.
Proof.
  destruct Hx as [[I1 I2 I3 I4 I5 I6 I7 I8 I9 I10 I11] I12]. pose proof wblock_readers as Hr. assert (reader_addrs x' = []) as Hra by (unfold reader_addrs; by rewrite Hr).
  assert (reader_addrs x = []) as Hrx by (unfold reader_addrs; by rewrite Hidle). rewrite Hrx in I6, I7, I8. split; [constructor | done]; rewrite ?Hra, ?Hr; try done.
  - apply (bl_inv _ _ _ Hb).
  - intros t. rewrite wblock_queue, elem_of_app, dumb_add_elem. cbn [x' pst_kernel pst_descs]. intros [Ht | [-> | Ht]]; [by apply elem_of_nil in Ht | by rewrite (bl_data _ _ _ Hb) |].
    assert (t ∈ reader_queue x ++ writer_queue x) as Hin by (apply elem_of_app; by right). rewrite (bl_thr _ _ _ Hb) by (by intros ->). by apply I4.
  - by intros t ?%elem_of_nil.
  - intros a Ha. rewrite wblock_addrs, elem_of_app. rewrite app_nil_r in Ha. intros [H | H]; [by apply (Hap a) | apply (I8 a); [by rewrite app_nil_r | done]].
  - cbn [x x' pst_pipe length] in *. lia.
  - rewrite wblock_addrs, length_app, Nat2Z.inj_add, desc_addrs_length by done. cbn [x' pst_pipe]. lia.
Qed.

End WriterBlocks.

(** ** k_pipe_put *)

(** The parts of a pipe that stay. *)
Definition same_config (p p' : k_pipe) : Prop :=
  pipe_buffer p' = pipe_buffer p /\ pipe_size p' = pipe_size p /\ readers p' = readers p /\ writers p' = writers p.

(** What a put that transfers [k] bytes does to the pipe. *)
Record put_done (k : nat) (data : Z) (n : nat) x x' : Prop := {
  pu_pipe : same_config (pst_pipe x) (pst_pipe x');
  pu_mem : ∀ a, pst_mem x' a = fill (pst_mem x) (reader_addrs x ++ free_addrs (pst_pipe x)) (read_bytes (pst_mem x) data n) a;
  pu_ring : ring_bytes x' = ring_bytes x ++ drop (length (reader_addrs x)) (take k (read_bytes (pst_mem x) data n));
  pu_raddrs : reader_addrs x' = drop k (reader_addrs x);
  pu_readers : reader_queue x' = filter (λ t, t ∉ satisfied_by k (waiting (desc_addrs (pst_descs x)) (reader_queue x))) (reader_queue x);
  pu_writers : ∀ t, t ∈ writer_queue x -> desc_bytes (pst_mem x') (pst_descs x') t = desc_bytes (pst_mem x) (pst_descs x) t
}.

Lemma put_moved_done x x' timeout data n k :
  pipe_inv x -> caller_ok (pst_kernel x) timeout -> put_moved k data n x x' ->
  k = (n `min` (length (reader_addrs x) + length (free_addrs (pst_pipe x))))%nat -> put_done k data n x x'.
Proof.
  intros Hx Hc Hput Hk. constructor.
  - rewrite (pm_pipe _ _ _ _ _ Hput). done.
  - apply (pm_mem _ _ _ _ _ Hput).
  - by apply (put_ring_bytes x x' data n k).
  - by apply (put_reader_addrs x x' data n k).
  - by apply (put_reader_queue x x' data n k).
  - intros t Ht. unfold desc_bytes, desc_addrs. rewrite (put_writer_desc x x' timeout data n k) by done. apply fmap_same. intros a Ha. apply (put_mem_out x x' data n k); [done | done |].
    intros Hr. apply (pi_reads _ (pi_mid _ Hx) a Hr). apply elem_of_gather. by exists t.
Qed.

(** The destinations of a put. *)
Lemma put_populate x n :
  pipe_mid x -> let '(mk_pstate p m D s) := x in let f := desc_addrs D in
  ∃ parts D1, (let '(can, l) := pipe_waiter_list_populate D [] (readers p) n s in
      if negb (bytes_used p =? pipe_size p) then
        let '(k, l, D) := pipe_buffer_list_populate l (pipe_buffer p) (pipe_size p) (write_index p) (read_index p) D in (u32 (can + k), l, D)
      else (can, l, D)) = (len (gather f (visited f n (reader_queue x))) + len (free_addrs p), (DThread <$> visited f n (reader_queue x)) ++ parts.*1, D1) /\
    addrs_of parts = free_addrs p /\ Forall (wants D1) parts /\ Forall (λ y : target, y.2.1 = None) parts /\ NoDup parts.*1 /\
    (∀ i, i ∈ parts.*1 -> ∃ q, i = DLocal q) /\ ring_parts p parts /\ (∀ i, (∀ q, i <> DLocal q) -> D1 i = D i).
Proof.
  destruct x as [p m D s]. intros Hx f. pose proof (pi_ring _ Hx) as Hp. cbn [pst_pipe] in Hp. pose proof Hp as [Hs Hu Hr Hw]. destruct (ring_ends p Hp) as [We Re].
  rewrite (populate_waiters D f (readers p) n s []).
  2: { intros t Ht. destruct (pi_desc _ Hx t) as (H1 & _ & H3); [apply elem_of_app; by left |]. split; [done |]. unfold f. by rewrite desc_addrs_length. }
  2: { pose proof (pi_rtotal _ Hx) as Ht. unfold reader_addrs, reader_queue in Ht. cbn [pst_pipe pst_descs pst_kernel] in Ht. fold f in Ht. lia. }
  change (waitq s (readers p)) with (reader_queue (mk_pstate p m D s)). set (rs := reader_queue _). cbn [app]. set (vis := visited f n rs).
  destruct (part_populate (negb (bytes_used p =? pipe_size p)) (DThread <$> vis) p (write_index p) (pipe_size p - bytes_used p) D) as (parts & D1 & E & Ha & Hrest); [done | | | lia | done |].
  { destruct (Z.eqb_spec (bytes_used p) (pipe_size p)); [lia | done]. }
  { destruct (Z.eqb_spec (bytes_used p) (pipe_size p)); [done | lia]. }
  exists parts, D1. rewrite Re in E. split; [| by split]. rewrite free_length by done.
  pose proof (visited_enough f n rs 0 ltac:(lia)) as (Hle & _). cbv zeta in Hle. fold vis in Hle. pose proof (pi_rtotal _ Hx) as Ht. change (reader_addrs _) with (gather f rs) in Ht. cbn [pst_pipe] in Ht.
  destruct (negb _).
  - rewrite E. unfold wrap_u. rewrite Z.mod_small by lia. done.
  - injection E as E1 E2 E3. rewrite <- E1, <- E2, <- E3, Z.add_0_r. done.
Qed.

(** The caller is not one of the waiters, and stays the caller. *)
Lemma put_caller x x' timeout data n k :
  pipe_mid x -> caller_ok (pst_kernel x) timeout -> put_moved k data n x x' ->
  current (pst_kernel x') = current (pst_kernel x) /\
  (arch_is_in_isr (pst_kernel x) = false -> caller_desc (pst_kernel x) = DThread (current (pst_kernel x)) /\ current (pst_kernel x) ∉ reader_queue x ++ writer_queue x /\
    thr (pst_kernel x') (current (pst_kernel x)) = thr (pst_kernel x) (current (pst_kernel x)) /\ current (pst_kernel x') ∈ runq (pst_kernel x') /\ valid_timeout timeout).
Proof.
  intros Hx Hc Hput. pose proof (pm_woken _ _ _ _ _ Hput) as Hwk. destruct (ctx_eq _ _ (wa_ctx _ _ _ _ Hwk)) as (Ec & _ & _). split; [done |]. intros Hi.
  pose proof (caller_apart x timeout Hx Hc) as [_ C2]. unfold caller_ok in Hc. unfold caller_desc in *. rewrite Hi in *. destruct Hc as [Hc Hv].
  assert (current (pst_kernel x) ∉ reader_queue x ++ writer_queue x) as Hn by (intros Hin; by apply (C2 _ Hin)).
  assert (thr (pst_kernel x') (current (pst_kernel x)) = thr (pst_kernel x) (current (pst_kernel x))) as Et.
  { apply (wa_thr _ _ _ _ Hwk). intros Hin%satisfied_elem. apply Hn, elem_of_app. by left. }
  split; [done |]. split; [done |]. split; [done |]. split; [| done]. rewrite Ec. apply (inv_queued _ _ (wa_inv _ _ _ _ Hwk)). rewrite Et. by apply (inv_queued _ _ (pi_sched _ Hx)).
Qed.

Lemma put_all_waits x x' data n k :
  pipe_inv x -> put_moved k data n x x' -> k = (n `min` (length (reader_addrs x) + length (free_addrs (pst_pipe x))))%nat -> (k < n)%nat ->
  reader_queue x' = [] /\ bytes_used (pst_pipe x') = pipe_size (pst_pipe x').
Proof.
  intros Hx Hput Hk Hlt. split.
  - destruct (decide (reader_queue x' = [])) as [| Hr]; [done |]. apply (put_waits x x' data n k) in Hr as [_ Hr]; [lia | done | done].
  - rewrite (pm_pipe _ _ _ _ _ Hput). pose proof (free_length _ (pi_ring _ (pi_mid _ Hx))). cbn [ring_filled bytes_used pipe_size]. lia.
Qed.

(** The end of a put that does not wait. *)
Lemma put_returns x x' timeout data n k (b : bool) :
  pipe_inv x -> caller_ok (pst_kernel x) timeout -> put_moved k data n x x' ->
  k = (n `min` (length (reader_addrs x) + length (free_addrs (pst_pipe x))))%nat ->
  let '(mk_pstate p m D s) := x' in let x2 := mk_pstate p m D (if b then z_reschedule s else s) in
  pipe_inv x2 /\ put_done k data n x x2 /\ writer_queue x2 = writer_queue x.
Proof.
  intros Hx Hc Hput Hk. pose proof (put_inv x x' timeout data n k Hx Hc Hput Hk) as Hi. pose proof (put_moved_done x x' timeout data n k Hx Hc Hput Hk) as [P0 P1 P2 P3 P4 P5].
  pose proof (put_writer_queue x x' data n k Hx Hput) as Hq. destruct x' as [p m D s]. cbv zeta. pose proof (resched_view p m D s b) as Hv.
  destruct (view_addrs _ _ Hv) as (V1 & V2 & V3 & V4). split; [by apply resched_inv |]. split; [| by rewrite (sv_writers _ _ Hv)].
  constructor; [done | done | by rewrite V3 | by rewrite V1 | by rewrite (sv_readers _ _ Hv) | done].
Qed.

(** The end of one that does. *)
Lemma put_waits_on x x' timeout data n k :
  pipe_inv x -> caller_ok (pst_kernel x) timeout -> arch_is_in_isr (pst_kernel x) = false -> put_moved k data n x x' ->
  k = (n `min` (length (reader_addrs x) + length (free_addrs (pst_pipe x))))%nat -> (k < n)%nat ->
  (∀ a, data <= a < data + Z.of_nat n -> a ∉ region (pst_pipe x) ++ reader_addrs x) -> len (writer_addrs x) + Z.of_nat n + pipe_size (pst_pipe x) < 2 ^ 32 ->
  let '(mk_pstate p m D s) := x' in
  let x2 := mk_pstate p m D (z_sched_wait (writers p) timeout (upd_thread (current s) (set_swap_data (desc_addr (current s))) s)) in let c := current (pst_kernel x) in
  pipe_inv x2 /\ put_done k data n x x2 /\ writer_queue x2 = z_priq_dumb_add (thr (pst_kernel x)) (writer_queue x) c /\
  desc_bytes m D c = drop k (read_bytes (pst_mem x) data n).
Proof.
  intros Hx Hc Hisr Hput Hk Hlt Hsrc Htot. pose proof (put_inv x x' timeout data n k Hx Hc Hput Hk) as Hi. pose proof (put_moved_done x x' timeout data n k Hx Hc Hput Hk) as [P0 P1 P2 P3 P4 P5].
  pose proof (put_writer_queue x x' data n k Hx Hput) as Hq. pose proof (put_writer_addrs x x' timeout data n k Hx Hc Hput) as Hwa. destruct (put_all_waits x x' data n k Hx Hput Hk Hlt) as [Hr Hfull].
  destruct (put_caller x x' timeout data n k (pi_mid _ Hx) Hc Hput) as [Ecur Hcal]. destruct (Hcal Hisr) as (Ecd & Hnw & Ethr & Hrun & Hval). pose proof (pm_caller _ _ _ _ _ Hput) as Hcd. rewrite Ecd in Hcd.
  pose proof (pm_pipe _ _ _ _ _ Hput) as Hp. pose proof (put_mem_out x x' data n k Hx Hput) as Hout. pose proof (wa_thr _ _ _ _ (pm_woken _ _ _ _ _ Hput)) as Hthr. destruct x' as [p m D s]. cbn [pst_pipe pst_kernel pst_descs pst_mem] in *. cbv zeta.
  set (c := current (pst_kernel x)) in *. pose proof (pipe_block_ok (writers p) timeout s (pi_sched _ (pi_mid _ Hi)) Hrun Hval) as Hb. rewrite Ecur in Hb |- *. set (s' := z_sched_wait _ _ _) in *.
  assert (desc_addrs D c = drop k (seqZ data (Z.of_nat n))) as Eda.
  { unfold desc_addrs. rewrite Hcd. cbn [d_buffer d_bytes]. rewrite drop_seqZ by lia. f_equal. lia. }
  assert (∀ a, a ∈ desc_addrs D c -> a ∉ region (pst_pipe x) ++ reader_addrs x) as Hda.
  { intros a Ha. rewrite Eda, drop_seqZ in Ha by lia. apply elem_of_seqZ in Ha. apply Hsrc. lia. }
  assert (c ∉ reader_queue (mk_pstate p m D s) ++ writer_queue (mk_pstate p m D s)) as Hnw'.
  { rewrite Hr, Hq. intros Hin. by apply Hnw, elem_of_app; right. }
  assert (pipe_inv (mk_pstate p m D s')) as Hinv.
  { apply (wblock_inv p m D s s'); [done | done | by rewrite Ecur | done | done | | | |]; rewrite Ecur; [by rewrite Hcd | rewrite Hcd; cbn [d_bytes]; lia | | rewrite Hcd, Hwa, Hp; cbn [d_bytes ring_filled pipe_size]; lia].
    intros a Ha. apply Hda in Ha. apply not_elem_of_app in Ha as [Ha _]. by rewrite Hp. }
  split; [done |]. split; [| split].
  - pose proof (wblock_readers p m D s s' Hi Hb Hr) as Hr2. constructor; [done | done | exact P2 | | by rewrite Hr2, <- P4 | done].
    rewrite <- P3. unfold reader_addrs. by rewrite Hr2, Hr.
  - rewrite (wblock_queue p m D s s' Hb), Ecur, Hq. apply dumb_add_ext. intros u Hu. apply Hthr. intros Hin%satisfied_elem. apply elem_of_cons in Hu as [-> | Hu].
    + by apply Hnw, elem_of_app; left.
    + apply (pi_queues _ (pi_mid _ Hx)). apply (inv_waitq _ _ (pi_sched _ (pi_mid _ Hx))) in Hin, Hu. congruence.
  - unfold desc_bytes. rewrite Eda, read_bytes_fmap, <- fmap_drop. apply fmap_same. intros a Ha. apply Hout, Hda. by rewrite Eda.
Qed.

Lemma room_test f n l F min_xfer :
  min_xfer <= n -> 0 <= F -> (len (gather f (visited f n l)) + F <? min_xfer) = (len (gather f l) + F <? min_xfer).
Proof.
  intros Hm HF. destruct (visited_enough f n l 0 ltac:(lia)) as (H1 & _ & H3). cbv zeta in *.
  destruct (Z.ltb_spec (len (gather f l) + F) min_xfer); [apply Z.ltb_lt | apply Z.ltb_ge]; lia.
Qed.

(** What a put of [n] bytes comes to. *)
Definition put_result data n min_xfer timeout x (r : option (outcome * option Z * pipe_state)) : Prop :=
  let room := (length (reader_addrs x) + length (free_addrs (pst_pipe x)))%nat in
  let k := (n `min` room)%nat in
  let c := current (pst_kernel x) in
  ∃ res bytes_written x', r = Some (res, bytes_written, x') /\ pipe_inv x' /\
    if (Z.of_nat room <? min_xfer) && (timeout =? K_NO_WAIT) then
      res = Returns (- EIO) /\ bytes_written = Some 0 /\ same_view x x' /\ pst_kernel x' = pst_kernel x
    else put_done k data n x x' /\
      if (k =? n)%nat || (timeout =? K_NO_WAIT) || (min_xfer <=? Z.of_nat k) && (0 <? min_xfer) then
        res = Returns 0 /\ bytes_written = Some (Z.of_nat k) /\ writer_queue x' = writer_queue x
      else res = Blocks /\ bytes_written = None /\ writer_queue x' = z_priq_dumb_add (thr (pst_kernel x)) (writer_queue x) c /\
        desc_bytes (pst_mem x') (pst_descs x') c = drop k (read_bytes (pst_mem x) data n).

Lemma put_ok x data n min_xfer timeout :
  pipe_inv x -> caller_ok (pst_kernel x) timeout -> min_xfer <= Z.of_nat n ->
  (∀ a, data <= a < data + Z.of_nat n -> a ∉ region (pst_pipe x) ++ reader_addrs x) ->
  (timeout <> K_NO_WAIT -> len (writer_addrs x) + Z.of_nat n + pipe_size (pst_pipe x) < 2 ^ 32) ->
  put_result data n min_xfer timeout x (z_impl_k_pipe_put data (Z.of_nat n) min_xfer timeout x).
Proof.
  destruct x as [p m D s]. set (x := mk_pstate p m D s). intros Hx Hc Hmin Hsrc Htot.
  set (room := (length (reader_addrs x) + length (free_addrs (pst_pipe x)))%nat). set (k := (n `min` room)%nat). unfold put_result. fold room k. unfold z_impl_k_pipe_put. rewrite Z.gtb_ltb, (proj2 (Z.ltb_ge _ _) Hmin).
  destruct (put_populate x (Z.of_nat n) (pi_mid _ Hx)) as (parts & D1 & E & Ha & Hw & Hnone & Hnd & Hloc & Hfit & HD1). unfold x at 1. cbv beta iota.
  destruct (pipe_waiter_list_populate D [] (readers p) (Z.of_nat n) s) as [can l]. rewrite E. clear E can l. rewrite (room_test _ _ (reader_queue x) _ _ Hmin) by lia.
  replace (len (gather (desc_addrs D) (reader_queue x)) + len (free_addrs p)) with (Z.of_nat room) by (unfold room, reader_addrs; cbn [x pst_pipe pst_descs]; lia).
  unfold K_TIMEOUT_EQ. destruct (_ && _) eqn:Eio.
  { exists (Returns (- EIO)), (Some 0), (mk_pstate p m D1 s). assert (same_view x (mk_pstate p m D1 s)) as Hv by (constructor; try done; intros t _; by apply HD1).
    split; [done |]. split; [apply (view_inv _ _ Hv); [| done]; apply (pi_sched _ (pi_mid _ Hx)) | done]. }
  destruct (put_copy x timeout data n D1 parts (pi_mid _ Hx) Hc Hsrc Ha Hw Hnone Hnd Hloc Hfit HD1) as (x1 & E & Hput).
  cbn [x pst_pipe pst_mem pst_descs pst_kernel] in E. fold x in E. change (pst_pipe x) with p in Hput. change (n `min` (length (reader_addrs x) + length (free_addrs p)))%nat with k in E, Hput.
  rewrite E. clear E. cbn [mbind option_bind]. assert ((Z.of_nat k =? Z.of_nat n) = (k =? n)%nat) as -> by (destruct (Nat.eqb_spec k n); [apply Z.eqb_eq | apply Z.eqb_neq]; lia).
  destruct (_ || _ || _) eqn:Eret.
  - pose proof (put_returns x x1 timeout data n k (bool_decide (satisfied_by k (waiting (desc_addrs D) (reader_queue x)) <> [])) Hx Hc Hput eq_refl) as H. destruct x1 as [p1 m1 D1' s1].
    cbv zeta in H. destruct H as (H1 & H2 & H3). do 3 eexists. split; [done |]. done.
  - apply orb_false_iff in Eret as [[Hne%Nat.eqb_neq Hto%Z.eqb_neq]%orb_false_iff _]. assert (k < n)%nat as Hlt by lia.
    assert (arch_is_in_isr s = false) as Hisr by (unfold caller_ok in Hc; cbn [x pst_kernel] in Hc; by destruct (arch_is_in_isr s)).
    pose proof (put_waits_on x x1 timeout data n k Hx Hc Hisr Hput eq_refl Hlt Hsrc (Htot Hto)) as H. destruct x1 as [p1 m1 D1' s1]. cbv zeta in H. destruct H as (H1 & H2 & H3 & H4).
    do 3 eexists. split; [done |]. done.
Qed.

End State.
