(* ===== verification/PipeGet.v ===== *)
(** * Reading from a pipe (kernel/pipes.c)

    A get takes bytes from the front of the stream, wakes the writers it has
    emptied and refills the ring from those still waiting. *)

From Stdlib Require Import ZArith Lia Bool.
From stdpp Require Import base numbers list gmap sets.
From S2P Require Import Prelude Memory GenList TimeoutQ Kernel PrioQ Sched SchedInv SchedOps WaitApi Pipe PipeCopy PipeRing PipePut.

Open Scope Z_scope.

#[local] Abbreviation len l := (Z.of_nat (length l)).

Section Get.
Context {cfg : Kconfig}.
Implicit Types (x : pipe_state).

(** ** Taking bytes *)

(** The state after [k] bytes have been taken, before the ring is refilled. *)
Record get_moved (k : nat) (dst : Z) (n : nat) x x' : Prop := {
  gm_pipe : pst_pipe x' = ring_drained (Z.of_nat (k `min` length (ring_bytes x))) (pst_pipe x);
  gm_mem : ∀ a, pst_mem x' a = received_mem (pst_mem x) (mk_desc dst (Z.of_nat n) (Some (current (pst_kernel x)))) (stream x) a;
  gm_woken : woken_all (writers (pst_pipe x))
    (emptied_by (k - length (ring_bytes x)) (waiting (desc_bytes (pst_mem x) (pst_descs x)) (visited (desc_bytes (pst_mem x) (pst_descs x)) (Z.of_nat n) (writer_queue x)))) (pst_kernel x) (pst_kernel x');
  gm_writers : supply (k - length (ring_bytes x)) (waiting (desc_bytes (pst_mem x) (pst_descs x)) (writer_queue x)) = waiting (desc_bytes (pst_mem x') (pst_descs x')) (writer_queue x);
  gm_thread : ∀ t, t ∈ writer_queue x -> d_thread (pst_descs x' (DThread t)) = Some t /\ 0 <= d_bytes (pst_descs x' (DThread t)) <= d_bytes (pst_descs x (DThread t)) /\
    d_buffer (pst_descs x' (DThread t)) + d_bytes (pst_descs x' (DThread t)) = d_buffer (pst_descs x (DThread t)) + d_bytes (pst_descs x (DThread t));
  gm_others : ∀ t, t ∉ writer_queue x -> DThread t <> caller_desc (pst_kernel x) -> pst_descs x' (DThread t) = pst_descs x (DThread t);
  gm_caller : pst_descs x' (caller_desc (pst_kernel x)) = received (Z.of_nat k) (mk_desc dst (Z.of_nat n) (Some (current (pst_kernel x))))
}.

Lemma emptied_elem k f l t : t ∈ emptied_by k (waiting f l) -> t ∈ l.
Proof.
  revert k. induction l as [| v l IH]; intros k; [done |]. rewrite waiting_cons. cbn [emptied_by option_list]. rewrite elem_of_app, elem_of_cons.
  intros [Ht | Ht]; [left | right; by eapply IH]. case_match; [by apply list_elem_of_singleton in Ht | by apply elem_of_nil in Ht].
Qed.

Lemma emptied_nodup k f l : NoDup l -> NoDup (emptied_by k (waiting f l)).
Proof.
  intros H. revert k. induction H as [| t l Ht _ IH]; intros k; [apply NoDup_nil_2 |]. rewrite waiting_cons. cbn [emptied_by option_list]. case_match; [| apply IH].
  apply NoDup_cons. split; [intros Hin; by apply emptied_elem in Hin | apply IH].
Qed.

Lemma supply_suffix k f l t al : (DThread t, (Some t, al)) ∈ supply k (waiting f l) -> ∃ q, al = drop q (f t).
Proof.
  revert k. induction l as [| u l IH]; intros k Hin; [by apply elem_of_nil in Hin |]. rewrite waiting_cons in Hin. cbn [supply] in Hin. apply elem_of_cons in Hin as [E | Hin]; [| by apply (IH _ Hin)].
  exists k. congruence.
Qed.

Lemma received_mem_take m d l a : received_mem m d l a = received_mem m d (take (Z.to_nat (d_bytes d)) l) a.
Proof. unfold received_mem. case_match; [done |]. rewrite (fill_short _ _ l), length_seqZ. done. Qed.

Section GetCopy.
Context (x : pipe_state) (timeout dst : Z) (n : nat) (D1 : descs) (parts : list target).
Context (Hx : pipe_mid x) (Hc : caller_ok (pst_kernel x) timeout) (Hdst0 : 0 <= dst).
Context (Hdst : dst <> NULL -> ∀ a, dst <= a < dst + Z.of_nat n -> a ∉ region (pst_pipe x) ++ reader_addrs x ++ writer_addrs x).
Context (Hused : addrs_of parts = used_addrs (pst_pipe x)) (Hwant : Forall (wants D1) parts) (Hnone : Forall (λ y : target, y.2.1 = None) parts).
Context (Hnd : NoDup parts.*1) (Hloc : ∀ i, i ∈ parts.*1 -> ∃ q, i = DLocal q) (Hfit : ring_parts (pst_pipe x) parts).
Context (HD1 : ∀ i, (∀ q, i <> DLocal q) -> D1 i = pst_descs x i).

Let p := pst_pipe x.
Let m := pst_mem x.
Let D := pst_descs x.
Let s := pst_kernel x.
Let ws := writer_queue x.
Let f := desc_bytes m D.
Let vis := visited f (Z.of_nat n) ws.
Let c := caller_desc s.
Let d0 := mk_desc dst (Z.of_nat n) (Some (current s)).
Let D2 := set_desc c d0 D1.
Let R := length (ring_bytes x).
Let k := (n `min` length (stream x))%nat.
Let src := contents m parts ++ waiting f vis.

Lemma get_rest : ∃ rest, ws = vis ++ rest /\ (rest = [] \/ (n <= length (gather f vis))%nat).
Proof. destruct (visited_split f (Z.of_nat n) ws) as (rest & E & Hr). exists rest. split; [done |]. destruct Hr; [by left | right; unfold vis; lia]. Qed.

Lemma get_vis t : t ∈ vis -> t ∈ ws.
Proof. destruct get_rest as (rest & E & _). intros Ht. rewrite E. apply elem_of_app. by left. Qed.

Lemma get_rest_out rest t : ws = vis ++ rest -> t ∈ rest -> t ∉ vis.
Proof.
  intros E Ht Hv. pose proof (inv_waitq_nodup _ _ (pi_sched x Hx) (writers p)) as Hq. change (waitq (pst_kernel x) (writers p)) with ws in Hq. rewrite E in Hq.
  apply NoDup_app in Hq as (_ & Hq & _). by apply (Hq t).
Qed.

Lemma get_src_ids : src.*1 = parts.*1 ++ (DThread <$> vis).
Proof. unfold src. by rewrite fmap_app, contents_ids, waiting_ids. Qed.

Lemma get_ids_out t : t ∉ vis -> DThread t ∉ src.*1.
Proof. intros Ht. rewrite get_src_ids, not_elem_of_app. split; [by intros [q Hq]%Hloc |]. intros (u & Eu & Hu)%list_elem_of_fmap. by injection Eu as ->. Qed.

Lemma get_D2_other i : (∀ q, i <> DLocal q) -> i <> c -> D2 i = D i.
Proof. intros H1 H2. unfold D2. rewrite set_desc_ne by done. by apply HD1. Qed.

Lemma get_D2_thread t : t ∈ ws -> D2 (DThread t) = D (DThread t).
Proof. intros Ht. apply get_D2_other; [done |]. apply (caller_apart x timeout Hx Hc). apply elem_of_app. by right. Qed.

Lemma get_D2_local i : i ∈ parts.*1 -> D2 i = D1 i.
Proof. intros [q ->]%Hloc. unfold D2. apply set_desc_ne. apply not_eq_sym. apply (caller_apart x timeout Hx Hc). Qed.

Lemma get_desc t : t ∈ ws -> d_thread (D (DThread t)) = Some t /\ 0 <= d_bytes (D (DThread t)).
Proof. intros Ht. destruct (pi_desc x Hx t) as (_ & H1 & H2); [apply elem_of_app; by right | done]. Qed.

Lemma get_src_bytes : addrs_of src = ring_bytes x ++ gather f vis.
Proof. unfold src. by rewrite addrs_of_app, waiting_addrs, addrs_of_contents, Hused. Qed.

Lemma get_parts_want : Forall (wants D2) parts.
Proof. rewrite Forall_forall in Hwant |- *. intros y Hy. unfold wants. rewrite get_D2_local by (by apply list_elem_of_fmap_2). by apply Hwant. Qed.

Lemma get_offers : Forall (offers m D2) src.
Proof.
  apply Forall_app. split; [apply contents_offers, get_parts_want |].
  assert (waiting f vis = waiting (desc_bytes m D2) vis) as ->.
  { unfold waiting. apply list_fmap_ext. intros i t Ht. apply list_elem_of_lookup_2, get_vis in Ht. assert (f t = desc_bytes m D2 t) as E by (unfold f, desc_bytes, desc_addrs; by rewrite get_D2_thread). by rewrite E. }
  apply offers_waiting. intros t Ht%get_vis. rewrite get_D2_thread by done. by apply get_desc.
Qed.

Lemma get_ids : NoDup (c :: src.*1).
Proof.
  pose proof (caller_apart x timeout Hx Hc) as [C1 C2]. destruct get_rest as (rest & E & _). rewrite get_src_ids. apply NoDup_cons. split.
  - rewrite not_elem_of_app. split; [intros [q Hq]%Hloc; by apply (C1 q) |]. intros (t & Et & Ht)%list_elem_of_fmap. apply (C2 t); [apply elem_of_app; right; by apply get_vis | by symmetry].
  - apply NoDup_app. split; [done |]. split; [intros i [q ->]%Hloc (t & Et & _)%list_elem_of_fmap; done |].
    apply (NoDup_fmap_2 DThread). pose proof (inv_waitq_nodup _ _ (pi_sched x Hx) (writers p)) as Hq. change (waitq (pst_kernel x) (writers p)) with ws in Hq. rewrite E in Hq. by apply NoDup_app in Hq as [? _].
Qed.

Lemma get_reads a : a ∈ reads D2 ((λ y : target, (y.1, y.2.2)) <$> src) -> a ∈ region p ++ writer_addrs x.
Proof.
  unfold src. rewrite fmap_app. unfold reads. rewrite fmap_app, join_app, !elem_of_app. fold (reads D2 ((λ y : target, (y.1, y.2.2)) <$> contents m parts)) (reads D2 (strip (waiting f vis))). intros [Ha | Ha].
  - left. apply (ring_apart p (pi_ring x Hx)). left. unfold p. rewrite <- Hused. apply elem_of_reads in Ha as (y & Hy & Ha). apply list_elem_of_fmap in Hy as (z & -> & Hz). unfold contents in Hz.
    apply list_elem_of_fmap in Hz as (u & -> & Hu). cbn [fst snd] in Ha. rewrite length_fmap in Ha. pose proof get_parts_want as Hw. rewrite Forall_forall in Hw. destruct (Hw u Hu) as (_ & _ & H3).
    unfold addrs_of. apply list_elem_of_join. exists u.2.2. split; [rewrite H3; by apply elem_of_seqZ |]. rewrite <- list_fmap_compose. apply list_elem_of_fmap. by exists u.
  - right. apply elem_of_reads in Ha as (y & Hy & Ha). unfold strip, waiting in Hy. rewrite <- list_fmap_compose in Hy. apply list_elem_of_fmap in Hy as (t & -> & Ht). cbn [compose fst snd] in Ha.
    apply get_vis in Ht. rewrite get_D2_thread in Ha by done. unfold f, desc_bytes in Ha. rewrite length_fmap, desc_addrs_length in Ha by (by apply get_desc). apply elem_of_gather. exists t. split; [done | by apply elem_of_seqZ].
Qed.

Lemma get_k : k = (n `min` length (addrs_of src))%nat /\ R = length (used_addrs p) /\ length (stream x) = (R + length (gather f ws))%nat.
Proof.
  assert (length (stream x) = R + length (gather f ws))%nat as El by (unfold stream; rewrite length_app; done). split; [| split; [unfold R, ring_bytes; by rewrite length_fmap | done]].
  rewrite get_src_bytes, length_app. fold R. destruct (visited_enough f (Z.of_nat n) ws (Z.of_nat R) ltac:(lia)) as (_ & H2 & _). cbv zeta in H2. fold vis in H2. unfold k. lia.
Qed.

Lemma get_received a : received_mem m d0 (addrs_of src) a = received_mem m d0 (stream x) a.
Proof.
  rewrite received_mem_take, (received_mem_take _ _ (stream x)). f_equal. rewrite get_src_bytes. unfold stream, writer_bytes. change (gather _ (writer_queue x)) with (gather f ws).
  destruct get_rest as (rest & E & Hr). cbn [d0 d_bytes]. rewrite Nat2Z.id. rewrite E. rewrite gather_app, app_assoc. destruct Hr as [-> | Hr]; [by rewrite app_nil_r |].
  by rewrite (take_app_le (_ ++ _)) by (rewrite length_app; lia).
Qed.

Lemma get_copy :
  ∃ x' , pipe_get_loop c (parts.*1 ++ (DThread <$> vis)) 0 false (mk_pstate p m D2 s) =
    (Z.of_nat k, bool_decide (emptied_by (k - R) (waiting f vis) <> []), x') /\ get_moved k dst n x x'.
Proof.
  pose proof (caller_apart x timeout Hx Hc) as [C1 C2]. destruct get_k as (Hk & HR & Hlen). assert (D2 c = d0) as Hd0 by (unfold D2; apply set_desc_eq).
  destruct (pipe_get_loop_ok src c 0 false p m D2 s) as (m' & D' & E & Hm & Hof & Hdc & Hfr & Hmv); rewrite ?Hd0; cbn [d0 d_buffer d_bytes]; [apply get_offers | apply get_ids | done | lia | | | |].
  { intros H0 a Ha Hr. apply get_reads in Hr. apply (Hdst H0 a Ha). apply elem_of_app in Hr as [Hr | Hr]; [apply elem_of_app; by left | do 2 (apply elem_of_app; right); done]. }
  { split; apply (pi_ring x Hx). }
  { apply Forall_app. split; [| eapply Forall_impl; [apply waiting_some |]; intros y [u Hu]; by rewrite Hu]. unfold contents. apply Forall_fmap. eapply Forall_impl; [exact Hfit |]. intros y Hy. cbn [compose fst snd]. by rewrite length_fmap. }
  rewrite Hd0 in *. cbn [d0 d_bytes] in E, Hof, Hdc. rewrite Nat2Z.id in *. rewrite <- Hk in *. rewrite get_src_ids, Z.add_0_l in E. rewrite E.
  assert (Forall (λ y : target, y.2.1 = None) (contents m parts)) as Hnone' by (unfold contents; by apply Forall_fmap).
  assert (length (addrs_of (contents m parts)) = R) as HR' by (rewrite addrs_of_contents, length_fmap, Hused; done).
  assert (emptied_by k src = emptied_by (k - R) (waiting f vis)) as Ee by (unfold src; rewrite emptied_app, (emptied_ring k) by done; by rewrite HR').
  assert (into_ring k src = k `min` R)%nat as Ei.
  { unfold src. rewrite into_ring_app, into_ring_ring, HR', into_ring_threads by (done || apply waiting_some). lia. }
  assert (Forall (offers m' D') (supply (k - R) (waiting f ws))) as Hall.
  { destruct get_rest as (rest & Er & Hr). rewrite Er. unfold waiting. rewrite fmap_app. fold (waiting f vis) (waiting f rest). rewrite supply_app, waiting_addrs. apply Forall_app.
    unfold src in Hof. rewrite supply_app, HR' in Hof. apply Forall_app in Hof as [_ Hof]. split; [done |]. destruct Hr as [-> | Hr]; [by apply Forall_nil |].
    replace (k - R - length (gather f vis))%nat with 0%nat by lia. rewrite supply_0. apply Forall_fmap, Forall_forall. intros t Ht.
    assert (t ∈ ws) as Hws by (rewrite Er; apply elem_of_app; by right). assert (D' (DThread t) = D (DThread t)) as ED.
    { rewrite Hfr; [by apply get_D2_thread | apply get_ids_out; by apply (get_rest_out rest) | apply C2, elem_of_app; by right]. }
    assert (offers m D (DThread t, (Some t, f t))) as (H1 & H2 & H3) by (apply (Forall_inv (offers_waiting m D [t] ltac:(intros u ->%list_elem_of_singleton; by apply get_desc)))).
    unfold offers, holds in *. cbn [compose fst snd] in *. rewrite ED. split; [done |]. split; [done |]. rewrite (read_bytes_ext m' m); [done |]. intros a Ha. rewrite Hm. apply received_mem_out. destruct (Z.eq_dec (d_buffer d0) NULL) as [| H0]; [by right | left]. intros Hin.
    apply (Hdst H0 a Hin). do 2 (apply elem_of_app; right). apply elem_of_gather. exists t. split; [done |]. apply elem_of_seqZ. unfold f, desc_bytes in Ha. rewrite length_fmap, desc_addrs_length in Ha by (by apply get_desc). done. }
  eexists. split; [by rewrite Ee |]. constructor; cbn [pst_pipe pst_mem pst_descs pst_kernel]; fold p m D s ws f vis c d0 R.
  - by rewrite Ei.
  - intros a. rewrite Hm. apply get_received.
  - apply wake_all_ok; [apply Hx | | intros t Ht%emptied_elem; by apply get_vis]. apply emptied_nodup. pose proof (inv_waitq_nodup _ _ (pi_sched x Hx) (writers p)) as Hq.
    change (waitq (pst_kernel x) (writers p)) with ws in Hq. destruct get_rest as (rest & Er & _). rewrite Er in Hq. by apply NoDup_app in Hq as [? _].
  - by apply supply_offers.
  - intros t Ht. assert (DThread t <> c) as Htc by (apply C2, elem_of_app; by right). destruct (Hmv (DThread t) Htc) as [M1 M2]. rewrite get_D2_thread in M1, M2 by done.
    destruct (get_desc t Ht) as [G1 G2]. rewrite M1, M2. split; [done |]. split; [| done]. assert ((DThread t, (Some t, desc_bytes m' D' t)) ∈ supply (k - R) (waiting f ws)) as Hin.
    { rewrite (supply_offers m' D') by done. apply list_elem_of_fmap. by exists t. }
    rewrite Forall_forall in Hall. destruct (Hall _ Hin) as (_ & H2 & _). cbn [fst snd] in H2. apply supply_suffix in Hin as [q Hq]. rewrite Hq, length_drop in H2.
    unfold f, desc_bytes in H2. rewrite length_fmap in H2. pose proof (desc_addrs_length D t G2). lia.
  - intros t Ht Htc. rewrite Hfr; [by apply get_D2_other | | done]. apply get_ids_out. intros Hv. by apply get_vis in Hv.
  - done.
Qed.

End GetCopy.

Section GetViews.
Context (x x' : pipe_state) (timeout dst : Z) (n k : nat).
Context (Hx : pipe_mid x) (Hc : caller_ok (pst_kernel x) timeout) (Hget : get_moved k dst n x x').
Context (Hdst : dst <> NULL -> ∀ a, dst <= a < dst + Z.of_nat n -> a ∉ region (pst_pipe x) ++ reader_addrs x ++ writer_addrs x).
Context (Hk : k = (n `min` length (stream x))%nat).

Let f := desc_bytes (pst_mem x) (pst_descs x).
Let vis := visited f (Z.of_nat n) (writer_queue x).
Let out := emptied_by (k - length (ring_bytes x)) (waiting f vis).

Lemma get_writer_queue : writer_queue x' = filter (λ t, t ∉ out) (writer_queue x).
Proof. unfold writer_queue at 1. rewrite (gm_pipe _ _ _ _ _ Hget). apply (wa_waitq _ _ _ _ (gm_woken _ _ _ _ _ Hget)). Qed.

Lemma get_reader_queue : reader_queue x' = reader_queue x.
Proof. unfold reader_queue at 1. rewrite (gm_pipe _ _ _ _ _ Hget). apply (wa_others _ _ _ _ (gm_woken _ _ _ _ _ Hget)). apply (pi_queues _ Hx). Qed.

(** A writer that is woken has nothing left. *)
Lemma get_out_empty t : t ∈ out -> desc_bytes (pst_mem x') (pst_descs x') t = [].
Proof.
  intros Ht. destruct (visited_split f (Z.of_nat n) (writer_queue x)) as (rest & E & _). fold vis in E. pose proof (inv_waitq_nodup _ _ (pi_sched x Hx) (writers (pst_pipe x))) as Hnd.
  change (waitq _ _) with (writer_queue x) in Hnd. pose proof (gm_writers _ _ _ _ _ Hget) as Hw. fold f in Hw. rewrite E in Hw, Hnd. unfold waiting in Hw. rewrite !fmap_app in Hw.
  fold (waiting f vis) (waiting f rest) in Hw. rewrite supply_app in Hw. apply app_inj_1 in Hw as [Hw _]; [| unfold waiting; rewrite !length_fmap; rewrite <- (length_fmap fst), supply_ids, !length_fmap; done].
  apply NoDup_app in Hnd as [Hnd _]. apply (emptied_iff (k - length (ring_bytes x)) f vis t); [done | | done]. rewrite Hw. apply list_elem_of_fmap. exists t. split; [done |]. by apply emptied_elem in Ht.
Qed.

Lemma get_writer_bytes : writer_bytes x' = drop (k - length (ring_bytes x)) (writer_bytes x).
Proof.
  unfold writer_bytes at 1. rewrite get_writer_queue, gather_filter; [apply (supply_gather _ _ _ _ (gm_writers _ _ _ _ _ Hget)) |]. intros t Ht Hn. apply get_out_empty. by apply dec_stable.
Qed.

Lemma get_mem_out a : a ∈ region (pst_pipe x) ++ writer_addrs x -> pst_mem x' a = pst_mem x a.
Proof.
  intros Ha. rewrite (gm_mem _ _ _ _ _ Hget). apply received_mem_out. cbn [d_buffer d_bytes]. destruct (Z.eq_dec dst NULL) as [| H0]; [by right | left]. intros Hin.
  apply (Hdst H0 a Hin). rewrite !elem_of_app in *. tauto.
Qed.

Lemma get_taken : 0 <= Z.of_nat (k `min` length (ring_bytes x)) <= bytes_used (pst_pipe x).
Proof. pose proof (used_length _ (pi_ring _ Hx)). unfold ring_bytes. rewrite length_fmap. lia. Qed.

Lemma get_ring_bytes : ring_bytes x' = drop k (ring_bytes x).
Proof.
  unfold ring_bytes at 1. rewrite (gm_pipe _ _ _ _ _ Hget), used_drained, Nat2Z.id, fmap_drop by (apply (pi_ring _ Hx) || apply get_taken).
  assert (pst_mem x' <$> used_addrs (pst_pipe x) = ring_bytes x) as ->.
  { apply fmap_same. intros a Ha. apply get_mem_out, elem_of_app. left. apply (ring_apart _ (pi_ring _ Hx)). by left. }
  destruct (Nat.le_gt_cases k (length (ring_bytes x))); [f_equal; lia | rewrite !drop_ge by lia; done].
Qed.

Lemma get_stream : stream x' = drop k (stream x).
Proof. unfold stream. by rewrite get_ring_bytes, get_writer_bytes, drop_app. Qed.

Lemma get_reader_desc t : t ∈ reader_queue x -> pst_descs x' (DThread t) = pst_descs x (DThread t).
Proof.
  intros Ht. apply (gm_others _ _ _ _ _ Hget).
  - intros Hr. apply (pi_queues _ Hx). apply (inv_waitq _ _ (pi_sched _ Hx)) in Hr, Ht. congruence.
  - apply (caller_apart x timeout Hx Hc). apply elem_of_app. by left.
Qed.

Lemma get_reader_addrs : reader_addrs x' = reader_addrs x.
Proof. unfold reader_addrs. rewrite get_reader_queue. apply gather_ext. intros t Ht. unfold desc_addrs. by rewrite get_reader_desc. Qed.

Lemma get_writer_addrs a : a ∈ writer_addrs x' -> a ∈ writer_addrs x.
Proof.
  intros (t & Ht & Ha)%elem_of_gather. rewrite get_writer_queue in Ht. apply list_elem_of_filter in Ht as [_ Ht]. apply elem_of_gather. exists t. split; [done |].
  destruct (gm_thread _ _ _ _ _ Hget t Ht) as (_ & H1 & H2). apply elem_of_seqZ in Ha. apply elem_of_seqZ. lia.
Qed.

Lemma get_mid : pipe_mid x'.
Proof.
  destruct Hx as [I1 I2 I3 I4 I5 I6 I7 I8 I9 I10 I11]. pose proof (gm_pipe _ _ _ _ _ Hget) as Hp. pose proof (gm_woken _ _ _ _ _ Hget) as Hwk.
  assert (region (pst_pipe x') = region (pst_pipe x)) as Hreg by (rewrite Hp; done).
  constructor; rewrite ?Hreg, ?get_reader_addrs, ?get_reader_queue; try done.
  - apply Hwk.
  - rewrite Hp. apply ring_wf_drained; [done | apply get_taken].
  - by rewrite Hp.
  - intros t Ht. rewrite get_writer_queue in Ht. rewrite (wa_data _ _ _ _ Hwk). apply elem_of_app in Ht as [Ht | [_ Ht]%list_elem_of_filter].
    + rewrite get_reader_desc by done. apply I4, elem_of_app. by left.
    + destruct (gm_thread _ _ _ _ _ Hget t Ht) as (H1 & H2 & _). split; [apply I4, elem_of_app; by right |]. split; [done | lia].
  - intros t Ht. unfold desc_addrs. rewrite get_reader_desc by done. by apply I5.
  - intros a Ha Hw%get_writer_addrs. by apply (I8 a).
  - intros Hr. destruct (I9 Hr) as [E1 E2]. rewrite get_stream, E1, get_writer_queue, E2. by rewrite drop_nil.
  - by rewrite Hp.
  - assert (len (writer_addrs x') <= len (writer_addrs x)).
    { unfold writer_addrs. rewrite <- !(gather_length (pst_mem x)), !gather_fmap. pose proof get_writer_bytes as E. unfold writer_bytes in E. apply (f_equal length) in E. rewrite length_drop, !gather_length in E. rewrite !length_fmap. lia. }
    rewrite Hp. cbn [ring_drained pipe_size]. lia.
Qed.

End GetViews.

(** ** Refilling the ring *)

Record refilled x x' : Prop := {
  rf_inv : pipe_inv x';
  rf_stream : stream x' = stream x;
  rf_kernel : pst_kernel x' = pst_kernel x;
  rf_pipe : ∃ j, pst_pipe x' = ring_filled j (pst_pipe x);
  rf_mem : ∀ a, a ∉ region (pst_pipe x) -> pst_mem x' a = pst_mem x a;
  rf_desc : ∀ i, (∀ q, i <> DLocal q) -> (∀ t, t ∈ writer_queue x -> i <> DThread t) -> pst_descs x' i = pst_descs x i
}.

Lemma supply_elem k f l y : y ∈ supply k (waiting f l) -> ∃ t al, t ∈ l /\ y = (DThread t, (Some t, al)).
Proof.
  revert k. induction l as [| u l IH]; intros k Hin; [by apply elem_of_nil in Hin |]. rewrite waiting_cons in Hin. cbn [supply] in Hin. apply elem_of_cons in Hin as [-> | Hin].
  - exists u, (drop k (f u)). split; [by left | done].
  - destruct (IH _ Hin) as (t & al & Ht & ->). exists t, al. split; [by right | done].
Qed.

(** What is left after moving [k] bytes of the writers into the ring. *)
Record refill_moved (k : nat) x x' : Prop := {
  rm_pipe : pst_pipe x' = ring_filled (Z.of_nat k) (pst_pipe x);
  rm_kernel : pst_kernel x' = pst_kernel x;
  rm_mem : ∀ a, pst_mem x' a = fill (pst_mem x) (free_addrs (pst_pipe x)) (writer_bytes x) a;
  rm_writers : supply k (waiting (desc_bytes (pst_mem x) (pst_descs x)) (writer_queue x)) = waiting (desc_bytes (pst_mem x') (pst_descs x')) (writer_queue x);
  rm_thread : ∀ t, t ∈ writer_queue x -> d_thread (pst_descs x' (DThread t)) = Some t /\ 0 <= d_bytes (pst_descs x' (DThread t)) <= d_bytes (pst_descs x (DThread t)) /\
    d_buffer (pst_descs x' (DThread t)) + d_bytes (pst_descs x' (DThread t)) = d_buffer (pst_descs x (DThread t)) + d_bytes (pst_descs x (DThread t));
  rm_desc : ∀ i, (∀ q, i <> DLocal q) -> (∀ t, t ∈ writer_queue x -> i <> DThread t) -> pst_descs x' i = pst_descs x i
}.

Section RefillCopy.
Context (x : pipe_state) (D1 : descs) (parts : list target) (Hx : pipe_mid x).
Context (Hfree : addrs_of parts = free_addrs (pst_pipe x)) (Hwant : Forall (wants D1) parts) (Hnone : Forall (λ y : target, y.2.1 = None) parts).
Context (Hnd : NoDup parts.*1) (Hloc : ∀ i, i ∈ parts.*1 -> ∃ q, i = DLocal q) (Hfit : ring_parts (pst_pipe x) parts).
Context (HD1 : ∀ i, (∀ q, i <> DLocal q) -> D1 i = pst_descs x i).

Let p := pst_pipe x.
Let m := pst_mem x.
Let D := pst_descs x.
Let s := pst_kernel x.
Let ws := writer_queue x.
Let f := desc_bytes m D.
Let vis := visited f (pipe_size p - bytes_used p) ws.
Let k := (length (writer_bytes x) `min` length (free_addrs p))%nat.
Let src := strip (waiting f vis).

Lemma refill_rest : ∃ rest, ws = vis ++ rest /\ (rest = [] \/ (length (free_addrs p) <= length (gather f vis))%nat).
Proof.
  destruct (visited_split f (pipe_size p - bytes_used p) ws) as (rest & E & Hr). exists rest. split; [done |]. pose proof (free_length p (pi_ring x Hx)). destruct Hr; [by left | right; unfold vis; lia].
Qed.

Lemma refill_vis t : t ∈ vis -> t ∈ ws.
Proof. destruct refill_rest as (rest & E & _). intros Ht. rewrite E. apply elem_of_app. by left. Qed.

Lemma refill_ws_nodup : NoDup ws.
Proof. apply (inv_waitq_nodup _ _ (pi_sched x Hx)). Qed.

Lemma refill_desc t : t ∈ ws -> d_thread (D1 (DThread t)) = Some t /\ 0 <= d_bytes (D1 (DThread t)) /\ D1 (DThread t) = D (DThread t).
Proof. intros Ht. rewrite HD1 by done. destruct (pi_desc x Hx t) as (_ & H1 & H2); [apply elem_of_app; by right | done]. Qed.

Lemma refill_f l : (∀ t, t ∈ l -> t ∈ ws) -> waiting f l = waiting (desc_bytes m D1) l.
Proof.
  intros Hl. unfold waiting. apply list_fmap_ext. intros i t Ht. apply list_elem_of_lookup_2, Hl in Ht.
  assert (f t = desc_bytes m D1 t) as E by (unfold f, desc_bytes, desc_addrs; destruct (refill_desc t Ht) as (_ & _ & ->); done). by rewrite E.
Qed.

Lemma refill_holds : Forall (holds m D1) src.
Proof.
  unfold src, strip. rewrite (refill_f vis refill_vis). apply Forall_fmap. eapply Forall_impl; [apply offers_waiting; intros t Ht%refill_vis; by destruct (refill_desc t Ht) as (? & ? & _) |]. intros y [_ Hy]. exact Hy.
Qed.

Lemma refill_apart : apart D1 src parts.
Proof.
  pose proof (ring_apart p (pi_ring x Hx)) as (R1 & _ & R3). destruct refill_rest as (rest & E & _). split; rewrite ?Hfree; try done.
  - unfold src. rewrite strip_ids, waiting_ids. apply NoDup_app. split; [| split; [intros i (t & -> & _)%list_elem_of_fmap [q Hq]%Hloc; done | done]].
    apply (NoDup_fmap_2 DThread). pose proof refill_ws_nodup as Hq. rewrite E in Hq. by apply NoDup_app in Hq as [? _].
  - intros a Ha Hr. unfold src in Hr. rewrite (refill_f vis refill_vis) in Hr. apply strip_reads in Hr; [| intros t Ht%refill_vis; by apply refill_desc]. apply elem_of_gather in Hr as (t & Ht & Hr).
    apply refill_vis in Ht. apply (pi_reads x Hx a); [apply elem_of_app; left; apply R3; by right |]. apply elem_of_gather. exists t. split; [done |]. unfold desc_addrs in *. destruct (refill_desc t Ht) as (_ & _ & E1). by rewrite E1 in Hr.
  - intros H0. apply (pi_null x Hx), elem_of_app. left. apply R3. by right.
  - eapply Forall_impl; [exact Hnone |]. cbn. intros y -> [? ?]. done.
Qed.

Lemma refill_k : k = (length (bytes_of src) `min` length (addrs_of parts))%nat.
Proof.
  unfold src. rewrite strip_bytes, waiting_addrs, Hfree. fold p. unfold k, writer_bytes. change (gather _ (writer_queue x)) with (gather f ws).
  destruct refill_rest as (rest & E & Hr). rewrite E, gather_app, length_app. destruct Hr as [-> | Hr]; [simpl; lia | lia].
Qed.

Lemma refill_filled a : fill m (addrs_of parts) (bytes_of src) a = fill m (free_addrs p) (writer_bytes x) a.
Proof.
  unfold src. rewrite strip_bytes, waiting_addrs, Hfree. fold p. unfold writer_bytes. change (gather _ (writer_queue x)) with (gather f ws). destruct refill_rest as (rest & E & Hr). rewrite E, gather_app.
  destruct Hr as [-> | Hr]; [by rewrite app_nil_r |]. rewrite fill_short, (fill_short _ _ (_ ++ _)). by rewrite take_app_le.
Qed.

Lemma refill_copy (r : bool) :
  ∃ x', pipe_write (DThread <$> vis) parts.*1 r (mk_pstate p m D1 s) = Some (Z.of_nat k, r, x') /\ refill_moved k x x'.
Proof.
  pose proof refill_k as Hk. destruct (pipe_write_loop_ok (length (DThread <$> vis) + length parts.*1) src parts 0 r p m D1 s) as (m' & D' & E & Hm & Hh & Hwt & Hmv & Hfr); [| apply refill_holds | done | apply refill_apart | | done |].
  { unfold src, strip, waiting. rewrite !length_fmap. lia. }
  { split; [apply (pi_ring x Hx) | apply (ring_ends p (pi_ring x Hx))]. }
  rewrite <- Hk in *. assert (src.*1 = DThread <$> vis) as Eid by (unfold src; by rewrite strip_ids, waiting_ids). rewrite Eid in E, Hfr. unfold pipe_write. rewrite E, Z.add_0_l.
  rewrite satisfied_ring, into_ring_ring by done. rewrite (bool_decide_eq_false_2 ([] <> [])) by naive_solver. rewrite orb_false_r. replace (k `min` length (addrs_of parts))%nat with k by lia.
  assert (∀ t, t ∈ ws -> d_thread (D' (DThread t)) = Some t) as Hth by (intros t Ht; destruct (Hmv (DThread t)) as [-> _]; by apply refill_desc).
  assert (Forall (offers m' D') (supply k (waiting f ws))) as Hall.
  { destruct refill_rest as (rest & Er & Hr). rewrite Er. unfold waiting. rewrite fmap_app. fold (waiting f vis) (waiting f rest). rewrite supply_app, waiting_addrs. apply Forall_app. split.
    - unfold src in Hh. rewrite strip_consume in Hh. unfold strip in Hh. rewrite Forall_fmap in Hh. rewrite Forall_forall in Hh |- *. intros y Hy. split; [| by apply Hh].
      apply supply_elem in Hy as (t & al & Ht & ->). by apply Hth, refill_vis.
    - destruct Hr as [-> | Hr]; [by apply Forall_nil |]. unfold src in Hk. rewrite strip_bytes, waiting_addrs, Hfree in Hk. fold p in Hk. replace (k - length (gather f vis))%nat with 0%nat by lia. rewrite supply_0.
      assert (∀ t, t ∈ rest -> t ∈ ws) as Hrw by (intros t Ht; rewrite Er; apply elem_of_app; by right). rewrite (refill_f rest Hrw).
      apply Forall_fmap, Forall_forall. intros t Ht. pose proof (Hrw t Ht) as Hws. destruct (refill_desc t Hws) as (G1 & G2 & G3).
      assert (offers m D1 (DThread t, (Some t, desc_bytes m D1 t))) as (H1 & H2 & H3) by (apply (Forall_inv (offers_waiting m D1 [t] ltac:(intros u ->%list_elem_of_singleton; done)))).
      unfold offers, holds in *. cbn [compose fst snd] in *. rewrite Hfr; [| | by intros [q Hq]%Hloc].
      2: { intros (u & Eu & Hu)%list_elem_of_fmap. injection Eu as ->. pose proof refill_ws_nodup as Hq. rewrite Er in Hq. apply NoDup_app in Hq as (_ & Hq & _). by apply (Hq u). }
      split; [done |]. split; [done |]. rewrite (read_bytes_ext m' m); [done |]. intros a Ha. rewrite Hm. apply fill_out. rewrite Hfree. intros Hf. unfold desc_bytes in Ha. rewrite length_fmap, desc_addrs_length in Ha by done.
      apply (pi_reads x Hx a); [apply elem_of_app; left; apply (ring_apart p (pi_ring x Hx)); by right |]. apply elem_of_gather. exists t. split; [done |]. apply elem_of_seqZ. by rewrite G3 in Ha. }
  eexists. split; [done |]. constructor; cbn [pst_pipe pst_mem pst_descs pst_kernel]; fold p m D s ws f; try done.
  - intros a. rewrite Hm. apply refill_filled.
  - by apply supply_offers.
  - intros t Ht. split; [by apply Hth |]. destruct (Hmv (DThread t)) as [_ M2]. destruct (refill_desc t Ht) as (G1 & G2 & G3). rewrite G3 in M2. split; [| done].
    assert ((DThread t, (Some t, desc_bytes m' D' t)) ∈ supply k (waiting f ws)) as Hin by (rewrite (supply_offers m' D') by done; apply list_elem_of_fmap; by exists t).
    rewrite Forall_forall in Hall. destruct (Hall _ Hin) as (_ & H2 & _). cbn [fst snd] in H2. apply supply_suffix in Hin as [q Hq]. rewrite Hq, length_drop in H2.
    unfold f, desc_bytes in H2. rewrite G3 in G2. rewrite length_fmap in H2. pose proof (desc_addrs_length D t G2). lia.
  - intros i Hi Hw. rewrite Hfr; [by apply HD1 | intros (t & -> & Ht)%list_elem_of_fmap; by apply (Hw t (refill_vis t Ht)) | intros [q ->]%Hloc; by apply (Hi q)].
Qed.

End RefillCopy.

Section RefillViews.
Context (x x' : pipe_state) (k : nat) (Hx : pipe_mid x) (Hm : refill_moved k x x') (Hk : k = (length (writer_bytes x) `min` length (free_addrs (pst_pipe x)))%nat).

Lemma refill_queues : reader_queue x' = reader_queue x /\ writer_queue x' = writer_queue x.
Proof. unfold reader_queue, writer_queue. by rewrite (rm_pipe _ _ _ Hm), (rm_kernel _ _ _ Hm). Qed.

Lemma refill_writer_bytes : writer_bytes x' = drop k (writer_bytes x).
Proof. unfold writer_bytes at 1. destruct refill_queues as [_ ->]. apply (supply_gather _ _ _ _ (rm_writers _ _ _ Hm)). Qed.

Lemma refill_into : 0 <= Z.of_nat k <= pipe_size (pst_pipe x) - bytes_used (pst_pipe x).
Proof. pose proof (free_length _ (pi_ring _ Hx)). lia. Qed.

Lemma refill_ring_bytes : ring_bytes x' = ring_bytes x ++ take k (writer_bytes x).
Proof.
  destruct (ring_apart _ (pi_ring _ Hx)) as (R1 & R2 & R3). unfold ring_bytes. rewrite (rm_pipe _ _ _ Hm), used_filled, fmap_app by (apply (pi_ring _ Hx) || apply refill_into). rewrite Nat2Z.id. f_equal.
  - apply fmap_same. intros a Ha. rewrite (rm_mem _ _ _ Hm). apply fill_out. intros Hf. by apply (R2 a).
  - pose proof (fill_front (pst_mem x) [] (free_addrs (pst_pipe x)) (writer_bytes x) k R1 Hk) as E. cbn [length app] in E. rewrite Nat.sub_0_r, drop_0 in E. rewrite <- E. apply list_fmap_ext. intros i a _. apply (rm_mem _ _ _ Hm).
Qed.

Lemma refill_stream : stream x' = stream x.
Proof. unfold stream. by rewrite refill_ring_bytes, refill_writer_bytes, <- app_assoc, take_drop. Qed.

Lemma refill_reader_desc t : t ∈ reader_queue x -> pst_descs x' (DThread t) = pst_descs x (DThread t).
Proof.
  intros Ht. apply (rm_desc _ _ _ Hm); [done |]. intros u Hu E. injection E as ->. apply (pi_queues _ Hx). apply (inv_waitq _ _ (pi_sched _ Hx)) in Hu, Ht. congruence.
Qed.

Lemma refill_reader_addrs : reader_addrs x' = reader_addrs x.
Proof. unfold reader_addrs. destruct refill_queues as [-> _]. apply gather_ext. intros t Ht. unfold desc_addrs. by rewrite refill_reader_desc. Qed.

Lemma refill_writer_addrs a : a ∈ writer_addrs x' -> a ∈ writer_addrs x.
Proof.
  intros (t & Ht & Ha)%elem_of_gather. destruct refill_queues as [_ Eq]. rewrite Eq in Ht. apply elem_of_gather. exists t. split; [done |].
  destruct (rm_thread _ _ _ Hm t Ht) as (_ & H1 & H2). apply elem_of_seqZ in Ha. apply elem_of_seqZ. lia.
Qed.

Lemma refill_mid : pipe_mid x'.
Proof.
  destruct Hx as [I1 I2 I3 I4 I5 I6 I7 I8 I9 I10 I11]. pose proof (rm_pipe _ _ _ Hm) as Hp. destruct refill_queues as [Er Ew].
  assert (region (pst_pipe x') = region (pst_pipe x)) as Hreg by (rewrite Hp; done).
  constructor; rewrite ?Hreg, ?refill_reader_addrs, ?Er, ?refill_stream; try done.
  - by rewrite (rm_kernel _ _ _ Hm).
  - rewrite Hp. apply ring_wf_filled; [done | apply refill_into].
  - by rewrite Hp.
  - intros t Ht. rewrite Ew in Ht. rewrite (rm_kernel _ _ _ Hm). destruct (I4 t Ht) as (H1 & H2 & H3). split; [done |]. apply elem_of_app in Ht as [Ht | Ht].
    + by rewrite refill_reader_desc.
    + destruct (rm_thread _ _ _ Hm t Ht) as (T1 & T2 & _). split; [done | lia].
  - intros t Ht. unfold desc_addrs. rewrite refill_reader_desc by done. by apply I5.
  - intros a Ha Hw%refill_writer_addrs. by apply (I8 a).
  - rewrite Ew. done.
  - by rewrite Hp.
  - assert (len (writer_addrs x') <= len (writer_addrs x)).
    { pose proof refill_writer_bytes as E. unfold writer_bytes in E. apply (f_equal length) in E. rewrite length_drop, !gather_length in E. unfold writer_addrs. lia. }
    rewrite Hp. cbn [ring_filled pipe_size]. lia.
Qed.

Lemma refill_refilled : refilled x x'.
Proof.
  constructor.
  - split; [apply refill_mid |]. rewrite refill_writer_bytes. intros Hne. rewrite (rm_pipe _ _ _ Hm). cbn [ring_filled bytes_used pipe_size]. pose proof (free_length _ (pi_ring _ Hx)).
    assert (k < length (writer_bytes x))%nat; [| lia]. destruct (Nat.lt_ge_cases k (length (writer_bytes x))); [done |]. by destruct Hne; apply drop_ge.
  - apply refill_stream.
  - apply (rm_kernel _ _ _ Hm).
  - eexists. apply (rm_pipe _ _ _ Hm).
  - intros a Ha. rewrite (rm_mem _ _ _ Hm). apply fill_out. intros Hf. apply Ha, (ring_apart _ (pi_ring _ Hx)). by right.
  - apply (rm_desc _ _ _ Hm).
Qed.

End RefillViews.

Lemma refill_ok r x : pipe_mid x -> ∃ x', pipe_refill r x = Some (r, x') /\ refilled x x'.
Proof.
  intros Hx. pose proof (pi_ring _ Hx) as Hp. destruct x as [p m D s]. cbn [pst_pipe] in Hp. unfold pipe_refill. destruct (Z.eqb_spec (bytes_used p) (pipe_size p)) as [E | Hne]; cbn [negb].
  { exists (mk_pstate p m D s). split; [done |]. constructor; try done. exists 0. cbn [pst_pipe]. by rewrite ring_filled_0 by (split; [apply Hp | apply (ring_ends p Hp)]). }
  set (x := mk_pstate p m D s). rewrite (populate_waiters D (desc_bytes m D)).
  2: { intros t Ht. destruct (pi_desc _ Hx t) as (H1 & _ & H3); [apply elem_of_app; by right |]. split; [done |]. unfold desc_bytes. by rewrite length_fmap, desc_addrs_length. }
  2: { pose proof (pi_wtotal _ Hx) as Ht. rewrite gather_length. change (gather _ _) with (writer_addrs x). fold x in Ht. change (pst_pipe x) with p in Ht. destruct Hp. lia. }
  destruct (ring_ends p Hp) as [We Re]. destruct (part_populate true [] p (write_index p) (pipe_size p - bytes_used p) D) as (parts & D1 & E & Ha & Hw & Hnone & Hnd & Hloc & Hfit & HD1); [done | done | destruct Hp; lia | destruct Hp; lia | done |].
  rewrite Re in E. rewrite E. cbn [app]. destruct (refill_copy x D1 parts Hx Ha Hw Hnone Hnd Hloc Hfit HD1 r) as (x' & E' & Hm). cbn [x pst_pipe pst_mem pst_descs pst_kernel] in E'. fold x in E'.
  change (waitq s (writers p)) with (writer_queue x). rewrite E'. cbn [mbind option_bind]. exists x'. split; [done |]. by apply (refill_refilled x x' _ Hx Hm).
Qed.

(** ** k_pipe_get *)

(** The writers a get of [n] bytes that transfers [k] wakes: those among the
    ones it looks at that have nothing left. *)
Definition get_wakes (k n : nat) x : list tid :=
  emptied_by (k - length (ring_bytes x)) (waiting (desc_bytes (pst_mem x) (pst_descs x)) (visited (desc_bytes (pst_mem x) (pst_descs x)) (Z.of_nat n) (writer_queue x))).

(** What a get of [k] bytes does to the pipe. *)
Record get_done (k : nat) (dst : Z) (n : nat) x x' : Prop := {
  gd_pipe : same_config (pst_pipe x) (pst_pipe x');
  gd_stream : stream x' = drop k (stream x);
  gd_read : dst <> NULL -> read_bytes (pst_mem x') dst k = take k (stream x);
  gd_mem : ∀ a, a ∉ region (pst_pipe x) -> dst = NULL \/ ~ (dst <= a < dst + Z.of_nat k) -> pst_mem x' a = pst_mem x a;
  gd_writers : writer_queue x' = filter (λ t, t ∉ get_wakes k n x) (writer_queue x)
}.

(** The state when the copying is over. *)
Record get_end (k : nat) (dst : Z) (n : nat) x x' : Prop := {
  ge_inv : pipe_inv x';
  ge_done : get_done k dst n x x';
  ge_readers : reader_queue x' = reader_queue x;
  ge_raddrs : reader_addrs x' = reader_addrs x;
  ge_region : region (pst_pipe x') = region (pst_pipe x) /\ pipe_size (pst_pipe x') = pipe_size (pst_pipe x);
  ge_caller : pst_descs x' (caller_desc (pst_kernel x)) = received (Z.of_nat k) (mk_desc dst (Z.of_nat n) (Some (current (pst_kernel x))));
  ge_woken : woken_all (writers (pst_pipe x)) (get_wakes k n x) (pst_kernel x) (pst_kernel x')
}.

Lemma get_ends x x1 x2 timeout dst n k :
  pipe_mid x -> caller_ok (pst_kernel x) timeout -> 0 <= dst -> (dst <> NULL -> ∀ a, dst <= a < dst + Z.of_nat n -> a ∉ region (pst_pipe x) ++ reader_addrs x ++ writer_addrs x) ->
  k = (n `min` length (stream x))%nat -> get_moved k dst n x x1 -> refilled x1 x2 -> get_end k dst n x x2.
Proof.
  intros Hx Hc Hd0 Hdst Hk Hget [F1 F2 F3 [j F4] F5 F6]. pose proof (gm_pipe _ _ _ _ _ Hget) as Hp. pose proof (caller_apart x timeout Hx Hc) as [C1 C2].
  assert (region (pst_pipe x1) = region (pst_pipe x)) as Hreg by (by rewrite Hp). rewrite Hreg in F5. set (d0 := mk_desc dst (Z.of_nat n) (Some (current (pst_kernel x)))).
  assert (reader_queue x2 = reader_queue x) as Erq. { unfold reader_queue at 1. rewrite F3, F4. apply (get_reader_queue x x1 dst n k Hx Hget). }
  assert (writer_queue x2 = writer_queue x1) as Ewq by (unfold writer_queue; by rewrite F3, F4).
  pose proof (get_writer_queue x x1 dst n k Hget) as Ew1. assert (∀ a, a ∉ region (pst_pipe x) -> pst_mem x2 a = received_mem (pst_mem x) d0 (stream x) a) as Hm2 by (intros a Ha; rewrite F5 by done; apply (gm_mem _ _ _ _ _ Hget)).
  assert (∀ a, received_mem (pst_mem x) d0 (stream x) a = if dst =? NULL then pst_mem x a else fill (pst_mem x) (take k (seqZ dst (Z.of_nat n))) (take k (stream x)) a) as Hrm.
  { intros a. unfold received_mem. cbn [d0 d_buffer d_bytes]. destruct (dst =? NULL); [done |]. rewrite fill_short, fill_take, length_take, length_seqZ, Nat2Z.id. replace (n `min` length (stream x))%nat with k by lia.
    f_equal. destruct (Nat.le_gt_cases n (length (stream x))); [f_equal; lia | rewrite !take_ge by lia; done]. }
  constructor; [done | | done | | by rewrite F4, Hp | | by rewrite F3; apply (gm_woken _ _ _ _ _ Hget)].
  - constructor.
    + by rewrite F4, Hp.
    + rewrite F2. by apply (get_stream x x1 dst n k).
    + intros H0. rewrite read_bytes_fmap. assert (seqZ dst (Z.of_nat k) = take (length (take k (stream x))) (take k (seqZ dst (Z.of_nat n)))) as Es by (rewrite length_take, take_take, take_seqZ by lia; f_equal; lia).
      rewrite Es. rewrite <- (fill_read (pst_mem x) (take k (seqZ dst (Z.of_nat n))) (take k (stream x))) at 2.
      * apply list_fmap_ext. intros i a Ha. apply list_elem_of_lookup_2 in Ha. rewrite <- Es in Ha. apply elem_of_seqZ in Ha. rewrite Hm2, Hrm; [by rewrite (proj2 (Z.eqb_neq dst NULL)) |].
        intros Hr. apply (Hdst H0 a); [lia | apply elem_of_app; by left].
      * rewrite take_seqZ by lia. apply NoDup_seqZ.
      * rewrite !length_take, length_seqZ. lia.
    + intros a Ha Hout. rewrite Hm2, Hrm by done. destruct (Z.eqb_spec dst NULL); [done |]. apply fill_out. rewrite take_seqZ by lia. rewrite elem_of_seqZ. destruct Hout; [done | lia].
    + rewrite Ewq. exact Ew1.
  - rewrite <- (get_reader_addrs x x1 timeout dst n k Hx Hc Hget). unfold reader_addrs. rewrite Erq, (get_reader_queue x x1 dst n k Hx Hget). apply gather_ext. intros t Ht. unfold desc_addrs. rewrite F6; [done | done |].
    intros u Hu E. injection E as ->. rewrite Ew1 in Hu. apply list_elem_of_filter in Hu as [_ Hu]. apply (pi_queues _ Hx). apply (inv_waitq _ _ (pi_sched _ Hx)) in Hu, Ht. congruence.
  - rewrite F6; [apply (gm_caller _ _ _ _ _ Hget) | done |]. intros t Ht E. rewrite Ew1 in Ht. apply list_elem_of_filter in Ht as [_ Ht]. apply (C2 t); [apply elem_of_app; by right | done].
Qed.

(** The sources of a get. *)
Lemma get_populate x n :
  pipe_mid x -> let '(mk_pstate p m D s) := x in let f := desc_bytes m D in
  ∃ parts D1, (let '(can, l, D) := if negb (bytes_used p =? 0) then pipe_buffer_list_populate [] (pipe_buffer p) (pipe_size p) (read_index p) (write_index p) D else (0, [], D) in
      let '(k, l) := pipe_waiter_list_populate D l (writers p) n s in (u32 (can + k), l, D)) =
      (len (gather f (visited f n (writer_queue x))) + len (ring_bytes x), parts.*1 ++ (DThread <$> visited f n (writer_queue x)), D1) /\
    addrs_of parts = used_addrs p /\ Forall (wants D1) parts /\ Forall (λ y : target, y.2.1 = None) parts /\ NoDup parts.*1 /\
    (∀ i, i ∈ parts.*1 -> ∃ q, i = DLocal q) /\ ring_parts p parts /\ (∀ i, (∀ q, i <> DLocal q) -> D1 i = D i).
Proof.
  destruct x as [p m D s]. set (x := mk_pstate p m D s). intros Hx f. pose proof (pi_ring _ Hx) as Hp. cbn [x pst_pipe] in Hp. pose proof Hp as [Hs Hu Hr Hw].
  destruct (part_populate (negb (bytes_used p =? 0)) [] p (read_index p) (bytes_used p) D) as (parts & D1 & E & Hrest); [done | | | lia | done |].
  { destruct (Z.eqb_spec (bytes_used p) 0); [lia | done]. }
  { destruct (Z.eqb_spec (bytes_used p) 0); [done | lia]. }
  rewrite <- Hw in E. rewrite E. cbn [app]. exists parts, D1. split; [| by destruct Hrest]. destruct Hrest as (_ & _ & _ & _ & _ & _ & HD1).
  assert (len (gather f (writer_queue x)) + pipe_size p < 2 ^ 32) as Htot by (pose proof (pi_wtotal _ Hx) as Ht; unfold f; rewrite gather_length; exact Ht).
  rewrite (populate_waiters D1 f (writers p) n s parts.*1).
  2: { intros t Ht. destruct (pi_desc _ Hx t) as (H1 & _ & H3); [apply elem_of_app; by right |]. split; [done |]. rewrite HD1 by done. unfold f, desc_bytes. by rewrite length_fmap, desc_addrs_length. }
  2: { change (waitq s (writers p)) with (writer_queue x). lia. }
  change (waitq s (writers p)) with (writer_queue x). destruct (visited_enough f n (writer_queue x) 0 ltac:(lia)) as (Hle & _). cbv zeta in Hle.
  assert (len (ring_bytes x) = bytes_used p) as -> by (unfold ring_bytes; rewrite length_fmap; by apply used_length). f_equal. f_equal. unfold wrap_u. rewrite Z.mod_small by lia. lia.
Qed.

(** A get that waits. *)
Section ReaderBlocks.
Context (p : k_pipe) (m : mem) (D : descs) (s s' : z_kernel).
Let x := mk_pstate p m D s.
Let x' := mk_pstate p m D s'.
Context (Hx : pipe_inv x) (Hb : blocked (readers p) s s') (Hcur : current s ∉ reader_queue x ++ writer_queue x) (Hempty : stream x = []) (Hidle : writer_queue x = []).
Context (Hth : d_thread (D (DThread (current s))) = Some (current s)) (Hn : 0 < d_bytes (D (DThread (current s)))).
Context (Hap : ∀ a, a ∈ desc_addrs D (current s) -> a ∉ region p ++ reader_addrs x /\ a <> 0) (Htot : len (reader_addrs x) + d_bytes (D (DThread (current s))) + pipe_size p < 2 ^ 32).

Lemma rblock_queue : reader_queue x' = z_priq_dumb_add (thr s) (reader_queue x) (current s).
Proof. apply (bl_waitq _ _ _ Hb). Qed.

Lemma rblock_writers : writer_queue x' = [].
Proof. rewrite <- Hidle. apply (bl_others _ _ _ Hb). apply not_eq_sym, (pi_queues _ (pi_mid _ Hx)). Qed.

Lemma rblock_addrs : reader_addrs x' ≡ₚ desc_addrs D (current s) ++ reader_addrs x.
Proof. unfold reader_addrs. rewrite rblock_queue, <- gather_cons. apply gather_perm, dumb_add_perm. Qed.

Lemma rblock_stream : stream x' = [].
Proof. rewrite <- Hempty. unfold stream, ring_bytes, writer_bytes. by rewrite rblock_writers, Hidle. Qed.

Lemma rblock_inv : pipe_inv x'.
Proof.
  destruct Hx as [[I1 I2 I3 I4 I5 I6 I7 I8 I9 I10 I11] I12]. pose proof rblock_writers as Hw. assert (writer_addrs x' = []) as Hwa by (unfold writer_addrs; by rewrite Hw).
  assert (writer_bytes x' = []) as Hwb by (unfold writer_bytes; by rewrite Hw). split; [constructor | by rewrite Hwb]; rewrite ?Hw, ?Hwa, ?rblock_stream; try done.
  - apply (bl_inv _ _ _ Hb).
  - intros t. rewrite rblock_queue, elem_of_app, dumb_add_elem. cbn [x' pst_kernel pst_descs]. intros [[-> | Ht] | Ht]; [rewrite (bl_data _ _ _ Hb); split; [done |]; split; [done | lia] | | by apply elem_of_nil in Ht].
    assert (t ∈ reader_queue x ++ writer_queue x) as Hin by (apply elem_of_app; by left). rewrite (bl_thr _ _ _ Hb) by (by intros ->). by apply I4.
  - intros t. rewrite rblock_queue, dumb_add_elem. cbn [x' pst_descs]. intros [-> | Ht]; [| by apply I5]. intros E. apply (f_equal length) in E. unfold desc_addrs in E. rewrite length_seqZ in E. simpl in E. lia.
  - rewrite rblock_addrs. apply NoDup_app in I6 as (J1 & J2 & J3). apply NoDup_app. split; [done |]. split.
    + intros a Ha. apply not_elem_of_app. split; [| by apply J2]. intros Hd. apply Hap in Hd as [Hd _]. apply Hd, elem_of_app. by left.
    + apply NoDup_app. split; [apply NoDup_seqZ |]. split; [| done]. intros a Ha Hr. apply Hap in Ha as [Ha _]. apply Ha, elem_of_app. by right.
  - rewrite rblock_addrs, !elem_of_app. intros [H | [H | H]]; [apply I7, elem_of_app; by left | by apply Hap in H as [_ ?] | apply I7, elem_of_app; by right].
  - intros a _. apply not_elem_of_nil.
  - rewrite rblock_addrs, length_app, Nat2Z.inj_add, desc_addrs_length by lia. cbn [x' pst_pipe]. lia.
  - cbn [length x' pst_pipe]. cbn [x pst_pipe] in I11. lia.
Qed.

End ReaderBlocks.

(** The caller is not one of the writers woken. *)
Lemma get_caller x x' timeout dst n k :
  pipe_mid x -> caller_ok (pst_kernel x) timeout -> get_end k dst n x x' ->
  current (pst_kernel x') = current (pst_kernel x) /\
  (arch_is_in_isr (pst_kernel x) = false -> caller_desc (pst_kernel x) = DThread (current (pst_kernel x)) /\ current (pst_kernel x) ∉ reader_queue x ++ writer_queue x /\
    thr (pst_kernel x') (current (pst_kernel x)) = thr (pst_kernel x) (current (pst_kernel x)) /\ current (pst_kernel x') ∈ runq (pst_kernel x') /\ valid_timeout timeout).
Proof.
  intros Hx Hc Hend. pose proof (ge_woken _ _ _ _ _ Hend) as Hwk. destruct (ctx_eq _ _ (wa_ctx _ _ _ _ Hwk)) as (Ec & _ & _). split; [done |]. intros Hi.
  pose proof (caller_apart x timeout Hx Hc) as [_ C2]. unfold caller_ok in Hc. unfold caller_desc in *. rewrite Hi in *. destruct Hc as [Hc Hv].
  assert (current (pst_kernel x) ∉ reader_queue x ++ writer_queue x) as Hn by (intros Hin; by apply (C2 _ Hin)).
  assert (thr (pst_kernel x') (current (pst_kernel x)) = thr (pst_kernel x) (current (pst_kernel x))) as Et.
  { apply (wa_thr _ _ _ _ Hwk). intros Hin%emptied_elem. destruct (visited_split (desc_bytes (pst_mem x) (pst_descs x)) (Z.of_nat n) (writer_queue x)) as (rest & E & _).
    apply Hn, elem_of_app. right. rewrite E. apply elem_of_app. by left. }
  split; [done |]. split; [done |]. split; [done |]. split; [| done]. rewrite Ec. apply (inv_queued _ _ (wa_inv _ _ _ _ Hwk)). rewrite Et. by apply (inv_queued _ _ (pi_sched _ Hx)).
Qed.

Lemma emptied_all k f l t : (length (gather f l) <= k)%nat -> t ∈ l -> t ∈ emptied_by k (waiting f l).
Proof.
  revert k. induction l as [| u l IH]; intros k Hk Ht; [by apply elem_of_nil in Ht |]. rewrite gather_cons, length_app in Hk. rewrite waiting_cons. cbn [emptied_by option_list]. rewrite (proj2 (Nat.leb_le _ _)) by lia.
  apply elem_of_app. apply elem_of_cons in Ht as [-> | Ht]; [left; by apply list_elem_of_singleton | right; apply IH; [lia | done]].
Qed.

(** A get that takes less than it wants has emptied the pipe and woken every
    writer. *)
Lemma get_all_waits x x' dst n k :
  pipe_mid x -> get_end k dst n x x' -> k = (n `min` length (stream x))%nat -> (k < n)%nat -> stream x' = [] /\ writer_queue x' = [].
Proof.
  intros Hx Hend Hk Hlt. destruct (ge_done _ _ _ _ _ Hend) as [_ G1 _ _ G4]. split; [rewrite G1; apply drop_ge; lia |]. rewrite G4. unfold get_wakes. set (f := desc_bytes (pst_mem x) (pst_descs x)).
  destruct (visited_split f (Z.of_nat n) (writer_queue x)) as (rest & E & Hr). assert (length (stream x) = length (ring_bytes x) + length (gather f (writer_queue x)))%nat as El by (unfold stream; by rewrite length_app).
  assert (visited f (Z.of_nat n) (writer_queue x) = writer_queue x) as ->.
  { destruct Hr as [-> | Hr]; [rewrite app_nil_r in E; exact (eq_sym E) |]. exfalso. assert (gather f (writer_queue x) = gather f (visited f (Z.of_nat n) (writer_queue x)) ++ gather f rest) as Eg by (by rewrite <- gather_app, <- E).
    rewrite Eg, length_app in El. lia. }
  apply elem_of_nil_inv. intros t [Hn Ht]%list_elem_of_filter. apply Hn. apply emptied_all; [lia | done].
Qed.

(** The end of a get that does not wait. *)
Lemma get_returns x x' timeout dst n k (b : bool) :
  caller_ok (pst_kernel x) timeout -> get_end k dst n x x' ->
  let '(mk_pstate p m D s) := x' in let x2 := mk_pstate p m D (if b then z_reschedule s else s) in
  pipe_inv x2 /\ get_done k dst n x x2 /\ reader_queue x2 = reader_queue x /\ reader_addrs x2 = reader_addrs x.
Proof.
  intros Hc [E1 [G0 G1 G2 G3 G4] E3 E4 E5 E6 E7]. destruct x' as [p m D s]. cbv zeta. pose proof (resched_view p m D s b) as Hv. destruct (view_addrs _ _ Hv) as (V1 & V2 & V3 & V4).
  split; [by apply resched_inv |]. split; [| by rewrite (sv_readers _ _ Hv), V1]. constructor; [done | unfold stream; by rewrite V3, V4 | done | done | by rewrite (sv_writers _ _ Hv)].
Qed.

(** The end of one that does. *)
Lemma get_waits_on x x' timeout dst n k :
  pipe_mid x -> caller_ok (pst_kernel x) timeout -> arch_is_in_isr (pst_kernel x) = false -> get_end k dst n x x' -> k = (n `min` length (stream x))%nat -> (k < n)%nat ->
  0 < dst -> (∀ a, dst <= a < dst + Z.of_nat n -> a ∉ region (pst_pipe x) ++ reader_addrs x ++ writer_addrs x) -> len (reader_addrs x) + Z.of_nat n + pipe_size (pst_pipe x) < 2 ^ 32 ->
  let '(mk_pstate p m D s) := x' in
  let x2 := mk_pstate p m D (z_sched_wait (readers p) timeout (upd_thread (current s) (set_swap_data (desc_addr (current s))) s)) in let c := current (pst_kernel x) in
  pipe_inv x2 /\ get_done k dst n x x2 /\ reader_queue x2 = z_priq_dumb_add (thr (pst_kernel x)) (reader_queue x) c /\ desc_addrs D c = seqZ (dst + Z.of_nat k) (Z.of_nat (n - k)).
Proof.
  intros Hx Hc Hisr Hend Hk Hlt Hpos Hdst Htot. destruct (get_all_waits x x' dst n k Hx Hend Hk Hlt) as [Hst Hwq]. destruct (get_caller x x' timeout dst n k Hx Hc Hend) as [Ecur Hcal].
  destruct (Hcal Hisr) as (Ecd & Hnw & Ethr & Hrun & Hval). destruct Hend as [E1 [G0 G1 G2 G3 G4] E3 E4 [E5 E5'] E6 E7]. rewrite Ecd in E6. pose proof (wa_thr _ _ _ _ E7) as Hthr. pose proof E1 as E1'. destruct x' as [p m D s]. cbn [pst_pipe pst_kernel pst_descs pst_mem] in *. cbv zeta.
  set (c := current (pst_kernel x)) in *. pose proof (pipe_block_ok (readers p) timeout s (pi_sched _ (pi_mid _ E1')) Hrun Hval) as Hb. rewrite Ecur in Hb |- *. set (s' := z_sched_wait _ _ _) in *.
  assert (D (DThread c) = mk_desc (dst + Z.of_nat k) (Z.of_nat (n - k)) (Some c)) as Hcd.
  { rewrite E6. unfold received. cbn [d_buffer d_bytes d_thread]. rewrite (proj2 (Z.eqb_neq dst NULL)) by (unfold NULL; lia). cbn [negb]. f_equal. lia. }
  assert (desc_addrs D c = seqZ (dst + Z.of_nat k) (Z.of_nat (n - k))) as Eda by (unfold desc_addrs; by rewrite Hcd).
  assert (c ∉ reader_queue (mk_pstate p m D s) ++ writer_queue (mk_pstate p m D s)) as Hnw'.
  { rewrite E3, Hwq, app_nil_r. intros Hin. by apply Hnw, elem_of_app; left. }
  assert (pipe_inv (mk_pstate p m D s')) as Hinv.
  { apply (rblock_inv p m D s s'); [done | done | by rewrite Ecur | done | done | | | |]; rewrite Ecur; [by rewrite Hcd | rewrite Hcd; cbn [d_bytes]; lia | | rewrite Hcd, E4, E5'; cbn [d_bytes]; lia].
    intros a Ha. rewrite Eda in Ha. apply elem_of_seqZ in Ha. split; [| lia]. rewrite E4, E5. intros Hin. apply (Hdst a); [lia |]. rewrite !elem_of_app in *. tauto. }
  pose proof (rblock_writers p m D s s' E1' Hb Hwq) as Hw2. split; [done |]. split; [| split; [| done]].
  - constructor; [done | | done | done | by rewrite Hw2, <- G4, Hwq]. rewrite (rblock_stream p m D s s' E1' Hb Hst Hwq), <- G1. done.
  - rewrite (rblock_queue p m D s s' Hb), Ecur, E3. apply dumb_add_ext. intros u Hu. apply Hthr. unfold get_wakes. intros Hin%emptied_elem.
    destruct (visited_split (desc_bytes (pst_mem x) (pst_descs x)) (Z.of_nat n) (writer_queue x)) as (rest & E & _). assert (u ∈ writer_queue x) as Hin' by (rewrite E; apply elem_of_app; by left).
    apply elem_of_cons in Hu as [-> | Hu]; [by apply Hnw, elem_of_app; right |]. apply (pi_queues _ Hx). apply (inv_waitq _ _ (pi_sched _ Hx)) in Hin', Hu. congruence.
Qed.

(** What a get of [n] bytes comes to. *)
Definition get_result dst n min_xfer timeout x (r : option (outcome * option Z * pipe_state)) : Prop :=
  let k := (n `min` length (stream x))%nat in
  let c := current (pst_kernel x) in
  ∃ res bytes_read x', r = Some (res, bytes_read, x') /\ pipe_inv x' /\
    if (len (stream x) <? min_xfer) && (timeout =? K_NO_WAIT) then
      res = Returns (- EIO) /\ bytes_read = Some 0 /\ same_view x x' /\ pst_kernel x' = pst_kernel x
    else get_done k dst n x x' /\
      if (k =? n)%nat || (timeout =? K_NO_WAIT) || (min_xfer <=? Z.of_nat k) && (0 <? min_xfer) then
        res = Returns 0 /\ bytes_read = Some (Z.of_nat k) /\ reader_queue x' = reader_queue x /\ reader_addrs x' = reader_addrs x
      else res = Blocks /\ bytes_read = None /\ reader_queue x' = z_priq_dumb_add (thr (pst_kernel x)) (reader_queue x) c /\
        desc_addrs (pst_descs x') c = seqZ (dst + Z.of_nat k) (Z.of_nat (n - k)).

Lemma get_internal_ok x dst n min_xfer timeout :
  pipe_inv x -> caller_ok (pst_kernel x) timeout -> min_xfer <= Z.of_nat n -> 0 <= dst ->
  (dst <> NULL -> ∀ a, dst <= a < dst + Z.of_nat n -> a ∉ region (pst_pipe x) ++ reader_addrs x ++ writer_addrs x) ->
  (timeout <> K_NO_WAIT -> 0 < dst /\ len (reader_addrs x) + Z.of_nat n + pipe_size (pst_pipe x) < 2 ^ 32) ->
  get_result dst n min_xfer timeout x (pipe_get_internal dst (Z.of_nat n) min_xfer timeout x).
Proof.
  destruct x as [p m D s]. set (x := mk_pstate p m D s). intros Hx Hc Hmin Hd0 Hdst Htot. set (k := (n `min` length (stream x))%nat).
  destruct (get_populate x (Z.of_nat n) (pi_mid _ Hx)) as (parts & D1 & E & Ha & Hw & Hnone & Hnd & Hloc & Hfit & HD1). unfold get_result. fold k. unfold pipe_get_internal, x at 1. cbv beta iota.
  destruct (if negb (bytes_used p =? 0) then _ else _) as [[can l] D1']. destruct (pipe_waiter_list_populate D1' l (writers p) (Z.of_nat n) s) as [w l']. injection E as E1 E2 E3. rewrite E1, E2, E3. clear E1 E2 E3 can l D1' w l'.
  rewrite (room_test _ _ (writer_queue x) _ _ Hmin) by lia.
  replace (len (gather (desc_bytes m D) (writer_queue x)) + len (ring_bytes x)) with (len (stream x)) by (unfold stream; rewrite length_app, Nat2Z.inj_add; apply Z.add_comm).
  unfold K_TIMEOUT_EQ. destruct (_ && _) eqn:Eio.
  { exists (Returns (- EIO)), (Some 0), (mk_pstate p m D1 s). assert (same_view x (mk_pstate p m D1 s)) as Hv by (constructor; try done; intros t _; by apply HD1).
    split; [done |]. split; [apply (view_inv _ _ Hv); [| done]; apply (pi_sched _ (pi_mid _ Hx)) | done]. }
  destruct (get_copy x timeout dst n D1 parts (pi_mid _ Hx) Hc Hd0 Hdst Ha Hw Hnone Hnd Hloc Hfit HD1) as (x1 & E & Hget). cbn [x pst_pipe pst_mem pst_descs pst_kernel] in E. fold x k in E, Hget.
  rewrite E. clear E. set (b := bool_decide _). destruct (refill_ok b x1 (get_mid x x1 timeout dst n k (pi_mid _ Hx) Hc Hget Hdst eq_refl)) as (x2 & E & Hrf). rewrite E. clear E. cbn [mbind option_bind].
  pose proof (get_ends x x1 x2 timeout dst n k (pi_mid _ Hx) Hc Hd0 Hdst eq_refl Hget Hrf) as Hend.
  assert ((Z.of_nat k =? Z.of_nat n) = (k =? n)%nat) as Ekn by (destruct (Nat.eqb_spec k n); [apply Z.eqb_eq | apply Z.eqb_neq]; lia). clearbody b.
  destruct x2 as [p2 m2 D2 s2] eqn:Ex2. rewrite Ekn. destruct (_ || _ || _) eqn:Eret.
  - pose proof (get_returns x x2 timeout dst n k b Hc) as H. rewrite Ex2 in H. destruct (H Hend) as (H1 & H2 & H3 & H4). do 3 eexists. split; [done |]. done.
  - apply orb_false_iff in Eret as [[Hne%Nat.eqb_neq Hto%Z.eqb_neq]%orb_false_iff _]. assert (k < n)%nat as Hlt by lia. destruct (Htot Hto) as [Hpos Htot'].
    assert (arch_is_in_isr s = false) as Hisr by (unfold caller_ok in Hc; cbn [x pst_kernel] in Hc; by destruct (arch_is_in_isr s)).
    pose proof (get_waits_on x x2 timeout dst n k (pi_mid _ Hx) Hc Hisr) as H. rewrite Ex2 in H. destruct (H Hend eq_refl Hlt Hpos (Hdst ltac:(unfold NULL; lia)) Htot') as (H1 & H2 & H3 & H4).
    do 3 eexists. split; [done |]. done.
Qed.

End Get.
