(* ===== verification/PipeRun.v ===== *)
(** * What a pipe does (kernel/pipes.c)

    Puts and gets on every branch, flushing, the numbers of bytes available,
    a run of many callers as a first-in first-out stream, and a writer that
    stays asleep after its last byte has been taken. *)

From Stdlib Require Import ZArith Lia Bool.
From stdpp Require Import base numbers list gmap sets relations.
From S2P Require Import Prelude Memory GenList TimeoutQ Kernel PrioQ Sched SchedInv SchedOps Threads WaitApi Pipe PipeCopy PipeRing PipePut PipeGet.

Open Scope Z_scope.

#[local] Abbreviation len l := (Z.of_nat (length l)).

Section Run.
Context {cfg : Kconfig}.
Implicit Types (x : pipe_state).

(** ** Initialising *)

Lemma pipe_init_inv p buffer size m D s :
  sched_inv ∅ s -> readers p <> writers p -> waitq s (readers p) = [] -> waitq s (writers p) = [] -> 0 <= size < 2 ^ 32 -> 0 < buffer \/ size = 0 ->
  let '(p', s') := k_pipe_init p buffer size s in pipe_inv (mk_pstate p' m D s') /\ stream (mk_pstate p' m D s') = [].
Proof.
  intros Hs Hq Hr Hw Hsz Hb. unfold k_pipe_init. cbn [readers writers]. set (p' := mk_pipe _ _ _ _ _ _ _ _). set (s' := z_waitq_init _ _). set (x := mk_pstate p' m D s').
  assert (same_sched s s') as Hsame. { unfold s'. etransitivity; [by apply same_waitq_init |]. apply same_waitq_init. by rewrite (same_waitq _ _ (same_waitq_init _ _ Hw)). }
  assert (reader_queue x = []) as Er by (unfold reader_queue; cbn [x pst_kernel pst_pipe p' readers]; by rewrite (same_waitq _ _ Hsame)).
  assert (writer_queue x = []) as Ew by (unfold writer_queue; cbn [x pst_kernel pst_pipe p' writers]; by rewrite (same_waitq _ _ Hsame)).
  assert (reader_addrs x = [] /\ writer_addrs x = [] /\ writer_bytes x = []) as (E1 & E2 & E3) by (unfold reader_addrs, writer_addrs, writer_bytes; by rewrite Er, Ew).
  split; [| unfold stream; by rewrite E3]. split; [| by rewrite E3]. constructor; rewrite ?Er, ?Ew, ?E1, ?E2, ?app_nil_r; cbn [x pst_pipe pst_kernel p' pipe_size length]; try done.
  - cbn [x pst_kernel]. by rewrite <- Hsame.
  - split; cbn [p' pipe_size bytes_used read_index write_index]; [lia | lia | apply Zmod_0_l | symmetry; apply Zmod_0_l].
  - by intros t ?%elem_of_nil.
  - by intros t ?%elem_of_nil.
  - apply NoDup_seqZ.
  - intros H0%elem_of_seqZ. cbn [p' pipe_buffer pipe_size] in H0. lia.
  - intros a _. apply not_elem_of_nil.
  - lia.
  - lia.
Qed.

(** ** Flushing and counting *)

(** Nobody waits for more than the pipe holds. *)
Lemma pipe_flush_spec x :
  pipe_inv x -> caller_ok (pst_kernel x) K_NO_WAIT ->
  ∃ x', z_impl_k_pipe_flush x = Some x' /\ pipe_inv x' /\ stream x' = [] /\ reader_queue x' = reader_queue x /\ (∀ a, a ∉ region (pst_pipe x) -> pst_mem x' a = pst_mem x a).
Proof.
  intros Hx Hc. destruct (get_internal_ok x NULL (Z.to_nat UINT32_MAX) 0 K_NO_WAIT Hx Hc) as (res & r & x' & E & Hinv & H); [lia | done | done | done |]. rewrite Z2Nat.id in E by (unfold UINT32_MAX; lia).
  unfold z_impl_k_pipe_flush. rewrite E. exists x'. split; [done |]. split; [done |]. assert ((len (stream x) <? 0) = false) as E0 by (apply Z.ltb_ge; lia). rewrite E0 in H. cbn [andb] in H.
  rewrite Z.eqb_refl, orb_true_r in H. destruct H as ([_ G1 _ G3 _] & _ & _ & Hr & _). split; [| split; [done | intros a Ha; apply G3; [done | by left]]]. rewrite G1. apply drop_ge.
  pose proof (pi_wtotal _ (pi_mid _ Hx)) as Ht. unfold stream. rewrite length_app. unfold writer_bytes. rewrite gather_length. fold (writer_addrs x). unfold ring_bytes. rewrite length_fmap.
  pose proof (used_length _ (pi_ring _ (pi_mid _ Hx))). destruct (pi_ring _ (pi_mid _ Hx)). unfold UINT32_MAX. lia.
Qed.

(** Flushing the buffer drops what is in the ring, not what writers wait with. *)
Lemma pipe_buffer_flush_spec x :
  pipe_inv x -> caller_ok (pst_kernel x) K_NO_WAIT ->
  ∃ x', z_impl_k_pipe_buffer_flush x = Some x' /\ pipe_inv x' /\ stream x' = writer_bytes x.
Proof.
  intros Hx Hc. pose proof (pi_ring _ (pi_mid _ Hx)) as Hp. pose proof (used_length _ Hp) as Hu. unfold z_impl_k_pipe_buffer_flush. assert (length (ring_bytes x) = length (used_addrs (pst_pipe x))) as Hl by (unfold ring_bytes; by rewrite length_fmap).
  destruct (Z.eqb_spec (pipe_buffer (pst_pipe x)) NULL) as [E | Hb]; cbn [negb].
  { exists x. split; [done |]. split; [done |]. unfold stream. destruct (decide (pipe_size (pst_pipe x) = 0)) as [Ez | Ez].
    - assert (ring_bytes x = []) as -> by (apply nil_length_inv; destruct Hp; lia). done.
    - exfalso. apply (pi_null _ (pi_mid _ Hx)), elem_of_app. left. apply elem_of_seqZ. unfold NULL in E. destruct Hp. lia. }
  destruct (get_internal_ok x NULL (Z.to_nat (pipe_size (pst_pipe x))) 0 K_NO_WAIT Hx Hc) as (res & r & x' & E & Hinv & H); [lia | done | done | done |]. rewrite Z2Nat.id in E by (destruct Hp; lia).
  rewrite E. exists x'. split; [done |]. split; [done |]. assert ((len (stream x) <? 0) = false) as E0 by (apply Z.ltb_ge; lia). rewrite E0 in H. cbn [andb] in H.
  rewrite Z.eqb_refl, orb_true_r in H. destruct H as ([_ G1 _ _ _] & _). rewrite G1. unfold stream. rewrite length_app. destruct (decide (writer_bytes x = [])) as [Ew | Ew].
  - rewrite Ew, app_nil_r. apply drop_ge. simpl. destruct Hp. lia.
  - pose proof (pi_full _ Hx Ew). rewrite drop_app. replace (drop _ (ring_bytes x)) with (@nil Z) by (symmetry; apply drop_ge; destruct Hp; lia). cbn [app].
    replace (_ - _)%nat with 0%nat by (destruct Hp; lia). done.
Qed.

Lemma pipe_avail_spec x :
  pipe_inv x -> z_impl_k_pipe_read_avail (pst_pipe x) = len (ring_bytes x) /\ z_impl_k_pipe_write_avail (pst_pipe x) = len (free_addrs (pst_pipe x)).
Proof.
  intros Hx. pose proof (pi_ring _ (pi_mid _ Hx)) as Hp. rewrite (free_length _ Hp). assert (len (ring_bytes x) = bytes_used (pst_pipe x)) as -> by (unfold ring_bytes; rewrite length_fmap; by apply used_length).
  pose proof (pi_null _ (pi_mid _ Hx)) as H0. set (p := pst_pipe x) in *. destruct Hp as [Hs Hu Hr Hw]. unfold z_impl_k_pipe_read_avail, z_impl_k_pipe_write_avail.
  destruct (Z.eqb_spec (pipe_size p) 0) as [Ez | Ez]; [rewrite orb_true_r; lia |]. rewrite orb_false_r. destruct (Z.eqb_spec (pipe_buffer p) NULL) as [E | _].
  { destruct H0. apply elem_of_app. left. apply elem_of_seqZ. unfold NULL in E. lia. }
  assert (0 <= read_index p < pipe_size p) as Hrb by (rewrite <- Hr; apply Z.mod_pos_bound; lia).
  rewrite (Z.eqb_sym (write_index p)). destruct (Z.eqb_spec (read_index p) (write_index p)) as [E | E]; [done |].
  destruct (decide (read_index p + bytes_used p < pipe_size p)) as [Hlt | Hge].
  - rewrite Z.mod_small in Hw by lia. rewrite (proj2 (Z.ltb_lt (read_index p) _)), (proj2 (Z.ltb_ge (write_index p) _)) by lia. lia.
  - assert (write_index p = read_index p + bytes_used p - pipe_size p) as Hw' by (rewrite Hw; symmetry; apply Z.mod_unique with 1; lia).
    rewrite (proj2 (Z.ltb_ge (read_index p) _)), (proj2 (Z.ltb_lt (write_index p) _)) by lia. lia.
Qed.

(** ** Many callers *)

(** The bytes the writers [l] wait with. *)
Definition bytes_of x (l : list tid) : list Z := gather (desc_bytes (pst_mem x) (pst_descs x)) l.

(** What may happen between two calls: other threads run and use their own
    memory, and waiting readers and writers may give up. *)
Record pipe_env x x' : Prop := {
  en_pipe : pst_pipe x' = pst_pipe x;
  en_mem : ∀ a, a ∈ region (pst_pipe x) ++ writer_addrs x' -> pst_mem x' a = pst_mem x a;
  en_sched : sched_inv ∅ (pst_kernel x');
  en_writers : writer_queue x' `sublist_of` writer_queue x;
  en_readers : reader_queue x' `sublist_of` reader_queue x;
  en_waiters : ∀ t, t ∈ reader_queue x' ++ writer_queue x' ->
    pst_descs x' (DThread t) = pst_descs x (DThread t) /\ swap_data (thr (pst_kernel x') t) = swap_data (thr (pst_kernel x) t)
}.

Lemma sublist_elem {A} (l l' : list A) a : l `sublist_of` l' -> a ∈ l -> a ∈ l'.
Proof. induction 1 as [| b l l' _ IH | b l l' _ IH]; rewrite ?elem_of_cons; naive_solver. Qed.

Lemma gather_sublist f l l' : l `sublist_of` l' -> gather f l `sublist_of` gather f l'.
Proof. induction 1 as [| t l l' _ IH | t l l' _ IH]; [done | rewrite !gather_cons; by apply sublist_app | rewrite gather_cons; by apply sublist_inserts_l]. Qed.

Lemma env_ok x x' :
  pipe_inv x -> pipe_env x x' -> pipe_inv x' /\ ring_bytes x' = ring_bytes x /\ writer_bytes x' = bytes_of x (writer_queue x').
Proof.
  intros [[I1 I2 I3 I4 I5 I6 I7 I8 I9 I10 I11] I12] [N1 N2 N3 N4 N5 N6].
  assert (∀ t, t ∈ reader_queue x' ++ writer_queue x' -> desc_addrs (pst_descs x') t = desc_addrs (pst_descs x) t) as Ha by (intros t Ht; unfold desc_addrs; by destruct (N6 t Ht) as [-> _]).
  assert (∀ t, t ∈ reader_queue x' ++ writer_queue x' -> t ∈ reader_queue x ++ writer_queue x) as Hsub.
  { intros t. rewrite !elem_of_app. intros [Ht | Ht]; [left | right]; by eapply sublist_elem. }
  assert (writer_addrs x' = gather (desc_addrs (pst_descs x)) (writer_queue x')) as Ew0.
  { unfold writer_addrs. apply gather_ext. intros t Ht. apply Ha, elem_of_app. by right. }
  assert (writer_addrs x' `sublist_of` writer_addrs x) as Ew by (rewrite Ew0; by apply gather_sublist).
  assert (reader_addrs x' `sublist_of` reader_addrs x) as Er.
  { unfold reader_addrs. rewrite (gather_ext _ (desc_addrs (pst_descs x))); [by apply gather_sublist |]. intros t Ht. apply Ha, elem_of_app. by left. }
  assert (ring_bytes x' = ring_bytes x) as Eb.
  { unfold ring_bytes. rewrite N1. apply fmap_same. intros a Hin. apply N2, elem_of_app. left. apply (ring_apart _ I2). by left. }
  assert (writer_bytes x' = bytes_of x (writer_queue x')) as Eb'.
  { unfold writer_bytes, bytes_of. rewrite !gather_fmap, <- Ew0. change (gather _ (writer_queue x')) with (writer_addrs x'). apply fmap_same. intros a Hin. apply N2, elem_of_app. by right. }
  assert (bytes_of x (writer_queue x') `sublist_of` writer_bytes x) as Ebs by (by apply gather_sublist).
  assert (∀ a, a ∈ region (pst_pipe x) ++ reader_addrs x' -> a ∈ region (pst_pipe x) ++ reader_addrs x) as Hin.
  { intros a. rewrite !elem_of_app. intros [| H]; [by left | right; by eapply sublist_elem]. }
  split; [| done]. split. 2: { rewrite Eb', N1. intros Hne. apply I12. intros E. rewrite E in Ebs. by apply sublist_nil_r in Ebs. }
  constructor; rewrite ?N1; try done.
  - intros t Ht. destruct (N6 t Ht) as [-> ->]. by apply I4, Hsub.
  - intros t Ht. rewrite Ha by (apply elem_of_app; by left). apply I5. by eapply sublist_elem.
  - eapply sublist_NoDup; [exact I6 |]. by apply sublist_app.
  - intros H0. by apply I7, Hin.
  - intros a H0 H1. apply (I8 a); [by apply Hin | by eapply sublist_elem].
  - intros Hr. destruct I9 as [I9 I9']. { intros E. rewrite E in N5. apply Hr. by apply sublist_nil_r in N5. }
    rewrite I9' in N4. apply sublist_nil_r in N4. unfold stream in *. apply app_nil in I9 as [I9 _].
    rewrite Eb, I9, Eb', N4. done.
  - apply sublist_length in Er. lia.
  - apply sublist_length in Ew. lia.
Qed.

(** The bytes a call has stored where waiting readers asked for them. *)
Definition served x x' : list Z := pst_mem x' <$> take (length (reader_addrs x) - length (reader_addrs x')) (reader_addrs x).

(** The bytes a put has handed over: those it reports, or all if it waits to
    hand over the rest. *)
Definition put_count (n : nat) (res : outcome) (bytes_written : option Z) : nat :=
  match res with Blocks => n | Returns _ => Z.to_nat (default 0 bytes_written) end.

(** The bytes a get has stored: those it reports, or those it no longer waits
    for. *)
Definition get_count (n : nat) (res : outcome) (bytes_read : option Z) (left : Z) : nat :=
  match res with Blocks => (n - Z.to_nat left)%nat | Returns _ => Z.to_nat (default 0 bytes_read) end.

(** The threads of a queue that [t] goes ahead of. *)
Fixpoint overtaken (th : tid -> k_thread) (t : tid) (l : list tid) : list tid :=
  match l with
  | [] => []
  | u :: l' => if z_sched_prio_cmp (th t) (th u) >? 0 then l else overtaken th t l'
  end.

(** The bytes sent once [new] have been sent ahead of the last [j]. *)
Definition send_ahead (j : nat) (new sent : list Z) : list Z :=
  take (length sent - j) sent ++ new ++ drop (length sent - j) sent.

(** The writers [l] are those that have not given up: the others have not sent
    the bytes they still wait with. *)
Definition withdraw x (l : list tid) (sent : list Z) : list Z :=
  take (length sent - length (writer_bytes x)) sent ++ bytes_of x l.

(** The bytes of the writers the caller of a put would go ahead of. *)
Definition put_ahead x : nat :=
  length (bytes_of x (overtaken (thr (pst_kernel x)) (current (pst_kernel x)) (writer_queue x))).

(** One step of a run, with all the bytes sent and received so far.  The bytes
    of a put come after those sent before, but for the bytes that writers of
    lower priority still wait with; a writer that gives up has not sent the
    bytes it still waits with. *)
Inductive pipe_step : pipe_state * list Z * list Z -> pipe_state * list Z * list Z -> Prop :=
  | step_put x sent rcvd data n min_xfer timeout res w x' :
      caller_ok (pst_kernel x) timeout ->
      (∀ a, data <= a < data + Z.of_nat n -> a ∉ region (pst_pipe x) ++ reader_addrs x) ->
      (timeout <> K_NO_WAIT -> len (writer_addrs x) + Z.of_nat n + pipe_size (pst_pipe x) < 2 ^ 32) ->
      z_impl_k_pipe_put data (Z.of_nat n) min_xfer timeout x = Some (res, w, x') ->
      pipe_step (x, sent, rcvd)
        (x', send_ahead (put_ahead x) (take (put_count n res w) (read_bytes (pst_mem x) data n)) sent, rcvd ++ served x x')
  | step_get x sent rcvd dst n min_xfer timeout res r x' :
      caller_ok (pst_kernel x) timeout -> 0 < dst ->
      (∀ a, dst <= a < dst + Z.of_nat n -> a ∉ region (pst_pipe x) ++ reader_addrs x ++ writer_addrs x) ->
      (timeout <> K_NO_WAIT -> len (reader_addrs x) + Z.of_nat n + pipe_size (pst_pipe x) < 2 ^ 32) ->
      z_impl_k_pipe_get dst (Z.of_nat n) min_xfer timeout x = Some (res, r, x') ->
      pipe_step (x, sent, rcvd) (x', sent, rcvd ++ read_bytes (pst_mem x') dst (get_count n res r (d_bytes (pst_descs x' (DThread (current (pst_kernel x)))))))
  | step_env x sent rcvd x' : pipe_env x x' -> pipe_step (x, sent, rcvd) (x', withdraw x (writer_queue x') sent, rcvd).

Lemma fill_prefix m addrs bytes j :
  NoDup addrs -> (j <= length addrs)%nat -> (j <= length bytes)%nat -> fill m addrs bytes <$> take j addrs = take j bytes.
Proof.
  intros Hnd H1 H2. apply list_eq. intros i. rewrite list_lookup_fmap. destruct (decide (i < j)%nat) as [Hi | Hi].
  - rewrite !lookup_take_lt by done. destruct (lookup_lt_is_Some_2 addrs i) as [a Ha]; [lia |]. destruct (lookup_lt_is_Some_2 bytes i) as [b Hb]; [lia |].
    rewrite Ha, Hb. cbn. f_equal. by apply (fill_at m addrs bytes i).
  - by rewrite !lookup_take_ge by lia.
Qed.

Lemma put_served x x' data n k :
  pipe_inv x -> put_done k data n x x' -> k = (n `min` (length (reader_addrs x) + length (free_addrs (pst_pipe x))))%nat ->
  served x x' = take (length (reader_addrs x)) (take k (read_bytes (pst_mem x) data n)).
Proof.
  intros Hx [P0 P1 P2 P3 P4 P5] Hk. unfold served. rewrite P3, length_drop. replace (length (reader_addrs x) - (length (reader_addrs x) - k))%nat with (k `min` length (reader_addrs x))%nat by lia.
  set (j := (k `min` length (reader_addrs x))%nat). set (bs := read_bytes (pst_mem x) data n). assert (length bs = n) as Hl by apply read_bytes_length. rewrite take_take, Nat.min_comm. fold j.
  pose proof (pi_apart _ (pi_mid _ Hx)) as Hap. apply NoDup_app in Hap as (_ & A2 & A3). destruct (ring_apart _ (pi_ring _ (pi_mid _ Hx))) as (R1 & _ & R3).
  rewrite <- (fill_prefix (pst_mem x) (reader_addrs x ++ free_addrs (pst_pipe x)) bs j); [| | rewrite length_app; lia | lia].
  - rewrite take_app_le by lia. apply list_fmap_ext. intros i a _. apply P1.
  - apply NoDup_app. split; [done |]. split; [| done]. intros a Ha Hf. apply (A2 a); [apply R3; by right | done].
Qed.

(** Readers wait on an empty pipe, writers on a full one. *)
Lemma put_sides x k n :
  pipe_inv x -> k = (n `min` (length (reader_addrs x) + length (free_addrs (pst_pipe x))))%nat ->
  (reader_addrs x = [] \/ stream x = []) /\ (writer_bytes x = [] \/ k = 0%nat).
Proof.
  intros Hx Hk. split.
  - destruct (decide (reader_queue x = [])) as [E | E]; [left; unfold reader_addrs; by rewrite E | right; by apply (pi_idle _ (pi_mid _ Hx))].
  - destruct (decide (writer_bytes x = [])) as [E | E]; [by left | right]. pose proof (pi_full _ Hx E) as Hf. pose proof (free_length _ (pi_ring _ (pi_mid _ Hx))).
    assert (reader_addrs x = []) as Er. { destruct (decide (reader_queue x = [])) as [E' | E']; [unfold reader_addrs; by rewrite E' |]. apply (pi_idle _ (pi_mid _ Hx)) in E' as [_ E']. destruct E. unfold writer_bytes. by rewrite E'. }
    rewrite Er in Hk. simpl in Hk. lia.
Qed.

Lemma send_ahead_app j new (a b : list Z) : length b = j -> send_ahead j new (a ++ b) = a ++ new ++ b.
Proof.
  intros <-. unfold send_ahead. rewrite length_app. replace (length a + length b - length b)%nat with (length a) by lia.
  by rewrite take_app_length, drop_app_length.
Qed.

Lemma send_ahead_nothing j sent : send_ahead j [] sent = sent.
Proof. unfold send_ahead. apply take_drop. Qed.

Lemma dumb_add_overtaken th l t :
  exists l1, l = l1 ++ overtaken th t l /\ z_priq_dumb_add th l t = l1 ++ t :: overtaken th t l.
Proof.
  induction l as [| u l (l1 & E1 & E2)]; simpl; [by exists [] |]. destruct (_ >? 0); [by exists [] |].
  exists (u :: l1). simpl. by rewrite <- E1, E2.
Qed.

Lemma put_step_fifo x sent rcvd data n min_xfer timeout res w x' :
  pipe_inv x -> sent = rcvd ++ stream x -> caller_ok (pst_kernel x) timeout ->
  (∀ a, data <= a < data + Z.of_nat n -> a ∉ region (pst_pipe x) ++ reader_addrs x) ->
  (timeout <> K_NO_WAIT -> len (writer_addrs x) + Z.of_nat n + pipe_size (pst_pipe x) < 2 ^ 32) ->
  z_impl_k_pipe_put data (Z.of_nat n) min_xfer timeout x = Some (res, w, x') ->
  pipe_inv x' /\ send_ahead (put_ahead x) (take (put_count n res w) (read_bytes (pst_mem x) data n)) sent = (rcvd ++ served x x') ++ stream x'.
Proof.
  intros Hx -> Hc Hsrc Htot E. set (bs := read_bytes (pst_mem x) data n). assert (length bs = n) as Hl by apply read_bytes_length. destruct (Z.ltb_spec (Z.of_nat n) min_xfer) as [Hlt | Hmin].
  { unfold z_impl_k_pipe_put in E. rewrite Z.gtb_ltb, (proj2 (Z.ltb_lt _ _) Hlt) in E. injection E as <- <- <-. split; [done |]. unfold served. rewrite Nat.sub_diag. cbn [put_count default Z.to_nat take]. rewrite send_ahead_nothing. cbn. by rewrite !app_nil_r. }
  destruct (put_ok x data n min_xfer timeout Hx Hc Hmin Hsrc Htot) as (res' & w' & x1 & E1 & Hinv & H). rewrite E in E1. injection E1 as <- <- <-. split; [done |]. set (room := (length (reader_addrs x) + length (free_addrs (pst_pipe x)))%nat) in *. set (k := (n `min` room)%nat) in *.
  destruct (_ && _).
  { destruct H as (-> & -> & Hv & _). destruct (view_addrs _ _ Hv) as (V1 & _ & V3 & V4). unfold served, stream. rewrite V1, V3, V4, Nat.sub_diag. cbn [put_count default Z.to_nat take]. rewrite send_ahead_nothing. cbn. by rewrite !app_nil_r. }
  destruct H as [Hd H]. rewrite (put_served x x' data n k Hx Hd eq_refl). fold bs. destruct Hd as [P0 P1 P2 P3 P4 P5]. fold bs in P2. destruct (put_sides x k n Hx eq_refl) as [S1 S2]. unfold stream at 2. rewrite P2.
  destruct (dumb_add_overtaken (thr (pst_kernel x)) (writer_queue x) (current (pst_kernel x))) as (l1 & El1 & El2).
  set (l2 := overtaken _ _ _) in *. set (ga := bytes_of x l1). set (gb := bytes_of x l2).
  assert (writer_bytes x = ga ++ gb) as Ew by (unfold writer_bytes, ga, gb, bytes_of; rewrite El1; apply gather_app).
  (* the bytes that go through at once, with [ga] and [gb] around what waits *)
  assert (∀ wb, send_ahead (length gb) (take k bs ++ wb) (rcvd ++ stream x) =
    (rcvd ++ take (length (reader_addrs x)) (take k bs)) ++ (ring_bytes x ++ drop (length (reader_addrs x)) (take k bs)) ++ ga ++ wb ++ gb) as Hcat.
  { intros wb. unfold stream. rewrite Ew, !app_assoc, send_ahead_app by done. rewrite <- !app_assoc. f_equal.
    unfold stream in S1. rewrite Ew in S1, S2. destruct S2 as [[-> ->]%app_nil | Ek].
    - cbn [app]. rewrite !app_nil_r. rewrite <- (take_drop (length (reader_addrs x)) (take k bs)) at 1. destruct S1 as [-> | [-> _]%app_nil]; cbn [length take app]; by rewrite <- ?app_assoc.
    - rewrite Ek, take_0, take_nil, drop_nil. cbn [app]. by rewrite ?app_nil_r, <- ?app_assoc. }
  change (put_ahead x) with (length gb). destruct (_ || _ || _) eqn:Eret.
  - destruct H as (-> & -> & Hq). change (put_count n (Returns 0) (Some (Z.of_nat k))) with (Z.to_nat (Z.of_nat k)). rewrite Nat2Z.id. assert (writer_bytes x' = writer_bytes x) as -> by (unfold writer_bytes; rewrite Hq; by apply gather_ext).
    specialize (Hcat []). rewrite app_nil_r in Hcat. rewrite Hcat, Ew. done.
  - destruct H as (-> & -> & Hq & Hcd). cbn [put_count]. rewrite take_ge by lia. rewrite <- (take_drop k bs) at 1. rewrite Hcat. do 2 f_equal.
    unfold writer_bytes. rewrite Hq, El2, gather_app, gather_cons, Hcd. unfold ga, gb, bytes_of.
    f_equal; [| f_equal]; apply gather_ext; intros u Hu; symmetry; apply P5; rewrite El1; apply elem_of_app; tauto.
Qed.

Lemma get_step_fifo x sent rcvd dst n min_xfer timeout res r x' :
  pipe_inv x -> sent = rcvd ++ stream x -> caller_ok (pst_kernel x) timeout -> 0 < dst ->
  (∀ a, dst <= a < dst + Z.of_nat n -> a ∉ region (pst_pipe x) ++ reader_addrs x ++ writer_addrs x) ->
  (timeout <> K_NO_WAIT -> len (reader_addrs x) + Z.of_nat n + pipe_size (pst_pipe x) < 2 ^ 32) ->
  z_impl_k_pipe_get dst (Z.of_nat n) min_xfer timeout x = Some (res, r, x') ->
  pipe_inv x' /\ sent = (rcvd ++ read_bytes (pst_mem x') dst (get_count n res r (d_bytes (pst_descs x' (DThread (current (pst_kernel x))))))) ++ stream x'.
Proof.
  intros Hx -> Hc Hpos Hdst Htot E. unfold z_impl_k_pipe_get in E. rewrite Z.gtb_ltb in E. destruct (Z.ltb_spec (Z.of_nat n) min_xfer) as [Hlt | Hmin].
  { injection E as <- <- <-. split; [done |]. cbn. by rewrite app_nil_r. }
  assert (dst <> NULL) as H0 by (unfold NULL; lia). destruct (get_internal_ok x dst n min_xfer timeout Hx Hc Hmin ltac:(lia) (λ _, Hdst)) as (res' & r' & x1 & E1 & Hinv & H); [intros Hto; split; [done | by apply Htot] |].
  rewrite E in E1. injection E1 as <- <- <-. split; [done |]. set (k := (n `min` length (stream x))%nat) in *. destruct (_ && _).
  { destruct H as (-> & -> & Hv & _). destruct (view_addrs _ _ Hv) as (_ & _ & V3 & V4). unfold stream. rewrite V3, V4. cbn. by rewrite app_nil_r. }
  destruct H as [[_ G1 G2 _ _] H]. assert (get_count n res r (d_bytes (pst_descs x' (DThread (current (pst_kernel x))))) = k) as ->.
  { destruct (_ || _ || _); destruct H as (-> & -> & _ & Hd); [change (get_count n (Returns 0) (Some (Z.of_nat k)) ?d) with (Z.to_nat (Z.of_nat k)); apply Nat2Z.id | cbn [get_count]]. apply (f_equal length) in Hd. unfold desc_addrs in Hd. rewrite !length_seqZ in Hd. lia. }
  by rewrite G2, G1, <- app_assoc, take_drop by done.
Qed.

(** C8: A pipe is a first-in first-out stream.  In every run of puts and gets
    by threads that wait or do not, with readers and writers giving up and other
    activity of the kernel in between, the bytes received so far followed by
    those in the pipe (the ring, then the waiting writers) are the bytes sent:
    none is lost, made up, duplicated or reordered.  The bytes sent are in the
    order of the puts, except that a writer goes ahead of what writers of lower
    priority still wait with; a put has sent the bytes it reports, or all of
    them while it waits; a writer that gives up has not sent those it waited
    with.  The buffers of the callers lie apart from the ring and from the
    buffers of those waiting, and the rest of the kernel leaves them alone. *)
Theorem pipe_fifo x0 x sent rcvd :
  pipe_inv x0 -> rtc pipe_step (x0, stream x0, []) (x, sent, rcvd) -> pipe_inv x /\ sent = rcvd ++ stream x.
Proof.
  intros Hx0 Hrun. assert (∀ y z, rtc pipe_step y z -> pipe_inv y.1.1 /\ y.1.2 = y.2 ++ stream y.1.1 -> pipe_inv z.1.1 /\ z.1.2 = z.2 ++ stream z.1.1) as Hall.
  { induction 1 as [y | y z v Hs _ IH]; [done |]. intros [Hy Hst]. apply IH. clear IH. destruct Hs; cbn [fst snd] in *.
    - by eapply put_step_fifo.
    - by eapply get_step_fifo.
    - destruct (env_ok x1 x' Hy) as (H1 & H2 & H3); [done |]. split; [done |].
      unfold withdraw, stream in *. rewrite Hst, H2, H3, (app_assoc rcvd0), length_app.
      match goal with |- context [(?a + ?b - ?b)%nat] => replace (a + b - b)%nat with a by lia end. by rewrite take_app_length, <- app_assoc. }
  by apply (Hall _ _ Hrun).
Qed.

(** ** The calls on every branch *)

(** C33: [k_pipe_put] on every branch.  It moves as many bytes as the waiting
    readers and the ring have room for, to the readers first, in the order
    they are served; the readers that got all they wanted are woken.  It fails
    with [-EIO] and changes nothing if it may not wait and there is no room for
    [min_xfer] bytes, and with [-EINVAL] if it asks for more than it sends.
    It returns the number of bytes moved, or waits with the rest, in the place
    of its priority among the writers, the readers and the ring being served
    to the full. *)
Theorem pipe_put_spec x data n min_xfer timeout :
  pipe_inv x -> caller_ok (pst_kernel x) timeout ->
  (∀ a, data <= a < data + Z.of_nat n -> a ∉ region (pst_pipe x) ++ reader_addrs x) ->
  (timeout <> K_NO_WAIT -> len (writer_addrs x) + Z.of_nat n + pipe_size (pst_pipe x) < 2 ^ 32) ->
  let r := z_impl_k_pipe_put data (Z.of_nat n) min_xfer timeout x in
  if Z.of_nat n <? min_xfer then r = Some (Returns (- EINVAL), None, x) else put_result data n min_xfer timeout x r.
Proof.
  intros Hx Hc Hsrc Htot r. destruct (Z.ltb_spec (Z.of_nat n) min_xfer) as [Hlt | Hmin]; [| by apply put_ok].
  unfold r, z_impl_k_pipe_put. by rewrite Z.gtb_ltb, (proj2 (Z.ltb_lt _ _) Hlt).
Qed.

(** C34: [k_pipe_get] on every branch.  It takes the first bytes of the stream,
    the ring's and then the waiting writers', into the caller's buffer and
    changes no other memory but the ring; the writers it looked at that have
    nothing left are woken, and the ring is refilled from the others, so that
    writers go on waiting with bytes only on a full ring.  It fails with
    [-EIO] and changes nothing if it may not wait and there are fewer than
    [min_xfer] bytes.  It returns the number of bytes taken, or waits for the
    rest, in the place of its priority among the readers, the pipe being
    empty. *)
Theorem pipe_get_spec x dst n min_xfer timeout :
  pipe_inv x -> caller_ok (pst_kernel x) timeout -> 0 <= dst ->
  (dst <> NULL -> ∀ a, dst <= a < dst + Z.of_nat n -> a ∉ region (pst_pipe x) ++ reader_addrs x ++ writer_addrs x) ->
  (timeout <> K_NO_WAIT -> 0 < dst /\ len (reader_addrs x) + Z.of_nat n + pipe_size (pst_pipe x) < 2 ^ 32) ->
  let r := z_impl_k_pipe_get dst (Z.of_nat n) min_xfer timeout x in
  if Z.of_nat n <? min_xfer then r = Some (Returns (- EINVAL), None, x) else get_result dst n min_xfer timeout x r.
Proof.
  intros Hx Hc Hd Hdst Htot r. unfold r, z_impl_k_pipe_get. rewrite Z.gtb_ltb. destruct (Z.ltb_spec (Z.of_nat n) min_xfer) as [Hlt | Hmin]; [done | by apply get_internal_ok].
Qed.

(** C35: A get that makes room for the bytes of a waiting writer moves them
    into the ring but does not wake the writer: it goes on waiting although
    nothing is left of its request. *)
Theorem pipe_refill_strands_writer x dst n t :
  pipe_inv x -> caller_ok (pst_kernel x) K_NO_WAIT -> 0 < dst ->
  (∀ a, dst <= a < dst + Z.of_nat n -> a ∉ region (pst_pipe x) ++ reader_addrs x ++ writer_addrs x) ->
  writer_queue x = [t] -> (0 < length (writer_bytes x) <= n)%nat -> (n <= length (ring_bytes x))%nat ->
  ∃ x', z_impl_k_pipe_get dst (Z.of_nat n) 0 K_NO_WAIT x = Some (Returns 0, Some (Z.of_nat n), x') /\
    d_bytes (pst_descs x' (DThread t)) = 0 /\ pended_on (thr (pst_kernel x') t) = Some (writers (pst_pipe x')).
Proof.
  intros Hx Hc Hpos Hdst Hq Hw Hn. unfold z_impl_k_pipe_get. rewrite Z.gtb_ltb, (proj2 (Z.ltb_ge _ _)) by lia.
  destruct (get_internal_ok x dst n 0 K_NO_WAIT Hx Hc ltac:(lia) ltac:(lia) (λ _, Hdst)) as (res & r & x' & E & Hinv & H); [done |]. assert (length (stream x) = length (ring_bytes x) + length (writer_bytes x))%nat as El by (unfold stream; apply length_app).
  replace (n `min` length (stream x))%nat with n in H by lia. rewrite (proj2 (Z.ltb_ge _ _)), Nat.eqb_refl in H by lia. cbn [andb orb] in H. destruct H as ([(_ & Hsz & _) G1 _ _ G4] & -> & -> & _).
  exists x'. split; [done |]. assert (writer_queue x' = [t]) as Hq'.
  { rewrite G4, Hq. apply filter_keep. intros u ->%list_elem_of_singleton. unfold get_wakes. replace (n - length (ring_bytes x))%nat with 0%nat by lia. rewrite Hq.
    assert (desc_bytes (pst_mem x) (pst_descs x) t = writer_bytes x) as Ed by (unfold writer_bytes; rewrite Hq; symmetry; apply app_nil_r). cbn [visited].
    assert (∀ b : bool, (if b then [] else []) = ([] : list tid)) as -> by (by intros []). rewrite waiting_cons. cbn [emptied_by]. rewrite Ed, (proj2 (Nat.leb_gt _ _)) by lia. apply not_elem_of_nil. }
  assert (writer_bytes x' = desc_bytes (pst_mem x') (pst_descs x') t) as Ed by (unfold writer_bytes; rewrite Hq'; apply app_nil_r).
  assert (t ∈ reader_queue x' ++ writer_queue x') as Hin by (rewrite Hq'; apply elem_of_app; right; by left). split.
  - destruct (pi_desc _ (pi_mid _ Hinv) t Hin) as (_ & _ & H0). assert (writer_bytes x' = []) as Ew; [| rewrite Ew in Ed; apply (f_equal length) in Ed; unfold desc_bytes, desc_addrs in Ed; rewrite length_fmap, length_seqZ in Ed; simpl in Ed; lia].
    destruct (decide (writer_bytes x' = [])) as [| Hne]; [done |]. pose proof (pi_full _ Hinv Hne) as Hf. apply (f_equal length) in G1. rewrite length_drop, El in G1. unfold stream in G1. rewrite length_app in G1.
    assert (length (writer_bytes x') <> 0)%nat as Hnz by (by intros E0%nil_length_inv). unfold ring_bytes in G1, Hn. rewrite !length_fmap in G1. rewrite length_fmap in Hn.
    pose proof (used_length _ (pi_ring _ (pi_mid _ Hinv))). pose proof (used_length _ (pi_ring _ (pi_mid _ Hx))). destruct (pi_ring _ (pi_mid _ Hx)).
    lia.
  - apply (inv_waitq _ _ (pi_sched _ (pi_mid _ Hinv))). change (t ∈ writer_queue x'). rewrite Hq'. by left.
Qed.

End Run.

(** ** A concrete run

    Thread 2 sends six bytes through a ring of four and waits with the last
    two; thread 3 takes three. *)

#[local] Existing Instance default_kconfig | 100.

Definition pipe_start : k_pipe * z_kernel := k_pipe_init (mk_pipe 0 0 0 0 0 (inr 5%nat) (inr 6%nat) 0) 100 4 two_threads.
Definition pipe_mem : mem := λ a, a mod 256.
Definition pipe_x0 : pipe_state := mk_pstate pipe_start.1 pipe_mem (λ _, mk_desc 0 0 None) pipe_start.2.
Definition pipe_x1 : pipe_state := match z_impl_k_pipe_put 10 6 6 K_FOREVER pipe_x0 with Some (_, _, x) => x | None => pipe_x0 end.

Lemma pipe_x0_inv : pipe_inv pipe_x0 /\ stream pipe_x0 = [].
Proof.
  pose proof (pipe_init_inv (mk_pipe 0 0 0 0 0 (inr 5%nat) (inr 6%nat) 0) 100 4 pipe_mem (λ _, mk_desc 0 0 None) two_threads two_threads_inv) as H.
  unfold pipe_x0, pipe_start. destruct (k_pipe_init _ _ _ _) as [p s]. apply H; by_compute.
Qed.

Lemma pipe_x0_caller : caller_ok (pst_kernel pipe_x0) K_FOREVER.
Proof. assert (arch_is_in_isr (pst_kernel pipe_x0) = false) as E by (vm_compute; reflexivity). unfold caller_ok. rewrite E. split; [by_compute | by split]. Qed.

Lemma pipe_x0_apart a : 10 <= a < 10 + 6 -> a ∉ region (pst_pipe pipe_x0) ++ reader_addrs pipe_x0.
Proof.
  assert (region (pst_pipe pipe_x0) ++ reader_addrs pipe_x0 = seqZ 100 4) as -> by (vm_compute; reflexivity). rewrite elem_of_seqZ. lia.
Qed.

Lemma pipe_x0_total : len (writer_addrs pipe_x0) + Z.of_nat 6 + pipe_size (pst_pipe pipe_x0) < 2 ^ 32.
Proof. vm_compute. reflexivity. Qed.

Lemma pipe_x1_eq : z_impl_k_pipe_put 10 (Z.of_nat 6) 6 K_FOREVER pipe_x0 = Some (Blocks, None, pipe_x1).
Proof.
  assert ((λ '(o, w, _), (o, w)) <$> z_impl_k_pipe_put 10 6 6 K_FOREVER pipe_x0 = Some (Blocks, None)) as H by (vm_compute; reflexivity).
  unfold pipe_x1. change (Z.of_nat 6) with 6. destruct (z_impl_k_pipe_put 10 6 6 K_FOREVER pipe_x0) as [[[o w] x] |]; [| discriminate H]. cbn in H. injection H as -> ->. reflexivity.
Qed.

Lemma some_third {A B C} (a a' : A) (b b' : B) (c c' : C) : Some (a, b, c) = Some (a', b', c') -> c = c'.
Proof. congruence. Qed.

Lemma pipe_x1_inv : pipe_inv pipe_x1.
Proof.
  destruct (put_ok pipe_x0 10 6 6 K_FOREVER (proj1 pipe_x0_inv) pipe_x0_caller ltac:(lia) pipe_x0_apart (λ _, pipe_x0_total)) as (o & w & x & E & Hi & _).
  rewrite pipe_x1_eq in E. rewrite (some_third _ _ _ _ _ _ E). exact Hi.
Qed.

Lemma pipe_x1_caller : caller_ok (pst_kernel pipe_x1) K_NO_WAIT.
Proof. assert (arch_is_in_isr (pst_kernel pipe_x1) = false) as E by (vm_compute; reflexivity). unfold caller_ok. rewrite E. split; [by_compute | by split]. Qed.

Lemma pipe_x1_views :
  region (pst_pipe pipe_x1) ++ reader_addrs pipe_x1 ++ writer_addrs pipe_x1 = [100; 101; 102; 103; 14; 15] /\
  writer_queue pipe_x1 = [2%nat] /\ ring_bytes pipe_x1 = [10; 11; 12; 13] /\ writer_bytes pipe_x1 = [14; 15].
Proof. repeat split; vm_compute; reflexivity. Qed.

Lemma pipe_x1_apart a : 200 <= a < 200 + 3 -> a ∉ region (pst_pipe pipe_x1) ++ reader_addrs pipe_x1 ++ writer_addrs pipe_x1.
Proof. destruct pipe_x1_views as (-> & _). intros Ha Hin. rewrite !elem_of_cons in Hin. destruct Hin as [| [| [| [| [| [| Hin]]]]]]; [lia .. | by apply elem_of_nil in Hin]. Qed.

Lemma pipe_put_spec_witness : put_result 10 6 6 K_FOREVER pipe_x0 (Some (Blocks, None, pipe_x1)).
Proof.
  pose proof (pipe_put_spec pipe_x0 10 6 6 K_FOREVER (proj1 pipe_x0_inv) pipe_x0_caller pipe_x0_apart (λ _, pipe_x0_total)) as H. cbv zeta in H. rewrite pipe_x1_eq in H. exact H.
Defined.

Lemma pipe_get_spec_witness :
  ∃ x', z_impl_k_pipe_get 200 3 0 K_NO_WAIT pipe_x1 = Some (Returns 0, Some 3, x') /\ read_bytes (pst_mem x') 200 3 = [10; 11; 12] /\ stream x' = [13; 14; 15].
Proof.
  pose proof (pipe_get_spec pipe_x1 200 3 0 K_NO_WAIT pipe_x1_inv pipe_x1_caller ltac:(lia) (λ _, pipe_x1_apart)) as H. destruct H as (res & r & x' & E & _ & H); [intros N; destruct N; reflexivity |].
  assert (stream pipe_x1 = [10; 11; 12; 13; 14; 15]) as Es by (unfold stream; destruct pipe_x1_views as (_ & _ & -> & ->); reflexivity). rewrite Es in H. cbn in H. destruct H as ([_ G1 G2 _ _] & -> & -> & _).
  exists x'. split; [exact E |]. rewrite Es in G1, G2. split; [apply G2; discriminate | exact G1].
Defined.

Lemma pipe_refill_strands_writer_witness :
  ∃ x', z_impl_k_pipe_get 200 3 0 K_NO_WAIT pipe_x1 = Some (Returns 0, Some 3, x') /\
    d_bytes (pst_descs x' (DThread 2)) = 0 /\ pended_on (thr (pst_kernel x') 2) = Some (writers (pst_pipe x')).
Proof.
  destruct pipe_x1_views as (_ & V2 & V3 & V4). apply (pipe_refill_strands_writer pipe_x1 200 3 2 pipe_x1_inv pipe_x1_caller); [lia | exact pipe_x1_apart | exact V2 | rewrite V4; simpl; lia | rewrite V3; simpl; lia].
Defined.

Lemma pipe_fifo_witness :
  ∃ x' rcvd, rtc pipe_step (pipe_x0, [], []) (x', [10; 11; 12; 13; 14; 15], rcvd) /\ rcvd = [10; 11; 12] /\ [10; 11; 12; 13; 14; 15] = rcvd ++ stream x'.
Proof.
  destruct (get_internal_ok pipe_x1 200 3 0 K_NO_WAIT pipe_x1_inv pipe_x1_caller ltac:(lia) ltac:(lia) (λ _, pipe_x1_apart)) as (res & r & x' & E & _ & H); [intros N; destruct N; reflexivity |].
  assert (stream pipe_x1 = [10; 11; 12; 13; 14; 15]) as Es by (unfold stream; destruct pipe_x1_views as (_ & _ & -> & ->); reflexivity). rewrite Es in H. cbn in H. destruct H as ([_ G1 G2 _ _] & -> & -> & _). rewrite Es in G1, G2.
  assert (read_bytes (pst_mem x') 200 3 = [10; 11; 12]) as G3 by (apply G2; discriminate). exists x', [10; 11; 12].
  assert (rtc pipe_step (pipe_x0, [], []) (x', [10; 11; 12; 13; 14; 15], [10; 11; 12])) as Hrun.
  { eapply rtc_l; [apply (step_put pipe_x0 [] [] 10 6 6 K_FOREVER Blocks None pipe_x1 pipe_x0_caller pipe_x0_apart (λ _, pipe_x0_total)); exact pipe_x1_eq |].
    - assert (send_ahead (put_ahead pipe_x0) (take (put_count 6 Blocks None) (read_bytes (pst_mem pipe_x0) 10 6)) [] = [10; 11; 12; 13; 14; 15]) as -> by (vm_compute; reflexivity).
      assert ([] ++ served pipe_x0 pipe_x1 = []) as -> by (vm_compute; reflexivity). apply rtc_once.
      pose proof (step_get pipe_x1 [10; 11; 12; 13; 14; 15] [] 200 3 0 K_NO_WAIT (Returns 0) (Some 3) x' pipe_x1_caller ltac:(lia) pipe_x1_apart ltac:(intros N; destruct N; reflexivity) E) as Hs.
      change (get_count 3 (Returns 0) (Some 3) ?d) with 3%nat in Hs. rewrite G3 in Hs. exact Hs. }
  split; [exact Hrun |]. split; [reflexivity |]. destruct pipe_x0_inv as [Hi H0]. rewrite <- H0 in Hrun at 1. apply (pipe_fifo pipe_x0 x' _ _ Hi Hrun).
Defined.
