(* ===== verification/Work.v ===== *)
(** * Work queues (kernel/work.c, kernel/system_work_q.c)

    Work items, delayable items, queues and the thread that animates a queue,
    flushing and cancellation.  The module's spin lock serialises the critical
    sections, so each is one function on [work_sys]; a call that sleeps is
    modelled up to the switch.  The loop of a queue thread is cut at the call
    of the handler into [work_queue_take] and [work_queue_done]. *)

From Stdlib Require Import ZArith Lia Bool.
From stdpp Require Import base numbers functions list gmap sets.
From S2P Require Import Prelude TimeoutQ Kernel PrioQ Sched SchedInv SchedOps Threads WaitApi Sem.

Open Scope Z_scope.

Definition ENODEV : Z := 19.

(** ** Flags: an enumeration of bits with distinct positions in a [uint32_t] *)

Class FlagEnum (B : Type) := {
  bit_pos : B -> Z;
  bit_pos_inj : ∀ a b, bit_pos a = bit_pos b -> a = b;
  bit_pos_range : ∀ b, 0 <= bit_pos b < 32
}.

Inductive work_bit :=
  | K_WORK_RUNNING_BIT | K_WORK_CANCELING_BIT | K_WORK_QUEUED_BIT | K_WORK_DELAYED_BIT | K_WORK_FLUSHING_BIT
  | K_WORK_DELAYABLE_BIT.

Inductive work_queue_bit :=
  | K_WORK_QUEUE_STARTED_BIT | K_WORK_QUEUE_BUSY_BIT | K_WORK_QUEUE_DRAIN_BIT | K_WORK_QUEUE_PLUGGED_BIT
  | K_WORK_QUEUE_NO_YIELD_BIT.

#[export] Instance work_bit_eq_dec : EqDecision work_bit.
Proof. solve_decision. Defined.
#[export] Instance work_queue_bit_eq_dec : EqDecision work_queue_bit.
Proof. solve_decision. Defined.

Definition work_bit_value (b : work_bit) : Z :=
  match b with
  | K_WORK_RUNNING_BIT => 0
  | K_WORK_CANCELING_BIT => 1
  | K_WORK_QUEUED_BIT => 2
  | K_WORK_DELAYED_BIT => 3
  | K_WORK_FLUSHING_BIT => 4
  | K_WORK_DELAYABLE_BIT => 8
  end.

Definition work_queue_bit_value (b : work_queue_bit) : Z :=
  match b with
  | K_WORK_QUEUE_STARTED_BIT => 0
  | K_WORK_QUEUE_BUSY_BIT => 1
  | K_WORK_QUEUE_DRAIN_BIT => 2
  | K_WORK_QUEUE_PLUGGED_BIT => 3
  | K_WORK_QUEUE_NO_YIELD_BIT => 8
  end.

#[export, program] Instance work_bits : FlagEnum work_bit := {| bit_pos := work_bit_value |}.
Next Obligation. by intros [] []. Qed.
Next Obligation. intros []; simpl; lia. Qed.

#[export, program] Instance work_queue_bits : FlagEnum work_queue_bit := {| bit_pos := work_queue_bit_value |}.
Next Obligation. by intros [] []. Qed.
Next Obligation. intros []; simpl; lia. Qed.

(** [K_WORK_RUNNING] and the other masks of one bit. *)
Definition mask {B} `{FlagEnum B} (b : B) : Z := BIT (bit_pos b).

Definition K_WORK_MASK : Z :=
  Z.lor (Z.lor (Z.lor (Z.lor (mask K_WORK_DELAYED_BIT) (mask K_WORK_QUEUED_BIT)) (mask K_WORK_RUNNING_BIT))
    (mask K_WORK_CANCELING_BIT)) (mask K_WORK_FLUSHING_BIT).

Definition flag_clear {B} `{FlagEnum B} (flags : Z) (bit : B) : Z := Prelude.flag_clear flags (mask bit).
Definition flag_set {B} `{FlagEnum B} (flags : Z) (bit : B) : Z := Prelude.flag_set flags (mask bit).
Definition flag_test {B} `{FlagEnum B} (flags : Z) (bit : B) : bool := flag_any flags (mask bit).

Definition flag_test_and_clear {B} `{FlagEnum B} (flags : Z) (bit : B) : bool * Z :=
  (flag_test flags bit, flag_clear flags bit).

(** ** The objects *)

(** A [struct k_work] is an item of the program (on its own or in a
    [struct k_work_delayable]) or the one in the flusher of a sync object. *)
Inductive work_id := Item (i : nat) | Flusher (y : nat).

#[export] Instance work_id_eq_dec : EqDecision work_id.
Proof. solve_decision. Defined.

(** The work module's own handler does nothing; others are the program's. *)
Inductive work_handler := handle_flush | user_handler (address : Z).

Record k_work := mk_work { handler : work_handler; work_queue : option nat; work_flags : Z }.

Record k_work_q := mk_work_q {
  wq_thread : tid;
  wq_pending : list work_id;
  notifyq : wqid;
  drainq : wqid;
  wq_flags : Z
}.

(** [struct k_work_sync]: the semaphore of the flusher or of the canceller, and
    the canceller's work item.  The flusher's item is [Flusher y]. *)
Record k_work_sync := mk_sync { sync_sem : k_sem; sync_work : option work_id }.

Record k_work_queue_config := mk_config { no_yield : bool; essential : bool }.

(** The kernel, the objects by index, [dwork->queue] of delayable items, the
    list of pending cancellations, and the local [work] of each queue's thread
    while it runs a handler. *)
Record work_sys := mk_work_sys {
  ws_kernel : z_kernel;
  ws_work : work_id -> k_work;
  dwork_queue : nat -> option nat;
  ws_queue : nat -> k_work_q;
  ws_sync : nat -> k_work_sync;
  pending_cancels : list nat;
  ws_active : nat -> option work_id
}.

Definition upd_kernel (f : z_kernel -> z_kernel) (x : work_sys) : work_sys :=
  mk_work_sys (f (ws_kernel x)) (ws_work x) (dwork_queue x) (ws_queue x) (ws_sync x) (pending_cancels x) (ws_active x).
Definition upd_work (w : work_id) (f : k_work -> k_work) (x : work_sys) : work_sys :=
  mk_work_sys (ws_kernel x) (<[w := f (ws_work x w)]> (ws_work x)) (dwork_queue x) (ws_queue x) (ws_sync x)
    (pending_cancels x) (ws_active x).
Definition set_dwork_queue (i : nat) (v : option nat) (x : work_sys) : work_sys :=
  mk_work_sys (ws_kernel x) (ws_work x) (<[i := v]> (dwork_queue x)) (ws_queue x) (ws_sync x) (pending_cancels x)
    (ws_active x).
Definition upd_queue (q : nat) (f : k_work_q -> k_work_q) (x : work_sys) : work_sys :=
  mk_work_sys (ws_kernel x) (ws_work x) (dwork_queue x) (<[q := f (ws_queue x q)]> (ws_queue x)) (ws_sync x)
    (pending_cancels x) (ws_active x).
Definition set_sync (y : nat) (v : k_work_sync) (x : work_sys) : work_sys :=
  mk_work_sys (ws_kernel x) (ws_work x) (dwork_queue x) (ws_queue x) (<[y := v]> (ws_sync x)) (pending_cancels x)
    (ws_active x).
Definition set_pending_cancels (l : list nat) (x : work_sys) : work_sys :=
  mk_work_sys (ws_kernel x) (ws_work x) (dwork_queue x) (ws_queue x) (ws_sync x) l (ws_active x).
Definition set_active (q : nat) (v : option work_id) (x : work_sys) : work_sys :=
  mk_work_sys (ws_kernel x) (ws_work x) (dwork_queue x) (ws_queue x) (ws_sync x) (pending_cancels x)
    (<[q := v]> (ws_active x)).

Definition set_work_flags (v : Z) (w : k_work) : k_work := mk_work (handler w) (work_queue w) v.
Definition set_work_queue (v : option nat) (w : k_work) : k_work := mk_work (handler w) v (work_flags w).
Definition set_wq_pending (v : list work_id) (q : k_work_q) : k_work_q :=
  mk_work_q (wq_thread q) v (notifyq q) (drainq q) (wq_flags q).
Definition set_wq_flags (v : Z) (q : k_work_q) : k_work_q :=
  mk_work_q (wq_thread q) (wq_pending q) (notifyq q) (drainq q) v.

(** The flags of a work item and of a queue, tested and changed in place. *)
Definition work_test (w : work_id) (b : work_bit) (x : work_sys) : bool := flag_test (work_flags (ws_work x w)) b.
Definition work_set (w : work_id) (b : work_bit) : work_sys -> work_sys :=
  upd_work w (λ wk, set_work_flags (flag_set (work_flags wk) b) wk).
Definition work_clear (w : work_id) (b : work_bit) : work_sys -> work_sys :=
  upd_work w (λ wk, set_work_flags (flag_clear (work_flags wk) b) wk).
Definition queue_test (q : nat) (b : work_queue_bit) (x : work_sys) : bool := flag_test (wq_flags (ws_queue x q)) b.
Definition queue_set (q : nat) (b : work_queue_bit) : work_sys -> work_sys :=
  upd_queue q (λ wq, set_wq_flags (flag_set (wq_flags wq) b) wq).
Definition queue_clear (q : nat) (b : work_queue_bit) : work_sys -> work_sys :=
  upd_queue q (λ wq, set_wq_flags (flag_clear (wq_flags wq) b) wq).
Definition work_test_and_clear (w : work_id) (b : work_bit) (x : work_sys) : bool * work_sys :=
  let '(r, v) := flag_test_and_clear (work_flags (ws_work x w)) b in (r, upd_work w (set_work_flags v) x).
Definition queue_test_and_clear (q : nat) (b : work_queue_bit) (x : work_sys) : bool * work_sys :=
  let '(r, v) := flag_test_and_clear (wq_flags (ws_queue x q)) b in (r, upd_queue q (set_wq_flags v) x).

Definition pending (q : nat) (x : work_sys) : list work_id := wq_pending (ws_queue x q).
Definition set_pending (q : nat) (l : list work_id) : work_sys -> work_sys := upd_queue q (set_wq_pending l).

(** [sys_slist_insert]: [n] right after [prev]. *)
Fixpoint insert_after (prev n : work_id) (l : list work_id) : list work_id :=
  match l with
  | [] => []
  | w :: l => if decide (w = prev) then w :: n :: l else w :: insert_after prev n l
  end.

(** [sys_slist_find_and_remove]. *)
Fixpoint find_and_remove (w : work_id) (l : list work_id) : list work_id :=
  match l with
  | [] => []
  | v :: l => if decide (v = w) then l else v :: find_and_remove w l
  end.

Section Ops.
Context {cfg : Kconfig}.
Implicit Types (x : work_sys) (w : work_id) (q i y : nat) (queue : option nat).

(** ** Semaphores of sync objects *)

Definition sync_sem_init y x : work_sys :=
  let '(_, sem, s) := z_impl_k_sem_init (sync_sem (ws_sync x y)) 0 1 (ws_kernel x) in
  set_sync y (mk_sync sem (sync_work (ws_sync x y))) (upd_kernel (λ _, s) x).

(** [k_sem_give] with the work lock held: interrupts stay locked. *)
Definition sync_sem_give y x : work_sys :=
  let '(sem, s) := z_impl_k_sem_give (sync_sem (ws_sync x y)) (set_irq_unlocked false (ws_kernel x)) in
  set_sync y (mk_sync sem (sync_work (ws_sync x y)))
    (upd_kernel (λ _, set_irq_unlocked (irq_unlocked (ws_kernel x)) s) x).

Definition sync_sem_take y x : outcome * work_sys :=
  let '(o, sem, s) := z_impl_k_sem_take (sync_sem (ws_sync x y)) K_FOREVER (ws_kernel x) in
  (o, set_sync y (mk_sync sem (sync_work (ws_sync x y))) (upd_kernel (λ _, s) x)).

(** ** Items *)

Definition k_work_init w (h : work_handler) : work_sys -> work_sys := upd_work w (λ _, mk_work h None 0).

Definition init_flusher y x : work_sys :=
  let x := sync_sem_init y x in
  let x := k_work_init (Flusher y) handle_flush x in
  work_set (Flusher y) K_WORK_FLUSHING_BIT x.

Definition init_work_cancel y w x : work_sys :=
  let x := sync_sem_init y x in
  let x := set_sync y (mk_sync (sync_sem (ws_sync x y)) (Some w)) x in
  set_pending_cancels (pending_cancels x ++ [y]) x.

Definition finalize_flush_locked y x : work_sys :=
  let x := work_clear (Flusher y) K_WORK_FLUSHING_BIT x in
  sync_sem_give y x.

(** The search of [finalize_cancel_locked]: the canceller it stops at, and the
    list without it. *)
Fixpoint cancel_search (sync : nat -> k_work_sync) w (l : list nat) : option nat * list nat :=
  match l with
  | [] => (None, [])
  | wc :: l =>
      if decide (sync_work (sync wc) = Some w) then (Some wc, l)
      else let '(r, l) := cancel_search sync w l in (r, wc :: l)
  end.

Definition finalize_cancel_locked w x : work_sys :=
  let x := work_clear w K_WORK_CANCELING_BIT x in
  match cancel_search (ws_sync x) w (pending_cancels x) with
  | (Some wc, l) => sync_sem_give wc (set_pending_cancels l x)
  | (None, _) => x
  end.

Definition work_busy_get_locked w x : Z := Z.land (work_flags (ws_work x w)) K_WORK_MASK.

Definition k_work_busy_get w x : Z := work_busy_get_locked w x.

(** ** Submission *)

Definition queue_flusher_locked q w y x : work_sys :=
  let in_list := bool_decide (w ∈ pending q x) in
  let x := init_flusher y x in
  if in_list then set_pending q (insert_after w (Flusher y) (pending q x)) x
  else set_pending q (Flusher y :: pending q x) x.

(** An item that is queued has a queue. *)
Definition queue_remove_locked queue w x : work_sys :=
  let '(queued, x) := work_test_and_clear w K_WORK_QUEUED_BIT x in
  if queued then
    match queue with
    | Some q => set_pending q (find_and_remove w (pending q x)) x
    | None => x
    end
  else x.

Definition notify_queue_locked queue x : bool * work_sys :=
  match queue with
  | Some q =>
      let '(rv, s) := z_sched_wake (notifyq (ws_queue x q)) 0 0 (ws_kernel x) in (rv, upd_kernel (λ _, s) x)
  | None => (false, x)
  end.

Definition k_is_in_isr x : bool := arch_is_in_isr (ws_kernel x).

Definition queue_submit_locked queue w x : Z * work_sys :=
  match queue with
  | None => (- EINVAL, x)
  | Some q =>
      let chained := bool_decide (current (ws_kernel x) = wq_thread (ws_queue x q)) && negb (k_is_in_isr x) in
      let draining := queue_test q K_WORK_QUEUE_DRAIN_BIT x in
      let plugged := queue_test q K_WORK_QUEUE_PLUGGED_BIT x in
      if negb (queue_test q K_WORK_QUEUE_STARTED_BIT x) then (- ENODEV, x)
      else if draining && negb chained then (- EBUSY, x)
      else if plugged && negb draining then (- EBUSY, x)
      else
        let x := set_pending q (pending q x ++ [w]) x in
        (1, (notify_queue_locked (Some q) x).2)
  end.

(** The result, [*queuep] and the state. *)
Definition submit_to_queue_locked w queue x : Z * option nat * work_sys :=
  let '(ret, queue, x) :=
    if work_test w K_WORK_CANCELING_BIT x then (- EBUSY, queue, x)
    else if negb (work_test w K_WORK_QUEUED_BIT x) then
      let ret := 1 in
      let queue := match queue with None => work_queue (ws_work x w) | Some _ => queue end in
      let '(queue, ret) :=
        if work_test w K_WORK_RUNNING_BIT x then (work_queue (ws_work x w), 2) else (queue, ret) in
      let '(rc, x) := queue_submit_locked queue w x in
      if rc <? 0 then (rc, queue, x)
      else
        let x := work_set w K_WORK_QUEUED_BIT x in
        (ret, queue, upd_work w (set_work_queue queue) x)
    else (0, queue, x) in
  (ret, if ret <=? 0 then None else queue, x).

Definition z_work_submit_to_queue queue w x : Z * work_sys :=
  let '(ret, _, x) := submit_to_queue_locked w queue x in (ret, x).

Definition k_work_submit_to_queue queue w x : Z * work_sys :=
  let '(ret, x) := z_work_submit_to_queue queue w x in
  (ret, if ret >? 0 then upd_kernel z_reschedule_unlocked x else x).

(** ** Flushing and cancellation *)

Definition work_flush_locked w y x : bool * work_sys :=
  let need_flush :=
    negb (Z.land (work_flags (ws_work x w)) (Z.lor (mask K_WORK_QUEUED_BIT) (mask K_WORK_RUNNING_BIT)) =? 0) in
  (need_flush,
    if need_flush then
      match work_queue (ws_work x w) with
      | Some q =>
          let x := queue_flusher_locked q w y x in
          (notify_queue_locked (Some q) x).2
      | None => x
      end
    else x).

(** The last part of a synchronous call: [k_sem_take] when [wait], then return
    [value]. *)
Definition sync_finish (wait : bool) y (value : bool) x : outcome * work_sys :=
  if wait then
    let '(o, x) := sync_sem_take y x in
    (match o with Returns _ => Returns (Z.b2z value) | Blocks => Blocks end, x)
  else (Returns (Z.b2z value), x).

Definition k_work_flush w y x : outcome * work_sys :=
  let '(need_flush, x) := work_flush_locked w y x in
  sync_finish need_flush y need_flush x.

Definition cancel_async_locked w x : Z * work_sys :=
  let x :=
    if negb (work_test w K_WORK_CANCELING_BIT x) then queue_remove_locked (work_queue (ws_work x w)) w x else x in
  let ret := work_busy_get_locked w x in
  if negb (ret =? 0) then
    let x := work_set w K_WORK_CANCELING_BIT x in
    (work_busy_get_locked w x, x)
  else (ret, x).

Definition cancel_sync_locked w y x : bool * work_sys :=
  let ret := work_test w K_WORK_CANCELING_BIT x in
  (ret, if ret then init_work_cancel y w x else x).

Definition k_work_cancel w x : Z * work_sys := cancel_async_locked w x.

(** [k_work_cancel_sync] under the lock: [pending], [need_wait], the state. *)
Definition work_cancel_sync_locked w y x : bool * bool * work_sys :=
  let pending := negb (work_busy_get_locked w x =? 0) in
  if pending then
    let x := (cancel_async_locked w x).2 in
    let '(need_wait, x) := cancel_sync_locked w y x in
    (pending, need_wait, x)
  else (pending, false, x).

Definition k_work_cancel_sync w y x : outcome * work_sys :=
  let '(pending, need_wait, x) := work_cancel_sync_locked w y x in
  sync_finish need_wait y pending x.

(** ** The queue thread *)

(** From the top of the loop to the call of the handler, or to the switch of
    [z_sched_wait], after which the loop starts over. *)
Definition work_queue_take q x : option (work_id * work_handler) * work_sys :=
  match pending q x with
  | w :: l =>
      let x := set_pending q l x in
      let x := queue_set q K_WORK_QUEUE_BUSY_BIT x in
      let x := work_set w K_WORK_RUNNING_BIT x in
      let x := work_clear w K_WORK_QUEUED_BIT x in
      (Some (w, handler (ws_work x w)), set_active q (Some w) x)
  | [] =>
      let '(draining, x) := queue_test_and_clear q K_WORK_QUEUE_DRAIN_BIT x in
      let x :=
        if draining then upd_kernel (λ s, (z_sched_wake_all (drainq (ws_queue x q)) 1 0 s).2) x else x in
      (None, upd_kernel (z_sched_wait (notifyq (ws_queue x q)) K_FOREVER) x)
  end.

(** From the return of the handler of [w] to the top of the loop.  Only
    flushers have the flag [K_WORK_FLUSHING] (see [ii_flushing] of the
    invariant). *)
Definition work_queue_done q w x : work_sys :=
  let x := set_active q None x in
  let x := work_clear w K_WORK_RUNNING_BIT x in
  let x :=
    if work_test w K_WORK_FLUSHING_BIT x then
      match w with Flusher y => finalize_flush_locked y x | Item _ => x end
    else x in
  let x := if work_test w K_WORK_CANCELING_BIT x then finalize_cancel_locked w x else x in
  let x := queue_clear q K_WORK_QUEUE_BUSY_BIT x in
  let yield := negb (queue_test q K_WORK_QUEUE_NO_YIELD_BIT x) in
  if yield then upd_kernel z_impl_k_yield x else x.

(** ** Queues *)

(** The lists of the zeroed structure are set up by [k_work_queue_start]. *)
Definition k_work_queue_init q : work_sys -> work_sys := upd_queue q (λ wq, set_wq_flags 0 (set_wq_pending [] wq)).

Definition k_work_queue_start q (prio : Z) (config : option k_work_queue_config) x : work_sys :=
  let flags := mask K_WORK_QUEUE_STARTED_BIT in
  let x := set_pending q [] x in
  let x := upd_kernel (z_waitq_init (notifyq (ws_queue x q))) x in
  let x := upd_kernel (z_waitq_init (drainq (ws_queue x q))) x in
  let flags :=
    match config with
    | Some c => if no_yield c then Z.lor flags (mask K_WORK_QUEUE_NO_YIELD_BIT) else flags
    | None => flags
    end in
  let x := upd_queue q (set_wq_flags flags) x in
  let thread := wq_thread (ws_queue x q) in
  let x := upd_kernel (z_impl_k_thread_create thread prio 0 K_FOREVER) x in
  let x :=
    match config with
    | Some c =>
        if essential c then
          upd_kernel (upd_thread thread (λ t, set_user_options (Z.lor (user_options t) K_ESSENTIAL) t)) x
        else x
    | None => x
    end in
  upd_kernel (z_impl_k_thread_start thread) x.

(** A woken thread returns what [z_sched_wait] gives it. *)
Definition k_work_queue_drain q (plug : bool) x : outcome * work_sys :=
  if negb (Z.land (wq_flags (ws_queue x q)) (Z.lor (mask K_WORK_QUEUE_BUSY_BIT) (mask K_WORK_QUEUE_DRAIN_BIT)) =? 0)
     || plug || negb (bool_decide (pending q x = [])) then
    let x := queue_set q K_WORK_QUEUE_DRAIN_BIT x in
    let x := if plug then queue_set q K_WORK_QUEUE_PLUGGED_BIT x else x in
    let x := (notify_queue_locked (Some q) x).2 in
    (Blocks, upd_kernel (z_sched_wait (drainq (ws_queue x q)) K_FOREVER) x)
  else (Returns 0, x).

Definition k_work_queue_unplug q x : Z * work_sys :=
  let '(plugged, x) := queue_test_and_clear q K_WORK_QUEUE_PLUGGED_BIT x in
  (if plugged then 0 else - EALREADY, x).

(** ** Delayable items: the work item is [Item i], its timeout [inr i] *)

Definition dwork_timeout i : tkey := inr i.

Definition work_timeout i x : work_sys :=
  let '(delayed, x) := work_test_and_clear (Item i) K_WORK_DELAYED_BIT x in
  if delayed then
    let '(_, _, x) := submit_to_queue_locked (Item i) (dwork_queue x i) x in x
  else x.

(** For an item whose timeout is not in the queue, as [z_init_timeout] leaves it. *)
Definition k_work_init_delayable i (h : work_handler) x : work_sys :=
  let x := upd_work (Item i) (λ _, mk_work h None (mask K_WORK_DELAYABLE_BIT)) x in
  set_dwork_queue i None x.

Definition work_delayable_busy_get_locked i x : Z := Z.land (work_flags (ws_work x (Item i))) K_WORK_MASK.

Definition k_work_delayable_busy_get i x : Z := work_delayable_busy_get_locked i x.

Definition schedule_for_queue_locked queue i (delay : Z) x : Z * option nat * work_sys :=
  let ret := 1 in
  if K_TIMEOUT_EQ delay K_NO_WAIT then submit_to_queue_locked (Item i) queue x
  else
    let x := work_set (Item i) K_WORK_DELAYED_BIT x in
    let x := set_dwork_queue i queue x in
    (ret, queue,
      upd_kernel (λ s, set_timeouts (z_add_timeout SYSTEM_CLOCK_SLOPPY_IDLE (dwork_timeout i) delay (timeouts s)) s) x).

Definition unschedule_locked i x : bool * work_sys :=
  let '(delayed, x) := work_test_and_clear (Item i) K_WORK_DELAYED_BIT x in
  if delayed then
    let '(ret, t) := z_abort_timeout (dwork_timeout i) (timeouts (ws_kernel x)) in
    (ret =? 0, upd_kernel (set_timeouts t) x)
  else (false, x).

Definition cancel_delayable_async_locked i x : Z * work_sys :=
  let x := (unschedule_locked i x).2 in
  cancel_async_locked (Item i) x.

Definition k_work_schedule_for_queue queue i (delay : Z) x : Z * work_sys :=
  if Z.land (work_busy_get_locked (Item i) x) (Z.lnot (mask K_WORK_RUNNING_BIT)) =? 0 then
    let '(ret, _, x) := schedule_for_queue_locked queue i delay x in (ret, x)
  else (0, x).

Definition k_work_reschedule_for_queue queue i (delay : Z) x : Z * work_sys :=
  let x := (unschedule_locked i x).2 in
  let '(ret, _, x) := schedule_for_queue_locked queue i delay x in (ret, x).

Definition k_work_cancel_delayable i x : Z * work_sys := cancel_delayable_async_locked i x.

(** [k_work_cancel_delayable_sync] under the lock. *)
Definition cancel_delayable_sync_locked i y x : bool * bool * work_sys :=
  let pending := negb (work_delayable_busy_get_locked i x =? 0) in
  if pending then
    let x := (cancel_delayable_async_locked i x).2 in
    let '(need_wait, x) := cancel_sync_locked (Item i) y x in
    (pending, need_wait, x)
  else (pending, false, x).

Definition k_work_cancel_delayable_sync i y x : outcome * work_sys :=
  let '(pending, need_wait, x) := cancel_delayable_sync_locked i y x in
  sync_finish need_wait y pending x.

(** [k_work_flush_delayable] under the lock. *)
Definition flush_delayable_locked i y x : bool * work_sys :=
  if work_busy_get_locked (Item i) x =? 0 then (false, x)
  else
    let '(unscheduled, x) := unschedule_locked i x in
    let x :=
      if unscheduled then
        let '(_, _, x) := submit_to_queue_locked (Item i) (dwork_queue x i) x in x
      else x in
    work_flush_locked (Item i) y x.

Definition k_work_flush_delayable i y x : outcome * work_sys :=
  let '(need_flush, x) := flush_delayable_locked i y x in
  sync_finish need_flush y need_flush x.

(** ** The system queue *)

(** [k_sys_work_q] is queue [0]. *)
Definition k_sys_work_q : nat := 0%nat.

Definition k_sys_work_q_init (SYSTEM_WORKQUEUE_PRIORITY : Z) (SYSTEM_WORKQUEUE_NO_YIELD : bool) x : work_sys :=
  k_work_queue_start k_sys_work_q SYSTEM_WORKQUEUE_PRIORITY (Some (mk_config SYSTEM_WORKQUEUE_NO_YIELD true)) x.

Definition k_work_submit w x : Z * work_sys := k_work_submit_to_queue (Some k_sys_work_q) w x.

Definition k_work_schedule i (delay : Z) x : Z * work_sys := k_work_schedule_for_queue (Some k_sys_work_q) i delay x.

Definition k_work_reschedule i (delay : Z) x : Z * work_sys :=
  k_work_reschedule_for_queue (Some k_sys_work_q) i delay x.

End Ops.
