(* ===== verification/WorkKern.v ===== *)
(** * Work queues: the calls into the kernel

    What the calls that kernel/work.c makes do to the wait queues, to the
    timeouts of delayable items and to the calling thread. *)

From Stdlib Require Import ZArith Lia Bool.
From stdpp Require Import base numbers functions list gmap sets.
From S2P Require Import Prelude TimeoutQ Kernel PrioQ Sched SchedInv SchedOps Threads WaitApi Sem Work.

Open Scope Z_scope.

Section Moved.
Context {cfg : Kconfig}.
Implicit Types (s : z_kernel) (w v : wqid) (t : tid).

(** From [s] to [s'] the wait queues become [f], and no timeout of a
    delayable item is armed. *)
Record moved (f : wqid -> list tid) s s' : Prop := {
  mv_inv : sched_inv ∅ s';
  mv_waitq : ∀ v, waitq s' v = f v;
  mv_linked : ∀ i, is_linked (dwork_timeout i) (timeouts s') = true -> is_linked (dwork_timeout i) (timeouts s) = true
}.

(** The caller goes on. *)
Definition kept s s' : Prop := current s' = current s /\ (current s ∈ runq s -> current s ∈ runq s').

Lemma kept_trans s1 s2 s3 : kept s1 s2 -> kept s2 s3 -> kept s1 s3.
Proof. intros [E1 H1] [E2 H2]. split; [congruence |]. intros H. rewrite <- E1. apply H2. rewrite E1. auto. Qed.

Lemma moved_same s s' : sched_inv ∅ s -> same_sched s s' -> moved (waitq s) s s'.
Proof.
  intros Hs Hsame. constructor.
  - by rewrite <- Hsame.
  - apply (same_waitq _ _ Hsame).
  - intros i. by rewrite (same_timeouts _ _ Hsame).
Qed.

Lemma moved_refl s : sched_inv ∅ s -> moved (waitq s) s s.
Proof. intros Hs. apply moved_same; [done | apply same_sched_refl]. Qed.

Lemma work_moved_trans f g s1 s2 s3 : moved f s1 s2 -> moved g s2 s3 -> moved g s1 s3.
Proof. intros [] []. constructor; eauto. Qed.

Lemma timeouts_ready t s : timeouts (ready_thread t s) = timeouts s.
Proof. unfold ready_thread. case_match; [| done]. by rewrite (same_timeouts _ _ (same_update_cache _ _)). Qed.

Lemma timeouts_unpend t s : timeouts (unpend_thread_no_timeout t s) = timeouts s.
Proof. unfold unpend_thread_no_timeout. by case_match. Qed.

Lemma runq_ready t u s : u ∈ runq s -> u ∈ runq (ready_thread t s).
Proof.
  intros Hu. unfold ready_thread. case_match; [| done]. rewrite (same_runq _ _ (same_update_cache _ _)).
  unfold queue_thread. simpl. apply dumb_add_elem. by right.
Qed.

Lemma abort_linked t i s :
  tq_wf (timeouts s) ->
  is_linked (dwork_timeout i) (timeouts (z_abort_thread_timeout t s).2) = true -> is_linked (dwork_timeout i) (timeouts s) = true.
Proof.
  intros Hs. rewrite z_abort_thread_timeout_snd. simpl. rewrite is_linked_abort by apply Hs.
  by intros [? _]%andb_true_iff.
Qed.

(** ** Waking *)

Lemma sched_wake_none w r d s : waitq s w = [] -> z_sched_wake w r d s = (false, s).
Proof. unfold z_sched_wake, z_waitq_head. by intros ->. Qed.

Lemma sched_wake_some w r d s t l :
  sched_inv ∅ s -> waitq s w = t :: l ->
  exists s', z_sched_wake w r d s = (true, s') /\ moved (λ v, if decide (w = v) then l else waitq s v) s s' /\ kept s s' /\
    swap_return s' t = r /\ pended_on (thr s' t) = None /\ (∀ u, u ≠ t -> thr s' u = thr s u).
Proof.
  intros Hs Hw. unfold z_sched_wake, z_waitq_head. rewrite Hw. cbv zeta. eexists. split; [done |].
  pose proof (same_return_value_with_data s t r d) as Hsame. set (s1 := z_thread_return_value_set_with_data t r d s) in *.
  assert (sched_inv ∅ s1) as Hs1 by (by rewrite <- Hsame).
  assert (waitq s1 w = t :: l) as Hw1 by (by rewrite (same_waitq _ _ Hsame)).
  destruct (unpend_first_some w s1 t l Hs1 Hw1) as (s2 & E & Hu).
  unfold z_unpend_first_thread, z_waitq_head in E. rewrite Hw1 in E. injection E as E. rewrite E.
  destruct (ready_thread_fields t s2 t) as (E1 & _ & _ & E2). destruct Hu as [U1 U2 U3 U4 U5 U6 U7 U8 U9].
  split; [| split; [| split; [| split]]].
  - constructor.
    + apply inv_ready_thread; [by rewrite (union_empty_r_L ({[t]} : gset tid)) | done].
    + intros v. rewrite waitq_ready_thread, U4. case_decide; [done |]. apply (same_waitq _ _ Hsame).
    + intros i. rewrite timeouts_ready, <- (same_timeouts _ _ Hsame), <- E. intros H. apply abort_linked in H; rewrite timeouts_unpend in *; [done |].
      apply (inv_timeouts _ _ Hs1).
  - split.
    + pose proof (ctx_ready_thread t s2) as Hc. rewrite U7 in Hc. by injection Hc.
    + intros Hc. apply runq_ready. by rewrite U8, (same_runq _ _ Hsame).
  - unfold swap_return. rewrite E1, U5. simpl. unfold s1, z_thread_return_value_set_with_data, arch_thread_return_value_set.
    by rewrite upd_upd, thr_upd_eq.
  - by rewrite E2, U5.
  - intros u Hne. rewrite thr_ready_thread_ne, U6 by done. unfold s1, z_thread_return_value_set_with_data, arch_thread_return_value_set.
    by rewrite upd_upd, thr_upd_ne.
Qed.

(** Waking threads leaves the timeouts of delayable items alone. *)
Lemma wake_linked w r d s i :
  sched_inv ∅ s -> is_linked (dwork_timeout i) (timeouts (z_sched_wake w r d s).2) = is_linked (dwork_timeout i) (timeouts s).
Proof.
  intros Hs. unfold z_sched_wake. destruct (z_waitq_head s w) as [t |]; [| done]. cbv zeta. cbn [snd].
  pose proof (same_return_value_with_data s t r d) as Hsame.
  rewrite timeouts_ready, z_abort_thread_timeout_snd. cbn [timeouts set_timeouts]. rewrite timeouts_unpend, (same_timeouts _ _ Hsame).
  rewrite is_linked_abort by apply Hs. rewrite bool_decide_eq_true_2, andb_true_r; done.
Qed.

Lemma moved_wake w r d s :
  sched_inv ∅ s ->
  moved (λ v, if decide (w = v) then tail (waitq s w) else waitq s v) s (z_sched_wake w r d s).2 /\ kept s (z_sched_wake w r d s).2.
Proof.
  intros Hs. destruct (waitq s w) as [| t l] eqn:Hw.
  - rewrite sched_wake_none by done. split; [| done]. constructor; [done | | done].
    intros v. case_decide; [by subst | done].
  - destruct (sched_wake_some w r d s t l Hs Hw) as (s' & -> & H & ? & _). done.
Qed.

Lemma moved_drain w r d fuel s :
  sched_inv ∅ s -> (length (waitq s w) <= fuel)%nat ->
  let s' := waitq_drain fuel (λ _ s, (z_sched_wake w r d s).2) w s in
  moved (λ v, if decide (w = v) then [] else waitq s v) s s' /\ kept s s'.
Proof.
  revert s. induction fuel as [| fuel IH]; intros s Hs Hl; cbn [waitq_drain]; unfold z_waitq_head;
    destruct (waitq s w) as [| t l] eqn:Hw; simpl in Hl |- *; try lia.
  1, 2: split; [| done]; constructor; [done | | done]; intros v; case_decide; by subst.
  destruct (sched_wake_some w r d s t l Hs Hw) as (s1 & -> & H1 & K1 & _). simpl.
  assert (waitq s1 w = l) as Hl1 by (by rewrite (mv_waitq _ _ _ H1), decide_True).
  destruct (IH s1 (mv_inv _ _ _ H1)) as [H2 K2]; [rewrite Hl1; lia |].
  split; [| by eapply kept_trans]. destruct (work_moved_trans _ _ _ _ _ H1 H2) as [A B C]. constructor; [done | | done].
  intros v. rewrite B. case_decide; [done |]. by rewrite (mv_waitq _ _ _ H1), decide_False.
Qed.

Lemma moved_wake_all w r d s :
  sched_inv ∅ s ->
  moved (λ v, if decide (w = v) then [] else waitq s v) s (z_sched_wake_all w r d s).2 /\ kept s (z_sched_wake_all w r d s).2.
Proof. intros Hs. by apply moved_drain. Qed.

(** ** Waiting and switching *)

Lemma moved_pend w s :
  sched_inv ∅ s -> current s ∈ runq s ->
  moved (λ v, if decide (w = v) then z_priq_dumb_add (thr s) (waitq s w) (current s) else waitq s v) s (z_pend_curr w K_FOREVER s).
Proof.
  intros Hs Hc. destruct (pend_curr w K_FOREVER s Hs Hc) as [H1 H2 _ _ _ _ _ _]; [by split |].
  constructor; [done | done |]. intros i. unfold z_pend_curr, z_swap. rewrite (same_timeouts _ _ (same_do_swap _)).
  unfold pend_locked, add_thread_timeout. simpl. unfold add_to_waitq_locked, unready_thread. simpl.
  by rewrite (same_timeouts _ _ (same_update_cache _ _)); case_match.
Qed.

Lemma moved_reschedule s : sched_inv ∅ s -> moved (waitq s) s (z_reschedule s).
Proof. intros Hs. apply moved_same; [done | apply same_reschedule]. Qed.

Lemma moved_yield s : sched_inv ∅ s -> current s ∈ runq s -> moved (waitq s) s (z_impl_k_yield s).
Proof.
  intros Hs Hc. pose proof (inv_yield s Hs Hc) as Hy.
  assert (same_sched (queue_thread (current s) (dequeue_thread (current s) s)) (z_impl_k_yield s)) as Hsame.
  { unfold z_impl_k_yield, z_swap. etransitivity; [| apply same_do_swap]. apply same_update_cache. }
  constructor; [done | |].
  - intros v. by rewrite (same_waitq _ _ Hsame).
  - intros i. by rewrite (same_timeouts _ _ Hsame).
Qed.

(** ** Semaphores with the work lock held *)

Definition locked_give (sem : k_sem) s : k_sem * z_kernel :=
  let '(sem, s') := z_impl_k_sem_give sem (set_irq_unlocked false s) in (sem, set_irq_unlocked (irq_unlocked s) s').

Lemma work_same_irq b s : same_sched s (set_irq_unlocked b s).
Proof. by constructor. Qed.

Lemma locked_give_free sem s :
  waitq s (sem_wait_q sem) = [] -> sem_count sem = 0 -> sem_limit sem = 1 ->
  locked_give sem s = (set_sem_count 1 sem, s).
Proof.
  intros Hw Hc Hl. unfold locked_give, z_impl_k_sem_give. rewrite unpend_first_none by done. simpl.
  rewrite Hc, Hl. by destruct s.
Qed.

Lemma locked_give_waiter sem s t l :
  sched_inv ∅ s -> waitq s (sem_wait_q sem) = t :: l ->
  exists s', locked_give sem s = (sem, s') /\
    moved (λ v, if decide (sem_wait_q sem = v) then l else waitq s v) s s' /\ kept s s' /\
    swap_return s' t = 0 /\ pended_on (thr s' t) = None.
Proof.
  intros Hs Hw. unfold locked_give, z_impl_k_sem_give. set (s0 := set_irq_unlocked false s).
  assert (sched_inv ∅ s0) as Hs0 by (by apply (sched_inv_same _ s); [apply work_same_irq |]).
  destruct (wake_first (sem_wait_q sem) s0 t l 0 Hs0 Hw) as (s1 & E & Hwk & Hret & _).
  destruct (unpend_first_some (sem_wait_q sem) s0 t l Hs0 Hw) as (s1' & E' & Hu).
  rewrite E in E'. injection E' as <-. rewrite E. set (s2 := z_ready_thread t _) in *.
  pose proof (wk_ctx _ _ _ _ _ Hwk) as Hctx. injection Hctx as Hcur _ _ Hirq.
  assert (z_reschedule s2 = s2) as -> by (unfold z_reschedule, resched; by rewrite Hirq).
  eexists. split; [done |]. split; [| split; [| split]].
  - constructor.
    + apply (sched_inv_same _ s2); [apply work_same_irq | apply Hwk].
    + intros v. apply (wk_waitq _ _ _ _ _ Hwk).
    + intros i. change (timeouts (set_irq_unlocked _ s2)) with (timeouts s2). unfold s2, z_ready_thread. rewrite timeouts_ready.
      change (timeouts (arch_thread_return_value_set t 0 s1)) with (timeouts s1).
      assert (waitq s0 (sem_wait_q sem) = t :: l) as Hw0 by exact Hw.
      unfold z_unpend_first_thread, z_waitq_head in E. rewrite Hw0 in E. injection E as <-.
      intros H. apply abort_linked in H; rewrite timeouts_unpend in *; [done | apply (inv_timeouts _ _ Hs0)].
  - split; [done |]. intros Hc. change (runq (set_irq_unlocked _ s2)) with (runq s2). apply runq_ready.
    change (runq (arch_thread_return_value_set t 0 s1)) with (runq s1). by rewrite (up_runq _ _ _ _ _ Hu).
  - done.
  - apply Hwk.
Qed.

(** ** Timeouts of delayable items *)

Lemma inv_other_timeouts (q : timeout_state tkey) s :
  sched_inv ∅ s -> tq_wf q -> (∀ u, is_linked (thread_timeout u) q = active s u) -> sched_inv ∅ (set_timeouts q s).
Proof.
  intros [] Ht Ha.
  assert (∀ u, z_is_thread_ready (set_timeouts q s) u = z_is_thread_ready s u) as Hr.
  { intros u. rewrite !ready_eq. unfold active at 1. simpl. by rewrite Ha. }
  constructor; try done; intros *; rewrite Hr; eauto.
Qed.

Lemma add_dwork_timeout i delay s :
  sched_inv ∅ s -> is_linked (dwork_timeout i) (timeouts s) = false -> valid_timeout delay ->
  let s' := set_timeouts (z_add_timeout SYSTEM_CLOCK_SLOPPY_IDLE (dwork_timeout i) delay (timeouts s)) s in
  sched_inv ∅ s' /\ (∀ v, waitq s' v = waitq s v) /\
  (∀ j, j ≠ i -> is_linked (dwork_timeout j) (timeouts s') = is_linked (dwork_timeout j) (timeouts s)).
Proof.
  intros Hs Hl Hv. cbv zeta. destruct (decide (delay = K_FOREVER)) as [-> | Hf].
  { unfold z_add_timeout. simpl. by destruct s. }
  split; [apply inv_other_timeouts; [done | |] | split; [done |]].
  - by apply z_add_timeout_ok; [apply Hs | | |].
  - intros u. rewrite is_linked_add, bool_decide_eq_false_2 by done. done.
  - intros j Hj. simpl. rewrite is_linked_add, bool_decide_eq_false_2; [done | | done]. intros [= E]. done.
Qed.

(** Adding a timeout adds its node to the list, be it there already or not. *)
Lemma add_timeout_keys SLOPPY (to : tkey) delay (q : timeout_state tkey) :
  delay ≠ K_FOREVER -> (timeout_list (z_add_timeout SLOPPY to delay q)).*1 ≡ₚ to :: (timeout_list q).*1.
Proof.
  intros Hf. unfold z_add_timeout, K_TIMEOUT_EQ. destruct (Z.eqb_spec delay K_FOREVER); [done |]. cbv zeta.
  case_match; apply insert_timeout_keys.
Qed.

Lemma abort_dwork_timeout i s :
  sched_inv ∅ s -> let s' := set_timeouts (z_abort_timeout (dwork_timeout i) (timeouts s)).2 s in
  moved (waitq s) s s' /\ is_linked (dwork_timeout i) (timeouts s') = false /\
  (z_abort_timeout (dwork_timeout i) (timeouts s)).1 = (if is_linked (dwork_timeout i) (timeouts s) then 0 else - EINVAL).
Proof.
  intros Hs. pose proof (z_abort_timeout_ok (dwork_timeout i) (timeouts s) (inv_timeouts _ _ Hs)) as (H1 & H2 & _).
  pose proof (is_linked_abort (dwork_timeout i) (timeouts s)) as Hl. cbv zeta. split; [| split; [| done]].
  - constructor; [apply inv_other_timeouts; [done.. |] | done |].
    + intros u. rewrite Hl, bool_decide_eq_true_2, andb_true_r; [done | done | apply Hs].
    + intros j. simpl. rewrite Hl by apply Hs. by intros [? _]%andb_true_iff.
  - simpl. rewrite Hl, bool_decide_eq_false_2, andb_false_r; [done | tauto | apply Hs].
Qed.

(** ** The queue thread *)

Lemma moved_create t p o s :
  sched_inv ∅ s -> unused s t ->
  let s' := z_impl_k_thread_create t p o K_FOREVER s in moved (waitq s) s s' /\ idle_thread s' = idle_thread s.
Proof.
  intros Hs Hu. pose proof (inv_thread_create t p o K_FOREVER s Hs Hu ltac:(by split)) as Hinv.
  destruct Hu as (_ & _ & _ & _ & Hw). destruct (setup_new_thread_eq t p o s Hw) as (f & Hsame & _).
  change (z_impl_k_thread_create t p o K_FOREVER s) with (z_setup_new_thread t p o s) in *. cbv zeta. split.
  - constructor; [done | |].
    + intros v. by rewrite (same_waitq _ _ Hsame).
    + intros i. by rewrite (same_timeouts _ _ Hsame).
  - by rewrite (same_idle _ _ Hsame).
Qed.

Lemma moved_start t s : sched_inv ∅ s -> t ≠ idle_thread s -> moved (waitq s) s (z_impl_k_thread_start t s).
Proof.
  intros Hs Hi. pose proof (inv_start t s Hs Hi) as Hinv. unfold z_impl_k_thread_start, z_sched_start in *.
  case_match; [by apply moved_refl |]. constructor; [done | |].
  - intros v. by rewrite (same_waitq _ _ (same_reschedule _)), waitq_ready_thread.
  - intros i. by rewrite (same_timeouts _ _ (same_reschedule _)), timeouts_ready.
Qed.
End Moved.
