(* ===== verification/WorkInv.v ===== *)
(** * Work queues: the invariant

    What the flags of an item say about the lists and threads, and what the
    wait queues of a work queue say about its state; every operation of
    Work.v keeps both. *)

From Stdlib Require Import ZArith Lia Bool.
From stdpp Require Import base numbers functions list gmap sets.
From S2P Require Import Prelude TimeoutQ Kernel PrioQ Sched SchedInv SchedOps Threads WaitApi Sem Work.

Open Scope Z_scope.

(** ** Flags *)

Section Flags.
Context {B : Type} `{FlagEnum B} `{EqDecision B}.
Implicit Types (f : Z) (a b : B).

Lemma bit_pos_eqb a b : (bit_pos a =? bit_pos b) = bool_decide (a = b).
Proof.
  apply Bool.eq_true_iff_eq. rewrite Z.eqb_eq, bool_decide_eq_true. split; [apply bit_pos_inj | congruence].
Qed.

Lemma flag_test_bit f b : flag_test f b = Z.testbit f (bit_pos b).
Proof. unfold flag_test, mask. pose proof (bit_pos_range b). by rewrite flag_any_BIT by lia. Qed.

Lemma flag_test_set f a b : flag_test (flag_set f a) b = flag_test f b || bool_decide (a = b).
Proof.
  pose proof (bit_pos_range a). pose proof (bit_pos_range b).
  unfold flag_set, mask. by rewrite !flag_test_bit, flag_set_testbit, bit_pos_eqb by lia.
Qed.

Lemma flag_test_clear f a b : flag_test (flag_clear f a) b = flag_test f b && bool_decide (a ≠ b).
Proof.
  pose proof (bit_pos_range a). pose proof (bit_pos_range b).
  unfold flag_clear, mask. rewrite !flag_test_bit, flag_clear_testbit, bit_pos_eqb by lia.
  by rewrite bool_decide_not.
Qed.

Lemma flag_test_0 b : flag_test 0 b = false.
Proof. by rewrite flag_test_bit, Z.testbit_0_l. Qed.

Lemma flag_test_mask a b : flag_test (mask a) b = bool_decide (a = b).
Proof.
  pose proof (bit_pos_range a). pose proof (bit_pos_range b).
  unfold mask. by rewrite flag_test_bit, BIT_testbit, bit_pos_eqb by lia.
Qed.

Lemma flag_two f a b : negb (Z.land f (Z.lor (mask a) (mask b)) =? 0) = flag_test f a || flag_test f b.
Proof. apply flag_any_lor. Qed.
End Flags.

(** [work_busy_get_locked] is zero exactly when no dynamic flag is set. *)
Lemma busy_flags w x :
  negb (work_busy_get_locked w x =? 0) =
  work_test w K_WORK_DELAYED_BIT x || work_test w K_WORK_QUEUED_BIT x || work_test w K_WORK_RUNNING_BIT x
  || work_test w K_WORK_CANCELING_BIT x || work_test w K_WORK_FLUSHING_BIT x.
Proof.
  unfold work_busy_get_locked. change (negb _) with (flag_any (work_flags (ws_work x w)) K_WORK_MASK).
  unfold K_WORK_MASK. by rewrite !flag_any_lor.
Qed.

(** ** Pending lists *)

Lemma insert_after_split v n l1 l2 : v ∉ l1 -> insert_after v n (l1 ++ v :: l2) = l1 ++ v :: n :: l2.
Proof.
  induction l1 as [| w l1 IH]; simpl; intros Hv; [by rewrite decide_True |].
  rewrite decide_False, IH by set_solver. done.
Qed.

Lemma find_and_remove_split v l1 l2 : v ∉ l1 -> find_and_remove v (l1 ++ v :: l2) = l1 ++ l2.
Proof.
  induction l1 as [| w l1 IH]; simpl; intros Hv; [by rewrite decide_True |].
  rewrite decide_False, IH by set_solver. done.
Qed.

Lemma insert_after_perm v n l : v ∈ l -> insert_after v n l ≡ₚ n :: l.
Proof.
  intros (l1 & l2 & -> & Hv)%list_elem_of_split_l. rewrite insert_after_split by done. solve_Permutation.
Qed.

Lemma find_and_remove_elem v w l : NoDup l -> w ∈ find_and_remove v l <-> w ∈ l /\ w ≠ v.
Proof.
  induction l as [| u l IH]; simpl; intros Hl; [set_solver |]. apply NoDup_cons in Hl as [Hu Hl].
  case_decide; subst; rewrite ?elem_of_cons, ?IH by done; [| naive_solver]. naive_solver.
Qed.

Lemma find_and_remove_nodup v l : NoDup l -> NoDup (find_and_remove v l).
Proof.
  induction l as [| u l IH]; simpl; intros Hl; [constructor |]. apply NoDup_cons in Hl as [Hu Hl].
  case_decide; [done |]. apply NoDup_cons. split; [| auto]. rewrite find_and_remove_elem by done. tauto.
Qed.

(** ** The flags and the lists *)

Definition queued (i : nat) (x : work_sys) : bool := work_test (Item i) K_WORK_QUEUED_BIT x.
Definition running (i : nat) (x : work_sys) : bool := work_test (Item i) K_WORK_RUNNING_BIT x.
Definition canceling (i : nat) (x : work_sys) : bool := work_test (Item i) K_WORK_CANCELING_BIT x.
Definition delayed (i : nat) (x : work_sys) : bool := work_test (Item i) K_WORK_DELAYED_BIT x.
Definition home (i : nat) (x : work_sys) : option nat := work_queue (ws_work x (Item i)).

(** The flusher of sync object [y] waits in queue [q] or is being run by it. *)
Definition held (y q : nat) (x : work_sys) : Prop := Flusher y ∈ pending q x \/ ws_active x q = Some (Flusher y).

(** The sync object is taking part in a flush or a cancellation. *)
Definition used (y : nat) (x : work_sys) : Prop := y ∈ pending_cancels x \/ exists q, held y q x.

(** An item: QUEUED means on the pending list of the item's queue, RUNNING
    being run by that queue's thread, CANCELING running and not queued again. *)
Record item_ok (i : nat) (x : work_sys) : Prop := {
  ii_queued : ∀ q, Item i ∈ pending q x <-> queued i x = true /\ home i x = Some q;
  ii_running : ∀ q, ws_active x q = Some (Item i) <-> running i x = true /\ home i x = Some q;
  ii_home : queued i x = true \/ running i x = true -> is_Some (home i x);
  ii_cancel : canceling i x = true -> running i x = true /\ queued i x = false;
  ii_delayed : delayed i x = true -> work_test (Item i) K_WORK_DELAYABLE_BIT x = true;
  ii_flushing : work_test (Item i) K_WORK_FLUSHING_BIT x = false
}.

(** A sync object: its flusher is in one place, and in none while the object
    serves a cancellation. *)
Record sync_ok (y : nat) (x : work_sys) : Prop := {
  fi_flags : ∀ q, held y q x ->
    work_test (Flusher y) K_WORK_FLUSHING_BIT x = true /\ work_test (Flusher y) K_WORK_CANCELING_BIT x = false;
  fi_one_queue : ∀ q q', held y q x -> held y q' x -> q = q';
  fi_one_place : ∀ q, Flusher y ∈ pending q x -> ws_active x q ≠ Some (Flusher y);
  fi_free : ∀ q, y ∈ pending_cancels x -> ~ held y q x
}.

Record data_inv (x : work_sys) : Prop := {
  di_item : ∀ i, item_ok i x;
  di_sync : ∀ y, sync_ok y x;
  di_nodup : ∀ q, NoDup (pending q x);
  di_cancels : NoDup (pending_cancels x);
  di_busy : ∀ q, queue_test q K_WORK_QUEUE_BUSY_BIT x = true <-> ws_active x q ≠ None
}.

(** Reading an object after an update. *)
Ltac wunfold :=
  unfold held, queued, running, canceling, delayed, home, work_test, queue_test, pending, k_work_init, work_set, work_clear, queue_set,
    queue_clear, set_pending in *;
  cbn [ws_kernel ws_work dwork_queue ws_queue ws_sync pending_cancels ws_active upd_kernel upd_work set_dwork_queue
    upd_queue set_sync set_pending_cancels set_active handler work_queue work_flags set_work_flags set_work_queue
    wq_thread wq_pending notifyq drainq wq_flags set_wq_pending set_wq_flags] in *.

Ltac wcase :=
  repeat match goal with
  | |- context [ @insert _ _ _ (@fn_insert _ _ _) ?a ?v ?f ?b ] =>
      destruct (decide (a = b)); [simplify_eq; rewrite !fn_lookup_insert | rewrite !(fn_lookup_insert_ne f a b) by done]
  | H : context [ @insert _ _ _ (@fn_insert _ _ _) ?a ?v ?f ?b ] |- _ =>
      destruct (decide (a = b)); [simplify_eq; rewrite !fn_lookup_insert in H | rewrite !(fn_lookup_insert_ne f a b) in H by done]
  end.

(** An update that does not concern an item, or a sync object. *)
Lemma item_same j x x' :
  item_ok j x -> (∀ b, work_test (Item j) b x' = work_test (Item j) b x) -> home j x' = home j x ->
  (∀ q, Item j ∈ pending q x' <-> Item j ∈ pending q x) ->
  (∀ q, ws_active x' q = Some (Item j) <-> ws_active x q = Some (Item j)) -> item_ok j x'.
Proof.
  intros [] Hf Hh Hp Ha. unfold queued, running, canceling, delayed in *.
  constructor; unfold queued, running, canceling, delayed; intros *; rewrite ?Hf, ?Hh, ?Hp, ?Ha; done.
Qed.

Lemma sync_same y x x' :
  sync_ok y x -> (∀ b, work_test (Flusher y) b x' = work_test (Flusher y) b x) ->
  (y ∈ pending_cancels x' -> y ∈ pending_cancels x) ->
  (∀ q, Flusher y ∈ pending q x' <-> Flusher y ∈ pending q x) ->
  (∀ q, ws_active x' q = Some (Flusher y) <-> ws_active x q = Some (Flusher y)) -> sync_ok y x'.
Proof.
  intros [H1 H2 H3 H4] Hf Hc Hp Ha.
  assert (∀ q, held y q x' <-> held y q x) as Hh by (intros q; unfold held; by rewrite Hp, Ha).
  constructor; intros *; rewrite ?Hh, ?Hf, ?Hp, ?Ha; eauto.
Qed.

Lemma test_set w b v c x : work_test v c (work_set w b x) = work_test v c x || bool_decide (w = v /\ b = c).
Proof.
  wunfold. wcase; wunfold.
  - rewrite flag_test_set. f_equal. apply bool_decide_ext. naive_solver.
  - rewrite bool_decide_eq_false_2 by naive_solver. by rewrite orb_false_r.
Qed.

Lemma test_clear w b v c x : work_test v c (work_clear w b x) = work_test v c x && negb (bool_decide (w = v /\ b = c)).
Proof.
  wunfold. wcase; wunfold.
  - rewrite flag_test_clear, bool_decide_not. do 2 f_equal. apply bool_decide_ext. naive_solver.
  - rewrite bool_decide_eq_false_2 by naive_solver. by rewrite andb_true_r.
Qed.

Lemma qtest_set q b r c x : queue_test r c (queue_set q b x) = queue_test r c x || bool_decide (q = r /\ b = c).
Proof.
  wunfold. wcase; wunfold.
  - rewrite flag_test_set. f_equal. apply bool_decide_ext. naive_solver.
  - rewrite bool_decide_eq_false_2 by naive_solver. by rewrite orb_false_r.
Qed.

Lemma qtest_clear q b r c x : queue_test r c (queue_clear q b x) = queue_test r c x && negb (bool_decide (q = r /\ b = c)).
Proof.
  wunfold. wcase; wunfold.
  - rewrite flag_test_clear, bool_decide_not. do 2 f_equal. apply bool_decide_ext. naive_solver.
  - rewrite bool_decide_eq_false_2 by naive_solver. by rewrite andb_true_r.
Qed.

Lemma pending_set q l r x : pending r (set_pending q l x) = if decide (q = r) then l else pending r x.
Proof. wunfold. by wcase; wunfold. Qed.

Lemma active_set q v r x : ws_active (set_active q v x) r = if decide (q = r) then v else ws_active x r.
Proof. wunfold. by wcase; wunfold. Qed.

Lemma qtest_pending q l r b x : queue_test r b (set_pending q l x) = queue_test r b x.
Proof. wunfold. by wcase; wunfold. Qed.

Lemma pending_qset q b r x : pending r (queue_set q b x) = pending r x.
Proof. wunfold. by wcase; wunfold. Qed.

Lemma pending_qclear q b r x : pending r (queue_clear q b x) = pending r x.
Proof. wunfold. by wcase; wunfold. Qed.

Lemma home_set w b j x : home j (work_set w b x) = home j x.
Proof. wunfold. by wcase; wunfold. Qed.

Lemma home_clear w b j x : home j (work_clear w b x) = home j x.
Proof. wunfold. by wcase; wunfold. Qed.

Lemma test_move w q v c x : work_test v c (upd_work w (set_work_queue q) x) = work_test v c x.
Proof. wunfold. by wcase; wunfold. Qed.

Lemma home_move i q j x : home j (upd_work (Item i) (set_work_queue q) x) = if decide (i = j) then q else home j x.
Proof. wunfold. wcase; wunfold; [by rewrite decide_True | rewrite decide_False by congruence; done]. Qed.

(** An item from the values of its flags. *)
Lemma item_build i x qd rn cn dl dla h :
  queued i x = qd -> running i x = rn -> canceling i x = cn -> delayed i x = dl ->
  work_test (Item i) K_WORK_DELAYABLE_BIT x = dla -> work_test (Item i) K_WORK_FLUSHING_BIT x = false -> home i x = h ->
  (∀ q, Item i ∈ pending q x <-> qd = true /\ h = Some q) ->
  (∀ q, ws_active x q = Some (Item i) <-> rn = true /\ h = Some q) ->
  (qd = true \/ rn = true -> is_Some h) -> (cn = true -> rn = true /\ qd = false) -> (dl = true -> dla = true) ->
  item_ok i x.
Proof. intros <- <- <- <- <- ? <- *. by constructor. Qed.

Lemma bits_same {A B} `{EqDecision A} `{EqDecision B} (w : A) (b c : B) : bool_decide (w = w /\ b = c) = bool_decide (b = c).
Proof. apply bool_decide_ext. naive_solver. Qed.

Lemma bits_other {A B} `{EqDecision A} `{EqDecision B} (w v : A) (b c : B) : w ≠ v -> bool_decide (w = v /\ b = c) = false.
Proof. intros. apply bool_decide_eq_false_2. naive_solver. Qed.

(** A flag after an update: the bits and items are known to differ or not. *)
Ltac wbits :=
  repeat match goal with
  | |- context [ bool_decide (?w = ?w /\ ?b = ?c) ] => rewrite (bits_same w b c)
  | |- context [ bool_decide (?w = ?v /\ ?b = ?c) ] => rewrite (bits_other w v b c) by congruence
  | |- context [ bool_decide (?b = ?c) ] =>
      let v := eval vm_compute in (bool_decide (b = c)) in
      match v with true => idtac | false => idtac end; change (bool_decide (b = c)) with v
  end; cbn [negb]; rewrite ?orb_false_r, ?orb_true_r, ?andb_true_r, ?andb_false_r; try done.

(** *** The operations, by what they change *)

Section Effects.
Variables x x' : work_sys.
Hypothesis Hx : data_inv x.

Lemma data_same :
  (∀ v c, work_test v c x' = work_test v c x) -> (∀ j, home j x' = home j x) ->
  (∀ r, pending r x' = pending r x) -> (∀ r, ws_active x' r = ws_active x r) ->
  pending_cancels x' = pending_cancels x ->
  (∀ r, queue_test r K_WORK_QUEUE_BUSY_BIT x' = queue_test r K_WORK_QUEUE_BUSY_BIT x) -> data_inv x'.
Proof.
  intros Ef Eh Ep Ea Ec Eb. destruct Hx as [Hi Hs Hn Hcs Hb]. constructor.
  - intros j. apply (item_same j x); [done | intros *; by rewrite ?Ef, ?Eh, ?Ep, ?Ea..].
  - intros y. apply (sync_same y x); [done | intros *; by rewrite ?Ef, ?Ep, ?Ea, ?Ec..].
  - intros r. by rewrite Ep.
  - by rewrite Ec.
  - intros r. by rewrite Eb, Ea.
Qed.

Lemma accept_data i q :
  queued i x = false -> canceling i x = false -> (running i x = true -> home i x = Some q) ->
  (∀ v c, work_test v c x' = work_test v c x || bool_decide (Item i = v /\ K_WORK_QUEUED_BIT = c)) ->
  (∀ j, home j x' = if decide (i = j) then Some q else home j x) ->
  (∀ r, pending r x' = if decide (q = r) then pending q x ++ [Item i] else pending r x) ->
  (∀ r, ws_active x' r = ws_active x r) -> pending_cancels x' = pending_cancels x ->
  (∀ r, queue_test r K_WORK_QUEUE_BUSY_BIT x' = queue_test r K_WORK_QUEUE_BUSY_BIT x) -> data_inv x'.
Proof.
  intros Hq Hc Hr Ef Eh Ep Ea Ec Eb. destruct Hx as [Hi Hs Hn Hcs Hb].
  assert (∀ r v, v ∈ pending r x' <-> v ∈ pending r x \/ (v = Item i /\ r = q)) as Em.
  { intros r v. rewrite Ep. case_decide; set_solver. }
  assert (∀ r, Item i ∉ pending r x) as Hp by (intros r Hin; apply Hi in Hin as [? _]; congruence).
  constructor.
  - intros j. destruct (decide (i = j)) as [<- | Hne].
    + destruct (Hi i) as [H1 H2 H3 H4 H5 H6].
      apply (item_build i x' true (running i x) false (delayed i x) (work_test (Item i) K_WORK_DELAYABLE_BIT x) (Some q));
        unfold queued, running, canceling, delayed; rewrite ?Ef, ?Eh; wbits; [by rewrite decide_True | |].
      * intros r. rewrite Em. specialize (Hp r). intuition congruence.
      * intros r. rewrite Ea, H2. intuition congruence.
    + apply (item_same j x); [done | intros *; rewrite ?Ef, ?Eh, ?Em, ?Ea, ?decide_False by done..]; wbits; intuition congruence.
  - intros y. apply (sync_same y x); [done | intros *; rewrite ?Ef, ?Em, ?Ea, ?Ec..]; wbits; intuition congruence.
  - intros r. rewrite Ep. case_decide; [| done]. apply NoDup_app. split; [done |]. split; [set_solver | apply NoDup_singleton].
  - by rewrite Ec.
  - intros r. by rewrite Eb, Ea.
Qed.

Lemma withdraw_data i q :
  queued i x = true -> home i x = Some q ->
  (∀ v c, work_test v c x' = work_test v c x && negb (bool_decide (Item i = v /\ K_WORK_QUEUED_BIT = c))) ->
  (∀ j, home j x' = home j x) ->
  (∀ r, pending r x' = if decide (q = r) then find_and_remove (Item i) (pending q x) else pending r x) ->
  (∀ r, ws_active x' r = ws_active x r) -> pending_cancels x' = pending_cancels x ->
  (∀ r, queue_test r K_WORK_QUEUE_BUSY_BIT x' = queue_test r K_WORK_QUEUE_BUSY_BIT x) -> data_inv x'.
Proof.
  intros Hq Hh Ef Eh Ep Ea Ec Eb. destruct Hx as [Hi Hs Hn Hcs Hb].
  assert (∀ r v, v ∈ pending r x' <-> v ∈ pending r x /\ v ≠ Item i) as Em.
  { intros r v. rewrite Ep. case_decide; [subst; by apply find_and_remove_elem |]. split; [| by intros []].
    intros Hv. split; [done |]. intros ->. apply Hi in Hv as [_ Hv]. congruence. }
  constructor.
  - intros j. destruct (decide (i = j)) as [<- | Hne].
    + destruct (Hi i) as [H1 H2 H3 H4 H5 H6].
      apply (item_build i x' false (running i x) (canceling i x) (delayed i x) (work_test (Item i) K_WORK_DELAYABLE_BIT x) (Some q));
        unfold queued, running, canceling, delayed; rewrite ?Ef, ?Eh; wbits.
      * intros r. rewrite Em. intuition congruence.
      * intros r. rewrite Ea, H2, Hh. intuition congruence.
      * intros Hc. destruct (H4 Hc). congruence.
    + apply (item_same j x); [done | intros *; rewrite ?Ef, ?Eh, ?Em, ?Ea..]; wbits; intuition congruence.
  - intros y. apply (sync_same y x); [done | intros *; rewrite ?Ef, ?Em, ?Ea, ?Ec..]; wbits; intuition congruence.
  - intros r. rewrite Ep. case_decide; [| done]. by apply find_and_remove_nodup.
  - by rewrite Ec.
  - intros r. by rewrite Eb, Ea.
Qed.

(** A flag of item [i] that says nothing about lists. *)
Lemma flag_data i :
  (∀ v c, v ≠ Item i -> work_test v c x' = work_test v c x) ->
  queued i x' = queued i x -> running i x' = running i x ->
  (canceling i x' = true -> running i x = true /\ queued i x = false) ->
  (delayed i x' = true -> work_test (Item i) K_WORK_DELAYABLE_BIT x' = true) ->
  work_test (Item i) K_WORK_FLUSHING_BIT x' = false ->
  (∀ j, home j x' = home j x \/ (j = i /\ queued i x = false /\ running i x = false)) ->
  (∀ r, pending r x' = pending r x) -> (∀ r, ws_active x' r = ws_active x r) ->
  pending_cancels x' = pending_cancels x ->
  (∀ r, queue_test r K_WORK_QUEUE_BUSY_BIT x' = queue_test r K_WORK_QUEUE_BUSY_BIT x) -> data_inv x'.
Proof.
  intros Ef Eq Er Hc Hd Hf Eh Ep Ea Ec Eb. destruct Hx as [Hi Hs Hn Hcs Hb]. constructor.
  - intros j. destruct (decide (i = j)) as [<- | Hne].
    + destruct (Hi i) as [H1 H2 H3 H4 H5 H6].
      apply (item_build i x' (queued i x) (running i x) (canceling i x') (delayed i x')
        (work_test (Item i) K_WORK_DELAYABLE_BIT x') (home i x')); try done.
      * intros r. rewrite Ep, H1. destruct (Eh i) as [-> | (_ & -> & _)]; intuition congruence.
      * intros r. rewrite Ea, H2. destruct (Eh i) as [-> | (_ & _ & ->)]; intuition congruence.
      * destruct (Eh i) as [-> | (_ & -> & ->)]; [done | intuition congruence].
    + apply (item_same j x); [done | intros *; rewrite ?Ep, ?Ea..]; try done; [apply Ef; congruence |].
      destruct (Eh j) as [| (-> & _)]; done.
  - intros y. apply (sync_same y x); [done | intros *; rewrite ?Ep, ?Ea, ?Ec..]; try done. by apply Ef.
  - intros r. by rewrite Ep.
  - by rewrite Ec.
  - intros r. by rewrite Eb, Ea.
Qed.

Lemma canceller_data y :
  ~ used y x ->
  (∀ v c, work_test v c x' = work_test v c x) -> (∀ j, home j x' = home j x) ->
  (∀ r, pending r x' = pending r x) -> (∀ r, ws_active x' r = ws_active x r) ->
  pending_cancels x' = pending_cancels x ++ [y] ->
  (∀ r, queue_test r K_WORK_QUEUE_BUSY_BIT x' = queue_test r K_WORK_QUEUE_BUSY_BIT x) -> data_inv x'.
Proof.
  intros Hu Ef Eh Ep Ea Ec Eb. destruct Hx as [Hi Hs Hn Hcs Hb].
  assert (∀ z r, held z r x' <-> held z r x) as Ehl by (intros z r; unfold held; by rewrite Ep, Ea).
  constructor.
  - intros j. apply (item_same j x); [done | intros *; by rewrite ?Ef, ?Eh, ?Ep, ?Ea..].
  - intros z. destruct (Hs z) as [H1 H2 H3 H4]. constructor.
    + intros r. rewrite Ehl, !Ef. apply H1.
    + intros r r'. rewrite !Ehl. apply H2.
    + intros r. rewrite Ep, Ea. apply H3.
    + intros r. rewrite Ehl, Ec, elem_of_app, list_elem_of_singleton. intros [| ->]; [by apply H4 |].
      intros Hh. apply Hu. right. by exists r.
  - intros r. by rewrite Ep.
  - rewrite Ec. apply NoDup_app. split; [done |]. split; [| apply NoDup_singleton].
    intros z Hz ->%list_elem_of_singleton. apply Hu. by left.
  - intros r. by rewrite Eb, Ea.
Qed.

Lemma flusher_data y q l :
  ~ used y x -> l ≡ₚ Flusher y :: pending q x ->
  (∀ v c, v ≠ Flusher y -> work_test v c x' = work_test v c x) ->
  work_test (Flusher y) K_WORK_FLUSHING_BIT x' = true -> work_test (Flusher y) K_WORK_CANCELING_BIT x' = false ->
  (∀ j, home j x' = home j x) ->
  (∀ r, pending r x' = if decide (q = r) then l else pending r x) -> (∀ r, ws_active x' r = ws_active x r) ->
  pending_cancels x' = pending_cancels x ->
  (∀ r, queue_test r K_WORK_QUEUE_BUSY_BIT x' = queue_test r K_WORK_QUEUE_BUSY_BIT x) -> data_inv x'.
Proof.
  intros Hu Hl Ef Ef1 Ef2 Eh Ep Ea Ec Eb. destruct Hx as [Hi Hs Hn Hcs Hb].
  assert (∀ r v, v ∈ pending r x' <-> v ∈ pending r x \/ (v = Flusher y /\ r = q)) as Em.
  { intros r v. rewrite Ep. case_decide; [subst; rewrite Hl, elem_of_cons |]; intuition congruence. }
  assert (∀ r, ~ held y r x) as Hnh by (intros r Hh; apply Hu; right; by exists r).
  constructor.
  - intros j. apply (item_same j x); [done | intros *; rewrite ?Ef, ?Eh, ?Em, ?Ea by done..]; try done.
    intuition congruence.
  - intros z. destruct (decide (y = z)) as [<- | Hne].
    + assert (∀ r, held y r x' -> r = q) as Hheld.
      { intros r. unfold held. rewrite Em, Ea. specialize (Hnh r). unfold held in Hnh. tauto. }
      constructor.
      * by intros r _.
      * intros r r' ->%Hheld ->%Hheld. done.
      * intros r _. rewrite Ea. intros Ha. apply (Hnh r). by right.
      * intros r Hc. rewrite Ec in Hc. destruct Hu. by left.
    + apply (sync_same z x); [done | intros *; rewrite ?Ef, ?Em, ?Ea, ?Ec by congruence..]; try done.
      intuition congruence.
  - intros r. rewrite Ep. case_decide; [| done]. rewrite Hl. apply NoDup_cons. split; [| done].
    intros Hin. apply (Hnh q). by left.
  - by rewrite Ec.
  - intros r. by rewrite Eb, Ea.
Qed.

Lemma take_data q w l :
  pending q x = w :: l -> ws_active x q = None ->
  (∀ v c, work_test v c x' =
    (work_test v c x || bool_decide (w = v /\ K_WORK_RUNNING_BIT = c))
    && negb (bool_decide (w = v /\ K_WORK_QUEUED_BIT = c))) ->
  (∀ j, home j x' = home j x) ->
  (∀ r, pending r x' = if decide (q = r) then l else pending r x) ->
  (∀ r, ws_active x' r = if decide (q = r) then Some w else ws_active x r) ->
  pending_cancels x' = pending_cancels x ->
  (∀ r, queue_test r K_WORK_QUEUE_BUSY_BIT x' = queue_test r K_WORK_QUEUE_BUSY_BIT x || bool_decide (q = r)) ->
  data_inv x'.
Proof.
  intros Hp Hact Ef Eh Ep Ea Ec Eb. destruct Hx as [Hi Hs Hn Hcs Hb].
  pose proof (Hn q) as Hnd. rewrite Hp in Hnd. apply NoDup_cons in Hnd as [Hwl Hl].
  assert (∀ r v, v ∈ pending r x' <-> v ∈ pending r x /\ ~ (v = w /\ r = q)) as Em.
  { intros r v. rewrite Ep. case_decide; [subst; rewrite Hp, elem_of_cons | intuition congruence].
    split; [| tauto]. intros Hv. split; [by right |]. intros [-> _]. done. }
  assert (∀ r v, ws_active x' r = Some v <-> ws_active x r = Some v \/ (v = w /\ r = q)) as Em'.
  { intros r v. rewrite Ea. case_decide; [subst; rewrite Hact |]; intuition congruence. }
  assert (w ∈ pending q x) as Hin by (rewrite Hp; left).
  constructor.
  - intros j. destruct (decide (w = Item j)) as [-> | Hne].
    + destruct (Hi j) as [H1 H2 H3 H4 H5 H6]. destruct (proj1 (H1 q) Hin) as [Hqd Hh].
      apply (item_build j x' false true false (delayed j x) (work_test (Item j) K_WORK_DELAYABLE_BIT x) (Some q));
        unfold queued, running, canceling, delayed; rewrite ?Ef, ?Eh; wbits.
      * apply not_true_is_false. intros Ecn. destruct (H4 Ecn). congruence.
      * intros r. rewrite Em, H1, Hh. intuition congruence.
      * intros r. rewrite Em', H2, Hh. intuition congruence.
    + apply (item_same j x); [done | intros *; rewrite ?Ef, ?Eh, ?Em, ?Em'..]; wbits; intuition congruence.
  - intros z. destruct (decide (w = Flusher z)) as [-> | Hne].
    + destruct (Hs z) as [H1 H2 H3 H4].
      assert (∀ r, held z r x' <-> held z r x) as Hheld.
      { intros r. unfold held. rewrite Em, Em'. split; [intuition congruence |].
        intros [Hz | Hz]; [| tauto]. destruct (decide (r = q)) as [-> | Hr]; [tauto | left; intuition congruence]. }
      assert (held z q x) as Hz by (by left).
      constructor.
      * intros r _. rewrite !Ef. wbits. by apply (H1 q).
      * intros r r'. rewrite !Hheld. apply H2.
      * intros r. rewrite Em, Em'. intros [Hpz Hne] [Ha | [_ ->]]; [by apply (H3 r) | by apply Hne].
      * intros r. rewrite Ec, Hheld. apply H4.
    + apply (sync_same z x); [done | intros *; rewrite ?Ef, ?Em, ?Em', ?Ec..]; wbits; intuition congruence.
  - intros r. rewrite Ep. by case_decide.
  - by rewrite Ec.
  - intros r. rewrite Eb, Ea, orb_true_iff, Hb, bool_decide_eq_true. case_decide; intuition congruence.
Qed.

(** The end of a handler: it clears RUNNING, and CANCELING of an item or
    FLUSHING of a flusher. *)
Lemma done_data q w b :
  ws_active x q = Some w ->
  match w with Item _ => b = K_WORK_CANCELING_BIT | Flusher _ => b = K_WORK_FLUSHING_BIT end ->
  (∀ v c, work_test v c x' =
    work_test v c x && negb (bool_decide (w = v /\ K_WORK_RUNNING_BIT = c)) && negb (bool_decide (w = v /\ b = c))) ->
  (∀ j, home j x' = home j x) -> (∀ r, pending r x' = pending r x) ->
  (∀ r, ws_active x' r = if decide (q = r) then None else ws_active x r) ->
  NoDup (pending_cancels x') -> (∀ y, y ∈ pending_cancels x' -> y ∈ pending_cancels x) ->
  (∀ r, queue_test r K_WORK_QUEUE_BUSY_BIT x' = queue_test r K_WORK_QUEUE_BUSY_BIT x && bool_decide (q ≠ r)) ->
  data_inv x'.
Proof.
  intros Hact Hb' Ef Eh Ep Ea Ecn Ec Eb. destruct Hx as [Hi Hs Hn Hcs Hb].
  assert (∀ r v, ws_active x' r = Some v <-> ws_active x r = Some v /\ r ≠ q) as Em'.
  { intros r v. rewrite Ea. case_decide; intuition congruence. }
  constructor.
  - intros j. destruct (decide (w = Item j)) as [-> | Hne].
    + destruct (Hi j) as [H1 H2 H3 H4 H5 H6]. destruct (proj1 (H2 q) Hact) as [Hqd Hh]. subst b.
      apply (item_build j x' (queued j x) false false (delayed j x) (work_test (Item j) K_WORK_DELAYABLE_BIT x) (Some q));
        unfold queued, running, canceling, delayed; rewrite ?Ef, ?Eh; wbits.
      * intros r. rewrite Ep, H1, Hh. done.
      * intros r. rewrite Em', H2, Hh. intuition congruence.
    + apply (item_same j x); [done | intros *; rewrite ?Ef, ?Eh, ?Ep, ?Em'..]; wbits.
      split; [tauto |]. intros Ha. split; [done |]. intros ->. congruence.
  - intros z. destruct (decide (w = Flusher z)) as [-> | Hne].
    + destruct (Hs z) as [H1 H2 H3 H4]. assert (held z q x) as Hz by (by right).
      assert (∀ r, ~ held z r x') as Hheld.
      { intros r. unfold held. rewrite Ep, Em'. intros [Hp | [Ha Hr]].
        - assert (r = q) as -> by (apply H2; [by left | done]). by apply (H3 q).
        - apply Hr, H2; [by right | done]. }
      constructor; [by intros r ?%Hheld | by intros r r' ?%Hheld | intros r Hp; by destruct (Hheld r (or_introl Hp)) | done].
    + apply (sync_same z x); [done | intros *; rewrite ?Ef, ?Ep, ?Em'..]; wbits; [apply Ec |].
      split; [tauto |]. intros Ha. split; [done |]. intros ->. congruence.
  - intros r. by rewrite Ep.
  - done.
  - intros r. rewrite Eb, Ea, andb_true_iff, Hb, bool_decide_eq_true. case_decide; intuition congruence.
Qed.
End Effects.
