(* ===== verification/WorkTrace.v ===== *)
(** * Work queues: traces

    The trace of what happened to each item, and how every operation extends
    it: submissions are conserved, and a flusher is behind what it waits for. *)

From Stdlib Require Import ZArith Lia Bool.
From stdpp Require Import base numbers functions list gmap sets.
From S2P Require Import Prelude TimeoutQ Kernel PrioQ Sched SchedInv SchedOps Threads WaitApi Sem Work WorkInv.

Open Scope Z_scope.

(** ** Traces, the newest event first *)

(** [Accept]: a call put the item on a queue; [Withdraw]: a cancellation took it
    off; [Start] and [Finish]: its handler was called and returned; [FlushFrom]:
    a flush of the item began to wait on a sync object; [FlushEnd]: the flusher
    of the object was run. *)
Inductive work_event :=
  | Accept (i : nat) | Withdraw (i : nat) | Start (i : nat) | Finish (i : nat) | FlushFrom (y i : nat) | FlushEnd (y : nat).

#[export] Instance work_event_eq_dec : EqDecision work_event.
Proof. solve_decision. Defined.

Definition count (e : work_event) (tr : list work_event) : nat := length (filter (λ e', e' = e) tr).

(** Submissions that will not run any more. *)
Definition settled (i : nat) (tr : list work_event) : nat := (count (Finish i) tr + count (Withdraw i) tr)%nat.

(** What the last flush on object [y] waits for: the item and how many of its
    submissions had been accepted. *)
Fixpoint target (y : nat) (tr : list work_event) : option (nat * nat) :=
  match tr with
  | [] => None
  | FlushFrom z i :: tr => if decide (z = y) then Some (i, count (Accept i) tr) else target y tr
  | _ :: tr => target y tr
  end.

Record trace_inv (tr : list work_event) (x : work_sys) : Prop := {
  ti_accepted : ∀ i, (count (Accept i) tr = count (Start i) tr + count (Withdraw i) tr + Nat.b2n (queued i x))%nat;
  ti_started : ∀ i, (count (Start i) tr = count (Finish i) tr + Nat.b2n (running i x))%nat;
  ti_waiting : ∀ y q l1 l2, pending q x = l1 ++ Flusher y :: l2 -> exists i n, target y tr = Some (i, n) /\
    (n <= settled i tr + Nat.b2n (bool_decide (ws_active x q = Some (Item i))) + Nat.b2n (bool_decide (Item i ∈ l1)))%nat;
  ti_flushing : ∀ y q, ws_active x q = Some (Flusher y) -> exists i n, target y tr = Some (i, n) /\ (n <= settled i tr)%nat
}.

Lemma count_cons e e' tr : count e (e' :: tr) = ((if decide (e' = e) then 1 else 0) + count e tr)%nat.
Proof. unfold count. rewrite filter_cons. by case_decide. Qed.

Lemma work_settled_cons j e tr :
  settled j (e :: tr) =
  ((if decide (e = Finish j) then 1 else 0) + (if decide (e = Withdraw j) then 1 else 0) + settled j tr)%nat.
Proof. unfold settled. rewrite !count_cons. lia. Qed.

(** Taking [w] off a list keeps what is before the others. *)
Lemma find_and_remove_before w f l l1 l2 :
  f ≠ w -> find_and_remove w l = l1 ++ f :: l2 ->
  exists l1' l2', l = l1' ++ f :: l2' /\ (∀ v, v ∈ l1' -> v ≠ w -> v ∈ l1) /\ (∀ v, v ∈ l1 -> v ∈ l1').
Proof.
  intros Hf. revert l1. induction l as [| u l IH]; intros l1 E; simpl in E; [by destruct l1 |].
  case_decide as Hu.
  - subst. exists (w :: l1), l2. split; [done |]. split; [set_solver | set_solver].
  - destruct l1 as [| v l1]; simpl in E; injection E as -> E.
    + exists [], l. split; [done |]. split; [set_solver | done].
    + destruct (IH l1 E) as (l1' & l2' & -> & H1 & H2). exists (v :: l1'), l2'. split; [done |]. split; set_solver.
Qed.

Lemma find_and_remove_keeps w f l l1 l2 :
  f ≠ w -> l = l1 ++ f :: l2 -> exists l1' l2', find_and_remove w l = l1' ++ f :: l2' /\ (∀ v, v ∈ l1' -> v ∈ l1).
Proof.
  intros Hf ->. induction l1 as [| u l1 IH]; simpl.
  - rewrite decide_False by done. by exists [], (find_and_remove w l2).
  - case_decide; [by exists l1, l2; split; [| set_solver] |].
    destruct IH as (l1' & l2' & -> & Hin). exists (u :: l1'), l2'. split; [done | set_solver].
Qed.

Lemma split_unique (f : work_id) l1 l2 k1 k2 : f ∉ l1 -> f ∉ k1 -> l1 ++ f :: l2 = k1 ++ f :: k2 -> l1 = k1.
Proof.
  revert k1. induction l1 as [| u l1 IH]; intros [| v k1] Hl Hk E; [done | | |].
  - injection E as -> _. destruct Hk. left.
  - injection E as -> _. destruct Hl. left.
  - injection E as -> E. f_equal. apply IH; [set_solver.. | done].
Qed.

Lemma b2n_le (a b : bool) : (a = true -> b = true) -> (Nat.b2n a <= Nat.b2n b)%nat.
Proof. destruct a, b; simpl; intros H; (lia || by discriminate H). Qed.

(** A flusher in front of the list, or right after the item it waits for. *)
Definition with_flusher (i y : nat) (l : list work_id) : list work_id :=
  if decide (Item i ∈ l) then insert_after (Item i) (Flusher y) l else Flusher y :: l.

Lemma with_flusher_perm i y l : with_flusher i y l ≡ₚ Flusher y :: l.
Proof. unfold with_flusher. case_decide; [by apply insert_after_perm | done]. Qed.

Lemma with_flusher_remove i y l : Flusher y ∉ l -> find_and_remove (Flusher y) (with_flusher i y l) = l.
Proof.
  intros Hy. unfold with_flusher. case_decide as Hi; [| by simpl; rewrite decide_True].
  apply list_elem_of_split_l in Hi as (a & b & -> & Ha). rewrite insert_after_split by done.
  change (a ++ Item i :: Flusher y :: b) with (a ++ [Item i] ++ Flusher y :: b). rewrite app_assoc.
  rewrite find_and_remove_split by set_solver. by rewrite <- app_assoc.
Qed.

Lemma with_flusher_after i y l l1 l2 :
  NoDup l -> Flusher y ∉ l -> Item i ∈ l -> with_flusher i y l = l1 ++ Flusher y :: l2 -> Item i ∈ l1.
Proof.
  intros Hl Hy Hi E. assert (NoDup (with_flusher i y l)) as Hn by (rewrite with_flusher_perm; by constructor).
  rewrite E in Hn. apply NoDup_app in Hn as (_ & Hn & _). unfold with_flusher in E. rewrite decide_True in E by done.
  apply list_elem_of_split_l in Hi as (a & b & -> & Ha). rewrite insert_after_split in E by done.
  change (a ++ Item i :: Flusher y :: b) with (a ++ [Item i] ++ Flusher y :: b) in E. rewrite app_assoc in E.
  apply split_unique in E as <-; [set_solver | set_solver |]. intros Hin. apply (Hn _ Hin). left.
Qed.

(** *** The operations, by what they change *)

Section Effects.
Variables (tr : list work_event) (x x' : work_sys).
Hypothesis Hx : trace_inv tr x.
Hypothesis Hd : data_inv x.

Lemma trace_same :
  (∀ j, queued j x' = queued j x) -> (∀ j, running j x' = running j x) ->
  (∀ r, pending r x' = pending r x) -> (∀ r, ws_active x' r = ws_active x r) -> trace_inv tr x'.
Proof. intros Eq Er Ep Ea. destruct Hx. constructor; intros *; rewrite ?Eq, ?Er, ?Ep, ?Ea; eauto. Qed.

Lemma accept_trace i q :
  queued i x = false -> (∀ j, queued j x' = queued j x || bool_decide (i = j)) -> (∀ j, running j x' = running j x) ->
  (∀ r, pending r x' = if decide (q = r) then pending q x ++ [Item i] else pending r x) ->
  (∀ r, ws_active x' r = ws_active x r) -> trace_inv (Accept i :: tr) x'.
Proof.
  intros Hq Eq Er Ep Ea. destruct Hx as [H1 H2 H3 H4]. constructor.
  - intros j. specialize (H1 j). rewrite !count_cons, Eq. repeat case_decide; simplify_eq.
    + rewrite Hq in *. rewrite bool_decide_eq_true_2 by done. simpl in *. lia.
    + rewrite bool_decide_eq_false_2, orb_false_r by congruence. lia.
  - intros j. specialize (H2 j). rewrite !count_cons, Er. repeat case_decide; simplify_eq. lia.
  - intros y r l1 l2 E. rewrite Ea.
    assert (exists l3, pending r x = l1 ++ Flusher y :: l3) as [l3 El].
    { rewrite Ep in E. case_decide; [subst | eauto]. destruct l2 as [| v l2 _] using rev_ind.
      - apply app_inj_tail in E as [_ ?]. done.
      - rewrite app_comm_cons, app_assoc in E. apply app_inj_tail in E as [-> _]. eauto. }
    destruct (H3 _ _ _ _ El) as (j & n & Ht & Hn). exists j, n. split; [done |]. rewrite work_settled_cons. lia.
  - intros y r. rewrite Ea. intros (j & n & Ht & Hn)%H4. exists j, n. split; [done |]. rewrite work_settled_cons. lia.
Qed.

Lemma withdraw_trace i q :
  queued i x = true -> (∀ j, queued j x' = queued j x && bool_decide (i ≠ j)) -> (∀ j, running j x' = running j x) ->
  (∀ r, pending r x' = if decide (q = r) then find_and_remove (Item i) (pending q x) else pending r x) ->
  (∀ r, ws_active x' r = ws_active x r) -> trace_inv (Withdraw i :: tr) x'.
Proof.
  intros Hq Eq Er Ep Ea. destruct Hx as [H1 H2 H3 H4]. constructor.
  - intros j. specialize (H1 j). rewrite !count_cons, Eq. repeat case_decide; simplify_eq.
    + rewrite Hq in *. rewrite bool_decide_eq_false_2 by tauto. simpl in *. lia.
    + rewrite bool_decide_eq_true_2, andb_true_r by congruence. lia.
  - intros j. specialize (H2 j). rewrite !count_cons, Er. repeat case_decide; simplify_eq. lia.
  - intros y r l1 l2 E. rewrite Ea.
    assert (exists l1' l2', pending r x = l1' ++ Flusher y :: l2' /\ (∀ v, v ∈ l1' -> v ≠ Item i -> v ∈ l1)) as (l1' & l2' & El & Hl).
    { rewrite Ep in E. case_decide; [subst | by exists l1, l2].
      destruct (find_and_remove_before (Item i) (Flusher y) _ _ _ ltac:(done) E) as (l1' & l2' & -> & Hl & _). eauto. }
    destruct (H3 _ _ _ _ El) as (j & n & Ht & Hn). exists j, n. split; [done |]. rewrite work_settled_cons.
    destruct (decide (Item j ∈ l1')) as [Hj |]; [rewrite (bool_decide_eq_true_2 (Item j ∈ l1')) in Hn by done |
      rewrite (bool_decide_eq_false_2 (Item j ∈ l1')) in Hn by done; simpl in *; lia].
    rewrite decide_False by done. destruct (decide (Withdraw i = Withdraw j)) as [_ | Hij]; simpl in *; [lia |].
    rewrite (bool_decide_eq_true_2 (Item j ∈ l1)) by (apply Hl; congruence). simpl. lia.
  - intros y r. rewrite Ea. intros (j & n & Ht & Hn)%H4. exists j, n. split; [done |]. rewrite work_settled_cons. lia.
Qed.

Lemma flush_trace i y q :
  (∀ r, Flusher y ∉ pending r x) -> (∀ r, ws_active x r ≠ Some (Flusher y)) -> home i x = Some q ->
  (∀ j, queued j x' = queued j x) -> (∀ j, running j x' = running j x) ->
  (∀ r, pending r x' = if decide (q = r) then with_flusher i y (pending q x) else pending r x) ->
  (∀ r, ws_active x' r = ws_active x r) -> trace_inv (FlushFrom y i :: tr) x'.
Proof.
  intros Hy Ha Hh Eq Er Ep Ea. destruct Hx as [H1 H2 H3 H4].
  assert (∀ j, settled j (FlushFrom y i :: tr) = settled j tr) as Eset.
  { intros j. by rewrite work_settled_cons, !decide_False by done. }
  destruct (di_item _ Hd i) as [I1 I2 _ _ _ _]. constructor.
  - intros j. rewrite !count_cons, Eq, !decide_False by done. apply H1.
  - intros j. rewrite !count_cons, Er, !decide_False by done. apply H2.
  - intros z r l1 l2 E. rewrite Ea, Ep in *. cbn [target]. destruct (decide (y = z)) as [<- | Hne].
    + case_decide; [subst r | by destruct (Hy r); rewrite E; set_solver].
      exists i, (count (Accept i) tr). split; [done |]. rewrite Eset. unfold settled. rewrite H1, H2.
      assert (Nat.b2n (running i x) <= Nat.b2n (bool_decide (ws_active x q = Some (Item i))))%nat.
      { apply b2n_le. intros Hr. apply bool_decide_eq_true, I2. done. }
      assert (Nat.b2n (queued i x) <= Nat.b2n (bool_decide (Item i ∈ l1)))%nat; [| lia].
      apply b2n_le. intros Hq. apply bool_decide_eq_true. eapply with_flusher_after; [apply Hd | done | | done]. by apply I1.
    + case_decide; [subst r | setoid_rewrite Eset; by apply (H3 z r l1 l2)].
      destruct (find_and_remove_keeps (Flusher y) (Flusher z) _ _ _ ltac:(congruence) E) as (l1' & l2' & El & Hl).
      rewrite with_flusher_remove in El by done. destruct (H3 _ _ _ _ El) as (j & n & Ht & Hn). exists j, n.
      split; [done |]. rewrite Eset.
      assert (Nat.b2n (bool_decide (Item j ∈ l1')) <= Nat.b2n (bool_decide (Item j ∈ l1)))%nat; [| lia].
      apply b2n_le. rewrite !bool_decide_eq_true. apply Hl.
  - intros z r. rewrite Ea. cbn [target]. intros Hz. destruct (decide (y = z)) as [<- | Hne]; [by destruct (Ha r) |].
    setoid_rewrite Eset. by apply (H4 z r).
Qed.

Definition start_event (w : work_id) : list work_event := match w with Item i => [Start i] | Flusher _ => [] end.

Lemma take_trace q w l :
  pending q x = w :: l -> ws_active x q = None ->
  (∀ j, queued j x' = queued j x && negb (bool_decide (w = Item j))) -> (∀ j, running j x' = running j x || bool_decide (w = Item j)) ->
  (∀ r, pending r x' = if decide (q = r) then l else pending r x) ->
  (∀ r, ws_active x' r = if decide (q = r) then Some w else ws_active x r) -> trace_inv (start_event w ++ tr) x'.
Proof.
  intros Hp Hact Eq Er Ep Ea. destruct Hx as [H1 H2 H3 H4].
  assert (∀ e, (∀ i, e ≠ Start i) -> count e (start_event w ++ tr) = count e tr) as Ec.
  { intros e He. destruct w as [i | y]; [| done]. simpl. rewrite count_cons, decide_False; [done |]. intros E. by apply (He i). }
  assert (∀ j, count (Start j) (start_event w ++ tr) = Nat.b2n (bool_decide (w = Item j)) + count (Start j) tr)%nat as Es.
  { intros j. destruct w as [i | y]; simpl; [rewrite count_cons |]; repeat case_decide; repeat case_bool_decide; naive_solver. }
  assert (∀ j, settled j (start_event w ++ tr) = settled j tr) as Eset by (intros j; unfold settled; by rewrite !Ec).
  assert (∀ y, target y (start_event w ++ tr) = target y tr) as Et by (intros y; by destruct w).
  assert (∀ i, w = Item i -> queued i x = true /\ running i x = false) as Hw.
  { intros i ->. destruct (di_item _ Hd i) as [I1 I2 I3 _ _ _].
    destruct (proj1 (I1 q)) as [Hq Hh]; [rewrite Hp; left |]. split; [done |]. apply not_true_is_false. intros Hr.
    assert (ws_active x q = Some (Item i)) by (by apply I2). congruence. }
  constructor.
  - intros j. specialize (H1 j). rewrite (Ec (Accept j)), (Ec (Withdraw j)), Es, Eq by done. case_bool_decide as E; simpl; rewrite ?andb_true_r, ?andb_false_r; [| lia].
    destruct (Hw j E) as [Hq _]. rewrite Hq in *. simpl in *. lia.
  - intros j. specialize (H2 j). rewrite (Ec (Finish j)), Es, Er by done. case_bool_decide as E; [| by rewrite orb_false_r].
    destruct (Hw j E) as [_ Hr]. rewrite Hr, ?orb_true_r in *. simpl in *. lia.
  - intros y r l1 l2 E. rewrite Et, Ea. rewrite Ep in E. case_decide as Hr; [subst r | setoid_rewrite Eset; by apply (H3 y r l1 l2)].
    destruct (H3 y q (w :: l1) l2) as (j & n & Ht & Hn); [by rewrite Hp, E |]. exists j, n. split; [done |].
    rewrite Eset. rewrite Hact, (bool_decide_eq_false_2 (None = _)) in Hn by done.
    repeat case_bool_decide; simpl in *; try lia; exfalso; set_solver.
  - intros y r. rewrite Et, Ea. setoid_rewrite Eset. case_decide as Hr; [subst r | apply H4]. intros [= ->].
    destruct (H3 y q [] l Hp) as (j & n & Ht & Hn). exists j, n. split; [done |].
    rewrite Hact, bool_decide_eq_false_2, bool_decide_eq_false_2 in Hn by (done || set_solver). simpl in Hn. lia.
Qed.

Definition finish_event (w : work_id) : work_event := match w with Item i => Finish i | Flusher y => FlushEnd y end.

Lemma done_trace q w :
  ws_active x q = Some w -> (∀ j, queued j x' = queued j x) -> (∀ j, running j x' = running j x && negb (bool_decide (w = Item j))) ->
  (∀ r, pending r x' = pending r x) -> (∀ r, ws_active x' r = if decide (q = r) then None else ws_active x r) ->
  trace_inv (finish_event w :: tr) x'.
Proof.
  intros Hact Eq Er Ep Ea. destruct Hx as [H1 H2 H3 H4].
  assert (∀ j, count (Finish j) (finish_event w :: tr) = Nat.b2n (bool_decide (w = Item j)) + count (Finish j) tr)%nat as Ef.
  { intros j. destruct w as [i | y]; simpl; rewrite count_cons; repeat case_decide; repeat case_bool_decide; naive_solver. }
  assert (∀ e, (∀ i, e ≠ Finish i /\ e ≠ FlushEnd i) -> count e (finish_event w :: tr) = count e tr) as Ec.
  { intros e He. rewrite count_cons, decide_False; [done |]. destruct w as [i | y]; simpl; intros E; by destruct (He i) || by destruct (He y). }
  assert (∀ j, settled j (finish_event w :: tr) = Nat.b2n (bool_decide (w = Item j)) + settled j tr)%nat as Eset.
  { intros j. unfold settled. rewrite Ef, Ec by done. lia. }
  assert (∀ y, target y (finish_event w :: tr) = target y tr) as Et by (intros y; by destruct w).
  constructor.
  - intros j. rewrite !Ec, Eq by done. apply H1.
  - intros j. specialize (H2 j). rewrite (Ec (Start j)), Ef, Er by done. case_bool_decide as E; simpl; rewrite ?andb_true_r, ?andb_false_r; [| lia].
    destruct (proj1 (ii_running _ _ (di_item _ Hd j) q)) as [Hr _]; [congruence |]. rewrite Hr in *. simpl in *. lia.
  - intros y r l1 l2 E. rewrite Et, Ea. rewrite Ep in E. destruct (H3 _ _ _ _ E) as (j & n & Ht & Hn). exists j, n.
    split; [done |]. rewrite Eset. destruct (decide (q = r)) as [<- | Hr]; [| lia].
    rewrite Hact in Hn. repeat case_bool_decide; simpl in *; try lia; exfalso; naive_solver.
  - intros y r. rewrite Et, Ea. case_decide as Hr; [done |]. intros (j & n & Ht & Hn)%H4. exists j, n. split; [done |].
    rewrite Eset. lia.
Qed.
End Effects.
