(* ===== verification/WorkOps.v ===== *)
(** * Work queues: the operations keep the invariant

    The wait queues of the work module against its state, and the invariant of
    WorkInv.v and WorkTrace.v through every function of kernel/work.c. *)

From Stdlib Require Import ZArith Lia Bool.
From stdpp Require Import base numbers functions list gmap sets.
From S2P Require Import Prelude TimeoutQ Kernel PrioQ Sched SchedInv SchedOps Threads WaitApi Sem Work WorkKern WorkInv WorkTrace.

Open Scope Z_scope.

(** ** The wait queues *)

Inductive wait_object := Notify (q : nat) | Drain (q : nat) | Sync (y : nat).

#[export] Instance wait_object_eq_dec : EqDecision wait_object.
Proof. solve_decision. Defined.

Definition wq_of (x : work_sys) (o : wait_object) : wqid :=
  match o with
  | Notify q => notifyq (ws_queue x q)
  | Drain q => drainq (ws_queue x q)
  | Sync y => sem_wait_q (sync_sem (ws_sync x y))
  end.

Definition waiting (o : wait_object) (x : work_sys) : list tid := waitq (ws_kernel x) (wq_of x o).

Definition draining (q : nat) (x : work_sys) : bool := queue_test q K_WORK_QUEUE_DRAIN_BIT x.

(** A queue thread sleeps only when it has nothing to do. *)
Definition notify_ok (q : nat) (x : work_sys) : Prop :=
  waiting (Notify q) x = [] \/
  (waiting (Notify q) x = [wq_thread (ws_queue x q)] /\ pending q x = [] /\ draining q x = false /\ ws_active x q = None).

(** Threads wait for a drain only while there is one. *)
Definition drain_ok (q : nat) (x : work_sys) : Prop := waiting (Drain q) x ≠ [] -> draining q x = true.

(** A thread waits on a sync object only while the object takes part in a flush
    or a cancellation, whose end has not been signalled. *)
Record sem_state (y : nat) (x : work_sys) : Prop := {
  ss_used : used y x -> sem_count (sync_sem (ws_sync x y)) = 0 /\ sem_limit (sync_sem (ws_sync x y)) = 1;
  ss_waiter : waiting (Sync y) x = [] \/ (used y x /\ exists t, waiting (Sync y) x = [t])
}.

Definition linked (i : nat) (x : work_sys) : bool := is_linked (dwork_timeout i) (timeouts (ws_kernel x)).

Record kern_inv (x : work_sys) : Prop := {
  ki_sched : sched_inv ∅ (ws_kernel x);
  ki_objects : ∀ o o', wq_of x o = wq_of x o' -> o = o';
  ki_threads : ∀ q r, wq_thread (ws_queue x q) = wq_thread (ws_queue x r) -> q = r;
  ki_notify : ∀ q, notify_ok q x;
  ki_drain : ∀ q, drain_ok q x;
  ki_sync : ∀ y, sem_state y x;
  ki_timeout : ∀ i, linked i x = true -> delayed i x = true
}.

(** The objects stay where they are. *)
Record same_objects (x x' : work_sys) : Prop := {
  so_wq : ∀ o, wq_of x' o = wq_of x o;
  so_thread : ∀ q, wq_thread (ws_queue x' q) = wq_thread (ws_queue x q)
}.

Lemma same_objects_refl x : same_objects x x.
Proof. by constructor. Qed.

Lemma same_objects_trans x y z : same_objects x y -> same_objects y z -> same_objects x z.
Proof. intros [] []. constructor; congruence. Qed.

(** A setter that keeps the static fields. *)
Ltac keep_objects := constructor; [intros []; cbn [wq_of]; wunfold; wcase; wunfold; congruence | intros; wunfold; wcase; wunfold; congruence].

Lemma same_objects_kernel f x : same_objects x (upd_kernel f x).
Proof. keep_objects. Qed.
Lemma same_objects_work w f x : same_objects x (upd_work w f x).
Proof. keep_objects. Qed.
Lemma same_objects_set w b x : same_objects x (work_set w b x).
Proof. apply same_objects_work. Qed.
Lemma same_objects_clear w b x : same_objects x (work_clear w b x).
Proof. apply same_objects_work. Qed.
Lemma same_objects_dwork i v x : same_objects x (set_dwork_queue i v x).
Proof. keep_objects. Qed.
Lemma same_objects_cancels l x : same_objects x (set_pending_cancels l x).
Proof. keep_objects. Qed.
Lemma same_objects_active q v x : same_objects x (set_active q v x).
Proof. keep_objects. Qed.
Lemma same_objects_pending q l x : same_objects x (set_pending q l x).
Proof. keep_objects. Qed.
Lemma same_objects_qset q b x : same_objects x (queue_set q b x).
Proof. keep_objects. Qed.
Lemma same_objects_qclear q b x : same_objects x (queue_clear q b x).
Proof. keep_objects. Qed.
Lemma same_objects_sync y v x :
  sem_wait_q (sync_sem v) = sem_wait_q (sync_sem (ws_sync x y)) -> same_objects x (set_sync y v x).
Proof. intros H. keep_objects. Qed.

Create HintDb work.
#[export] Hint Resolve same_objects_kernel same_objects_work same_objects_set same_objects_clear same_objects_dwork same_objects_cancels
  same_objects_active same_objects_pending same_objects_qset same_objects_qclear : work.

(** Setter after setter. *)
Ltac solve_objects :=
  repeat (eapply same_objects_trans; [| solve [eauto 1 with work nocore]]); first [assumption | apply same_objects_refl].

Lemma notify_same q x x' :
  notify_ok q x -> waiting (Notify q) x' = waiting (Notify q) x -> wq_thread (ws_queue x' q) = wq_thread (ws_queue x q) ->
  (pending q x = [] -> pending q x' = []) -> (draining q x = false -> draining q x' = false) ->
  (ws_active x q = None -> ws_active x' q = None) -> notify_ok q x'.
Proof.
  intros [H | (H & H1 & H2 & H3)] Hw Ht Hp Hd Ha; [left; congruence |]. right. rewrite Hw, Ht. auto.
Qed.

Lemma drain_same q x x' :
  drain_ok q x -> waiting (Drain q) x' = waiting (Drain q) x -> (draining q x = true -> draining q x' = true) -> drain_ok q x'.
Proof. intros H Hw Hd. unfold drain_ok. rewrite Hw. auto. Qed.

Lemma sem_same y x x' :
  sem_state y x -> waiting (Sync y) x' = waiting (Sync y) x -> (used y x' <-> used y x) ->
  sync_sem (ws_sync x' y) = sync_sem (ws_sync x y) -> sem_state y x'.
Proof. intros [H1 H2] Hw Hu Hs. constructor; rewrite ?Hw, ?Hu, ?Hs; done. Qed.

Section Kern.
Context {cfg : Kconfig}.
Variables x x' : work_sys.
Hypothesis Hx : kern_inv x.
Hypothesis Hobj : same_objects x x'.

(** A move of the kernel that concerns one wait object. *)
Lemma moved_waiting o l :
  moved (λ v, if decide (wq_of x o = v) then l else waitq (ws_kernel x) v) (ws_kernel x) (ws_kernel x') ->
  ∀ o', waiting o' x' = if decide (o = o') then l else waiting o' x.
Proof.
  intros Hm o'. unfold waiting. rewrite (so_wq _ _ Hobj), (mv_waitq _ _ _ Hm).
  destruct (decide (wq_of x o = wq_of x o')) as [E | E].
  - apply (ki_objects _ Hx) in E as ->. by rewrite decide_True.
  - rewrite decide_False; [done |]. by intros ->.
Qed.

Lemma moved_no_waiting :
  moved (waitq (ws_kernel x)) (ws_kernel x) (ws_kernel x') -> ∀ o, waiting o x' = waiting o x.
Proof. intros Hm o. unfold waiting. by rewrite (so_wq _ _ Hobj), (mv_waitq _ _ _ Hm). Qed.

Lemma kern_build :
  sched_inv ∅ (ws_kernel x') -> (∀ q, notify_ok q x') -> (∀ q, drain_ok q x') -> (∀ y, sem_state y x') ->
  (∀ i, linked i x' = true -> delayed i x' = true) -> kern_inv x'.
Proof.
  intros. constructor; try done.
  - intros o o'. rewrite !(so_wq _ _ Hobj). apply Hx.
  - intros q r. rewrite !(so_thread _ _ Hobj). apply Hx.
Qed.
End Kern.

Record work_inv (tr : list work_event) (x : work_sys) : Prop := {
  wi_data : data_inv x;
  wi_trace : trace_inv tr x;
  wi_kern : kern_inv x
}.

Section Ops.
Context {cfg : Kconfig}.
Implicit Types (tr : list work_event) (x : work_sys) (q i y : nat) (queue : option nat).

(** ** Notifying a queue *)

Lemma notify_eq q x :
  (notify_queue_locked (Some q) x).2 = upd_kernel (λ s, (z_sched_wake (notifyq (ws_queue x q)) 0 0 s).2) x.
Proof. unfold notify_queue_locked, upd_kernel. by destruct (z_sched_wake _ _ _ _). Qed.

Lemma notify_none q x : notify_ok q x -> tail (waiting (Notify q) x) = [].
Proof. by intros [-> | (-> & _)]. Qed.

(** An operation on queue [q] that notifies it: whatever happened to its list
    and flags, its thread does not sleep. *)
Lemma kern_notified q x x' :
  kern_inv x -> same_objects x x' -> ws_kernel x' = (z_sched_wake (wq_of x (Notify q)) 0 0 (ws_kernel x)).2 ->
  (∀ r, r ≠ q -> pending r x' = pending r x /\ draining r x' = draining r x) ->
  (draining q x = true -> draining q x' = true) -> (∀ r, ws_active x' r = ws_active x r) ->
  (∀ y, waiting (Sync y) x' = waiting (Sync y) x -> sem_state y x') ->
  (∀ i, delayed i x' = delayed i x) -> kern_inv x'.
Proof.
  intros Hx Hobj Hk Ho Hd Ha Hs Hdl.
  destruct (moved_wake (wq_of x (Notify q)) 0 0 (ws_kernel x)) as [Hm _]; [apply Hx |]. rewrite <- Hk in Hm.
  assert (moved (λ v, if decide (wq_of x (Notify q) = v) then [] else waitq (ws_kernel x) v) (ws_kernel x) (ws_kernel x')) as Hm'.
  { destruct Hm as [M1 M2 M3]. constructor; [done | | done]. intros v. rewrite M2. case_decide; [| done].
    apply notify_none. apply Hx. }
  pose proof (moved_waiting x x' Hx Hobj _ _ Hm') as Hw. apply (kern_build x x' Hx Hobj).
  - apply Hm'.
  - intros r. destruct (decide (r = q)) as [-> | Hr]; [left; by rewrite Hw, decide_True |].
    destruct (Ho r Hr) as [E1 E2].
    apply (notify_same r x); [apply Hx | rewrite Hw, decide_False by congruence; done | apply Hobj | by rewrite E1 | by rewrite E2 | by rewrite Ha].
  - intros r. apply (drain_same r x); [apply Hx | by rewrite Hw, decide_False |].
    destruct (decide (r = q)) as [-> | Hr]; [done |]. by rewrite (proj2 (Ho r Hr)).
  - intros y. apply Hs. by rewrite Hw, decide_False.
  - intros i Hl. rewrite Hdl. apply Hx. exact (mv_linked _ _ _ Hm' _ Hl).
Qed.

Lemma used_same y x x' :
  (∀ q, Flusher y ∈ pending q x' <-> Flusher y ∈ pending q x) ->
  (∀ q, ws_active x' q = Some (Flusher y) <-> ws_active x q = Some (Flusher y)) ->
  (y ∈ pending_cancels x' <-> y ∈ pending_cancels x) -> used y x' <-> used y x.
Proof. intros Hp Ha Hc. unfold used, held. rewrite Hc. by setoid_rewrite Hp; setoid_rewrite Ha. Qed.

(** ** Submission *)

Definition accepted i q x : work_sys :=
  upd_work (Item i) (set_work_queue (Some q)) (work_set (Item i) K_WORK_QUEUED_BIT
    (notify_queue_locked (Some q) (set_pending q (pending q x ++ [Item i]) x)).2).

(** When a queue takes a submission. *)
Definition queue_accepts q x : bool :=
  queue_test q K_WORK_QUEUE_STARTED_BIT x &&
  (if draining q x then bool_decide (current (ws_kernel x) = wq_thread (ws_queue x q)) && negb (k_is_in_isr x)
   else negb (queue_test q K_WORK_QUEUE_PLUGGED_BIT x)).

Lemma queue_submit_eq q w x :
  queue_submit_locked (Some q) w x =
  if queue_accepts q x then (1, (notify_queue_locked (Some q) (set_pending q (pending q x ++ [w]) x)).2)
  else ((if queue_test q K_WORK_QUEUE_STARTED_BIT x then - EBUSY else - ENODEV), x).
Proof.
  unfold queue_submit_locked, queue_accepts, draining.
  destruct (queue_test q K_WORK_QUEUE_STARTED_BIT x), (queue_test q K_WORK_QUEUE_DRAIN_BIT x),
    (queue_test q K_WORK_QUEUE_PLUGGED_BIT x), (bool_decide _), (k_is_in_isr x); reflexivity.
Qed.

(** The queue a submission goes to: where the item runs, else the one named,
    else the last one. *)
Definition submit_queue i queue x : option nat :=
  if running i x then home i x else match queue with Some q => Some q | None => home i x end.

(** What a submission returns and does, on every branch. *)
Lemma submit_eq i queue x :
  submit_to_queue_locked (Item i) queue x =
  if canceling i x then (- EBUSY, None, x)
  else if queued i x then (0, None, x)
  else match submit_queue i queue x with
       | None => (- EINVAL, None, x)
       | Some q =>
           if queue_accepts q x then ((if running i x then 2 else 1), Some q, accepted i q x)
           else ((if queue_test q K_WORK_QUEUE_STARTED_BIT x then - EBUSY else - ENODEV), None, x)
       end.
Proof.
  unfold submit_to_queue_locked, submit_queue, accepted. fold (canceling i x) (queued i x) (running i x) (home i x).
  destruct (canceling i x); [done |]. destruct (queued i x); [done |]. cbn [negb].
  destruct (running i x) eqn:Hr, queue as [q |]; cbv beta iota zeta; try (destruct (home i x) as [h |] eqn:Hh); cbv beta iota zeta; try done;
    rewrite queue_submit_eq; destruct (queue_accepts _ x); try done; destruct (queue_test _ _ x); done.
Qed.

Lemma accepted_test i q x v c :
  work_test v c (accepted i q x) = work_test v c x || bool_decide (Item i = v /\ K_WORK_QUEUED_BIT = c).
Proof. unfold accepted. by rewrite test_move, test_set, notify_eq. Qed.

Lemma accepted_pending i q x r :
  pending r (accepted i q x) = if decide (q = r) then pending q x ++ [Item i] else pending r x.
Proof. unfold accepted. rewrite notify_eq. apply pending_set. Qed.

Lemma accepted_queue i q x r b : queue_test r b (accepted i q x) = queue_test r b x.
Proof. unfold accepted. rewrite notify_eq. apply qtest_pending. Qed.

Lemma accepted_objects i q x : same_objects x (accepted i q x).
Proof.
  unfold accepted. rewrite notify_eq. solve_objects.
Qed.

Lemma accepted_ok tr i q x :
  work_inv tr x -> canceling i x = false -> queued i x = false -> (running i x = true -> home i x = Some q) ->
  work_inv (Accept i :: tr) (accepted i q x).
Proof.
  intros [Hd Ht Hk] Hc Hq Hr. constructor.
  - apply (accept_data x _ Hd i q Hq Hc Hr).
    + apply accepted_test.
    + intros j. unfold accepted. by rewrite home_move, home_set, notify_eq.
    + apply accepted_pending.
    + intros r. unfold accepted. by rewrite notify_eq.
    + unfold accepted. by rewrite notify_eq.
    + intros r. apply accepted_queue.
  - apply (accept_trace tr x _ Ht i q Hq).
    + intros j. unfold queued. rewrite accepted_test. f_equal. apply bool_decide_ext. naive_solver.
    + intros j. unfold running. rewrite accepted_test, bool_decide_eq_false_2, orb_false_r; [done | naive_solver].
    + apply accepted_pending.
    + intros r. unfold accepted. by rewrite notify_eq.
  - apply (kern_notified q x); [done | apply accepted_objects | | | | | |].
    + unfold accepted. rewrite notify_eq, <- (so_wq _ _ (same_objects_pending q (pending q x ++ [Item i]) x)). done.
    + intros r Hne. unfold draining. by rewrite accepted_pending, decide_False, accepted_queue.
    + unfold draining. by rewrite accepted_queue.
    + intros r. unfold accepted. by rewrite notify_eq.
    + intros y Hw. apply (sem_same y x); [apply Hk | done | | unfold accepted; by rewrite notify_eq].
      apply used_same; [| by unfold accepted; rewrite notify_eq..].
      intros r. rewrite accepted_pending. case_decide; [subst | done]. set_solver.
    + intros j. unfold delayed. rewrite accepted_test, bool_decide_eq_false_2, orb_false_r; [done | naive_solver].
Qed.

(** ** Changes of flags alone *)

(** [x'] is [x] but for flags of item [i] that no list depends on. *)
Record flags_only i x x' : Prop := {
  fo_objects : same_objects x x';
  fo_kernel : ws_kernel x' = ws_kernel x;
  fo_sync : ws_sync x' = ws_sync x;
  fo_cancels : pending_cancels x' = pending_cancels x;
  fo_active : ∀ r, ws_active x' r = ws_active x r;
  fo_pending : ∀ r, pending r x' = pending r x;
  fo_queue : ∀ r b, queue_test r b x' = queue_test r b x;
  fo_home : ∀ j, home j x' = home j x;
  fo_others : ∀ v c, v ≠ Item i -> work_test v c x' = work_test v c x;
  fo_queued : queued i x' = queued i x;
  fo_running : running i x' = running i x
}.

Lemma flags_only_ok tr i x x' :
  work_inv tr x -> flags_only i x x' ->
  (canceling i x' = true -> running i x = true /\ queued i x = false) ->
  (delayed i x' = true -> work_test (Item i) K_WORK_DELAYABLE_BIT x' = true) ->
  (linked i x = true -> delayed i x' = true) ->
  work_test (Item i) K_WORK_FLUSHING_BIT x' = false -> work_inv tr x'.
Proof.
  intros [Hd Ht Hk] [F1 F2 F3 F4 F5 F6 F7 F8 F9 F10 F11] Hc Hdl Hl Hf.
  assert (∀ o, waiting o x' = waiting o x) as Hw.
  { intros o. unfold waiting. by rewrite F2, (so_wq _ _ F1). }
  assert (∀ j, queued j x' = queued j x /\ running j x' = running j x) as Hj.
  { intros j. destruct (decide (j = i)) as [-> | Hne]; [done |]. split; apply F9; congruence. }
  constructor.
  - apply (flag_data x x' Hd i); auto.
  - apply (trace_same tr x x' Ht); try done; apply Hj.
  - apply (kern_build x x' Hk F1).
    + rewrite F2. apply Hk.
    + intros q. apply (notify_same q x); [apply Hk | apply Hw | apply F1 | by rewrite F6 | by unfold draining; rewrite F7 | by rewrite F5].
    + intros q. apply (drain_same q x); [apply Hk | apply Hw | by unfold draining; rewrite F7].
    + intros y. apply (sem_same y x); [apply Hk | apply Hw | | by rewrite F3].
      apply used_same; intros *; rewrite ?F6, ?F5, ?F4; done.
    + intros j. unfold linked. rewrite F2. destruct (decide (j = i)) as [-> | Hne]; [done |].
      unfold delayed. rewrite F9 by congruence. apply Hk.
Qed.

Lemma set_flags_only i b x :
  b ≠ K_WORK_QUEUED_BIT -> b ≠ K_WORK_RUNNING_BIT -> flags_only i x (work_set (Item i) b x).
Proof.
  intros H1 H2. constructor; try done.
  - intros j. apply home_set.
  - intros v c Hv. by rewrite test_set, bits_other, orb_false_r by congruence.
  - unfold queued. by rewrite test_set, bits_same, bool_decide_eq_false_2, orb_false_r.
  - unfold running. by rewrite test_set, bits_same, bool_decide_eq_false_2, orb_false_r.
Qed.

Lemma clear_flags_only i b x :
  (b = K_WORK_QUEUED_BIT -> queued i x = false) -> b ≠ K_WORK_RUNNING_BIT -> flags_only i x (work_clear (Item i) b x).
Proof.
  intros H1 H2. constructor; try done.
  - intros j. apply home_clear.
  - intros v c Hv. by rewrite test_clear, bits_other, andb_true_r by congruence.
  - unfold queued in *. rewrite test_clear, bits_same. case_bool_decide; [by rewrite H1 | by rewrite andb_true_r].
  - unfold running. by rewrite test_clear, bits_same, bool_decide_eq_false_2, andb_true_r.
Qed.

(** ** Cancellation *)

Definition withdrawn i q x : work_sys :=
  set_pending q (find_and_remove (Item i) (pending q x)) (work_clear (Item i) K_WORK_QUEUED_BIT x).

Lemma withdrawn_test i q x v c :
  work_test v c (withdrawn i q x) = work_test v c x && negb (bool_decide (Item i = v /\ K_WORK_QUEUED_BIT = c)).
Proof. apply test_clear. Qed.

Lemma withdrawn_objects i q x : same_objects x (withdrawn i q x).
Proof. unfold withdrawn. solve_objects. Qed.

Lemma withdrawn_pending i q x r :
  pending r (withdrawn i q x) = if decide (q = r) then find_and_remove (Item i) (pending q x) else pending r x.
Proof. unfold withdrawn. by rewrite pending_set. Qed.

Lemma withdrawn_queue i q x r b : queue_test r b (withdrawn i q x) = queue_test r b x.
Proof. unfold withdrawn. by rewrite qtest_pending. Qed.

Lemma withdrawn_ok tr i q x :
  work_inv tr x -> queued i x = true -> home i x = Some q -> work_inv (Withdraw i :: tr) (withdrawn i q x).
Proof.
  intros [Hd Ht Hk] Hq Hh.
  assert (∀ r, waiting r (withdrawn i q x) = waiting r x) as Hw.
  { intros o. unfold waiting. by rewrite (so_wq _ _ (withdrawn_objects i q x)). }
  constructor.
  - apply (withdraw_data x _ Hd i q Hq Hh); try done.
    + apply withdrawn_test.
    + intros j. apply home_clear.
    + apply withdrawn_pending.
    + intros r. apply withdrawn_queue.
  - apply (withdraw_trace tr x _ Ht i q Hq); try done.
    + intros j. unfold queued. rewrite withdrawn_test. f_equal. rewrite <- bool_decide_not. apply bool_decide_ext. naive_solver.
    + intros j. unfold running. rewrite withdrawn_test, bool_decide_eq_false_2, andb_true_r; [done | naive_solver].
    + apply withdrawn_pending.
  - apply (kern_build x _ Hk (withdrawn_objects i q x)).
    + apply Hk.
    + intros r. apply (notify_same r x); [apply Hk | apply Hw | apply withdrawn_objects | | | done].
      * rewrite withdrawn_pending. intros E. case_decide; [subst; by rewrite E | done].
      * unfold draining. by rewrite withdrawn_queue.
    + intros r. apply (drain_same r x); [apply Hk | apply Hw |]. unfold draining. by rewrite withdrawn_queue.
    + intros y. apply (sem_same y x); [apply Hk | apply Hw | | done]. apply used_same; [| done | done].
      intros r. rewrite withdrawn_pending. case_decide; [subst r | done].
      rewrite find_and_remove_elem by apply Hd. naive_solver.
    + intros j. unfold delayed. rewrite withdrawn_test, bool_decide_eq_false_2, andb_true_r; [apply Hk | naive_solver].
Qed.

(** Item [i] changed, the rest of the module's state did not. *)
Record item_only i x x' : Prop := {
  io_objects : same_objects x x';
  io_kernel : ws_kernel x' = ws_kernel x;
  io_sync : ws_sync x' = ws_sync x;
  io_cancels : pending_cancels x' = pending_cancels x;
  io_active : ∀ r, ws_active x' r = ws_active x r;
  io_used : ∀ y, used y x' <-> used y x;
  io_running : running i x' = running i x;
  io_others : ∀ v c, v ≠ Item i -> work_test v c x' = work_test v c x;
  io_delayable : work_test (Item i) K_WORK_DELAYABLE_BIT x' = work_test (Item i) K_WORK_DELAYABLE_BIT x
}.

Lemma item_only_refl i x : item_only i x x.
Proof. by constructor. Qed.

Lemma item_only_trans i x x1 x2 : item_only i x x1 -> item_only i x1 x2 -> item_only i x x2.
Proof.
  intros [] []. constructor; try congruence.
  - by eapply same_objects_trans.
  - intros u. etrans; eauto.
  - intros v c Hv. rewrite io_others1, io_others0 by done. done.
Qed.

Lemma flags_item_only i x x' :
  flags_only i x x' -> work_test (Item i) K_WORK_DELAYABLE_BIT x' = work_test (Item i) K_WORK_DELAYABLE_BIT x ->
  item_only i x x'.
Proof.
  intros [] Hd. constructor; try done. intros y.
  by apply used_same; intros *; rewrite ?fo_pending0, ?fo_active0, ?fo_cancels0.
Qed.

Definition withdraw_event i x : list work_event := if queued i x then [Withdraw i] else [].

Lemma withdrawn_item_only i q x : data_inv x -> item_only i x (withdrawn i q x).
Proof.
  intros Hd. constructor; try done.
  - apply withdrawn_objects.
  - intros y. apply used_same; [| done | done]. intros r. rewrite withdrawn_pending. case_decide; [subst r | done].
    rewrite find_and_remove_elem by apply Hd. naive_solver.
  - unfold running. rewrite withdrawn_test, bits_same. by rewrite bool_decide_eq_false_2, andb_true_r.
  - intros v c Hv. by rewrite withdrawn_test, bits_other, andb_true_r by congruence.
  - rewrite withdrawn_test, bits_same. by rewrite bool_decide_eq_false_2, andb_true_r.
Qed.

Lemma queue_remove_ok tr i x :
  work_inv tr x -> let x' := queue_remove_locked (home i x) (Item i) x in
  work_inv (withdraw_event i x ++ tr) x' /\ item_only i x x' /\ queued i x' = false /\
  (∀ b, b ≠ K_WORK_QUEUED_BIT -> work_test (Item i) b x' = work_test (Item i) b x).
Proof.
  intros Hx. unfold queue_remove_locked, withdraw_event.
  change (work_test_and_clear (Item i) K_WORK_QUEUED_BIT x) with (queued i x, work_clear (Item i) K_WORK_QUEUED_BIT x).
  destruct Hx as [Hd Ht Hk]. pose proof (di_item _ Hd i) as Hi. destruct (queued i x) eqn:Hq.
  - destruct (ii_home _ _ Hi) as [q Hh]; [by left |]. rewrite Hh.
    change (set_pending _ _ _) with (withdrawn i q x). cbv zeta. split; [by apply withdrawn_ok |].
    split; [by apply withdrawn_item_only |]. split.
    + unfold queued. rewrite withdrawn_test. wbits.
    + intros b Hb. rewrite withdrawn_test, bits_same. by rewrite bool_decide_eq_false_2, andb_true_r.
  - cbv zeta. assert (flags_only i x (work_clear (Item i) K_WORK_QUEUED_BIT x)) as Hf by (by apply clear_flags_only).
    assert (∀ b, work_test (Item i) b (work_clear (Item i) K_WORK_QUEUED_BIT x) = work_test (Item i) b x) as Hb.
    { intros b. rewrite test_clear, bits_same. case_bool_decide; [subst; by rewrite andb_false_r | by rewrite andb_true_r]. }
    split; [| split; [apply flags_item_only; [done | apply Hb] | split; [| auto]]].
    + apply (flags_only_ok tr i x); unfold canceling, delayed, linked; rewrite ?Hb; try done; [apply Hi.. | apply Hk | apply Hi].
    + unfold queued in *. by rewrite Hb.
Qed.

Lemma cancel_async_ok tr i x :
  work_inv tr x -> delayed i x = false -> let x' := (cancel_async_locked (Item i) x).2 in
  work_inv (withdraw_event i x ++ tr) x' /\ item_only i x x' /\ queued i x' = false /\ canceling i x' = running i x /\
  delayed i x' = false /\ ((cancel_async_locked (Item i) x).1 ≠ 0 <-> running i x = true).
Proof.
  intros Hx Hdl. unfold cancel_async_locked. fold (canceling i x) (home i x).
  set (x1 := if negb (canceling i x) then _ else _).
  assert (work_inv (withdraw_event i x ++ tr) x1 /\ item_only i x x1 /\ queued i x1 = false /\
    (∀ b, b ≠ K_WORK_QUEUED_BIT -> work_test (Item i) b x1 = work_test (Item i) b x)) as (H1 & H2 & H3 & H4).
  { unfold x1. destruct (canceling i x) eqn:Hc; cbn [negb]; [| by apply queue_remove_ok].
    destruct (ii_cancel _ _ (di_item _ (wi_data _ _ Hx) i) Hc) as [_ Hq]. unfold withdraw_event. rewrite Hq.
    split; [done |]. by split; [apply item_only_refl |]. }
  clearbody x1.
  pose proof (di_item _ (wi_data _ _ H1) i) as Hi.
  assert (canceling i x1 = canceling i x /\ delayed i x1 = false /\ running i x1 = running i x) as (Hc1 & Hd1 & Hr1).
  { unfold canceling, delayed, running in *. by rewrite !H4. }
  assert (negb (work_busy_get_locked (Item i) x1 =? 0) = running i x) as Hb.
  { rewrite busy_flags. fold (delayed i x1) (queued i x1) (running i x1) (canceling i x1).
    rewrite Hd1, H3, Hr1, Hc1, (ii_flushing _ _ Hi), orb_false_r. simpl.
    destruct (canceling i x) eqn:Hc; [| by rewrite orb_false_r]. destruct (ii_cancel _ _ Hi Hc1) as [Hr _]. by rewrite <- Hr1, Hr. }
  rewrite Hb. cbv zeta. destruct (running i x) eqn:Hr; cbn [fst snd].
  - assert (flags_only i x1 (work_set (Item i) K_WORK_CANCELING_BIT x1)) as Hf by (by apply set_flags_only).
    assert (∀ b, work_test (Item i) b (work_set (Item i) K_WORK_CANCELING_BIT x1) =
      work_test (Item i) b x1 || bool_decide (K_WORK_CANCELING_BIT = b)) as Hbit by (intros b; by rewrite test_set, bits_same).
    split; [| split; [| split; [| split; [| split]]]].
    + apply (flags_only_ok _ i x1); unfold canceling, delayed; rewrite ?Hbit; wbits; [apply Hi | | apply Hi].
      intros Hl. apply (ki_timeout _ (wi_kern _ _ H1)) in Hl. exact Hl.
    + eapply item_only_trans; [done |]. apply flags_item_only; [done |]. rewrite Hbit. wbits.
    + by rewrite (fo_queued _ _ _ Hf).
    + unfold canceling. rewrite Hbit. wbits.
    + unfold delayed in *. rewrite Hbit. wbits.
    + simpl. split; [done |]. intros _ E. pose proof (busy_flags (Item i) (work_set (Item i) K_WORK_CANCELING_BIT x1)) as Hbf.
      rewrite E, Hbit in Hbf. symmetry in Hbf. cbn [Z.eqb negb] in Hbf. rewrite !orb_false_iff in Hbf.
      destruct Hbf as ((_ & Hbf) & _). rewrite Hbit, orb_false_iff in Hbf. by destruct Hbf.
  - apply negb_false_iff, Z.eqb_eq in Hb. simpl. rewrite Hb. split; [done |]. split; [done |]. split; [done |]. split; [| split; [done | done]].
    rewrite Hc1. apply not_true_is_false. intros Hc. rewrite <- Hc1 in Hc. destruct (ii_cancel _ _ Hi Hc). congruence.
Qed.

(** ** Sync objects *)

Definition fresh_sem (sem : k_sem) : k_sem := mk_sem (sem_wait_q sem) 0 1.

Lemma sync_sem_init_eq y x :
  sync_sem_init y x =
  set_sync y (mk_sync (fresh_sem (sync_sem (ws_sync x y))) (sync_work (ws_sync x y)))
    (upd_kernel (z_waitq_init (wq_of x (Sync y))) x).
Proof. done. Qed.

Lemma unused_waiting y x : kern_inv x -> ~ used y x -> waiting (Sync y) x = [].
Proof. intros Hk Hu. by destruct (ss_waiter _ _ (ki_sync _ Hk y)) as [| [? _]]. Qed.

Lemma moved_init y x :
  kern_inv x -> ~ used y x -> moved (waitq (ws_kernel x)) (ws_kernel x) (z_waitq_init (wq_of x (Sync y)) (ws_kernel x)).
Proof. intros Hk Hu. apply moved_same; [apply Hk |]. by apply same_waitq_init, unused_waiting. Qed.

Lemma sync_init_ok tr y x :
  work_inv tr x -> ~ used y x -> let x' := sync_sem_init y x in
  work_inv tr x' /\ same_objects x x' /\ ws_sync x' y = mk_sync (fresh_sem (sync_sem (ws_sync x y))) (sync_work (ws_sync x y)) /\
  (∀ z, z ≠ y -> ws_sync x' z = ws_sync x z).
Proof.
  intros [Hd Ht Hk] Hu. pose proof (moved_init y x Hk Hu) as Hm. rewrite sync_sem_init_eq. cbv zeta.
  set (x' := set_sync y _ _).
  assert (ws_sync x' y = mk_sync (fresh_sem (sync_sem (ws_sync x y))) (sync_work (ws_sync x y))) as Ey by apply fn_lookup_insert.
  assert (∀ z, z ≠ y -> ws_sync x' z = ws_sync x z) as Ez by (intros z Hz; by apply fn_lookup_insert_ne).
  assert (same_objects x x') as Hobj.
  { constructor; [| done]. intros [q | q | z]; cbn [wq_of]; [done | done |].
    destruct (decide (z = y)) as [-> | Hz]; [by rewrite Ey | by rewrite Ez]. }
  split; [| done]. constructor; [by apply (data_same x x' Hd) | by apply (trace_same tr x x' Ht) |].
  assert (∀ o, waiting o x' = waiting o x) as Hw by (by apply moved_no_waiting). apply (kern_build x x' Hk Hobj).
  - apply Hm.
  - intros q. apply (notify_same q x); [apply Hk | apply Hw | done..].
  - intros q. apply (drain_same q x); [apply Hk | apply Hw | done].
  - intros z. destruct (decide (z = y)) as [-> | Hz]; [| by apply (sem_same z x); [apply Hk | apply Hw | | rewrite Ez]].
    constructor; [done |]. left. rewrite Hw. by apply unused_waiting.
  - intros i Hl. apply Hk. exact (mv_linked _ _ _ Hm _ Hl).
Qed.

Lemma canceller_ok tr y w x :
  work_inv tr x -> ~ used y x -> let x' := init_work_cancel y w x in
  work_inv tr x' /\ pending_cancels x' = pending_cancels x ++ [y] /\ same_objects x x' /\
  sync_work (ws_sync x' y) = Some w /\ (∀ z, z ≠ y -> ws_sync x' z = ws_sync x z).
Proof.
  intros Hx Hu. destruct (sync_init_ok tr y x Hx Hu) as ([Hd Ht Hk] & Hobj & Ey & Ez). unfold init_work_cancel.
  set (x1 := sync_sem_init y x) in *. assert (~ used y x1) as Hu1 by exact Hu. cbv zeta. rewrite Ey. set (x' := set_pending_cancels _ _).
  assert (ws_sync x' y = mk_sync (fresh_sem (sync_sem (ws_sync x y))) (Some w)) as Ey' by apply fn_lookup_insert.
  assert (∀ z, z ≠ y -> ws_sync x' z = ws_sync x1 z) as Ez' by (intros z Hz; by apply fn_lookup_insert_ne).
  assert (same_objects x1 x') as Hobj'.
  { constructor; [| done]. intros [q | q | z]; cbn [wq_of]; [done | done |].
    destruct (decide (z = y)) as [-> | Hz]; [by rewrite Ey', Ey | by rewrite Ez']. }
  split; [| split; [done | split; [by eapply same_objects_trans | split; [by rewrite Ey' |]]]];
    [| intros z Hz; by rewrite Ez', Ez].
  constructor; [by apply (canceller_data x1 x' Hd y) | by apply (trace_same tr x1 x' Ht) |].
  assert (∀ o, waiting o x' = waiting o x1) as Hw by (intros o; unfold waiting; by rewrite (so_wq _ _ Hobj')).
  apply (kern_build x1 x' Hk Hobj'); [apply Hk | | | |apply Hk].
  - intros q. apply (notify_same q x1); [apply Hk | apply Hw | done..].
  - intros q. apply (drain_same q x1); [apply Hk | apply Hw | done].
  - intros z. destruct (decide (z = y)) as [-> | Hz].
    + constructor; [by rewrite Ey' |]. left. rewrite Hw. by apply unused_waiting.
    + apply (sem_same z x1); [apply Hk | apply Hw | | by rewrite Ez']. apply used_same; [done | done |].
      change (pending_cancels x') with (pending_cancels x1 ++ [y]). rewrite elem_of_app, list_elem_of_singleton. tauto.
Qed.

(** ** Flushing *)

Definition flusher_added q i y x : work_sys :=
  (notify_queue_locked (Some q) (queue_flusher_locked q (Item i) y x)).2.

Lemma flusher_pending q i y x r :
  pending r (flusher_added q i y x) = if decide (q = r) then with_flusher i y (pending q x) else pending r x.
Proof.
  unfold flusher_added. rewrite notify_eq. unfold queue_flusher_locked, with_flusher.
  destruct (decide (Item i ∈ pending q x)) as [Hin | Hin].
  - rewrite bool_decide_eq_true_2 by done. etrans; [apply pending_set | done].
  - rewrite bool_decide_eq_false_2 by done. etrans; [apply pending_set | done].
Qed.

(** The parts of the state a new flusher leaves alone. *)
Lemma flusher_frame q i y x :
  let x0 := sync_sem_init y x in let x' := flusher_added q i y x in
  same_objects x0 x' /\ ws_kernel x' = (z_sched_wake (wq_of x0 (Notify q)) 0 0 (ws_kernel x0)).2 /\ ws_sync x' = ws_sync x0 /\
  pending_cancels x' = pending_cancels x0 /\ ws_active x' = ws_active x0 /\ (∀ j, home j x' = home j x0) /\
  (∀ r b, queue_test r b x' = queue_test r b x0) /\ (∀ v c, v ≠ Flusher y -> work_test v c x' = work_test v c x0) /\
  work_test (Flusher y) K_WORK_FLUSHING_BIT x' = true /\ work_test (Flusher y) K_WORK_CANCELING_BIT x' = false.
Proof.
  cbv zeta. unfold flusher_added. rewrite notify_eq. unfold queue_flusher_locked. cbv zeta. set (x0 := sync_sem_init y x).
  set (x1 := init_flusher y x).
  assert (same_objects x0 x1) as Hobj.
  { unfold x1, init_flusher. fold x0. unfold k_work_init. solve_objects. }
  assert (∃ l, (if bool_decide (Item i ∈ pending q x) then set_pending q (insert_after (Item i) (Flusher y) (pending q x1)) x1
    else set_pending q (Flusher y :: pending q x1) x1) = set_pending q l x1) as [l' ->] by (case_bool_decide; eauto).
  assert (∀ v c, work_test v c x1 = work_test v c (k_work_init (Flusher y) handle_flush x0) || bool_decide (Flusher y = v /\ K_WORK_FLUSHING_BIT = c)) as Ef.
  { intros v c. apply test_set. }
  split_and!; try done.
  - solve_objects.
  - cbn [upd_kernel ws_kernel]. f_equal. f_equal. etrans; [apply (so_wq _ _ (same_objects_pending q l' x1) (Notify q)) | apply (so_wq _ _ Hobj (Notify q))].
  - intros r b. change (queue_test r b (set_pending q l' x1) = queue_test r b x1). apply qtest_pending.
  - intros v c Hv. change (work_test v c x1 = work_test v c x0). rewrite Ef, bits_other, orb_false_r by congruence.
    wunfold. by rewrite fn_lookup_insert_ne by congruence.
  - change (work_test (Flusher y) K_WORK_FLUSHING_BIT x1 = true). rewrite Ef. wbits.
  - change (work_test (Flusher y) K_WORK_CANCELING_BIT x1 = false). rewrite Ef. wbits. wunfold. by rewrite fn_lookup_insert.
Qed.

Lemma flusher_ok tr q i y x :
  work_inv tr x -> ~ used y x -> home i x = Some q -> work_inv (FlushFrom y i :: tr) (flusher_added q i y x).
Proof.
  intros Hx Hu Hh. destruct (sync_init_ok tr y x Hx Hu) as ([Hd Ht Hk] & _ & Ey & Ez).
  destruct (flusher_frame q i y x) as (Hobj & Ekern & Esync & Ec & Ea & Eh & Eq & Ef & Ef1 & Ef2).
  pose proof (flusher_pending q i y x) as Ep. set (x0 := sync_sem_init y x) in *. set (x' := flusher_added q i y x) in *.
  assert (∀ r, pending r x' = if decide (q = r) then with_flusher i y (pending q x0) else pending r x0) as Ep0 by exact Ep.
  assert (∀ r, ~ held y r x0) as Hnh by (intros r H; apply Hu; right; by exists r).
  assert (∀ r v, v ∈ pending r x' <-> v ∈ pending r x0 \/ (v = Flusher y /\ r = q)) as Em.
  { intros r v. rewrite Ep0. case_decide; [subst; rewrite with_flusher_perm, elem_of_cons |]; intuition congruence. }
  constructor.
  - apply (flusher_data x0 x' Hd y q (with_flusher i y (pending q x0)) Hu); auto using with_flusher_perm; by rewrite Ea.
  - apply (flush_trace tr x0 x' Ht Hd i y q); try done.
    + intros r Hr. apply (Hnh r). by left.
    + intros r Hr. apply (Hnh r). by right.
    + intros j. by apply Ef.
    + intros j. by apply Ef.
    + by rewrite Ea.
  - apply (kern_notified q x0 x' Hk Hobj Ekern).
    + intros r Hr. unfold draining. rewrite Ep0, decide_False, Eq by done. done.
    + unfold draining. by rewrite Eq.
    + by rewrite Ea.
    + intros z Hw. destruct (decide (z = y)) as [-> | Hz].
      * constructor; [by rewrite Esync, Ey |]. left. rewrite Hw. by apply unused_waiting.
      * apply (sem_same z x0); [apply Hk | done | | by rewrite Esync].
        apply used_same; [| by rewrite Ea | by rewrite Ec]. intros r. rewrite Em. intuition congruence.
    + intros j. by apply Ef.
Qed.

Lemma work_flush_eq i y x :
  data_inv x ->
  (queued i x || running i x = false /\ work_flush_locked (Item i) y x = (false, x)) \/
  (queued i x || running i x = true /\ exists q, home i x = Some q /\ work_flush_locked (Item i) y x = (true, flusher_added q i y x)).
Proof.
  intros Hd. unfold work_flush_locked. rewrite flag_two. fold (work_test (Item i) K_WORK_QUEUED_BIT x) (work_test (Item i) K_WORK_RUNNING_BIT x).
  fold (queued i x) (running i x) (home i x). destruct (queued i x || running i x) eqn:E; [right | by left]. split; [done |].
  destruct (ii_home _ _ (di_item _ Hd i)) as [q Hq]; [by apply orb_true_iff |]. exists q. by rewrite Hq.
Qed.

(** ** The queue thread *)

Definition taken q w l x : work_sys :=
  set_active q (Some w) (work_clear w K_WORK_QUEUED_BIT (work_set w K_WORK_RUNNING_BIT
    (queue_set q K_WORK_QUEUE_BUSY_BIT (set_pending q l x)))).

Lemma take_eq q w l x :
  pending q x = w :: l -> exists h, work_queue_take q x = (Some (w, h), taken q w l x).
Proof. intros E. unfold work_queue_take. rewrite E. by eexists. Qed.

Lemma taken_test q w l x v c :
  work_test v c (taken q w l x) =
  (work_test v c x || bool_decide (w = v /\ K_WORK_RUNNING_BIT = c)) && negb (bool_decide (w = v /\ K_WORK_QUEUED_BIT = c)).
Proof.
  change (work_test v c (taken q w l x)) with (work_test v c (work_clear w K_WORK_QUEUED_BIT (work_set w K_WORK_RUNNING_BIT
    (queue_set q K_WORK_QUEUE_BUSY_BIT (set_pending q l x))))). by rewrite test_clear, test_set.
Qed.

Lemma taken_pending q w l x r : pending r (taken q w l x) = if decide (q = r) then l else pending r x.
Proof.
  change (pending r (taken q w l x)) with (pending r (queue_set q K_WORK_QUEUE_BUSY_BIT (set_pending q l x))).
  by rewrite pending_qset, pending_set.
Qed.

Lemma taken_queue q w l x r b :
  queue_test r b (taken q w l x) = queue_test r b x || bool_decide (q = r /\ K_WORK_QUEUE_BUSY_BIT = b).
Proof.
  change (queue_test r b (taken q w l x)) with (queue_test r b (queue_set q K_WORK_QUEUE_BUSY_BIT (set_pending q l x))).
  by rewrite qtest_set, qtest_pending.
Qed.

Lemma taken_objects q w l x : same_objects x (taken q w l x).
Proof.
  unfold taken. solve_objects.
Qed.

Lemma busy_not_asleep q x : notify_ok q x -> pending q x ≠ [] \/ ws_active x q ≠ None -> waiting (Notify q) x = [].
Proof. by intros [| (_ & ? & _ & ?)] []. Qed.

Lemma taken_ok tr q w l x :
  work_inv tr x -> pending q x = w :: l -> ws_active x q = None -> work_inv (start_event w ++ tr) (taken q w l x).
Proof.
  intros [Hd Ht Hk] Hp Ha. pose proof (taken_objects q w l x) as Hobj.
  assert (∀ r, ws_active (taken q w l x) r = if decide (q = r) then Some w else ws_active x r) as Ea by (intros r; etrans; [apply active_set | done]).
  assert (∀ r b, b ≠ K_WORK_QUEUE_BUSY_BIT -> queue_test r b (taken q w l x) = queue_test r b x) as Eq.
  { intros r b Hb. rewrite taken_queue, bool_decide_eq_false_2, orb_false_r; [done |]. intros [_ E]. congruence. }
  assert (∀ o, waiting o (taken q w l x) = waiting o x) as Hw by (intros o; unfold waiting; by rewrite (so_wq _ _ Hobj)).
  constructor.
  - apply (take_data x _ Hd q w l Hp Ha); try done.
    + apply taken_test.
    + intros j. etrans; [apply home_clear |]. etrans; [apply home_set | done].
    + apply taken_pending.
    + intros r. rewrite taken_queue. f_equal. apply bool_decide_ext. tauto.
  - apply (take_trace tr x _ Ht Hd q w l Hp Ha); [| | apply taken_pending | done].
    + intros j. unfold queued. rewrite taken_test, (bool_decide_eq_false_2 (_ /\ K_WORK_RUNNING_BIT = _)), orb_false_r by (by intros []).
      do 2 f_equal. apply bool_decide_ext. tauto.
    + intros j. unfold running. rewrite taken_test, (bool_decide_eq_false_2 (_ /\ K_WORK_QUEUED_BIT = _)), andb_true_r by (by intros []).
      f_equal. apply bool_decide_ext. tauto.
  - apply (kern_build x _ Hk Hobj).
    + apply Hk.
    + intros r. destruct (decide (q = r)) as [<- | Hr].
      * left. rewrite Hw. apply busy_not_asleep; [apply Hk | left; by rewrite Hp].
      * apply (notify_same r x); [apply Hk | apply Hw | apply Hobj | | |].
        -- by rewrite taken_pending, decide_False.
        -- unfold draining. by rewrite Eq.
        -- by rewrite Ea, decide_False.
    + intros r. apply (drain_same r x); [apply Hk | apply Hw |]. unfold draining. by rewrite Eq.
    + intros y. apply (sem_same y x); [apply Hk | apply Hw | | done].
      assert (∀ r, held y r (taken q w l x) <-> held y r x) as Hh.
      { intros r. unfold held. rewrite taken_pending, Ea. case_decide; [subst r | done]. rewrite Hp, Ha, elem_of_cons. intuition congruence. }
      unfold used. by setoid_rewrite Hh.
    + intros j. unfold delayed. rewrite taken_test, !bool_decide_eq_false_2, orb_false_r, andb_true_r by (by intros []). apply Hk.
Qed.

Lemma not_draining q x : drain_ok q x -> draining q x = false -> waiting (Drain q) x = [].
Proof. unfold drain_ok. intros H Hd. destruct (waiting (Drain q) x); [done |]. rewrite H in Hd by done. done. Qed.

Lemma runs_not_asleep q x :
  kern_inv x -> current (ws_kernel x) = wq_thread (ws_queue x q) -> current (ws_kernel x) ∈ runq (ws_kernel x) ->
  waiting (Notify q) x = [].
Proof.
  intros Hk Hc Hr. destruct (ki_notify _ Hk q) as [| (Hw & _)]; [done |]. exfalso.
  apply (waiter_not_current (ws_kernel x) (wq_of x (Notify q)) (wq_thread (ws_queue x q))); [apply Hk | | done | done].
  unfold waiting in Hw. rewrite Hw. left.
Qed.

(** The state in which the thread of [q] has gone to sleep. *)
Definition idled q x : work_sys :=
  let x1 := queue_clear q K_WORK_QUEUE_DRAIN_BIT x in
  let x1 := if draining q x then upd_kernel (λ s, (z_sched_wake_all (drainq (ws_queue x1 q)) 1 0 s).2) x1 else x1 in
  upd_kernel (z_sched_wait (notifyq (ws_queue x1 q)) K_FOREVER) x1.

Lemma idle_eq q x : pending q x = [] -> work_queue_take q x = (None, idled q x).
Proof. intros E. unfold work_queue_take. rewrite E. reflexivity. Qed.

Lemma idled_objects q x : same_objects x (idled q x).
Proof.
  unfold idled. cbv zeta. case_match; solve_objects.
Qed.

Lemma idled_frame q x : 
  (∀ r b, queue_test r b (idled q x) = queue_test r b x && negb (bool_decide (q = r /\ K_WORK_QUEUE_DRAIN_BIT = b))) /\
  (∀ r, pending r (idled q x) = pending r x) /\ ws_active (idled q x) = ws_active x /\ ws_sync (idled q x) = ws_sync x /\
  pending_cancels (idled q x) = pending_cancels x /\ ws_work (idled q x) = ws_work x.
Proof.
  unfold idled. cbv zeta. split_and!; try (case_match; done).
  - intros r b. rewrite <- qtest_clear. case_match; done.
  - intros r. rewrite <- (pending_qclear q K_WORK_QUEUE_DRAIN_BIT r x). case_match; done.
Qed.

Lemma idled_moved q x :
  kern_inv x -> current (ws_kernel x) = wq_thread (ws_queue x q) -> current (ws_kernel x) ∈ runq (ws_kernel x) ->
  moved (λ v, if decide (wq_of x (Notify q) = v) then [wq_thread (ws_queue x q)]
              else if decide (wq_of x (Drain q) = v) then [] else waitq (ws_kernel x) v) (ws_kernel x) (ws_kernel (idled q x)).
Proof.
  intros Hk Hc Hr. pose proof (so_wq _ _ (same_objects_qclear q K_WORK_QUEUE_DRAIN_BIT x)) as Ho. 
  pose proof (Ho (Notify q)) as On. pose proof (Ho (Drain q)) as Od. cbn [wq_of] in On, Od.
  unfold idled. cbv zeta. set (x1 := queue_clear q K_WORK_QUEUE_DRAIN_BIT x) in *.
  set (s1 := if draining q x then (z_sched_wake_all (wq_of x (Drain q)) 1 0 (ws_kernel x)).2 else ws_kernel x).
  assert (moved (λ v, if decide (wq_of x (Drain q) = v) then [] else waitq (ws_kernel x) v) (ws_kernel x) s1 /\ kept (ws_kernel x) s1) as [H1 [K1 K2]].
  { unfold s1. destruct (draining q x) eqn:Hd; [apply moved_wake_all, Hk |]. split; [| done]. constructor; [apply Hk | | done].
    intros v. case_decide as E; [| done]. rewrite <- E. apply not_draining; [apply Hk | done]. }
  assert (ws_kernel (upd_kernel (z_sched_wait (notifyq (ws_queue (if draining q x then upd_kernel (λ s, (z_sched_wake_all (drainq (ws_queue x1 q)) 1 0 s).2) x1 else x1) q)) K_FOREVER)
    (if draining q x then upd_kernel (λ s, (z_sched_wake_all (drainq (ws_queue x1 q)) 1 0 s).2) x1 else x1)) =
    z_pend_curr (wq_of x (Notify q)) K_FOREVER s1) as ->.
  { unfold s1. cbn [wq_of]. destruct (draining q x); cbn [upd_kernel ws_kernel ws_queue]; rewrite ?On, ?Od; done. }
  assert (waitq s1 (wq_of x (Notify q)) = []) as Hn.
  { rewrite (mv_waitq _ _ _ H1), decide_False; [by apply runs_not_asleep |]. intros E. by apply (ki_objects _ Hk) in E. }
  pose proof (moved_pend (wq_of x (Notify q)) s1 (mv_inv _ _ _ H1)) as H2. rewrite K1 in H2. specialize (H2 (K2 Hr)).
  destruct (work_moved_trans _ _ _ _ _ H1 H2) as [A B C]. constructor; [done | | done]. intros v. rewrite B, Hn, Hc. simpl.
  case_decide; [done |]. apply (mv_waitq _ _ _ H1).
Qed.

Lemma idled_effect tr q x x' :
  work_inv tr x -> pending q x = [] -> ws_active x q = None -> same_objects x x' ->
  moved (λ v, if decide (wq_of x (Notify q) = v) then [wq_thread (ws_queue x q)]
              else if decide (wq_of x (Drain q) = v) then [] else waitq (ws_kernel x) v) (ws_kernel x) (ws_kernel x') ->
  (∀ r b, queue_test r b x' = queue_test r b x && negb (bool_decide (q = r /\ K_WORK_QUEUE_DRAIN_BIT = b))) ->
  (∀ r, pending r x' = pending r x) -> ws_active x' = ws_active x -> ws_sync x' = ws_sync x ->
  pending_cancels x' = pending_cancels x -> ws_work x' = ws_work x -> work_inv tr x'.
Proof.
  intros [Hd Ht Hk] Hp Ha Hobj Hm Eq Ep Ea Es Ec Ew.
  assert (∀ o, waiting o x' = if decide (Notify q = o) then [wq_thread (ws_queue x q)] else if decide (Drain q = o) then [] else waiting o x) as Hw.
  { intros o. unfold waiting. rewrite (so_wq _ _ Hobj), (mv_waitq _ _ _ Hm).
    destruct (decide (Notify q = o)) as [<- | Hn]; [by rewrite decide_True |]. rewrite decide_False by (intros E; by apply Hn, (ki_objects _ Hk)).
    destruct (decide (Drain q = o)) as [<- | Hn']; [by rewrite decide_True |]. rewrite decide_False by (intros E; by apply Hn', (ki_objects _ Hk)). done. }
  assert (∀ v c, work_test v c x' = work_test v c x) as Ef by (intros v c; unfold work_test; by rewrite Ew).
  assert (∀ j, home j x' = home j x) as Eh by (intros j; unfold home; by rewrite Ew).
  assert (∀ r, q ≠ r -> draining r x' = draining r x) as Edr.
  { intros r Hr. unfold draining. by rewrite Eq, bits_other, andb_true_r. }
  constructor.
  - apply (data_same x _ Hd); try done; [by rewrite Ea |]. intros r. rewrite Eq, bool_decide_eq_false_2, andb_true_r; [done | by intros []].
  - apply (trace_same tr x _ Ht); try done; [intros j; apply Ef | intros j; apply Ef | by rewrite Ea].
  - apply (kern_build x _ Hk Hobj).
    + apply Hm.
    + intros r. destruct (decide (q = r)) as [<- | Hne].
      * right. rewrite Hw, decide_True, (so_thread _ _ Hobj), Ep, Ea by done. split_and!; try done.
        unfold draining. by rewrite Eq, bits_same, bool_decide_eq_true_2, andb_false_r.
      * apply (notify_same r x); [apply Hk | rewrite Hw, !decide_False by congruence; done | apply Hobj | by rewrite Ep | by rewrite Edr | by rewrite Ea].
    + intros r. destruct (decide (q = r)) as [<- | Hne].
      * intros H. rewrite Hw, decide_False, decide_True in H by done. done.
      * apply (drain_same r x); [apply Hk | rewrite Hw, !decide_False by congruence; done | by rewrite Edr].
    + intros y. apply (sem_same y x); [apply Hk | rewrite Hw, !decide_False by congruence; done | | by rewrite Es].
      apply used_same; [by intros r; rewrite Ep | by rewrite Ea | by rewrite Ec].
    + intros j Hl. unfold delayed. rewrite Ef. apply Hk. exact (mv_linked _ _ _ Hm _ Hl).
Qed.

Lemma idled_ok tr q x :
  work_inv tr x -> pending q x = [] -> ws_active x q = None ->
  current (ws_kernel x) = wq_thread (ws_queue x q) -> current (ws_kernel x) ∈ runq (ws_kernel x) -> work_inv tr (idled q x).
Proof.
  intros Hx Hp Ha Hc Hr. destruct (idled_frame q x) as (Eq & Ep & Ea & Es & Ec & Ew).
  exact (idled_effect tr q x _ Hx Hp Ha (idled_objects q x) (idled_moved q x (wi_kern _ _ Hx) Hc Hr) Eq Ep Ea Es Ec Ew).
Qed.

(** ** The end of a handler *)

Lemma sync_sem_give_eq y x :
  sync_sem_give y x =
  set_sync y (mk_sync (locked_give (sync_sem (ws_sync x y)) (ws_kernel x)).1 (sync_work (ws_sync x y)))
    (upd_kernel (λ _, (locked_give (sync_sem (ws_sync x y)) (ws_kernel x)).2) x).
Proof. unfold sync_sem_give, locked_give. by destruct (z_impl_k_sem_give _ _). Qed.

(** Signalling a sync object in use: its waiter, if any, is woken. *)
Lemma give_moved y x :
  kern_inv x -> used y x ->
  let r := locked_give (sync_sem (ws_sync x y)) (ws_kernel x) in
  moved (λ v, if decide (wq_of x (Sync y) = v) then [] else waitq (ws_kernel x) v) (ws_kernel x) r.2 /\ kept (ws_kernel x) r.2 /\
  sem_wait_q r.1 = wq_of x (Sync y) /\
  (∀ t, t ∈ waiting (Sync y) x -> swap_return r.2 t = 0 /\ pended_on (thr r.2 t) = None).
Proof.
  intros Hk Hu. destruct (ki_sync _ Hk y) as [H1 H2]. destruct (H1 Hu) as [Hc Hl]. cbv zeta.
  destruct H2 as [Hw | (_ & t & Hw)].
  - rewrite locked_give_free by done. split_and!; try done; [| rewrite Hw; by intros t ?%elem_of_nil].
    constructor; [apply Hk | | done]. intros v. case_decide as E; [by rewrite <- E | done].
  - destruct (locked_give_waiter (sync_sem (ws_sync x y)) (ws_kernel x) t []) as (s' & -> & Hm & Hkp & Hr & Hp); [apply Hk | done |].
    split_and!; try done. rewrite Hw. by intros u ->%list_elem_of_singleton.
Qed.

(** The object [g] is signalled and leaves service; lists and flags are as
    after a handler. *)
Lemma kern_given (g : option nat) x x' :
  kern_inv x -> same_objects x x' ->
  match g with
  | Some y => used y x /\ ~ used y x' /\
      ws_kernel x' = (locked_give (sync_sem (ws_sync x y)) (ws_kernel x)).2
  | None => ws_kernel x' = ws_kernel x
  end ->
  (∀ z, g ≠ Some z -> (used z x' <-> used z x) /\ sync_sem (ws_sync x' z) = sync_sem (ws_sync x z)) ->
  (∀ r, pending r x' = pending r x) -> (∀ r, draining r x' = draining r x) ->
  (∀ r, ws_active x r = None -> ws_active x' r = None) -> (∀ i, delayed i x' = delayed i x) ->
  kern_inv x' /\ kept (ws_kernel x) (ws_kernel x').
Proof.
  intros Hk Hobj Hg Hz Ep Ed Ea El.
  assert (exists f, moved f (ws_kernel x) (ws_kernel x') /\ kept (ws_kernel x) (ws_kernel x') /\
    (∀ o, (∀ y, o = Sync y -> g ≠ Some y) -> waiting o x' = waiting o x) /\
    (∀ y, g = Some y -> waiting (Sync y) x' = [])) as (f & Hm & Hkp & Hw & Hw').
  { destruct g as [y |].
    - destruct Hg as (Hu & _ & E). destruct (give_moved y x Hk Hu) as (Hm & Hkp & _). rewrite E. eexists. split; [done |]. split; [done |].
      rewrite <- E in Hm. pose proof (moved_waiting x x' Hk Hobj _ _ Hm) as H. split.
      + intros o Ho. rewrite H, decide_False; [done |]. intros <-. by apply (Ho y).
      + intros z [= <-]. by rewrite H, decide_True.
    - exists (waitq (ws_kernel x)). rewrite Hg. split_and!; [by apply moved_refl, Hk | done | | done]. intros o _. unfold waiting.
      by rewrite (so_wq _ _ Hobj), Hg. }
  split; [| done]. apply (kern_build x x' Hk Hobj).
  - apply Hm.
  - intros r. apply (notify_same r x); [apply Hk | by apply Hw | apply Hobj | by rewrite Ep | by rewrite Ed | apply Ea].
  - intros r. apply (drain_same r x); [apply Hk | by apply Hw | by rewrite Ed].
  - intros z. destruct (decide (g = Some z)) as [E | Hne].
    + rewrite E in Hg. destruct Hg as (_ & Hn & _). constructor; [done |]. left. by apply Hw'.
    + destruct (Hz z Hne) as [H1 H2]. apply (sem_same z x); [apply Hk | | done | done]. apply Hw. by intros y [= ->].
  - intros i Hl. rewrite El. apply Hk. exact (mv_linked _ _ _ Hm _ Hl).
Qed.

(** *** The search for a canceller *)

Lemma cancel_search_spec sync w l :
  (cancel_search sync w l = (None, l) /\ ∀ y, y ∈ l -> sync_work (sync y) ≠ Some w) \/
  exists l1 y l2, l = l1 ++ y :: l2 /\ cancel_search sync w l = (Some y, l1 ++ l2) /\ sync_work (sync y) = Some w /\
    ∀ z, z ∈ l1 -> sync_work (sync z) ≠ Some w.
Proof.
  induction l as [| y l IH]; simpl; [left; split; [done | by intros ? ?%elem_of_nil] |]. case_decide as E.
  - right. exists [], y, l. split_and!; try done. by intros ? ?%elem_of_nil.
  - destruct IH as [[-> H] | (l1 & z & l2 & -> & -> & H1 & H2)].
    + left. split; [done |]. intros z [-> | Hz]%elem_of_cons; auto.
    + right. exists (y :: l1), z, l2. split_and!; try done. intros u [-> | Hu]%elem_of_cons; auto.
Qed.

(** The object a finished item signals, and the cancellations left. *)
Definition released w x : option nat :=
  match w with
  | Flusher y => Some y
  | Item i => if canceling i x then (cancel_search (ws_sync x) w (pending_cancels x)).1 else None
  end.

Definition cancels_left w x : list nat :=
  match w with
  | Flusher y => pending_cancels x
  | Item i => if canceling i x then (cancel_search (ws_sync x) w (pending_cancels x)).2 else pending_cancels x
  end.

Definition end_bit w : work_bit := match w with Item _ => K_WORK_CANCELING_BIT | Flusher _ => K_WORK_FLUSHING_BIT end.

(** The state before the yield. *)
Definition finished q w x : work_sys :=
  let x1 := work_clear w K_WORK_RUNNING_BIT (set_active q None x) in
  let x1 := if work_test w (end_bit w) x then work_clear w (end_bit w) x1 else x1 in
  let x1 := set_pending_cancels (cancels_left w x) x1 in
  let x1 := match released w x with Some y => sync_sem_give y x1 | None => x1 end in
  queue_clear q K_WORK_QUEUE_BUSY_BIT x1.

Lemma done_eq q w x :
  data_inv x -> ws_active x q = Some w ->
  work_queue_done q w x =
  if negb (queue_test q K_WORK_QUEUE_NO_YIELD_BIT (finished q w x)) then upd_kernel z_impl_k_yield (finished q w x) else finished q w x.
Proof.
  intros Hd Ha. unfold work_queue_done, finished. cbv zeta. set (x1 := work_clear w K_WORK_RUNNING_BIT (set_active q None x)).
  assert (∀ c, c ≠ K_WORK_RUNNING_BIT -> work_test w c x1 = work_test w c x) as Et.
  { intros c Hc. unfold x1. rewrite test_clear, bits_same, bool_decide_eq_false_2, andb_true_r by congruence. done. }
  destruct w as [i | y]; cbn [end_bit released cancels_left].
  - rewrite Et by done. pose proof (ii_flushing _ _ (di_item _ Hd i)) as ->. rewrite Et by done. fold (canceling i x).
    destruct (canceling i x) eqn:Hc; [| done]. unfold finalize_cancel_locked.
    change (pending_cancels (work_clear (Item i) K_WORK_CANCELING_BIT x1)) with (pending_cancels x).
    change (ws_sync (work_clear (Item i) K_WORK_CANCELING_BIT x1)) with (ws_sync x).
    by destruct (cancel_search_spec (ws_sync x) (Item i) (pending_cancels x)) as [[-> _] | (l1 & z & l2 & _ & -> & _)].
  - destruct (fi_flags _ _ (di_sync _ Hd y) q) as [Hf Hc]; [by right |]. rewrite Et, Hf by done. unfold finalize_flush_locked.
    assert (work_test (Flusher y) K_WORK_CANCELING_BIT (sync_sem_give y (work_clear (Flusher y) K_WORK_FLUSHING_BIT x1)) = false) as E.
    { rewrite sync_sem_give_eq. change (work_test (Flusher y) K_WORK_CANCELING_BIT (set_sync ?a ?b (upd_kernel ?f ?z)))
        with (work_test (Flusher y) K_WORK_CANCELING_BIT z). by rewrite test_clear, Et, Hc. }
    by rewrite E.
Qed.

Lemma finished_frame q w x :
  let x' := finished q w x in
  same_objects x x' /\ pending_cancels x' = cancels_left w x /\
  (∀ r, ws_active x' r = if decide (q = r) then None else ws_active x r) /\ (∀ j, home j x' = home j x) /\
  (∀ r, pending r x' = pending r x) /\
  (∀ r b, queue_test r b x' = queue_test r b x && negb (bool_decide (q = r /\ K_WORK_QUEUE_BUSY_BIT = b))) /\
  (∀ v c, work_test v c x' = work_test v c x && negb (bool_decide (w = v /\ K_WORK_RUNNING_BIT = c)) && negb (bool_decide (w = v /\ end_bit w = c))) /\
  match released w x with
  | Some y => ws_kernel x' = (locked_give (sync_sem (ws_sync x y)) (ws_kernel x)).2 /\ ∀ z, z ≠ y -> ws_sync x' z = ws_sync x z
  | None => ws_kernel x' = ws_kernel x /\ ws_sync x' = ws_sync x
  end.
Proof.
  cbv zeta. unfold finished. cbv zeta. set (x1 := work_clear w K_WORK_RUNNING_BIT (set_active q None x)).
  set (x2 := if work_test w (end_bit w) x then work_clear w (end_bit w) x1 else x1).
  set (x3 := set_pending_cancels (cancels_left w x) x2).
  set (x4 := match released w x with Some y => sync_sem_give y x3 | None => x3 end).
  assert (ws_kernel x2 = ws_kernel x /\ ws_sync x2 = ws_sync x /\ ws_queue x2 = ws_queue x /\ ws_active x2 = ws_active (set_active q None x)) as (E1 & E2 & E3 & E4).
  { unfold x2. by case_match. }
  assert (∀ v c, work_test v c x2 = work_test v c x && negb (bool_decide (w = v /\ K_WORK_RUNNING_BIT = c)) && negb (bool_decide (w = v /\ end_bit w = c))) as Ef.
  { intros v c. transitivity (work_test v c x1 && negb (bool_decide (w = v /\ end_bit w = c))); [| unfold x1; by rewrite test_clear].
    unfold x2. destruct (work_test w (end_bit w) x) eqn:Hb; [apply test_clear |]. case_bool_decide as E; [| by rewrite andb_true_r].
    destruct E as [<- <-]. unfold x1. rewrite test_clear. change (work_test w (end_bit w) (set_active q None x)) with (work_test w (end_bit w) x). by rewrite Hb. }
  assert (∀ j, home j x2 = home j x) as Eh.
  { intros j. unfold x2. case_match; [rewrite home_clear |]; unfold x1; by rewrite home_clear. }
  assert (same_objects x3 x4) as Hobj.
  { unfold x4. destruct (released w x) as [y |] eqn:Er; [| apply same_objects_refl]. rewrite sync_sem_give_eq.
    eapply same_objects_trans; [apply same_objects_kernel |]. apply same_objects_sync. cbn [sync_sem]. unfold locked_give, z_impl_k_sem_give.
    destruct (z_unpend_first_thread _ _) as [[] ?]; done. }
  assert (ws_work x4 = ws_work x2 /\ ws_queue x4 = ws_queue x2 /\ ws_active x4 = ws_active x2 /\ pending_cancels x4 = cancels_left w x) as (F1 & F2 & F3 & F4).
  { unfold x4. destruct (released w x); [rewrite sync_sem_give_eq |]; done. }
  split_and!.
  - eapply same_objects_trans; [| apply same_objects_qclear]. eapply same_objects_trans; [| exact Hobj].
    constructor; [intros [] | intros]; cbn [wq_of]; unfold x3; cbn [set_pending_cancels ws_queue ws_sync]; by rewrite ?E2, ?E3.
  - done.
  - intros r. cbn [queue_clear upd_queue ws_active]. rewrite F3, E4. apply active_set.
  - intros j. rewrite <- Eh. unfold home. cbn [queue_clear upd_queue ws_work]. by rewrite F1.
  - intros r. rewrite pending_qclear. unfold pending. by rewrite F2, E3.
  - intros r b. rewrite qtest_clear. unfold queue_test. by rewrite F2, E3.
  - intros v c. rewrite <- Ef. unfold work_test. cbn [queue_clear upd_queue ws_work]. by rewrite F1.
  - cbn [queue_clear upd_queue ws_kernel ws_sync]. unfold x4. destruct (released w x) as [y |]; [| unfold x3; cbn [set_pending_cancels ws_kernel ws_sync]; by rewrite E1, E2].
    rewrite sync_sem_give_eq. cbn [set_sync upd_kernel ws_kernel ws_sync]. unfold x3. cbn [set_pending_cancels ws_kernel ws_sync]. rewrite E1, E2.
    split; [done |]. intros z Hz. by apply fn_lookup_insert_ne.
Qed.

Lemma work_released_used q w x y :
  data_inv x -> ws_active x q = Some w -> released w x = Some y ->
  used y x /\ (w = Flusher y \/ ((∃ i, w = Item i) /\ exists l1 l2, pending_cancels x = l1 ++ y :: l2 /\ cancels_left w x = l1 ++ l2)).
Proof.
  intros Hd Ha. destruct w as [i | z]; simpl.
  - destruct (canceling i x); [| done].
    destruct (cancel_search_spec (ws_sync x) (Item i) (pending_cancels x)) as [[-> _] | (l1 & z & l2 & E & -> & _)]; [done |].
    intros [= <-]. split; [left; rewrite E; set_solver |]. right. split; [by exists i |]. by exists l1, l2.
  - intros [= ->]. split; [right; exists q; by right | by left].
Qed.

Lemma cancels_left_same w x : released w x = None \/ (∃ y, w = Flusher y) -> cancels_left w x = pending_cancels x.
Proof.
  destruct w as [i | y]; simpl; [| done]. intros [H | [y H]]; [| done]. destruct (canceling i x); [| done].
  by destruct (cancel_search_spec (ws_sync x) (Item i) (pending_cancels x)) as [[-> _] | (l1 & z & l2 & _ & E & _)]; [| rewrite E in H].
Qed.

(** After a handler the signalled object, if any, is out of service, and
    nothing else about the sync objects changed. *)
Lemma finished_used q w x z :
  data_inv x -> ws_active x q = Some w -> 
  (released w x = Some z -> ~ used z (finished q w x)) /\ (released w x ≠ Some z -> used z (finished q w x) <-> used z x).
Proof.
  intros Hd Ha. destruct (finished_frame q w x) as (_ & Ec & Ea & _ & Ep & _). cbv zeta in *. set (x' := finished q w x) in *.
  assert (∀ r, held z r x' <-> held z r x /\ ~ (r = q /\ w = Flusher z)) as Hh.
  { intros r. unfold held. rewrite Ep, Ea. case_decide as E; [subst r | intuition congruence]. rewrite Ha.
    destruct (decide (w = Flusher z)) as [-> | Hw]; [| intuition congruence]. split; [| tauto]. intros [Hp | ?]; [| done].
    exfalso. by apply (fi_one_place _ _ (di_sync _ Hd z) q Hp). }
  split.
  - intros Hr. destruct (work_released_used q w x z Hd Ha Hr) as [_ [-> | ([i ->] & l1 & l2 & E1 & E2)]].
    + intros [Hc | [r Hr']].
      * rewrite Ec, cancels_left_same in Hc by eauto. apply (fi_free _ _ (di_sync _ Hd z) q Hc). by right.
      * apply Hh in Hr' as [Hr' Hne]. apply Hne. split; [| done]. apply (fi_one_queue _ _ (di_sync _ Hd z)); [done | by right].
    + pose proof (di_cancels _ Hd) as Hn. rewrite E1 in Hn. apply NoDup_app in Hn as (Hn1 & Hn2 & Hn3%NoDup_cons).
      intros [Hc | [r [Hr' _]%Hh]].
      * rewrite Ec, E2 in Hc. apply elem_of_app in Hc as [Hc | Hc]; [apply (Hn2 z Hc); left | by apply Hn3].
      * apply (fi_free _ _ (di_sync _ Hd z) r); [rewrite E1; set_solver | done].
  - intros Hr. unfold used. rewrite Ec. setoid_rewrite Hh.
    assert (z ∈ cancels_left w x <-> z ∈ pending_cancels x) as ->.
    { destruct (released w x) as [y |] eqn:Er; [| by rewrite cancels_left_same by auto].
      destruct (work_released_used q w x y Hd Ha Er) as [_ [-> | (_ & l1 & l2 & -> & ->)]]; [by rewrite cancels_left_same by eauto |].
      rewrite !elem_of_app, elem_of_cons. intuition congruence. }
    split; intros [H | [r H]]; [by left | right; exists r; tauto | by left |]. right. exists r. split; [done |]. intros [_ ->]. by destruct Hr.
Qed.

Lemma finished_ok tr q w x :
  work_inv tr x -> ws_active x q = Some w ->
  work_inv (finish_event w :: tr) (finished q w x) /\ kept (ws_kernel x) (ws_kernel (finished q w x)).
Proof.
  intros [Hd Ht Hk] Ha. pose proof (finished_used q w x) as Hu.
  destruct (finished_frame q w x) as (Hobj & Ec & Ea & Eh & Ep & Eq & Ef & Er). cbv zeta in *. set (x' := finished q w x) in *.
  destruct (kern_given (released w x) x x' Hk Hobj) as [Hk' Hkp].
  - destruct (released w x) as [y |] eqn:E; [| apply Er]. destruct (work_released_used q w x y Hd Ha E) as [Hy _].
    split; [done |]. split; [by apply Hu | apply Er].
  - intros z Hz. split; [by apply Hu |]. destruct (released w x) as [y |]; destruct Er as [_ Es]; [by rewrite Es by congruence | by rewrite Es].
  - done.
  - intros r. unfold draining. rewrite Eq, bool_decide_eq_false_2, andb_true_r; [done | by intros []].
  - intros r Hr. rewrite Ea. by case_decide.
  - intros i. unfold delayed. rewrite Ef, !bool_decide_eq_false_2, !andb_true_r; [done | by destruct w; intros [] | by intros []].
  - split; [| done]. constructor; [| | done].
    + apply (done_data x x' Hd q w (end_bit w) Ha); try done.
      * by destruct w.
      * rewrite Ec. pose proof (di_cancels _ Hd) as Hn. destruct (released w x) as [y |] eqn:E; [| by rewrite cancels_left_same by auto].
        destruct (work_released_used q w x y Hd Ha E) as [_ [-> | (_ & l1 & l2 & E1 & ->)]]; [by rewrite cancels_left_same by eauto |].
        rewrite E1 in Hn. apply NoDup_app in Hn as (Hn1 & Hn2 & [_ Hn3]%NoDup_cons). apply NoDup_app. split_and!; [done | | done].
        intros z Hz Hz'. apply (Hn2 z Hz). by right.
      * rewrite Ec. intros y Hy. destruct (released w x) as [z |] eqn:E; [| by rewrite cancels_left_same in Hy by auto].
        destruct (work_released_used q w x z Hd Ha E) as [_ [-> | (_ & l1 & l2 & E1 & E2)]]; [by rewrite cancels_left_same in Hy by eauto |].
        rewrite E1. rewrite E2 in Hy. set_solver.
      * intros r. rewrite Eq. f_equal. rewrite <- bool_decide_not. apply bool_decide_ext. tauto.
    + apply (done_trace tr x x' Ht Hd q w Ha); [| | done | done].
      * intros j. unfold queued. rewrite Ef, !bool_decide_eq_false_2, !andb_true_r; [done | by destruct w; intros [] | by intros []].
      * intros j. unfold running. rewrite Ef, (bool_decide_eq_false_2 (w = Item j /\ end_bit w = _)), andb_true_r by (by destruct w; intros []).
        do 2 f_equal. apply bool_decide_ext. tauto.
Qed.
End Ops.
