(* ===== verification/WorkEnv.v ===== *)
(** * Work queues: timeouts, waiting, draining, start

    The rest of the operations of kernel/work.c keep the invariant, and so does
    what the rest of the system may do to the kernel. *)

From Stdlib Require Import ZArith Lia Bool.
From stdpp Require Import base numbers functions list gmap sets.
From S2P Require Import Prelude TimeoutQ Kernel PrioQ Sched SchedInv SchedOps Threads WaitApi Sem Work WorkKern WorkInv WorkTrace WorkOps.

Open Scope Z_scope.

Section Ops.
Context {cfg : Kconfig}.
Implicit Types (tr : list work_event) (x : work_sys) (q i y : nat) (queue : option nat).

(** ** Changes that no list or item shows *)

Lemma quiet_ok tr x x' :
  work_inv tr x -> same_objects x x' -> ws_work x' = ws_work x -> ws_active x' = ws_active x -> ws_sync x' = ws_sync x ->
  pending_cancels x' = pending_cancels x -> (∀ r, pending r x' = pending r x) ->
  (∀ r, queue_test r K_WORK_QUEUE_BUSY_BIT x' = queue_test r K_WORK_QUEUE_BUSY_BIT x) ->
  sched_inv ∅ (ws_kernel x') -> (∀ o, waiting o x' = waiting o x) ->
  (∀ r, draining r x = false -> draining r x' = false) ->
  (∀ r, waiting (Drain r) x ≠ [] -> draining r x = true -> draining r x' = true) ->
  (∀ j, linked j x' = true -> delayed j x = true) -> work_inv tr x'.
Proof.
  intros [Hd Ht Hk] Hobj Ew Ea Es Ec Ep Eb Hs Hw Hd1 Hd2 Hl.
  assert (∀ v c, work_test v c x' = work_test v c x) as Ef by (intros v c; unfold work_test; by rewrite Ew).
  constructor.
  - apply (data_same x x' Hd); try done; [intros j; unfold home; by rewrite Ew | by rewrite Ea].
  - apply (trace_same tr x x' Ht); try done; [intros j; apply Ef | intros j; apply Ef | by rewrite Ea].
  - apply (kern_build x x' Hk Hobj Hs).
    + intros r. apply (notify_same r x); [apply Hk | apply Hw | apply Hobj | by rewrite Ep | apply Hd1 | by rewrite Ea].
    + intros r H. rewrite Hw in H. apply Hd2; [done |]. by apply (ki_drain _ Hk).
    + intros y. apply (sem_same y x); [apply Hk | apply Hw | | by rewrite Es].
      apply used_same; [intros r; by rewrite Ep | by rewrite Ea | by rewrite Ec].
    + intros j Hj. unfold delayed. rewrite Ef. by apply Hl.
Qed.

(** What the rest of the system may do to the kernel: it leaves the wait queues
    of the module alone and arms no timeout of a delayable item. *)
Record env_move x (s' : z_kernel) : Prop := {
  em_inv : sched_inv ∅ s';
  em_waiting : ∀ o, waitq s' (wq_of x o) = waiting o x;
  em_linked : ∀ i, is_linked (dwork_timeout i) (timeouts s') = true -> linked i x = true
}.

Lemma work_env_ok tr x s' : work_inv tr x -> env_move x s' -> work_inv tr (upd_kernel (λ _, s') x).
Proof.
  intros Hx [H1 H2 H3]. apply (quiet_ok tr x); try done.
  intros j Hj. apply (ki_timeout _ (wi_kern _ _ Hx)). by apply H3.
Qed.

Lemma moved_env x s' : moved (waitq (ws_kernel x)) (ws_kernel x) s' -> env_move x s'.
Proof. intros [H1 H2 H3]. constructor; [done | intros o; apply H2 | done]. Qed.

Lemma done_ok tr q w x :
  work_inv tr x -> ws_active x q = Some w -> current (ws_kernel x) ∈ runq (ws_kernel x) ->
  work_inv (finish_event w :: tr) (work_queue_done q w x).
Proof.
  intros Hx Ha Hc. rewrite done_eq by (done || apply Hx). destruct (finished_ok tr q w x Hx Ha) as [Hf [K1 K2]].
  destruct (negb _); [| done]. apply (work_env_ok _ _ _ Hf), moved_env, moved_yield; [apply Hf |]. rewrite K1. auto.
Qed.

Lemma reschedule_ok tr x : work_inv tr x -> work_inv tr (upd_kernel z_reschedule_unlocked x).
Proof. intros Hx. apply (work_env_ok tr x _ Hx), moved_env, moved_reschedule, Hx. Qed.

Lemma dwork_ok tr i v x : work_inv tr x -> work_inv tr (set_dwork_queue i v x).
Proof. intros Hx. apply (quiet_ok tr x); try done; [apply Hx | apply Hx]. Qed.

Lemma unplug_ok tr q x : work_inv tr x -> work_inv tr (k_work_queue_unplug q x).2.
Proof.
  intros Hx. change (k_work_queue_unplug q x).2 with (queue_clear q K_WORK_QUEUE_PLUGGED_BIT x).
  assert (∀ r b, b ≠ K_WORK_QUEUE_PLUGGED_BIT -> queue_test r b (queue_clear q K_WORK_QUEUE_PLUGGED_BIT x) = queue_test r b x) as Eq.
  { intros r b Hb. rewrite qtest_clear, bool_decide_eq_false_2, andb_true_r; [done |]. intros [_ E]. congruence. }
  apply (quiet_ok tr x _ Hx (same_objects_qclear _ _ _)); unfold draining; [done.. | | | apply Hx | | | | apply Hx].
  - intros r. apply pending_qclear.
  - intros r. by apply Eq.
  - intros o. unfold waiting. by rewrite (so_wq _ _ (same_objects_qclear q K_WORK_QUEUE_PLUGGED_BIT x)).
  - intros r. by rewrite Eq.
  - intros r. by rewrite Eq.
Qed.

(** ** Delayable items *)

Lemma unschedule_ok tr i x :
  work_inv tr x -> let r := unschedule_locked i x in
  work_inv tr r.2 /\ r.1 = linked i x /\ delayed i r.2 = false /\ linked i r.2 = false /\ same_objects x r.2 /\
  (∀ v c, v ≠ Item i \/ c ≠ K_WORK_DELAYED_BIT -> work_test v c r.2 = work_test v c x) /\
  (∀ y, used y r.2 <-> used y x) /\ dwork_queue r.2 = dwork_queue x /\ home i r.2 = home i x.
Proof.
  intros Hx. unfold unschedule_locked.
  change (work_test_and_clear (Item i) K_WORK_DELAYED_BIT x) with (delayed i x, work_clear (Item i) K_WORK_DELAYED_BIT x).
  assert (∀ z v c, v ≠ Item i \/ c ≠ K_WORK_DELAYED_BIT -> work_test v c (work_clear (Item i) K_WORK_DELAYED_BIT z) = work_test v c z) as Et.
  { intros z v c Hv. rewrite test_clear, bool_decide_eq_false_2, andb_true_r; [done |]. intros [<- <-]. tauto. }
  assert (∀ z, delayed i (work_clear (Item i) K_WORK_DELAYED_BIT z) = false) as Ed.
  { intros z. unfold delayed. rewrite test_clear. wbits. }
  assert (∀ z, work_inv tr z -> linked i z = false -> work_inv tr (work_clear (Item i) K_WORK_DELAYED_BIT z)) as Hclear.
  { intros z Hz Hl. pose proof (di_item _ (wi_data _ _ Hz) i) as Hi.
    apply (flags_only_ok tr i z); [done | by apply clear_flags_only | | | congruence | rewrite Et by auto; apply Hi].
    - unfold canceling. rewrite Et by auto. apply Hi.
    - by rewrite Ed. }
  destruct (delayed i x) eqn:Hdl.
  - destruct (abort_dwork_timeout i (ws_kernel x)) as (Hm & Hl & Hr); [apply Hx |].
    change (timeouts (ws_kernel (work_clear (Item i) K_WORK_DELAYED_BIT x))) with (timeouts (ws_kernel x)).
    destruct (z_abort_timeout (dwork_timeout i) (timeouts (ws_kernel x))) as [ret t]. cbn [fst snd] in *. cbv zeta in *. cbn [fst snd].
    set (x1 := upd_kernel (set_timeouts t) x).
    assert (work_inv tr x1) as H1 by (apply (work_env_ok tr x _ Hx), moved_env, Hm).
    split; [by apply (Hclear x1) |]. split; [rewrite Hr; unfold linked; by destruct (is_linked (dwork_timeout i) (timeouts (ws_kernel x))) |].
    split; [apply (Ed x1) |]. split; [done |]. split; [solve_objects |].
    split; [apply (Et x1) |]. split; [done |]. split; [done |]. apply home_clear.
  - cbv zeta. cbn [fst snd].
    assert (linked i x = false) as Hl.
    { apply not_true_is_false. intros Hl. apply (ki_timeout _ (wi_kern _ _ Hx)) in Hl. congruence. }
    split; [by apply Hclear |]. split; [done |]. split; [apply Ed |]. split; [done |]. split; [apply same_objects_clear |].
    split; [apply Et |]. split; [done |]. split; [done |]. apply home_clear.
Qed.

(** Arming the timeout of a delayable item. *)
Definition armed queue i (delay : Z) x : work_sys :=
  upd_kernel (λ s, set_timeouts (z_add_timeout SYSTEM_CLOCK_SLOPPY_IDLE (dwork_timeout i) delay (timeouts s)) s)
    (set_dwork_queue i queue (work_set (Item i) K_WORK_DELAYED_BIT x)).

Lemma armed_ok tr queue i delay x :
  work_inv tr x -> linked i x = false -> valid_timeout delay -> work_test (Item i) K_WORK_DELAYABLE_BIT x = true ->
  work_inv tr (armed queue i delay x).
Proof.
  intros Hx Hl Hv Hdb. set (x1 := work_set (Item i) K_WORK_DELAYED_BIT x).
  assert (∀ c, c ≠ K_WORK_DELAYED_BIT -> work_test (Item i) c x1 = work_test (Item i) c x) as Et.
  { intros c Hc. unfold x1. rewrite test_set, bits_same, bool_decide_eq_false_2, orb_false_r by congruence. done. }
  assert (delayed i x1 = true) as Ed by (unfold delayed, x1; rewrite test_set; wbits).
  pose proof (di_item _ (wi_data _ _ Hx) i) as Hi.
  assert (work_inv tr x1) as H1.
  { apply (flags_only_ok tr i x); [done | by apply set_flags_only | | | done | by rewrite Et; [apply Hi |]].
    - fold x1. unfold canceling. rewrite Et by done. apply Hi.
    - fold x1. by rewrite Et. }
  apply (dwork_ok tr i queue) in H1. set (x2 := set_dwork_queue i queue x1) in *.
  destruct (add_dwork_timeout i delay (ws_kernel x2)) as (A1 & A2 & A3); [apply H1 | done | done |].
  apply (quiet_ok tr x2 _ H1 (same_objects_kernel _ _)); [done.. | | done | done |].
  - intros o. unfold waiting. rewrite (so_wq _ _ (same_objects_kernel _ x2)). apply A2.
  - intros j Hj. destruct (decide (j = i)) as [-> | Hne]; [done |]. apply (ki_timeout _ (wi_kern _ _ H1)).
    unfold linked in *. by rewrite <- A3.
Qed.

(** ** Waiting *)

(** Only sync object [y] and its wait queue change. *)
Lemma sync_effect tr y l x x' :
  work_inv tr x -> same_objects x x' -> ws_work x' = ws_work x -> ws_queue x' = ws_queue x -> ws_active x' = ws_active x ->
  pending_cancels x' = pending_cancels x -> (∀ z, y ≠ z -> ws_sync x' z = ws_sync x z) ->
  moved (λ v, if decide (wq_of x (Sync y) = v) then l else waitq (ws_kernel x) v) (ws_kernel x) (ws_kernel x') ->
  (used y x -> sem_count (sync_sem (ws_sync x' y)) = 0 /\ sem_limit (sync_sem (ws_sync x' y)) = 1) ->
  l = [] \/ used y x /\ (exists t, l = [t]) -> work_inv tr x'.
Proof.
  intros [Hd Ht Hk] Hobj Ew Eq Ea Ec Es Hm Hs Hl. pose proof (moved_waiting x x' Hk Hobj (Sync y) l Hm) as Hw.
  assert (∀ v c, work_test v c x' = work_test v c x) as Ef by (intros v c; unfold work_test; by rewrite Ew).
  assert (∀ r, pending r x' = pending r x) as Ep by (intros r; unfold pending; by rewrite Eq).
  assert (∀ r b, queue_test r b x' = queue_test r b x) as Et by (intros r b; unfold queue_test; by rewrite Eq).
  assert (∀ z, used z x' <-> used z x) as Hu.
  { intros z. apply used_same; [intros r; by rewrite Ep | by rewrite Ea | by rewrite Ec]. }
  constructor.
  - apply (data_same x x' Hd); try done; [intros j; unfold home; by rewrite Ew | by rewrite Ea].
  - apply (trace_same tr x x' Ht); try done; [intros j; apply Ef | intros j; apply Ef | by rewrite Ea].
  - apply (kern_build x x' Hk Hobj).
    + apply Hm.
    + intros r. apply (notify_same r x); [apply Hk | by rewrite Hw, decide_False | apply Hobj | by rewrite Ep | by unfold draining; rewrite Et | by rewrite Ea].
    + intros r. apply (drain_same r x); [apply Hk | by rewrite Hw, decide_False | by unfold draining; rewrite Et].
    + intros z. destruct (decide (y = z)) as [<- | Hne].
      * constructor; rewrite Hu, ?Hw, ?decide_True by done; [done |]. destruct Hl as [-> | (? & t & ->)]; [by left | right; eauto].
      * apply (sem_same z x); [apply Hk | rewrite Hw, decide_False by congruence; done | apply Hu | by rewrite Es].
    + intros j Hj. unfold delayed. rewrite Ef. apply Hk. exact (mv_linked _ _ _ Hm _ Hj).
Qed.

(** [k_sem_take] on a sync object: the caller sleeps while the object is in
    service, and goes on when it was signalled before. *)
Lemma sync_take_ok tr y x :
  work_inv tr x -> current (ws_kernel x) ∈ runq (ws_kernel x) -> waiting (Sync y) x = [] ->
  used y x \/ sem_count (sync_sem (ws_sync x y)) = 1 -> let r := sync_sem_take y x in
  work_inv tr r.2 /\
  (used y x -> r.1 = Blocks /\ waiting (Sync y) r.2 = [current (ws_kernel x)]) /\ (~ used y x -> r.1 = Returns 0).
Proof.
  intros Hx Hc Hw Hu. unfold sync_sem_take, z_impl_k_sem_take. set (sem := sync_sem (ws_sync x y)) in *.
  pose proof (wi_kern _ _ Hx) as Hk. destruct (ki_sync _ Hk y) as [Hs _]. fold sem in Hs.
  assert (used y x /\ sem_count sem = 0 \/ ~ used y x /\ sem_count sem = 1) as [[Hus Hcnt] | [Hus Hcnt]].
  { destruct Hu as [Hu | Hu]; [left; split; [done | by apply Hs] |]. right. split; [| done]. intros H. destruct (Hs H). lia. }
  all: rewrite Hcnt; cbn [fst snd Z.gtb Z.compare]; cbv zeta.
  - change (K_TIMEOUT_EQ K_FOREVER K_NO_WAIT) with false. cbv iota. cbn [fst snd]. set (x' := set_sync y _ _).
    assert (same_objects x x') as Hobj by (eapply same_objects_trans; [apply same_objects_kernel | by apply same_objects_sync]).
    pose proof (moved_pend (sem_wait_q sem) (ws_kernel x) (ki_sched _ Hk) Hc) as Hm.
    change (waitq (ws_kernel x) (sem_wait_q sem)) with (waiting (Sync y) x) in Hm. rewrite Hw in Hm. cbn [z_priq_dumb_add] in Hm.
    split; [| split; [intros _; split; [done | by rewrite (moved_waiting x x' Hk Hobj (Sync y) _ Hm), decide_True] | done]].
    apply (sync_effect tr y [current (ws_kernel x)] x x' Hx Hobj eq_refl eq_refl eq_refl eq_refl); [| exact Hm | | right; eauto].
    + intros z Hz. by apply fn_lookup_insert_ne.
    + intros _. unfold x'. cbn [set_sync ws_sync]. rewrite fn_lookup_insert. by apply Hs.
  - set (x' := set_sync y _ _). split; [| done].
    apply (sync_effect tr y [] x x' Hx); [| done..| | | done | by left].
    + eapply same_objects_trans; [apply same_objects_kernel | by apply same_objects_sync].
    + intros z Hz. by apply fn_lookup_insert_ne.
    + constructor; [apply Hk | | done]. intros v. case_decide as E; [by rewrite <- E | done].
Qed.

(** ** Draining *)

(** The flags and the wait queues of queue [q] after a drain request. *)
Lemma drain_effect tr q l x x' :
  work_inv tr x -> same_objects x x' -> ws_work x' = ws_work x -> ws_active x' = ws_active x -> ws_sync x' = ws_sync x ->
  pending_cancels x' = pending_cancels x -> (∀ r, pending r x' = pending r x) ->
  (∀ r b, b ≠ K_WORK_QUEUE_DRAIN_BIT -> b ≠ K_WORK_QUEUE_PLUGGED_BIT -> queue_test r b x' = queue_test r b x) ->
  (∀ r, draining r x' = draining r x || bool_decide (q = r)) ->
  moved (λ v, if decide (wq_of x (Drain q) = v) then l else if decide (wq_of x (Notify q) = v) then [] else waitq (ws_kernel x) v)
    (ws_kernel x) (ws_kernel x') -> work_inv tr x'.
Proof.
  intros [Hd Ht Hk] Hobj Ew Ea Es Ec Ep Eq Ed Hm.
  assert (∀ o, waiting o x' = if decide (Drain q = o) then l else if decide (Notify q = o) then [] else waiting o x) as Hw.
  { intros o. unfold waiting. rewrite (so_wq _ _ Hobj), (mv_waitq _ _ _ Hm).
    destruct (decide (Drain q = o)) as [<- | Hn]; [by rewrite decide_True |]. rewrite decide_False by (intros E; by apply Hn, (ki_objects _ Hk)).
    destruct (decide (Notify q = o)) as [<- | Hn']; [by rewrite decide_True |]. rewrite decide_False by (intros E; by apply Hn', (ki_objects _ Hk)). done. }
  assert (∀ v c, work_test v c x' = work_test v c x) as Ef by (intros v c; unfold work_test; by rewrite Ew).
  constructor.
  - apply (data_same x x' Hd); try done; [intros j; unfold home; by rewrite Ew | by rewrite Ea | intros r; by apply Eq].
  - apply (trace_same tr x x' Ht); try done; [intros j; apply Ef | intros j; apply Ef | by rewrite Ea].
  - apply (kern_build x x' Hk Hobj).
    + apply Hm.
    + intros r. destruct (decide (q = r)) as [<- | Hne]; [left; by rewrite Hw, decide_False, decide_True |].
      apply (notify_same r x); [apply Hk | rewrite Hw, !decide_False by congruence; done | apply Hobj | by rewrite Ep | | by rewrite Ea].
      rewrite Ed, bool_decide_eq_false_2, orb_false_r by done. done.
    + intros r. unfold drain_ok. rewrite Hw, Ed. destruct (decide (q = r)) as [<- | Hne]; [by rewrite bool_decide_eq_true_2, orb_true_r |].
      rewrite !decide_False by congruence. intros H. by rewrite (ki_drain _ Hk r H).
    + intros y. apply (sem_same y x); [apply Hk | rewrite Hw, !decide_False by congruence; done | | by rewrite Es].
      apply used_same; [intros r; by rewrite Ep | by rewrite Ea | by rewrite Ec].
    + intros j Hj. unfold delayed. rewrite Ef. apply Hk. exact (mv_linked _ _ _ Hm _ Hj).
Qed.

Lemma drain_request_ok tr q plug x :
  work_inv tr x -> current (ws_kernel x) ∈ runq (ws_kernel x) -> let r := k_work_queue_drain q plug x in
  work_inv tr r.2 /\ (r.1 = Blocks \/ r = (Returns 0, x) /\ pending q x = [] /\ ws_active x q = None).
Proof.
  intros Hx Hc. unfold k_work_queue_drain. rewrite flag_two. fold (queue_test q K_WORK_QUEUE_BUSY_BIT x) (queue_test q K_WORK_QUEUE_DRAIN_BIT x).
  pose proof (wi_kern _ _ Hx) as Hk. destruct (_ || _) eqn:E; cbv zeta; cbn [fst snd].
  - split; [| by left]. clear E. set (x1 := queue_set q K_WORK_QUEUE_DRAIN_BIT x).
    set (x2 := if plug then queue_set q K_WORK_QUEUE_PLUGGED_BIT x1 else x1).
    assert (same_objects x x2 /\ ws_kernel x2 = ws_kernel x /\ (∀ r, pending r x2 = pending r x) /\
      (∀ r b, b ≠ K_WORK_QUEUE_DRAIN_BIT -> b ≠ K_WORK_QUEUE_PLUGGED_BIT -> queue_test r b x2 = queue_test r b x) /\
      (∀ r, draining r x2 = draining r x || bool_decide (q = r))) as (Hobj & Ek & Ep & Eq & Ed).
    { assert (∀ r b, queue_test r b x1 = queue_test r b x || bool_decide (q = r /\ K_WORK_QUEUE_DRAIN_BIT = b)) as E1 by (intros; apply qtest_set).
      assert (∀ r b, b ≠ K_WORK_QUEUE_PLUGGED_BIT -> queue_test r b x2 = queue_test r b x1) as E2.
      { intros r b Hb. unfold x2. destruct plug; [| done]. rewrite qtest_set, bool_decide_eq_false_2, orb_false_r; [done |]. intros [_ ?]. congruence. }
      split_and!.
      - unfold x2. destruct plug; solve_objects.
      - unfold x2. by destruct plug.
      - intros r. unfold x2. destruct plug; [rewrite pending_qset |]; apply pending_qset.
      - intros r b H1 H2. rewrite E2, E1, bool_decide_eq_false_2, orb_false_r by (done || intros [_ ?]; congruence). done.
      - intros r. unfold draining. rewrite E2, E1 by done. f_equal. apply bool_decide_ext. tauto. }
    assert (ws_work x2 = ws_work x /\ ws_active x2 = ws_active x /\ ws_sync x2 = ws_sync x /\ pending_cancels x2 = pending_cancels x) as (F1 & F2 & F3 & F4)
      by (unfold x2; by destruct plug).
    clearbody x2. clear x1. rewrite notify_eq. set (x3 := upd_kernel _ x2).
    destruct (moved_wake (wq_of x (Notify q)) 0 0 (ws_kernel x) (ki_sched _ Hk)) as [Hm [K1 K2]].
    assert (ws_kernel x3 = (z_sched_wake (wq_of x (Notify q)) 0 0 (ws_kernel x)).2) as E3.
    { unfold x3. cbn [upd_kernel ws_kernel]. rewrite Ek. by rewrite <- (so_wq _ _ Hobj). }
    set (s1 := (z_sched_wake (wq_of x (Notify q)) 0 0 (ws_kernel x)).2) in *.
    pose proof (moved_pend (wq_of x (Drain q)) s1 (mv_inv _ _ _ Hm)) as H2. rewrite K1 in H2. specialize (H2 (K2 Hc)).
    set (l := z_priq_dumb_add (thr s1) (waitq s1 (wq_of x (Drain q))) (current (ws_kernel x))) in *.
    apply (drain_effect tr q l x); try done.
    + solve_objects.
    + change (moved (λ v, if decide (wq_of x (Drain q) = v) then l else if decide (wq_of x (Notify q) = v) then [] else waitq (ws_kernel x) v)
        (ws_kernel x) (z_pend_curr (wq_of x2 (Drain q)) K_FOREVER (ws_kernel x3))). rewrite E3, (so_wq _ _ Hobj).
      destruct (work_moved_trans _ _ _ _ _ Hm H2) as [A B C]. constructor; [done | | done]. intros v. rewrite B. case_decide; [done |].
      rewrite (mv_waitq _ _ _ Hm). case_decide; [| done]. apply notify_none, Hk.
  - apply orb_false_iff in E as [E E3]. apply orb_false_iff in E as [E _]. apply orb_false_iff in E as [E1 _].
    apply negb_false_iff, bool_decide_eq_true in E3. split; [done |]. right. split_and!; try done.
    destruct (ws_active x q) eqn:Ha; [| done]. assert (queue_test q K_WORK_QUEUE_BUSY_BIT x = true) by (apply (di_busy _ (wi_data _ _ Hx)); by rewrite Ha).
    congruence.
Qed.

(** ** Initialisation *)

(** An item no list and no timeout refers to. *)
Definition idle_item i x : Prop := queued i x = false /\ running i x = false /\ delayed i x = false.

Lemma init_ok tr i h f x :
  work_inv tr x -> idle_item i x -> f = 0 \/ f = mask K_WORK_DELAYABLE_BIT ->
  work_inv tr (upd_work (Item i) (λ _, mk_work h None f) x).
Proof.
  intros [Hd Ht Hk] (Hq & Hr & Hdl) Hf. set (x' := upd_work _ _ x).
  assert (∀ c, c ≠ K_WORK_DELAYABLE_BIT -> work_test (Item i) c x' = false) as Et.
  { intros c Hc. unfold x', work_test. cbn [upd_work ws_work]. rewrite fn_lookup_insert. cbn [work_flags].
    destruct Hf as [-> | ->]; [apply flag_test_0 | rewrite flag_test_mask, bool_decide_eq_false_2; congruence]. }
  assert (∀ v c, v ≠ Item i -> work_test v c x' = work_test v c x) as Eo.
  { intros v c Hv. unfold x', work_test. cbn [upd_work ws_work]. by rewrite fn_lookup_insert_ne. }
  assert (queued i x' = false /\ running i x' = false /\ delayed i x' = false /\ canceling i x' = false) as (Q & R & D & C).
  { unfold queued, running, delayed, canceling. by rewrite !Et. }
  assert (∀ j, queued j x' = queued j x /\ running j x' = running j x /\ delayed j x' = delayed j x) as Ej.
  { intros j. destruct (decide (j = i)) as [-> | Hne]; [by rewrite Q, R, D, Hq, Hr, Hdl |]. unfold queued, running, delayed. by rewrite !Eo by congruence. }
  assert (same_objects x x') as Hobj by apply same_objects_work.
  assert (∀ o, waiting o x' = waiting o x) as Hw by (intros o; unfold waiting; by rewrite (so_wq _ _ Hobj)).
  constructor.
  - apply (flag_data x x' Hd i); try done; [congruence | congruence | by rewrite C | by rewrite D | by rewrite Et |].
    intros j. destruct (decide (j = i)) as [-> | Hne]; [by right |]. left. unfold home, x'. cbn [upd_work ws_work]. by rewrite fn_lookup_insert_ne by congruence.
  - apply (trace_same tr x x' Ht); try done; apply Ej.
  - apply (kern_build x x' Hk Hobj).
    + apply Hk.
    + intros r. apply (notify_same r x); [apply Hk | apply Hw | done..].
    + intros r. apply (drain_same r x); [apply Hk | apply Hw | done].
    + intros y. apply (sem_same y x); [apply Hk | apply Hw | done | done].
    + intros j Hl. destruct (Ej j) as (_ & _ & ->). by apply Hk.
Qed.

(** A queue that is not in use yet, with the memory of its thread. *)
Definition idle_queue q x : Prop :=
  pending q x = [] /\ ws_active x q = None /\ waiting (Notify q) x = [] /\ waiting (Drain q) x = [] /\
  unused (ws_kernel x) (wq_thread (ws_queue x q)).

Definition start_flags (config : option k_work_queue_config) : Z :=
  match config with
  | Some c => if no_yield c then Z.lor (mask K_WORK_QUEUE_STARTED_BIT) (mask K_WORK_QUEUE_NO_YIELD_BIT) else mask K_WORK_QUEUE_STARTED_BIT
  | None => mask K_WORK_QUEUE_STARTED_BIT
  end.

Lemma start_flags_test config :
  flag_test (start_flags config) K_WORK_QUEUE_STARTED_BIT = true /\ flag_test (start_flags config) K_WORK_QUEUE_BUSY_BIT = false /\
  flag_test (start_flags config) K_WORK_QUEUE_DRAIN_BIT = false /\ flag_test (start_flags config) K_WORK_QUEUE_PLUGGED_BIT = false.
Proof. by destruct config as [[[] ?] |]. Qed.

(** The kernel's part of the start. *)
Definition start_kernel (t : tid) (prio : Z) (config : option k_work_queue_config) (s : z_kernel) : z_kernel :=
  let s := z_impl_k_thread_create t prio 0 K_FOREVER s in
  let s := match config with
           | Some c => if essential c then upd_thread t (λ t, set_user_options (Z.lor (user_options t) K_ESSENTIAL) t) s else s
           | None => s
           end in
  z_impl_k_thread_start t s.

Lemma start_kernel_moved t prio config s : sched_inv ∅ s -> unused s t -> moved (waitq s) s (start_kernel t prio config s).
Proof.
  intros Hs Hu. pose proof (proj1 (proj2 (proj2 (proj2 Hu)))) as Hi. destruct (moved_create t prio 0 s Hs Hu) as [H1 E1]. unfold start_kernel. cbv zeta in *.
  set (s1 := z_impl_k_thread_create t prio 0 K_FOREVER s) in *.
  set (s2 := match config with Some c => _ | None => s1 end).
  assert (same_sched s1 s2) as H2.
  { unfold s2. destruct config as [[? []] |]; try apply same_sched_refl. by apply same_upd. }
  pose proof (moved_same s1 s2 (mv_inv _ _ _ H1) H2) as M2.
  assert (moved (waitq s2) s2 (z_impl_k_thread_start t s2)) as M3.
  { apply moved_start; [apply M2 |]. by rewrite (same_idle _ _ H2), E1. }
  destruct (work_moved_trans _ _ _ _ _ (work_moved_trans _ _ _ _ _ H1 M2) M3) as [A B C]. constructor; [done | | done].
  intros v. by rewrite B, (same_waitq _ _ H2), (mv_waitq _ _ _ H1).
Qed.

(** The part of the start that touches the queue. *)
Lemma start_queue_ok tr q v x :
  work_inv tr x -> idle_queue q x -> flag_test v K_WORK_QUEUE_BUSY_BIT = false -> flag_test v K_WORK_QUEUE_DRAIN_BIT = false ->
  work_inv tr (upd_queue q (set_wq_flags v) (set_pending q [] x)).
Proof.
  intros Hx (Hp & Ha & Hn & Hdr & Hu) Hb Hd. set (x' := upd_queue _ _ _).
  assert (∀ r b, queue_test r b x' = if decide (q = r) then flag_test v b else queue_test r b x) as Eq.
  { intros r b. unfold x', queue_test. cbn [upd_queue ws_queue]. case_decide; [subst; by rewrite fn_lookup_insert |].
    rewrite fn_lookup_insert_ne by done. apply qtest_pending. }
  assert (same_objects x x') as Hobj.
  { eapply same_objects_trans; [apply same_objects_pending |]. constructor; [intros [] | intros]; cbn [wq_of]; unfold x'; cbn [upd_queue ws_queue ws_sync];
      try done; destruct (decide (q = q0)) as [<- |]; by rewrite ?fn_lookup_insert, ?fn_lookup_insert_ne by done. }
  apply (quiet_ok tr x x' Hx Hobj); [done.. | | | apply Hx | | | | apply Hx].
  - intros r. unfold x', pending. cbn [upd_queue ws_queue]. destruct (decide (q = r)) as [<- | Hne].
    + rewrite fn_lookup_insert. cbn [set_wq_flags wq_pending]. fold (pending q (set_pending q [] x)) (pending q x). rewrite pending_set, decide_True by done. done.
    + rewrite fn_lookup_insert_ne by done. fold (pending r (set_pending q [] x)) (pending r x). by rewrite pending_set, decide_False.
  - intros r. rewrite Eq. case_decide; [subst r | done]. rewrite Hb. symmetry. apply not_true_is_false. intros H.
    apply (di_busy _ (wi_data _ _ Hx)) in H. done.
  - intros o. unfold waiting. by rewrite (so_wq _ _ Hobj).
  - intros r. unfold draining. rewrite Eq. by case_decide.
  - intros r. unfold draining. rewrite Eq. case_decide; [subst r; by rewrite Hdr | done].
Qed.

(** The lists and flags of a queue that is started. *)
Definition started q config x : work_sys := upd_queue q (set_wq_flags (start_flags config)) (set_pending q [] x).

Lemma start_eq q prio config x :
  sched_inv ∅ (ws_kernel x) -> idle_queue q x ->
  exists s', k_work_queue_start q prio config x = upd_kernel (λ _, s') (started q config x) /\ moved (waitq (ws_kernel x)) (ws_kernel x) s'.
Proof.
  intros Hinv (Hp & Ha & Hn & Hdr & Hu).
  set (x0 := set_pending q [] x). assert (same_objects x x0) as Hobj by apply same_objects_pending.
  set (s1 := z_waitq_init (wq_of x (Drain q)) (z_waitq_init (wq_of x (Notify q)) (ws_kernel x))).
  assert (same_sched (ws_kernel x) s1) as Hs.
  { assert (same_sched (ws_kernel x) (z_waitq_init (wq_of x (Notify q)) (ws_kernel x))) as H by (by apply same_waitq_init).
    unfold s1. etransitivity; [exact H |]. apply same_waitq_init. by rewrite (same_waitq _ _ H). }
  assert (unused s1 (wq_thread (ws_queue x q))) as Hu1.
  { destruct Hu as (U1 & U2 & U3 & U4 & U5). unfold unused. rewrite (same_runq _ _ Hs), (same_pended _ _ Hs), (same_active _ _ _ Hs), (same_idle _ _ Hs), (same_waitq _ _ Hs). done. }
  exists (start_kernel (wq_thread (ws_queue x q)) prio config s1). split.
  - unfold s1. rewrite <- (so_wq _ _ Hobj (Drain q)), <- (so_wq _ _ Hobj (Notify q)), <- (so_thread _ _ Hobj q).
    unfold k_work_queue_start, start_kernel, started. fold x0. cbv zeta.
    assert (wq_thread (ws_queue (upd_queue q (set_wq_flags (start_flags config)) x0) q) = wq_thread (ws_queue x0 q)) as E
      by (cbn [upd_queue ws_queue]; by rewrite fn_lookup_insert).
    change (ws_queue (upd_kernel ?f ?z)) with (ws_queue z).
    destruct config as [[[] []] |]; cbn [no_yield essential start_flags] in *; cbn [upd_queue upd_kernel ws_queue] in *; rewrite ?E; reflexivity.
  - pose proof (moved_same (ws_kernel x) s1 Hinv Hs) as M1.
    pose proof (start_kernel_moved (wq_thread (ws_queue x q)) prio config s1 (mv_inv _ _ _ M1) Hu1) as M2.
    destruct (work_moved_trans _ _ _ _ _ M1 M2) as [A B C]. constructor; [done | | done]. intros v. by rewrite B, (same_waitq _ _ Hs).
Qed.

Lemma start_ok tr q prio config x :
  work_inv tr x -> idle_queue q x -> work_inv tr (k_work_queue_start q prio config x).
Proof.
  intros Hx Hq. destruct (start_flags_test config) as (_ & Hb & Hd & _).
  pose proof (start_queue_ok tr q (start_flags config) x Hx Hq Hb Hd) as H1. fold (started q config x) in H1.
  destruct (start_eq q prio config x (ki_sched _ (wi_kern _ _ Hx)) Hq) as (s' & -> & Hm).
  apply (work_env_ok tr _ _ H1), moved_env, Hm.
Qed.
End Ops.
