(* ===== verification/WorkRun.v ===== *)
(** * Work queues: runs

    Runs of the work module under arbitrary callers, and what holds in every
    run: an item never runs twice at the same time, and every accepted
    submission is run exactly once or withdrawn by a cancellation; and two races
    the code loses. *)

From Stdlib Require Import ZArith Lia Bool.
From stdpp Require Import base numbers functions list gmap sets.
From S2P Require Import Prelude TimeoutQ Kernel PrioQ Sched SchedInv SchedOps Threads WaitApi Sem Work WorkKern WorkInv WorkTrace WorkOps WorkEnv.

Open Scope Z_scope.

Section Calls.
Context {cfg : Kconfig}.
Implicit Types (tr : list work_event) (x : work_sys) (q i y : nat) (queue : option nat).

(** ** The calls *)

(** A call whose result does not say whether it put the item on a queue has done
    so if the item is marked QUEUED after it and was not before. *)
Definition accept_event i x x' : list work_event := if negb (queued i x) && queued i x' then [Accept i] else [].

Definition flush_event (need : bool) y i : list work_event := if need then [FlushFrom y i] else [].

(** A positive result of a submission says that it was accepted. *)
Definition submit_event i (ret : Z) : list work_event := if ret >? 0 then [Accept i] else [].

(** The queue thread calls the handler of the item it was handed. *)
Definition take_event (r : option (work_id * work_handler)) : list work_event :=
  match r with Some (w, _) => start_event w | None => [] end.

Lemma accepted_queued i q x : queued i (accepted i q x) = true.
Proof. unfold queued. rewrite accepted_test. wbits. Qed.

Lemma submit_ok tr i queue x :
  work_inv tr x -> let r := submit_to_queue_locked (Item i) queue x in
  work_inv (accept_event i x r.2 ++ tr) r.2 /\ (0 < r.1.1 <-> accept_event i x r.2 = [Accept i]).
Proof.
  intros Hx. cbv zeta. rewrite submit_eq.
  assert (∀ v w, v <= 0 -> let r := (v, w, x) : Z * option nat * work_sys in
    work_inv (accept_event i x r.2 ++ tr) r.2 /\ (0 < r.1.1 <-> accept_event i x r.2 = [Accept i])) as Hno.
  { intros v w Hv. cbn [fst snd]. unfold accept_event. destruct (queued i x); simpl; split; try done; split; (lia || done). }
  unfold EBUSY, EINVAL, ENODEV.
  destruct (canceling i x) eqn:Hc; [by apply Hno |]. destruct (queued i x) eqn:Hq; [by apply Hno |].
  destruct (submit_queue i queue x) as [q |] eqn:Hsq; [| by apply Hno].
  destruct (queue_accepts q x); [| apply Hno; by destruct (queue_test _ _ _)]. cbn [fst snd].
  unfold accept_event. rewrite Hq, accepted_queued. split; [| by destruct (running i x)].
  apply accepted_ok; [done.. |]. intros Hr. unfold submit_queue in Hsq. by rewrite Hr in Hsq.
Qed.

Lemma submitted_used i queue x y :
  used y (submit_to_queue_locked (Item i) queue x).2 <-> used y x.
Proof.
  assert (∀ q, used y (accepted i q x) <-> used y x) as H.
  { intros q. apply used_same; [| by unfold accepted; rewrite notify_eq..].
    intros r. rewrite accepted_pending. case_decide; [subst; set_solver | done]. }
  rewrite submit_eq. destruct (canceling i x), (queued i x); try done.
  destruct (submit_queue i queue x) as [q |]; [| done]. destruct (queue_accepts q x); [apply H | done].
Qed.

Lemma k_submit_ok tr i queue x :
  work_inv tr x -> let r := k_work_submit_to_queue queue (Item i) x in work_inv (submit_event i r.1 ++ tr) r.2.
Proof.
  intros Hx. unfold k_work_submit_to_queue, z_work_submit_to_queue. destruct (submit_ok tr i queue x Hx) as [H He].
  destruct (submit_to_queue_locked (Item i) queue x) as [[ret queue'] x1]. cbv zeta in *. cbn [fst snd] in *. unfold submit_event.
  destruct (Z.gtb_spec ret 0) as [Hr | Hr].
  - rewrite (proj1 He) in H by lia. by apply reschedule_ok.
  - unfold accept_event in *. destruct (negb (queued i x) && queued i x1); [| done]. assert (0 < ret) by (by apply He). lia.
Qed.

Lemma flush_ok tr i y x :
  work_inv tr x -> ~ used y x -> let r := work_flush_locked (Item i) y x in work_inv (flush_event r.1 y i ++ tr) r.2.
Proof.
  intros Hx Hu. destruct (work_flush_eq i y x (wi_data _ _ Hx)) as [[_ ->] | (_ & q & Hq & ->)]; [done |].
  by apply flusher_ok.
Qed.

Lemma cancel_sync_ok tr i y x :
  work_inv tr x -> ~ used y x -> work_inv tr (cancel_sync_locked (Item i) y x).2.
Proof. intros Hx Hu. unfold cancel_sync_locked. cbn [snd]. case_match; [by apply canceller_ok | done]. Qed.

Lemma work_cancel_sync_ok tr i y x :
  work_inv tr x -> delayed i x = false -> ~ used y x ->
  work_inv (withdraw_event i x ++ tr) (work_cancel_sync_locked (Item i) y x).2.
Proof.
  intros Hx Hd Hu. unfold work_cancel_sync_locked. rewrite busy_flags. destruct (_ || _) eqn:Hb.
  - destruct (cancel_async_ok tr i x Hx Hd) as (H1 & H2 & _). cbv zeta in *.
    pose proof (cancel_sync_ok _ i y _ H1) as H3. destruct (cancel_sync_locked _ _ _) as [need x']. cbn [fst snd] in *.
    apply H3. by rewrite (io_used _ _ _ H2).
  - rewrite !orb_false_iff in Hb. destruct Hb as ((((_ & Hq) & _) & _) & _). unfold withdraw_event, queued. by rewrite Hq.
Qed.

Lemma withdraw_same i x x' : queued i x' = queued i x -> withdraw_event i x' = withdraw_event i x.
Proof. unfold withdraw_event. by intros ->. Qed.

Lemma cancel_delayable_ok tr i x :
  work_inv tr x -> let x' := (cancel_delayable_async_locked i x).2 in
  work_inv (withdraw_event i x ++ tr) x' /\ (∀ y, used y x' <-> used y x).
Proof.
  intros Hx. unfold cancel_delayable_async_locked. destruct (unschedule_ok tr i x Hx) as (H1 & _ & Hd & _ & _ & Et & Hu & _).
  cbv zeta in *. set (x1 := (unschedule_locked i x).2) in *. destruct (cancel_async_ok tr i x1 H1 Hd) as (H2 & H3 & _).
  rewrite (withdraw_same i x x1) in H2 by (apply Et; by right). split; [done |]. intros y. rewrite (io_used _ _ _ H3). apply Hu.
Qed.

Lemma cancel_delayable_sync_ok tr i y x :
  work_inv tr x -> ~ used y x -> work_inv (withdraw_event i x ++ tr) (cancel_delayable_sync_locked i y x).2.
Proof.
  intros Hx Hu. unfold cancel_delayable_sync_locked. change (work_delayable_busy_get_locked i x) with (work_busy_get_locked (Item i) x). rewrite busy_flags. destruct (_ || _) eqn:Hb.
  - destruct (cancel_delayable_ok tr i x Hx) as (H1 & H2). cbv zeta in *.
    pose proof (cancel_sync_ok _ i y _ H1) as H3. destruct (cancel_sync_locked _ _ _) as [need x']. cbn [fst snd] in *.
    apply H3. by rewrite H2.
  - rewrite !orb_false_iff in Hb. destruct Hb as ((((_ & Hq) & _) & _) & _). unfold withdraw_event, queued. by rewrite Hq.
Qed.

Lemma accept_same i x x1 x' : queued i x1 = queued i x -> accept_event i x1 x' = accept_event i x x'.
Proof. unfold accept_event. by intros ->. Qed.

Lemma timeout_ok tr i x :
  work_inv tr x -> linked i x = false -> let x' := work_timeout i x in work_inv (accept_event i x x' ++ tr) x'.
Proof.
  intros Hx Hl. unfold work_timeout.
  change (work_test_and_clear (Item i) K_WORK_DELAYED_BIT x) with (delayed i x, work_clear (Item i) K_WORK_DELAYED_BIT x).
  set (x1 := work_clear (Item i) K_WORK_DELAYED_BIT x). pose proof (di_item _ (wi_data _ _ Hx) i) as Hi.
  assert (∀ c, c ≠ K_WORK_DELAYED_BIT -> work_test (Item i) c x1 = work_test (Item i) c x) as Et.
  { intros c Hc. unfold x1. rewrite test_clear, bits_same, bool_decide_eq_false_2, andb_true_r by congruence. done. }
  assert (delayed i x1 = false) as Ed by (unfold delayed, x1; rewrite test_clear; wbits).
  assert (work_inv tr x1) as H1.
  { apply (flags_only_ok tr i x); [done | by apply clear_flags_only | | | congruence | by rewrite Et; [apply Hi |]]; fold x1.
    - unfold canceling. rewrite Et by done. apply Hi.
    - by rewrite Ed. }
  assert (queued i x1 = queued i x) as Eq by (by apply Et). cbv zeta. destruct (delayed i x).
  - destruct (submit_ok tr i (dwork_queue x1 i) x1 H1) as [H2 _]. cbv zeta in H2.
    destruct (submit_to_queue_locked _ _ _) as [[ret queue] x2]. cbn [snd] in H2. by rewrite <- (accept_same i x x1).
  - unfold accept_event. rewrite Eq. by destruct (queued i x).
Qed.

Lemma schedule_locked_ok tr i queue delay x :
  work_inv tr x -> linked i x = false -> valid_timeout delay -> work_test (Item i) K_WORK_DELAYABLE_BIT x = true ->
  let x' := (schedule_for_queue_locked queue i delay x).2 in work_inv (accept_event i x x' ++ tr) x'.
Proof.
  intros Hx Hl Hv Hd. unfold schedule_for_queue_locked. destruct (K_TIMEOUT_EQ delay K_NO_WAIT); [by apply submit_ok |].
  cbv zeta. cbn [snd]. fold (armed queue i delay x).
  assert (queued i (armed queue i delay x) = queued i x) as Eq.
  { change (queued i (armed queue i delay x)) with (queued i (work_set (Item i) K_WORK_DELAYED_BIT x)). unfold queued. rewrite test_set. wbits. }
  unfold accept_event. rewrite Eq. destruct (queued i x); simpl; by apply armed_ok.
Qed.

Lemma schedule_ok tr i queue delay x :
  work_inv tr x -> valid_timeout delay -> work_test (Item i) K_WORK_DELAYABLE_BIT x = true ->
  let x' := (k_work_schedule_for_queue queue i delay x).2 in work_inv (accept_event i x x' ++ tr) x'.
Proof.
  intros Hx Hv Hd. unfold k_work_schedule_for_queue. destruct (Z.eqb_spec (Z.land (work_busy_get_locked (Item i) x) (Z.lnot (mask K_WORK_RUNNING_BIT))) 0) as [Hb | Hb].
  - assert (linked i x = false) as Hl.
    { apply not_true_is_false. intros Hl%(ki_timeout _ (wi_kern _ _ Hx)). unfold delayed, work_test in Hl. rewrite flag_test_bit in Hl.
      apply (f_equal (λ z, Z.testbit z 3)) in Hb. unfold work_busy_get_locked in Hb. rewrite !Z.land_spec in Hb.
      change (bit_pos K_WORK_DELAYED_BIT) with 3 in Hl. rewrite Hl in Hb. by vm_compute in Hb. }
    pose proof (schedule_locked_ok tr i queue delay x Hx Hl Hv Hd) as H. cbv zeta in *.
    by destruct (schedule_for_queue_locked _ _ _ _) as [[ret queue'] x'].
  - cbv zeta. unfold accept_event. simpl. by destruct (queued i x).
Qed.

Lemma reschedule_for_queue_ok tr i queue delay x :
  work_inv tr x -> valid_timeout delay -> work_test (Item i) K_WORK_DELAYABLE_BIT x = true ->
  let x' := (k_work_reschedule_for_queue queue i delay x).2 in work_inv (accept_event i x x' ++ tr) x'.
Proof.
  intros Hx Hv Hd. unfold k_work_reschedule_for_queue. destruct (unschedule_ok tr i x Hx) as (H1 & _ & _ & Hl & _ & Et & _).
  cbv zeta in *. set (x1 := (unschedule_locked i x).2) in *.
  pose proof (schedule_locked_ok tr i queue delay x1 H1 Hl Hv) as H. cbv zeta in H.
  destruct (schedule_for_queue_locked _ _ _ _) as [[ret queue'] x']. cbn [snd] in *.
  rewrite <- (accept_same i x x1) by (apply Et; by right). apply H. rewrite Et by (by right). done.
Qed.

Lemma flush_delayable_ok tr i y x :
  work_inv tr x -> ~ used y x -> let r := flush_delayable_locked i y x in
  work_inv (flush_event r.1 y i ++ accept_event i x r.2 ++ tr) r.2.
Proof.
  intros Hx Hu. unfold flush_delayable_locked. destruct (_ =? 0).
  { cbv zeta. cbn [fst snd]. unfold accept_event. by destruct (queued i x). }
  destruct (unschedule_ok tr i x Hx) as (H1 & _ & _ & Hl & _ & Et & Hu1 & _). cbv zeta in *.
  destruct (unschedule_locked i x) as [unscheduled x1]. cbn [fst snd] in *.
  assert (queued i x1 = queued i x) as Eq by (apply Et; by right).
  set (x2 := if unscheduled then _ else x1).
  assert (work_inv (accept_event i x x2 ++ tr) x2 /\ (used y x2 <-> used y x1)) as [H2 Hu2].
  { unfold x2. destruct unscheduled; [| split; [unfold accept_event; rewrite Eq; by destruct (queued i x) | done]].
    destruct (submit_ok tr i (dwork_queue x1 i) x1 H1) as [H2 _]. pose proof (submitted_used i (dwork_queue x1 i) x1 y) as H3.
    cbv zeta in H2. destruct (submit_to_queue_locked _ _ _) as [[ret queue] x3]. cbn [snd] in *. by rewrite <- (accept_same i x x1). }
  pose proof (flush_ok _ i y x2 H2) as H3. cbv zeta in H3. rewrite Hu2, Hu1 in H3. specialize (H3 Hu).
  assert (queued i (work_flush_locked (Item i) y x2).2 = queued i x2) as Eq2.
  { destruct (work_flush_eq i y x2 (wi_data _ _ H2)) as [[_ ->] | (_ & q & Hq & ->)]; [done |].
    destruct (flusher_frame q i y x2) as (_ & _ & _ & _ & _ & _ & _ & Ef & _). by apply Ef. }
  by replace (accept_event i x (work_flush_locked (Item i) y x2).2) with (accept_event i x x2) by (unfold accept_event; by rewrite Eq2).
Qed.
End Calls.

(** ** Runs *)

Section Run.
Context {cfg : Kconfig}.

(** The thread of queue [q] is the one running. *)
Definition queue_runs (q : nat) (x : work_sys) : Prop :=
  current (ws_kernel x) = wq_thread (ws_queue x q) /\ current (ws_kernel x) ∈ runq (ws_kernel x).

Definition delayable (i : nat) (x : work_sys) : bool := work_test (Item i) K_WORK_DELAYABLE_BIT x.

(** One step: a critical section of a caller, who may be any thread or an
    interrupt; the call of [k_sem_take] by the caller of a synchronous operation;
    a turn of a queue thread up to the handler or from its return; or a move of
    the rest of the system.  Callers respect the interface: sync objects are not
    shared, the kinds of items are not confused, objects in use are not
    initialised again.  A timeout that expires is taken off its list by the clock
    interrupt, a move of the rest of the system, before [work_timeout] is called;
    [ws_timeout] leaves out the calls before which the item was scheduled again,
    whose effect [work_reschedule_race] shows. *)
Inductive work_step : work_sys -> list work_event -> work_sys -> Prop :=
  | ws_submit x queue i :
      let r := k_work_submit_to_queue queue (Item i) x in work_step x (submit_event i r.1) r.2
  | ws_flush x i y :
      delayable i x = false -> ~ used y x ->
      let r := work_flush_locked (Item i) y x in work_step x (flush_event r.1 y i) r.2
  | ws_cancel x i :
      delayable i x = false -> work_step x (withdraw_event i x) (k_work_cancel (Item i) x).2
  | ws_cancel_sync x i y :
      delayable i x = false -> ~ used y x -> work_step x (withdraw_event i x) (work_cancel_sync_locked (Item i) y x).2
  | ws_wait x y :
      current (ws_kernel x) ∈ runq (ws_kernel x) -> waiting (Sync y) x = [] ->
      used y x \/ sem_count (sync_sem (ws_sync x y)) = 1 -> work_step x [] (sync_sem_take y x).2
  | ws_take x q : queue_runs q x -> ws_active x q = None -> let r := work_queue_take q x in work_step x (take_event r.1) r.2
  | ws_done x q w : queue_runs q x -> ws_active x q = Some w -> work_step x [finish_event w] (work_queue_done q w x)
  | ws_start x q prio config : idle_queue q x -> work_step x [] (k_work_queue_start q prio config x)
  | ws_drain x q plug : current (ws_kernel x) ∈ runq (ws_kernel x) -> work_step x [] (k_work_queue_drain q plug x).2
  | ws_unplug x q : work_step x [] (k_work_queue_unplug q x).2
  | ws_init x i h : idle_item i x -> work_step x [] (k_work_init (Item i) h x)
  | ws_init_delayable x i h : idle_item i x -> work_step x [] (k_work_init_delayable i h x)
  | ws_timeout x i : linked i x = false -> let x' := work_timeout i x in work_step x (accept_event i x x') x'
  | ws_schedule x queue i delay :
      delayable i x = true -> valid_timeout delay ->
      let x' := (k_work_schedule_for_queue queue i delay x).2 in work_step x (accept_event i x x') x'
  | ws_reschedule x queue i delay :
      delayable i x = true -> valid_timeout delay ->
      let x' := (k_work_reschedule_for_queue queue i delay x).2 in work_step x (accept_event i x x') x'
  | ws_cancel_delayable x i : work_step x (withdraw_event i x) (k_work_cancel_delayable i x).2
  | ws_cancel_delayable_sync x i y : ~ used y x -> work_step x (withdraw_event i x) (cancel_delayable_sync_locked i y x).2
  | ws_flush_delayable x i y :
      ~ used y x -> let r := flush_delayable_locked i y x in work_step x (flush_event r.1 y i ++ accept_event i x r.2) r.2
  | ws_env x s' : env_move x s' -> work_step x [] (upd_kernel (λ _, s') x).

Inductive work_run (x0 : work_sys) : list work_event -> work_sys -> Prop :=
  | run_start : work_run x0 [] x0
  | run_step tr x ev x' : work_run x0 tr x -> work_step x ev x' -> work_run x0 (ev ++ tr) x'.

Lemma step_ok tr x ev x' : work_inv tr x -> work_step x ev x' -> work_inv (ev ++ tr) x'.
Proof.
  intros Hx Hs. assert (∀ i, delayable i x = false -> delayed i x = false) as Hnd.
  { intros i Hi. apply not_true_is_false. intros Hd. apply (ii_delayed _ _ (di_item _ (wi_data _ _ Hx) i)) in Hd. unfold delayable in Hi. congruence. }
  destruct Hs; cbn [app].
  - exact (k_submit_ok tr i queue x Hx).
  - exact (flush_ok tr i y x Hx H0).
  - exact (proj1 (cancel_async_ok tr i x Hx (Hnd i H))).
  - exact (work_cancel_sync_ok tr i y x Hx (Hnd i H) H0).
  - exact (proj1 (sync_take_ok tr y x Hx H H0 H1)).
  - destruct H as [H1 H2]. unfold r. destruct (pending q x) as [| w l] eqn:Hp.
    + rewrite idle_eq by done. exact (idled_ok tr q x Hx Hp H0 H1 H2).
    + destruct (take_eq q w l x Hp) as [h ->]. exact (taken_ok tr q w l x Hx Hp H0).
  - exact (done_ok tr q w x Hx H0 (proj2 H)).
  - exact (start_ok tr q prio config x Hx H).
  - exact (proj1 (drain_request_ok tr q plug x Hx H)).
  - exact (unplug_ok tr q x Hx).
  - exact (init_ok tr i h 0 x Hx H (or_introl eq_refl)).
  - exact (dwork_ok tr i None _ (init_ok tr i h _ x Hx H (or_intror eq_refl))).
  - exact (timeout_ok tr i x Hx H).
  - exact (schedule_ok tr i queue delay x Hx H0 H).
  - exact (reschedule_for_queue_ok tr i queue delay x Hx H0 H).
  - exact (proj1 (cancel_delayable_ok tr i x Hx)).
  - exact (cancel_delayable_sync_ok tr i y x Hx H).
  - rewrite <- app_assoc. exact (flush_delayable_ok tr i y x Hx H).
  - exact (work_env_ok tr x s' Hx H).
Qed.

(** The state before the module is used: nothing queued, running, waiting or
    armed, and distinct wait queues and threads. *)
Record work_clean (x : work_sys) : Prop := {
  wc_flags : ∀ w b, b ≠ K_WORK_DELAYABLE_BIT -> work_test w b x = false;
  wc_pending : ∀ q, pending q x = [];
  wc_active : ∀ q, ws_active x q = None;
  wc_busy : ∀ q, queue_test q K_WORK_QUEUE_BUSY_BIT x = false;
  wc_cancels : pending_cancels x = [];
  wc_sched : sched_inv ∅ (ws_kernel x);
  wc_objects : ∀ o o', wq_of x o = wq_of x o' -> o = o';
  wc_threads : ∀ q r, wq_thread (ws_queue x q) = wq_thread (ws_queue x r) -> q = r;
  wc_waiting : ∀ o, waiting o x = [];
  wc_linked : ∀ i, linked i x = false
}.

Lemma clean_ok x : work_clean x -> work_inv [] x.
Proof.
  intros [Hf Hp Ha Hb Hc Hs Ho Ht Hw Hl].
  assert (∀ y q, ~ held y q x) as Hh by (intros y q; unfold held; rewrite Hp, Ha; by intros [?%elem_of_nil |]).
  assert (∀ y, ~ used y x) as Hu by (intros y; unfold used; rewrite Hc; intros [?%elem_of_nil | [q Hq]]; [done | by apply (Hh y q)]).
  constructor.
  - constructor.
    + intros i. apply (item_build i x false false false false (delayable i x) (home i x)); try (by apply Hf); try done.
      * intros q. rewrite Hp. split; [by intros ?%elem_of_nil | by intros []].
      * intros q. rewrite Ha. split; [done | by intros []].
      * by intros [].
    + intros y. constructor; [by intros q ?%Hh | by intros q r ?%Hh | intros q; rewrite Ha; done | intros q _; apply Hh].
    + intros q. rewrite Hp. constructor.
    + rewrite Hc. constructor.
    + intros q. rewrite Hb, Ha. done.
  - constructor.
    + intros i. unfold queued. by rewrite Hf.
    + intros i. unfold running. by rewrite Hf.
    + intros y q l1 l2. rewrite Hp. by destruct l1.
    + intros y q. by rewrite Ha.
  - constructor; try done.
    + intros q. left. apply Hw.
    + intros q. unfold drain_ok. by rewrite Hw.
    + intros y. constructor; [by intros ?%Hu | left; apply Hw].
    + intros i. by rewrite Hl.
Qed.

Lemma run_ok x0 tr x : work_clean x0 -> work_run x0 tr x -> work_inv tr x.
Proof. intros H0 Hr. induction Hr; [by apply clean_ok | by eapply step_ok]. Qed.

(** ** The synchronous calls are runs *)

Lemma flusher_after q i y x :
  kern_inv x -> ~ used y x -> let x' := flusher_added q i y x in
  waiting (Sync y) x' = [] /\ kept (ws_kernel x) (ws_kernel x') /\ used y x'.
Proof.
  intros Hk Hu. destruct (flusher_frame q i y x) as (Hobj & Ek & _). cbv zeta in *. set (x' := flusher_added q i y x) in *.
  set (x0 := sync_sem_init y x) in *. pose proof (moved_init y x Hk Hu) as Hi.
  change (moved (waitq (ws_kernel x)) (ws_kernel x) (ws_kernel x0)) in Hi.
  assert (∀ o, wq_of x0 o = wq_of x o) as Ho.
  { intros [| | z]; try done. unfold x0. rewrite sync_sem_init_eq. cbn [wq_of set_sync ws_sync upd_kernel].
    destruct (decide (y = z)) as [<- | Hne]; [by rewrite fn_lookup_insert | by rewrite fn_lookup_insert_ne]. }
  destruct (moved_wake (wq_of x0 (Notify q)) 0 0 (ws_kernel x0) (mv_inv _ _ _ Hi)) as [Hm Hkp]. rewrite <- Ek in Hm, Hkp.
  split; [| split; [exact Hkp |]].
  - unfold waiting. rewrite (so_wq _ _ Hobj), (mv_waitq _ _ _ Hm), !Ho, decide_False by (intros E; by apply (ki_objects _ Hk) in E).
    rewrite (mv_waitq _ _ _ Hi). by apply unused_waiting.
  - right. exists q. left. unfold x'. rewrite flusher_pending, decide_True, with_flusher_perm by done. left.
Qed.

Lemma canceller_after y w x :
  kern_inv x -> ~ used y x -> let x' := init_work_cancel y w x in
  waiting (Sync y) x' = [] /\ kept (ws_kernel x) (ws_kernel x') /\ used y x'.
Proof.
  intros Hk Hu. pose proof (moved_init y x Hk Hu) as Hi. cbv zeta. split; [| split; [done |]].
  - unfold init_work_cancel, waiting. cbn [wq_of set_pending_cancels set_sync ws_sync ws_kernel]. rewrite !fn_lookup_insert. cbn [sync_sem].
    rewrite sync_sem_init_eq. cbn [set_sync ws_sync upd_kernel ws_kernel]. rewrite fn_lookup_insert. cbn [sync_sem fresh_sem sem_wait_q].
    etrans; [apply (mv_waitq _ _ _ Hi) | by apply unused_waiting].
  - left. unfold init_work_cancel. cbn [set_pending_cancels pending_cancels]. apply elem_of_app. right. left.
Qed.

(** The whole of [k_work_flush], called by a running thread, is the critical
    section and then the wait. *)
Lemma k_work_flush_run x0 tr x i y :
  work_clean x0 -> work_run x0 tr x -> delayable i x = false -> ~ used y x -> current (ws_kernel x) ∈ runq (ws_kernel x) ->
  work_run x0 (flush_event (work_flush_locked (Item i) y x).1 y i ++ tr) (k_work_flush (Item i) y x).2.
Proof.
  intros H0 Hr Hd Hu Hc. destruct (run_ok x0 tr x H0 Hr) as [Hdata _ Hk]. pose proof (run_step x0 tr x _ _ Hr (ws_flush x i y Hd Hu)) as H1.
  unfold k_work_flush. destruct (work_flush_eq i y x Hdata) as [[_ E] | (_ & q & _ & E)]; rewrite E in *; cbn [fst snd flush_event sync_finish] in *; [done |].
  destruct (flusher_after q i y x Hk Hu) as (Hw & [K1 K2] & Hus). cbv zeta in *.
  assert (work_step (flusher_added q i y x) [] (sync_sem_take y (flusher_added q i y x)).2) as H2 by (apply ws_wait; [rewrite K1; auto | done | by left]).
  pose proof (run_step _ _ _ _ _ H1 H2) as H3. cbn [app] in *. by destruct (sync_sem_take y (flusher_added q i y x)).
Qed.

Lemma k_work_cancel_sync_run x0 tr x i y :
  work_clean x0 -> work_run x0 tr x -> delayable i x = false -> ~ used y x -> current (ws_kernel x) ∈ runq (ws_kernel x) ->
  work_run x0 (withdraw_event i x ++ tr) (k_work_cancel_sync (Item i) y x).2.
Proof.
  intros H0 Hr Hd Hu Hc. pose proof (run_ok x0 tr x H0 Hr) as Hx. pose proof (run_step x0 tr x _ _ Hr (ws_cancel_sync x i y Hd Hu)) as H1.
  assert (delayed i x = false) as Hdl.
  { apply not_true_is_false. intros Hl. apply (ii_delayed _ _ (di_item _ (wi_data _ _ Hx) i)) in Hl. unfold delayable in Hd. congruence. }
  unfold k_work_cancel_sync. assert (∀ x1, (work_cancel_sync_locked (Item i) y x).1.2 = true -> (work_cancel_sync_locked (Item i) y x).2 = x1 ->
    current (ws_kernel x1) ∈ runq (ws_kernel x1) /\ waiting (Sync y) x1 = [] /\ used y x1) as Hw.
  { intros x1. unfold work_cancel_sync_locked. destruct (negb _); [| done]. destruct (cancel_async_ok tr i x Hx Hdl) as (H2 & H3 & _). cbv zeta in *.
    unfold cancel_sync_locked. destruct (work_test _ _ _); cbn [fst snd]; [| done]. intros _ <-.
    destruct (canceller_after y (Item i) _ (wi_kern _ _ H2)) as (Hw & [K1 K2] & Hus); [by rewrite (io_used _ _ _ H3) |]. cbv zeta in *.
    split; [| done]. rewrite K1. rewrite (io_kernel _ _ _ H3) in *. auto. }
  destruct (work_cancel_sync_locked (Item i) y x) as [[pend need] x1]. cbn [fst snd] in *. unfold sync_finish. destruct need; [| done].
  destruct (Hw x1 eq_refl eq_refl) as (C1 & C2 & C3).
  pose proof (run_step _ _ _ _ _ H1 (ws_wait x1 y C1 C2 (or_introl C3))) as H3. cbn [app] in H3. by destruct (sync_sem_take y x1).
Qed.

(** ** What holds in every run *)

(** C9: In every run of the steps of [work_step] (callers respect the interface,
    the rest of the system leaves the threads asleep in the module alone, and no
    expiry handler is overtaken by a new scheduling of its item, see
    [work_reschedule_race]) the flags of an item say where it is: QUEUED
    exactly when it is on the pending list of the queue
    it was submitted to (once, and on no other), RUNNING exactly when the thread
    of that queue is in its handler, so that no item runs on two threads;
    CANCELING only while it runs and is not queued again.  A queue thread
    sleeps only when it has no pending or active item and no drain to finish;
    threads wait for a drain only while the queue is draining, and on a sync
    object only while its flusher is queued or run or its record is on the list
    of pending cancellations, where a record may outlive the cancellation
    ([work_cancel_strands_waiter]); an armed timeout belongs to an item marked
    DELAYED. *)
Theorem work_queue_invariant x0 tr x :
  work_clean x0 -> work_run x0 tr x ->
  (∀ i q, Item i ∈ pending q x <-> queued i x = true /\ home i x = Some q) /\
  (∀ i q, ws_active x q = Some (Item i) <-> running i x = true /\ home i x = Some q) /\
  (∀ q, NoDup (pending q x)) /\
  (∀ i, canceling i x = true -> running i x = true /\ queued i x = false) /\
  (∀ q, waiting (Notify q) x ≠ [] -> pending q x = [] /\ ws_active x q = None /\ draining q x = false) /\
  (∀ q, waiting (Drain q) x ≠ [] -> draining q x = true) /\
  (∀ y, waiting (Sync y) x ≠ [] -> used y x) /\
  (∀ i, linked i x = true -> delayed i x = true).
Proof.
  intros H0 Hr. destruct (run_ok x0 tr x H0 Hr) as [[Hi Hs Hn _ _] _ Hk]. split_and!.
  - intros i. apply Hi.
  - intros i. apply Hi.
  - done.
  - intros i. apply Hi.
  - intros q Hq. by destruct (ki_notify _ Hk q) as [| (_ & ? & ? & ?)].
  - apply Hk.
  - intros y Hy. by destruct (ss_waiter _ _ (ki_sync _ Hk y)) as [| [? _]].
  - apply Hk.
Qed.

(** C10: Submissions are conserved: in every run (of the steps of [work_step]; no
    expiry handler is overtaken by a new scheduling of its item) the number of
    times an item was accepted, by a submission whose result said so or by a call
    that marked it QUEUED, is the number of times it was handed to a queue thread
    to be run, plus the times a cancellation took it off its queue, plus one if it
    is queued now; every handler has returned but the one in progress.  A queue
    thread is handed the first item of its list, with the handler that is stored
    in the item, and nothing only if the list is empty. *)
Theorem work_conservation x0 tr x i :
  work_clean x0 -> work_run x0 tr x ->
  (count (Accept i) tr = count (Start i) tr + count (Withdraw i) tr + Nat.b2n (queued i x))%nat /\
  (count (Start i) tr = count (Finish i) tr + Nat.b2n (running i x))%nat /\
  (∀ q, (work_queue_take q x).1 = (λ w, (w, handler (ws_work x w))) <$> head (pending q x)).
Proof.
  intros H0 Hr. destruct (wi_trace _ _ (run_ok x0 tr x H0 Hr)). split; [done |]. split; [done |].
  intros q. unfold work_queue_take. destruct (pending q x) as [| w l]; [done |]. cbn [fst head fmap option_fmap option_map]. do 2 f_equal.
  wunfold. by rewrite !fn_lookup_insert.
Qed.

(** ** Submission *)


(** ** A waiter that is not released *)

Lemma cancel_search_first sync w l1 y l2 :
  (∀ z, z ∈ l1 -> sync_work (sync z) ≠ Some w) -> sync_work (sync y) = Some w ->
  cancel_search sync w (l1 ++ y :: l2) = (Some y, l1 ++ l2).
Proof.
  intros Hl Hy. induction l1 as [| z l1 IH]; simpl; [by rewrite decide_True |].
  rewrite decide_False by (apply Hl; left). rewrite IH; [done |]. intros u Hu. apply Hl. by right.
Qed.

(** C36: When several threads wait in [k_work_cancel_sync] for the same running
    item, the end of its handler releases the first of them only: the item is
    idle and its cancellation is over, but the second thread still sleeps, with
    its record on the list of pending cancellations. *)
Theorem work_cancel_strands_waiter tr x q i y1 y2 l1 l2 l3 t :
  work_inv tr x -> ws_active x q = Some (Item i) -> current (ws_kernel x) ∈ runq (ws_kernel x) -> canceling i x = true ->
  pending_cancels x = l1 ++ y1 :: l2 ++ y2 :: l3 -> (∀ z, z ∈ l1 -> sync_work (ws_sync x z) ≠ Some (Item i)) ->
  sync_work (ws_sync x y1) = Some (Item i) -> sync_work (ws_sync x y2) = Some (Item i) -> waiting (Sync y2) x = [t] ->
  let x' := work_queue_done q (Item i) x in
  canceling i x' = false /\ running i x' = false /\ queued i x' = false /\
  ~ used y1 x' /\ waiting (Sync y1) x' = [] /\
  y2 ∈ pending_cancels x' /\ waiting (Sync y2) x' = [t] /\ pended_on (thr (ws_kernel x') t) = Some (wq_of x' (Sync y2)).
Proof.
  intros Hx Ha Hc Hcn El Hl H1 H2 Hw. pose proof (done_ok tr q (Item i) x Hx Ha Hc) as Hx'. destruct Hx as [Hd Ht Hk].
  pose proof (finished_used q (Item i) x) as Hu. destruct (finished_frame q (Item i) x) as (Hobj & Ec & _ & _ & _ & _ & Ef & Er).
  destruct (finished_ok tr q (Item i) x) as [Hfin [K1 K2]]; [by constructor | done |].
  cbv zeta in *. rewrite done_eq in * by done. set (xf := finished q (Item i) x) in *.
  set (x' := if negb _ then _ else xf) in *.
  assert (released (Item i) x = Some y1 /\ cancels_left (Item i) x = l1 ++ l2 ++ y2 :: l3) as [Er1 Ecl].
  { cbn [released cancels_left]. rewrite Hcn, El, cancel_search_first by done. done. }
  assert (y1 ≠ y2) as Hne.
  { intros <-. pose proof (di_cancels _ Hd) as Hn. rewrite El in Hn. apply NoDup_app in Hn as (_ & _ & [Hn _]%NoDup_cons). apply Hn. set_solver. }
  assert (∀ o, waiting o x' = waiting o xf) as Hy.
  { intros o. unfold x'. destruct (negb _); [| done]. unfold waiting. rewrite (so_wq _ _ (same_objects_kernel _ xf)).
    apply (mv_waitq _ _ _ (moved_yield (ws_kernel xf) (ki_sched _ (wi_kern _ _ Hfin)) ltac:(rewrite K1; auto))). }
  assert (ws_work x' = ws_work xf /\ pending_cancels x' = pending_cancels xf /\ ws_active x' = ws_active xf /\ ws_queue x' = ws_queue xf) as (E1 & E2 & E3 & E4)
    by (unfold x'; by destruct (negb _)).
  assert (∀ b, work_test (Item i) b x' = work_test (Item i) b xf) as Eb by (intros b; unfold work_test; by rewrite E1).
  rewrite Er1 in Er. destruct Er as [Ek _]. destruct (work_released_used q (Item i) x y1 Hd Ha Er1) as [Hu1 _].
  destruct (give_moved y1 x Hk Hu1) as (Hm & _). cbv zeta in Hm. rewrite <- Ek in Hm.
  pose proof (moved_waiting x xf Hk Hobj (Sync y1) [] Hm) as Hwf.
  assert (waiting (Sync y2) x' = [t]) as Hw2 by (rewrite Hy, Hwf, decide_False; congruence).
  split; [unfold canceling; rewrite Eb, Ef; wbits |]. split; [unfold running; rewrite Eb, Ef; wbits |].
  split. { unfold queued. rewrite Eb, Ef. wbits. by apply (ii_cancel _ _ (di_item _ Hd i) Hcn). }
  split. { unfold used, held, pending. rewrite E2, E3, E4. by apply Hu. }
  split; [by rewrite Hy, Hwf, decide_True |]. split; [rewrite E2, Ec, Ecl; set_solver |]. split; [done |].
  apply (inv_waitq _ _ (ki_sched _ (wi_kern _ _ Hx'))). fold (waiting (Sync y2) x'). rewrite Hw2. left.
Qed.

(** ** A delay that is lost *)

Lemma queue_accepts_same q x x' :
  ws_queue x' = ws_queue x -> current (ws_kernel x') = current (ws_kernel x) -> nested (ws_kernel x') = nested (ws_kernel x) ->
  queue_accepts q x' = queue_accepts q x.
Proof. intros E1 E2 E3. unfold queue_accepts, draining, queue_test, k_is_in_isr, arch_is_in_isr. by rewrite E1, E2, E3. Qed.

Lemma unschedule_accepts q i x : queue_accepts q (unschedule_locked i x).2 = queue_accepts q x.
Proof.
  unfold unschedule_locked.
  change (work_test_and_clear (Item i) K_WORK_DELAYED_BIT x) with (delayed i x, work_clear (Item i) K_WORK_DELAYED_BIT x).
  destruct (delayed i x); [| by apply queue_accepts_same]. destruct (z_abort_timeout _ _) as [ret t]. by apply queue_accepts_same.
Qed.

Lemma reschedule_eq queue i d x :
  d ≠ K_NO_WAIT -> k_work_reschedule_for_queue queue i d x = (1, armed queue i d (unschedule_locked i x).2).
Proof. intros Hd. unfold k_work_reschedule_for_queue, schedule_for_queue_locked, K_TIMEOUT_EQ. by destruct (Z.eqb_spec d K_NO_WAIT). Qed.

Lemma armed_linked queue i d x : d ≠ K_FOREVER -> linked i (armed queue i d x) = true.
Proof. intros Hd. unfold linked, armed. cbn [upd_kernel ws_kernel timeouts set_timeouts]. by rewrite is_linked_add, bool_decide_eq_true_2. Qed.

Lemma armed_test queue i d x v c :
  work_test v c (armed queue i d x) = work_test v c x || bool_decide (Item i = v /\ K_WORK_DELAYED_BIT = c).
Proof. apply test_set. Qed.

(** The handler of an expired timeout of an idle item submits it. *)
Lemma timeout_submits i q x :
  delayed i x = true -> canceling i x = false -> queued i x = false -> running i x = false -> dwork_queue x i = Some q ->
  queue_accepts q x = true -> work_timeout i x = accepted i q (work_clear (Item i) K_WORK_DELAYED_BIT x).
Proof.
  intros Hd Hc Hq Hr Hdq Ha. unfold work_timeout.
  change (work_test_and_clear (Item i) K_WORK_DELAYED_BIT x) with (delayed i x, work_clear (Item i) K_WORK_DELAYED_BIT x).
  rewrite Hd. change (dwork_queue (work_clear (Item i) K_WORK_DELAYED_BIT x)) with (dwork_queue x). rewrite Hdq, submit_eq.
  set (x1 := work_clear (Item i) K_WORK_DELAYED_BIT x).
  assert (∀ c, c ≠ K_WORK_DELAYED_BIT -> work_test (Item i) c x1 = work_test (Item i) c x) as Et.
  { intros c Hne. unfold x1. rewrite test_clear, bits_same, bool_decide_eq_false_2, andb_true_r by congruence. done. }
  assert (canceling i x1 = false /\ queued i x1 = false /\ running i x1 = false) as (-> & -> & E).
  { unfold canceling, queued, running in *. by rewrite !Et. }
  unfold submit_queue. rewrite E, (queue_accepts_same q x x1) by done. by rewrite Ha.
Qed.

(** C37: The expiry handler of a delayable item does not notice that the item was
    scheduled again after its timeout left the list and before the handler ran
    (an interrupt between the two, which the expiry handler of kernel timers
    checks for): the item is submitted at once instead of after the new delay, and
    its timeout stays armed although the item is not marked DELAYED, so that the
    next [k_work_reschedule_for_queue] links the timeout a second time. *)
Theorem work_reschedule_race tr x i q d d' :
  work_inv tr x -> delayed i x = true -> linked i x = false -> queued i x = false -> running i x = false ->
  queue_accepts q x = true -> valid_timeout d -> d ≠ K_NO_WAIT -> d ≠ K_FOREVER -> d' ≠ K_NO_WAIT -> d' ≠ K_FOREVER ->
  let x1 := (k_work_reschedule_for_queue (Some q) i d x).2 in
  let x2 := work_timeout i x1 in
  let x3 := (k_work_reschedule_for_queue (Some q) i d' x2).2 in
  (k_work_reschedule_for_queue (Some q) i d x).1 = 1 /\ linked i x1 = true /\
  queued i x2 = true /\ delayed i x2 = false /\ linked i x2 = true /\
  ~ NoDup (timeout_list (timeouts (ws_kernel x3))).*1.
Proof.
  intros Hx Hd Hl Hq Hr Hacc Hv Hd1 Hd2 Hd3 Hd4. rewrite (reschedule_eq (Some q) i d) by done. cbv zeta. cbn [fst snd].
  destruct (unschedule_ok tr i x Hx) as (Hu & _ & _ & Hul & _ & Et & _). cbv zeta in *. pose proof (unschedule_accepts q i x) as Eacc.
  set (xu := (unschedule_locked i x).2) in *.
  assert (work_test (Item i) K_WORK_DELAYABLE_BIT xu = true) as Hdb.
  { rewrite Et by (by right). by apply (ii_delayed _ _ (di_item _ (wi_data _ _ Hx) i)). }
  pose proof (armed_ok tr (Some q) i d xu Hu Hul Hv Hdb) as H1. pose proof (armed_linked (Some q) i d xu Hd2) as Hl1.
  assert (∀ c, c ≠ K_WORK_DELAYED_BIT -> work_test (Item i) c (armed (Some q) i d xu) = work_test (Item i) c x) as Et1.
  { intros c Hc. rewrite armed_test, bits_same, bool_decide_eq_false_2, orb_false_r by congruence. apply Et. by right. }
  assert (delayed i (armed (Some q) i d xu) = true) as Hdl1 by (unfold delayed; rewrite armed_test; wbits).
  assert (dwork_queue (armed (Some q) i d xu) i = Some q) as Hdq by apply fn_lookup_insert.
  assert (queue_accepts q (armed (Some q) i d xu) = true) as Hacc1 by (rewrite (queue_accepts_same q xu) by done; congruence).
  set (x1 := armed (Some q) i d xu) in *. clearbody x1. split; [done |]. split; [done |].
  assert (queued i x1 = false /\ running i x1 = false) as [Hq1 Hr1] by (unfold queued, running in *; by rewrite !Et1).
  assert (canceling i x1 = false) as Hc1.
  { apply not_true_is_false. intros Hc. apply (ii_cancel _ _ (di_item _ (wi_data _ _ H1) i)) in Hc as [? _]. congruence. }
  rewrite (timeout_submits i q x1) by done. set (xc := work_clear (Item i) K_WORK_DELAYED_BIT x1). set (x2 := accepted i q xc).
  assert (delayed i x2 = false) as Hdl2.
  { unfold delayed, x2. rewrite accepted_test. unfold xc. rewrite test_clear. wbits. }
  assert (linked i x2 = true) as Hl2.
  { unfold x2, accepted. rewrite notify_eq. unfold linked. cbn [upd_work work_set upd_kernel ws_kernel].
    by rewrite wake_linked by apply (ki_sched _ (wi_kern _ _ H1)). }
  split; [apply accepted_queued |]. split; [done |]. split; [done |].
  rewrite reschedule_eq by done. cbn [snd]. unfold unschedule_locked.
  change (work_test_and_clear (Item i) K_WORK_DELAYED_BIT x2) with (delayed i x2, work_clear (Item i) K_WORK_DELAYED_BIT x2).
  rewrite Hdl2. cbn [snd]. unfold armed. cbn [upd_kernel ws_kernel timeouts set_timeouts]. rewrite add_timeout_keys by done.
  intros [Hn _]%NoDup_cons. apply Hn. unfold linked, is_linked in Hl2. by apply bool_decide_eq_true in Hl2.
Qed.
End Run.

(** ** A concrete system: two queues, a flush and two cancellations *)

#[local] Existing Instance default_kconfig | 100.

(** After boot: queue [q] has thread [10 + q]. *)
Definition work_x0 : work_sys :=
  mk_work_sys booted (λ _, mk_work handle_flush None 0) (λ _, None)
    (λ q, mk_work_q (10 + q) [] (inr (3 * q)%nat) (inr (3 * q + 1)%nat) 0)
    (λ y, mk_sync (mk_sem (inr (3 * y + 2)%nat) 0 0) None) [] (λ _, None).

Lemma booted_waitq w : waitq booted w = [].
Proof.
  assert (map_Forall (λ _ l, l = []) (waitqs booted)) as H by by_compute.
  unfold waitq. destruct (waitqs booted !! w) as [l |] eqn:E.
  - rewrite (lookup_total_correct _ _ _ E). exact (H w l E).
  - rewrite lookup_total_alt, E. reflexivity.
Qed.

Lemma work_x0_clean : work_clean work_x0.
Proof.
  constructor.
  - intros w b _. apply flag_test_0.
  - done.
  - done.
  - intros q. apply flag_test_0.
  - done.
  - by apply boot_inv.
  - intros [q | q | y] [q' | q' | y'] E; cbn in E; injection E as E; (f_equal; lia) || lia.
  - intros q r E. cbn in E. lia.
  - intros o. apply booted_waitq.
  - intros i. unfold linked, is_linked. by_compute.
Qed.

Lemma run_next x0 tr x ev ev' x' :
  work_run x0 tr x -> work_step x ev' x' -> ev' = ev -> work_run x0 (ev ++ tr) x'.
Proof. intros Hr Hs <-. by eapply run_step. Qed.

(** The main thread starts queue 0, submits item 0 and flushes it; the queue
    thread runs the item. *)
Definition work_x1 : work_sys := k_work_queue_start 0 5 None work_x0.
Definition work_x2 : work_sys := (k_work_submit_to_queue (Some 0%nat) (Item 0) work_x1).2.
Definition work_x3 : work_sys := (work_flush_locked (Item 0) 5 work_x2).2.
Definition work_x4 : work_sys := (sync_sem_take 5 work_x3).2.
Definition work_x5 : work_sys := (work_queue_take 0 work_x4).2.

Lemma work_run1 : work_run work_x0 [] work_x1.
Proof.
  exact (run_next work_x0 [] work_x0 [] [] work_x1 (run_start work_x0) (ws_start work_x0 0 5 None ltac:(by_compute)) eq_refl).
Qed.

(** A sync object that no flush or cancellation has used. *)
Lemma fresh_sync tr x y :
  work_run work_x0 tr x -> target y tr = None -> bool_decide (y ∈ pending_cancels x) = false -> ~ used y x.
Proof.
  intros Hr Ht Hc. destruct (wi_trace _ _ (run_ok _ _ _ work_x0_clean Hr)) as [_ _ H1 H2]. apply bool_decide_eq_false in Hc.
  intros [| [q [Hq | Hq]]]; [done | |].
  - apply list_elem_of_split in Hq as (l1 & l2 & E). destruct (H1 _ _ _ _ E) as (i & n & E' & _). congruence.
  - destruct (H2 _ _ Hq) as (i & n & E' & _). congruence.
Qed.

Lemma work_run2 : work_run work_x0 [Accept 0] work_x2.
Proof.
  apply (run_next work_x0 [] work_x1 [Accept 0] _ work_x2 work_run1 (ws_submit work_x1 (Some 0%nat) 0)). by_compute.
Qed.

Lemma work_run3 : work_run work_x0 [FlushFrom 5 0; Accept 0] work_x3.
Proof.
  apply (run_next work_x0 [Accept 0] work_x2 [FlushFrom 5 0] _ work_x3 work_run2 (ws_flush work_x2 0 5 ltac:(by_compute) ltac:(apply (fresh_sync _ _ _ work_run2); by_compute))).
  by_compute.
Qed.

Lemma work_x3_used : used 5 work_x3.
Proof. right. exists 0%nat. left. by_compute. Qed.

Lemma work_run4 : work_run work_x0 [FlushFrom 5 0; Accept 0] work_x4.
Proof.
  exact (run_next work_x0 _ work_x3 [] [] work_x4 work_run3
    (ws_wait work_x3 5 ltac:(by_compute) ltac:(by_compute) (or_introl work_x3_used)) eq_refl).
Qed.

Lemma work_run5 : work_run work_x0 [Start 0; FlushFrom 5 0; Accept 0] work_x5.
Proof.
  apply (run_next work_x0 _ work_x4 [Start 0] _ work_x5 work_run4 (ws_take work_x4 0 ltac:(by_compute) ltac:(by_compute))).
  by_compute.
Qed.

(** The item finishes and the flusher is run. *)
Definition work_x6 : work_sys := work_queue_done 0 (Item 0) work_x5.
Definition work_x7 : work_sys := (work_queue_take 0 work_x6).2.
Definition work_x8 : work_sys := work_queue_done 0 (Flusher 5) work_x7.

Lemma work_run8 : work_run work_x0 [FlushEnd 5; Finish 0; Start 0; FlushFrom 5 0; Accept 0] work_x8.
Proof.
  assert (work_run work_x0 [Finish 0; Start 0; FlushFrom 5 0; Accept 0] work_x6) as H6.
  { apply (run_next work_x0 _ work_x5 [Finish 0] _ work_x6 work_run5 (ws_done work_x5 0 (Item 0) ltac:(by_compute) ltac:(by_compute)) eq_refl). }
  assert (work_run work_x0 [Finish 0; Start 0; FlushFrom 5 0; Accept 0] work_x7) as H7.
  { apply (run_next work_x0 _ work_x6 [] _ work_x7 H6 (ws_take work_x6 0 ltac:(by_compute) ltac:(by_compute))). by_compute. }
  apply (run_next work_x0 _ work_x7 [FlushEnd 5] _ work_x8 H7 (ws_done work_x7 0 (Flusher 5) ltac:(by_compute) ltac:(by_compute)) eq_refl).
Qed.

(** While item 0 runs, a handler on queue 1 and one on queue 2 cancel it and
    wait. *)
Definition canceller_on (q i y : nat) (x : work_sys) : work_sys :=
  let x := k_work_queue_start q 1 None x in
  let x := (work_queue_take q x).2 in
  let x := (k_work_submit_to_queue (Some q) (Item i) x).2 in
  let x := (work_queue_take q x).2 in
  let x := (work_cancel_sync_locked (Item 0) y x).2 in
  (sync_sem_take y x).2.

Definition work_x9 : work_sys := canceller_on 1 1 1 work_x5.
Definition work_x10 : work_sys := canceller_on 2 2 2 work_x9.

Lemma canceller_run q i y tr x :
  work_run work_x0 tr x -> target y tr = None ->
  let x1 := k_work_queue_start q 1 None x in
  let x2 := (work_queue_take q x1).2 in
  let x3 := (k_work_submit_to_queue (Some q) (Item i) x2).2 in
  let x4 := (work_queue_take q x3).2 in
  let x5 := (work_cancel_sync_locked (Item 0) y x4).2 in
  idle_queue q x -> queue_runs q x1 -> ws_active x1 q = None -> take_event (work_queue_take q x1).1 = [] -> submit_event i (k_work_submit_to_queue (Some q) (Item i) x2).1 = [Accept i] ->
  queue_runs q x3 -> ws_active x3 q = None -> take_event (work_queue_take q x3).1 = [Start i] -> delayable 0 x4 = false ->
  bool_decide (y ∈ pending_cancels x4) = false -> withdraw_event 0 x4 = [] ->
  current (ws_kernel x5) ∈ runq (ws_kernel x5) -> waiting (Sync y) x5 = [] -> bool_decide (y ∈ pending_cancels x5) = true ->
  work_run work_x0 (Start i :: Accept i :: tr) (canceller_on q i y x).
Proof.
  intros Hr Ht x1 x2 x3 x4 x5 Hi R1 A1 E1 E2 R3 A3 E3 D4 C4 W4 R5 S5 C5.
  pose proof (run_next _ _ _ [] _ x1 Hr (ws_start x q 1 None Hi) eq_refl) as H1.
  pose proof (run_next _ _ _ [] _ x2 H1 (ws_take x1 q R1 A1) E1) as H2.
  pose proof (run_next _ _ _ [Accept i] _ x3 H2 (ws_submit x2 (Some q) i) E2) as H3.
  pose proof (run_next _ _ _ [Start i] _ x4 H3 (ws_take x3 q R3 A3) E3) as H4.
  pose proof (run_next _ _ _ [] _ x5 H4 (ws_cancel_sync x4 0 y D4 (fresh_sync _ _ _ H4 Ht C4)) W4) as H5.
  apply bool_decide_eq_true in C5.
  exact (run_next _ _ _ [] _ _ H5 (ws_wait x5 y R5 S5 (or_introl (or_introl C5))) eq_refl).
Qed.

Lemma work_run9 : work_run work_x0 [Start 1; Accept 1; Start 0; FlushFrom 5 0; Accept 0] work_x9.
Proof.
  apply (canceller_run 1 1 1 _ work_x5 work_run5 eq_refl); try by_compute.
Qed.

Lemma work_run10 : work_run work_x0 [Start 2; Accept 2; Start 1; Accept 1; Start 0; FlushFrom 5 0; Accept 0] work_x10.
Proof.
  apply (canceller_run 2 2 2 _ work_x9 work_run9 eq_refl); try by_compute.
Qed.

(** A delayable item whose timeout has left the list. *)
Definition work_x11 : work_sys := k_work_init_delayable 3 (user_handler 0) work_x1.
Definition work_x12 : work_sys := (k_work_schedule_for_queue (Some 0%nat) 3 10 work_x11).2.
Definition expired_kernel : z_kernel :=
  set_timeouts (z_abort_timeout (dwork_timeout 3) (timeouts (ws_kernel work_x12))).2 (ws_kernel work_x12).
Definition work_x13 : work_sys := upd_kernel (λ _, expired_kernel) work_x12.

Lemma work_run13 : work_run work_x0 [] work_x13.
Proof.
  pose proof (run_next _ _ _ [] _ work_x11 work_run1 (ws_init_delayable work_x1 3 (user_handler 0) ltac:(split_and!; by_compute)) eq_refl) as H1.
  assert (accept_event 3 work_x11 work_x12 = []) as E by by_compute.
  pose proof (run_next _ _ _ [] _ work_x12 H1 (ws_schedule work_x11 (Some 0%nat) 3 10 ltac:(by_compute) ltac:(by split)) E) as H2.
  assert (env_move work_x12 expired_kernel) as Hm.
  { apply moved_env. apply (abort_dwork_timeout 3 (ws_kernel work_x12)). apply (run_ok _ _ _ work_x0_clean H2). }
  exact (run_next _ _ _ [] _ work_x13 H2 (ws_env work_x12 expired_kernel Hm) eq_refl).
Qed.

(** ** Witnesses *)

Lemma work_queue_invariant_witness : running 0 work_x10 = true /\ home 0 work_x10 = Some 0%nat /\ NoDup (pending 0 work_x10).
Proof.
  destruct (work_queue_invariant work_x0 _ work_x10 work_x0_clean work_run10) as (_ & H & Hn & _).
  destruct (proj1 (H 0%nat 0%nat)) as [H1 H2]; [by_compute |]. exact (conj H1 (conj H2 (Hn 0%nat))).
Defined.

Lemma work_conservation_witness :
  (count (Accept 0) [Start 0; FlushFrom 5 0; Accept 0] = 1 + 0 + Nat.b2n (queued 0 work_x5))%nat /\
  (count (Start 0) [Start 0; FlushFrom 5 0; Accept 0] = 0 + Nat.b2n (running 0 work_x5))%nat /\
  (∀ q, (work_queue_take q work_x5).1 = (λ w, (w, handler (ws_work work_x5 w))) <$> head (pending q work_x5)).
Proof. exact (work_conservation work_x0 _ work_x5 0 work_x0_clean work_run5). Defined.


Lemma work_cancel_strands_waiter_witness :
  let x' := work_queue_done 0 (Item 0) work_x10 in
  running 0 x' = false /\ waiting (Sync 1) x' = [] /\ waiting (Sync 2) x' = [12%nat].
Proof.
  destruct (work_cancel_strands_waiter _ work_x10 0 0 1 2 [] [] [] 12 (run_ok _ _ _ work_x0_clean work_run10)) as (_ & H1 & _ & _ & H2 & _ & H3 & _);
    [by_compute.. | | by_compute | by_compute | by_compute | exact (conj H1 (conj H2 H3))].
  intros z Hz. destruct (not_elem_of_nil z Hz).
Defined.

Lemma work_reschedule_race_witness :
  let x2 := work_timeout 3 (k_work_reschedule_for_queue (Some 0%nat) 3 100 work_x13).2 in
  queued 3 x2 = true /\ delayed 3 x2 = false /\ linked 3 x2 = true.
Proof.
  destruct (work_reschedule_race _ work_x13 3 0 100 100 (run_ok _ _ _ work_x0_clean work_run13)) as (_ & _ & H1 & H2 & H3 & _);
    [by_compute.. | by split | by_compute | by_compute | by_compute | by_compute | exact (conj H1 (conj H2 H3))].
Defined.
