(* ===== verification/WorkFlush.v ===== *)
(** * Work queues: a flush waits

    A thread in [k_work_flush] sleeps until the flusher it queued has been run,
    whatever else happens to the module, and by then every earlier submission of
    the item has run or been withdrawn. *)

From Stdlib Require Import ZArith Lia Bool.
From stdpp Require Import base numbers functions list gmap sets.
From S2P Require Import Prelude TimeoutQ Kernel PrioQ Sched SchedInv SchedOps Threads WaitApi Sem Work WorkKern WorkInv WorkTrace WorkOps WorkEnv WorkRun.

Open Scope Z_scope.

Section Flush.
Context {cfg : Kconfig}.
Implicit Types (tr : list work_event) (x : work_sys) (q i y z : nat) (queue : option nat).

(** ** What leaves a waiting flush alone *)

(** The flush on [y] goes on as before. *)
Definition calm y x x' : Prop :=
  waiting (Sync y) x' = waiting (Sync y) x /\ (used y x' <-> used y x) /\ (y ∈ pending_cancels x' <-> y ∈ pending_cancels x).

Lemma calm_refl y x : calm y x x.
Proof. done. Qed.

Lemma calm_trans y x x1 x2 : calm y x x1 -> calm y x1 x2 -> calm y x x2.
Proof. intros (E1 & U1 & C1) (E2 & U2 & C2). split; [congruence |]. by rewrite U2, C2. Qed.

(** The kernel state does not change. *)
Lemma calm_same y x x' :
  same_objects x x' -> ws_kernel x' = ws_kernel x -> (used y x' <-> used y x) -> pending_cancels x' = pending_cancels x -> calm y x x'.
Proof. intros Ho Ek Hu Ec. split; [| by rewrite Ec]. unfold waiting. by rewrite (so_wq _ _ Ho), Ek. Qed.

(** At most the wait queue of another object changes. *)
Lemma calm_moved y o l x x' :
  (∀ o o', wq_of x o = wq_of x o' -> o = o') -> same_objects x x' ->
  moved (λ v, if decide (wq_of x o = v) then l else waitq (ws_kernel x) v) (ws_kernel x) (ws_kernel x') -> o ≠ Sync y ->
  (used y x' <-> used y x) -> pending_cancels x' = pending_cancels x -> calm y x x'.
Proof.
  intros Hi Ho Hm Hne Hu Ec. split; [| by rewrite Ec]. unfold waiting. rewrite (so_wq _ _ Ho), (mv_waitq _ _ _ Hm), decide_False; [done |].
  intros E. by apply Hi in E.
Qed.

Lemma calm_env y x s' : env_move x s' -> calm y x (upd_kernel (λ _, s') x).
Proof. intros [_ Hw _]. split; [exact (Hw (Sync y)) | done]. Qed.

Lemma calm_item y i x x' : item_only i x x' -> calm y x x'.
Proof. intros []. by apply calm_same. Qed.

(** What is needed of a state in which a queue is notified. *)
Definition wakes x : Prop := sched_inv ∅ (ws_kernel x) /\ ∀ o o', wq_of x o = wq_of x o' -> o = o'.

Lemma work_wakes tr x : work_inv tr x -> wakes x.
Proof. intros Hx. split; apply Hx. Qed.

Lemma calm_accepted y i q x : wakes x -> calm y x (accepted i q x).
Proof.
  intros [Hs Hi]. pose proof (moved_wake (wq_of x (Notify q)) 0 0 (ws_kernel x) Hs) as [Hm _].
  apply (calm_moved y (Notify q) (tail (waitq (ws_kernel x) (wq_of x (Notify q)))) x _ Hi (accepted_objects i q x)); [| done | | ].
  - unfold accepted. rewrite notify_eq. cbn [upd_work work_set upd_kernel ws_kernel].
    replace (notifyq (ws_queue (set_pending q (pending q x ++ [Item i]) x) q)) with (wq_of x (Notify q)); [exact Hm |].
    exact (eq_sym (so_wq _ _ (same_objects_pending q (pending q x ++ [Item i]) x) (Notify q))).
  - apply used_same; [| by unfold accepted; rewrite notify_eq..].
    intros r. rewrite accepted_pending. case_decide; [subst; set_solver | done].
  - unfold accepted. by rewrite notify_eq.
Qed.

Lemma calm_submit y i queue x : wakes x -> calm y x (submit_to_queue_locked (Item i) queue x).2.
Proof.
  intros Hk. rewrite submit_eq. destruct (canceling i x), (queued i x); try apply calm_refl.
  destruct (submit_queue i queue x) as [q |]; [| apply calm_refl]. destruct (queue_accepts q x); [by apply calm_accepted | apply calm_refl].
Qed.

Lemma calm_k_submit tr y i queue x : work_inv tr x -> calm y x (k_work_submit_to_queue queue (Item i) x).2.
Proof.
  intros Hx. destruct (submit_ok tr i queue x Hx) as [H _]. pose proof (calm_submit y i queue x (work_wakes _ _ Hx)) as Hc.
  unfold k_work_submit_to_queue, z_work_submit_to_queue. destruct (submit_to_queue_locked (Item i) queue x) as [[ret queue'] x1].
  cbv zeta in *. cbn [fst snd] in *. destruct (ret >? 0); [| done]. eapply calm_trans; [exact Hc |].
  apply (calm_env y x1), moved_env, moved_reschedule, H.
Qed.

(** Another sync object is set up. *)
Lemma calm_init tr y z x : work_inv tr x -> ~ used z x -> calm y x (sync_sem_init z x).
Proof.
  intros Hx Hu. destruct (sync_init_ok tr z x Hx Hu) as (_ & Ho & _). pose proof (moved_init z x (wi_kern _ _ Hx) Hu) as Hm.
  split; [| done]. exact (moved_no_waiting x _ Ho Hm (Sync y)).
Qed.

Lemma calm_flusher tr y z i q x : work_inv tr x -> ~ used z x -> y ≠ z -> calm y x (flusher_added q i z x).
Proof.
  intros Hx Hu Hne. destruct (flusher_frame q i z x) as (Ho & Ek & _ & Ec & Ea & _). destruct (sync_init_ok tr z x Hx Hu) as (H0 & _).
  cbv zeta in *. eapply calm_trans; [by apply (calm_init tr y z x) |]. set (x0 := sync_sem_init z x) in *.
  pose proof (moved_wake (wq_of x0 (Notify q)) 0 0 (ws_kernel x0) (ki_sched _ (wi_kern _ _ H0))) as [Hm _]. rewrite <- Ek in Hm.
  apply (calm_moved y (Notify q) _ x0 _ (ki_objects _ (wi_kern _ _ H0)) Ho Hm); [done | | done].
  apply used_same; [| by rewrite Ea | by rewrite Ec].
  intros r. rewrite flusher_pending. change (pending r x0) with (pending r x). case_decide; [subst r | done].
  rewrite with_flusher_perm, elem_of_cons. naive_solver.
Qed.

Lemma calm_flush tr y z i x : work_inv tr x -> ~ used z x -> y ≠ z -> calm y x (work_flush_locked (Item i) z x).2.
Proof.
  intros Hx Hu Hne. destruct (work_flush_eq i z x (wi_data _ _ Hx)) as [[_ ->] | (_ & q & _ & ->)]; [apply calm_refl |].
  by apply (calm_flusher tr).
Qed.

Lemma calm_canceller tr y z w x : work_inv tr x -> ~ used z x -> y ≠ z -> calm y x (init_work_cancel z w x).
Proof.
  intros Hx Hu Hne. destruct (canceller_ok tr z w x Hx Hu) as (_ & Ec & Ho & _ & _). cbv zeta in *.
  assert (y ∈ pending_cancels (init_work_cancel z w x) <-> y ∈ pending_cancels x) as Hc by (rewrite Ec, elem_of_app, list_elem_of_singleton; naive_solver).
  split; [| split; [| exact Hc]].
  - exact (moved_no_waiting x _ Ho (moved_init z x (wi_kern _ _ Hx) Hu) (Sync y)).
  - by apply used_same.
Qed.

Lemma calm_cancel_sync tr y z i x : work_inv tr x -> ~ used z x -> y ≠ z -> calm y x (cancel_sync_locked (Item i) z x).2.
Proof. intros Hx Hu Hne. unfold cancel_sync_locked. cbn [snd]. case_match; [by apply (calm_canceller tr) | apply calm_refl]. Qed.

Lemma calm_unschedule tr y i x : work_inv tr x -> calm y x (unschedule_locked i x).2.
Proof.
  intros Hx. destruct (unschedule_ok tr i x Hx) as (_ & _ & _ & _ & Ho & _ & Hu & _). cbv zeta in *.
  assert ((∀ v, waitq (ws_kernel (unschedule_locked i x).2) v = waitq (ws_kernel x) v) /\
    pending_cancels (unschedule_locked i x).2 = pending_cancels x) as [Ew Ec].
  { unfold unschedule_locked. change (work_test_and_clear (Item i) K_WORK_DELAYED_BIT x) with (delayed i x, work_clear (Item i) K_WORK_DELAYED_BIT x).
    destruct (delayed i x); [| done]. by destruct (z_abort_timeout _ _). }
  split; [unfold waiting; by rewrite (so_wq _ _ Ho), Ew |]. by rewrite Ec.
Qed.

Lemma calm_schedule y i queue delay x : wakes x -> calm y x (schedule_for_queue_locked queue i delay x).2.
Proof.
  intros Hk. unfold schedule_for_queue_locked. destruct (K_TIMEOUT_EQ delay K_NO_WAIT); [by apply calm_submit |]. split; [| done].
  by cbn.
Qed.

(** A thread waits on another sync object. *)
Lemma calm_wait tr y z x :
  work_inv tr x -> current (ws_kernel x) ∈ runq (ws_kernel x) -> y ≠ z -> calm y x (sync_sem_take z x).2.
Proof.
  intros Hx Hc Hne. unfold sync_sem_take, z_impl_k_sem_take. set (sem := sync_sem (ws_sync x z)). destruct (sem_count sem >? 0).
  - apply calm_same; [| done | done | done]. eapply same_objects_trans; [apply same_objects_kernel | by apply same_objects_sync].
  - change (K_TIMEOUT_EQ K_FOREVER K_NO_WAIT) with false. cbv zeta iota. cbn [snd].
    apply (calm_moved y (Sync z) (z_priq_dumb_add (thr (ws_kernel x)) (waiting (Sync z) x) (current (ws_kernel x))) x _ (ki_objects _ (wi_kern _ _ Hx)));
      [| | congruence | done | done].
    + eapply same_objects_trans; [apply same_objects_kernel | by apply same_objects_sync].
    + exact (moved_pend (sem_wait_q sem) (ws_kernel x) (ki_sched _ (wi_kern _ _ Hx)) Hc).
Qed.

Lemma calm_take tr y q x :
  work_inv tr x -> queue_runs q x -> ws_active x q = None -> calm y x (work_queue_take q x).2.
Proof.
  intros Hx [H1 H2] Ha. pose proof (wi_kern _ _ Hx) as Hk. destruct (pending q x) as [| w l] eqn:Hp.
  - rewrite idle_eq by done. cbn [snd]. destruct (idled_frame q x) as (_ & Ep & Ea & _ & Ec & _).
    pose proof (idled_moved q x Hk H1 H2) as Hm. split; [| split; [| by rewrite Ec]].
    + unfold waiting. rewrite (so_wq _ _ (idled_objects q x)), (mv_waitq _ _ _ Hm).
      rewrite !decide_False; [done | |]; intros E; by apply (ki_objects _ Hk) in E.
    + apply used_same; intros *; by rewrite ?Ep, ?Ea, ?Ec.
  - destruct (take_eq q w l x Hp) as [h ->]. cbn [snd]. apply calm_same; [apply taken_objects | done | | done].
    assert (∀ r, held y r (taken q w l x) <-> held y r x) as Hh; [| unfold used; by setoid_rewrite Hh].
    intros r. unfold held. rewrite taken_pending. unfold taken. rewrite active_set. case_decide; [subst r | done].
    rewrite Hp, Ha, elem_of_cons. naive_solver.
Qed.

Lemma calm_done tr y q w x :
  work_inv tr x -> ws_active x q = Some w -> current (ws_kernel x) ∈ runq (ws_kernel x) -> w ≠ Flusher y -> used y x ->
  y ∉ pending_cancels x -> calm y x (work_queue_done q w x).
Proof.
  intros Hx Ha Hc Hw Hus Hnc. pose proof Hx as [Hd _ Hk]. rewrite done_eq by done.
  destruct (finished_ok tr q w x Hx Ha) as [Hf [K1 K2]]. pose proof (finished_used q w x y Hd Ha) as [_ Hu].
  destruct (finished_frame q w x) as (Ho & Ec & _ & _ & _ & _ & _ & Er). cbv zeta in *. set (x' := finished q w x) in *.
  assert (released w x ≠ Some y /\ (y ∈ cancels_left w x <-> y ∈ pending_cancels x)) as [Hr Hcl].
  { destruct (released w x) as [z |] eqn:Erl; [| split; [done | by rewrite cancels_left_same by auto]].
    destruct (work_released_used q w x z Hd Ha Erl) as [_ [-> | (_ & l1 & l2 & E1 & E2)]].
    - split; [congruence | by rewrite cancels_left_same by eauto].
    - rewrite E1, E2 in *. split; [intros [= ->]; apply Hnc; set_solver | set_solver]. }
  assert (calm y x x') as Hcalm.
  { split; [| split; [by apply Hu | by rewrite Ec]]. destruct (released w x) as [z |] eqn:Erl.
    - destruct (work_released_used q w x z Hd Ha Erl) as [Hz _]. destruct (give_moved z x Hk Hz) as [Hm _]. cbv zeta in Hm.
      destruct Er as [Ek _]. rewrite <- Ek in Hm. rewrite (moved_waiting x x' Hk Ho (Sync z) [] Hm), decide_False; congruence.
    - destruct Er as [Ek _]. unfold waiting. by rewrite (so_wq _ _ Ho), Ek. }
  destruct (negb _); [| done]. eapply calm_trans; [exact Hcalm |].
  apply (calm_env y x'), moved_env, moved_yield; [apply Hf |]. rewrite K1. auto.
Qed.

Lemma calm_start tr y q prio config x : work_inv tr x -> idle_queue q x -> calm y x (k_work_queue_start q prio config x).
Proof.
  intros Hx Hq. destruct (start_eq q prio config x (ki_sched _ (wi_kern _ _ Hx)) Hq) as (s' & -> & Hm). destruct Hq as [Hp _].
  assert (calm y x (started q config x)) as H1.
  { apply calm_same; [| done | | done].
    - constructor; [intros [] | intros]; cbn [wq_of]; unfold started; wunfold; wcase; by wunfold.
    - apply used_same; [| done | done]. intros r. unfold started. wunfold. wcase; wunfold; [| done]. wcase; wunfold; by rewrite Hp. }
  eapply calm_trans; [exact H1 |]. split; [| done].
  exact (mv_waitq _ _ _ Hm (wq_of (started q config x) (Sync y))).
Qed.

Lemma calm_drain tr y q plug x :
  work_inv tr x -> current (ws_kernel x) ∈ runq (ws_kernel x) -> calm y x (k_work_queue_drain q plug x).2.
Proof.
  intros Hx Hc. pose proof (wi_kern _ _ Hx) as Hk. unfold k_work_queue_drain. destruct (_ || _); [| apply calm_refl]. cbv zeta. cbn [snd].
  set (x1 := if plug then _ else _).
  assert (calm y x x1 /\ same_objects x x1 /\ ws_kernel x1 = ws_kernel x) as (H1 & O1 & E1).
  { assert (∀ r, pending r x1 = pending r x) as Ep by (intros r; unfold x1; destruct plug; by rewrite ?pending_qset).
    assert (same_objects x x1) as Ho by (unfold x1; destruct plug; solve_objects).
    assert (ws_kernel x1 = ws_kernel x /\ ws_active x1 = ws_active x /\ pending_cancels x1 = pending_cancels x) as (Ek & Ea & Ec) by (unfold x1; by destruct plug).
    split; [| done]. apply calm_same; [done | done | | done]. apply used_same; intros *; by rewrite ?Ep, ?Ea, ?Ec. }
  clearbody x1. eapply calm_trans; [exact H1 |]. rewrite notify_eq. set (x2 := upd_kernel _ x1).
  assert (∀ o o', wq_of x1 o = wq_of x1 o' -> o = o') as Hi by (intros o o'; rewrite !(so_wq _ _ O1); apply Hk).
  assert (sched_inv ∅ (ws_kernel x1)) as Hs by (rewrite E1; apply Hk).
  destruct (moved_wake (wq_of x1 (Notify q)) 0 0 (ws_kernel x1) Hs) as [Hm [K1 K2]].
  change (z_sched_wake (wq_of x1 (Notify q)) 0 0 (ws_kernel x1)).2 with (ws_kernel x2) in *.
  eapply calm_trans; [exact (calm_moved y (Notify q) _ x1 x2 Hi (same_objects_kernel _ _) Hm ltac:(done) ltac:(done) eq_refl) |].
  assert (current (ws_kernel x2) ∈ runq (ws_kernel x2)) as Hc2 by (rewrite K1; apply K2; by rewrite E1).
  apply (calm_moved y (Drain q) (z_priq_dumb_add (thr (ws_kernel x2)) (waiting (Drain q) x2) (current (ws_kernel x2))) x2 _ Hi); [apply same_objects_kernel | | done | done | done].
  exact (moved_pend (wq_of x2 (Drain q)) (ws_kernel x2) (mv_inv _ _ _ Hm) Hc2).
Qed.

Lemma calm_timeout y i x : wakes x -> calm y x (work_timeout i x).
Proof.
  intros Hk. unfold work_timeout. change (work_test_and_clear (Item i) K_WORK_DELAYED_BIT x) with (delayed i x, work_clear (Item i) K_WORK_DELAYED_BIT x).
  cbv zeta. set (x1 := work_clear (Item i) K_WORK_DELAYED_BIT x).
  assert (calm y x x1) as H1 by (apply calm_same; [apply same_objects_clear | done | done | done]). destruct (delayed i x); [| done].
  pose proof (calm_submit y i (dwork_queue x1 i) x1 Hk) as H2. destruct (submit_to_queue_locked _ _ _) as [[ret queue] x2]. by eapply calm_trans.
Qed.

Lemma calm_cancel_delayable tr y i x : work_inv tr x -> calm y x (cancel_delayable_async_locked i x).2.
Proof.
  intros Hx. destruct (unschedule_ok tr i x Hx) as (H1 & _ & Hd & _). cbv zeta in *. unfold cancel_delayable_async_locked.
  eapply calm_trans; [by apply (calm_unschedule tr) |]. destruct (cancel_async_ok tr i _ H1 Hd) as (_ & H2 & _). by eapply calm_item.
Qed.

Lemma calm_flush_delayable tr y z i x :
  work_inv tr x -> ~ used z x -> y ≠ z -> calm y x (flush_delayable_locked i z x).2.
Proof.
  intros Hx Hu Hne. unfold flush_delayable_locked. destruct (_ =? 0); [apply calm_refl |].
  destruct (unschedule_ok tr i x Hx) as (H1 & _ & _ & _ & _ & _ & Hu1 & _). pose proof (calm_unschedule tr y i x Hx) as Hc1. cbv zeta in *.
  destruct (unschedule_locked i x) as [unscheduled x1]. cbn [fst snd] in *. eapply calm_trans; [exact Hc1 |].
  destruct unscheduled; [| apply (calm_flush tr); [done | by rewrite Hu1 | done]].
  destruct (submit_ok tr i (dwork_queue x1 i) x1 H1) as [H2 _]. pose proof (calm_submit y i (dwork_queue x1 i) x1 (work_wakes _ _ H1)) as Hc2.
  pose proof (submitted_used i (dwork_queue x1 i) x1 z) as Hu2. cbv zeta in *. destruct (submit_to_queue_locked _ _ _) as [[ret queue] x2]. cbn [snd] in *.
  eapply calm_trans; [exact Hc2 |]. eapply calm_flush; [exact H2 | by rewrite Hu2, Hu1 | done].
Qed.

(** ** The wait *)

(** Thread [t] sleeps on [y], whose flusher has not been run. *)
Definition flush_waits y (t : tid) x : Prop := used y x /\ y ∉ pending_cancels x /\ waiting (Sync y) x = [t].

Lemma calm_waits y t x x' : calm y x x' -> flush_waits y t x -> flush_waits y t x'.
Proof. intros (E & Hu & Hc) (H1 & H2 & H3). split; [by apply Hu |]. split; [by rewrite Hc | congruence]. Qed.

(** The steps, but for the end of the flusher on [y]. *)
Lemma step_calm tr y t x ev x' :
  work_inv tr x -> flush_waits y t x -> work_step x ev x' -> calm y x x' \/ ev = [FlushEnd y] /\ exists q, ws_active x q = Some (Flusher y).
Proof.
  intros Hx (Hus & Hnc & Hw) Hs. assert (∀ z, ~ used z x -> y ≠ z) as Hz by congruence. pose proof (work_wakes _ _ Hx) as Hk.
  assert (∀ i, delayable i x = false -> delayed i x = false) as Hnd.
  { intros i Hi. apply not_true_is_false. intros Hd. apply (ii_delayed _ _ (di_item _ (wi_data _ _ Hx) i)) in Hd. unfold delayable in Hi. congruence. }
  destruct Hs.
  - left. by apply (calm_k_submit tr).
  - left. apply (calm_flush tr); auto.
  - left. eapply calm_item, (cancel_async_ok tr i x Hx (Hnd i H)).
  - left. unfold work_cancel_sync_locked. destruct (negb _); [| apply calm_refl].
    destruct (cancel_async_ok tr i x Hx (Hnd i H)) as (H1 & H2 & _). cbv zeta in *.
    pose proof (calm_cancel_sync _ y y0 i _ H1) as H3. destruct (cancel_sync_locked _ _ _) as [need x2]. cbn [snd] in *.
    eapply calm_trans; [by eapply calm_item |]. apply H3; [by rewrite (io_used _ _ _ H2) | auto].
  - left. apply (calm_wait tr); [done | done |]. intros <-. congruence.
  - left. by apply (calm_take tr).
  - destruct (decide (w = Flusher y)) as [-> | Hne]; [right; eauto |]. left. apply (calm_done tr); [done | done | apply H | done..].
  - left. by apply (calm_start tr).
  - left. by apply (calm_drain tr).
  - left. change (k_work_queue_unplug q x).2 with (queue_clear q K_WORK_QUEUE_PLUGGED_BIT x).
    apply calm_same; [apply same_objects_qclear | done | | done]. apply used_same; [| done | done]. intros r. by rewrite pending_qclear.
  - left. apply calm_same; [apply same_objects_work | done | done | done].
  - left. apply calm_same; [eapply same_objects_trans; [apply same_objects_work | apply same_objects_dwork] | done | done | done].
  - left. by apply calm_timeout.
  - left. unfold x', k_work_schedule_for_queue. destruct (_ =? 0); [| apply calm_refl]. pose proof (calm_schedule y i queue delay x Hk) as H1.
    by destruct (schedule_for_queue_locked _ _ _ _) as [[ret queue'] x2].
  - left. unfold x', k_work_reschedule_for_queue. destruct (unschedule_ok tr i x Hx) as (H1 & _). cbv zeta in *.
    pose proof (calm_unschedule tr y i x Hx) as H2. pose proof (calm_schedule y i queue delay _ (work_wakes _ _ H1)) as H3.
    destruct (schedule_for_queue_locked _ _ _ _) as [[ret queue'] x2]. by eapply calm_trans.
  - left. by apply (calm_cancel_delayable tr).
  - left. unfold cancel_delayable_sync_locked. destruct (negb _); [| apply calm_refl]. destruct (cancel_delayable_ok tr i x Hx) as (H1 & H2).
    pose proof (calm_cancel_delayable tr y i x Hx) as H3. cbv zeta in *. pose proof (calm_cancel_sync _ y y0 i _ H1) as H4.
    destruct (cancel_sync_locked _ _ _) as [need x2]. cbn [snd] in *. eapply calm_trans; [exact H3 |]. apply H4; [by rewrite H2 | auto].
  - left. apply (calm_flush_delayable tr); auto.
  - left. by apply calm_env.
Qed.

(** Only a flush on [y] sets its target. *)
Lemma step_target tr y t x ev x' :
  work_inv tr x -> flush_waits y t x -> work_step x ev x' -> ∀ l, target y (ev ++ l) = target y l.
Proof.
  intros Hx (Hus & _) Hs l. assert (∀ z, ~ used z x -> z ≠ y) as Hz by congruence.
  assert (∀ i u u' k, target y (accept_event i u u' ++ k) = target y k) as Ha by (intros i u u' k; unfold accept_event; by destruct (_ && _)).
  assert (∀ b z i k, z ≠ y -> target y (flush_event b z i ++ k) = target y k) as Hf by (intros [] z i k Hne; [cbn; by rewrite decide_False | done]).
  assert (∀ i u, target y (withdraw_event i u ++ l) = target y l) as Hwd by (intros i u; unfold withdraw_event; by destruct (queued i u)).
  destruct Hs; try done; try apply Ha; try (apply Hf; by apply Hz); try apply Hwd.
  - unfold submit_event. by destruct (_ >? 0).
  - unfold take_event. by destruct (_.1) as [[[] ?] |].
  - by destruct w.
  - rewrite <- app_assoc, Hf by (by apply Hz). apply Ha.
Qed.

(** A thread that waits for the flush of [i] is asleep or the flusher has been
    run after the submissions the flush found. *)
Lemma flush_run x0 tr x1 y t i n tr2 x2 :
  work_clean x0 -> work_run x0 tr x1 -> flush_waits y t x1 -> target y tr = Some (i, n) -> work_run x1 tr2 x2 ->
  work_run x0 (tr2 ++ tr) x2 /\
  (flush_waits y t x2 /\ target y (tr2 ++ tr) = Some (i, n) \/
   exists tr3 tr4, tr2 = tr4 ++ FlushEnd y :: tr3 /\ (n <= settled i (tr3 ++ tr))%nat).
Proof.
  intros H0 Hr Hw Ht Hrun. induction Hrun as [| tr2 x2 ev x3 Hrun [IHr IH] Hs]; [by split; [| left] |].
  split; [rewrite <- app_assoc; by eapply run_step |]. destruct IH as [[Hw2 Ht2] | (tr3 & tr4 & -> & Hle)].
  - pose proof (run_ok x0 _ x2 H0 IHr) as Hx2. destruct (step_calm _ y t x2 ev x3 Hx2 Hw2 Hs) as [Hc | [-> [q Hq]]].
    + left. split; [by eapply calm_waits |]. rewrite <- app_assoc. by erewrite step_target.
    + right. exists tr2, []. split; [done |]. destruct (ti_flushing _ _ (wi_trace _ _ Hx2) y q Hq) as (j & m & E & Hle). congruence.
  - right. exists tr3, (ev ++ tr4). split; [by rewrite <- app_assoc | done].
Qed.

(** C11: [k_work_flush], called by a running thread with a sync object that is not
    in use, returns at once, and changes nothing, only if the item is neither
    queued nor running.  Otherwise the caller sleeps, and at any later time of any
    run (of the steps of [work_step]: threads asleep in the module are not
    aborted or timed out, and no expiry handler is overtaken) it is still asleep,
    or the flusher has been run and by then every submission of the item accepted
    before the flush has finished or was withdrawn by a cancellation. *)
Theorem work_flush_waits x0 tr x i y :
  work_clean x0 -> work_run x0 tr x -> delayable i x = false -> ~ used y x -> current (ws_kernel x) ∈ runq (ws_kernel x) ->
  let '(o, x1) := k_work_flush (Item i) y x in
  if queued i x || running i x then
    o = Blocks /\
    ∀ tr2 x2, work_run x1 tr2 x2 ->
      (waiting (Sync y) x2 = [current (ws_kernel x)] /\ pended_on (thr (ws_kernel x2) (current (ws_kernel x))) = Some (wq_of x2 (Sync y))) \/
      exists tr3 tr4, tr2 = tr4 ++ FlushEnd y :: tr3 /\
        (count (Accept i) tr <= count (Finish i) (tr3 ++ tr) + count (Withdraw i) (tr3 ++ tr))%nat
  else o = Returns 0 /\ x1 = x.
Proof.
  intros H0 Hr Hd Hu Hc. pose proof (run_ok x0 tr x H0 Hr) as Hx. pose proof (k_work_flush_run x0 tr x i y H0 Hr Hd Hu Hc) as Hr1.
  unfold k_work_flush in *. destruct (work_flush_eq i y x (wi_data _ _ Hx)) as [[-> E] | (-> & q & Hh & E)]; rewrite E in *; [done |].
  destruct (flusher_after q i y x (wi_kern _ _ Hx) Hu) as (Hw & [K1 K2] & Hus).
  destruct (flusher_frame q i y x) as (_ & _ & _ & Ec & _). pose proof (flusher_ok tr q i y x Hx Hu Hh) as Hf. cbv zeta in *.
  destruct (sync_take_ok _ y _ Hf ltac:(rewrite K1; auto) Hw (or_introl Hus)) as (_ & H2 & _). cbv zeta in H2. destruct (H2 Hus) as [Hb Hw1].
  assert (used y (sync_sem_take y (flusher_added q i y x)).2 /\ pending_cancels (sync_sem_take y (flusher_added q i y x)).2 = pending_cancels x) as [Hus1 Ec1].
  { unfold sync_sem_take. destruct (z_impl_k_sem_take _ _ _) as [[o sem] s]. cbn [snd]. split; [exact Hus | exact Ec]. }
  unfold sync_finish in *. destruct (sync_sem_take y (flusher_added q i y x)) as [o x1]. cbn [fst snd flush_event app] in *. subst o. split; [done |].
  intros tr2 x2 Hrun. rewrite K1 in Hw1.
  destruct (flush_run x0 _ x1 y (current (ws_kernel x)) i (count (Accept i) tr) tr2 x2 H0 Hr1) as (Hr2 & [[(_ & _ & Hw2) _] | (tr3 & tr4 & -> & Hle)]);
    [split; [done |]; split; [rewrite Ec1; intros Hin; apply Hu; by left | done] | cbn [target]; by rewrite decide_True | done | left | right].
  - split; [done |]. apply (inv_waitq _ _ (ki_sched _ (wi_kern _ _ (run_ok x0 _ x2 H0 Hr2)))). fold (waiting (Sync y) x2). rewrite Hw2. left.
  - exists tr3, tr4. split; [done |]. etrans; [exact Hle |]. unfold settled, count. rewrite !filter_app, !filter_cons_False by done. done.
Qed.
End Flush.

(** ** The main thread flushes an item it has submitted *)

#[local] Existing Instance default_kconfig | 100.

Lemma work_flush_waits_witness :
  ∃ x1, k_work_flush (Item 0) 5 work_x2 = (Blocks, x1) /\ waiting (Sync 5) x1 = [current (ws_kernel work_x2)].
Proof.
  pose proof (work_flush_waits work_x0 _ work_x2 0 5 work_x0_clean work_run2 ltac:(by_compute) ltac:(apply (fresh_sync _ _ _ work_run2); by_compute) ltac:(by_compute)) as H.
  assert (queued 0 work_x2 || running 0 work_x2 = true) as E by by_compute. rewrite E in H.
  destruct (k_work_flush (Item 0) 5 work_x2) as [o x1]. destruct H as [-> H]. exists x1. split; [reflexivity |].
  destruct (H [] x1 (run_start x1)) as [[Hw _] | (tr3 & tr4 & Et & _)]; [exact Hw |]. destruct (app_cons_not_nil _ _ _ Et).
Defined.
